(* ===== verification/_CoqProject ===== *)
-Q . S2P
Prelude.v
CLib.v
HesCommon.v
HesQuery.v
Bm.v
BmFacts.v
BmSettle.v
BmValues.v
BmTerm.v
BmProps.v
BmLoad.v
BmFollow.v
Dispatch.v
DispatchFacts.v
Json.v
JsonText.v
Auth.v
AuthFacts.v
Crypto.v
CryptoFacts.v
Id.v
IdFacts.v
Devreg.v
Mreg.v
Dm.v
DmFacts.v
DmText.v
ManifestFacts.v
Utils.v
DmMain.v
Https.v
GeoTz.v
GeoTzFacts.v
Sntp.v
SntpFacts.v
TimeSync.v
TimeSyncFacts.v
SyncThread.v
SyncThreadFacts.v
Time.v
TimeFacts.v
Core.v
CoreFacts.v
CoreLive.v
Slice.v
ModuleLive.v
Wiz.v
WizFacts.v
Bus.v
Wifi.v
WifiFacts.v
WifiLive.v
WifiMain.v
HesBle.v
BleSim.v
Sensortag.v
Bluez.v
BluezFacts.v
BluezLive.v
Ble.v
BleFacts.v
BleLive.v
BleMain.v
System.v
Scene.v
Lifecycle.v
LifecycleFacts.v
AppLua.v
QueryPath.v
Heap.v
Own.v
BluezRefs.v
BluezRefsFacts.v
QueryMem.v
GatewayDoc.v
GatewayPrint.v
GatewayMem.v
Cli.v
SyncClock.v
