(* ===== verification/Prelude.v ===== *)
(** * The openhes gateway: a verification library (root file)

    openhes is a home-gateway in C after ISO/IEC 15045 and 18012-3. Modules exchange
    HES-CLME messages over a bus; the core module hosts the binding map, which turns
    reports of one device into commands to another, and the gateway's services; a
    device manifest service holds the product profile and what the interface modules
    report about their devices. This library models that program from its sources
    under src/src/ and proves what makes it correct.

    ** How the program is modelled

    Every C function is a function of the same name on the values it reads, returning
    the values it leaves. A fixed-size char buffer is a [string] that fits it, and the
    truncation of each copy is written out ([hes_strlcpy]); integers are [Z], wrapped
    to their width where the code converts; a [double] is an IEEE 754 binary64 value
    of the standard library's [SpecFloat]. Memory is modelled where it is the point: a
    heap of cells in Lifecycle, blocks in Heap and the files over it, the bytes of a growing
    buffer in QueryPath, the shared state of two threads in SyncThread. [option] is the result of code that can run
    out of fuel or leave its buffers: where C would write outside an array the model
    returns [None], and theorems say exactly when. Code outside src/src/ is a class or
    an argument: libxml2 ([LibXml]), the PSA Crypto API ([Psa], [PsaKdf]), NNG ([Nng]
    and the peer of a request), libcurl ([Curl]), the resolver and the sockets behind
    a time server ([udp_peer]) and behind a bulb ([Udp]), BlueZ's D-Bus objects
    ([Bluez]), the C library's clock and random numbers ([Libc]), the host's zone
    database ([tz_host]), jansson's reader ([json_loads]), the conversions C leaves
    undefined ([Target]), NNG's calls behind the bus ([NngBus]), the Lua interpreter
    ([Lua]), argtable3's parser ([ArgTable]), libuv's answers ([host]). What a theorem
    needs of them is a class of laws ([LibXmlLaws], [LibXmlPaths], [PsaLaws], [TargetOk],
    [LibcOk], [ArgTableOk]) or a hypothesis, with an instance that has it ([Tree],
    [TreePaths], [Toy], [indefinite_target]).
    The program's own interface between the BLE module and its two backends is the
    class [BleBackend] with its laws [BleBackendOk]: the module's theorems are proved
    against it, and each backend has an instance.

    ** Files, in order

    - Prelude: notations, the option monad, tactics, loops and first-match search.
    - CLib: what the sources use of the C library: string functions, strtol, atoi,
      strtod, the printf conversions; lemmas on the length of a printed integer and on
      small integers as doubles.
    - HesCommon: common/hes_common.h, hes_clock.c, the sending half of hes_bus.c,
      service_object.h, and nng_recv with the terminator the callers write after it.
    - HesQuery: common/hes_query.c, the document layer over libxml2.
    - Bm, BmFacts, BmSettle, BmValues, BmTerm, BmProps, BmLoad, BmFollow: bm/bm.c. Bm holds
      the model; BmFacts what evaluation keeps and sends; BmSettle that it leaves nothing
      stale, on a table whose rows stay in sets of numbers without NaN, one for each device;
      BmValues when they do (the finite numbers, for most operations); BmTerm that
      evaluation ends; BmFollow what a report makes it send; BmProps and BmLoad the
      properties of the processor, the loader and the controller.
    - Dispatch, DispatchFacts: common/hes_dispatch.c, the Lexicon router.
    - Json: jansson's documents and the readers the sources have for them. JsonText: the texts
      of documents and the law of a JSON reader, with a reader that has it.
    - Auth, AuthFacts: services/auth/auth.c, the policy and its decisions.
    - Crypto, CryptoFacts: services/crypto/crypto.c, ciphers and identity proofs.
    - Id, IdFacts: services/id/id.c, the identity and the custody of its key.
    - Devreg: common/hes_devreg.c, a module's devices.
    - Mreg: common/hes_mreg.c, the client of the manifest service.
    - Dm, DmFacts: dm/dm.c, the manifest service. DmText: what it renders, and what its clients
      write, as documents.
    - ManifestFacts: the service and its clients together.
    - Utils: utils.c, reading a file. DmMain: manifest_service_main of dm/dm.c, from the
      profile's file to the exit; a run is the list of what its receives yield.
    - Https: common/hes_https.c over libcurl.
    - GeoTz, GeoTzFacts: services/time/geo_tz.c, zone names and the offsets of a zone.
    - Sntp, SntpFacts: services/time/sntp.c, the exchange with a time server.
    - TimeSync, TimeSyncFacts: services/time/time_sync.c, the worker behind the clock;
      its runs are lists of turns.
    - SyncThread, SyncThreadFacts: the same file as two threads over a shared handle; every
      access and every pthread call is a step, a run is a list of the scheduler's choices.
    - Time, TimeFacts: services/time/time.c, the three objects of the time service.
    - Core, CoreFacts: modules/core/core.c, which puts the binding map, the router, the
      services and the manifest client together; its loop is the step relation
      [core_step], reachability the closure of it from [core_start], and [core_turn] the turns
      as a function. What the app's script does while it is loaded is an argument of
      [core_start] ([app_loading]; AppLua shows that app_lua_create does exactly that).
      CoreLive: that each turn ends.
    - Bus: the rest of common/hes_bus.c, opening, dialling, receiving, closing, and the
      filter of a subscriber; a handle's sockets are read off the history of its calls.
    - Slice: the slice lookups and the merge both interface modules carry. ModuleLive: what
      both need of the manifest service so that no call leaves a buffer.
    - Wiz, WizFacts: han/wifi/wiz_client.c, the exchange with a bulb.
    - Wifi, WifiFacts: han/wifi/wifi.c; a turn of its loop is [wifi_turn], a run a list
      of inputs. WifiLive: that start-up and every turn end.
      WifiMain: the process from its first call to its exit.
    - HesBle: han/ble/hes_ble.h, the connection manager's interface and its laws.
    - BleSim: han/ble/hes_ble.c, the simulated backend. Bluez, BluezFacts:
      han/ble/hes_ble_bluez.c, the backend over D-Bus. BluezLive: that its polls are defined
      in a session shorter than its thirty delays take.
    - Sensortag: devices/ti_cc2650/, the simulated readings.
    - Ble, BleFacts: han/ble/ble.c; a turn of its loop is [ble_turn]. BleLive: that start-up
      and every turn end. BleMain: the process from its first call to its exit.
    - System: the registry, the bus, the core and the WiFi module together; Scene: a press of
      a BLE tag's button up to the write to a WiFi bulb.
    - Lifecycle, LifecycleFacts: the memory and the sockets of core_main and of the
      services it creates, over a heap of cells.
    - AppLua: modules/core/app_lua.c and the script app.lua.
    - QueryPath: the path translation of common/hes_query.c over its growing buffer.
    - Heap: blocks, what an object owns, and what code has allocated between two heaps. Own:
      computations over a heap and the rules for what each owns before and after.
    - BluezRefs, BluezRefsFacts: the GLib references of han/ble/hes_ble_bluez.c, along the
      control flow of Bluez.
    - QueryMem: what the calls of common/hes_query.c allocate and release, and its error text.
    - GatewayDoc: common/hes_gateway.c, a document as native structs, and the reading
      test of cli/cmd_bm_show.c. GatewayPrint: its printer. GatewayMem: the blocks of the
      structs, the loaders that allocate them and the deep free.
    - Cli: app.c, utils.c and cli/, from the words of a command line to the arguments
      of a module's main function.
    - SyncClock: from the replies of the time servers through the two threads to the stamps
      of the messages on the bus.

    ** What the theorems show

    - Authorization: a command leaves the gateway only for an enabled row whose fields
      allow it and, where an input demands it, for a message the hook granted; the
      hook grants what the policy grants and, on demand, only with a proof by the
      demanded identity over this very message; that hook, the rows and the key's
      custody are in force in every state the core's loop can reach; the two ways a
      policy takes effect agree.
    - Evaluation: on an acyclic table whose rows compute numbers the recursion ends, and what it
      leaves is settled; a NaN defeats it, which is shown too. The numbers are sets without
      NaN, one for each device, that the rows' computations stay in; with finite numbers for
      some devices and any but NaN for the others, a check on a row's fields finds that it stays
      in them, comparisons always and arithmetic where no infinity can meet its like or a zero
      ([BmValues.numeric_row]). Where rows come behind the rows
      they read, a report sends one command of each row at most, with the row's final
      value; elsewhere an outdated command can be sent last, which is shown as well. On
      ordered tables the core's loop stays live: every turn ends, whatever comes but a report
      outside the sets.
    - Routing: an address goes to the longest object that owns it, an answer holds the
      records that were asked for; what a turn of the core sends is that answer, a relayed
      command to a declared device, its services' reports, the app's sends, and commands of the
      binding map, nothing else.
    - Manifest: requests never change the declared profile; a report reaches the
      devices it names, is announced, and may be repeated; a query yields the client's
      own devices, and the inventory counts what the profile declares, both for any reader
      of JSON and profiles of plain texts (the service escapes nothing); nothing either side
      sends overruns the other's buffers, a request too long for the service excepted; the
      process sends exactly the answers to its requests.
    - Threads: the mutex of the synchronisation is held whenever what it protects is
      touched; a reader gets a snapshot the sequential worker publishes; a stop returns in
      whatever state the worker is, and no schedule can go on for ever once the flag is set;
      a gateway that says its time comes from the network stamps its messages with it.
    - Time: an honest server's reply sets the clock to within half the round trip, and
      no other reply is taken; clock and snapshot are those of the last reply that was; the
      worker never stops, contacts the network at its intervals only, and recovers when a server
      answers; a name that reaches the zone
      database is a zone name; subscribers are told of every change that
      lasts a tick, and the binding map reads the clock exactly.
    - Interface modules: start-up and every turn of either module end, as long as its peers
      send what its buffers hold; each speaks for its own devices only, whatever reaches it; the
      registry's presence follows the radio links, as long as the manifest sends no slice of
      its own, or the answers of a poll; a command
      writes to the one device it addresses; the answer of an exchange belongs to its
      request and arrived after it; a level is a percentage, a reading stays in its band; the reconnect
      backoff is capped until its shift leaves [int], 284 seconds after start-up at the earliest.
    - The gateway as a whole: a module hears the messages for its devices' objects, for
      sixteen distinct paths at most; a peer's command that the core relays, and a
      command the binding map gives for a report, is written to the bulb it addresses; a
      press of a tag's button is reported once, evaluated to the end, and its commands
      written with the rows' final values; a tick of the app is a turn of the core whatever
      the script does, so what is shown of the loop holds with any app.
    - Resources: every exit of the core leaves memory and sockets as it found them, and of its
      secrets one copy in freed memory, the tree of the identity document, unless an allocation
      fails; one that does is shown to free a service's state twice. A failed open of a leaf leaves no socket, and the
      manifest service's process leaves none on any way out; an interface module's leaves none
      when its loop was entered, and the WiFi module's is shown to leave its handle open when
      start-up failed. What a document's structs
      occupy is released whole, whatever allocation failed on the way other than that of an
      array, which is stored through when it could not be had. The BlueZ backend drops what it took
      but for the replies to five of its calls.
    - Documents: the translation of a path is that of the whole path or reports that
      memory ran out; the structs loaded by queries are the document's own nodes, and what is
      printed of them is well nested.
    - Command line: the commands' calls of one another end, and what they do is a
      function of the words; help for a group of commands fails an assertion.
    - Encodings: hexadecimal texts, proof texts, table answers and the signed frame are
      read back as they were written.

    ** Bounds and fuel

    Capacities are the constants of the sources (32 rows, 4 inputs, 64 addresses; 8
    modules, 16 devices, 8 objects; 16 registry entries; and so on). Recursion takes
    fuel in one place, [bm_evaluate_all], whose depth the code does not bound: for a
    table of [n] rows of rank at most [R], [n * S n ^ R] is enough
    ([evaluation_terminates_and_settles]). The commands of the command line run one
    another, four levels beyond the number of words at most ([proc_means]); the walk of
    a path takes the path's length. The scan of a request list takes the length
    of the list, which each of its turns shortens. The receive loop of an exchange is
    structural in what has arrived, the wait for GATT services in its 120 polls.

    ** What is not modelled

    Failing allocations, but in Lifecycle, QueryPath, QueryMem and GatewayMem and for the
    structs of GatewayDoc, and log output. Texts in messages are taken to end inside their arrays. The app's
    script may call its host while it computes a row; only what it does while it is loaded and
    in its own turn is in the model, and the operation is a function of its operands. What the clocks read and what the synchronisation's thread
    has written is an input of the time service, so the two are joined by their
    snapshot only. A step of a thread is one access: weaker memory orders than an
    interleaving are excluded by the lock discipline that is proved. Of the command line,
    the log levels, the help texts and gen_random, a call of libuv. Lifecycle leaves the
    inventory's socket out. Of a socket, what was delivered or sent is modelled; the
    datagrams of a UDP exchange arrive in a list per send, and none while the queue is
    being drained. Signal handlers, which end the loops, are left out. *)

From stdpp Require Export base option list strings.
From Stdlib Require Export ZArith Lia SpecFloat.

#[global] Open Scope Z_scope.

(** ** Notations of the development *)

Declare Scope hes_scope.
Delimit Scope hes_scope with hes.
#[global] Open Scope hes_scope.

(** Boolean equality of C strings: [strcmp(a, b) == 0]. *)
Notation "a =?s b" := (String.eqb a b) (at level 70, no associativity) : hes_scope.

(** ** Error and fuel monad

    [option] is the type of the steps that can run out of fuel or reach
    undefined behaviour; [let*] sequences them. *)
Notation "'let*' p := c 'in' k" :=
  (match c with Some p => k | None => None end)
    (at level 10, p pattern, c at level 200, k at level 200) : hes_scope.

(** ** Tactics *)

(** Splits the innermost [if] or [match] of the goal, keeping the equation. *)
Ltac split_match :=
  match goal with
  | |- context [match ?x with _ => _ end] =>
      lazymatch x with
      | context [match _ with _ => _ end] => fail
      | _ => destruct x eqn:?
      end
  end.

(** The same in a hypothesis. *)
Ltac split_match_in H :=
  match type of H with
  | context [match ?x with _ => _ end] =>
      lazymatch x with
      | context [match _ with _ => _ end] => fail
      | _ => destruct x eqn:?
      end
  end.

(** Turns boolean facts of the context into propositions. *)
Ltac bool_hyps :=
  repeat match goal with
  | H : (_ && _)%bool = true |- _ => apply andb_prop in H; destruct H
  | H : (_ || _)%bool = false |- _ => apply orb_false_elim in H; destruct H
  | H : negb _ = true |- _ => apply negb_true_iff in H
  | H : negb _ = false |- _ => apply negb_false_iff in H
  | H : (_ <? _) = true |- _ => apply Z.ltb_lt in H
  | H : (_ <? _) = false |- _ => apply Z.ltb_ge in H
  | H : (_ <=? _) = true |- _ => apply Z.leb_le in H
  | H : (_ <=? _) = false |- _ => apply Z.leb_gt in H
  | H : (_ =? _) = true |- _ => apply Z.eqb_eq in H
  | H : (_ =? _) = false |- _ => apply Z.eqb_neq in H
  | H : String.eqb _ _ = true |- _ => apply String.eqb_eq in H
  | H : String.eqb _ _ = false |- _ => apply String.eqb_neq in H
  end.

(** ** Lemma database: [hes] for [auto]. *)
Create HintDb hes.

(** ** Loops

    A C [for] loop over an index range whose body may run out of fuel. *)
Section loops.
Context {A S : Type}.

Fixpoint for_each (body : A -> S -> option S) (xs : list A) (s : S) : option S :=
  match xs with
  | [] => Some s
  | x :: xs' => let* s' := body x s in for_each body xs' s'
  end.

(** The induction principle of the loops: an invariant every iteration keeps. *)
Lemma for_each_inv (I : S -> Prop) (body : A -> S -> option S) xs s s' :
  (forall x t t', x ∈ xs -> I t -> body x t = Some t' -> I t') ->
  I s -> for_each body xs s = Some s' -> I s'.
Proof.
  revert s. induction xs as [|x xs IH]; intros s Hb HI Heq; simpl in Heq.
  - by simplify_eq.
  - destruct (body x s) as [t|] eqn:E; [|done].
    apply (IH t); [|eapply Hb; [left| |]; done|done].
    intros y u u' Hy. apply Hb. by right.
Qed.

(** Totality: a loop whose body is defined from every state satisfying an
    invariant is itself defined, and ends in that invariant. *)
Lemma for_each_total (I : S -> Prop) (body : A -> S -> option S) xs s :
  (forall x t, x ∈ xs -> I t -> exists t', body x t = Some t' /\ I t') ->
  I s -> exists s', for_each body xs s = Some s' /\ I s'.
Proof.
  revert s. induction xs as [|x xs IH]; intros s Hb HI; simpl.
  - eauto.
  - destruct (Hb x s) as (t & -> & Ht); [left|done|].
    apply IH; [|done]. intros y u Hy. apply Hb. by right.
Qed.

(** A loop over two ranges is the two loops in sequence. *)
Lemma for_each_app (body : A -> S -> option S) xs ys s :
  for_each body (xs ++ ys) s =
  match for_each body xs s with Some t => for_each body ys t | None => None end.
Proof.
  revert s. induction xs as [|x xs IH]; intros s; simpl; [done|].
  destruct (body x s); [apply IH|done].
Qed.
End loops.

(** [a ⊑ b]: [b] is defined wherever [a] is, with the same value. *)
Definition opt_le {A} (a b : option A) : Prop := forall x, a = Some x -> b = Some x.

Lemma for_each_mono {A S} (f g : A -> S -> option S) xs s :
  (forall x t, x ∈ xs -> opt_le (f x t) (g x t)) ->
  opt_le (for_each f xs s) (for_each g xs s).
Proof.
  revert s. induction xs as [|x xs IH]; intros s Hfg y; simpl; [done|].
  destruct (f x s) as [t|] eqn:E; [|done].
  rewrite (Hfg x s ltac:(left) t E). apply IH.
  intros z u Hz. apply Hfg. by right.
Qed.

(** ** Lists *)

Section lists.
Context {A : Type}.

(** First element satisfying a test: the C search loops that [return] or
    [break] at the first match. *)
Fixpoint find_first (p : A -> bool) (l : list A) : option A :=
  match l with
  | [] => None
  | x :: l' => if p x then Some x else find_first p l'
  end.

Lemma find_first_Some p (l : list A) x :
  find_first p l = Some x -> x ∈ l /\ p x = true.
Proof.
  induction l as [|y l IH]; simpl; [done|].
  destruct (p y) eqn:E; intros H; simplify_eq.
  - split; [left|done].
  - destruct (IH H). split; [by right|done].
Qed.

Lemma find_first_None p (l : list A) :
  find_first p l = None <-> forall x, x ∈ l -> p x = false.
Proof.
  induction l as [|y l IH]; simpl.
  - split; [intros _ x Hx; by apply not_elem_of_nil in Hx|done].
  - destruct (p y) eqn:E; split.
    + done.
    + intros H. rewrite (H y) in E; [done|left].
    + intros H x [->|Hx]%elem_of_cons; [done|by apply IH].
    + intros H. apply IH. intros x Hx. apply H. by right.
Qed.

(** The position of the first match decides which element is returned. *)
Lemma find_first_split p (l1 l2 : list A) x :
  (forall y, y ∈ l1 -> p y = false) -> p x = true ->
  find_first p (l1 ++ x :: l2) = Some x.
Proof.
  induction l1 as [|y l1 IH]; simpl; intros H Hx; [by rewrite Hx|].
  rewrite (H y ltac:(left)). apply IH; [|done]. intros z Hz. apply H. by right.
Qed.
End lists.
