(* ===== verification/CLib.v ===== *)
(** * The C library the gateway is written against

    What the sources use of the C standard library, as executable functions:
    integer conversions of a given width, string searching, decimal parsing
    ([strtol], [atoi], [strtod], [atof]) and printing ([%d], [%u], [%g], [%X]).
    A NUL-terminated string is a [string] without its terminator; a pointer into
    a string is the suffix it points at; a [double] is an IEEE 754 binary64 value
    ([spec_float] of the standard library at precision 53, exponent 1024). *)

From S2P Require Import Prelude.
From Stdlib Require Export Ascii.
From Stdlib Require Import DecimalString DecimalZ.
From Stdlib Require DecimalPos DecimalFacts.

(** ** Integers of a fixed width *)

Definition wrap_u (w x : Z) : Z := x mod 2 ^ w.
Definition wrap_s (w x : Z) : Z := (x + 2 ^ (w - 1)) mod 2 ^ w - 2 ^ (w - 1).

Abbreviation uint8 := (wrap_u 8).
Abbreviation uint16 := (wrap_u 16).
Abbreviation uint32 := (wrap_u 32).
Abbreviation uint64 := (wrap_u 64).
Abbreviation int32 := (wrap_s 32).
Abbreviation int64 := (wrap_s 64).

Definition LONG_MAX : Z := 2 ^ 63 - 1.
Definition LONG_MIN : Z := - 2 ^ 63.

Lemma wrap_u_range w x : 0 <= w -> 0 <= wrap_u w x < 2 ^ w.
Proof. intros Hw. apply Z.mod_pos_bound. lia. Qed.

Lemma wrap_u_small w x : 0 <= x < 2 ^ w -> wrap_u w x = x.
Proof. apply Z.mod_small. Qed.

Lemma wrap_s_small w x : - 2 ^ (w - 1) <= x < 2 ^ (w - 1) -> 0 < w -> wrap_s w x = x.
Proof.
  intros Hx Hw. unfold wrap_s. rewrite Z.mod_small; [lia|].
  assert (2 ^ w = 2 * 2 ^ (w - 1)) as -> by (rewrite <- Z.pow_succ_r by lia; f_equal; lia). lia.
Qed.

Lemma wrap_s_range w x : 0 < w -> - 2 ^ (w - 1) <= wrap_s w x < 2 ^ (w - 1).
Proof.
  intros Hw. unfold wrap_s.
  assert (2 ^ w = 2 * 2 ^ (w - 1)) as -> by (rewrite <- Z.pow_succ_r by lia; f_equal; lia).
  assert (0 < 2 ^ (w - 1)) by lia.
  pose proof (Z.mod_pos_bound (x + 2 ^ (w - 1)) (2 * 2 ^ (w - 1))). lia.
Qed.

(** ** Byte buffers *)

Abbreviation bytes := (list Z).

Definition byte (b : Z) : Prop := 0 <= b < 256.

Definition byte_at (b : bytes) (i : nat) : Z := default 0 (b !! i).

(** [memcpy(b + off, src, length(src))]: the copy stays inside the buffer. *)
Definition store (b : bytes) (off : nat) (src : bytes) : bytes :=
  take off b ++ src ++ drop (off + length src) b.

(** ** Timestamps: [struct timespec], seconds and nanoseconds *)

Abbreviation timespec := (Z * Z)%type.

(** ** Characters *)

Definition code (c : ascii) : Z := Z.of_N (N_of_ascii c).
Definition chr (z : Z) : ascii := ascii_of_N (Z.to_N z).

Definition in_range (lo hi : ascii) (c : ascii) : bool :=
  ((code lo <=? code c) && (code c <=? code hi))%bool.

Definition isdigit (c : ascii) : bool := in_range "0" "9" c.
Definition isspace (c : ascii) : bool :=
  ((code c =? 32) || ((9 <=? code c) && (code c <=? 13)))%bool.
Definition isxdigit (c : ascii) : bool :=
  (isdigit c || in_range "a" "f" c || in_range "A" "F" c)%bool.
Definition tolower (c : ascii) : ascii :=
  if in_range "A" "Z" c then chr (code c + 32) else c.

(** The value of a hexadecimal digit. *)
Definition hex_digit (c : ascii) : option Z :=
  if isdigit c then Some (code c - 48)
  else if in_range "a" "f" c then Some (code c - 87)
  else if in_range "A" "F" c then Some (code c - 55)
  else None.

Definition string_bytes (s : string) : bytes := code <$> String.list_ascii_of_string s.

(** ** Strings *)

Definition strlen (s : string) : Z := Z.of_nat (String.length s).

Fixpoint str_take (n : nat) (s : string) : string :=
  match n, s with
  | S n', String c s' => String c (str_take n' s')
  | _, _ => EmptyString
  end.

Fixpoint str_drop (n : nat) (s : string) : string :=
  match n, s with
  | S n', String _ s' => str_drop n' s'
  | _, _ => s
  end.

(** The text up to (excluding) the first occurrence of a character: what
    [strcspn] and [memchr] measure. *)
Fixpoint before (c : ascii) (s : string) : string :=
  match s with
  | EmptyString => EmptyString
  | String a r => if Ascii.eqb a c then EmptyString else String a (before c r)
  end.

(** [strchr(s, c)]: the suffix that starts at the first occurrence of [c]. *)
Fixpoint strchr (c : ascii) (s : string) : option string :=
  match s with
  | EmptyString => None
  | String a r => if Ascii.eqb a c then Some s else strchr c r
  end.

(** [strncmp(s, pre, strlen(pre)) == 0]. *)
Fixpoint str_prefix (pre s : string) : bool :=
  match pre, s with
  | EmptyString, _ => true
  | String a p, String b r => (Ascii.eqb b a && str_prefix p r)%bool
  | _, _ => false
  end.

(** [strstr(s, needle)]: the suffix that starts at the first occurrence. *)
Fixpoint strstr (needle s : string) : option string :=
  if str_prefix needle s then Some s
  else match s with EmptyString => None | String _ r => strstr needle r end.

Fixpoint str_forallb (p : ascii -> bool) (s : string) : bool :=
  match s with EmptyString => true | String c r => (p c && str_forallb p r)%bool end.

Definition has_char (c : ascii) (s : string) : bool :=
  match strchr c s with Some _ => true | None => false end.

Fixpoint str_map (f : ascii -> ascii) (s : string) : string :=
  match s with EmptyString => EmptyString | String c r => String (f c) (str_map f r) end.

(** The suffixes that start right after an occurrence of [c]. *)
Fixpoint after_each (c : ascii) (s : string) : list string :=
  match s with
  | EmptyString => []
  | String a r => if Ascii.eqb a c then r :: after_each c r else after_each c r
  end.

(** The pointers visited by the record loops of the sources:
    from [p = s], while the text at [p] is not empty, find the next [c] from [p], stop
    when there is none, continue right after it otherwise. *)
Definition visits (c : ascii) (s : string) : list string :=
  filter (fun p => p <> EmptyString) (s :: after_each c s).

(** The ';'-separated records of a payload. *)
Definition records (s : string) : list string := before ";" <$> visits ";" s.

(** The [name=value] split of a record at the first '='. *)
Definition cut_eq (seg : string) : option (string * string) :=
  match strchr "=" seg with
  | Some (String _ v) => Some (before "=" seg, v)
  | _ => None
  end.

Fixpoint str_join (sep : string) (l : list string) : string :=
  match l with
  | [] => EmptyString
  | [x] => x
  | x :: l' => (x ++ sep ++ str_join sep l')%string
  end.

(** ** Parsing integers: [strtol(s, &end, 10)] *)

Fixpoint skip_space (s : string) : string :=
  match s with
  | String c r => if isspace c then skip_space r else s
  | EmptyString => s
  end.

(** Reads a run of decimal digits: value so far, number of digits, the rest. *)
Fixpoint digits_from (acc : Z) (n : nat) (s : string) : Z * nat * string :=
  match s with
  | String c r => if isdigit c then digits_from (acc * 10 + (code c - 48)) (S n) r else (acc, n, s)
  | EmptyString => (acc, n, s)
  end.

Definition read_sign (s : string) : bool * string :=
  match s with
  | String c r =>
      if Ascii.eqb c "-" then (true, r) else if Ascii.eqb c "+" then (false, r) else (false, s)
  | EmptyString => (false, s)
  end.

Definition clamp (lo hi x : Z) : Z := Z.max lo (Z.min hi x).

(** The value and the end pointer; with no digits the end pointer is the
    beginning of the text. *)
Definition strtol (s : string) : Z * string :=
  let '(neg, r) := read_sign (skip_space s) in
  match digits_from 0 0 r with
  | (_, O, _) => (0, s)
  | (v, _, rest) => (clamp LONG_MIN LONG_MAX (if neg then - v else v), rest)
  end.

(** [atoi] is [(int)strtol(s, NULL, 10)]. *)
Definition atoi (s : string) : Z := int32 (fst (strtol s)).

(** ** Printing integers *)

(** [%d], [%ld], [%u]: decimal, with a leading '-' for a negative value. *)
Definition fmt_d (z : Z) : string := NilZero.string_of_int (Z.to_int z).

Definition hex_char (upper : bool) (d : Z) : ascii :=
  if d <? 10 then chr (48 + d) else chr ((if upper then 55 else 87) + d).

(** [%02X] / [%02x] of a byte. *)
Definition fmt_02x (upper : bool) (b : Z) : string :=
  String (hex_char upper (Z.shiftr b 4)) (String (hex_char upper (Z.land b 15)) EmptyString).

(** ** Double-precision numbers *)

Abbreviation double := spec_float.

Definition d_zero : double := S754_zero false.
Definition d_of_Z (z : Z) : double := binary_normalize 53 1024 z 0 false.
Definition d_one : double := d_of_Z 1.

Definition d_add : double -> double -> double := SFadd 53 1024.
Definition d_sub : double -> double -> double := SFsub 53 1024.
Definition d_mul : double -> double -> double := SFmul 53 1024.
Definition d_div : double -> double -> double := SFdiv 53 1024.
Definition d_opp : double -> double := SFopp.
Definition d_ltb : double -> double -> bool := SFltb.
Definition d_eqb : double -> double -> bool := SFeqb.

Definition is_nan (x : double) : bool := match x with S754_nan => true | _ => false end.

(** Truncation towards zero, [None] for an infinity or a NaN. *)
Definition d_trunc (x : double) : option Z :=
  match x with
  | S754_zero _ => Some 0
  | S754_finite s m e =>
      let q := if 0 <=? e then Zpos m * 2 ^ e else Zpos m / 2 ^ (- e) in
      Some (if s then - q else q)
  | _ => None
  end.

(** The double nearest to [(-1)^neg * m * 10^e], ties to even; magnitudes that are
    out of the range of doubles whatever the digits are decided from the exponent. *)
Definition d_of_decimal (neg : bool) (m e : Z) (ndigits : Z) : double :=
  match m with
  | Zpos p =>
      if 310 <? ndigits + e then S754_infinity neg
      else if ndigits + e <? -330 then S754_zero neg
      else if 0 <=? e then
        binary_round 53 1024 neg (p * Z.to_pos (10 ^ e)) 0
      else SFdiv 53 1024 (S754_finite neg p 0) (S754_finite false (Z.to_pos (10 ^ (- e))) 0)
  | _ => S754_zero neg
  end.

(** The double nearest to [(-1)^neg * m * 2^e] (hexadecimal constants). *)
Definition d_of_binary (neg : bool) (m e : Z) : double :=
  match m with
  | Zpos p =>
      if 1100 <? Z.log2 m + e then S754_infinity neg
      else if Z.log2 m + e <? -1200 then S754_zero neg
      else binary_round 53 1024 neg p e
  | _ => S754_zero neg
  end.

Fixpoint hex_digits_from (acc : Z) (n : nat) (s : string) : Z * nat * string :=
  match s with
  | String c r =>
      match hex_digit c with
      | Some d => hex_digits_from (acc * 16 + d) (S n) r
      | None => (acc, n, s)
      end
  | EmptyString => (acc, n, s)
  end.

(** The optional exponent part: a letter, an optional sign and at least one digit. *)
Definition read_exponent (letter : ascii) (s : string) : Z :=
  match s with
  | String c r =>
      if Ascii.eqb (tolower c) letter then
        let '(neg, r') := read_sign r in
        match digits_from 0 0 r' with
        | (_, O, _) => 0
        | (v, _, _) => if neg then - v else v
        end
      else 0
  | EmptyString => 0
  end.

(** [digits [. digits]]: the digits read as one number, how many of them are
    fractional, how many there are in all, and the rest. *)
Definition read_mantissa (rd : Z -> nat -> string -> Z * nat * string) (s : string)
  : Z * nat * nat * string :=
  let '(m, n, r) := rd 0 0%nat s in
  match r with
  | String c r' =>
      if Ascii.eqb c "." then
        let '(m', n', r'') := rd m n r' in
        (m', (n' - n)%nat, n', match n' with O => s | _ => r'' end)
      else (m, 0%nat, n, r)
  | EmptyString => (m, 0%nat, n, r)
  end.

Fixpoint prefix_nocase (pre s : string) : bool :=
  match pre, s with
  | EmptyString, _ => true
  | String a p, String b r => (Ascii.eqb a (tolower b) && prefix_nocase p r)%bool
  | _, _ => false
  end.

(** [strtod(s, &end)] in round-to-nearest: decimal and hexadecimal constants,
    "inf"/"infinity" and "nan" in any case; [None] when there is no number, which leaves the
    end pointer at the beginning. *)
Definition strtod (s : string) : option double :=
  let '(neg, r) := read_sign (skip_space s) in
  if prefix_nocase "inf" r then Some (S754_infinity neg)
  else if prefix_nocase "nan" r then Some S754_nan
  else
    let hex := if prefix_nocase "0x" r then
                 let '(m, frac, n, rest) := read_mantissa hex_digits_from (str_drop 2 r) in
                 match n with
                 | O => None
                 | _ => Some (d_of_binary neg m (read_exponent "p" rest - 4 * Z.of_nat frac))
                 end
               else None in
    match hex with
    | Some d => Some d
    | None =>
        let '(m, frac, n, rest) := read_mantissa digits_from r in
        match n with
        | O => None
        | _ => Some (d_of_decimal neg m (read_exponent "e" rest - Z.of_nat frac)
                       (strlen (fmt_d m)))
        end
    end.

(** [atof] is [strtod(s, NULL)], whose value is 0 when there is no number. *)
Definition atof (s : string) : double := default d_zero (strtod s).

(** *** [%g]

    Six significant digits, rounded to nearest-even from the exact value; the
    scientific form when the decimal exponent is below -4 or above 5; trailing
    zeros removed. *)

Definition round_div (n d : Z) : Z :=
  let q := n / d in
  let r := n mod d in
  if (2 * r <? d) then q else if (d <? 2 * r) then q + 1 else if Z.even q then q else q + 1.

(** The decimal exponent of the positive rational [n/d]. *)
Definition dec_exponent (n d : Z) : Z :=
  if d <=? n then strlen (fmt_d (n / d)) - 1
  else
    let k := strlen (fmt_d (d / n)) - 1 in
    if d <=? n * 10 ^ k then - k else - (k + 1).

(** [n/d * 10^(5-x)] rounded to an integer. *)
Definition scaled (n d x : Z) : Z :=
  if x <=? 5 then round_div (n * 10 ^ (5 - x)) d else round_div n (d * 10 ^ (x - 5)).

Fixpoint strip_zeros_rev (l : list ascii) : list ascii :=
  match l with
  | c :: r => if Ascii.eqb c "0" then strip_zeros_rev r else l
  | [] => []
  end.

Definition strip_zeros (s : string) : string :=
  String.string_of_list_ascii (rev (strip_zeros_rev (rev (String.list_ascii_of_string s)))).

Fixpoint zeros (n : nat) : string := match n with O => EmptyString | S k => String "0" (zeros k) end.

Definition with_point (ip fp : string) : string :=
  match strip_zeros fp with
  | EmptyString => ip
  | fp' => (ip ++ "." ++ fp')%string
  end.

Definition fmt_exp (x : Z) : string :=
  let a := fmt_d (Z.abs x) in
  ((if (x <? 0)%Z then "e-" else "e+") ++ (if (strlen a <? 2)%Z then "0" ++ a else a))%string.

Definition fmt_g_pos (n d : Z) : string :=
  let x0 := dec_exponent n d in
  let '(ds, x) := if scaled n d x0 =? 1000000 then (100000, x0 + 1) else (scaled n d x0, x0) in
  let txt := fmt_d ds in
  if ((x <? -4) || (5 <? x))%bool then
    (with_point (str_take 1 txt) (str_drop 1 txt) ++ fmt_exp x)%string
  else if x <? 0 then with_point "0" (zeros (Z.to_nat (- x - 1)) ++ txt)%string
  else with_point (str_take (Z.to_nat (x + 1)) txt) (str_drop (Z.to_nat (x + 1)) txt).

Definition fmt_g (v : double) : string :=
  match v with
  | S754_zero s => if s then "-0" else "0"
  | S754_infinity s => if s then "-inf" else "inf"
  | S754_nan => "nan"
  | S754_finite s m e =>
      let t := if 0 <=? e then fmt_g_pos (Zpos m * 2 ^ e) 1 else fmt_g_pos (Zpos m) (2 ^ (- e)) in
      if s then ("-" ++ t)%string else t
  end.

(** *** Integers as doubles: exact below 2^53 *)

Lemma digits2_bounds p : 2 ^ (Zpos (digits2_pos p) - 1) <= Zpos p.
Proof.
  induction p as [p IH|p IH|]; cbn [digits2_pos]; [..|done];
    rewrite Pos2Z.inj_succ; replace (Z.succ (Zpos (digits2_pos p)) - 1)
      with (Zpos (digits2_pos p) - 1 + 1) by lia;
    rewrite Z.pow_add_r by lia; lia.
Qed.

Lemma digits2_iter p d :
  Zpos (digits2_pos (Pos.iter xO p d)) = Zpos (digits2_pos p) + Zpos d /\
  Zpos (Pos.iter xO p d) = Zpos p * 2 ^ Zpos d.
Proof.
  induction d as [|d [IH1 IH2]] using Pos.peano_ind; [split; [cbn; lia|cbn [Pos.iter]; lia]|].
  rewrite !Pos.iter_succ. cbn [digits2_pos]. split; [lia|].
  rewrite Pos2Z.inj_xO, IH2, Pos2Z.inj_succ, Z.pow_succ_r by lia. lia.
Qed.

Lemma round_aux_canonical sx m e :
  Zpos (digits2_pos m) = 53 -> - 1074 <= e <= 971 ->
  binary_round_aux 53 1024 sx (Zpos m) e loc_Exact = S754_finite sx m e.
Proof.
  intros Hd He.
  assert (Hs : shr_fexp 53 1024 (Zpos m) e loc_Exact =
               ({| shr_m := Zpos m; shr_r := false; shr_s := false |}, e)).
  { unfold shr_fexp, fexp, emin, Zdigits2. rewrite Hd.
    replace (Z.max (53 + e - 53) (3 - 1024 - 53) - e) with 0 by lia. done. }
  unfold binary_round_aux. rewrite Hs. cbn [shr_m loc_of_shr_record round_nearest_even]. rewrite Hs.
  cbn [shr_m]. by rewrite (proj2 (Z.leb_le e (1024 - 53))) by lia.
Qed.

Lemma round_small sx p :
  Zpos p < 2 ^ 53 ->
  exists m e, binary_round 53 1024 sx p 0 = S754_finite sx m e /\ -52 <= e <= 0 /\
              Zpos m = Zpos p * 2 ^ (- e).
Proof.
  intros Hp.
  assert (Hd : Zpos (digits2_pos p) <= 53).
  { pose proof (digits2_bounds p) as Hb. apply Z.nlt_ge. intros Hlt.
    assert (2 ^ 53 <= 2 ^ (Zpos (digits2_pos p) - 1)) by (apply Z.pow_le_mono_r; lia). lia. }
  unfold binary_round, fexp, emin, shl_align.
  replace (Z.max _ _ - 0) with (Zpos (digits2_pos p) - 53) by lia.
  replace (Z.max _ _) with (Zpos (digits2_pos p) - 53) by lia.
  destruct (Zpos (digits2_pos p) - 53) as [|q|d] eqn:E; [|lia|].
  - exists p, 0. rewrite round_aux_canonical by lia. split; [done|]. split; [lia|]. simpl. lia.
  - destruct (digits2_iter p d) as [H1 H2]. exists (Pos.iter xO p d), (Zneg d).
    rewrite round_aux_canonical by lia. split; [done|]. split; [lia|]. by rewrite H2.
Qed.

Lemma trunc_small sx p :
  Zpos p < 2 ^ 53 -> d_trunc (binary_round 53 1024 sx p 0) = Some (if sx then Zneg p else Zpos p).
Proof.
  intros Hp. destruct (round_small sx p Hp) as (m & e & -> & He & Hm). unfold d_trunc. f_equal.
  assert (Hq : (if 0 <=? e then Zpos m * 2 ^ e else Zpos m / 2 ^ (- e)) = Zpos p).
  { destruct (0 <=? e) eqn:E; bool_hyps.
    - assert (e = 0) as -> by lia. rewrite Hm. simpl. lia.
    - rewrite Hm. apply Z.div_mul. lia. }
  rewrite Hq. by destruct sx.
Qed.

Lemma d_trunc_of_Z z : - 2 ^ 53 < z < 2 ^ 53 -> d_trunc (d_of_Z z) = Some z.
Proof.
  intros Hz. unfold d_of_Z, binary_normalize. destruct z as [|p|p]; [done| |]; apply trunc_small; lia.
Qed.

(** A small integer is positive as a double exactly when it is positive, and zero
    exactly when it is zero. *)
Lemma d_of_Z_sign z :
  - 2 ^ 53 < z < 2 ^ 53 -> d_ltb d_zero (d_of_Z z) = (0 <? z) /\ d_eqb (d_of_Z z) d_zero = (z =? 0).
Proof.
  intros Hz. unfold d_of_Z, binary_normalize. destruct z as [|p|p]; [done| |];
    [destruct (round_small false p) as (m & e & -> & _); [lia|done]
    |destruct (round_small true p) as (m & e & -> & _); [lia|done]].
Qed.

(** ** Lemmas on strings *)

#[global] Arguments String.append : simpl nomatch.

Lemma length_str_take n s : String.length (str_take n s) = Nat.min n (String.length s).
Proof. revert s. induction n as [|n IH]; intros [|c s]; simpl; [done..|]. by rewrite IH. Qed.

Lemma str_take_ge n s : (String.length s <= n)%nat -> str_take n s = s.
Proof.
  revert s. induction n as [|n IH]; intros [|c s]; simpl; intros H; [done|lia|done|].
  by rewrite IH by lia.
Qed.

Lemma str_take_idemp n m s : str_take n (str_take m s) = str_take (Nat.min n m) s.
Proof.
  revert m s. induction n as [|n IH]; intros [|m] [|c s]; simpl; [done..|]. by rewrite IH.
Qed.

Lemma str_take_drop n s : (str_take n s ++ str_drop n s)%string = s.
Proof. revert s. induction n as [|n IH]; intros [|c s]; simpl; [done..|]. by rewrite IH. Qed.

Lemma length_str_app s t : String.length (s ++ t)%string = (String.length s + String.length t)%nat.
Proof. induction s as [|c s IH]; simpl; [done|]. by rewrite IH. Qed.

Lemma strlen_nonneg s : 0 <= strlen s.
Proof. unfold strlen. lia. Qed.

Lemma strlen_app s t : strlen (s ++ t)%string = strlen s + strlen t.
Proof. unfold strlen. rewrite length_str_app. lia. Qed.

Lemma str_app_nil_r s : (s ++ "")%string = s.
Proof. induction s as [|c s IH]; simpl; [done|by rewrite IH]. Qed.

Lemma str_app_assoc s t u : ((s ++ t) ++ u = s ++ (t ++ u))%string.
Proof. induction s as [|c s IH]; simpl; [done|by rewrite IH]. Qed.


Lemma ascii_eqb_eq a b : Ascii.eqb a b = true <-> a = b.
Proof. apply Ascii.eqb_eq. Qed.

Lemma str_prefix_spec pre s :
  str_prefix pre s = true <-> exists r, s = (pre ++ r)%string.
Proof.
  revert s. induction pre as [|a p IH]; intros s; simpl.
  - split; [by exists s|done].
  - destruct s as [|b r]; [split; [done|by intros [? ?]]|].
    rewrite andb_true_iff, ascii_eqb_eq, IH. split.
    + intros [-> [t ->]]. by exists t.
    + intros [t [= -> ->]]. eauto.
Qed.

Lemma str_prefix_app pre r : str_prefix pre (pre ++ r) = true.
Proof. apply str_prefix_spec. eauto. Qed.

Lemma str_drop_app s t : str_drop (String.length s) (s ++ t) = t.
Proof. induction s as [|a s IH]; simpl; [done|apply IH]. Qed.

Lemma has_char_app c s t : has_char c (s ++ t) = (has_char c s || has_char c t)%bool.
Proof.
  unfold has_char. induction s as [|a s IH]; simpl; [done|].
  by destruct (Ascii.eqb a c).
Qed.

Lemma before_no_char c s : has_char c s = false -> before c s = s.
Proof.
  unfold has_char. induction s as [|a s IH]; simpl; [done|].
  destruct (Ascii.eqb a c); [done|]. intros H. by rewrite IH.
Qed.

Lemma before_app_char c s t : has_char c s = false -> before c (s ++ String c t) = s.
Proof.
  unfold has_char. induction s as [|a s IH]; simpl.
  - by rewrite Ascii.eqb_refl.
  - destruct (Ascii.eqb a c); [done|]. intros H. by rewrite IH.
Qed.

Lemma strchr_app_char c s t : has_char c s = false -> strchr c (s ++ String c t) = Some (String c t).
Proof.
  unfold has_char. induction s as [|a s IH]; simpl.
  - by rewrite Ascii.eqb_refl.
  - destruct (Ascii.eqb a c); [done|]. intros H. by rewrite IH.
Qed.

Lemma strchr_no_char c s : has_char c s = false -> strchr c s = None.
Proof. unfold has_char. by destruct (strchr c s). Qed.

Lemma before_no_occ c s : has_char c (before c s) = false.
Proof.
  unfold has_char. induction s as [|a s IH]; simpl; [done|].
  destruct (Ascii.eqb a c) eqn:E; simpl; [done|]. by rewrite E.
Qed.

Lemma after_each_no_char c s : has_char c s = false -> after_each c s = [].
Proof.
  unfold has_char. induction s as [|a s IH]; simpl; [done|].
  destruct (Ascii.eqb a c); [done|]. apply IH.
Qed.

Lemma after_each_app c s t :
  has_char c s = false -> after_each c (s ++ String c t) = t :: after_each c t.
Proof.
  unfold has_char. induction s as [|a s IH]; simpl.
  - by rewrite Ascii.eqb_refl.
  - destruct (Ascii.eqb a c); [done|]. apply IH.
Qed.

(** The record loops stop at the end of the text. *)
Lemma visits_nil c : visits c "" = [].
Proof. done. Qed.

Lemma visits_last c s : s <> "" -> has_char c s = false -> visits c s = [s].
Proof.
  intros Hs Hc. unfold visits. rewrite after_each_no_char by done.
  by rewrite filter_cons_True.
Qed.

Lemma visits_cons c s t :
  s <> "" -> has_char c s = false ->
  visits c (s ++ String c t) = (s ++ String c t)%string :: visits c t.
Proof.
  intros Hs Hc. unfold visits.
  rewrite filter_cons_True by (destruct s; done). f_equal.
  by rewrite after_each_app.
Qed.

Lemma str_join_cons sep x y l :
  str_join sep (x :: y :: l) = (x ++ sep ++ str_join sep (y :: l))%string.
Proof. done. Qed.

(** Joining records that hold no separator and splitting again is the identity. *)
Lemma records_join l :
  (forall r, r ∈ l -> r <> "" /\ has_char ";" r = false) ->
  records (str_join ";" l) = l.
Proof.
  unfold records. induction l as [|r l IH]; intros H; [done|].
  destruct (H r ltac:(left)) as [Hne Hno].
  assert (IH' : before ";" <$> visits ";" (str_join ";" l) = l)
    by (apply IH; intros x Hx; apply H; by right).
  destruct l as [|r' l'].
  - cbn [str_join]. rewrite visits_last by done. cbn. by rewrite before_no_char.
  - rewrite str_join_cons. change (";" ++ ?x)%string with (String ";" x).
    rewrite visits_cons by done. cbn [fmap list_fmap].
    rewrite before_app_char by done. f_equal. exact IH'.
Qed.

Lemma length_before_le c s : (String.length (before c s) <= String.length s)%nat.
Proof. induction s as [|a s IH]; simpl; [done|]. destruct (Ascii.eqb a c); simpl; lia. Qed.

Lemma skip_space_length s : (String.length (skip_space s) <= String.length s)%nat.
Proof. induction s as [|a s IH]; simpl; [done|]. destruct (isspace a); simpl; lia. Qed.

Lemma d_eqb_refl x : is_nan x = false -> d_eqb x x = true.
Proof.
  unfold d_eqb, SFeqb. destruct x as [s|s| |s m e]; simpl; try done.
  - by destruct s.
  - intros _. rewrite Z.compare_refl. pose proof (Pos.compare_refl m) as Hm.
    unfold Pos.compare in Hm. by destruct s; rewrite Hm.
Qed.

Lemma d_eqb_nan x : d_eqb S754_nan x = false /\ d_eqb x S754_nan = false.
Proof. unfold d_eqb, SFeqb. by destruct x as [[]|[]| |[]]. Qed.

(** A part of a text has no character the text has not. *)
Lemma before_has_no c d s : has_char d s = false -> has_char d (before c s) = false.
Proof.
  unfold has_char. induction s as [|a s IH]; simpl; [done|].
  destruct (Ascii.eqb a d) eqn:E; [done|]. destruct (Ascii.eqb a c); simpl; [done|]. by rewrite E.
Qed.

Lemma visits_has_no c d s p : has_char d s = false -> p ∈ visits c s -> has_char d p = false.
Proof.
  intros Hs. unfold visits. intros [_ Hp]%list_elem_of_filter.
  apply elem_of_cons in Hp as [->|Hp]; [done|]. revert Hs Hp.
  induction s as [|a s IH]; simpl; [by intros _ ?%not_elem_of_nil|].
  unfold has_char. simpl. destruct (Ascii.eqb a d); [done|]. intros Hs.
  destruct (Ascii.eqb a c); [intros [->|Hp]%elem_of_cons; [done|]|]; by apply IH.
Qed.

(** ** A number ends at a separator

    Reading a number out of a longer text gives the number before the first ';'. *)
Section stop.
Variable r : string.
Abbreviation tail := (String ";" r).

Lemma skip_space_stop v : skip_space (v ++ tail) = (skip_space v ++ tail)%string.
Proof. induction v as [|c v IH]; simpl; [done|]. by destruct (isspace c). Qed.

Lemma read_sign_stop v :
  read_sign (v ++ tail) = (fst (read_sign v), (snd (read_sign v) ++ tail)%string).
Proof.
  destruct v as [|c v]; simpl; [done|].
  destruct (Ascii.eqb c "-"); [done|]. by destruct (Ascii.eqb c "+").
Qed.

Lemma prefix_nocase_stop pre v :
  has_char ";" pre = false -> prefix_nocase pre (v ++ tail) = prefix_nocase pre v.
Proof.
  revert v. induction pre as [|a pre IH]; intros [|c v] H; [done..| |]; unfold has_char in *; simpl in *.
  - destruct (Ascii.eqb a ";") eqn:E; [done|]. change (tolower ";") with ";"%char. by rewrite E.
  - destruct (Ascii.eqb a ";"); [done|]. by rewrite IH.
Qed.

Definition stops (rd : Z -> nat -> string -> Z * nat * string) : Prop :=
  forall acc n v, rd acc n (v ++ tail)%string =
    (fst (rd acc n v), (snd (rd acc n v) ++ tail)%string).

Lemma digits_stop : stops digits_from.
Proof.
  intros acc n v. revert acc n. induction v as [|c v IH]; intros acc n; simpl; [done|].
  by destruct (isdigit c).
Qed.

Lemma hex_digits_stop : stops hex_digits_from.
Proof.
  intros acc n v. revert acc n. induction v as [|c v IH]; intros acc n; simpl; [done|].
  by destruct (hex_digit c).
Qed.

Lemma read_mantissa_stop rd v :
  stops rd -> read_mantissa rd (v ++ tail) =
  (fst (read_mantissa rd v), (snd (read_mantissa rd v) ++ tail)%string).
Proof.
  intros Hrd. unfold read_mantissa. rewrite Hrd. destruct (rd 0 0%nat v) as [[m n] rest].
  cbn [fst snd]. destruct rest as [|c rest]; [done|].
  cbn [String.append]. destruct (Ascii.eqb c ".") eqn:E; [|done]. rewrite Hrd.
  destruct (rd m n rest) as [[m' n'] rest']. cbn [fst snd]. by destruct n'.
Qed.

Lemma read_exponent_stop letter v :
  Ascii.eqb ";" letter = false -> read_exponent letter (v ++ tail) = read_exponent letter v.
Proof.
  intros Hl. destruct v as [|c v]; cbn [String.append read_exponent].
  - change (tolower ";") with ";"%char. by rewrite Hl.
  - destruct (Ascii.eqb (tolower c) letter); [|done].
    rewrite read_sign_stop. destruct (read_sign v) as [neg v']. cbn [fst snd].
    rewrite digits_stop. destruct (digits_from 0 0 v') as [[x n] rest]. done.
Qed.

Lemma str_drop_stop n v :
  (n <= String.length v)%nat -> str_drop n (v ++ tail) = (str_drop n v ++ tail)%string.
Proof.
  revert v. induction n as [|n IH]; intros [|c v] H; simpl in *; [done..|lia|]. apply IH. lia.
Qed.

Lemma prefix_nocase_length pre v :
  prefix_nocase pre v = true -> (String.length pre <= String.length v)%nat.
Proof.
  revert v. induction pre as [|a pre IH]; intros [|c v] H; simpl in *; [lia..|done|].
  apply andb_prop in H as [_ H]. apply IH in H. lia.
Qed.

Lemma atof_stop v : atof (v ++ tail) = atof v.
Proof.
  unfold atof. f_equal. unfold strtod. rewrite skip_space_stop, read_sign_stop.
  destruct (read_sign (skip_space v)) as [neg w]. cbn [fst snd].
  rewrite !prefix_nocase_stop by done.
  destruct (prefix_nocase "inf" w); [done|]. destruct (prefix_nocase "nan" w); [done|].
  destruct (prefix_nocase "0x" w) eqn:Ex.
  - apply prefix_nocase_length in Ex. rewrite str_drop_stop by done.
    rewrite (read_mantissa_stop _ _ hex_digits_stop), (read_mantissa_stop _ _ digits_stop).
    destruct (read_mantissa hex_digits_from (str_drop 2 w)) as [[[m f] n] rest].
    destruct (read_mantissa digits_from w) as [[[m' f'] n'] rest']. cbn [fst snd].
    by rewrite !read_exponent_stop.
  - rewrite (read_mantissa_stop _ _ digits_stop).
    destruct (read_mantissa digits_from w) as [[[m' f'] n'] rest']. cbn [fst snd].
    by rewrite !read_exponent_stop.
Qed.
End stop.

Lemma str_app_inj s t u : (s ++ t = s ++ u)%string -> t = u.
Proof. induction s as [|c s IH]; simpl; [done|]. intros H. injection H. apply IH. Qed.

(** *** The length of a printed integer *)

Lemma of_uint_acc_ge d acc :
  Zpos acc * 10 ^ Z.of_nat (Decimal.nb_digits d) <= Zpos (Pos.of_uint_acc d acc).
Proof.
  revert acc. induction d; intros acc; cbn [Decimal.nb_digits Pos.of_uint_acc]; [simpl; lia|..];
    rewrite Nat2Z.inj_succ, Z.pow_succ_r by lia;
    (etransitivity; [|apply IHd]); rewrite Z.mul_assoc;
    apply Z.mul_le_mono_nonneg_r; lia.
Qed.

Lemma unorm_value d p :
  Pos.of_uint d = Npos p -> Decimal.unorm d = d -> 10 ^ (Z.of_nat (Decimal.nb_digits d) - 1) <= Zpos p.
Proof.
  intros Hp Hn. destruct d as [|d|d|d|d|d|d|d|d|d|d]; cbn [Pos.of_uint] in Hp; [done|..].
  { exfalso. rewrite DecimalFacts.unorm_D0 in Hn. destruct d as [|d|d|d|d|d|d|d|d|d|d]; try done.
    pose proof (DecimalFacts.nb_digits_unorm (Decimal.D0 d) ltac:(done)) as Hle. rewrite DecimalFacts.unorm_D0 in Hle.
    apply (f_equal Decimal.nb_digits) in Hn. cbn [Decimal.nb_digits] in Hn.
    pose proof (DecimalFacts.nb_digits_unorm (Decimal.D0 d) ltac:(done)). rewrite Hn in *. simpl in *. lia. }
  all: injection Hp as <-; cbn [Decimal.nb_digits]; rewrite Nat2Z.inj_succ;
    replace (Z.succ (Z.of_nat (Decimal.nb_digits d)) - 1) with (Z.of_nat (Decimal.nb_digits d)) by lia;
    (etransitivity; [|apply of_uint_acc_ge]); lia.
Qed.

Lemma to_uint_digits p : 10 ^ (Z.of_nat (Decimal.nb_digits (Pos.to_uint p)) - 1) <= Zpos p.
Proof.
  apply unorm_value; [apply DecimalPos.Unsigned.of_to|]. by rewrite <- (DecimalPos.Unsigned.to_of (Pos.to_uint p)), DecimalPos.Unsigned.of_to.
Qed.

Lemma length_string_of_uint d : String.length (NilEmpty.string_of_uint d) = Decimal.nb_digits d.
Proof. induction d; simpl; congruence. Qed.

(** An integer of at most [k] decimal digits. *)
Lemma length_fmt_d k z :
  (0 < k)%nat -> (- 10 ^ Z.of_nat k < z < 10 ^ Z.of_nat k)%Z ->
  (String.length (fmt_d z) <= k + (if (z <? 0)%Z then 1 else 0))%nat.
Proof.
  intros Hk Hz. unfold fmt_d.
  assert (Hp : forall p, Zpos p < 10 ^ Z.of_nat k ->
    (String.length (NilZero.string_of_uint (Pos.to_uint p)) <= k)%nat).
  { intros p Hp. assert (Hne : Pos.to_uint p <> Decimal.Nil) by apply DecimalPos.Unsigned.to_uint_nonnil.
    replace (NilZero.string_of_uint (Pos.to_uint p)) with (NilEmpty.string_of_uint (Pos.to_uint p))
      by (destruct (Pos.to_uint p); done).
    rewrite length_string_of_uint. pose proof (to_uint_digits p) as Hd.
    apply Nat.nlt_ge. intros Hlt.
    assert (10 ^ Z.of_nat k <= 10 ^ (Z.of_nat (Decimal.nb_digits (Pos.to_uint p)) - 1))
      by (apply Z.pow_le_mono_r; lia). lia. }
  destruct z as [|p|p]; simpl.
  - lia.
  - specialize (Hp p). lia.
  - specialize (Hp p). lia.
Qed.

Lemma length_fmt_u32 z : 0 <= z < 2 ^ 32 -> (String.length (fmt_d z) <= 10)%nat.
Proof.
  intros Hz. pose proof (length_fmt_d 10 z ltac:(lia) ltac:(lia)) as H.
  rewrite (proj2 (Z.ltb_ge z 0)) in H by lia. lia.
Qed.

Lemma length_fmt_long z : LONG_MIN <= z <= LONG_MAX -> (String.length (fmt_d z) <= 20)%nat.
Proof.
  unfold LONG_MIN, LONG_MAX. intros Hz. pose proof (length_fmt_d 19 z ltac:(lia) ltac:(lia)) as H.
  destruct (z <? 0); lia.
Qed.

(** *** Reading a printed integer back *)

Lemma digits_from_pos d a n :
  digits_from (Zpos a) n (NilEmpty.string_of_uint d) =
  (Zpos (Pos.of_uint_acc d a), (n + Decimal.nb_digits d)%nat, "").
Proof.
  revert a n. induction d; intros a n; cbn [NilEmpty.string_of_uint digits_from]; [by rewrite Nat.add_0_r|..];
    change (isdigit _) with true; cbv iota;
    cbn [Pos.of_uint_acc Decimal.nb_digits]; rewrite Nat.add_succ_r, <- Nat.add_succ_l, <- IHd; f_equal;
    match goal with |- context [code ?c - 48] =>
      let v := eval vm_compute in (code c - 48) in change (code c - 48) with v end; lia.
Qed.

Lemma digits_from_zero d n :
  digits_from 0 n (NilEmpty.string_of_uint d) = (Z.of_N (Pos.of_uint d), (n + Decimal.nb_digits d)%nat, "").
Proof.
  revert n. induction d; intros n; cbn [NilEmpty.string_of_uint digits_from]; [by rewrite Nat.add_0_r|..];
    change (isdigit _) with true; cbv iota; cbn [Decimal.nb_digits]; rewrite Nat.add_succ_r, <- Nat.add_succ_l.
  - apply IHd.
  - apply (digits_from_pos d 1).
  - apply (digits_from_pos d 2).
  - apply (digits_from_pos d 3).
  - apply (digits_from_pos d 4).
  - apply (digits_from_pos d 5).
  - apply (digits_from_pos d 6).
  - apply (digits_from_pos d 7).
  - apply (digits_from_pos d 8).
  - apply (digits_from_pos d 9).
Qed.

Lemma string_of_uint_digits d : str_forallb isdigit (NilEmpty.string_of_uint d) = true.
Proof. by induction d. Qed.

Lemma fmt_d_digits z : 0 <= z -> fmt_d z <> "" /\ str_forallb isdigit (fmt_d z) = true /\
  exists n, digits_from 0 0 (fmt_d z) = (z, S n, "").
Proof.
  intros Hz. destruct z as [|p|p]; [by split_and!; [done..|eexists]| |lia]. unfold fmt_d. cbn [Z.to_int NilZero.string_of_int].
  assert (Hne : Pos.to_uint p <> Decimal.Nil) by apply DecimalPos.Unsigned.to_uint_nonnil.
  replace (NilZero.string_of_uint (Pos.to_uint p)) with (NilEmpty.string_of_uint (Pos.to_uint p))
    by (destruct (Pos.to_uint p); done).
  rewrite digits_from_zero, DecimalPos.Unsigned.of_to, string_of_uint_digits.
  destruct (Pos.to_uint p); try done; (split_and!; [done..|by eexists]).
Qed.

Lemma isdigit_range c : isdigit c = true -> 48 <= code c <= 57.
Proof. unfold isdigit, in_range. intros H. bool_hyps. revert H H0. change (code "0") with 48. change (code "9") with 57. lia. Qed.

Lemma digit_is_plain c : isdigit c = true ->
  isspace c = false /\ Ascii.eqb c "-" = false /\ Ascii.eqb c "+" = false /\ tolower c = c /\
  Ascii.eqb "i" c = false /\ Ascii.eqb "n" c = false /\ Ascii.eqb "x" c = false.
Proof.
  intros H%isdigit_range.
  assert (Hc : forall d, code d < 48 \/ 57 < code d -> Ascii.eqb c d = false /\ Ascii.eqb d c = false).
  { intros d Hd. split; apply Ascii.eqb_neq; intros ->; lia. }
  split_and!; try (apply Hc; vm_compute; auto).
  - unfold isspace. rewrite (proj2 (Z.eqb_neq _ _)), (proj2 (Z.leb_gt (code c) 13)) by lia. by rewrite andb_false_r.
  - unfold tolower, in_range. change (code "A") with 65. by rewrite (proj2 (Z.leb_gt 65 _)) by lia.
Qed.

(** [strtod] of a printed integer is the double nearest to it. *)
Lemma atof_fmt_d z : 0 <= z < 10 ^ 300 -> atof (fmt_d z) = d_of_Z z.
Proof.
  intros Hz. destruct (fmt_d_digits z) as (Hne & Hd & n & Hn); [lia|]. unfold atof, strtod.
  assert (Hs : skip_space (fmt_d z) = fmt_d z /\ read_sign (fmt_d z) = (false, fmt_d z) /\
    prefix_nocase "inf" (fmt_d z) = false /\ prefix_nocase "nan" (fmt_d z) = false /\
    prefix_nocase "0x" (fmt_d z) = false).
  { destruct (fmt_d z) as [|c s]; [done|]. cbn [str_forallb] in Hd. apply andb_prop in Hd as [Hc Hd].
    destruct (digit_is_plain c Hc) as (H1 & H2 & H3 & H4 & H5 & H6 & _).
    cbn [skip_space read_sign prefix_nocase]. rewrite H1, H2, H3, H4, H5, H6. split_and!; try done.
    destruct s as [|c2 s]; [by rewrite andb_false_r|]. cbn [str_forallb] in Hd. apply andb_prop in Hd as [Hc2 _].
    destruct (digit_is_plain c2 Hc2) as (_ & _ & _ & K4 & _ & _ & K7). cbn [prefix_nocase]. by rewrite K4, K7, andb_false_r. }
  destruct Hs as (-> & -> & -> & -> & ->). unfold read_mantissa. rewrite Hn. cbn [read_exponent Z.of_nat Z.sub Z.opp].
  change (0 - 0) with 0. unfold d_of_decimal, d_of_Z, binary_normalize. destruct z as [|p|p]; [done| |lia].
  assert (Hlen : (String.length (fmt_d (Zpos p)) <= 300)%nat).
  { pose proof (length_fmt_d 300 (Zpos p) ltac:(lia)) as Hl. change (Z.of_nat 300) with 300 in Hl.
    specialize (Hl ltac:(lia)). simpl in Hl. lia. }
  unfold strlen. rewrite (proj2 (Z.ltb_ge 310 _)) by lia. rewrite (proj2 (Z.ltb_ge _ (-330))) by lia.
  cbn [Z.leb Z.compare]. by rewrite Pos.mul_1_r.
Qed.

(** *** Texts and their parts *)

Lemma str_take_app_exact s t : str_take (String.length s) (s ++ t) = s.
Proof. induction s as [|c s IH]; simpl; [by destruct t|]. by rewrite IH. Qed.

Lemma str_take_before c s t : str_take (String.length (before c s)) (s ++ t) = before c s.
Proof.
  induction s as [|a s IH]; simpl; [by destruct t|]. destruct (Ascii.eqb a c); [done|]. cbn. by rewrite IH.
Qed.

Lemma strchr_split c s f : strchr c s = Some f -> s = (before c s ++ f)%string /\ exists t, f = String c t.
Proof.
  induction s as [|a s IH]; simpl; [done|]. destruct (Ascii.eqb a c) eqn:E.
  - intros [= <-]. apply ascii_eqb_eq in E as ->. split; [done|]. by eexists.
  - intros H. destruct (IH H) as [Hs Ht]. split; [|done]. cbn. by rewrite <- Hs.
Qed.

(** [strtol] reads a printed integer back, up to a text no digit starts. *)
Lemma digits_from_app v rest acc n :
  (forall a k, digits_from a k rest = (a, k, rest)) ->
  digits_from acc n (v ++ rest) = (fst (digits_from acc n v), (snd (digits_from acc n v) ++ rest)%string).
Proof.
  intros Hr. revert acc n. induction v as [|c v IH]; intros acc n; simpl; [apply Hr|]. by destruct (isdigit c).
Qed.

Lemma strtol_fmt_d z rest : 0 <= z <= LONG_MAX -> (forall a k, digits_from a k rest = (a, k, rest)) ->
  strtol (fmt_d z ++ rest) = (z, rest).
Proof.
  intros Hz Hr. destruct (fmt_d_digits z) as (Hne & Hd & n & Hn); [lia|]. unfold strtol.
  assert (Hs : skip_space (fmt_d z ++ rest) = (fmt_d z ++ rest)%string /\
    read_sign (fmt_d z ++ rest) = (false, (fmt_d z ++ rest)%string)).
  { destruct (fmt_d z) as [|c s]; [done|]. cbn [str_forallb] in Hd. apply andb_prop in Hd as [Hc _].
    destruct (digit_is_plain c Hc) as (H1 & H2 & H3 & _). cbn [String.append skip_space read_sign].
    by rewrite H1, H2, H3. }
  destruct Hs as [-> ->]. rewrite (digits_from_app _ _ _ _ Hr), Hn. cbn [fst snd String.append].
  unfold clamp, LONG_MIN. f_equal. unfold LONG_MAX in *. lia.
Qed.
