(* ===== verification/HesCommon.v ===== *)
(** * The message, the bus and the gateway clock

    Models src/src/common/hes_common.h (the HES-CLME message and its setters),
    src/src/common/hes_clock.c (corrected UTC), the sending half of
    src/src/common/hes_bus.c (every message is stamped on its way out), and the
    service-object interface of src/src/common/service_object.h. *)

From S2P Require Import Prelude CLib.

Definition HES_PATH_MAX : nat := 128.
Definition HES_PAYLOAD_MAX : nat := 512.
Definition HES_QUERY_MAX : nat := 64.
Definition HES_CRED_MAX : nat := 512.
Definition HES_USER_MAX : nat := 32.

(** ** Verbs and module types *)

Definition HES_VERB_NONE : Z := 0.
Definition HES_VERB_GET : Z := 1.
Definition HES_VERB_PUT : Z := 2.
Definition HES_VERB_EVENT : Z := 3.
Definition HES_VERB_SUBSCRIBE : Z := 4.
Definition HES_VERB_UNSUBSCRIBE : Z := 5.

Inductive hes_module_type_t :=
| HES_MODTYPE_NONE
| HES_MODTYPE_HI
| HES_MODTYPE_WI
| HES_MODTYPE_SM
| HES_MODTYPE_IT.

#[export] Instance hes_module_type_eq_dec : EqDecision hes_module_type_t.
Proof. solve_decision. Defined.

(** ** The message

    [verb] is the raw byte of the wire struct: a peer may put any value there. *)
Record hes_clme_msg_t := mk_msg {
  msg_path : string;
  msg_verb : Z;
  msg_device_index : Z;
  msg_query : string;
  msg_payload_len : Z;
  msg_payload : string;
  msg_cred_info : string;
  msg_user_name : string;
  msg_timestamp_ns : Z;
}.

Definition hes_msg_init : hes_clme_msg_t := mk_msg "" 0 0 "" 0 "" "" "" 0.

(** A fixed-size buffer of [dstsz] bytes keeps at most [dstsz - 1] characters. *)
Definition hes_strlcpy (dstsz : nat) (src : string) : string := str_take (dstsz - 1) src.

Definition hes_msg_set_payload_str (m : hes_clme_msg_t) (s : string) : hes_clme_msg_t :=
  let p := hes_strlcpy HES_PAYLOAD_MAX s in
  mk_msg (msg_path m) (msg_verb m) (msg_device_index m) (msg_query m) (uint32 (strlen p)) p
    (msg_cred_info m) (msg_user_name m) (msg_timestamp_ns m).

Definition hes_msg_set_path (m : hes_clme_msg_t) (p : string) : hes_clme_msg_t :=
  mk_msg (hes_strlcpy HES_PATH_MAX p) (msg_verb m) (msg_device_index m) (msg_query m)
    (msg_payload_len m) (msg_payload m) (msg_cred_info m) (msg_user_name m) (msg_timestamp_ns m).

Definition msg_with_verb (v : Z) (m : hes_clme_msg_t) : hes_clme_msg_t :=
  mk_msg (msg_path m) v (msg_device_index m) (msg_query m) (msg_payload_len m) (msg_payload m)
    (msg_cred_info m) (msg_user_name m) (msg_timestamp_ns m).

Definition msg_with_device (d : Z) (m : hes_clme_msg_t) : hes_clme_msg_t :=
  mk_msg (msg_path m) (msg_verb m) d (msg_query m) (msg_payload_len m) (msg_payload m)
    (msg_cred_info m) (msg_user_name m) (msg_timestamp_ns m).

Definition msg_with_query (q : string) (m : hes_clme_msg_t) : hes_clme_msg_t :=
  mk_msg (msg_path m) (msg_verb m) (msg_device_index m) q (msg_payload_len m) (msg_payload m)
    (msg_cred_info m) (msg_user_name m) (msg_timestamp_ns m).

Definition msg_with_raw_payload (len : Z) (p : string) (m : hes_clme_msg_t) : hes_clme_msg_t :=
  mk_msg (msg_path m) (msg_verb m) (msg_device_index m) (msg_query m) len p
    (msg_cred_info m) (msg_user_name m) (msg_timestamp_ns m).

Definition msg_stamped (ts : Z) (m : hes_clme_msg_t) : hes_clme_msg_t :=
  mk_msg (msg_path m) (msg_verb m) (msg_device_index m) (msg_query m) (msg_payload_len m)
    (msg_payload m) (msg_cred_info m) (msg_user_name m) ts.

(** A message whose texts fit the buffers of the struct. *)
Definition msg_fits (m : hes_clme_msg_t) : Prop :=
  (String.length (msg_path m) < HES_PATH_MAX)%nat /\
  (String.length (msg_query m) < HES_QUERY_MAX)%nat /\
  (String.length (msg_payload m) < HES_PAYLOAD_MAX)%nat /\
  (String.length (msg_cred_info m) < HES_CRED_MAX)%nat /\
  (String.length (msg_user_name m) < HES_USER_MAX)%nat.

(** ** The gateway clock *)

Definition NS_PER_SEC : Z := 1000000000.

(** One reading of [CLOCK_REALTIME] ([None]: the call failed) together with the
    correction that was in force. *)
Record clock_reading := mk_reading {
  rd_time : option (Z * Z);
  rd_offset_ns : Z;
}.

(** The atomic correction, set by one thread and read by the others: a reading takes the one
    last set. *)
Definition hes_clock_set_offset_ns (offset_ns g_offset_ns : Z) : Z := offset_ns.
Definition hes_clock_offset_ns (g_offset_ns : Z) : Z := g_offset_ns.
Definition clock_gettime (now : option (Z * Z)) (g_offset_ns : Z) : clock_reading :=
  mk_reading now (hes_clock_offset_ns g_offset_ns).

Definition hes_clock_now_ns (r : clock_reading) : Z :=
  match rd_time r with
  | None => 0
  | Some (sec, nsec) =>
      let ns := sec * NS_PER_SEC + nsec + rd_offset_ns r in
      if ns <? 0 then 0 else uint64 ns
  end.

Definition hes_clock_now (r : clock_reading) : Z := hes_clock_now_ns r / NS_PER_SEC.

(** ** The bus

    What the program can observe of its side of the bus: the messages handed to
    the transport so far, oldest first, and the clock readings taken to stamp
    them ([bus_clock n] is the reading of the n-th send). *)
Record hes_bus_t := mk_bus {
  bus_sent : list hes_clme_msg_t;
  bus_clock : nat -> clock_reading;
}.

Definition hes_bus_send (b : hes_bus_t) (m : hes_clme_msg_t) : hes_bus_t :=
  let stamped := msg_stamped (hes_clock_now_ns (bus_clock b (length (bus_sent b)))) m in
  mk_bus (bus_sent b ++ [stamped]) (bus_clock b).

(** [b'] extends [b]: the same transport, with the messages [ms] sent in between. *)
Definition bus_extends (b b' : hes_bus_t) (ms : list hes_clme_msg_t) : Prop :=
  bus_sent b' = bus_sent b ++ ms /\ bus_clock b' = bus_clock b.

(** ** Receiving a text

    [nng_recv] of src/deps/nng/src/nng.c into a buffer of [cap] bytes: what it stores,
    and the size it reports, which is the message's and not what it copied. *)
Definition nng_recv (cap : nat) (msg : string) : string * nat := (str_take cap msg, String.length msg).

(** The C string in a buffer: what comes before the first NUL. *)
Definition c_string (buf : string) : string := before Ascii.zero buf.

(** [size_t sz = bufsz - 1; nng_recv(...); buf[sz] = '\0'] of a delivered message.
    [None]: the terminator lands outside the buffer. *)
Definition recv_text (bufsz : nat) (msg : string) : option string :=
  let '(buf, sz) := nng_recv (bufsz - 1) msg in
  if (bufsz <=? sz)%nat then None else Some (c_string buf).

(** ** Service objects

    The struct of function pointers, over the state [G] the service objects of
    one module share; a NULL callback is [None]. *)
Record service_object_t (G : Type) := mk_so {
  so_path : string;
  so_on_get : option (G -> hes_clme_msg_t -> G * hes_clme_msg_t);
  so_on_put : option (G -> hes_clme_msg_t -> G);
  so_tick : option (G -> hes_bus_t -> G * hes_bus_t);
}.
Arguments mk_so {G}.
Arguments so_path {G}.
Arguments so_on_get {G}.
Arguments so_on_put {G}.
Arguments so_tick {G}.

(** ** Lemmas *)

Lemma hes_strlcpy_fits n s : (0 < n)%nat -> (String.length (hes_strlcpy n s) < n)%nat.
Proof. intros Hn. unfold hes_strlcpy. rewrite length_str_take. lia. Qed.

Lemma hes_strlcpy_small n s : (String.length s < n)%nat -> hes_strlcpy n s = s.
Proof. intros Hs. apply str_take_ge. lia. Qed.

Lemma hes_strlcpy_idemp n s : hes_strlcpy n (hes_strlcpy n s) = hes_strlcpy n s.
Proof. unfold hes_strlcpy. rewrite str_take_idemp. f_equal. lia. Qed.

#[export] Hint Resolve hes_strlcpy_fits hes_strlcpy_small : hes.

Lemma bus_extends_refl b : bus_extends b b [].
Proof. split; [by rewrite app_nil_r|done]. Qed.

Lemma bus_extends_trans b1 b2 b3 ms ns :
  bus_extends b1 b2 ms -> bus_extends b2 b3 ns -> bus_extends b1 b3 (ms ++ ns).
Proof.
  intros [H1 H2] [H3 H4]. split; [|congruence]. rewrite H3, H1. by rewrite app_assoc.
Qed.

Lemma bus_extends_send b m :
  exists m', bus_extends b (hes_bus_send b m) [m'] /\
    msg_path m' = msg_path m /\ msg_verb m' = msg_verb m /\
    msg_device_index m' = msg_device_index m /\ msg_payload m' = msg_payload m /\
    msg_cred_info m' = msg_cred_info m /\ msg_user_name m' = msg_user_name m.
Proof. eexists. split; [split; reflexivity|done]. Qed.

#[export] Hint Resolve bus_extends_refl bus_extends_trans : hes.
