(* ===== verification/HesQuery.v ===== *)
(** * The document layer

    Models src/src/common/hes_query.c: the translation of the compact dot paths
    into XPath ([_translate_path]), the reading of a node's text ([_node_text]),
    the scalar and element queries, and the two list queries the binding-map
    loader is built on. libxml2 is the class [LibXml]: its document and node
    types, its accessors and its XPath evaluator are what the code calls; the
    laws a client relies on are the class [LibXmlLaws], and [Tree] is an
    instance of both. *)

From S2P Require Import Prelude CLib.

(** ** libxml2, as the layer uses it *)

Inductive xml_node_type := XML_ELEMENT_NODE | XML_ATTRIBUTE_NODE | XML_TEXT_NODE | XML_OTHER_NODE.

Inductive xpath_object (N : Type) :=
| XPATH_FAILED
| XPATH_NODESET (nodes : list N)
| XPATH_OTHER.
Arguments XPATH_FAILED {N}.
Arguments XPATH_NODESET {N}.
Arguments XPATH_OTHER {N}.

Class LibXml (D N : Type) := {
  xmlParseFile : string -> option D;
  xmlDocGetRootElement : D -> option N;
  xml_type : N -> xml_node_type;
  xml_name : N -> string;
  xml_content : N -> option string;
  xml_children : N -> list N;
  (** name of each attribute, with the content of its first child if it has one *)
  xml_properties : N -> list (string * option string);
  xmlXPathEval : D -> option N -> string -> xpath_object N;
}.

(** ** Path translation *)

Definition is_sep (c : ascii) : bool := (Ascii.eqb c "." || Ascii.eqb c "/")%bool.

(** The segments of a path: separators are skipped, and a run of them counts once. *)
Fixpoint path_segments (cur : string) (p : string) : list string :=
  match p with
  | EmptyString => match cur with EmptyString => [] | _ => [cur] end
  | String c r =>
      if is_sep c then
        match cur with EmptyString => path_segments "" r | _ => cur :: path_segments "" r end
      else path_segments (cur ++ String c "") r
  end.

(** One segment: an attribute step, [text()], or an element name with an optional
    0-based index, which XPath counts from 1. *)
Definition starts_with (c : ascii) (s : string) : bool :=
  match s with String a _ => Ascii.eqb a c | EmptyString => false end.

Definition translate_segment (seg : string) : string :=
  if starts_with "@" seg then seg
  else if seg =?s "text()" then seg
  else
    match strchr "[" seg with
    | Some (String _ tail) =>
        let '(idx, endp) := strtol tail in
        if endp =?s "]" then (before "[" seg ++ "[" ++ fmt_d (idx + 1) ++ "]")%string
        else seg
    | _ => seg
    end.

Definition _translate_path (path : string) (absolute : bool) : string :=
  ((if absolute then "/" else "") ++ str_join "/" (translate_segment <$> path_segments "" path))%string.

(** ** Queries *)

Section query.
Context {D N : Type} {lib : LibXml D N}.

Record hes_query_ctx_t := mk_ctx { qc_doc : D; qc_root : N }.
Record hes_query_elem_t := mk_elem { qe_ctx : hes_query_ctx_t; qe_node : N }.

Definition blank (s : string) : bool :=
  str_forallb (fun c => (Ascii.eqb c " " || (code c =? 10) || (code c =? 9) || (code c =? 13))%bool) s.

(** The text of a node: an attribute's value, a text node's content, or the
    first text child of an element that is not only white space. *)
Definition _node_text (n : N) : option string :=
  match xml_type n with
  | XML_ATTRIBUTE_NODE =>
      Some (match xml_children n with
            | c :: _ =>
                match xml_content c with Some s => s | None => default "" (xml_content n) end
            | [] => default "" (xml_content n)
            end)
  | XML_TEXT_NODE => Some (default "" (xml_content n))
  | XML_ELEMENT_NODE =>
      Some (match find_first
                    (fun c => match xml_type c, xml_content c with
                              | XML_TEXT_NODE, Some s => negb (blank s)
                              | _, _ => false
                              end) (xml_children n) with
            | Some c => default "" (xml_content c)
            | None => ""
            end)
  | XML_OTHER_NODE => None
  end.

Definition _eval (ctx : hes_query_ctx_t) (node : N) (path : string) (absolute : bool) :=
  xmlXPathEval (qc_doc ctx) (Some node) (_translate_path path absolute).

Definition _eval_root (ctx : hes_query_ctx_t) (path : string) : xpath_object N :=
  _eval ctx (qc_root ctx) path true.

(** The nodes of a result; anything but a node set is "no match". *)
Definition node_set (r : xpath_object N) : list N :=
  match r with XPATH_NODESET ns => ns | _ => [] end.

Definition _handle_list (ctx : hes_query_ctx_t) (r : xpath_object N) : list hes_query_elem_t :=
  mk_elem ctx <$> node_set r.

Definition hes_query_open (filepath : string) : option hes_query_ctx_t :=
  match xmlParseFile filepath with
  | None => None
  | Some doc => mk_ctx doc <$> xmlDocGetRootElement doc
  end.

Definition hes_query_string (ctx : hes_query_ctx_t) (path : string) : option string :=
  match node_set (_eval_root ctx path) with
  | n :: _ => _node_text n
  | [] => None
  end.

Definition hes_query_long (ctx : hes_query_ctx_t) (path : string) (def : Z) : Z :=
  match hes_query_string ctx path with
  | None | Some EmptyString => def
  | Some s => let '(v, endp) := strtol s in if endp =?s s then def else v
  end.

Definition hes_query_double (ctx : hes_query_ctx_t) (path : string) (def : double) : double :=
  match hes_query_string ctx path with
  | None | Some EmptyString => def
  | Some s => default def (strtod s)
  end.

Definition hes_query_bool (ctx : hes_query_ctx_t) (path : string) (def : bool) : bool :=
  match hes_query_string ctx path with
  | None => def
  | Some s =>
      if ((s =?s "1") || (s =?s "true") || (s =?s "yes") || (s =?s "on"))%bool then true
      else if ((s =?s "0") || (s =?s "false") || (s =?s "no") || (s =?s "off"))%bool then false
      else def
  end.

Definition hes_query_elem (ctx : hes_query_ctx_t) (path : string) : option hes_query_elem_t :=
  match node_set (_eval_root ctx path) with
  | n :: _ => Some (mk_elem ctx n)
  | [] => None
  end.

Definition hes_query_elem_name (e : hes_query_elem_t) : string := xml_name (qe_node e).

Definition hes_query_elem_text (e : hes_query_elem_t) : option string := _node_text (qe_node e).

Definition hes_query_elem_attr (e : hes_query_elem_t) (attr : string) : option string :=
  match find_first (fun a => fst a =?s attr) (xml_properties (qe_node e)) with
  | Some (_, v) => Some (default "" v)
  | None => None
  end.

Definition hes_query_elem_string (e : hes_query_elem_t) (rel_path : string) : option string :=
  match node_set (_eval (qe_ctx e) (qe_node e) rel_path false) with
  | n :: _ => _node_text n
  | [] => None
  end.

Definition hes_query_count (ctx : hes_query_ctx_t) (path : string) : Z :=
  Z.of_nat (length (node_set (_eval_root ctx path))).

Definition hes_query_elem_list (ctx : hes_query_ctx_t) (path : string) : list hes_query_elem_t :=
  _handle_list ctx (_eval_root ctx path).

Definition hes_query_elem_children (e : hes_query_elem_t) (name : string)
  : list hes_query_elem_t :=
  _handle_list (qe_ctx e) (_eval (qe_ctx e) (qe_node e) name false).

Definition hes_query_find_all (ctx : hes_query_ctx_t) (name : string) : list hes_query_elem_t :=
  match name with
  | EmptyString => []
  | _ => _handle_list ctx (xmlXPathEval (qc_doc ctx) (Some (qc_root ctx)) ("//" ++ name)%string)
  end.
End query.

Arguments hes_query_ctx_t : clear implicits.
Arguments hes_query_elem_t : clear implicits.

(** ** What a client relies on

    XPath 1.0 on a plain name: a name selects the child elements of that name and
    ["//name"] the elements of that name anywhere below the document, both in
    document order. *)

(** A name without any character the path or XPath syntax gives a meaning to. *)
Definition plain_name (s : string) : bool :=
  (negb (s =?s "") &&
   str_forallb (fun c => in_range "a" "z" c || in_range "A" "Z" c || isdigit c) s)%bool.

Section laws.
Context {D N : Type} {lib : LibXml D N}.

Definition named_element (name : string) (n : N) : bool :=
  match xml_type n with XML_ELEMENT_NODE => xml_name n =?s name | _ => false end.

Definition named_children (name : string) (n : N) : list N :=
  filter (fun c => named_element name c = true) (xml_children n).
End laws.

Class LibXmlLaws (D N : Type) (lib : LibXml D N) := {
  xml_descendants : D -> list N;
  xpath_child : forall d n name, plain_name name = true ->
    xmlXPathEval d (Some n) name = XPATH_NODESET (named_children name n);
  xpath_descendant : forall d r name, plain_name name = true ->
    xmlDocGetRootElement d = Some r ->
    xmlXPathEval d (Some r) ("//" ++ name)%string =
    XPATH_NODESET (filter (fun n => named_element name n = true) (xml_descendants d));
}.

(** ** Lemmas on the path translation *)

Lemma path_segments_plain cur p :
  str_forallb (fun c => negb (is_sep c)) p = true ->
  path_segments cur p = match (cur ++ p)%string with EmptyString => [] | s => [s] end.
Proof.
  revert cur. induction p as [|c p IH]; intros cur H; simpl in *.
  - rewrite str_app_nil_r. by destruct cur.
  - apply andb_prop in H as [Hc Hp]. apply negb_true_iff in Hc. rewrite Hc.
    rewrite IH by done. rewrite str_app_assoc. done.
Qed.

Lemma path_segments_app cur s p c :
  str_forallb (fun c => negb (is_sep c)) s = true -> is_sep c = true ->
  path_segments cur (s ++ String c p) =
  match (cur ++ s)%string with EmptyString => path_segments "" p
                             | x => x :: path_segments "" p end.
Proof.
  revert cur. induction s as [|a s IH]; intros cur H Hc; simpl in *.
  - rewrite Hc, str_app_nil_r. by destruct cur.
  - apply andb_prop in H as [Ha Hs]. apply negb_true_iff in Ha. rewrite Ha.
    rewrite IH by done. rewrite str_app_assoc. done.
Qed.

(** A segment the path syntax keeps in one piece. *)
Definition segment_ok (s : string) : bool :=
  (negb (s =?s "") && str_forallb (fun c => negb (is_sep c)) s)%bool.

Lemma path_segments_join_sep c segs :
  is_sep c = true -> forallb segment_ok segs = true -> path_segments "" (str_join (String c "") segs) = segs.
Proof.
  intros Hc. induction segs as [|s segs IH]; intros H; [done|].
  simpl in H. apply andb_prop in H as [Hs Hss]. apply andb_prop in Hs as [Hne Hno].
  apply negb_true_iff, String.eqb_neq in Hne.
  destruct segs as [|s' segs].
  - cbn [str_join]. rewrite path_segments_plain by done. by destruct s.
  - rewrite str_join_cons. change (String c "" ++ ?x)%string with (String c x).
    rewrite path_segments_app by done. rewrite IH by done. by destruct s.
Qed.

Lemma path_segments_join segs :
  forallb segment_ok segs = true -> path_segments "" (str_join "." segs) = segs.
Proof. by apply (path_segments_join_sep "."). Qed.

Lemma str_forallb_impl (p q : ascii -> bool) s :
  (forall c, p c = true -> q c = true) -> str_forallb p s = true -> str_forallb q s = true.
Proof.
  intros Hpq. induction s as [|c s IH]; simpl; [done|].
  intros [Hc Hs]%andb_prop. by rewrite (Hpq c Hc), IH.
Qed.

Definition name_char (c : ascii) : bool :=
  (in_range "a" "z" c || in_range "A" "Z" c || isdigit c)%bool.

Lemma name_char_code c :
  name_char c = true ->
  (97 <= code c <= 122) \/ (65 <= code c <= 90) \/ (48 <= code c <= 57).
Proof.
  unfold name_char, isdigit, in_range.
  change (code "a") with 97. change (code "z") with 122. change (code "A") with 65.
  change (code "Z") with 90. change (code "0") with 48. change (code "9") with 57.
  intros [[[? ?]%andb_prop|[? ?]%andb_prop]%orb_prop|[? ?]%andb_prop]%orb_prop; bool_hyps; lia.
Qed.

Lemma name_char_neq c d : name_char c = true -> name_char d = false -> Ascii.eqb c d = false.
Proof. intros Hc Hd. destruct (Ascii.eqb c d) eqn:E; [|done]. apply ascii_eqb_eq in E. congruence. Qed.

Lemma plain_name_no_char s c :
  str_forallb name_char s = true -> name_char c = false -> strchr c s = None.
Proof.
  intros Hs Hc. induction s as [|a s IH]; simpl in *; [done|].
  apply andb_prop in Hs as [Ha Hs]. by rewrite (name_char_neq a c), IH.
Qed.

(** A plain name is translated to itself. *)
Lemma translate_plain_name s : plain_name s = true -> _translate_path s false = s.
Proof.
  unfold plain_name, _translate_path. fold name_char.
  intros [Hne Hs]%andb_prop. apply negb_true_iff, String.eqb_neq in Hne.
  change (str_forallb name_char s = true) in Hs.
  assert (Hsep : str_forallb (fun c => negb (is_sep c)) s = true).
  { eapply str_forallb_impl; [|exact Hs]. intros c Hc. unfold is_sep.
    by rewrite !(name_char_neq c) by done. }
  rewrite path_segments_plain by done. simpl.
  destruct s as [|a s]; [done|]. cbn [fmap list_fmap str_join].
  unfold translate_segment. rewrite (plain_name_no_char _ "[") by done.
  by destruct (starts_with "@" (String a s)), (String a s =?s "text()").
Qed.

Section client_lemmas.
Context {D N : Type} {lib : LibXml D N} {laws : LibXmlLaws D N lib}.

(** The children query of a plain name is the child elements of that name. *)
Lemma elem_children_plain (e : hes_query_elem_t D N) name :
  plain_name name = true ->
  qe_node <$> hes_query_elem_children e name = named_children name (qe_node e).
Proof.
  intros Hn. unfold hes_query_elem_children, _eval, _handle_list.
  rewrite translate_plain_name by done. rewrite xpath_child by done. simpl.
  rewrite <- list_fmap_compose. apply list_fmap_id.
Qed.

(** The descendant query of a plain name finds the tables wherever they nest. *)
Lemma find_all_plain (ctx : hes_query_ctx_t D N) name :
  plain_name name = true -> xmlDocGetRootElement (qc_doc ctx) = Some (qc_root ctx) ->
  qe_node <$> hes_query_find_all ctx name =
  filter (fun n => named_element name n = true) (xml_descendants (qc_doc ctx)).
Proof.
  intros Hn Hr. unfold hes_query_find_all, _handle_list.
  destruct name as [|a name]; [done|].
  rewrite (xpath_descendant (qc_doc ctx) (qc_root ctx)) by done. simpl.
  rewrite <- list_fmap_compose. apply list_fmap_id.
Qed.
End client_lemmas.

(** ** An instance: documents as trees

    Elements with attributes and children, text, and attribute nodes (which XPath
    selects). The evaluator covers the location paths [_translate_path] writes:
    child steps by name or ["*"], 1-based indices, [@attr], [text()], a leading
    '/' and the descendant form ["//name"]. *)
Module Tree.
#[warnings="-register-all"]
Inductive node :=
| Elem (name : string) (props : list (string * string)) (children : list node)
| Text (content : string)
| Attr (name value : string).

Definition type_of (n : node) : xml_node_type :=
  match n with
  | Elem _ _ _ => XML_ELEMENT_NODE
  | Text _ => XML_TEXT_NODE
  | Attr _ _ => XML_ATTRIBUTE_NODE
  end.

Definition name_of (n : node) : string :=
  match n with Elem s _ _ => s | Attr s _ => s | Text _ => "" end.

Definition content_of (n : node) : option string :=
  match n with Text s => Some s | Attr _ v => Some v | Elem _ _ _ => None end.

Definition children_of (n : node) : list node :=
  match n with Elem _ _ cs => cs | _ => [] end.

Definition props_of (n : node) : list (string * option string) :=
  match n with Elem _ ps _ => prod_map id Some <$> ps | _ => [] end.

(** The node and its descendants in document order. *)
Fixpoint self_descendants (n : node) : list node :=
  n :: match n with Elem _ _ cs => concat (map self_descendants cs) | _ => [] end.

Definition is_named (name : string) (n : node) : bool :=
  match n with Elem s _ _ => (s =?s name) | _ => false end.

Definition is_text (n : node) : bool := match n with Text _ => true | _ => false end.

Definition step (s : string) (n : node) : list node :=
  if starts_with "@" s then
    match n with
    | Elem _ ps _ => (fun p => Attr (fst p) (snd p)) <$> filter (fun p => fst p = str_drop 1 s) ps
    | _ => []
    end
  else if s =?s "text()" then filter (fun c => is_text c = true) (children_of n)
  else if s =?s "*" then filter (fun c => is_named (name_of c) c = true) (children_of n)
  else
    match strchr "[" s with
    | Some (String _ t) =>
        let i := fst (strtol t) in
        if i <=? 0 then []
        else option_list (filter (fun c => is_named (before "[" s) c = true) (children_of n)
                          !! Z.to_nat (i - 1))
    | _ => filter (fun c => is_named s c = true) (children_of n)
    end.

Definition steps (ss : list string) (ns : list node) : list node :=
  fold_left (fun ns s => ns ≫= step s) ss ns.

Definition eval (root : node) (ctx : option node) (x : string) : xpath_object node :=
  XPATH_NODESET
    (if str_prefix "//" x then
       filter (fun n => is_named (str_drop 2 x) n = true) (self_descendants root)
     else if starts_with "/" x then steps (path_segments "" x) [Elem "" [] [root]]
     else steps (path_segments "" x) [default root ctx]).

(** [files] is the file system the documents are read from. *)
#[export] Instance lib (files : string -> option node) : LibXml node node := {
  xmlParseFile := files;
  xmlDocGetRootElement := Some;
  xml_type := type_of;
  xml_name := name_of;
  xml_content := content_of;
  xml_children := children_of;
  xml_properties := props_of;
  xmlXPathEval := eval;
}.

#[local] Existing Instance lib.

Lemma named_is_named files name n :
  @named_element node node (lib files) name n = is_named name n.
Proof. by destruct n. Qed.

Lemma plain_name_chars name :
  plain_name name = true -> str_forallb name_char name = true /\ name <> "".
Proof.
  unfold plain_name. fold name_char. intros [Hne Hs]%andb_prop.
  by apply negb_true_iff, String.eqb_neq in Hne.
Qed.

Lemma step_plain name n :
  plain_name name = true ->
  step name n = filter (fun c => is_named name c = true) (children_of n).
Proof.
  intros [Hs Hne]%plain_name_chars.
  unfold step. rewrite (plain_name_no_char _ "[") by done.
  destruct (name =?s "text()") eqn:E1; [apply String.eqb_eq in E1; by subst|].
  destruct (name =?s "*") eqn:E2; [apply String.eqb_eq in E2; by subst|].
  destruct name as [|a name]; [done|]. simpl in *.
  apply andb_prop in Hs as [Ha Hs]. by rewrite (name_char_neq a "@").
Qed.

Lemma eval_child d n name files :
  plain_name name = true ->
  eval d (Some n) name = XPATH_NODESET (@named_children node node (lib files) name n).
Proof.
  intros Hn. destruct (plain_name_chars name Hn) as [Hs Hne]. unfold eval.
  assert (Hsl : starts_with "/" name = false /\ str_prefix "//" name = false).
  { destruct name as [|a name]; [done|]. simpl in Hs. apply andb_prop in Hs as [Ha _]. simpl.
    by rewrite (name_char_neq a "/"). }
  destruct Hsl as [-> ->].
  rewrite path_segments_plain.
  2: { eapply str_forallb_impl; [|exact Hs]. intros c Hc. unfold is_sep.
       by rewrite !(name_char_neq c) by done. }
  destruct name as [|a name]; [done|]. unfold steps. simpl.
  rewrite step_plain by done. rewrite app_nil_r. f_equal.
  apply list_filter_iff. intros x. by rewrite named_is_named.
Qed.

#[export] Instance laws files : LibXmlLaws node node (lib files).
Proof.
  refine {| xml_descendants := self_descendants |}.
  - intros d n name Hn. by apply eval_child.
  - intros d r name Hn [= <-].
    change (xmlXPathEval d (Some d) ("//" ++ name)%string)
      with (XPATH_NODESET (filter (fun n => is_named name n = true) (self_descendants d))).
    f_equal. apply list_filter_iff. intros x. by rewrite named_is_named.
Defined.
End Tree.
