(* ===== verification/Bm.v ===== *)
(** * The binding map: data, loading, controller and processor

    Models src/src/bm/bm.h and src/src/bm/bm.c. The XML layer is the interface of
    [HesQuery]; the bus is the one of [HesCommon]; the host hooks (the protected
    app and the authorizer) are the function fields of [binding_map_t], as in the
    C struct. Numbers are binary64 values, and the value cache is the pair of
    arrays the C code indexes by device index. *)

From S2P Require Import Prelude CLib HesCommon HesQuery.

Definition BM_MAX_OPS : nat := 32.
Definition BM_MAX_INPUTS : nat := 4.
Definition BM_MAX_ADDRS : nat := 64.
Definition BM_LIVE_INPUT_PARAM : string := "va".

(** ** Data *)

Record bm_input_t := mk_input {
  in_device_index : Z;
  in_source_object : string;
  in_condition : string;
  in_author_type : string;
  in_accompany_op : string;
}.

Record bm_operand_t := mk_operand {
  od_device_index : Z;
  od_source_object : string;
  od_value : double;
}.

(** One entry of inputParameters: its literal value, or "read live". *)
Record bm_param_t := mk_param { ip_value : double; ip_is_live : bool }.

Record bm_operation_t := mk_op {
  op_ref_id : Z;
  op_enabled : bool;
  op_operation : string;
  op_table_code : string;
  op_inputs : list bm_input_t;
  op_input_params : list bm_param_t;
  op_output_params : list Z;
  op_out_device_index : Z;
  op_out_dest_object : string;
  op_out_method : string;
  op_out_adjustment : string;
  op_out_code : string;
  op_out_author_type : string;
  (** change detection: the last committed result, and the last operands seen *)
  op_last_output : option double;
  op_last_operands : option (list double);
}.

Record bm_addr_t := mk_addr {
  ad_device_index : Z;
  ad_module_type : hes_module_type_t;
  ad_module_ref_index : Z;
  ad_net_ref_index : Z;
  ad_address : string;
}.

(** [A] is the state behind the opaque pointer [app_ctx]. *)
Record binding_map_t (A : Type) := mk_bm {
  bm_ops : list bm_operation_t;
  bm_addrs : list bm_addr_t;
  bm_value_cache : list double;
  bm_value_valid : list bool;
  bm_app_operation : option (A -> bm_operation_t -> list bm_operand_t -> A * option double);
  bm_app_ctx : A;
  bm_authz_disabled : bool;
  bm_auth_authorize : option (hes_clme_msg_t -> string -> bool);
  bm_current_msg : option hes_clme_msg_t;
}.
Arguments mk_bm {A}.
Arguments bm_ops {A}.
Arguments bm_addrs {A}.
Arguments bm_value_cache {A}.
Arguments bm_value_valid {A}.
Arguments bm_app_operation {A}.
Arguments bm_app_ctx {A}.
Arguments bm_authz_disabled {A}.
Arguments bm_auth_authorize {A}.
Arguments bm_current_msg {A}.

(** *** Field updates *)

Definition op_empty : bm_operation_t :=
  mk_op 0 true "" "" [] [] [] 0 "" "" "" "" "" None None.

Section op_updates.
Variable o : bm_operation_t.

Definition op_with_ref_id v := mk_op v (op_enabled o) (op_operation o) (op_table_code o)
  (op_inputs o) (op_input_params o) (op_output_params o) (op_out_device_index o)
  (op_out_dest_object o) (op_out_method o) (op_out_adjustment o) (op_out_code o)
  (op_out_author_type o) (op_last_output o) (op_last_operands o).
Definition op_with_enabled v := mk_op (op_ref_id o) v (op_operation o) (op_table_code o)
  (op_inputs o) (op_input_params o) (op_output_params o) (op_out_device_index o)
  (op_out_dest_object o) (op_out_method o) (op_out_adjustment o) (op_out_code o)
  (op_out_author_type o) (op_last_output o) (op_last_operands o).
Definition op_with_operation v := mk_op (op_ref_id o) (op_enabled o) v (op_table_code o)
  (op_inputs o) (op_input_params o) (op_output_params o) (op_out_device_index o)
  (op_out_dest_object o) (op_out_method o) (op_out_adjustment o) (op_out_code o)
  (op_out_author_type o) (op_last_output o) (op_last_operands o).
Definition op_with_table_code v := mk_op (op_ref_id o) (op_enabled o) (op_operation o) v
  (op_inputs o) (op_input_params o) (op_output_params o) (op_out_device_index o)
  (op_out_dest_object o) (op_out_method o) (op_out_adjustment o) (op_out_code o)
  (op_out_author_type o) (op_last_output o) (op_last_operands o).
Definition op_with_inputs v := mk_op (op_ref_id o) (op_enabled o) (op_operation o)
  (op_table_code o) v (op_input_params o) (op_output_params o) (op_out_device_index o)
  (op_out_dest_object o) (op_out_method o) (op_out_adjustment o) (op_out_code o)
  (op_out_author_type o) (op_last_output o) (op_last_operands o).
Definition op_with_input_params v := mk_op (op_ref_id o) (op_enabled o) (op_operation o)
  (op_table_code o) (op_inputs o) v (op_output_params o) (op_out_device_index o)
  (op_out_dest_object o) (op_out_method o) (op_out_adjustment o) (op_out_code o)
  (op_out_author_type o) (op_last_output o) (op_last_operands o).
Definition op_with_output_params v := mk_op (op_ref_id o) (op_enabled o) (op_operation o)
  (op_table_code o) (op_inputs o) (op_input_params o) v (op_out_device_index o)
  (op_out_dest_object o) (op_out_method o) (op_out_adjustment o) (op_out_code o)
  (op_out_author_type o) (op_last_output o) (op_last_operands o).
Definition op_with_out_device_index v := mk_op (op_ref_id o) (op_enabled o) (op_operation o)
  (op_table_code o) (op_inputs o) (op_input_params o) (op_output_params o) v
  (op_out_dest_object o) (op_out_method o) (op_out_adjustment o) (op_out_code o)
  (op_out_author_type o) (op_last_output o) (op_last_operands o).
Definition op_with_out_dest_object v := mk_op (op_ref_id o) (op_enabled o) (op_operation o)
  (op_table_code o) (op_inputs o) (op_input_params o) (op_output_params o)
  (op_out_device_index o) v (op_out_method o) (op_out_adjustment o) (op_out_code o)
  (op_out_author_type o) (op_last_output o) (op_last_operands o).
Definition op_with_out_method v := mk_op (op_ref_id o) (op_enabled o) (op_operation o)
  (op_table_code o) (op_inputs o) (op_input_params o) (op_output_params o)
  (op_out_device_index o) (op_out_dest_object o) v (op_out_adjustment o) (op_out_code o)
  (op_out_author_type o) (op_last_output o) (op_last_operands o).
Definition op_with_out_adjustment v := mk_op (op_ref_id o) (op_enabled o) (op_operation o)
  (op_table_code o) (op_inputs o) (op_input_params o) (op_output_params o)
  (op_out_device_index o) (op_out_dest_object o) (op_out_method o) v (op_out_code o)
  (op_out_author_type o) (op_last_output o) (op_last_operands o).
Definition op_with_out_code v := mk_op (op_ref_id o) (op_enabled o) (op_operation o)
  (op_table_code o) (op_inputs o) (op_input_params o) (op_output_params o)
  (op_out_device_index o) (op_out_dest_object o) (op_out_method o) (op_out_adjustment o) v
  (op_out_author_type o) (op_last_output o) (op_last_operands o).
Definition op_with_out_author_type v := mk_op (op_ref_id o) (op_enabled o) (op_operation o)
  (op_table_code o) (op_inputs o) (op_input_params o) (op_output_params o)
  (op_out_device_index o) (op_out_dest_object o) (op_out_method o) (op_out_adjustment o)
  (op_out_code o) v (op_last_output o) (op_last_operands o).
Definition op_with_last_output v := mk_op (op_ref_id o) (op_enabled o) (op_operation o)
  (op_table_code o) (op_inputs o) (op_input_params o) (op_output_params o)
  (op_out_device_index o) (op_out_dest_object o) (op_out_method o) (op_out_adjustment o)
  (op_out_code o) (op_out_author_type o) (Some v) (op_last_operands o).
Definition op_with_last_operands v := mk_op (op_ref_id o) (op_enabled o) (op_operation o)
  (op_table_code o) (op_inputs o) (op_input_params o) (op_output_params o)
  (op_out_device_index o) (op_out_dest_object o) (op_out_method o) (op_out_adjustment o)
  (op_out_code o) (op_out_author_type o) (op_last_output o) (Some v).
End op_updates.

Section bm_updates.
Context {A : Type}.
Variable bm : binding_map_t A.

Definition bm_with_ops v := mk_bm v (bm_addrs bm) (bm_value_cache bm) (bm_value_valid bm)
  (bm_app_operation bm) (bm_app_ctx bm) (bm_authz_disabled bm) (bm_auth_authorize bm)
  (bm_current_msg bm).
Definition bm_with_addrs v := mk_bm (bm_ops bm) v (bm_value_cache bm) (bm_value_valid bm)
  (bm_app_operation bm) (bm_app_ctx bm) (bm_authz_disabled bm) (bm_auth_authorize bm)
  (bm_current_msg bm).
(** [value_cache[di] = v; value_valid[di] = 1] *)
Definition bm_cache_set (di : Z) (v : double) := mk_bm (bm_ops bm) (bm_addrs bm)
  (<[Z.to_nat di := v]> (bm_value_cache bm)) (<[Z.to_nat di := true]> (bm_value_valid bm))
  (bm_app_operation bm) (bm_app_ctx bm) (bm_authz_disabled bm) (bm_auth_authorize bm)
  (bm_current_msg bm).
Definition bm_with_app (f : option (A -> bm_operation_t -> list bm_operand_t -> A * option double))
  (c : A) := mk_bm (bm_ops bm) (bm_addrs bm) (bm_value_cache bm) (bm_value_valid bm) f c
  (bm_authz_disabled bm) (bm_auth_authorize bm) (bm_current_msg bm).
Definition bm_with_app_ctx (c : A) := bm_with_app (bm_app_operation bm) c.
Definition bm_with_authz_disabled v := mk_bm (bm_ops bm) (bm_addrs bm) (bm_value_cache bm)
  (bm_value_valid bm) (bm_app_operation bm) (bm_app_ctx bm) v (bm_auth_authorize bm)
  (bm_current_msg bm).
Definition bm_with_auth_authorize v := mk_bm (bm_ops bm) (bm_addrs bm) (bm_value_cache bm)
  (bm_value_valid bm) (bm_app_operation bm) (bm_app_ctx bm) (bm_authz_disabled bm) v
  (bm_current_msg bm).
Definition bm_with_current_msg v := mk_bm (bm_ops bm) (bm_addrs bm) (bm_value_cache bm)
  (bm_value_valid bm) (bm_app_operation bm) (bm_app_ctx bm) (bm_authz_disabled bm)
  (bm_auth_authorize bm) v.
End bm_updates.

(** ** Initialisation, lookup and authorization fields *)

Section api.
Context {A : Type}.

(** [app_ctx] is a NULL pointer until the host registers an app. *)
Definition bm_init (null_ctx : A) : binding_map_t A :=
  mk_bm [] [] (replicate (BM_MAX_ADDRS + 1) d_zero) (replicate (BM_MAX_ADDRS + 1) false)
    None null_ctx false None None.

Definition bm_find_addr (bm : binding_map_t A) (device_index : Z) : option bm_addr_t :=
  find_first (fun a => ad_device_index a =? device_index) (bm_addrs bm).

(** The binding-map address of a row's authorType field, in a buffer of
    [buf_size] bytes. *)
Definition bm_at_address (op : bm_operation_t) (buf_size : nat) : string :=
  str_take (buf_size - 1)
    ("/lx/ob/bm/" ++ op_table_code op ++ "/" ++ op_out_code op ++ "/at")%string.

Fixpoint ops_set_at (ops : list bm_operation_t) (at_address value : string)
  : option (list bm_operation_t) :=
  match ops with
  | [] => None
  | op :: ops' =>
      if bm_at_address op HES_PATH_MAX =?s at_address then
        Some (op_with_out_author_type op (hes_strlcpy 4 value) :: ops')
      else cons op <$> ops_set_at ops' at_address value
  end.

(** 0 and the updated map, or -1 when no row carries the address. *)
Definition bm_set_at (bm : binding_map_t A) (at_address value : string)
  : binding_map_t A * Z :=
  match ops_set_at (bm_ops bm) at_address value with
  | Some ops => (bm_with_ops bm ops, 0)
  | None => (bm, -1)
  end.

Definition bm_disable_authorization (bm : binding_map_t A) : binding_map_t A :=
  bm_with_authz_disabled bm true.

Definition bm_is_declared_destination (bm : binding_map_t A) (path : string)
  (device_index : Z) : bool :=
  if ((path =?s "") || (device_index =? 0))%bool then false
  else
    match bm_find_addr bm device_index with
    | None => false
    | Some addr =>
        match ad_module_type addr with
        | HES_MODTYPE_HI | HES_MODTYPE_WI => true
        | _ => false
        end
    end.
End api.

(** ** Payload data *)

(** The number of the datum [trans_code] of a ';'-separated payload; a payload
    without any '=' is the value itself. *)
Fixpoint datum_scan (ps : list string) (trans_code : option string) (structured : bool)
  : double + bool :=
  match ps with
  | [] => inr structured
  | p :: ps' =>
      match cut_eq (before ";" p) with
      | None => datum_scan ps' trans_code structured
      | Some (name, _) =>
          if match trans_code with
             | Some tc => negb (tc =?s "") && (name =?s tc)
             | None => false
             end%bool
          then inl (atof (str_drop (S (String.length name)) p))
          else datum_scan ps' trans_code true
      end
  end.

Definition bm_datum_value (payload : option string) (trans_code : option string) : double :=
  match payload with
  | None => d_zero
  | Some s =>
      match datum_scan (visits ";" s) trans_code false with
      | inl v => v
      | inr true => d_zero
      | inr false => atof s
      end
  end.

(** ** Loading a binding-map document *)

Definition parse_module_type (s : string) : hes_module_type_t :=
  if s =?s "hi" then HES_MODTYPE_HI
  else if s =?s "wi" then HES_MODTYPE_WI
  else if s =?s "sm" then HES_MODTYPE_SM
  else if s =?s "it" then HES_MODTYPE_IT
  else HES_MODTYPE_NONE.

Section load.
Context {D N : Type} {lib : LibXml D N} {A : Type}.
Abbreviation elem := (hes_query_elem_t D N).

(** The element's text in a buffer of [outsz] bytes. *)
Definition elem_text_copy (e : elem) (outsz : nat) : string :=
  match hes_query_elem_text e with
  | Some t => hes_strlcpy outsz t
  | None => ""
  end.

(** One pass over the [<data>] children: [datum] receives the transCode and the
    text of each child that has a transCode. *)
Definition load_data {T} (bufsz : nat) (datum : string -> string -> T -> T) (e : elem) (t : T) : T :=
  fold_left
    (fun acc d =>
       match hes_query_elem_attr d "transCode" with
       | None => acc
       | Some tc => datum tc (elem_text_copy d bufsz) acc
       end)
    (hes_query_elem_children e "data") t.

Definition addressing_datum (tc buf : string) (a : bm_addr_t) : bm_addr_t :=
  if tc =?s "di" then mk_addr (uint32 (atoi buf)) (ad_module_type a) (ad_module_ref_index a)
                        (ad_net_ref_index a) (ad_address a)
  else if tc =?s "mt" then mk_addr (ad_device_index a) (parse_module_type buf)
                             (ad_module_ref_index a) (ad_net_ref_index a) (ad_address a)
  else if tc =?s "mi" then mk_addr (ad_device_index a) (ad_module_type a) (uint32 (atoi buf))
                             (ad_net_ref_index a) (ad_address a)
  else if tc =?s "ni" then mk_addr (ad_device_index a) (ad_module_type a) (ad_module_ref_index a)
                             (uint32 (atoi buf)) (ad_address a)
  else if tc =?s "ad" then mk_addr (ad_device_index a) (ad_module_type a) (ad_module_ref_index a)
                             (ad_net_ref_index a) (hes_strlcpy 64 buf)
  else a.

Definition parse_addressing_table (atNode : elem) (bm : binding_map_t A) : binding_map_t A :=
  if (BM_MAX_ADDRS <=? length (bm_addrs bm))%nat then bm
  else
    let a := load_data 128 addressing_datum atNode (mk_addr 0 HES_MODTYPE_NONE 0 0 "") in
    bm_with_addrs bm (bm_addrs bm ++ [a]).

Definition input_datum (tc buf : string) (i : bm_input_t) : bm_input_t :=
  if tc =?s "di" then mk_input (uint32 (atoi buf)) (in_source_object i) (in_condition i)
                        (in_author_type i) (in_accompany_op i)
  else if tc =?s "so" then mk_input (in_device_index i) (hes_strlcpy HES_PATH_MAX buf)
                             (in_condition i) (in_author_type i) (in_accompany_op i)
  else if tc =?s "co" then mk_input (in_device_index i) (in_source_object i)
                             (hes_strlcpy 4 buf) (in_author_type i) (in_accompany_op i)
  else if tc =?s "at" then mk_input (in_device_index i) (in_source_object i) (in_condition i)
                             (hes_strlcpy 4 buf) (in_accompany_op i)
  else if tc =?s "ap" then mk_input (in_device_index i) (in_source_object i) (in_condition i)
                             (in_author_type i) (hes_strlcpy 4 buf)
  else i.

Definition parse_inputs (inNode : elem) (op : bm_operation_t) : bm_operation_t :=
  if (BM_MAX_INPUTS <=? length (op_inputs op))%nat then op
  else op_with_inputs op
         (op_inputs op ++ [load_data HES_PATH_MAX input_datum inNode (mk_input 0 "" "" "" "")]).

Definition input_parameter_datum (tc buf : string) (op : bm_operation_t) : bm_operation_t :=
  if (negb (tc =?s "ip") || (BM_MAX_INPUTS <=? length (op_input_params op))%nat)%bool then op
  else op_with_input_params op
         (op_input_params op ++
          [if buf =?s BM_LIVE_INPUT_PARAM then mk_param d_zero true
           else mk_param (atof buf) false]).

Definition parse_input_parameters (ipNode : elem) (op : bm_operation_t) : bm_operation_t :=
  load_data 64 input_parameter_datum ipNode op.

Definition output_parameter_datum (tc buf : string) (op : bm_operation_t) : bm_operation_t :=
  if (negb (tc =?s "op") || (2 <=? length (op_output_params op))%nat)%bool then op
  else op_with_output_params op (op_output_params op ++ [atoi buf]).

Definition parse_output_parameters (opNode : elem) (op : bm_operation_t) : bm_operation_t :=
  load_data 64 output_parameter_datum opNode op.

Definition output_datum (tc buf : string) (op : bm_operation_t) : bm_operation_t :=
  if tc =?s "dl" then op_with_out_device_index op (uint32 (atoi buf))
  else if tc =?s "do" then op_with_out_dest_object op (hes_strlcpy HES_PATH_MAX buf)
  else if tc =?s "me" then op_with_out_method op (hes_strlcpy 4 buf)
  else if tc =?s "ad" then op_with_out_adjustment op (hes_strlcpy 4 buf)
  else if tc =?s "at" then op_with_out_author_type op (hes_strlcpy 4 buf)
  else op.

Definition parse_outputs (outNode : elem) (op : bm_operation_t) : bm_operation_t :=
  let op1 := match hes_query_elem_attr outNode "transCode" with
             | Some c => op_with_out_code op (hes_strlcpy 8 c)
             | None => op
             end in
  load_data HES_PATH_MAX output_datum outNode op1.

Definition load_group (parent : elem) (name : string)
  (loader : elem -> bm_operation_t -> bm_operation_t) (op : bm_operation_t) : bm_operation_t :=
  fold_left (fun o e => loader e o) (hes_query_elem_children parent name) op.

Definition row_datum (tc buf : string) (op : bm_operation_t) : bm_operation_t :=
  if tc =?s "ri" then op_with_ref_id op (uint32 (atoi buf))
  else if tc =?s "en" then op_with_enabled op (buf =?s "en")
  else if tc =?s "op" then op_with_operation op (hes_strlcpy 4 buf)
  else op.

Definition parse_operation_table (otNode : elem) (bm : binding_map_t A) : binding_map_t A :=
  if (BM_MAX_OPS <=? length (bm_ops bm))%nat then bm
  else
    let op := match hes_query_elem_attr otNode "transCode" with
              | Some c => op_with_table_code op_empty (hes_strlcpy 8 c)
              | None => op_empty
              end in
    let op := load_data 64 row_datum otNode op in
    let op := load_group otNode "inputs" parse_inputs op in
    let op := load_group otNode "inputParameters" parse_input_parameters op in
    let op := load_group otNode "outputParameters" parse_output_parameters op in
    let op := load_group otNode "outputs" parse_outputs op in
    bm_with_ops bm (bm_ops bm ++ [op]).

Definition bm_load_tables (ctx : hes_query_ctx_t D N) (name : string)
  (loader : elem -> binding_map_t A -> binding_map_t A) (bm : binding_map_t A)
  : binding_map_t A :=
  fold_left (fun b e => loader e b) (hes_query_find_all ctx name) bm.

Definition bm_load_xml (bm : binding_map_t A) (path : string) : binding_map_t A * Z :=
  match hes_query_open path with
  | None => (bm, -1)
  | Some ctx =>
      let bm := bm_load_tables ctx "operationTable" parse_operation_table bm in
      let bm := bm_load_tables ctx "addressingTable" parse_addressing_table bm in
      (bm, 0)
  end.
End load.

(** ** The controller: one SUBSCRIBE per source *)

Section controller.
Context {A : Type}.

Definition bm_sub_key_t : Type := string * Z.

Definition subscribe_input (bm : binding_map_t A) (i : bm_input_t)
  (st : list bm_sub_key_t * hes_bus_t) : list bm_sub_key_t * hes_bus_t :=
  let '(sent, bus) := st in
  if in_source_object i =?s "" then st
  else if existsb (fun k => (snd k =? in_device_index i) && (fst k =?s in_source_object i))%bool
            sent
  then st
  else
    match bm_find_addr bm (in_device_index i) with
    | None => st
    | Some addr =>
        match ad_module_type addr with
        | HES_MODTYPE_IT | HES_MODTYPE_NONE => st
        | _ =>
            let msg := hes_msg_set_path
                         (msg_with_device (in_device_index i)
                            (msg_with_verb HES_VERB_SUBSCRIBE hes_msg_init))
                         (in_source_object i) in
            (if (length sent <? BM_MAX_ADDRS)%nat
             then sent ++ [(hes_strlcpy HES_PATH_MAX (in_source_object i), in_device_index i)]
             else sent,
             hes_bus_send bus msg)
        end
    end.

Definition subscribe_row (bm : binding_map_t A) (op : bm_operation_t)
  (st : list bm_sub_key_t * hes_bus_t) : list bm_sub_key_t * hes_bus_t :=
  if op_enabled op then fold_left (fun s i => subscribe_input bm i s) (op_inputs op) st else st.

Definition bm_controller_start (bm : binding_map_t A) (bus : hes_bus_t) : hes_bus_t :=
  snd (fold_left (fun s op => subscribe_row bm op s) (bm_ops bm) ([], bus)).
End controller.

(** ** The processor: evaluating the operation table *)

Definition apply_operation (opcode : string) (a b : double) : double :=
  let of_bool (x : bool) := if x then d_one else d_zero in
  if opcode =?s "gt" then of_bool (d_ltb b a)
  else if opcode =?s "lt" then of_bool (d_ltb a b)
  else if opcode =?s "eq" then of_bool (d_eqb a b)
  else if opcode =?s "ad" then d_add a b
  else if opcode =?s "su" then d_sub a b
  else if opcode =?s "mu" then d_mul a b
  else if opcode =?s "dv" then if negb (d_eqb b d_zero) then d_div a b else d_zero
  else if opcode =?s "no" then of_bool (d_eqb a d_zero)
  else d_zero.

(** [None]: the operation is blocked; otherwise the conditioned value. *)
Definition apply_condition (cond : string) (v : double) : option double :=
  if ((cond =?s "") || (cond =?s "pt"))%bool then Some v
  else if cond =?s "bk" then None
  else if cond =?s "av" then Some (if d_ltb v d_zero then d_opp v else v)
  else if cond =?s "ng" then Some (d_opp v)
  else Some v.

Section processor.
Context {A : Type}.

Definition cached (bm : binding_map_t A) (di : Z) : double :=
  default d_zero (bm_value_cache bm !! Z.to_nat di).
Definition cache_valid (bm : binding_map_t A) (di : Z) : bool :=
  default false (bm_value_valid bm !! Z.to_nat di).

Definition input_ready (bm : binding_map_t A) (i : bm_input_t) : bool :=
  if (negb (bm_authz_disabled bm) && (in_author_type i =?s "bk"))%bool then false
  else
    let di := in_device_index i in
    negb ((di =? 0) || (Z.of_nat BM_MAX_ADDRS <? di) || negb (cache_valid bm di))%bool.

Definition op_ready (bm : binding_map_t A) (op : bm_operation_t) : bool :=
  match op_inputs op with
  | [] => false
  | ins => forallb (input_ready bm) ins
  end.

Definition op_requires_authorization (op : bm_operation_t) : bool :=
  existsb (fun i => in_accompany_op i =?s "au") (op_inputs op).

Definition output_authorized (bm : binding_map_t A) (op : bm_operation_t) : bool :=
  if bm_authz_disabled bm then true
  else if ((op_out_author_type op =?s "bk") || (op_out_author_type op =?s "pa"))%bool then false
  else if op_requires_authorization op then
    match bm_auth_authorize bm, bm_current_msg bm with
    | Some authorize, Some msg => authorize msg (bm_at_address op HES_PATH_MAX)
    | _, _ => false
    end
  else true.

(** The row's inputs conditioned into operands; [None] when a 'bk' stops the row. *)
Fixpoint condition_inputs (bm : binding_map_t A) (ins : list bm_input_t)
  : option (list bm_operand_t) :=
  match ins with
  | [] => Some []
  | i :: ins' =>
      let* v := apply_condition (in_condition i) (cached bm (in_device_index i)) in
      let* rest := condition_inputs bm ins' in
      Some (mk_operand (in_device_index i)
              (hes_strlcpy HES_PATH_MAX (in_source_object i)) v :: rest)
  end.

(** The built-in operators' operands. *)
Definition operand_a (operands : list bm_operand_t) : double :=
  match operands with o :: _ => od_value o | [] => d_zero end.

Definition operand_b (op : bm_operation_t) (operands : list bm_operand_t) : double :=
  match operands with
  | _ :: o :: _ => od_value o
  | _ =>
      match op_input_params op with
      | _ :: p :: _ => if ip_is_live p then d_zero else ip_value p
      | _ => d_zero
      end
  end.

Fixpoint same_values (last now : list double) : bool :=
  match last, now with
  | [], [] => true
  | x :: last', y :: now' => (d_eqb x y && same_values last' now')%bool
  | _, _ => false
  end.

Definition inputs_changed (op : bm_operation_t) (operands : list bm_operand_t) : bool :=
  match op_last_operands op with
  | None => true
  | Some last => negb (same_values last (od_value <$> operands))
  end.

Definition set_row (bm : binding_map_t A) (i : nat) (op : bm_operation_t) : binding_map_t A :=
  bm_with_ops bm (<[i := op]> (bm_ops bm)).

(** Step 4: the built-in set, or the host's app hook; [None] when the app hook
    is missing or reports a failure. *)
Definition perform_operation (bm : binding_map_t A) (op : bm_operation_t)
  (operands : list bm_operand_t) : binding_map_t A * option double :=
  if op_operation op =?s "ap" then
    match bm_app_operation bm with
    | None => (bm, None)
    | Some f =>
        let '(ctx, r) := f (bm_app_ctx bm) op operands in
        (bm_with_app_ctx bm ctx, r)
    end
  else (bm, Some (apply_operation (op_operation op) (operand_a operands) (operand_b op operands))).

Definition put_message (op : bm_operation_t) (result : double) : hes_clme_msg_t :=
  hes_msg_set_payload_str
    (hes_msg_set_path
       (msg_with_device (op_out_device_index op) (msg_with_verb HES_VERB_PUT hes_msg_init))
       (op_out_dest_object op))
    (str_take 31 (fmt_g result)).

(** Step 6: record the result, chain, send. [evaluate_all] is the recursion. *)
Definition commit_output
  (evaluate_all : binding_map_t A -> hes_bus_t -> option (binding_map_t A * hes_bus_t))
  (bm : binding_map_t A) (bus : hes_bus_t) (i : nat) (op : bm_operation_t) (result : double)
  : option (binding_map_t A * hes_bus_t) :=
  let bm := set_row bm i (op_with_last_output op result) in
  let* (bm, bus) :=
    if ((0 <? op_out_device_index op) && (op_out_device_index op <=? Z.of_nat BM_MAX_ADDRS))%bool
    then evaluate_all (bm_cache_set bm (op_out_device_index op) result) bus
    else Some (bm, bus) in
  if op_out_dest_object op =?s "" then Some (bm, bus)
  else Some (bm, hes_bus_send bus (put_message op result)).

Definition evaluate_op
  (evaluate_all : binding_map_t A -> hes_bus_t -> option (binding_map_t A * hes_bus_t))
  (i : nat) (st : binding_map_t A * hes_bus_t) : option (binding_map_t A * hes_bus_t) :=
  let '(bm, bus) := st in
  match bm_ops bm !! i with
  | None => Some (bm, bus)
  | Some op =>
      if (negb (op_enabled op) || negb (op_ready bm op))%bool then Some (bm, bus)
      else
        match condition_inputs bm (op_inputs op) with
        | None | Some [] => Some (bm, bus)
        | Some operands =>
            let op' := op_with_last_operands op (od_value <$> operands) in
            let bm := set_row bm i op' in
            if negb (inputs_changed op operands) then Some (bm, bus)
            else
              let '(bm, r) := perform_operation bm op' operands in
              match r with
              | None => Some (bm, bus)
              | Some r =>
                  match apply_condition (op_out_adjustment op') r with
                  | None => Some (bm, bus)
                  | Some result =>
                      if match op_last_output op' with
                         | Some last => d_eqb result last
                         | None => false
                         end
                      then Some (bm, bus)
                      else if (negb (op_out_dest_object op' =?s "")
                               && negb (output_authorized bm op'))%bool
                      then Some (bm, bus)
                      else commit_output evaluate_all bm bus i op' result
                  end
              end
        end
  end.

(** The table is evaluated in row order; [fuel] bounds the depth of the
    recursion through [evaluate_op]. *)
Fixpoint bm_evaluate_all (fuel : nat) (bm : binding_map_t A) (bus : hes_bus_t)
  : option (binding_map_t A * hes_bus_t) :=
  match fuel with
  | O => None
  | S fuel' =>
      for_each (evaluate_op (bm_evaluate_all fuel')) (seq 0 (length (bm_ops bm))) (bm, bus)
  end.

(** Does this input take its value from that message? *)
Definition input_matches (m : hes_clme_msg_t) (i : bm_input_t) : bool :=
  (negb (in_source_object i =?s "") && (in_source_object i =?s msg_path m)
   && ((msg_device_index m =? 0) || (in_device_index i =? msg_device_index m)))%bool.

Definition store_input (m : hes_clme_msg_t) (v : double) (st : binding_map_t A * bool)
  (i : bm_input_t) : binding_map_t A * bool :=
  let '(bm, updated_any) := st in
  let di := in_device_index i in
  if (input_matches m i && (0 <? di) && (di <=? Z.of_nat BM_MAX_ADDRS))%bool
  then (bm_cache_set bm di v, true)
  else (bm, updated_any).

Definition store_report (bm : binding_map_t A) (m : hes_clme_msg_t) (v : double)
  : binding_map_t A * bool :=
  fold_left (store_input m v) (concat (op_inputs <$> bm_ops bm)) (bm, false).

Definition bm_processor_handle (fuel : nat) (bm : binding_map_t A) (bus : hes_bus_t)
  (m : hes_clme_msg_t) : option (binding_map_t A * hes_bus_t) :=
  if (negb (msg_verb m =? HES_VERB_EVENT) && negb (msg_verb m =? HES_VERB_GET))%bool
  then Some (bm, bus)
  else if msg_payload m =?s "" then Some (bm, bus)
  else
    let bm := bm_with_current_msg bm (Some m) in
    let v := bm_datum_value (Some (msg_payload m)) (Some BM_LIVE_INPUT_PARAM) in
    let '(bm, updated_any) := store_report bm m v in
    if updated_any then bm_evaluate_all fuel bm bus else Some (bm, bus).
End processor.
