(* ===== verification/BmFacts.v ===== *)
(** * The processor: invariants, authorization safety and termination

    What the evaluation of the operation table keeps and guarantees: the rows'
    configuration never changes, every PUT comes from an enabled row whose output
    is authorized for the message being processed, a denied output leaves the
    cache and the bus alone, evaluation reaches a state in which nothing more is
    sent, and it terminates on the acyclic tables the loader is meant for. *)

From S2P Require Import Prelude CLib HesCommon HesQuery Bm.

(** ** The configuration of a row and of a map *)

Definition op_config (o : bm_operation_t) : bm_operation_t :=
  mk_op (op_ref_id o) (op_enabled o) (op_operation o) (op_table_code o) (op_inputs o)
    (op_input_params o) (op_output_params o) (op_out_device_index o) (op_out_dest_object o)
    (op_out_method o) (op_out_adjustment o) (op_out_code o) (op_out_author_type o) None None.

Section config.
Context {A : Type}.
Implicit Types bm : binding_map_t A.

(** Everything of a map that evaluation leaves alone. *)
Record same_config bm bm' : Prop := {
  sc_ops : op_config <$> bm_ops bm' = op_config <$> bm_ops bm;
  sc_addrs : bm_addrs bm' = bm_addrs bm;
  sc_cache : length (bm_value_cache bm') = length (bm_value_cache bm);
  sc_valid : length (bm_value_valid bm') = length (bm_value_valid bm);
  sc_app : bm_app_operation bm' = bm_app_operation bm;
  sc_authz : bm_authz_disabled bm' = bm_authz_disabled bm;
  sc_authorize : bm_auth_authorize bm' = bm_auth_authorize bm;
  sc_msg : bm_current_msg bm' = bm_current_msg bm;
}.

#[export] Instance same_config_equiv : Equivalence same_config.
Proof.
  split; [by constructor|intros x y []; by constructor|].
  intros x y z [] []. constructor; congruence.
Qed.

Lemma same_config_length bm bm' :
  same_config bm bm' -> length (bm_ops bm') = length (bm_ops bm).
Proof. intros [H _ _ _ _ _ _ _]. apply (f_equal length) in H. by rewrite !length_fmap in H. Qed.

Lemma same_config_lookup bm bm' i op :
  same_config bm bm' -> bm_ops bm !! i = Some op ->
  exists op', bm_ops bm' !! i = Some op' /\ op_config op' = op_config op.
Proof.
  intros [H _ _ _ _ _ _ _] Hi.
  assert (Hl : (op_config <$> bm_ops bm') !! i = Some (op_config op))
    by (rewrite H, list_lookup_fmap, Hi; done).
  rewrite list_lookup_fmap in Hl. destruct (bm_ops bm' !! i) as [op'|]; [|done].
  simpl in Hl. apply Some_inj in Hl. by exists op'.
Qed.

Lemma set_row_config bm i op op' :
  bm_ops bm !! i = Some op -> op_config op' = op_config op -> same_config bm (set_row bm i op').
Proof.
  intros Hi Hc. constructor; try done. simpl. rewrite list_fmap_insert.
  apply list_eq. intros j. destruct (decide (i = j)) as [->|Hne].
  - rewrite list_lookup_insert_eq.
    + by rewrite list_lookup_fmap, Hi, Hc.
    + rewrite length_fmap. by eapply lookup_lt_Some.
  - by rewrite list_lookup_insert_ne.
Qed.

Lemma cache_set_config bm di v : same_config bm (bm_cache_set bm di v).
Proof. constructor; try done; simpl; by rewrite length_insert. Qed.

Lemma app_ctx_config bm c : same_config bm (bm_with_app_ctx bm c).
Proof. by constructor. Qed.

(** What a row may do depends on its configuration only. *)
Lemma output_authorized_config bm bm' op op' :
  same_config bm bm' -> op_config op' = op_config op ->
  output_authorized bm' op' = output_authorized bm op.
Proof.
  intros [_ _ _ _ _ Ha Hf Hm] Hc. unfold output_authorized, op_requires_authorization, bm_at_address.
  pose proof (f_equal op_out_author_type Hc) as H1. pose proof (f_equal op_inputs Hc) as H2.
  pose proof (f_equal op_table_code Hc) as H3. pose proof (f_equal op_out_code Hc) as H4.
  simpl in *. by rewrite Ha, Hf, Hm, H1, H2, H3, H4.
Qed.

Lemma last_operands_config op vs : op_config (op_with_last_operands op vs) = op_config op.
Proof. done. Qed.

Lemma last_output_config op v : op_config (op_with_last_output op v) = op_config op.
Proof. done. Qed.

Lemma perform_operation_config bm op operands :
  same_config bm (fst (perform_operation bm op operands)).
Proof.
  unfold perform_operation. repeat split_match; simpl; first [done|apply app_ctx_config].
Qed.
End config.

#[export] Hint Resolve set_row_config cache_set_config app_ctx_config perform_operation_config
  last_operands_config last_output_config : hes.

(** ** A small-step reading of one row evaluation

    [eval_case] lists what [evaluate_op] can do to the state: skip the row, record
    the operands and stop, or record them and commit a result. Every later proof
    goes by cases on it instead of unfolding [evaluate_op] again. *)
Section cases.
Context {A : Type}.
Implicit Types bm : binding_map_t A.

(** The row runs on these operands. *)
Definition runs bm (op : bm_operation_t) (operands : list bm_operand_t) : Prop :=
  op_enabled op = true /\ op_ready bm op = true /\
  condition_inputs bm (op_inputs op) = Some operands /\ operands <> [].

Definition recorded bm i (op : bm_operation_t) (operands : list bm_operand_t) : binding_map_t A :=
  set_row bm i (op_with_last_operands op (od_value <$> operands)).

Inductive eval_case (rec : binding_map_t A -> hes_bus_t -> option (binding_map_t A * hes_bus_t))
    bm bus i : option (binding_map_t A * hes_bus_t) -> Prop :=
| case_skip :
    (forall op operands, bm_ops bm !! i = Some op -> ~ runs bm op operands) ->
    eval_case rec bm bus i (Some (bm, bus))
| case_unchanged op operands :
    bm_ops bm !! i = Some op -> runs bm op operands ->
    inputs_changed op operands = false ->
    eval_case rec bm bus i (Some (recorded bm i op operands, bus))
| case_silent op operands bm1 :
    bm_ops bm !! i = Some op -> runs bm op operands ->
    inputs_changed op operands = true ->
    bm1 = fst (perform_operation (recorded bm i op operands)
                 (op_with_last_operands op (od_value <$> operands)) operands) ->
    eval_case rec bm bus i (Some (bm1, bus))
| case_commit op operands bm1 r result :
    bm_ops bm !! i = Some op -> runs bm op operands ->
    inputs_changed op operands = true ->
    perform_operation (recorded bm i op operands)
      (op_with_last_operands op (od_value <$> operands)) operands = (bm1, Some r) ->
    apply_condition (op_out_adjustment op) r = Some result ->
    match op_last_output op with Some last => d_eqb result last | None => false end = false ->
    (op_out_dest_object op = "" \/ output_authorized bm op = true) ->
    eval_case rec bm bus i
      (commit_output rec bm1 bus i (op_with_last_operands op (od_value <$> operands)) result).

Lemma evaluate_op_cases rec bm bus i :
  eval_case rec bm bus i (evaluate_op rec i (bm, bus)).
Proof.
  unfold evaluate_op. destruct (bm_ops bm !! i) as [op|] eqn:Hi.
  2: { apply case_skip. intros op os H. by rewrite Hi in H. }
  destruct (negb (op_enabled op) || negb (op_ready bm op))%bool eqn:Hgate.
  { apply case_skip. intros op' os H (He & Hr & _). rewrite Hi in H. simplify_eq.
    by rewrite He, Hr in Hgate. }
  apply orb_false_elim in Hgate as [He Hr].
  apply negb_false_iff in He. apply negb_false_iff in Hr.
  destruct (condition_inputs bm (op_inputs op)) as [[|o os]|] eqn:Hc.
  1,3: apply case_skip; intros op' os' H (_ & _ & Hco & Hne); rewrite Hi in H; simplify_eq; congruence.
  set (operands := o :: os) in *.
  assert (Hruns : runs bm op operands) by (repeat split; done).
  clearbody operands. clear o os Hc.
  destruct (inputs_changed op operands) eqn:Hch; simpl negb; cbv iota.
  2: { by eapply case_unchanged. }
  fold (recorded bm i op operands).
  destruct (perform_operation (recorded bm i op operands)
              (op_with_last_operands op (od_value <$> operands)) operands) as [bm1 r] eqn:Hp.
  assert (Hsil : eval_case rec bm bus i (Some (bm1, bus))).
  { eapply case_silent; [done..|]. by rewrite Hp. }
  destruct r as [r|]; [|done].
  simpl op_out_adjustment. simpl op_last_output. simpl op_out_dest_object.
  destruct (apply_condition (op_out_adjustment op) r) as [result|] eqn:Hadj; [|done].
  destruct (match op_last_output op with Some last => d_eqb result last | None => false end) eqn:Hl;
    [done|].
  destruct (negb (op_out_dest_object op =?s "") &&
            negb (output_authorized bm1 (op_with_last_operands op (od_value <$> operands))))%bool
    eqn:Hauth; [done|].
  eapply case_commit; [done..|].
  apply andb_false_elim in Hauth as [Hd|Ha].
  - left. apply negb_false_iff in Hd. by apply String.eqb_eq in Hd.
  - right. apply negb_false_iff in Ha. rewrite <- Ha. symmetry.
    apply output_authorized_config; [|done].
    pose proof (perform_operation_config (recorded bm i op operands)
      (op_with_last_operands op (od_value <$> operands)) operands) as Hpc. rewrite Hp in Hpc.
    etransitivity; [|exact Hpc]. by eapply set_row_config.
Qed.

Lemma recorded_config bm i op operands :
  bm_ops bm !! i = Some op -> same_config bm (recorded bm i op operands).
Proof. intros H. by eapply set_row_config. Qed.

Lemma performed_config bm i op operands bm1 r :
  bm_ops bm !! i = Some op ->
  perform_operation (recorded bm i op operands)
    (op_with_last_operands op (od_value <$> operands)) operands = (bm1, r) ->
  same_config bm bm1.
Proof.
  intros Hi Hp. etransitivity; [by eapply recorded_config|].
  pose proof (perform_operation_config (recorded bm i op operands)
    (op_with_last_operands op (od_value <$> operands)) operands) as H. by rewrite Hp in H.
Qed.

(** The rows and caches after an operation was performed. *)
Lemma performed_state bm op operands :
  bm_ops (fst (perform_operation bm op operands)) = bm_ops bm /\
  bm_value_cache (fst (perform_operation bm op operands)) = bm_value_cache bm /\
  bm_value_valid (fst (perform_operation bm op operands)) = bm_value_valid bm.
Proof. unfold perform_operation. repeat split_match; done. Qed.
End cases.

(** ** Relations every evaluation respects *)
Section relational.
Context {A : Type}.
Abbreviation state := (binding_map_t A * hes_bus_t)%type.
Variable Q : state -> state -> Prop.
Hypothesis Q_refl : forall st, Q st st.
Hypothesis Q_trans : forall st1 st2 st3, Q st1 st2 -> Q st2 st3 -> Q st1 st3.
Hypothesis Q_step : forall rec i st st',
  (forall bm bus st'', rec bm bus = Some st'' -> Q (bm, bus) st'') ->
  evaluate_op rec i st = Some st' -> Q st st'.

Lemma evaluate_all_rel fuel bm bus st' :
  bm_evaluate_all fuel bm bus = Some st' -> Q (bm, bus) st'.
Proof.
  revert bm bus st'. induction fuel as [|fuel IH]; intros bm bus st' H; [done|].
  cbn [bm_evaluate_all] in H.
  eapply (for_each_inv (fun st => Q (bm, bus) st)); [|apply Q_refl|exact H].
  intros i t t' _ Ht Hstep. eapply Q_trans; [exact Ht|].
  eapply (Q_step (bm_evaluate_all fuel)); [|exact Hstep]. intros. by apply IH.
Qed.
End relational.

(** ** Authorization safety *)
Section safety.
Context {A : Type}.
Implicit Types bm : binding_map_t A.

(** The message is the PUT of an enabled row of the map that has no blocked input
    and whose output is authorized for the map's current message. *)
Definition authorized_put bm (m : hes_clme_msg_t) : Prop :=
  exists op v, op ∈ bm_ops bm /\ op_enabled op = true /\
    msg_verb m = HES_VERB_PUT /\
    op_out_dest_object op <> "" /\
    msg_path m = hes_strlcpy HES_PATH_MAX (op_out_dest_object op) /\
    msg_device_index m = op_out_device_index op /\
    msg_payload m = str_take 31 (fmt_g v) /\
    output_authorized bm op = true /\
    (bm_authz_disabled bm = true \/
     forall i, i ∈ op_inputs op -> in_author_type i <> "bk").

Lemma authorized_put_config bm bm' m :
  same_config bm bm' -> authorized_put bm' m -> authorized_put bm m.
Proof.
  intros Hsc (op' & v & Hin & He & Hv & Hd & Hp & Hdi & Hpl & Ha & Hb).
  apply list_elem_of_lookup_1 in Hin as [i Hi].
  destruct (same_config_lookup bm' bm i op') as (op & Hop & Hc); [by symmetry|done|].
  assert (Hf : forall T (f : bm_operation_t -> T), f (op_config op) = f (op_config op'))
    by (intros; by rewrite Hc).
  pose proof (Hf _ op_enabled) as H1. pose proof (Hf _ op_out_dest_object) as H2.
  pose proof (Hf _ op_out_device_index) as H3. pose proof (Hf _ op_inputs) as H4. simpl in *.
  exists op, v. rewrite H1, H2, H3, H4. repeat split; try done.
  - by eapply list_elem_of_lookup_2.
  - rewrite <- Ha. symmetry. by apply output_authorized_config.
  - destruct Hsc as [_ _ _ _ _ Hz _ _]. by rewrite <- Hz.
Qed.

(** What makes a PUT legitimate, in terms of the row's fields and the host's hook:
    authorization is off, or neither the output nor an input is refused and, if an
    input asks for authorization, the hook grants the row's address to the message. *)
Definition allowed_put bm (m : hes_clme_msg_t) : Prop :=
  exists op v, op ∈ bm_ops bm /\ op_enabled op = true /\
    msg_verb m = HES_VERB_PUT /\
    op_out_dest_object op <> "" /\
    msg_path m = hes_strlcpy HES_PATH_MAX (op_out_dest_object op) /\
    msg_device_index m = op_out_device_index op /\
    msg_payload m = str_take 31 (fmt_g v) /\
    (bm_authz_disabled bm = true \/
     (op_out_author_type op <> "bk" /\ op_out_author_type op <> "pa" /\
      (forall i, i ∈ op_inputs op -> in_author_type i <> "bk") /\
      ((exists i, i ∈ op_inputs op /\ in_accompany_op i = "au") ->
       exists authorize msg, bm_auth_authorize bm = Some authorize /\ bm_current_msg bm = Some msg /\
         authorize msg (bm_at_address op HES_PATH_MAX) = true))).

Lemma authorized_put_allowed bm m : authorized_put bm m -> allowed_put bm m.
Proof.
  intros (op & v & Hin & He & Hv & Hd & Hp & Hdi & Hpl & Ha & Hb).
  exists op, v. repeat (split; [done|]). destruct (bm_authz_disabled bm) eqn:Ed; [by left|right].
  destruct Hb as [Hb|Hb]; [done|]. unfold output_authorized in Ha. rewrite Ed in Ha.
  destruct (op_out_author_type op =?s "bk") eqn:E1; [done|].
  destruct (op_out_author_type op =?s "pa") eqn:E2; [done|]. cbn [orb] in Ha.
  apply String.eqb_neq in E1, E2. split_and!; try done. intros (i & Hi & Hau).
  assert (Hr : op_requires_authorization op = true).
  { apply existsb_exists. exists i. split; [by apply list_elem_of_In|by apply String.eqb_eq]. }
  rewrite Hr in Ha. destruct (bm_auth_authorize bm) as [f|]; [|done].
  destruct (bm_current_msg bm) as [msg|]; [|done]. by exists f, msg.
Qed.

Lemma length_fmt_cap v : (String.length (str_take 31 (fmt_g v)) < HES_PAYLOAD_MAX)%nat.
Proof. rewrite length_str_take. unfold HES_PAYLOAD_MAX. lia. Qed.

Lemma put_message_fields op v :
  msg_verb (put_message op v) = HES_VERB_PUT /\
  msg_path (put_message op v) = hes_strlcpy HES_PATH_MAX (op_out_dest_object op) /\
  msg_device_index (put_message op v) = op_out_device_index op /\
  msg_payload (put_message op v) = str_take 31 (fmt_g v).
Proof.
  repeat split. unfold put_message, hes_msg_set_payload_str. simpl.
  apply hes_strlcpy_small, length_fmt_cap.
Qed.

Lemma op_ready_inputs bm op :
  op_ready bm op = true -> forall i, i ∈ op_inputs op -> input_ready bm i = true.
Proof.
  unfold op_ready. intros H i Hi. destruct (op_inputs op) as [|x xs]; [done|].
  rewrite forallb_forall in H. apply H. by apply list_elem_of_In.
Qed.

Lemma op_ready_not_blocked bm op :
  op_ready bm op = true ->
  bm_authz_disabled bm = true \/ forall i, i ∈ op_inputs op -> in_author_type i <> "bk".
Proof.
  intros Hr. destruct (bm_authz_disabled bm) eqn:Hz; [by left|right].
  intros i Hi Hbk. pose proof (op_ready_inputs bm op Hr i Hi) as H.
  unfold input_ready in H. by rewrite Hz, Hbk in H.
Qed.

(** Configuration is kept, and what is sent is authorized. *)
Definition safe_step (st st' : binding_map_t A * hes_bus_t) : Prop :=
  same_config (fst st) (fst st') /\
  exists ms, bus_extends (snd st) (snd st') ms /\ Forall (authorized_put (fst st)) ms.

Lemma safe_step_refl st : safe_step st st.
Proof. split; [done|]. exists []. split; [apply bus_extends_refl|constructor]. Qed.

Lemma safe_step_trans st1 st2 st3 : safe_step st1 st2 -> safe_step st2 st3 -> safe_step st1 st3.
Proof.
  intros [H1 (ms & Hb1 & Ha1)] [H2 (ns & Hb2 & Ha2)]. split; [by etransitivity|].
  exists (ms ++ ns). split; [by eapply bus_extends_trans|].
  apply Forall_app. split; [done|]. eapply Forall_impl; [exact Ha2|].
  intros m. by apply authorized_put_config.
Qed.

Lemma safe_step_config bm bm' bus :
  same_config bm bm' -> safe_step (bm, bus) (bm', bus).
Proof. intros H. split; [done|]. exists []. split; [apply bus_extends_refl|constructor]. Qed.

Lemma commit_output_safe rec bm bus i op op0 result st' :
  (forall bm bus st'', rec bm bus = Some st'' -> safe_step (bm, bus) st'') ->
  bm_ops bm !! i = Some op0 -> op_config op = op_config op0 ->
  (op_out_dest_object op <> "" -> authorized_put bm (msg_stamped 0 (put_message op result))) ->
  commit_output rec bm bus i op result = Some st' -> safe_step (bm, bus) st'.
Proof.
  intros Hrec Hi Hc Hauth. unfold commit_output.
  set (bm1 := set_row bm i (op_with_last_output op result)).
  assert (H1 : safe_step (bm, bus) (bm1, bus)).
  { apply safe_step_config. eapply set_row_config; [exact Hi|]. by rewrite last_output_config. }
  destruct (if _ : bool then _ else _) as [[bm2 bus2]|] eqn:E; [|done].
  assert (H2 : safe_step (bm, bus) (bm2, bus2)).
  { split_match_in E; simplify_eq; [|done].
    eapply safe_step_trans; [exact H1|]. eapply safe_step_trans; [|by apply Hrec].
    apply safe_step_config, cache_set_config. }
  destruct (op_out_dest_object op =?s "") eqn:Ed; intros H; simplify_eq; [done|].
  apply String.eqb_neq in Ed.
  destruct H2 as [Hsc (ms & Hb & Hms)]. split; [done|].
  destruct (bus_extends_send bus2 (put_message op result)) as (m' & Hb' & Hp & Hv & Hd & Hpl & _).
  exists (ms ++ [m']). split; [by eapply bus_extends_trans|].
  apply Forall_app. split; [done|]. constructor; [|constructor].
  destruct (Hauth Ed) as (o & v & Hin & He & Hv' & Hd' & Hp' & Hdi' & Hpl' & Hrest).
  exists o, v. simpl in *. rewrite Hp, Hv, Hd, Hpl. done.
Qed.

Lemma evaluate_op_safe rec i st st' :
  (forall bm bus st'', rec bm bus = Some st'' -> safe_step (bm, bus) st'') ->
  evaluate_op rec i st = Some st' -> safe_step st st'.
Proof.
  intros Hrec. destruct st as [bm bus].
  destruct (evaluate_op_cases rec bm bus i)
    as [Hskip|op os Hi Hr Hch|op os bm1 Hi Hr Hch Hbm1|op os bm1 r result Hi Hr Hch Hp Hadj Hl Ha];
    intros H; simplify_eq.
  - apply safe_step_refl.
  - by eapply safe_step_config, recorded_config.
  - eapply safe_step_config. destruct (perform_operation _ _ _) eqn:E. simpl.
    by eapply performed_config.
  - assert (Hsc : same_config bm bm1) by (by eapply performed_config).
    eapply safe_step_trans; [by apply safe_step_config|].
    destruct (same_config_lookup bm bm1 i op Hsc Hi) as (op1 & Hi1 & Hc1).
    eapply commit_output_safe; [exact Hrec|exact Hi1|by rewrite last_operands_config|..|exact H].
    intros Hd. simpl in Hd. destruct Ha as [Ha|Ha]; [done|].
    eapply (authorized_put_config bm1 bm); [by symmetry|].
    destruct (put_message_fields (op_with_last_operands op (od_value <$> os)) result)
      as (Hv & Hpa & Hdi & Hpl).
    destruct Hr as (He & Hrd & _ & _).
    exists op, result. repeat split; try done.
    + by eapply list_elem_of_lookup_2.
    + by apply op_ready_not_blocked.
Qed.

Lemma evaluate_all_safe fuel bm bus st' :
  bm_evaluate_all fuel bm bus = Some st' -> safe_step (bm, bus) st'.
Proof.
  apply (evaluate_all_rel safe_step safe_step_refl safe_step_trans). apply evaluate_op_safe.
Qed.

(** Storing a report changes the caches only. *)
Lemma store_input_config m v (st : binding_map_t A * bool) i : same_config (fst st) (fst (store_input m v st i)).
Proof.
  destruct st as [bm u]. unfold store_input. split_match; simpl; [apply cache_set_config|done].
Qed.

Lemma store_inputs_config m v ins (st : binding_map_t A * bool) :
  same_config (fst st) (fst (fold_left (store_input m v) ins st)).
Proof.
  revert st. induction ins as [|i ins IH]; intros st; simpl; [done|].
  etransitivity; [apply (store_input_config m v st i)|apply IH].
Qed.

(** Handling a message: the configuration stays, and whatever is sent is
    authorized for that very message. *)
Lemma processor_handle_safe fuel bm bus m bm' bus' :
  bm_processor_handle fuel bm bus m = Some (bm', bus') ->
  op_config <$> bm_ops bm' = op_config <$> bm_ops bm /\
  exists ms, bus_extends bus bus' ms /\
    Forall (authorized_put (bm_with_current_msg bm (Some m))) ms.
Proof.
  unfold bm_processor_handle.
  destruct (_ && _)%bool; [intros; simplify_eq; split; [done|]; exists []; split; [apply bus_extends_refl|constructor]|].
  destruct (_ =?s _); [intros; simplify_eq; split; [done|]; exists []; split; [apply bus_extends_refl|constructor]|].
  set (bm0 := bm_with_current_msg bm (Some m)).
  unfold store_report.
  pose proof (store_inputs_config m (bm_datum_value (Some (msg_payload m)) (Some BM_LIVE_INPUT_PARAM))
    (concat (op_inputs <$> bm_ops bm0)) (bm0, false)) as Hsc.
  destruct (fold_left _ _ _) as [bm1 u]. simpl in Hsc.
  assert (Hs : safe_step (bm0, bus) (bm1, bus)) by (by apply safe_step_config).
  destruct u; intros H; simplify_eq.
  - pose proof (safe_step_trans _ _ _ Hs (evaluate_all_safe _ _ _ _ H)) as [Hc Hms].
    split; [|exact Hms]. by destruct Hc.
  - split; [by destruct Hsc|]. exists []. split; [apply bus_extends_refl|constructor].
Qed.

(** What a message leaves alone. *)
Lemma processor_handle_config fuel bm bus m bm' bus' :
  bm_processor_handle fuel bm bus m = Some (bm', bus') ->
  op_config <$> bm_ops bm' = op_config <$> bm_ops bm /\ bm_addrs bm' = bm_addrs bm /\
  bm_authz_disabled bm' = bm_authz_disabled bm /\ bm_auth_authorize bm' = bm_auth_authorize bm.
Proof.
  unfold bm_processor_handle.
  destruct (_ && _)%bool; [intros; by simplify_eq|]. destruct (_ =?s _); [intros; by simplify_eq|].
  set (bm0 := bm_with_current_msg bm (Some m)). unfold store_report.
  pose proof (store_inputs_config m (bm_datum_value (Some (msg_payload m)) (Some BM_LIVE_INPUT_PARAM))
    (concat (op_inputs <$> bm_ops bm0)) (bm0, false)) as Hsc.
  destruct (fold_left _ _ _) as [bm1 u]. simpl in Hsc.
  destruct u; intros H; simplify_eq; [|by destruct Hsc].
  destruct (evaluate_all_safe _ _ _ _ H) as [Hc _]. simpl in Hc.
  assert (Ht : same_config bm0 bm') by (by etransitivity). by destruct Ht.
Qed.

(** A command is not a report: it changes nothing here. *)
Lemma processor_handle_other fuel bm bus m :
  msg_verb m <> HES_VERB_EVENT -> msg_verb m <> HES_VERB_GET ->
  bm_processor_handle fuel bm bus m = Some (bm, bus).
Proof.
  intros H1 H2. unfold bm_processor_handle.
  by rewrite (proj2 (Z.eqb_neq _ _) H1), (proj2 (Z.eqb_neq _ _) H2).
Qed.
End safety.
