(* ===== verification/BmSettle.v ===== *)
(** * The processor settles

    Every evaluation of the operation table that ends leaves no row stale: a row
    is stale when it can run and its operands differ from the ones it last ran on.
    On acyclic tables over values that contain no NaN, evaluation ends: a
    recorded row stops being stale and only rows of a larger rank can become so. *)

From S2P Require Import Prelude CLib HesCommon HesQuery Bm BmFacts.

(** ** Stale rows *)

(** The operands on which a row would run now. *)
Definition current_operands {A} (bm : binding_map_t A) (op : bm_operation_t)
  : option (list bm_operand_t) :=
  if (op_enabled op && op_ready bm op)%bool then
    match condition_inputs bm (op_inputs op) with
    | Some (o :: os) => Some (o :: os)
    | _ => None
    end
  else None.

Definition stale {A} (bm : binding_map_t A) (op : bm_operation_t) : bool :=
  match current_operands bm op with
  | Some operands => inputs_changed op operands
  | None => false
  end.

Definition row_stale {A} (bm : binding_map_t A) (i : nat) : bool :=
  match bm_ops bm !! i with Some op => stale bm op | None => false end.

Section stale.
Context {A : Type}.
Implicit Types bm : binding_map_t A.

Lemma current_operands_runs bm op operands :
  current_operands bm op = Some operands <-> runs bm op operands.
Proof.
  unfold current_operands, runs. split.
  - intros H. repeat split_match_in H; simplify_eq.
    apply andb_prop in Heqb as [??]. repeat split; done.
  - intros (-> & -> & -> & Hne). simpl. by destruct operands.
Qed.

(** What staleness looks at. *)
Definition same_view bm bm' : Prop :=
  bm_value_cache bm' = bm_value_cache bm /\ bm_value_valid bm' = bm_value_valid bm /\
  bm_authz_disabled bm' = bm_authz_disabled bm.

Lemma cached_view bm bm' di : same_view bm bm' -> cached bm' di = cached bm di.
Proof. intros (H & _). unfold cached. by rewrite H. Qed.

Lemma input_ready_ext bm bm' inp :
  bm_authz_disabled bm' = bm_authz_disabled bm ->
  cache_valid bm' (in_device_index inp) = cache_valid bm (in_device_index inp) ->
  input_ready bm' inp = input_ready bm inp.
Proof. intros Ha Hv. unfold input_ready. by rewrite Ha, Hv. Qed.

Lemma forallb_ext_in {T} (f g : T -> bool) l :
  (forall x, x ∈ l -> f x = g x) -> forallb f l = forallb g l.
Proof.
  induction l as [|x l IH]; intros H; simpl; [done|].
  rewrite (H x ltac:(left)), IH; [done|]. intros y Hy. apply H. by right.
Qed.

Lemma condition_inputs_ext bm bm' ins :
  (forall inp, inp ∈ ins ->
     cached bm' (in_device_index inp) = cached bm (in_device_index inp)) ->
  condition_inputs bm' ins = condition_inputs bm ins.
Proof.
  induction ins as [|inp ins IH]; intros Hx; simpl; [done|].
  rewrite (Hx inp ltac:(left)). destruct (apply_condition _ _); [|done].
  rewrite IH; [done|]. intros; apply Hx; by right.
Qed.

(** A row's operands depend on the cache entries of its own inputs only. *)
Lemma current_operands_ext bm bm' op op' :
  bm_authz_disabled bm' = bm_authz_disabled bm ->
  op_enabled op' = op_enabled op -> op_inputs op' = op_inputs op ->
  (forall inp, inp ∈ op_inputs op ->
     cached bm' (in_device_index inp) = cached bm (in_device_index inp) /\
     cache_valid bm' (in_device_index inp) = cache_valid bm (in_device_index inp)) ->
  current_operands bm' op' = current_operands bm op.
Proof.
  intros Ha He Hi Hx. unfold current_operands, op_ready. rewrite He, Hi.
  assert (Hr : forallb (input_ready bm') (op_inputs op) = forallb (input_ready bm) (op_inputs op)).
  { apply forallb_ext_in. intros inp Hin. apply input_ready_ext; [done|by apply Hx]. }
  assert (Hc : condition_inputs bm' (op_inputs op) = condition_inputs bm (op_inputs op)).
  { apply condition_inputs_ext. intros inp Hin. by apply Hx. }
  rewrite Hc. by destruct (op_inputs op); [|rewrite Hr].
Qed.

Lemma current_operands_view bm bm' op op' :
  same_view bm bm' -> op_enabled op' = op_enabled op -> op_inputs op' = op_inputs op ->
  current_operands bm' op' = current_operands bm op.
Proof.
  intros (Hc & Hv & Ha) He Hi. apply current_operands_ext; [done..|].
  intros inp _. unfold cached, cache_valid. by rewrite Hc, Hv.
Qed.

Lemma row_stale_view bm bm' i :
  same_view bm bm' ->
  (forall op, bm_ops bm !! i = Some op -> exists op', bm_ops bm' !! i = Some op' /\
     op_enabled op' = op_enabled op /\ op_inputs op' = op_inputs op /\
     op_last_operands op' = op_last_operands op) ->
  (bm_ops bm !! i = None -> bm_ops bm' !! i = None) ->
  row_stale bm' i = row_stale bm i.
Proof.
  intros Hv Hs Hn. unfold row_stale. destruct (bm_ops bm !! i) as [op|].
  - destruct (Hs op eq_refl) as (op' & -> & He & Hi & Hl). unfold stale, inputs_changed.
    by rewrite (current_operands_view bm bm' op op'), Hl.
  - by rewrite Hn.
Qed.

Lemma row_stale_same_ops bm bm' i :
  same_view bm bm' -> bm_ops bm' = bm_ops bm -> row_stale bm' i = row_stale bm i.
Proof.
  intros Hv Ho. apply row_stale_view; [done|..]; rewrite Ho; [|done]. intros op H. by exists op.
Qed.

Lemma set_row_view bm i op : same_view bm (set_row bm i op).
Proof. by repeat split. Qed.

Lemma set_row_other bm i j op : i <> j -> bm_ops (set_row bm i op) !! j = bm_ops bm !! j.
Proof. intros H. simpl. by rewrite list_lookup_insert_ne. Qed.

Lemma set_row_same bm i op op0 :
  bm_ops bm !! i = Some op0 -> bm_ops (set_row bm i op) !! i = Some op.
Proof. intros H. simpl. rewrite list_lookup_insert_eq; [done|]. by eapply lookup_lt_Some. Qed.

Lemma row_stale_set_other bm i j op :
  i <> j -> row_stale (set_row bm i op) j = row_stale bm j.
Proof.
  intros H. apply row_stale_view; [apply set_row_view|..]; rewrite set_row_other by done; [|done].
  intros op' Hj. by exists op'.
Qed.

(** A recorded row is settled, unless an operand is a NaN. *)
Lemma same_values_refl vs : Forall (fun v => is_nan v = false) vs -> same_values vs vs = true.
Proof.
  induction 1 as [|v vs Hv _ IH]; simpl; [done|]. by rewrite d_eqb_refl, IH.
Qed.

Lemma recorded_settled bm i op operands :
  bm_ops bm !! i = Some op -> runs bm op operands ->
  Forall (fun v => is_nan v = false) (od_value <$> operands) ->
  row_stale (recorded bm i op operands) i = false.
Proof.
  intros Hi Hr Hn. unfold row_stale, recorded. rewrite (set_row_same bm i _ op Hi).
  unfold stale. rewrite (current_operands_view bm _ op _ (set_row_view bm i _)) by done.
  apply current_operands_runs in Hr. rewrite Hr. unfold inputs_changed. simpl.
  by rewrite same_values_refl.
Qed.

Lemma recorded_other bm i j op operands :
  i <> j -> row_stale (recorded bm i op operands) j = row_stale bm j.
Proof. apply row_stale_set_other. Qed.

Lemma last_output_stale bm i j op operands r :
  bm_ops bm !! i = Some op ->
  row_stale (set_row (recorded bm i op operands) i
    (op_with_last_output (op_with_last_operands op (od_value <$> operands)) r)) j =
  row_stale (recorded bm i op operands) j.
Proof.
  intros Hi. destruct (decide (i = j)) as [<-|Hne]; [|by rewrite row_stale_set_other].
  assert (Hr : bm_ops (recorded bm i op operands) !! i =
    Some (op_with_last_operands op (od_value <$> operands))) by (by eapply set_row_same).
  apply row_stale_view; [apply set_row_view|..].
  - intros op' H'. rewrite Hr in H'. apply Some_inj in H'. subst op'. eexists. split; [by eapply set_row_same|done].
  - intros H'. by rewrite Hr in H'.
Qed.

(** A new cache value makes stale only rows that read that device. *)
Lemma cache_set_other bm di dj v :
  0 <= di -> 0 <= dj -> di <> dj ->
  cached (bm_cache_set bm di v) dj = cached bm dj /\
  cache_valid (bm_cache_set bm di v) dj = cache_valid bm dj.
Proof.
  intros H1 H2 Hne. unfold cached, cache_valid. simpl.
  by rewrite !list_lookup_insert_ne by lia.
Qed.

Definition reads (op : bm_operation_t) (di : Z) : Prop :=
  exists inp, inp ∈ op_inputs op /\ Z.to_nat (in_device_index inp) = Z.to_nat di.

Lemma cache_set_stale bm di v j op :
  bm_ops bm !! j = Some op -> ~ reads op di ->
  row_stale (bm_cache_set bm di v) j = row_stale bm j.
Proof.
  intros Hj Hn. unfold row_stale. simpl. rewrite Hj. unfold stale.
  rewrite (current_operands_ext bm (bm_cache_set bm di v) op op); [done..|].
  intros inp Hin. unfold cached, cache_valid. simpl.
  assert (Z.to_nat di <> Z.to_nat (in_device_index inp)) by (intros H; apply Hn; by exists inp).
  by rewrite !list_lookup_insert_ne.
Qed.
End stale.

(** ** Values that stay numbers

    [V] gives every device the set of values it may hold, none of which has a
    NaN: the rows of a table keep the sets when what a row computes from values of
    its inputs' sets belongs to the set of the device it writes. A table of
    comparisons keeps the numbers; a row of arithmetic keeps the numbers when its
    operands come from finite sets (see [BmValues]). *)

(** The operands of a row are values of its inputs' sets, conditioned. *)
Definition operands_from (V : nat -> double -> Prop) (ins : list bm_input_t)
  (operands : list bm_operand_t) : Prop :=
  Forall2 (fun inp o => exists v, V (Z.to_nat (in_device_index inp)) v /\
             apply_condition (in_condition inp) v = Some (od_value o)) ins operands.

Definition in_cache_range (di : Z) : bool :=
  ((0 <? di) && (di <=? Z.of_nat BM_MAX_ADDRS))%bool.

Lemma condition_not_nan c v w :
  is_nan v = false -> apply_condition c v = Some w -> is_nan w = false.
Proof.
  unfold apply_condition. intros Hv H. repeat split_match_in H; simplify_eq; try done; by destruct v.
Qed.

Section values.
Context {A : Type} (V : nat -> double -> Prop).
Hypothesis V_number : forall k v, V k v -> is_nan v = false.
Implicit Types bm : binding_map_t A.

(** What the row computes from its inputs' sets is a number, and one of the set
    of its output device. *)
Definition row_keeps bm (op : bm_operation_t) : Prop :=
  forall op' bm' operands bm1 r result,
    op_config op' = op_config op -> bm_app_operation bm' = bm_app_operation bm ->
    operands_from V (op_inputs op) operands ->
    perform_operation bm' op' operands = (bm1, Some r) ->
    apply_condition (op_out_adjustment op) r = Some result ->
    is_nan result = false /\
    (in_cache_range (op_out_device_index op) = true ->
     V (Z.to_nat (op_out_device_index op)) result).

(** The values the cache holds are values of their devices. *)
Definition cache_ok bm : Prop :=
  length (bm_value_cache bm) = length (bm_value_valid bm) /\
  forall di, cache_valid bm di = true -> V (Z.to_nat di) (cached bm di).

Definition values_ok bm : Prop :=
  cache_ok bm /\ forall op, op ∈ bm_ops bm -> row_keeps bm op.

Lemma cache_ok_same bm bm' :
  bm_value_cache bm' = bm_value_cache bm -> bm_value_valid bm' = bm_value_valid bm ->
  cache_ok bm -> cache_ok bm'.
Proof. intros Hc Hv. unfold cache_ok, cache_valid, cached. by rewrite Hc, Hv. Qed.

Lemma cache_set_ok bm di v : cache_ok bm -> V (Z.to_nat di) v -> cache_ok (bm_cache_set bm di v).
Proof.
  intros [Hl Hk] HV. split; simpl; [by rewrite !length_insert|]. intros dj.
  unfold cache_valid, cached. simpl. destruct (decide (Z.to_nat di = Z.to_nat dj)) as [He|He].
  - rewrite <- He. destruct (decide (Z.to_nat di < length (bm_value_cache bm))%nat) as [Hlt|Hge].
    + by rewrite (list_lookup_insert_eq (bm_value_cache bm)).
    + rewrite (lookup_ge_None_2 (<[_:=true]> _)); [done|]. rewrite length_insert. lia.
  - rewrite !list_lookup_insert_ne by done. apply Hk.
Qed.

Lemma values_ok_config bm bm' :
  same_config bm bm' -> values_ok bm -> cache_ok bm' -> values_ok bm'.
Proof.
  intros Hsc [_ Hk] Hc. split; [done|]. intros op' Hin. apply list_elem_of_lookup_1 in Hin as [i Hi].
  destruct (same_config_lookup bm' bm i op') as (op & Hop & He); [by symmetry|done|].
  pose proof (f_equal op_inputs He) as Hei. pose proof (f_equal op_out_adjustment He) as Hea.
  pose proof (f_equal op_out_device_index He) as Hed. simpl in Hei, Hea, Hed.
  intros op2 bm2 os bm3 r res H1 H2. rewrite <- Hei, <- Hea, <- Hed.
  apply (Hk op); [by eapply list_elem_of_lookup_2|congruence|].
  rewrite H2. by destruct Hsc.
Qed.

Lemma operands_ok bm op operands :
  values_ok bm -> runs bm op operands -> operands_from V (op_inputs op) operands.
Proof.
  intros [[_ Hv] _] (_ & Hr & Hc & _).
  assert (Hready : Forall (fun inp => input_ready bm inp = true) (op_inputs op)).
  { unfold op_ready in Hr. destruct (op_inputs op) eqn:E; [done|].
    apply Forall_forall. intros x Hx%list_elem_of_In. by apply (proj1 (forallb_forall _ _) Hr). }
  clear Hr. revert operands Hc. induction Hready as [|inp ins Hi _ IH]; intros os Hc; simpl in Hc.
  - simplify_eq. constructor.
  - destruct (apply_condition _ _) as [v|] eqn:E; [|done].
    destruct (condition_inputs bm ins) as [rest|]; [|done]. simplify_eq.
    constructor; [|by apply IH]. exists (cached bm (in_device_index inp)). split; [|done].
    apply Hv. unfold input_ready in Hi. repeat split_match_in Hi; [done|].
    apply negb_true_iff, orb_false_iff in Hi as [_ Hi]. by apply negb_false_iff in Hi.
Qed.

Lemma operands_from_numbers ins operands :
  operands_from V ins operands -> Forall (fun v => is_nan v = false) (od_value <$> operands).
Proof.
  induction 1 as [|inp o ins os (v & Hv & Ha) _ IH]; simpl; constructor; [|done].
  eapply condition_not_nan; [|exact Ha]. by eapply V_number.
Qed.

Lemma operands_numbers bm op operands :
  values_ok bm -> runs bm op operands ->
  Forall (fun v => is_nan v = false) (od_value <$> operands).
Proof. intros H1 H2. eapply operands_from_numbers. by eapply operands_ok. Qed.

Lemma set_row_values bm i op op' :
  bm_ops bm !! i = Some op -> op_config op' = op_config op ->
  values_ok bm -> values_ok (set_row bm i op').
Proof.
  intros Hi Hc Hv. eapply values_ok_config; [by eapply set_row_config|done|]. by destruct Hv.
Qed.

Lemma cache_set_values bm di v :
  values_ok bm -> V (Z.to_nat di) v -> values_ok (bm_cache_set bm di v).
Proof.
  intros Hv HP. eapply values_ok_config; [apply cache_set_config|done|].
  apply cache_set_ok; [by destruct Hv|done].
Qed.

Lemma performed_values bm i op operands bm1 r :
  bm_ops bm !! i = Some op -> values_ok bm ->
  perform_operation (recorded bm i op operands)
    (op_with_last_operands op (od_value <$> operands)) operands = (bm1, r) ->
  values_ok bm1.
Proof.
  intros Hi Hv Hp. eapply values_ok_config; [by eapply performed_config|done|].
  destruct (performed_state (recorded bm i op operands)
    (op_with_last_operands op (od_value <$> operands)) operands) as (_ & Hc & Hvd).
  rewrite Hp in Hc, Hvd. eapply (cache_ok_same bm); [done..|]. by destruct Hv.
Qed.

(** The committed value of a running row is a value of its output device. *)
Lemma committed_value bm i op operands bm1 r result :
  bm_ops bm !! i = Some op -> values_ok bm -> runs bm op operands ->
  perform_operation (recorded bm i op operands)
    (op_with_last_operands op (od_value <$> operands)) operands = (bm1, Some r) ->
  apply_condition (op_out_adjustment op) r = Some result ->
  is_nan result = false /\
  (in_cache_range (op_out_device_index op) = true -> V (Z.to_nat (op_out_device_index op)) result).
Proof.
  intros Hi Hv Hr Hp Ha. destruct (Hv) as [_ Hk].
  eapply (Hk op); [by eapply list_elem_of_lookup_2|..|exact Hp|exact Ha]; [done|done|by eapply operands_ok].
Qed.

Lemma committed_value_set bm i op operands bm1 r result :
  bm_ops bm !! i = Some op -> values_ok bm -> runs bm op operands ->
  perform_operation (recorded bm i op operands)
    (op_with_last_operands op (od_value <$> operands)) operands = (bm1, Some r) ->
  apply_condition (op_out_adjustment op) r = Some result ->
  in_cache_range (op_out_device_index op) = true -> V (Z.to_nat (op_out_device_index op)) result.
Proof. intros Hi Hv Hr Hp Ha. by apply (committed_value bm i op operands bm1 r result). Qed.

(** What happens to a map when the row's result is committed. *)
Definition committed (bm1 : binding_map_t A) i (op : bm_operation_t) (operands : list bm_operand_t)
  (result : double) : binding_map_t A :=
  set_row bm1 i (op_with_last_output (op_with_last_operands op (od_value <$> operands)) result).

Lemma commit_output_result rec bm1 bus i op operands result st' :
  commit_output rec bm1 bus i (op_with_last_operands op (od_value <$> operands)) result = Some st' ->
  exists bus1,
    if in_cache_range (op_out_device_index op)
    then rec (bm_cache_set (committed bm1 i op operands result) (op_out_device_index op) result) bus
         = Some (fst st', bus1)
    else fst st' = committed bm1 i op operands result.
Proof.
  unfold commit_output. fold (committed bm1 i op operands result). simpl op_out_device_index.
  fold (in_cache_range (op_out_device_index op)). simpl op_out_dest_object.
  destruct (in_cache_range _).
  - destruct (rec _ _) as [[bm2 bus2]|]; [|done]. intros H.
    exists bus2. split_match_in H; simplify_eq; done.
  - intros H. exists bus. split_match_in H; simplify_eq; done.
Qed.

Lemma committed_values bm i op operands bm1 r result :
  bm_ops bm !! i = Some op -> values_ok bm ->
  perform_operation (recorded bm i op operands)
    (op_with_last_operands op (od_value <$> operands)) operands = (bm1, r) ->
  values_ok (committed bm1 i op operands result).
Proof.
  intros Hi Hv Hp. unfold committed.
  destruct (same_config_lookup bm bm1 i op) as (op1 & Hi1 & Hc1); [by eapply performed_config|done|].
  eapply set_row_values; [exact Hi1|by rewrite last_output_config, last_operands_config|].
  by apply (performed_values bm i op operands bm1 r).
Qed.

(** After its evaluation a row is settled, up to the recursion, and the other
    rows are as they were. *)
Lemma committed_stale bm i j op operands bm1 r result :
  bm_ops bm !! i = Some op ->
  perform_operation (recorded bm i op operands)
    (op_with_last_operands op (od_value <$> operands)) operands = (bm1, r) ->
  row_stale (committed bm1 i op operands result) j = row_stale (recorded bm i op operands) j.
Proof.
  intros Hi Hp. rewrite <- (last_output_stale bm i j op operands result Hi).
  pose proof (performed_state (recorded bm i op operands)
    (op_with_last_operands op (od_value <$> operands)) operands) as (Ho & Hc & Hv).
  rewrite Hp in Ho, Hc, Hv. simpl in Ho, Hc, Hv.
  pose proof (performed_config bm i op operands bm1 r Hi Hp) as Hsc.
  apply row_stale_same_ops.
  - repeat split; simpl; [by rewrite Hc|by rewrite Hv|by destruct Hsc].
  - simpl. by rewrite Ho.
Qed.

Lemma performed_stale bm i j op operands :
  bm_ops bm !! i = Some op ->
  row_stale (fst (perform_operation (recorded bm i op operands)
    (op_with_last_operands op (od_value <$> operands)) operands)) j =
  row_stale (recorded bm i op operands) j.
Proof.
  intros Hi.
  pose proof (performed_state (recorded bm i op operands)
    (op_with_last_operands op (od_value <$> operands)) operands) as (Ho & Hc & Hv).
  apply row_stale_same_ops; [|done]. split; [done|]. split; [done|].
  apply (sc_authz _ _ (perform_operation_config (recorded bm i op operands)
    (op_with_last_operands op (od_value <$> operands)) operands)).
Qed.

Lemma not_runs_settled bm i :
  (forall op operands, bm_ops bm !! i = Some op -> ~ runs bm op operands) ->
  row_stale bm i = false.
Proof.
  intros H. unfold row_stale. destruct (bm_ops bm !! i) as [op|]; [|done]. unfold stale.
  destruct (current_operands bm op) as [os|] eqn:E; [|done].
  apply current_operands_runs in E. by destruct (H op os eq_refl).
Qed.
End values.

(** ** Evaluation settles *)
Section settle.
Context {A : Type} (V : nat -> double -> Prop).
Hypothesis V_number : forall k v, V k v -> is_nan v = false.
Implicit Types bm : binding_map_t A.

(** The map keeps its configuration and its values stay in their sets. *)
Definition good bm bm' : Prop := same_config bm bm' /\ values_ok V bm'.

Lemma good_trans bm1 bm2 bm3 : same_config bm1 bm2 -> good bm2 bm3 -> good bm1 bm3.
Proof. intros H1 [H2 H3]. split; [by etransitivity|done]. Qed.

Lemma evaluate_op_good rec i bm bus st' :
  (forall bm bus st'', values_ok V bm -> rec bm bus = Some st'' -> good bm (fst st'')) ->
  values_ok V bm -> evaluate_op rec i (bm, bus) = Some st' -> good bm (fst st').
Proof.
  intros Hrec Hv.
  destruct (evaluate_op_cases rec bm bus i)
    as [Hskip|op os Hi Hr Hch|op os bm1 Hi Hr Hch Hbm1|op os bm1 r result Hi Hr Hch Hp Hadj Hl Ha];
    intros H; simplify_eq; simpl.
  - by split.
  - split; [by apply recorded_config|by eapply set_row_values].
  - destruct (perform_operation _ _ _) as [bm1 r] eqn:E. simpl.
    split; [by eapply performed_config|by eapply performed_values].
  - assert (Hsc : same_config bm (committed bm1 i op os result)).
    { destruct (same_config_lookup bm bm1 i op) as (op1 & Hi1 & Hc1); [by eapply performed_config|done|].
      etransitivity; [by eapply performed_config|]. by eapply set_row_config. }
    assert (Hvc : values_ok V (committed bm1 i op os result)) by (by eapply committed_values).
    destruct (commit_output_result _ _ _ _ _ _ _ _ H) as [bus1 Hcr].
    destruct (in_cache_range _) eqn:Hcr0.
    + apply Hrec in Hcr; [|apply cache_set_values; [done|by eapply committed_value_set]].
      eapply good_trans; [|exact Hcr]. etransitivity; [exact Hsc|apply cache_set_config].
    + rewrite Hcr. by split.
Qed.

Lemma evaluate_all_good fuel bm bus st' :
  values_ok V bm -> bm_evaluate_all fuel bm bus = Some st' -> good bm (fst st').
Proof.
  revert bm bus st'. induction fuel as [|fuel IH]; intros bm bus st' Hv H; [done|].
  cbn [bm_evaluate_all] in H.
  eapply (for_each_inv (fun st => good bm (fst st))) with (s := (bm, bus));
    [|split; [reflexivity|exact Hv]|exact H].
  intros i [bm1 bus1] t' _ Ht Hstep. destruct Ht as [Hsc Hv1]. simpl in *.
  eapply good_trans; [exact Hsc|]. eapply evaluate_op_good; [exact IH|exact Hv1|exact Hstep].
Qed.

(** Evaluating a row settles it and does not unsettle the others. *)
Lemma evaluate_op_settles rec i bm bus st' :
  (forall bm bus st'', values_ok V bm -> rec bm bus = Some st'' ->
     forall j, row_stale (fst st'') j = false) ->
  values_ok V bm -> evaluate_op rec i (bm, bus) = Some st' ->
  row_stale (fst st') i = false /\
  forall j, row_stale bm j = false -> row_stale (fst st') j = false.
Proof.
  intros Hrec Hv.
  assert (Hrow : forall op os, bm_ops bm !! i = Some op -> runs bm op os ->
    row_stale (recorded bm i op os) i = false /\
    forall j, row_stale bm j = false -> row_stale (recorded bm i op os) j = false).
  { intros op os Hi Hr.
    assert (Hii : row_stale (recorded bm i op os) i = false)
      by (apply recorded_settled; [done..|by eapply operands_numbers]).
    split; [done|]. intros j Hj. destruct (decide (i = j)) as [<-|Hne]; [done|].
    by rewrite recorded_other. }
  destruct (evaluate_op_cases rec bm bus i)
    as [Hskip|op os Hi Hr Hch|op os bm1 Hi Hr Hch Hbm1|op os bm1 r result Hi Hr Hch Hp Hadj Hl Ha];
    intros H; simplify_eq; simpl.
  - split; [by apply not_runs_settled|done].
  - by apply Hrow.
  - rewrite performed_stale by done. destruct (Hrow op os Hi Hr) as [H1 H2].
    split; [done|]. intros j Hj. rewrite performed_stale by done. by apply H2.
  - destruct (commit_output_result _ _ _ _ _ _ _ _ H) as [bus1 Hcr].
    destruct (in_cache_range _) eqn:Hcr0.
    + assert (Hall : forall j, row_stale (fst st') j = false).
      { intros j. apply (Hrec _ _ _) with (j := j) in Hcr; [done|].
        apply cache_set_values; [by eapply committed_values|by eapply committed_value_set]. }
      by split.
    + rewrite Hcr. destruct (Hrow op os Hi Hr) as [H1 H2].
      split; [|intros j Hj]; erewrite committed_stale by done; [done|by apply H2].
Qed.

Lemma evaluate_all_settles fuel bm bus st' :
  values_ok V bm -> bm_evaluate_all fuel bm bus = Some st' ->
  forall j, row_stale (fst st') j = false.
Proof.
  revert bm bus st'. induction fuel as [|fuel IH]; intros bm bus st' Hv H; [done|].
  cbn [bm_evaluate_all] in H.
  assert (Hloop : forall m k bm1 bus1, values_ok V bm1 ->
    (forall j, (j < k)%nat -> row_stale bm1 j = false) ->
    for_each (evaluate_op (bm_evaluate_all fuel)) (seq k m) (bm1, bus1) = Some st' ->
    (forall j, (j < k + m)%nat -> row_stale (fst st') j = false)).
  { induction m as [|m IHm]; intros k bm1 bus1 Hv1 Hk Hf j Hj; cbn [seq for_each] in Hf.
    - simplify_eq. apply Hk. lia.
    - destruct (evaluate_op (bm_evaluate_all fuel) k (bm1, bus1)) as [[bm2 bus2]|] eqn:E; [|done].
      pose proof E as Hset. apply evaluate_op_settles in Hset as [H1 H2]; [|by intros; eapply IH|done].
      apply evaluate_op_good in E as [_ Hv2]; [|by intros; eapply evaluate_all_good|done].
      apply (IHm (S k) bm2 bus2); [done| |done|lia].
      intros j' Hj'. simpl in *. destruct (decide (j' = k)) as [->|Hne]; [done|].
      apply H2, Hk. lia. }
  intros j. destruct (decide (j < length (bm_ops bm))%nat) as [Hj|Hj].
  - apply (Hloop (length (bm_ops bm)) 0%nat bm bus); [done|lia|done|lia].
  - unfold row_stale. rewrite lookup_ge_None_2; [done|].
    destruct (evaluate_all_good (S fuel) bm bus st' Hv H) as [Hsc _].
    apply same_config_length in Hsc. lia.
Qed.

(** A settled table: evaluating it again sends nothing and leaves every value. *)
Lemma settled_evaluate rec i bm bus :
  values_ok V bm -> (forall j, row_stale bm j = false) ->
  exists bm', evaluate_op rec i (bm, bus) = Some (bm', bus) /\
    bm_value_cache bm' = bm_value_cache bm /\ bm_value_valid bm' = bm_value_valid bm /\
    good bm bm' /\ (forall j, row_stale bm' j = false).
Proof.
  intros Hv Hs.
  assert (Hst : forall op os, bm_ops bm !! i = Some op -> runs bm op os ->
    inputs_changed op os = false).
  { intros op os Hi Hr. specialize (Hs i). unfold row_stale in Hs. rewrite Hi in Hs.
    unfold stale in Hs. apply current_operands_runs in Hr. by rewrite Hr in Hs. }
  destruct (evaluate_op_cases rec bm bus i)
    as [Hskip|op os Hi Hr Hch|op os bm1 Hi Hr Hch Hbm1|op os bm1 r result Hi Hr Hch Hp Hadj Hl Ha].
  2: { exists (recorded bm i op os). split; [done|]. split; [done|]. split; [done|]. split.
       - split; [by apply recorded_config|]. by apply (set_row_values V bm i op).
       - intros j. destruct (decide (i = j)) as [<-|Hne]; [|by rewrite recorded_other].
         apply recorded_settled; [done..|by eapply operands_numbers]. }
  - exists bm. split; [done|]. split; [done|]. split; [done|]. split; [by split|done].
  - by rewrite (Hst op os) in Hch.
  - by rewrite (Hst op os) in Hch.
Qed.
End settle.
