(* ===== verification/BmValues.v ===== *)
(** * Which tables keep their values numbers

    The sets of [BmSettle] for the built-in operators: a device either holds
    finite numbers or any number but NaN, and a row keeps the sets by a check on
    its own fields. Sums, differences and quotients need one finite operand,
    products two; comparisons need nothing and give finite numbers. *)

From S2P Require Import Prelude CLib HesCommon HesQuery Bm BmFacts BmSettle.

(** ** Rounding never gives a NaN *)

Definition is_finite (v : double) : bool :=
  match v with S754_nan | S754_infinity _ => false | _ => true end.

Lemma finite_not_nan v : is_finite v = true -> is_nan v = false.
Proof. by destruct v. Qed.

Lemma shr_1_sign mrs : 0 <= shr_m mrs -> 0 <= shr_m (shr_1 mrs).
Proof. destruct mrs as [[|[]|[]] r s]; simpl; lia. Qed.

Lemma iter_pos_sign p mrs : 0 <= shr_m mrs -> 0 <= shr_m (iter_pos shr_1 p mrs).
Proof.
  revert mrs. induction p as [p IH|p IH|]; intros mrs H; cbn [iter_pos]; auto using shr_1_sign.
Qed.

Lemma shr_fexp_sign m e l : 0 <= m -> 0 <= shr_m (fst (shr_fexp 53 1024 m e l)).
Proof.
  intros Hm. unfold shr_fexp, shr.
  assert (H : 0 <= shr_m (shr_record_of_loc m l)) by (destruct l as [|[]]; done).
  destruct (_ - _); simpl; [done| |done]. by apply iter_pos_sign.
Qed.

Lemma binary_round_aux_number sx m e l :
  0 <= m -> is_nan (binary_round_aux 53 1024 sx m e l) = false.
Proof.
  intros Hm. unfold binary_round_aux. pose proof (shr_fexp_sign m e l Hm) as H1.
  destruct (shr_fexp 53 1024 m e l) as [mrs e1]. simpl in H1.
  assert (H2 : 0 <= round_nearest_even (shr_m mrs) (loc_of_shr_record mrs))
    by (unfold round_nearest_even; repeat case_match; lia).
  pose proof (shr_fexp_sign _ e1 loc_Exact H2) as H3.
  destruct (shr_fexp 53 1024 _ e1 loc_Exact) as [mrs' e2]. simpl in H3.
  destruct (shr_m mrs'); [done|by destruct (_ <=? _)|lia].
Qed.

Lemma binary_normalize_number m e s : is_nan (binary_normalize 53 1024 m e s) = false.
Proof.
  unfold binary_normalize, binary_round. destruct m; [done|..];
    destruct (shl_align _ _ _); by apply binary_round_aux_number.
Qed.

Lemma d_add_number a b :
  is_nan a = false -> is_nan b = false -> (is_finite a || is_finite b)%bool = true ->
  is_nan (d_add a b) = false.
Proof.
  intros Ha Hb Hf. unfold d_add.
  destruct a as [[]|[]| |sa ma ea], b as [[]|[]| |sb mb eb]; try done.
  all: apply binary_normalize_number.
Qed.

Lemma d_sub_number a b :
  is_nan a = false -> is_nan b = false -> (is_finite a || is_finite b)%bool = true ->
  is_nan (d_sub a b) = false.
Proof.
  intros Ha Hb Hf. unfold d_sub.
  destruct a as [[]|[]| |sa ma ea], b as [[]|[]| |sb mb eb]; try done.
  all: apply binary_normalize_number.
Qed.

Lemma d_mul_number a b :
  is_finite a = true -> is_finite b = true -> is_nan (d_mul a b) = false.
Proof.
  intros Ha Hb. unfold d_mul.
  destruct a as [[]|[]| |sa ma ea], b as [[]|[]| |sb mb eb]; try done.
  by apply binary_round_aux_number.
Qed.

Lemma d_div_number a b :
  is_nan a = false -> is_nan b = false -> d_eqb b d_zero = false ->
  (is_finite a || is_finite b)%bool = true -> is_nan (d_div a b) = false.
Proof.
  intros Ha Hb Hz Hf. unfold d_div.
  destruct a as [[]|[]| |sa ma ea], b as [[]|[]| |sb mb eb]; try done.
  unfold SFdiv, SFdiv_core_binary.
  set (mm := match _ with Z0 => _ | Zpos _ => _ | Zneg _ => _ end).
  assert (Hm : 0 <= mm) by (unfold mm; case_match; [lia|apply Z.shiftl_nonneg; lia|lia]).
  clearbody mm. pose proof (Z.div_pos mm (Zpos mb) Hm ltac:(lia)) as Hq. unfold Z.div in Hq.
  destruct (Z.div_eucl mm (Zpos mb)) as [q r]. by apply binary_round_aux_number.
Qed.

(** ** Sets of values *)

(** The devices [fin] hold finite numbers, the others numbers. *)
Definition value_set (fin : nat -> bool) (k : nat) (v : double) : Prop :=
  (if fin k then is_finite v else negb (is_nan v)) = true.

Lemma value_set_number fin k v : value_set fin k v -> is_nan v = false.
Proof. unfold value_set. destruct (fin k); by destruct v. Qed.

Lemma value_set_finite fin k v : is_finite v = true -> value_set fin k v.
Proof. unfold value_set. intros H. destruct (fin k); [done|by destruct v]. Qed.

Lemma condition_finite c v w :
  is_finite v = true -> apply_condition c v = Some w -> is_finite w = true.
Proof.
  unfold apply_condition. intros Hv H. repeat split_match_in H; simplify_eq; try done; by destruct v.
Qed.

(** ** Rows that keep them *)

Definition boolean_op (opc : string) : bool :=
  existsb (String.eqb opc) ["gt"; "lt"; "eq"; "no"].

Section rows.
Variable fin : nat -> bool.

Definition input_finite (inp : bm_input_t) : bool := fin (Z.to_nat (in_device_index inp)).

(** [operand_a] and [operand_b] read a finite number. *)
Definition a_finite (op : bm_operation_t) : bool :=
  match op_inputs op with inp :: _ => input_finite inp | [] => true end.
Definition b_literal (op : bm_operation_t) : double :=
  match op_input_params op with
  | _ :: p :: _ => if ip_is_live p then d_zero else ip_value p
  | _ => d_zero
  end.
Definition b_finite (op : bm_operation_t) : bool :=
  match op_inputs op with _ :: inp :: _ => input_finite inp | _ => is_finite (b_literal op) end.
Definition b_number (op : bm_operation_t) : bool :=
  match op_inputs op with _ :: _ :: _ => true | _ => negb (is_nan (b_literal op)) end.

Definition numeric_row (op : bm_operation_t) : bool :=
  (boolean_op (op_operation op)
   || negb (op_operation op =?s "ap") && b_number op
      && negb (in_cache_range (op_out_device_index op) && fin (Z.to_nat (op_out_device_index op)))
      && (if op_operation op =?s "mu" then a_finite op && b_finite op
          else a_finite op || b_finite op))%bool.

Lemma operand_a_of op operands :
  operands_from (value_set fin) (op_inputs op) operands ->
  is_nan (operand_a operands) = false /\ (a_finite op = true -> is_finite (operand_a operands) = true).
Proof.
  unfold a_finite. destruct 1 as [|inp o ins os (v & Hv & Ha) _]; [done|]. simpl. split.
  - eapply condition_not_nan; [|exact Ha]. by eapply value_set_number.
  - intros Hf. eapply condition_finite; [|exact Ha]. unfold value_set, input_finite in *. by rewrite Hf in Hv.
Qed.

Lemma operand_b_of op op' operands :
  op_config op' = op_config op -> operands_from (value_set fin) (op_inputs op) operands ->
  (b_number op = true -> is_nan (operand_b op' operands) = false) /\
  (b_finite op = true -> is_finite (operand_b op' operands) = true).
Proof.
  intros Hc Ho. pose proof (f_equal op_input_params Hc) as Hp. simpl in Hp.
  unfold b_number, b_finite, operand_b. rewrite Hp. fold (b_literal op).
  destruct Ho as [|inp o ins os _ Ho]; [by split; [intros ?%negb_true_iff|]|].
  destruct Ho as [|inp2 o2 ins os (v & Hv & Ha) _]; [by split; [intros ?%negb_true_iff|]|]. split.
  - intros _. eapply condition_not_nan; [|exact Ha]. by eapply value_set_number.
  - intros Hf. eapply condition_finite; [|exact Ha]. unfold value_set, input_finite in *. by rewrite Hf in Hv.
Qed.

Lemma boolean_finite opc a b : boolean_op opc = true -> is_finite (apply_operation opc a b) = true.
Proof.
  unfold boolean_op. intros Hb. apply existsb_exists in Hb as (o & Ho & Heq).
  apply String.eqb_eq in Heq. subst o.
  assert (Hif : forall x : bool, is_finite (if x then d_one else d_zero) = true) by (by intros []).
  destruct Ho as [<-|[<-|[<-|[<-|[]]]]];
    [apply (Hif (d_ltb b a))|apply (Hif (d_ltb a b))|apply (Hif (d_eqb a b))|apply (Hif (d_eqb a d_zero))].
Qed.

Lemma operation_number opc a b :
  is_nan a = false -> is_nan b = false ->
  (if opc =?s "mu" then is_finite a && is_finite b else is_finite a || is_finite b)%bool = true ->
  is_nan (apply_operation opc a b) = false.
Proof.
  intros Ha Hb Hf. unfold apply_operation.
  assert (Hif : forall x : bool, is_nan (if x then d_one else d_zero) = false) by (by intros []).
  destruct (opc =?s "gt"); [apply Hif|]. destruct (opc =?s "lt"); [apply Hif|].
  destruct (opc =?s "eq"); [apply Hif|].
  destruct (opc =?s "ad") eqn:E1.
  { apply String.eqb_eq in E1. subst opc. by apply d_add_number. }
  destruct (opc =?s "su") eqn:E2.
  { apply String.eqb_eq in E2. subst opc. by apply d_sub_number. }
  destruct (opc =?s "mu") eqn:E3.
  { apply andb_prop in Hf as [??]. by apply d_mul_number. }
  destruct (opc =?s "dv").
  { destruct (d_eqb b d_zero) eqn:Hz; simpl; [done|]. by apply d_div_number. }
  destruct (opc =?s "no"); [apply Hif|done].
Qed.

Theorem numeric_row_keeps {A} (bm : binding_map_t A) op :
  numeric_row op = true -> row_keeps (value_set fin) bm op.
Proof.
  intros Hn op' bm' os bm1 r result Hc _ Hos Hp Ha.
  pose proof (f_equal op_operation Hc) as Ho. simpl in Ho. unfold perform_operation in Hp.
  rewrite Ho in Hp. unfold numeric_row in Hn.
  destruct (operand_a_of op os Hos) as [Ha1 Ha2].
  destruct (operand_b_of op op' os Hc Hos) as [Hb1 Hb2].
  destruct (boolean_op (op_operation op)) eqn:Hb; simpl in Hn.
  - destruct (op_operation op =?s "ap") eqn:E; [by apply String.eqb_eq in E; rewrite E in Hb|].
    simplify_eq. pose proof (condition_finite _ _ _ (boolean_finite _ _ _ Hb) Ha) as Hf.
    split; [by apply finite_not_nan|]. intros _. by apply value_set_finite.
  - apply andb_prop in Hn as [[[Hap Hbn]%andb_prop Hout]%andb_prop Hf].
    apply negb_true_iff in Hap. rewrite Hap in Hp. simplify_eq.
    assert (Hr : is_nan result = false).
    { eapply condition_not_nan; [|exact Ha]. apply operation_number; [done|by apply Hb1|].
      destruct (_ =?s "mu").
      - apply andb_prop in Hf as [Hfa Hfb]. by rewrite Ha2, Hb2.
      - apply orb_prop in Hf as [Hfa|Hfb]; [by rewrite Ha2|rewrite Hb2; [by rewrite orb_true_r|done]]. }
    split; [done|]. intros Hin. rewrite Hin in Hout. simpl in Hout. apply negb_true_iff in Hout.
    unfold value_set. by rewrite Hout, Hr.
Qed.

(** What the cache holds, checked. *)
Definition cache_fits {A} (bm : binding_map_t A) : bool :=
  ((length (bm_value_cache bm) =? length (bm_value_valid bm))%nat
   && forallb (fun k => implb (default false (bm_value_valid bm !! k))
        (let v := default d_zero (bm_value_cache bm !! k) in
         if fin k then is_finite v else negb (is_nan v)))
        (seq 0 (length (bm_value_cache bm))))%bool.

Lemma cache_fits_ok {A} (bm : binding_map_t A) :
  cache_fits bm = true -> cache_ok (value_set fin) bm.
Proof.
  unfold cache_fits. intros [Hl%Nat.eqb_eq Hk]%andb_prop. split; [done|]. intros di Hv.
  unfold cache_valid in Hv. rewrite forallb_forall in Hk.
  assert (Hlt : (Z.to_nat di < length (bm_value_cache bm))%nat).
  { rewrite Hl. apply lookup_lt_is_Some. destruct (bm_value_valid bm !! _); [done|discriminate]. }
  specialize (Hk (Z.to_nat di) ltac:(apply in_seq; lia)). by rewrite Hv in Hk.
Qed.

Theorem numeric_values_ok {A} (bm : binding_map_t A) :
  cache_fits bm = true -> forallb numeric_row (bm_ops bm) = true -> values_ok (value_set fin) bm.
Proof.
  intros Hc Ho. split; [by apply cache_fits_ok|]. intros op Hop. apply numeric_row_keeps.
  rewrite forallb_forall in Ho. by apply Ho, list_elem_of_In.
Qed.
End rows.
