(* ===== verification/BmTerm.v ===== *)
(** * Evaluation of an acyclic table terminates

    A table is acyclic when its rows have ranks such that a row that reads the
    output device of another has the larger rank. Each stale row weighs
    [(n + 1) ^ (R - rank)]: recording a row removes more weight than its result
    can put back on the rows that read it, so the total weight bounds the depth of
    the recursion. *)

From S2P Require Import Prelude CLib HesCommon HesQuery Bm BmFacts BmSettle.

(** ** Sums of weights *)
Section mass.
Variable w : nat -> nat.

Fixpoint mass (f : nat -> bool) (n : nat) : nat :=
  match n with
  | O => 0
  | S k => mass f k + (if f k then w k else 0)
  end.

Lemma mass_le f g n :
  (forall i, (i < n)%nat -> f i = true -> g i = true) -> (mass f n <= mass g n)%nat.
Proof.
  induction n as [|n IH]; intros H; simpl; [lia|].
  assert (mass f n <= mass g n)%nat by (apply IH; intros; apply H; [lia|done]).
  destruct (f n) eqn:E; [rewrite (H n) by (done || lia)|]; lia.
Qed.

(** Giving up index [r] pays for every newcomer lighter than [e]. *)
Lemma mass_trade f g n r e :
  (r < n)%nat -> g r = true -> f r = false -> (n * e < w r)%nat ->
  (forall i, (i < n)%nat -> f i = true -> g i = true \/ (w i <= e)%nat) ->
  (mass f n < mass g n)%nat.
Proof.
  intros Hr Hg Hf He H.
  assert (Hk : forall k, (k <= n)%nat ->
    (mass f k + (if decide (r < k)%nat then w r else 0) <= mass g k + k * e)%nat).
  { induction k as [|k IH]; intros Hk; simpl; [destruct (decide (r < 0)%nat); lia|].
    specialize (IH ltac:(lia)). destruct (decide (r = k)) as [<-|Hne].
    - rewrite Hf, Hg. destruct (decide (r < r)%nat), (decide (r < S r)%nat); lia.
    - assert ((if f k then w k else 0) <= (if g k then w k else 0) + e)%nat.
      { destruct (f k) eqn:E; [|lia]. destruct (H k) as [->|]; [lia|done|lia|]. destruct (g k); lia. }
      destruct (decide (r < k)%nat), (decide (r < S k)%nat); lia. }
  specialize (Hk n ltac:(lia)). destruct (decide (r < n)%nat); lia.
Qed.
End mass.

(** ** Acyclic tables *)
Section terminates.
Context {A : Type} (V : nat -> double -> Prop).
Hypothesis V_number : forall k v, V k v -> is_nan v = false.
Variables (rank : nat -> nat) (R n : nat).
Hypothesis rank_bound : forall i, (i < n)%nat -> (rank i <= R)%nat.
Implicit Types bm : binding_map_t A.

Definition acyclic bm : Prop :=
  length (bm_ops bm) = n /\
  forall i j opi opj, bm_ops bm !! i = Some opi -> bm_ops bm !! j = Some opj ->
    in_cache_range (op_out_device_index opi) = true ->
    reads opj (op_out_device_index opi) -> (rank i < rank j)%nat.

(** Checked by comparing every pair of rows. *)
Definition reads_check (op : bm_operation_t) (di : Z) : bool :=
  existsb (fun inp => Z.to_nat (in_device_index inp) =? Z.to_nat di)%nat (op_inputs op).

Definition acyclic_check bm : bool :=
  ((length (bm_ops bm) =? n)%nat
   && forallb (fun i => forallb (fun j =>
        match bm_ops bm !! i, bm_ops bm !! j with
        | Some opi, Some opj =>
            implb (in_cache_range (op_out_device_index opi) && reads_check opj (op_out_device_index opi))
              (rank i <? rank j)%nat
        | _, _ => true
        end) (seq 0 n)) (seq 0 n))%bool.

Lemma acyclic_checked bm : acyclic_check bm = true -> acyclic bm.
Proof.
  unfold acyclic_check. intros [Hl%Nat.eqb_eq Hk]%andb_prop. split; [done|].
  intros i j opi opj Hi Hj Hr (inp & Hin & He). rewrite forallb_forall in Hk.
  pose proof (lookup_lt_Some _ _ _ Hi) as Hil. pose proof (lookup_lt_Some _ _ _ Hj) as Hjl.
  specialize (Hk i ltac:(apply in_seq; lia)). rewrite forallb_forall in Hk.
  specialize (Hk j ltac:(apply in_seq; lia)). rewrite Hi, Hj, Hr in Hk.
  assert (Hrd : reads_check opj (op_out_device_index opi) = true).
  { apply existsb_exists. exists inp. split; [by apply list_elem_of_In|by apply Nat.eqb_eq]. }
  rewrite Hrd in Hk. by apply Nat.ltb_lt.
Qed.

Lemma acyclic_config bm bm' : same_config bm bm' -> acyclic bm -> acyclic bm'.
Proof.
  intros Hsc [Hl Ha]. split; [by rewrite (same_config_length bm bm')|].
  intros i j opi' opj' Hi Hj. symmetry in Hsc.
  destruct (same_config_lookup bm' bm i opi' Hsc Hi) as (opi & Hi' & Hci).
  destruct (same_config_lookup bm' bm j opj' Hsc Hj) as (opj & Hj' & Hcj).
  pose proof (f_equal op_out_device_index Hci) as H1. pose proof (f_equal op_inputs Hcj) as H2.
  simpl in H1, H2. rewrite <- H1. unfold reads. rewrite <- H2. by apply Ha.
Qed.

Definition weight (i : nat) : nat := (S n ^ (R - rank i))%nat.
Definition measure bm : nat := mass weight (row_stale bm) n.

Lemma weight_drop i : exists e, (n * e < weight i)%nat /\
  forall j, (j < n)%nat -> (rank i < rank j)%nat -> (weight j <= e)%nat.
Proof.
  unfold weight. destruct (decide (rank i < R)%nat) as [Hlt|Hge].
  - exists (S n ^ (R - rank i - 1))%nat. split.
    + assert (Hd : (R - rank i = S (R - rank i - 1))%nat) by lia. rewrite Hd at 2.
      rewrite Nat.pow_succ_r'. pose proof (Nat.pow_nonzero (S n) (R - rank i - 1) ltac:(lia)) as He.
      generalize dependent (S n ^ (R - rank i - 1))%nat. intros e He. nia.
    + intros j Hj Hr. apply Nat.pow_le_mono_r; lia.
  - exists 0%nat. split; [pose proof (Nat.pow_nonzero (S n) (R - rank i) ltac:(lia)); lia|].
    intros j Hj Hr. pose proof (rank_bound j Hj). lia.
Qed.

Lemma measure_recorded bm i op os :
  values_ok V bm -> bm_ops bm !! i = Some op -> runs bm op os ->
  (measure (recorded bm i op os) <= measure bm)%nat.
Proof.
  intros Hv Hi Hr. apply mass_le. intros j _ Hj. destruct (decide (i = j)) as [<-|Hne].
  - rewrite recorded_settled in Hj; [done..|]. by eapply operands_numbers.
  - by rewrite recorded_other in Hj.
Qed.

(** Committing a result strictly lowers the measure. *)
Lemma measure_committed bm i op os bm1 r result :
  values_ok V bm -> acyclic bm -> bm_ops bm !! i = Some op -> runs bm op os ->
  inputs_changed op os = true ->
  perform_operation (recorded bm i op os)
    (op_with_last_operands op (od_value <$> os)) os = (bm1, r) ->
  in_cache_range (op_out_device_index op) = true ->
  (measure (bm_cache_set (committed bm1 i op os result) (op_out_device_index op) result)
   < measure bm)%nat.
Proof.
  intros Hv [Hl Ha] Hi Hr Hch Hp Hrange.
  assert (Hin : (i < n)%nat) by (rewrite <- Hl; by eapply lookup_lt_Some).
  assert (Hsc : same_config bm (committed bm1 i op os result)).
  { destruct (same_config_lookup bm bm1 i op) as (op1 & Hi1 & Hc1); [by eapply performed_config|done|].
    etransitivity; [by eapply performed_config|]. by eapply set_row_config. }
  destruct (weight_drop i) as (e & He & Hlight).
  assert (Hnew : forall j, (j < n)%nat ->
    row_stale (bm_cache_set (committed bm1 i op os result) (op_out_device_index op) result) j = true ->
    row_stale (recorded bm i op os) j = true \/ (rank i < rank j)%nat).
  { intros j Hj Hs. destruct (lookup_lt_is_Some_2 (bm_ops bm) j) as [opj Hopj]; [by rewrite Hl|].
    destruct (same_config_lookup bm _ j opj Hsc Hopj) as (opj' & Hopj' & Hcj).
    destruct (decide (Exists (fun inp => Z.to_nat (in_device_index inp) =
                Z.to_nat (op_out_device_index op)) (op_inputs opj'))) as [Hx|Hx].
    - right. apply (Ha i j op opj Hi Hopj Hrange). apply Exists_exists in Hx as (inp & Hinp & Heq).
      exists inp. split; [|done]. pose proof (f_equal op_inputs Hcj) as Hij. simpl in Hij.
      by rewrite <- Hij.
    - left. rewrite <- (committed_stale bm i j op os bm1 r result Hi Hp).
      rewrite <- (cache_set_stale _ (op_out_device_index op) result j opj' Hopj'); [done|].
      intros (inp & Hinp & Heq). apply Hx, Exists_exists. by exists inp. }
  assert (Hii : row_stale (recorded bm i op os) i = false)
    by (apply recorded_settled; [done..|by eapply operands_numbers]).
  apply (mass_trade weight _ _ n i e); [done| | |done|].
  - unfold row_stale, stale. rewrite Hi. apply current_operands_runs in Hr. by rewrite Hr.
  - apply not_true_is_false. intros Hs. destruct (Hnew i Hin Hs) as [Hs'|Hs']; [congruence|lia].
  - intros j Hj Hs. destruct (Hnew j Hj Hs) as [Hs'|Hs']; [|right; by apply Hlight].
    left. destruct (decide (i = j)) as [<-|Hne]; [congruence|]. by rewrite recorded_other in Hs'.
Qed.

Lemma evaluate_op_total rec fuel i bm bus :
  (forall bm bus, values_ok V bm -> acyclic bm -> (measure bm < fuel)%nat ->
     exists st, rec bm bus = Some st /\ (measure (fst st) <= measure bm)%nat) ->
  values_ok V bm -> acyclic bm -> (measure bm < S fuel)%nat ->
  exists st, evaluate_op rec i (bm, bus) = Some st /\ (measure (fst st) <= measure bm)%nat.
Proof.
  intros Hrec Hv Ha Hm.
  destruct (evaluate_op_cases rec bm bus i)
    as [Hskip|op os Hi Hr Hch|op os bm1 Hi Hr Hch Hbm1|op os bm1 r result Hi Hr Hch Hp Hadj Hl Hau].
  - by exists (bm, bus).
  - eexists. split; [done|]. by apply measure_recorded.
  - eexists. split; [done|]. subst bm1. simpl.
    etransitivity; [|by apply (measure_recorded bm i op os)].
    apply mass_le. intros j _. by rewrite performed_stale.
  - pose proof (measure_committed bm i op os bm1 (Some r) result Hv Ha Hi Hr Hch Hp) as Hlt.
    assert (Hsc : same_config bm (committed bm1 i op os result)).
    { destruct (same_config_lookup bm bm1 i op) as (op1 & Hi1 & Hc1); [by eapply performed_config|done|].
      etransitivity; [by eapply performed_config|]. by eapply set_row_config. }
    unfold commit_output. fold (committed bm1 i op os result). simpl op_out_device_index.
    simpl op_out_dest_object. fold (in_cache_range (op_out_device_index op)).
    destruct (in_cache_range (op_out_device_index op)) eqn:Hcr0.
    + specialize (Hlt eq_refl).
      destruct (Hrec (bm_cache_set (committed bm1 i op os result) (op_out_device_index op) result) bus)
        as ([bm2 bus2] & -> & Hle).
      * apply cache_set_values; [by eapply committed_values|by eapply committed_value_set].
      * eapply acyclic_config; [|exact Ha]. etransitivity; [exact Hsc|apply cache_set_config].
      * lia.
      * simpl in Hle. destruct (op_out_dest_object op =?s ""); eexists; (split; [done|simpl; lia]).
    + assert (Hle : (measure (committed bm1 i op os result) <= measure bm)%nat).
      { etransitivity; [|by apply (measure_recorded bm i op os)].
        apply mass_le. intros j _. by erewrite committed_stale by done. }
      destruct (op_out_dest_object op =?s ""); eexists; (split; [done|done]).
Qed.

Lemma evaluate_all_total fuel bm bus :
  values_ok V bm -> acyclic bm -> (measure bm < fuel)%nat ->
  exists st, bm_evaluate_all fuel bm bus = Some st /\ (measure (fst st) <= measure bm)%nat.
Proof.
  revert bm bus. induction fuel as [|fuel IH]; intros bm bus Hv Ha Hm; [lia|].
  cbn [bm_evaluate_all].
  destruct (for_each_total
    (fun st => good V bm (fst st) /\ (measure (fst st) <= measure bm)%nat)
    (evaluate_op (bm_evaluate_all fuel)) (seq 0 (length (bm_ops bm))) (bm, bus))
    as (st & Hst & _ & Hle); [|by split|by exists st].
  intros i [bm1 bus1] _ [[Hsc Hv1] Hle]. simpl in *.
  destruct (evaluate_op_total (bm_evaluate_all fuel) fuel i bm1 bus1) as (st & He & Hm');
    [by intros; apply IH|done|by eapply acyclic_config|lia|].
  exists st. split; [done|]. split; [|lia].
  eapply good_trans; [exact Hsc|].
  eapply (evaluate_op_good V (bm_evaluate_all fuel) i bm1 bus1 st); [|done|done].
  intros. by eapply evaluate_all_good.
Qed.

Lemma mass_bound w f b m : (forall i, (i < m)%nat -> (w i <= b)%nat) -> (mass w f m <= m * b)%nat.
Proof.
  induction m as [|m IH]; intros H; simpl; [lia|].
  assert (mass w f m <= m * b)%nat by (apply IH; intros; apply H; lia).
  specialize (H m ltac:(lia)). destruct (f m); lia.
Qed.

Lemma measure_bound bm : (measure bm <= n * S n ^ R)%nat.
Proof. apply mass_bound. intros i Hi. apply Nat.pow_le_mono_r; lia. Qed.
End terminates.

(** More fuel does not change a result. *)
Section fuel.
Context {A : Type}.
Implicit Types bm : binding_map_t A.

Lemma commit_output_mono f g bm bus i op r :
  (forall bm bus, opt_le (f bm bus) (g bm bus)) ->
  opt_le (commit_output f bm bus i op r) (commit_output g bm bus i op r).
Proof.
  intros H x. unfold commit_output. destruct (_ && _)%bool; [|done].
  destruct (f _ _) as [[bm1 bus1]|] eqn:E; [|done]. by rewrite (H _ _ _ E).
Qed.

Lemma evaluate_op_mono f g i st :
  (forall bm bus, opt_le (f bm bus) (g bm bus)) ->
  opt_le (evaluate_op (A := A) f i st) (evaluate_op g i st).
Proof.
  intros H x. destruct st as [bm bus]. unfold evaluate_op.
  repeat (split_match; try done); by apply commit_output_mono.
Qed.

Lemma evaluate_all_mono f g bm bus :
  (f <= g)%nat -> opt_le (bm_evaluate_all f bm bus) (bm_evaluate_all g bm bus).
Proof.
  revert g bm bus. induction f as [|f IH]; intros [|g] bm bus Hle; [done|done|lia|].
  cbn [bm_evaluate_all]. apply for_each_mono. intros i st _. apply evaluate_op_mono.
  intros. apply IH. lia.
Qed.
End fuel.
