(* ===== verification/BmProps.v ===== *)
(** * The binding map: its properties

    The claims about src/src/bm/bm.c, with concrete tables as witnesses. The first
    table is a comparison row that feeds a second row through the internal device
    3, which drives an actuator; the others are the corner cases. *)

From S2P Require Import Prelude CLib HesCommon HesQuery Bm BmFacts BmSettle BmValues BmTerm.

(** ** Example tables *)

Definition ex_input (di : Z) (src ap : string) : bm_input_t := mk_input di src "pt" "" ap.

Definition ex_row (opc : string) (ins : list bm_input_t) (out : Z) (dest code : string)
  : bm_operation_t :=
  mk_op 1 true opc "ot1" ins [mk_param d_zero false; mk_param d_zero false] [] out dest "" "" code ""
    None None.

Definition ex_map (ops : list bm_operation_t) : binding_map_t unit :=
  bm_with_ops (bm_init tt) ops.

Definition ex_event (path payload : string) : hes_clme_msg_t :=
  hes_msg_set_payload_str (hes_msg_set_path (msg_with_verb HES_VERB_EVENT hes_msg_init) path) payload.

Definition ex_bus : hes_bus_t := mk_bus [] (fun _ => mk_reading None 0).

(** Device 1 above zero switches on device 3 (internal), which drives "/lamp". *)
Definition ex_chain : binding_map_t unit :=
  ex_map [ex_row "gt" [ex_input 1 "/t" ""] 3 "" "o1"; ex_row "gt" [ex_input 3 "/it" ""] 0 "/lamp" "o2"].

(** The table of src/tests/data/bm_temperature_controlled_light.xml: the sensor of
    device 1 above 30 sets the internal device 3, and its product with the dimmer of
    device 4 is the level of the light, device 2. *)
Definition ex_light : binding_map_t unit :=
  ex_map
    [mk_op 1 true "gt" "ot1" [mk_input 1 "/lx/ob/uo/hv/ts/as/cv" "pt" "fl" "pt"]
       [mk_param d_zero true; mk_param (d_of_Z 30) false] [1; 0] 3 "" "up" "pt" "op1" "fl" None None;
     mk_op 2 true "mu" "ot2"
       [mk_input 3 "" "pt" "fl" "pt"; mk_input 4 "/lx/ob/uo/ui/ud/da/cv" "pt" "fl" "pt"]
       [mk_param d_zero true; mk_param d_zero true] [] 2 "/lx/ob/uo/li/ll/da/cv" "up" "pt" "op1" "fl"
       None None].

(** Devices 3 and 4 hold finite numbers; a sensor may report any number. *)
Definition light_finite (k : nat) : bool := ((k =? 3) || (k =? 4))%nat.

(** A table of comparisons: every device holds a number. *)
Definition numbers : nat -> double -> Prop := value_set (fun _ => false).

Lemma numbers_number k v : numbers k v -> is_nan v = false.
Proof. apply value_set_number. Qed.

Lemma boolean_row_keeps {A} (bm : binding_map_t A) op :
  boolean_op (op_operation op) = true -> row_keeps numbers bm op.
Proof. intros Hb. apply numeric_row_keeps. unfold numeric_row. by rewrite Hb. Qed.

(** ** Authorization *)

Section authorization.
Context {A : Type}.
Implicit Types bm : binding_map_t A.

(** C1: whatever message is handled, every message put on the bus while it is
    handled is the PUT of an enabled row of the map and, unless authorization is
    switched off, no input of the row is blocked, its output is neither blocked nor
    partial, and if one of its inputs demands authorization the host's hook granted
    the row's address to that very message; and the rows' configuration is unchanged
    afterwards. *)
Theorem processor_sends_authorized_only fuel bm bus m bm' bus' :
  bm_processor_handle fuel bm bus m = Some (bm', bus') ->
  op_config <$> bm_ops bm' = op_config <$> bm_ops bm /\
  exists ms, bus_extends bus bus' ms /\
    Forall (allowed_put (bm_with_current_msg bm (Some m))) ms.
Proof.
  intros H. destruct (processor_handle_safe _ _ _ _ _ _ H) as [Hc (ms & Hb & Hms)].
  split; [done|]. exists ms. split; [done|]. eapply Forall_impl; [exact Hms|apply authorized_put_allowed].
Qed.

(** An output that is not authorized is not committed: the value cache, the
    previous output of the row and the bus are what they were, and no other row
    changes; the row only remembers the operands it was evaluated on. *)
Theorem denied_output_commits_nothing rec bm bus i op operands :
  bm_ops bm !! i = Some op -> runs bm op operands ->
  op_out_dest_object op <> "" -> output_authorized bm op = false ->
  exists bm', evaluate_op rec i (bm, bus) = Some (bm', bus) /\
    bm_value_cache bm' = bm_value_cache bm /\ bm_value_valid bm' = bm_value_valid bm /\
    bm_ops bm' = <[i := op_with_last_operands op (od_value <$> operands)]> (bm_ops bm).
Proof.
  intros Hi Hr Hd Ha.
  destruct (evaluate_op_cases rec bm bus i)
    as [Hskip|op' os Hi' Hr' Hch|op' os bm1 Hi' Hr' Hch Hbm1
       |op' os bm1 r result Hi' Hr' Hch Hp Hadj Hl [Hau|Hau]].
  1: by destruct (Hskip op operands).
  all: rewrite Hi in Hi'; apply Some_inj in Hi'; subst op'; try congruence;
    assert (os = operands) as ->
      by (apply current_operands_runs in Hr, Hr'; congruence);
    eexists; (split; [reflexivity|]).
  1: done.
  subst bm1. destruct (performed_state (recorded bm i op operands)
    (op_with_last_operands op (od_value <$> operands)) operands) as (-> & -> & ->). done.
Qed.
End authorization.

(** An authorizer that accepts one credential, and a row that asks it. *)
Definition ex_authorize (m : hes_clme_msg_t) (at_address : string) : bool :=
  (msg_cred_info m =?s "alice;key") && (at_address =?s "/lx/ob/bm/ot1/o1/at").

Definition ex_guarded : binding_map_t unit :=
  bm_with_auth_authorize
    (ex_map [ex_row "gt" [ex_input 1 "/cmd" "au"] 0 "/lamp" "o1"]) (Some ex_authorize).

Definition with_cred (cred : string) (m : hes_clme_msg_t) : hes_clme_msg_t :=
  mk_msg (msg_path m) (msg_verb m) (msg_device_index m) (msg_query m) (msg_payload_len m)
    (msg_payload m) cred (msg_user_name m) (msg_timestamp_ns m).

Lemma processor_sends_authorized_only_witness :
  match bm_processor_handle 5 ex_guarded ex_bus (with_cred "alice;key" (ex_event "/cmd" "1")) with
  | Some (bm', bus') =>
      length (bus_sent bus') = 1%nat /\ op_config <$> bm_ops bm' = op_config <$> bm_ops ex_guarded /\
      exists ms, bus_extends ex_bus bus' ms /\
        Forall (allowed_put (bm_with_current_msg ex_guarded
          (Some (with_cred "alice;key" (ex_event "/cmd" "1"))))) ms
  | None => False
  end.
Proof.
  destruct (bm_processor_handle _ _ _ _) as [[bm' bus']|] eqn:E; [|vm_compute in E; discriminate].
  split; [vm_compute in E; by simplify_eq|apply (processor_sends_authorized_only _ _ _ _ _ _ E)].
Defined.

(** The guarded row after its input was stored for a sender without a credential. *)
Definition ex_refused : binding_map_t unit :=
  bm_with_current_msg (bm_cache_set ex_guarded 1 d_one) (Some (ex_event "/cmd" "1")).

Lemma denied_output_commits_nothing_witness :
  exists bm', evaluate_op (bm_evaluate_all 3) 0 (ex_refused, ex_bus) = Some (bm', ex_bus) /\
    bm_value_cache bm' = bm_value_cache ex_refused /\
    bm_value_valid bm' = bm_value_valid ex_refused /\
    bm_ops bm' = <[0%nat := op_with_last_operands (ex_row "gt" [ex_input 1 "/cmd" "au"] 0 "/lamp" "o1")
      [d_one]]> (bm_ops ex_refused).
Proof.
  apply (denied_output_commits_nothing (bm_evaluate_all 3) ex_refused ex_bus 0
    (ex_row "gt" [ex_input 1 "/cmd" "au"] 0 "/lamp" "o1") [mk_operand 1 "/cmd" d_one]);
    [reflexivity|repeat split; discriminate|discriminate|reflexivity].
Defined.

(** ** Termination and settling *)

Section termination.
Context {A : Type} (V : nat -> double -> Prop).
Implicit Types bm : binding_map_t A.

(** C3: take a table whose rows have ranks such that a row that reads the output
    device of another has the larger rank, and sets of numbers without NaN, one for
    each device, such that every value the cache holds belongs to its device's set
    and every row computes, from values of its inputs' sets, a number of its output
    device's set. Then the recursive evaluation ends: every fuel beyond a bound that
    depends on the number of rows and the largest rank only gives the same result.
    In that result no row is stale (its operands are those of its last run), so
    evaluating again sends nothing and changes no value. *)
Theorem evaluation_terminates_and_settles (rank : nat -> nat) (R n : nat) bm bus
  (V_number : forall k v, V k v -> is_nan v = false) :
  (forall i, (i < n)%nat -> (rank i <= R)%nat) -> acyclic rank n bm -> values_ok V bm ->
  exists bm' bus',
    (forall fuel, (n * S n ^ R < fuel)%nat -> bm_evaluate_all fuel bm bus = Some (bm', bus')) /\
    (forall i, row_stale bm' i = false) /\
    forall fuel, (0 < fuel)%nat -> exists bm'',
      bm_evaluate_all fuel bm' bus' = Some (bm'', bus') /\
      bm_value_cache bm'' = bm_value_cache bm' /\ bm_value_valid bm'' = bm_value_valid bm'.
Proof.
  intros HR Ha Hv. pose proof (measure_bound rank R n bm) as Hmb.
  destruct (evaluate_all_total V V_number rank R n HR
    (S (n * S n ^ R)) bm bus Hv Ha ltac:(lia)) as ([bm' bus'] & He & _).
  pose proof (evaluate_all_settles V V_number _ _ _ _ Hv He) as Hs.
  pose proof (evaluate_all_good V _ _ _ _ Hv He) as [_ Hv']. simpl in Hs, Hv'.
  exists bm', bus'. split; [|split; [done|]].
  - intros fuel Hf. eapply evaluate_all_mono; [|exact He]. lia.
  - intros [|fuel] Hf; [lia|]. cbn [bm_evaluate_all].
    destruct (for_each_total
      (fun st => snd st = bus' /\ bm_value_cache (fst st) = bm_value_cache bm' /\
         bm_value_valid (fst st) = bm_value_valid bm' /\ values_ok V (fst st) /\
         forall j, row_stale (fst st) j = false)
      (evaluate_op (bm_evaluate_all fuel)) (seq 0 (length (bm_ops bm'))) (bm', bus'))
      as ([bm2 bus2] & H2 & Hb & Hc & Hva & _); [|done|].
    + intros i [bm1 bus1] _ (Hb & Hc & Hva & Hok & Hst). simpl in *. subst bus1.
      destruct (settled_evaluate V V_number (bm_evaluate_all fuel) i bm1 bus' Hok Hst)
        as (bm2 & H2 & Hc2 & Hv2 & [_ Hok2] & Hst2).
      exists (bm2, bus'). split; [done|]. simpl. by rewrite Hc2, Hv2.
    + simpl in *. subst bus2. by exists bm2.
Qed.
End termination.

(** The light's table once the sensor reported 31 and the dimmer 0.5. *)
Definition ex_dimmed : binding_map_t unit :=
  bm_cache_set (bm_cache_set ex_light 1 (d_of_Z 31)) 4 (atof "0.5").

Lemma ex_dimmed_acyclic : acyclic (fun i => i) 2 ex_dimmed.
Proof. apply acyclic_checked. by vm_compute. Qed.

Lemma boolean_values_ok {A} (bm : binding_map_t A) :
  cache_fits (fun _ => false) bm = true ->
  forallb (fun op => boolean_op (op_operation op)) (bm_ops bm) = true ->
  values_ok numbers bm.
Proof.
  intros Hv Ho. split; [by apply cache_fits_ok|]. intros op Hop. apply boolean_row_keeps.
  rewrite forallb_forall in Ho. by apply Ho, list_elem_of_In.
Qed.

Lemma evaluation_terminates_and_settles_witness :
  exists bm' bus',
    (forall fuel, (6 < fuel)%nat -> bm_evaluate_all fuel ex_dimmed ex_bus = Some (bm', bus')) /\
    (forall i, row_stale bm' i = false) /\
    forall fuel, (0 < fuel)%nat -> exists bm'',
      bm_evaluate_all fuel bm' bus' = Some (bm'', bus') /\
      bm_value_cache bm'' = bm_value_cache bm' /\ bm_value_valid bm'' = bm_value_valid bm'.
Proof.
  apply (evaluation_terminates_and_settles (value_set light_finite) (fun i => i) 1 2 ex_dimmed ex_bus);
    [apply value_set_number|intros; lia|apply ex_dimmed_acyclic|].
  apply numeric_values_ok; vm_compute; reflexivity.
Defined.

(** And what it commands: the bulb is set to half. *)
Example ex_dimmed_sends :
  (fun st => msg_payload <$> bus_sent (snd st)) <$> bm_evaluate_all 7 ex_dimmed ex_bus = Some ["0.5"].
Proof. by vm_compute. Qed.

(** *** Where the recursion does not end

    A row that adds, with the internal device 2 as its output. *)
Definition nan_row : bm_operation_t := ex_row "ad" [ex_input 1 "/t" ""] 2 "" "o1".
Definition nan_map : binding_map_t unit := ex_map [nan_row].

(** The map after one more run of the row on the value nan. *)
Definition nan_again : binding_map_t unit :=
  let nan := S754_nan in
  bm_cache_set (bm_cache_set (bm_with_current_msg
    (ex_map [op_with_last_output (op_with_last_operands nan_row [nan]) nan])
    (Some (ex_event "/t" "nan"))) 1 nan) 2 nan.

Lemma nan_step fuel bus :
  bm_evaluate_all (S fuel) nan_again bus =
  match bm_evaluate_all fuel nan_again bus with
  | Some st => Some st
  | None => None
  end.
Proof.
  cbn [bm_evaluate_all]. change (seq 0 (length (bm_ops nan_again))) with [0%nat]. cbn [for_each].
  assert (H : forall rec, evaluate_op rec 0 (nan_again, bus) =
    match rec nan_again bus with Some (b, u) => Some (b, u) | None => None end) by reflexivity.
  rewrite H. by destruct (bm_evaluate_all fuel nan_again bus) as [[]|].
Qed.

Lemma nan_loops fuel bus : bm_evaluate_all fuel nan_again bus = None.
Proof. induction fuel as [|fuel IH]; [done|]. by rewrite nan_step, IH. Qed.

(** A report whose payload is "nan" makes the recursion of bm_evaluate_all
    endless on a one-row, acyclic table: change detection compares with [==], so a
    row that has seen a NaN counts as changed for ever. *)
Theorem nan_report_never_terminates :
  acyclic (fun i => i) 1 nan_map /\
  forall fuel, bm_processor_handle fuel nan_map ex_bus (ex_event "/t" "nan") = None.
Proof.
  split.
  - split; [done|]. intros [|i] [|j] opi opj Hi Hj; simpl in Hi, Hj; simplify_eq. intros _.
    intros (inp & Hin%list_elem_of_singleton & Heq). subst inp. simpl in Heq. lia.
  - intros [|fuel]; [reflexivity|].
    assert (H : bm_processor_handle (S fuel) nan_map ex_bus (ex_event "/t" "nan") =
      match bm_evaluate_all fuel nan_again ex_bus with Some st => Some st | None => None end).
    { assert (H1 : bm_processor_handle (S fuel) nan_map ex_bus (ex_event "/t" "nan") =
        bm_evaluate_all (S fuel) (bm_cache_set (bm_with_current_msg nan_map
          (Some (ex_event "/t" "nan"))) 1 S754_nan) ex_bus) by reflexivity.
      rewrite H1. cbn [bm_evaluate_all]. change (seq 0 _) with [0%nat]. cbn [for_each].
      assert (H2 : forall rec, evaluate_op rec 0 (bm_cache_set (bm_with_current_msg nan_map
          (Some (ex_event "/t" "nan"))) 1 S754_nan, ex_bus) =
        match rec nan_again ex_bus with Some (b, u) => Some (b, u) | None => None end) by reflexivity.
      rewrite H2. by destruct (bm_evaluate_all fuel nan_again ex_bus) as [[]|]. }
    by rewrite H, nan_loops.
Qed.

(** Operands are recorded before the output gates. A command whose sender is
    not authorized is refused, but its operands stay recorded, so the same command
    from an authorized sender is then swallowed; without the refused one it would
    have been sent. *)
Theorem refused_command_masks_authorized_one :
  let refused := ex_event "/cmd" "1" in
  let authorized := with_cred "alice;key" (ex_event "/cmd" "1") in
  let handle bm m := bm_processor_handle 5 bm ex_bus m in
  let sent (r : option (binding_map_t unit * hes_bus_t)) := bus_sent ∘ snd <$> r in
  (length <$> sent (handle ex_guarded authorized)) = Some 1%nat /\
  sent (handle ex_guarded refused) = Some [] /\
  (let* (bm, _) := handle ex_guarded refused in sent (handle bm authorized)) = Some [].
Proof. by vm_compute. Qed.
