(* ===== verification/BmLoad.v ===== *)
(** * The binding map: loading, subscribing and taking reports in

    What the loader guarantees of the map it builds (the capacities of bm.h, the
    buffer sizes of its structs), which sources the controller subscribes to, how
    authorType values are written, and how a report reaches the value cache. *)

From S2P Require Import Prelude CLib HesCommon HesQuery Bm BmFacts.

(** ** Maps within the limits of bm.h *)

Definition fits (n : nat) (s : string) : Prop := (String.length s < n)%nat.
Definition u32 (x : Z) : Prop := 0 <= x < 2 ^ 32.

Record input_fits (i : bm_input_t) : Prop := {
  if_device : u32 (in_device_index i);
  if_source : fits HES_PATH_MAX (in_source_object i);
  if_condition : fits 4 (in_condition i);
  if_author : fits 4 (in_author_type i);
  if_accompany : fits 4 (in_accompany_op i);
}.

Record op_fits (o : bm_operation_t) : Prop := {
  of_ref : u32 (op_ref_id o);
  of_operation : fits 4 (op_operation o);
  of_table : fits 8 (op_table_code o);
  of_inputs : (length (op_inputs o) <= BM_MAX_INPUTS)%nat /\ Forall input_fits (op_inputs o);
  of_params : (length (op_input_params o) <= BM_MAX_INPUTS)%nat;
  of_output_params : (length (op_output_params o) <= 2)%nat;
  of_device : u32 (op_out_device_index o);
  of_dest : fits HES_PATH_MAX (op_out_dest_object o);
  of_method : fits 4 (op_out_method o);
  of_adjustment : fits 4 (op_out_adjustment o);
  of_code : fits 8 (op_out_code o);
  of_author : fits 4 (op_out_author_type o);
}.

Record addr_fits (a : bm_addr_t) : Prop := {
  af_device : u32 (ad_device_index a);
  af_module : u32 (ad_module_ref_index a);
  af_net : u32 (ad_net_ref_index a);
  af_address : fits 64 (ad_address a);
}.

Record bm_fits {A} (bm : binding_map_t A) : Prop := {
  bf_ops : (length (bm_ops bm) <= BM_MAX_OPS)%nat /\ Forall op_fits (bm_ops bm);
  bf_addrs : (length (bm_addrs bm) <= BM_MAX_ADDRS)%nat /\ Forall addr_fits (bm_addrs bm);
  bf_cache : length (bm_value_cache bm) = S BM_MAX_ADDRS;
  bf_valid : length (bm_value_valid bm) = S BM_MAX_ADDRS;
}.

Lemma uint32_u32 x : u32 (uint32 x).
Proof. apply (wrap_u_range 32). lia. Qed.

Lemma strlcpy_fits n s : (0 < n)%nat -> fits n (hes_strlcpy n s).
Proof. apply hes_strlcpy_fits. Qed.

Lemma fold_left_inv {B C} (I : C -> Prop) (f : C -> B -> C) l c :
  I c -> (forall c' b, b ∈ l -> I c' -> I (f c' b)) -> I (fold_left f l c).
Proof.
  revert c. induction l as [|b l IH]; intros c Hc Hf; simpl; [done|].
  apply IH; [by apply Hf; [left|]|]. intros c' b' Hb. apply Hf. by right.
Qed.

(** Closes the goals about one loaded field. *)
Ltac loaded :=
  first [assumption | apply uint32_u32 | by apply strlcpy_fits; unfold HES_PATH_MAX; lia
        | unfold fits, u32, HES_PATH_MAX; simpl; lia].

Section load_lemmas.
Context {D N : Type} {lib : LibXml D N} {A : Type}.
Abbreviation elem := (hes_query_elem_t D N).

Lemma load_data_inv {T} (I : T -> Prop) bufsz (datum : string -> string -> T -> T) (e : elem) t :
  I t -> (forall tc buf t', I t' -> I (datum tc buf t')) -> I (load_data bufsz datum e t).
Proof.
  intros Ht Hd. unfold load_data. apply fold_left_inv; [done|]. intros t' d _ Ht'.
  destruct (hes_query_elem_attr d "transCode"); [by apply Hd|done].
Qed.

Lemma addressing_datum_fits tc buf a : addr_fits a -> addr_fits (addressing_datum tc buf a).
Proof. intros []. unfold addressing_datum. repeat split_match; constructor; simpl; loaded. Qed.

Lemma input_datum_fits tc buf i : input_fits i -> input_fits (input_datum tc buf i).
Proof. intros []. unfold input_datum. repeat split_match; constructor; simpl; loaded. Qed.

Lemma row_datum_fits tc buf o : op_fits o -> op_fits (row_datum tc buf o).
Proof. intros []. unfold row_datum. repeat split_match; constructor; simpl; loaded. Qed.

Lemma output_datum_fits tc buf o : op_fits o -> op_fits (output_datum tc buf o).
Proof. intros []. unfold output_datum. repeat split_match; constructor; simpl; loaded. Qed.

Lemma input_parameter_datum_fits tc buf o :
  op_fits o -> op_fits (input_parameter_datum tc buf o).
Proof.
  intros []. unfold input_parameter_datum. destruct (_ || _)%bool eqn:E; [done|].
  bool_hyps. apply Nat.leb_gt in H0. constructor; simpl; try loaded. rewrite length_app. simpl. lia.
Qed.

Lemma output_parameter_datum_fits tc buf o :
  op_fits o -> op_fits (output_parameter_datum tc buf o).
Proof.
  intros []. unfold output_parameter_datum. destruct (_ || _)%bool eqn:E; [done|].
  bool_hyps. apply Nat.leb_gt in H0. constructor; simpl; try loaded. rewrite length_app. simpl. lia.
Qed.

Lemma parse_inputs_fits (e : elem) o : op_fits o -> op_fits (parse_inputs e o).
Proof.
  intros []. unfold parse_inputs. destruct (BM_MAX_INPUTS <=? _)%nat eqn:E; [done|].
  apply Nat.leb_gt in E. destruct of_inputs0. constructor; simpl; try loaded.
  rewrite length_app. simpl. split; [lia|]. apply Forall_app. split; [done|].
  constructor; [|constructor].
  apply (load_data_inv input_fits); [constructor; simpl; loaded|apply input_datum_fits].
Qed.

Lemma parse_outputs_fits (e : elem) o : op_fits o -> op_fits (parse_outputs e o).
Proof.
  intros Ho. unfold parse_outputs. apply (load_data_inv op_fits); [|apply output_datum_fits].
  destruct Ho, (hes_query_elem_attr e "transCode"); constructor; simpl; loaded.
Qed.

Lemma load_group_inv (I : bm_operation_t -> Prop) (parent : elem) name loader o :
  (forall e o', I o' -> I (loader e o')) -> I o -> I (load_group parent name loader o).
Proof. intros Hl Ho. unfold load_group. apply fold_left_inv; [done|]. intros; by apply Hl. Qed.

Lemma op_empty_fits : op_fits op_empty.
Proof. constructor; simpl; try split; try loaded; try constructor; lia. Qed.

Lemma parse_operation_table_fits (e : elem) (bm : binding_map_t A) :
  bm_fits bm -> bm_fits (parse_operation_table e bm).
Proof.
  intros []. unfold parse_operation_table. destruct (BM_MAX_OPS <=? _)%nat eqn:E; [done|].
  apply Nat.leb_gt in E. destruct bf_ops0. constructor; try done. simpl.
  rewrite length_app. simpl. split; [lia|]. apply Forall_app. split; [done|].
  constructor; [|constructor].
  apply load_group_inv; [intros; by apply parse_outputs_fits|].
  apply load_group_inv.
  { intros e' o' Ho'. unfold parse_output_parameters. apply load_data_inv; [done|intros; by apply output_parameter_datum_fits]. }
  apply load_group_inv.
  { intros e' o' Ho'. unfold parse_input_parameters. apply load_data_inv; [done|intros; by apply input_parameter_datum_fits]. }
  apply load_group_inv; [intros; by apply parse_inputs_fits|].
  apply (load_data_inv op_fits); [|intros; by apply row_datum_fits].
  destruct op_empty_fits, (hes_query_elem_attr e "transCode"); constructor; simpl; loaded.
Qed.

Lemma parse_addressing_table_fits (e : elem) (bm : binding_map_t A) :
  bm_fits bm -> bm_fits (parse_addressing_table e bm).
Proof.
  intros []. unfold parse_addressing_table. destruct (BM_MAX_ADDRS <=? _)%nat eqn:E; [done|].
  apply Nat.leb_gt in E. destruct bf_addrs0. constructor; try done. simpl.
  rewrite length_app. simpl. split; [lia|]. apply Forall_app. split; [done|].
  constructor; [|constructor].
  apply (load_data_inv addr_fits); [constructor; simpl; loaded|intros; by apply addressing_datum_fits].
Qed.

(** Each table element adds one row until the map is full. *)
Lemma rows_added es (bm : binding_map_t A) :
  length (bm_ops (fold_left (fun b (e : elem) => parse_operation_table e b) es bm)) =
  Nat.max (length (bm_ops bm)) (Nat.min BM_MAX_OPS (length (bm_ops bm) + length es)).
Proof.
  revert bm. induction es as [|e es IH]; intros bm; cbn [fold_left length]; [lia|].
  rewrite IH. unfold parse_operation_table. destruct (BM_MAX_OPS <=? _)%nat eqn:E.
  - apply Nat.leb_le in E. lia.
  - apply Nat.leb_gt in E. cbn [bm_ops bm_addrs bm_with_ops bm_with_addrs]. rewrite length_app. cbn [length]. lia.
Qed.

Lemma addrs_added es (bm : binding_map_t A) :
  length (bm_addrs (fold_left (fun b (e : elem) => parse_addressing_table e b) es bm)) =
  Nat.max (length (bm_addrs bm)) (Nat.min BM_MAX_ADDRS (length (bm_addrs bm) + length es)).
Proof.
  revert bm. induction es as [|e es IH]; intros bm; cbn [fold_left length]; [lia|].
  rewrite IH. unfold parse_addressing_table. destruct (BM_MAX_ADDRS <=? _)%nat eqn:E.
  - apply Nat.leb_le in E. lia.
  - apply Nat.leb_gt in E. cbn [bm_ops bm_addrs bm_with_ops bm_with_addrs]. rewrite length_app. cbn [length]. lia.
Qed.

Lemma operation_tables_keep_addrs es (bm : binding_map_t A) :
  bm_addrs (fold_left (fun b (e : elem) => parse_operation_table e b) es bm) = bm_addrs bm.
Proof.
  apply (fold_left_inv (fun b => bm_addrs b = bm_addrs bm)); [done|]. intros b e _ H.
  unfold parse_operation_table. by destruct (BM_MAX_OPS <=? _)%nat.
Qed.

Lemma addressing_tables_keep_ops es (bm : binding_map_t A) :
  bm_ops (fold_left (fun b (e : elem) => parse_addressing_table e b) es bm) = bm_ops bm.
Proof.
  apply (fold_left_inv (fun b => bm_ops b = bm_ops bm)); [done|]. intros b e _ H.
  unfold parse_addressing_table. by destruct (BM_MAX_ADDRS <=? _)%nat.
Qed.

Lemma load_tables_fits ctx (bm : binding_map_t A) :
  bm_fits bm ->
  bm_fits (bm_load_tables ctx "addressingTable" parse_addressing_table
             (bm_load_tables ctx "operationTable" parse_operation_table bm)).
Proof.
  intros Hbm. unfold bm_load_tables. apply fold_left_inv; [apply fold_left_inv; [done|]|].
  - intros; by apply parse_operation_table_fits.
  - intros; by apply parse_addressing_table_fits.
Qed.

(** The nodes of that name in the document. *)
Definition tables_named {laws : LibXmlLaws D N lib} (ctx : hes_query_ctx_t D N) name : list N :=
  filter (fun n => named_element name n = true) (xml_descendants (qc_doc ctx)).

(** C37: loading a document into a map within the limits of bm.h keeps it within
    them, whatever the document holds: at most 32 rows of at most 4 inputs, at most
    64 addresses, texts that fit their buffers, 32-bit indices. An unreadable file
    gives -1 and the map as it was; a readable one gives 0, and one row per
    operationTable element and one address per addressingTable element, wherever
    they nest, up to the capacity. *)
Theorem load_xml_fits {laws : LibXmlLaws D N lib} (bm : binding_map_t A) path :
  bm_fits bm ->
  bm_fits (fst (bm_load_xml bm path)) /\
  match hes_query_open path with
  | None => bm_load_xml bm path = (bm, -1)
  | Some ctx =>
      snd (bm_load_xml bm path) = 0 /\
      length (bm_ops (fst (bm_load_xml bm path))) =
        Nat.min BM_MAX_OPS (length (bm_ops bm) + length (tables_named ctx "operationTable")) /\
      length (bm_addrs (fst (bm_load_xml bm path))) =
        Nat.min BM_MAX_ADDRS (length (bm_addrs bm) + length (tables_named ctx "addressingTable"))
  end.
Proof.
  intros Hbm. unfold bm_load_xml. destruct (hes_query_open path) as [ctx|] eqn:Ho; [|done].
  assert (Hroot : xmlDocGetRootElement (qc_doc ctx) = Some (qc_root ctx)).
  { unfold hes_query_open in Ho. destruct (xmlParseFile path) as [doc|]; [|done].
    destruct (xmlDocGetRootElement doc) as [r|] eqn:Er; simpl in Ho; simplify_eq. done. }
  split; [by apply load_tables_fits|]. destruct Hbm as [[] [] ? ?].
  cbn [fst snd]. unfold bm_load_tables. split; [done|].
  rewrite addressing_tables_keep_ops, rows_added, addrs_added, operation_tables_keep_addrs.
  pose proof (f_equal length (find_all_plain ctx "operationTable" eq_refl Hroot)) as Hlo.
  pose proof (f_equal length (find_all_plain ctx "addressingTable" eq_refl Hroot)) as Hla.
  rewrite length_fmap in Hlo, Hla. unfold tables_named. rewrite Hlo, Hla. lia.
Qed.
End load_lemmas.

Lemma bm_init_fits {A} (c : A) : bm_fits (bm_init c).
Proof. constructor; simpl; repeat split; try constructor; unfold BM_MAX_OPS, BM_MAX_ADDRS; lia. Qed.

(** *** An example document *)
Definition ex_data (tc v : string) : Tree.node := Tree.Elem "data" [("transCode", tc)] [Tree.Text v].

Definition ex_doc : Tree.node :=
  Tree.Elem "lexPublish" [] [Tree.Elem "bindingMap" []
    [Tree.Elem "operationTable" [("transCode", "ot1")]
       [ex_data "ri" "1"; ex_data "op" "gt";
        Tree.Elem "inputs" [] [ex_data "di" "1"; ex_data "sr" "/t"; ex_data "co" "pt"];
        Tree.Elem "outputs" [("transCode", "o1")] [ex_data "dl" "2"; ex_data "do" "/lamp"]];
     Tree.Elem "addressingTable" [] [ex_data "di" "1"; ex_data "mt" "hi"]]].

Definition ex_files (path : string) : option Tree.node :=
  if path =?s "bm.xml" then Some ex_doc else None.

Lemma load_xml_fits_witness :
  let r := @bm_load_xml _ _ (Tree.lib ex_files) _ (bm_init tt) "bm.xml" in
  bm_fits (fst r) /\ snd r = 0 /\ length (bm_ops (fst r)) = 1%nat /\
  length (bm_addrs (fst r)) = 1%nat.
Proof.
  pose proof (load_xml_fits (laws := Tree.laws ex_files) (bm_init tt) "bm.xml"
    (bm_init_fits tt)) as [H1 (H2 & H3 & H4)].
  split; [exact H1|]. split; [exact H2|]. split; [exact H3|exact H4].
Defined.

(** ** The controller *)
Section controller_facts.
Context {A : Type}.
Implicit Types bm : binding_map_t A.

(** The module is one whose events are carried by the bus. *)
Definition subscribable bm (i : bm_input_t) : bool :=
  (negb (in_source_object i =?s "") &&
   match bm_find_addr bm (in_device_index i) with
   | Some a => match ad_module_type a with HES_MODTYPE_IT | HES_MODTYPE_NONE => false | _ => true end
   | None => false
   end)%bool.

Definition key (i : bm_input_t) : bm_sub_key_t := (in_source_object i, in_device_index i).
Definition msg_key (m : hes_clme_msg_t) : bm_sub_key_t := (msg_path m, msg_device_index m).

(** The inputs of the enabled rows, in the order they are visited. *)
Definition live_inputs bm : list bm_input_t :=
  concat (op_inputs <$> filter (fun op => op_enabled op = true) (bm_ops bm)).

Lemma controller_flat bm bus :
  bm_controller_start bm bus =
  snd (fold_left (fun s i => subscribe_input bm i s) (live_inputs bm) ([], bus)).
Proof.
  unfold bm_controller_start, live_inputs. f_equal. generalize (([], bus) : list bm_sub_key_t * hes_bus_t).
  induction (bm_ops bm) as [|op ops IH]; intros st; simpl; [done|].
  rewrite IH. unfold subscribe_row. destruct (op_enabled op) eqn:E.
  - rewrite filter_cons_True by done. simpl. by rewrite fold_left_app.
  - rewrite filter_cons_False by congruence. done.
Qed.

(** The keys sent, the messages of the bus and the inputs visited agree. *)
Record subscribed (keys : list bm_sub_key_t) (bus0 : hes_bus_t) (done : list bm_input_t)
    bm (st : list bm_sub_key_t * hes_bus_t) : Prop := {
  sb_nodup : NoDup (fst st);
  sb_sub : forall k, k ∈ fst st -> k ∈ keys;
  sb_done : forall i, i ∈ done -> subscribable bm i = true -> key i ∈ fst st;
  sb_src : forall k, k ∈ fst st -> exists i, i ∈ done /\ subscribable bm i = true /\ key i = k;
  sb_bus : exists ms, bus_extends bus0 (snd st) ms /\ msg_key <$> ms = fst st /\
    Forall (fun m => msg_verb m = HES_VERB_SUBSCRIBE /\ msg_payload m = "") ms;
}.

Lemma key_sent (i : bm_input_t) (sent : list bm_sub_key_t) :
  existsb (fun k => (snd k =? in_device_index i) && (fst k =?s in_source_object i))%bool sent = true
  <-> key i ∈ sent.
Proof.
  rewrite existsb_exists. split.
  - intros ([s d] & Hin & Hk). apply andb_prop in Hk as [H1 H2]. simpl in *.
    apply Z.eqb_eq in H1. apply String.eqb_eq in H2. subst. by apply list_elem_of_In.
  - intros H. exists (key i). split; [by apply list_elem_of_In|]. simpl.
    by rewrite Z.eqb_refl, String.eqb_refl.
Qed.

(** A row that needs no subscription, or has one. *)
Lemma subscribed_skip keys bus0 vis bm i st : (subscribable bm i = true -> key i ∈ fst st) ->
  subscribed keys bus0 vis bm st -> subscribed keys bus0 (vis ++ [i]) bm st.
Proof.
  intros Hi [Hnd Hsub Hdone Hsrc Hms]. constructor; [done|done| | |done].
  - intros j [Hj|Hj%list_elem_of_singleton]%elem_of_app; [by apply Hdone|]. by subst j.
  - intros k Hk. destruct (Hsrc k Hk) as (j & Hj & Hrest). exists j. split; [apply elem_of_app; by left|done].
Qed.

(** A row that is subscribed now. *)
Lemma subscribed_send keys bus0 vis bm i sent bus msg :
  key i ∉ sent -> key i ∈ keys -> subscribable bm i = true -> msg_verb msg = HES_VERB_SUBSCRIBE ->
  msg_payload msg = "" -> msg_key msg = key i ->
  subscribed keys bus0 vis bm (sent, bus) ->
  subscribed keys bus0 (vis ++ [i]) bm (sent ++ [key i], hes_bus_send bus msg).
Proof.
  intros Hnew Hkey Hi Hverb Hpay Hk0 [Hnd Hsub Hdone Hsrc (ms & Hb & Hms & Hv)]. cbn [fst snd] in *.
  destruct (bus_extends_send bus msg) as (m & Hm & Hp & Hvb & Hd & Hpl & _).
  constructor; cbn [fst snd].
  - apply NoDup_app. split; [done|]. split; [|apply NoDup_singleton].
    intros k Hk Hk2%list_elem_of_singleton. by subst k.
  - intros k [Hk|Hk%list_elem_of_singleton]%elem_of_app; [by apply Hsub|subst k; by apply Hkey].
  - intros j [Hj|Hj%list_elem_of_singleton]%elem_of_app Hj2; apply elem_of_app.
    + left. by apply Hdone.
    + subst j. right. by apply list_elem_of_singleton.
  - intros k [Hk|Hk%list_elem_of_singleton]%elem_of_app; [|subst k].
    + destruct (Hsrc k Hk) as (j & Hj & Hrest). exists j. split; [apply elem_of_app; by left|done].
    + exists i. split; [apply elem_of_app; right; by left|done].
  - exists (ms ++ [m]). split; [by eapply bus_extends_trans|]. split.
    + rewrite fmap_app, Hms, <- Hk0. unfold msg_key. simpl. by rewrite Hp, Hd.
    + apply Forall_app. split; [done|]. constructor; [|constructor]. by rewrite Hvb, Hpl.
Qed.

Lemma subscribe_input_step keys bus0 vis bm i st :
  (length keys <= BM_MAX_ADDRS)%nat -> (subscribable bm i = true -> key i ∈ keys) ->
  fits HES_PATH_MAX (in_source_object i) ->
  subscribed keys bus0 vis bm st -> subscribed keys bus0 (vis ++ [i]) bm (subscribe_input bm i st).
Proof.
  intros Hlen Hkey Hfit Hst. destruct st as [sent bus].
  assert (Hskip : (subscribable bm i = true -> key i ∈ sent) -> subscribed keys bus0 (vis ++ [i]) bm (sent, bus))
    by (intros H; by apply subscribed_skip).
  unfold subscribe_input. destruct (in_source_object i =?s "") eqn:Es.
  { apply Hskip. unfold subscribable. by rewrite Es. }
  destruct (existsb (fun k => (snd k =? in_device_index i) && (fst k =?s in_source_object i))%bool
    sent) eqn:Ek; [apply Hskip; intros _; by apply key_sent|].
  assert (Hnew : key i ∉ sent) by (intros H; apply key_sent in H; congruence).
  destruct (bm_find_addr bm (in_device_index i)) as [a|] eqn:Ea.
  2: { apply Hskip. unfold subscribable. by rewrite Es, Ea. }
  destruct (subscribable bm i) eqn:Esub.
  2: { unfold subscribable in Esub. rewrite Es, Ea in Esub. simpl in Esub.
       destruct (ad_module_type a); try done; by apply Hskip. }
  assert (Hlt : (length sent < BM_MAX_ADDRS)%nat).
  { assert (length (key i :: sent) <= length keys)%nat; [|simpl in *; lia].
    apply submseteq_length, NoDup_submseteq; [constructor; [done|by destruct Hst]|].
    intros k [->|Hk]%elem_of_cons; [by apply Hkey|by apply (sb_sub _ _ _ _ _ Hst)]. }
  set (msg := hes_msg_set_path _ _).
  assert (Hstep : subscribed keys bus0 (vis ++ [i]) bm (sent ++ [key i], hes_bus_send bus msg)).
  { apply subscribed_send; try done; [by apply Hkey|]. unfold msg_key, key. simpl. by rewrite (hes_strlcpy_small _ _ Hfit). }
  rewrite (hes_strlcpy_small _ _ Hfit). fold (key i).
  rewrite (proj2 (Nat.ltb_lt _ _) Hlt).
  unfold subscribable in Esub. rewrite Es, Ea in Esub. destruct (ad_module_type a); done.
Qed.

Lemma subscribe_inputs keys bus0 bm ins :
  (length keys <= BM_MAX_ADDRS)%nat ->
  (forall i, i ∈ ins -> fits HES_PATH_MAX (in_source_object i) /\
     (subscribable bm i = true -> key i ∈ keys)) ->
  forall vis st, subscribed keys bus0 vis bm st ->
  subscribed keys bus0 (vis ++ ins) bm (fold_left (fun s i => subscribe_input bm i s) ins st).
Proof.
  intros Hlen. induction ins as [|i ins IH]; intros Hins vis st Hst; simpl.
  - by rewrite app_nil_r.
  - change (i :: ins) with ([i] ++ ins). rewrite app_assoc. apply IH.
    + intros j Hj. apply Hins. by right.
    + destruct (Hins i ltac:(left)). by apply subscribe_input_step.
Qed.

(** Starting the controller sends one SUBSCRIBE, and no more than one, to
    every distinct source of the enabled rows that is on a live module, and nothing
    else, as long as the table has at most 64 distinct sources. *)
Theorem controller_subscribes_once bm bus (keys : list bm_sub_key_t) :
  bm_fits bm -> (length keys <= BM_MAX_ADDRS)%nat ->
  (forall i, i ∈ live_inputs bm -> subscribable bm i = true -> key i ∈ keys) ->
  exists ms, bus_extends bus (bm_controller_start bm bus) ms /\
    Forall (fun m => msg_verb m = HES_VERB_SUBSCRIBE /\ msg_payload m = "") ms /\
    NoDup (msg_key <$> ms) /\
    forall k, k ∈ msg_key <$> ms <->
      exists i, i ∈ live_inputs bm /\ subscribable bm i = true /\ key i = k.
Proof.
  intros Hfit Hlen Hkeys. rewrite controller_flat.
  destruct (subscribe_inputs keys bus bm (live_inputs bm) Hlen) with (vis := @nil bm_input_t)
    (st := (@nil bm_sub_key_t, bus)) as [Hnd _ Hdone Hsrc (ms & Hb & Hms & Hv)].
  - intros i Hi. split; [|by apply Hkeys]. unfold live_inputs in Hi.
    apply list_elem_of_In, in_concat in Hi as (l & Hl & Hi).
    apply list_elem_of_In, list_elem_of_fmap in Hl as (op & -> & Hop).
    apply list_elem_of_filter in Hop as [_ Hop]. destruct Hfit as [[_ Hops] _ _ _].
    rewrite Forall_forall in Hops. destruct (Hops op Hop) as [_ _ _ [_ Hin] _ _ _ _ _ _ _ _].
    rewrite Forall_forall in Hin. apply Hin. by apply list_elem_of_In.
  - split; [apply NoDup_nil_2|intros k Hk; by apply not_elem_of_nil in Hk|intros i Hi; by apply not_elem_of_nil in Hi|intros k Hk; by apply not_elem_of_nil in Hk|].
    exists []. split; [apply bus_extends_refl|done].
  - exists ms. rewrite Hms. split; [done|]. split; [done|]. split; [done|].
    intros k. split; [apply Hsrc|]. intros (i & Hi & Hs & <-). by apply Hdone.
Qed.
End controller_facts.

(** Two rows that read the same thermometer, one of them also an internal device. *)
Definition ex_sub : binding_map_t unit :=
  let i d s := mk_input d s "" "" "" in
  let row ins := op_with_inputs op_empty ins in
  bm_with_addrs (bm_with_ops (bm_init tt) [row [i 1 "/t"; i 2 "/it"]; row [i 1 "/t"; i 1 "/h"]])
    [mk_addr 1 HES_MODTYPE_HI 1 0 ""; mk_addr 2 HES_MODTYPE_IT 0 0 ""].

Lemma ex_sub_fits : bm_fits ex_sub.
Proof.
  assert (Hi : forall d s, 0 <= d < 8 -> fits 8 s -> input_fits (mk_input d s "" "" "")).
  { intros d s Hd Hs. unfold fits in Hs. constructor; unfold u32, fits, HES_PATH_MAX; simpl; lia. }
  destruct op_empty_fits.
  constructor; simpl; (split || done); try (unfold BM_MAX_OPS, BM_MAX_ADDRS; lia); repeat constructor;
    simpl; try done; try (unfold fits, HES_PATH_MAX, u32, BM_MAX_INPUTS; simpl; lia).
Qed.

Lemma controller_subscribes_once_witness :
  exists ms, bus_extends (mk_bus [] (fun _ => mk_reading None 0))
      (bm_controller_start ex_sub (mk_bus [] (fun _ => mk_reading None 0))) ms /\
    Forall (fun m => msg_verb m = HES_VERB_SUBSCRIBE /\ msg_payload m = "") ms /\
    NoDup (msg_key <$> ms) /\
    forall k, k ∈ msg_key <$> ms <->
      exists i, i ∈ live_inputs ex_sub /\ subscribable ex_sub i = true /\ key i = k.
Proof.
  apply (controller_subscribes_once ex_sub _ (key <$> live_inputs ex_sub)).
  - apply ex_sub_fits.
  - vm_compute. lia.
  - intros i Hi _. by apply list_elem_of_fmap_2.
Defined.

(** ** Authorization fields *)
Section set_at.
Context {A : Type}.
Implicit Types bm : binding_map_t A.

Definition has_address (at_address : string) (op : bm_operation_t) : bool :=
  bm_at_address op HES_PATH_MAX =?s at_address.

Lemma ops_set_at_spec ops at_address value :
  match ops_set_at ops at_address value with
  | Some ops' => exists l1 op l2, ops = l1 ++ op :: l2 /\
      (forall o, o ∈ l1 -> has_address at_address o = false) /\ has_address at_address op = true /\
      ops' = l1 ++ op_with_out_author_type op (hes_strlcpy 4 value) :: l2
  | None => forall o, o ∈ ops -> has_address at_address o = false
  end.
Proof.
  induction ops as [|op ops IH]; cbn [ops_set_at].
  - intros o Ho. by apply not_elem_of_nil in Ho.
  - fold (has_address at_address op). destruct (has_address at_address op) eqn:E; cbv beta iota.
    + exists [], op, ops. repeat split; try done. intros o Ho. by apply not_elem_of_nil in Ho.
    + destruct (ops_set_at ops at_address value) as [ops'|]; simpl.
      * destruct IH as (l1 & o & l2 & -> & H1 & H2 & ->). exists (op :: l1), o, l2.
        repeat split; try done. intros o' [->|Ho']%elem_of_cons; [done|by apply H1].
      * intros o [->|Ho]%elem_of_cons; [done|by apply IH].
Qed.

(** Writing "bk" or "pa" to a row's 'at' address takes effect at once: 0 is
    returned, exactly the first row with that address changes, and its output is no
    longer authorized whatever message is being handled (unless authorization is
    disabled); an address no row has is refused with -1 and changes nothing. *)
Theorem set_at_revokes bm at_address value :
  (value = "bk" \/ value = "pa") -> bm_authz_disabled bm = false ->
  match bm_set_at bm at_address value with
  | (bm', Z0) => exists l1 op op' l2,
      bm_ops bm = l1 ++ op :: l2 /\ bm_ops bm' = l1 ++ op' :: l2 /\
      bm_at_address op HES_PATH_MAX = at_address /\
      (forall o, o ∈ l1 -> bm_at_address o HES_PATH_MAX <> at_address) /\
      op_with_out_author_type op value = op' /\
      forall m, output_authorized (bm_with_current_msg bm' m) op' = false
  | (bm', r) => r = -1 /\ bm' = bm /\
      forall o, o ∈ bm_ops bm -> bm_at_address o HES_PATH_MAX <> at_address
  end.
Proof.
  intros Hv Hz. unfold bm_set_at. pose proof (ops_set_at_spec (bm_ops bm) at_address value) as H.
  destruct (ops_set_at _ _ _) as [ops'|].
  - destruct H as (l1 & op & l2 & Ho & Hl & Ha & ->).
    exists l1, op, (op_with_out_author_type op (hes_strlcpy 4 value)), l2.
    repeat split; try done.
    + by apply String.eqb_eq in Ha.
    + intros o Hin%Hl. by apply String.eqb_neq in Hin.
    + by destruct Hv; subst.
    + intros m. unfold output_authorized. simpl. rewrite Hz. by destruct Hv; subst.
  - repeat split; try done. intros o Ho%H. by apply String.eqb_neq in Ho.
Qed.
End set_at.

Lemma set_at_revokes_witness :
  match bm_set_at ex_sub "/lx/ob/bm///at" "bk" with
  | (bm', Z0) => exists l1 op op' l2,
      bm_ops ex_sub = l1 ++ op :: l2 /\ bm_ops bm' = l1 ++ op' :: l2 /\
      bm_at_address op HES_PATH_MAX = "/lx/ob/bm///at" /\
      (forall o, o ∈ l1 -> bm_at_address o HES_PATH_MAX <> "/lx/ob/bm///at") /\
      op_with_out_author_type op "bk" = op' /\
      forall m, output_authorized (bm_with_current_msg bm' m) op' = false
  | (bm', r) => r = -1 /\ bm' = ex_sub /\
      forall o, o ∈ bm_ops ex_sub -> bm_at_address o HES_PATH_MAX <> "/lx/ob/bm///at"
  end.
Proof. apply (set_at_revokes ex_sub "/lx/ob/bm///at" "bk"); [by left|reflexivity]. Defined.

(** ** Payload data *)

(** A payload table as a module writes it: "name=value;name=value". *)
Definition render_datum (d : string * string) : string := (fst d ++ "=" ++ snd d)%string.
Definition render_table (t : list (string * string)) : string := str_join ";" (render_datum <$> t).

Definition datum_ok (d : string * string) : Prop :=
  fst d <> "" /\ has_char "=" (fst d) = false /\ has_char ";" (fst d) = false /\
  has_char ";" (snd d) = false.

Lemma render_datum_ok d : datum_ok d -> render_datum d <> "" /\ has_char ";" (render_datum d) = false.
Proof.
  intros (Hn & He & Hs & Hv). unfold render_datum. split; [by destruct (fst d)|].
  rewrite !has_char_app, Hs, Hv. done.
Qed.

Lemma cut_eq_render d : datum_ok d -> cut_eq (render_datum d) = Some (fst d, snd d).
Proof.
  intros (Hn & He & Hs & Hv). unfold cut_eq, render_datum. simpl.
  rewrite strchr_app_char by done. by rewrite before_app_char.
Qed.

Lemma drop_name d rest :
  str_drop (S (String.length (fst d))) (render_datum d ++ rest) = (snd d ++ rest)%string.
Proof. unfold render_datum. induction (fst d) as [|c s IH]; simpl; [done|]. apply IH. Qed.

(** The name of a record decides, whatever text follows the record. *)
Lemma datum_scan_step d rest ps tc s0 :
  datum_ok d -> tc <> "" -> (rest = "" \/ exists r, rest = String ";" r) ->
  datum_scan ((render_datum d ++ rest)%string :: ps) (Some tc) s0 =
  if fst d =?s tc then inl (atof (snd d)) else datum_scan ps (Some tc) true.
Proof.
  intros Hd Htc Hrest. simpl.
  assert (Hb : before ";" (render_datum d ++ rest) = render_datum d).
  { destruct (render_datum_ok d Hd) as [_ Hno].
    destruct Hrest as [->|[r ->]]; [by rewrite str_app_nil_r, before_no_char|by apply before_app_char]. }
  rewrite Hb, cut_eq_render by done. apply String.eqb_neq in Htc. rewrite Htc. simpl.
  destruct (fst d =?s tc); [|done]. f_equal.
  change (match (render_datum d ++ rest)%string with
          | "" => (render_datum d ++ rest)%string
          | String _ s' => str_drop (String.length (fst d)) s' end)
    with (str_drop (S (String.length (fst d))) (render_datum d ++ rest)).
  rewrite drop_name. destruct Hrest as [->|[r ->]]; [by rewrite str_app_nil_r|apply atof_stop].
Qed.

Lemma datum_scan_table t tc s0 :
  Forall datum_ok t -> tc <> "" ->
  datum_scan (visits ";" (render_table t)) (Some tc) s0 =
  match find_first (fun d => fst d =?s tc) t with
  | Some d => inl (atof (snd d))
  | None => inr (s0 || negb (length t =? 0)%nat)%bool
  end.
Proof.
  intros Ht Htc. revert s0. induction Ht as [|d t Hd Ht IH]; intros s0; [by destruct s0|].
  destruct (render_datum_ok d Hd) as [Hne Hno]. unfold render_table in *. simpl fmap.
  destruct t as [|d2 t].
  - cbn [list_fmap fmap str_join]. rewrite visits_last by done.
    rewrite <- (str_app_nil_r (render_datum d)). rewrite datum_scan_step by (done || by left).
    simpl. destruct (fst d =?s tc); [done|]. by rewrite orb_true_r.
  - cbn [list_fmap fmap]. rewrite str_join_cons. change (";" ++ ?x)%string with (String ";" x).
    rewrite visits_cons by done. rewrite datum_scan_step by (done || right; by eexists).
    simpl find_first. destruct (fst d =?s tc); [done|]. cbn [list_fmap fmap] in IH. rewrite IH.
    simpl. destruct (fst d2 =?s tc); [done|]. by rewrite orb_true_r.
Qed.

(** A module's table answer "n1=v1;n2=v2;..." is read back exactly: the value of
    the first datum of the wanted name, and 0 when the table does not carry it (never
    the number of some other datum); a payload that is no table is the number itself. *)
Theorem datum_value_of_table t tc :
  Forall datum_ok t -> tc <> "" ->
  bm_datum_value (Some (render_table t)) (Some tc) =
  match find_first (fun d => fst d =?s tc) t with
  | Some d => atof (snd d)
  | None => d_zero
  end /\
  forall s, has_char "=" s = false -> bm_datum_value (Some s) (Some tc) = atof s.
Proof.
  intros Ht Htc. split.
  - unfold bm_datum_value. rewrite datum_scan_table by done.
    destruct (find_first _ t) eqn:E; [done|]. destruct t; [done|]. done.
  - intros s Hs. unfold bm_datum_value.
    assert (Hscan : forall ps, (forall p, p ∈ ps -> has_char "=" p = false) ->
      datum_scan ps (Some tc) false = inr false).
    { induction ps as [|p ps IH]; intros Hps; simpl; [done|].
      unfold cut_eq. rewrite strchr_no_char.
      - apply IH. intros q Hq. apply Hps. by right.
      - apply before_has_no. apply Hps. by left. }
    rewrite Hscan; [done|]. intros p Hp. by eapply visits_has_no.
Qed.

Lemma datum_value_of_table_witness :
  (bm_datum_value (Some (render_table [("st", "1"); ("va", "21.5"); ("va", "9")])) (Some "va") =
   atof "21.5") /\
  forall s, has_char "=" s = false -> bm_datum_value (Some s) (Some "va") = atof s.
Proof.
  apply (datum_value_of_table [("st", "1"); ("va", "21.5"); ("va", "9")] "va"); [|discriminate].
  repeat constructor; discriminate.
Defined.

(** ** Taking a report in *)
Section report.
Context {A : Type}.
Implicit Types bm : binding_map_t A.

(** The message reports the value of device [di]. *)
Definition reports_on (ins : list bm_input_t) (m : hes_clme_msg_t) (di : Z) : bool :=
  existsb (fun i => input_matches m i && (in_device_index i =? di) &&
                    (0 <? di) && (di <=? Z.of_nat BM_MAX_ADDRS))%bool ins.

Lemma cached_set bm di v dj :
  length (bm_value_cache bm) = S BM_MAX_ADDRS -> length (bm_value_valid bm) = S BM_MAX_ADDRS ->
  0 <= di <= Z.of_nat BM_MAX_ADDRS -> 0 <= dj ->
  cached (bm_cache_set bm di v) dj = (if di =? dj then v else cached bm dj) /\
  cache_valid (bm_cache_set bm di v) dj = (if di =? dj then true else cache_valid bm dj).
Proof.
  intros Hc Hv Hi Hj. unfold cached, cache_valid. simpl. destruct (di =? dj) eqn:E.
  - apply Z.eqb_eq in E. subst dj. rewrite !list_lookup_insert_eq by lia. done.
  - apply Z.eqb_neq in E. by rewrite !list_lookup_insert_ne by lia.
Qed.

Lemma store_inputs_spec m v ins bm u :
  length (bm_value_cache bm) = S BM_MAX_ADDRS -> length (bm_value_valid bm) = S BM_MAX_ADDRS ->
  let '(bm', u') := fold_left (store_input m v) ins (bm, u) in
  (forall di, 0 <= di ->
     cached bm' di = (if reports_on ins m di then v else cached bm di) /\
     cache_valid bm' di = (if reports_on ins m di then true else cache_valid bm di)) /\
  (u' = true <-> u = true \/ exists di, reports_on ins m di = true) /\
  bm_ops bm' = bm_ops bm.
Proof.
  revert bm u. induction ins as [|i ins IH]; intros bm u Hc Hv; cbn [fold_left].
  { split; [done|]. split; [|done]. split; [by left|]. intros [H|[di H]]; done. }
  unfold store_input at 2.
  destruct (input_matches m i && (0 <? in_device_index i) &&
            (in_device_index i <=? Z.of_nat BM_MAX_ADDRS))%bool eqn:E.
  - specialize (IH (bm_cache_set bm (in_device_index i) v) true). simpl in IH.
    rewrite !length_insert in IH. specialize (IH Hc Hv). destruct (fold_left _ _ _) as [bm' u'].
    destruct IH as (H1 & H2 & H3). bool_hyps. split; [|split].
    + intros di Hdi. destruct (H1 di Hdi) as [-> ->].
      destruct (cached_set bm (in_device_index i) v di) as [-> ->]; [done..|lia|done|].
      simpl. rewrite H. destruct (in_device_index i =? di) eqn:Ed; simpl.
      * apply Z.eqb_eq in Ed. subst di. rewrite (proj2 (Z.ltb_lt _ _)), (proj2 (Z.leb_le _ _)) by done.
        simpl. by destruct (reports_on ins m _).
      * done.
    + split; [|by intros; apply H2; left]. intros _. right. exists (in_device_index i). simpl.
      rewrite H, Z.eqb_refl, (proj2 (Z.ltb_lt _ _)), (proj2 (Z.leb_le _ _)) by done. done.
    + done.
  - assert (Hrep : forall di, reports_on (i :: ins) m di = reports_on ins m di).
    { intros di. simpl. destruct (in_device_index i =? di) eqn:Ed.
      - apply Z.eqb_eq in Ed. subst di. rewrite andb_true_r. by rewrite E.
      - rewrite andb_false_r. done. }
    specialize (IH bm u Hc Hv). destruct (fold_left _ _ _) as [bm' u'].
    destruct IH as (H1 & H2 & H3). split; [|split]; [|rewrite H2|done].
    + intros di. rewrite Hrep. apply H1.
    + by setoid_rewrite Hrep.
Qed.

(** A report is attributed by path and device index: exactly the devices read
    by an input of that source object (and of the message's device index, when the
    message has one) take its value and become known, every other entry of the cache
    stays, no row changes, and the table is re-evaluated only if some entry took it. *)
Theorem report_attribution bm m v :
  bm_fits bm ->
  let '(bm', updated) := store_report bm m v in
  (forall di, 0 <= di ->
     cached bm' di = (if reports_on (concat (op_inputs <$> bm_ops bm)) m di then v
                      else cached bm di) /\
     cache_valid bm' di = (if reports_on (concat (op_inputs <$> bm_ops bm)) m di then true
                           else cache_valid bm di)) /\
  (updated = true <-> exists di, reports_on (concat (op_inputs <$> bm_ops bm)) m di = true) /\
  bm_ops bm' = bm_ops bm.
Proof.
  intros [_ _ Hc Hv]. unfold store_report.
  pose proof (store_inputs_spec m v (concat (op_inputs <$> bm_ops bm)) bm false Hc Hv) as H.
  destruct (fold_left _ _ _) as [bm' u]. destruct H as (H1 & H2 & H3).
  split; [done|]. split; [|done]. rewrite H2. split; [by intros [|]|by right].
Qed.
End report.

Lemma report_attribution_witness :
  let m := hes_msg_set_path (msg_with_device 1 hes_msg_init) "/t" in
  let '(bm', updated) := store_report ex_sub m d_one in
  (forall di, 0 <= di ->
     cached bm' di = (if reports_on (concat (op_inputs <$> bm_ops ex_sub)) m di then d_one
                      else cached ex_sub di) /\
     cache_valid bm' di = (if reports_on (concat (op_inputs <$> bm_ops ex_sub)) m di then true
                           else cache_valid ex_sub di)) /\
  (updated = true <-> exists di, reports_on (concat (op_inputs <$> bm_ops ex_sub)) m di = true) /\
  bm_ops bm' = bm_ops ex_sub.
Proof.
  apply (report_attribution ex_sub (hes_msg_set_path (msg_with_device 1 hes_msg_init) "/t") d_one
    ex_sub_fits).
Defined.
