(* ===== verification/BmFollow.v ===== *)
(** * Commands follow their inputs

    When every row of the table comes behind the rows whose outputs it reads, a report makes
    each row commit at most once: it sends one command, which carries the value the row then
    has, and that value is its operation's on the values in the cache. On other acyclic tables
    a row can commit twice in one evaluation, and its commands go out in the wrong order. *)

From S2P Require Import Prelude CLib HesCommon HesQuery Bm BmFacts BmSettle BmValues BmTerm BmProps BmLoad.

(** ** Equal numbers *)

Lemma d_eqb_cases x y : d_eqb x y = true -> x = y \/ exists a b, x = S754_zero a /\ y = S754_zero b.
Proof.
  unfold d_eqb, SFeqb, SFcompare.
  destruct x as [s|s| |s m e], y as [s'|s'| |s' m' e']; intros H; try done;
    try (by destruct s); try (by destruct s'); try (by destruct s, s'); try (right; by eexists _, _).
  - left. by destruct s, s'.
  - left. destruct s, s'; try done; destruct (e ?= e') eqn:Ee; try done;
      destruct (Pos.compare_cont Eq m m') eqn:Em; try done;
      apply Z.compare_eq in Ee; apply Pos.compare_eq in Em; by subst.
Qed.

Lemma d_eqb_trans x y z : d_eqb x y = true -> d_eqb y z = true -> d_eqb x z = true.
Proof.
  intros Hxy Hyz. destruct (d_eqb_cases x y Hxy) as [->|(a & b & -> & ->)]; [done|].
  by destruct (d_eqb_cases _ _ Hyz) as [<-|(c & d & _ & ->)].
Qed.

Lemma same_values_trans us vs ws : same_values us vs = true -> same_values vs ws = true -> same_values us ws = true.
Proof.
  revert vs ws. induction us as [|u us IH]; intros [|v vs] [|w ws]; try done. cbn.
  intros [H1 H2]%andb_prop [H3 H4]%andb_prop. by rewrite (d_eqb_trans u v w), (IH vs ws).
Qed.

(** ** Rows that commit once *)

(** The command of a row: its PUT, with the value it last committed. *)
Definition command_of (op : bm_operation_t) (m : hes_clme_msg_t) : Prop :=
  exists v, op_last_output op = Some v /\
    msg_verb m = HES_VERB_PUT /\ msg_path m = hes_strlcpy HES_PATH_MAX (op_out_dest_object op) /\
    msg_device_index m = op_out_device_index op /\ msg_payload m = str_take 31 (fmt_g v).

Lemma command_of_config op op' m :
  op_config op' = op_config op -> op_last_output op' = op_last_output op -> command_of op m -> command_of op' m.
Proof.
  intros Hc Hl (v & Hv & H1 & H2 & H3 & H4).
  pose proof (f_equal op_out_dest_object Hc) as Hd. pose proof (f_equal op_out_device_index Hc) as Hi. cbn in Hd, Hi.
  exists v. by rewrite Hl, Hd, Hi.
Qed.

Lemma put_command op v m : op_last_output op = Some v ->
  msg_path m = msg_path (put_message op v) -> msg_verb m = msg_verb (put_message op v) ->
  msg_device_index m = msg_device_index (put_message op v) -> msg_payload m = msg_payload (put_message op v) ->
  command_of op m.
Proof.
  intros Hv Hp Hve Hd Hpl. destruct (put_message_fields op v) as (H1 & H2 & H3 & H4). exists v. by split_and!; [|congruence..].
Qed.

Section follows.
Context {A : Type}.
Implicit Types bm : binding_map_t A.
Abbreviation state := (binding_map_t A * hes_bus_t)%type.

Definition has_destination bm (i : nat) : bool :=
  match bm_ops bm !! i with Some op => negb (op_out_dest_object op =?s "") | None => false end.

Lemma has_destination_config bm bm' i : same_config bm bm' -> has_destination bm' i = has_destination bm i.
Proof.
  intros Hsc. unfold has_destination. destruct (bm_ops bm !! i) as [op|] eqn:E.
  - destruct (same_config_lookup bm bm' i op Hsc E) as (op' & -> & Hc).
    pose proof (f_equal op_out_dest_object Hc) as Hd. cbn in Hd. by rewrite Hd.
  - rewrite lookup_ge_None_2; [done|]. apply lookup_ge_None_1 in E. by rewrite (same_config_length bm bm').
Qed.

(** From one state to another the rows [C] have committed, each once, in this order of their
    messages; each message is the row's command at the end. *)
Record follows (st st' : state) (C : list nat) : Prop := {
  fo_config : same_config (fst st) (fst st');
  fo_once : NoDup C;
  fo_keeps : forall i op op', i ∉ C -> bm_ops (fst st) !! i = Some op -> bm_ops (fst st') !! i = Some op' ->
    op_last_output op' = op_last_output op;
  fo_sent : exists ms, bus_extends (snd st) (snd st') ms /\
    Forall2 (fun i m => exists op, bm_ops (fst st') !! i = Some op /\ command_of op m)
      (filter (fun i => has_destination (fst st) i = true) C) ms;
}.

Lemma follows_refl st : follows st st [].
Proof.
  split; [done|constructor|intros i op op' _ H1 H2; congruence|]. exists []. split; [apply bus_extends_refl|constructor].
Qed.

(** Rows whose last outputs are the same, and nothing sent. *)
Lemma follows_quiet bm bm' bus :
  same_config bm bm' -> (forall i op op', bm_ops bm !! i = Some op -> bm_ops bm' !! i = Some op' ->
    op_last_output op' = op_last_output op) -> follows (bm, bus) (bm', bus) [].
Proof.
  intros Hc Hk. split; [done|constructor|intros i op op' _; apply Hk|]. exists []. split; [apply bus_extends_refl|constructor].
Qed.

Lemma follows_trans st1 st2 st3 C D :
  follows st1 st2 C -> follows st2 st3 D -> (forall i, i ∈ C -> i ∉ D) -> follows st1 st3 (C ++ D).
Proof.
  intros [Hc1 Ho1 Hk1 (ms & Hb1 & Hs1)] [Hc2 Ho2 Hk2 (ns & Hb2 & Hs2)] Hd. split.
  - by etransitivity.
  - apply NoDup_app. by split_and!.
  - intros i op op' Hi H1 H3. rewrite elem_of_app in Hi.
    destruct (same_config_lookup _ _ i op Hc1 H1) as (op2 & H2 & _).
    rewrite (Hk2 i op2 op') by tauto. apply (Hk1 i); tauto.
  - exists (ms ++ ns). split; [by eapply bus_extends_trans|]. rewrite filter_app. apply Forall2_app.
    + assert (Hin : forall i, i ∈ filter (fun i => has_destination (fst st1) i = true) C -> i ∈ C)
        by (intros i [_ H]%list_elem_of_filter; exact H).
      clear Hb1. revert Hin Hs1. generalize (filter (fun i => has_destination (fst st1) i = true) C). intros l Hin Hs1.
      induction Hs1 as [|i m l ms' (op & Hi & Hcmd) Hs IH] in Hin |- *; constructor.
      * destruct (same_config_lookup _ _ i op Hc2 Hi) as (op' & Hi' & Hcf). exists op'. split; [done|].
        eapply command_of_config; [exact Hcf| |exact Hcmd]. eapply Hk2; [|exact Hi|exact Hi'].
        apply Hd, Hin. left.
      * apply IH. intros j Hj. apply Hin. by right.
    + replace (filter (fun i => has_destination (fst st1) i = true) D)
        with (filter (fun i => has_destination (fst st2) i = true) D); [exact Hs2|].
      apply list_filter_iff. intros i. by rewrite (has_destination_config _ _ i Hc1).
Qed.
End follows.

(** ** One pass over the table *)

Section pass.
Context {A : Type} (V : nat -> double -> Prop).
Hypothesis V_number : forall k v, V k v -> is_nan v = false.
Implicit Types bm : binding_map_t A.

(** A row that reads another's output device comes behind it. *)
Definition ordered bm : Prop := acyclic (fun i => i) (length (bm_ops bm)) bm.

Lemma ordered_config bm bm' : same_config bm bm' -> ordered bm -> ordered bm'.
Proof. intros Hsc Ho. unfold ordered. rewrite (same_config_length bm bm') by done. by eapply acyclic_config. Qed.

Definition settled_below (k : nat) bm : Prop := forall j, (j < k)%nat -> row_stale bm j = false.

Lemma settled_all bm : settled_below (length (bm_ops bm)) bm -> forall j, row_stale bm j = false.
Proof.
  intros Hs j. destruct (decide (j < length (bm_ops bm))%nat) as [Hj|Hj]; [by apply Hs|].
  unfold row_stale. by rewrite lookup_ge_None_2 by lia.
Qed.

Lemma set_row_quiet bm i op op' bus : bm_ops bm !! i = Some op -> op_config op' = op_config op ->
  op_last_output op' = op_last_output op -> follows (bm, bus) (set_row bm i op', bus) [].
Proof.
  intros Hi Hc Hl. apply follows_quiet; [by eapply set_row_config|]. intros j opj opj' H1 H2.
  destruct (decide (i = j)) as [<-|Hne].
  - rewrite (set_row_same bm i op' op Hi) in H2. congruence.
  - rewrite set_row_other in H2 by done. congruence.
Qed.

Lemma performed_quiet bm i op os bm1 r bus : bm_ops bm !! i = Some op ->
  perform_operation (recorded bm i op os) (op_with_last_operands op (od_value <$> os)) os = (bm1, r) ->
  follows (bm, bus) (bm1, bus) [].
Proof.
  intros Hi Hp. change (@nil nat) with (@nil nat ++ []). eapply follows_trans with (st2 := (recorded bm i op os, bus)).
  - by apply (set_row_quiet bm i op).
  - apply follows_quiet.
    + pose proof (perform_operation_config (recorded bm i op os) (op_with_last_operands op (od_value <$> os)) os) as H.
      by rewrite Hp in H.
    + pose proof (performed_state (recorded bm i op os) (op_with_last_operands op (od_value <$> os)) os) as (Ho & _).
      rewrite Hp in Ho. change (bm_ops bm1 = bm_ops (recorded bm i op os)) in Ho. rewrite Ho. intros j opj opj' H1 H2. congruence.
  - by intros j ?%elem_of_nil.
Qed.

(** The row is not stale: nothing is committed. *)
Lemma settled_row_quiet rec k bm bus st' :
  row_stale bm k = false -> evaluate_op rec k (bm, bus) = Some st' -> follows (bm, bus) st' [].
Proof.
  intros Hs. assert (Hch : forall op os, bm_ops bm !! k = Some op -> runs bm op os -> inputs_changed op os = false).
  { intros op os Hi Hr. unfold row_stale in Hs. rewrite Hi in Hs. unfold stale in Hs.
    apply current_operands_runs in Hr. by rewrite Hr in Hs. }
  destruct (evaluate_op_cases rec bm bus k)
    as [Hskip|op os Hi Hr _|op os bm1 Hi Hr Hc Hbm1|op os bm1 r result Hi Hr Hc _ _ _ _]; intros H; simplify_eq.
  - apply follows_refl.
  - by apply (set_row_quiet bm k op).
  - by rewrite (Hch op os Hi Hr) in Hc.
  - by rewrite (Hch op os Hi Hr) in Hc.
Qed.

(** After row [k] has committed, the rows up to it are settled. *)
Lemma commit_settles_below k bm op os bm1 r result :
  bm_ops bm !! k = Some op -> runs bm op os -> ordered bm -> values_ok V bm -> settled_below k bm ->
  perform_operation (recorded bm k op os) (op_with_last_operands op (od_value <$> os)) os = (bm1, r) ->
  settled_below (S k) (committed bm1 k op os result) /\
  (in_cache_range (op_out_device_index op) = true ->
   settled_below (S k) (bm_cache_set (committed bm1 k op os result) (op_out_device_index op) result)).
Proof.
  intros Hi Hr Ho Hv Hb Hp.
  assert (Hset : settled_below (S k) (committed bm1 k op os result)).
  { intros j Hj. rewrite (committed_stale bm k j op os bm1 r result Hi Hp). destruct (decide (j = k)) as [->|Hne].
    - apply recorded_settled; [done|done|by eapply operands_numbers].
    - rewrite recorded_other by done. apply Hb. lia. }
  split; [done|]. intros Hrange j Hj.
  assert (Hsc : same_config bm (committed bm1 k op os result)).
  { destruct (same_config_lookup bm bm1 k op) as (op1 & Hi1 & Hc1); [by eapply performed_config|done|].
    etransitivity; [by eapply performed_config|]. by eapply set_row_config. }
  destruct (bm_ops (committed bm1 k op os result) !! j) as [opj|] eqn:Ej.
  - rewrite (cache_set_stale _ _ _ j opj Ej); [by apply Hset|]. intros Hread.
    destruct (same_config_lookup _ bm j opj ltac:(by symmetry) Ej) as (opj0 & Hj0 & Hcj).
    destruct Ho as [_ Ho]. specialize (Ho k j op opj0 Hi Hj0 Hrange).
    assert (Hr0 : reads opj0 (op_out_device_index op)).
    { destruct Hread as (inp & Hin & Hd). exists inp. split; [|done]. pose proof (f_equal op_inputs Hcj) as Hii. cbn in Hii. by rewrite Hii. }
    specialize (Ho Hr0). cbv beta in Ho. lia.
  - unfold row_stale. change (bm_ops (bm_cache_set _ _ _)) with (bm_ops (committed bm1 k op os result)). by rewrite Ej.
Qed.
(** The row's own message goes out behind those of the rows its value set off. *)
Lemma commit_follows bm bus k op bmA stB C result :
  bm_ops bm !! k = Some op -> same_config bm bmA ->
  (forall i opi opi', i <> k -> bm_ops bm !! i = Some opi -> bm_ops bmA !! i = Some opi' ->
     op_last_output opi' = op_last_output opi) ->
  (op_last_output <$> bm_ops bmA !! k) = Some (Some result) ->
  follows (bmA, bus) stB C -> Forall (fun i => (S k <= i)%nat) C ->
  follows (bm, bus)
    (fst stB, if op_out_dest_object op =?s "" then snd stB else hes_bus_send (snd stB) (put_message op result)) (C ++ [k]).
Proof.
  intros Hi Hsc Hothers Hk [Hc Ho Hkeep (ms & Hb & Hs)] HC. cbn [fst snd] in *.
  assert (HkC : k ∉ C) by (intros Hin; rewrite Forall_forall in HC; specialize (HC k Hin); lia).
  destruct (same_config_lookup _ _ k op Hsc Hi) as (opA & HiA & HcA).
  destruct (same_config_lookup _ _ k opA Hc HiA) as (opB & HiB & HcB).
  assert (Hlast : op_last_output opB = Some result).
  { rewrite HiA in Hk. cbn in Hk. injection Hk as Hk. rewrite <- Hk. by eapply Hkeep. }
  assert (Hfilter : filter (fun i => has_destination bm i = true) C = filter (fun i => has_destination bmA i = true) C)
    by (apply list_filter_iff; intros i; by rewrite (has_destination_config bm bmA i Hsc)).
  split; cbn [fst snd].
  - by etransitivity.
  - apply NoDup_app. split_and!; [done| |apply NoDup_singleton]. by intros i Hin ->%list_elem_of_singleton.
  - intros i opi opi' Hn H1 H2. rewrite elem_of_app, list_elem_of_singleton in Hn.
    destruct (same_config_lookup _ _ i opi Hsc H1) as (opi1 & H3 & _).
    rewrite (Hkeep i opi1 opi') by tauto. apply (Hothers i); tauto.
  - rewrite filter_app, Hfilter. assert (Hd : has_destination bm k = negb (op_out_dest_object op =?s "")).
    { unfold has_destination. by rewrite Hi. }
    destruct (op_out_dest_object op =?s "") eqn:Ed.
    + exists ms. split; [done|]. rewrite filter_cons_False, app_nil_r by (rewrite Hd; done). exact Hs.
    + destruct (bus_extends_send (snd stB) (put_message op result)) as (m & Hb' & H1 & H2 & H3 & H4 & _).
      exists (ms ++ [m]). split; [by eapply bus_extends_trans|]. apply Forall2_app; [exact Hs|].
      rewrite filter_cons_True by (rewrite Hd; done). constructor; [|constructor].
      exists opB. split; [done|]. pose proof HcB as Hcfg. rewrite HcA in Hcfg.
      eapply command_of_config with (op := op_with_last_output op result); [by rewrite last_output_config|done|].
      by apply (put_command _ result).
Qed.

Lemma row_follows rec k bm bus st' :
  (forall bm bus st'', values_ok V bm -> ordered bm -> settled_below (S k) bm -> rec bm bus = Some st'' ->
     (exists C, follows (bm, bus) st'' C /\ Forall (fun i => (S k <= i)%nat) C) /\ forall j, row_stale (fst st'') j = false) ->
  values_ok V bm -> ordered bm -> settled_below k bm -> evaluate_op rec k (bm, bus) = Some st' ->
  exists C, follows (bm, bus) st' C /\ Forall (fun i => (k <= i)%nat) C /\
    ((forall j, row_stale (fst st') j = false) \/ forall i, i ∈ C -> i = k).
Proof.
  intros Hrec Hv Ho Hb. assert (Hnone : forall st', follows (bm, bus) st' [] ->
    exists C, follows (bm, bus) st' C /\ Forall (fun i => (k <= i)%nat) C /\
      ((forall j, row_stale (fst st') j = false) \/ forall i, i ∈ C -> i = k)).
  { intros st1 Hf. exists []. split_and!; [done|constructor|]. right. by intros i ?%elem_of_nil. }
  destruct (evaluate_op_cases rec bm bus k)
    as [Hskip|op os Hi Hr Hch|op os bm1 Hi Hr Hch Hbm1|op os bm1 r result Hi Hr Hch Hp Hadj Hl Ha];
    intros H; simplify_eq.
  - apply Hnone, follows_refl.
  - by apply Hnone, (set_row_quiet bm k op).
  - apply Hnone. destruct (perform_operation _ _ _) as [bm1 r] eqn:E. by eapply performed_quiet.
  - destruct (commit_settles_below k bm op os bm1 (Some r) result Hi Hr Ho Hv Hb Hp) as [Hs1 Hs2].
    pose proof (performed_quiet bm k op os bm1 (Some r) bus Hi Hp) as [Hc1 _ Hk1 _]. cbn [fst snd] in Hc1, Hk1.
    destruct (same_config_lookup bm bm1 k op Hc1 Hi) as (op1 & Hi1 & Hcf1).
    assert (Hsc : same_config bm (committed bm1 k op os result)).
    { etransitivity; [exact Hc1|]. by eapply set_row_config. }
    assert (Hoth : forall i opi opi', i <> k -> bm_ops bm !! i = Some opi ->
      bm_ops (committed bm1 k op os result) !! i = Some opi' -> op_last_output opi' = op_last_output opi).
    { intros i opi opi' Hne H1 H2. unfold committed in H2. rewrite set_row_other in H2 by done.
      apply (Hk1 i); [by intros ?%elem_of_nil|done|done]. }
    assert (Hme : op_last_output <$> bm_ops (committed bm1 k op os result) !! k = Some (Some result)).
    { unfold committed. by rewrite (set_row_same bm1 k _ op1 Hi1). }
    unfold commit_output in H. fold (committed bm1 k op os result) in H. cbn [op_out_device_index op_with_last_operands] in H.
    fold (in_cache_range (op_out_device_index op)) in H. cbn [op_out_dest_object] in H.
    destruct (in_cache_range (op_out_device_index op)) eqn:Er.
    + destruct (rec _ bus) as [stB|] eqn:Erec; [|done].
      apply Hrec in Erec as [(C & Hf & HC) Hall]; cycle 1.
      { apply cache_set_values; [by eapply (committed_values V bm k op)|by eapply (committed_value_set V bm k op)]. }
      { eapply ordered_config; [|exact Ho]. etransitivity; [exact Hsc|apply cache_set_config]. }
      { by apply Hs2. }
      exists (C ++ [k]). pose proof (commit_follows bm bus k op _ stB C result Hi
        ltac:(etransitivity; [exact Hsc|apply cache_set_config]) Hoth Hme Hf HC) as Hfin.
      destruct stB as [bmB busB]. cbn [fst snd] in *. change (op_out_dest_object (op_with_last_operands op _)) with (op_out_dest_object op) in H.
      destruct (op_out_dest_object op =?s ""); injection H as <-; (split_and!; [exact Hfin| |left; exact Hall]);
        (apply Forall_app; split; [eapply Forall_impl; [exact HC|intros; cbv beta in *; lia]|by repeat constructor]).
    + exists [k]. pose proof (commit_follows bm bus k op _ (committed bm1 k op os result, bus) [] result Hi Hsc Hoth Hme
        (follows_refl _) ltac:(constructor)) as Hfin. cbn [fst snd app] in Hfin. change (op_out_dest_object (op_with_last_operands op _)) with (op_out_dest_object op) in H.
      destruct (op_out_dest_object op =?s ""); injection H as <-;
        (split_and!; [exact Hfin|by repeat constructor|right; by intros i ->%list_elem_of_singleton]).
Qed.
(** A pass from row [a] on, with the rows below [a] and below [k] settled, commits rows from
    [k] on, each once; on a settled table it commits none. *)
Lemma pass_follows fuel k m a bm bus st' :
  (forall i bm bus st'', values_ok V bm -> ordered bm -> settled_below i bm -> bm_evaluate_all fuel bm bus = Some st'' ->
     exists C, follows (bm, bus) st'' C /\ Forall (fun j => (i <= j)%nat) C) ->
  values_ok V bm -> ordered bm -> settled_below a bm -> settled_below k bm ->
  for_each (evaluate_op (bm_evaluate_all fuel)) (seq a m) (bm, bus) = Some st' ->
  exists C, follows (bm, bus) st' C /\ Forall (fun j => (k <= j)%nat /\ (a <= j)%nat) C /\
    ((forall j, row_stale bm j = false) -> C = []).
Proof.
  intros Hrec. revert a bm bus. induction m as [|m IH]; intros a bm bus Hv Ho Ha Hk H; cbn [seq for_each] in H.
  { injection H as <-. exists []. split_and!; [apply follows_refl|constructor|done]. }
  destruct (evaluate_op (bm_evaluate_all fuel) a (bm, bus)) as [[bm1 bus1]|] eqn:E; [|done].
  pose proof E as Hset. apply (evaluate_op_settles V V_number) in Hset as [Hs1 Hs2];
    [|intros; by eapply (evaluate_all_settles V)|done].
  pose proof E as Hgood. apply (evaluate_op_good V) in Hgood as [Hsc Hv1];
    [|intros; by eapply (evaluate_all_good V)|done]. cbn [fst] in *.
  assert (Hk1 : settled_below k bm1) by (intros j Hj; by apply Hs2, Hk).
  assert (Ha1 : settled_below (S a) bm1).
  { intros j Hj. destruct (decide (j = a)) as [->|Hne]; [done|]. apply Hs2, Ha. lia. }
  destruct (IH (S a) bm1 bus1 Hv1 (ordered_config _ _ Hsc Ho) Ha1 Hk1 H) as (C & Hf & HC & Hnone).
  assert (HC' : Forall (fun j => (k <= j)%nat /\ (a <= j)%nat) C)
    by (eapply Forall_impl; [exact HC|intros; cbv beta in *; lia]).
  destruct (row_stale bm a) eqn:Est.
  - assert (Hka : (k <= a)%nat).
    { destruct (decide (a < k)%nat) as [Hlt|]; [by rewrite (Hk a Hlt) in Est|lia]. }
    destruct (row_follows (bm_evaluate_all fuel) a bm bus (bm1, bus1)) as (D & Hf1 & HD & Hend); try done.
    { intros bm2 bus2 st'' Hv2 Ho2 Hs H2. split; [by eapply Hrec|by eapply (evaluate_all_settles V)]. }
    exists (D ++ C). split_and!.
    + eapply follows_trans; [exact Hf1|exact Hf|]. intros j Hj. destruct Hend as [Hall|Hone].
      * rewrite (Hnone Hall). apply not_elem_of_nil.
      * rewrite (Hone j Hj). intros Hin. rewrite Forall_forall in HC. specialize (HC a Hin). cbv beta in HC. lia.
    + apply Forall_app. split; [|done]. eapply Forall_impl; [exact HD|]. intros; cbv beta in *; lia.
    + intros Hall. by rewrite Hall in Est.
  - exists C. split_and!; [|done|intros Hall; apply Hnone; intros j; by apply Hs2].
    change C with ([] ++ C). eapply follows_trans; [by eapply settled_row_quiet|exact Hf|by intros j ?%elem_of_nil].
Qed.

Lemma evaluation_follows fuel k bm bus st' :
  values_ok V bm -> ordered bm -> settled_below k bm -> bm_evaluate_all fuel bm bus = Some st' ->
  exists C, follows (bm, bus) st' C /\ Forall (fun j => (k <= j)%nat) C.
Proof.
  revert k bm bus st'. induction fuel as [|fuel IH]; intros k bm bus st' Hv Ho Hk H; [done|].
  cbn [bm_evaluate_all] in H.
  destruct (pass_follows fuel k (length (bm_ops bm)) 0 bm bus st' IH Hv Ho ltac:(intros j Hj; lia) Hk H) as (C & Hf & HC & _).
  exists C. split; [done|]. eapply Forall_impl; [exact HC|]. by intros j [? _].
Qed.
End pass.

(** ** Outputs and the values they come from *)

Section faithful.
Context {A : Type} (V : nat -> double -> Prop).
Hypothesis V_number : forall k v, V k v -> is_nan v = false.
Implicit Types bm : binding_map_t A.

(** What a row with one of the built-in operations commits for these values; [None]: its
    output condition suppresses it. *)
Definition row_result (op : bm_operation_t) (vs : list double) : option double :=
  let operands := mk_operand 0 "" <$> vs in
  apply_condition (op_out_adjustment op) (apply_operation (op_operation op) (operand_a operands) (operand_b op operands)).

Lemma row_result_operands op os :
  row_result op (od_value <$> os) =
  apply_condition (op_out_adjustment op) (apply_operation (op_operation op) (operand_a os) (operand_b op os)).
Proof. unfold row_result. by destruct os as [|o [|o' os]]. Qed.

(** The row computes its output itself, and no message has to be authorized for it. *)
Definition own_row bm (op : bm_operation_t) : bool :=
  (negb (op_operation op =?s "ap") &&
   ((op_out_dest_object op =?s "") || bm_authz_disabled bm ||
    (negb ((op_out_author_type op =?s "bk") || (op_out_author_type op =?s "pa")) && negb (op_requires_authorization op))))%bool.

Lemma own_row_authorized bm op : own_row bm op = true -> op_out_dest_object op = "" \/ output_authorized bm op = true.
Proof.
  unfold own_row, output_authorized. intros [_ H]%andb_prop. destruct (op_out_dest_object op =?s "") eqn:Ed; [left; by apply String.eqb_eq|].
  right. destruct (bm_authz_disabled bm); [done|]. cbn in H. apply andb_prop in H as [H1 H2].
  apply negb_true_iff in H1, H2. by rewrite H1, H2.
Qed.

Lemma own_row_config bm bm' op op' : bm_authz_disabled bm' = bm_authz_disabled bm -> op_config op' = op_config op ->
  own_row bm' op' = own_row bm op.
Proof.
  intros Hz Hc. unfold own_row, op_requires_authorization. rewrite Hz.
  pose proof (f_equal op_operation Hc) as H1. pose proof (f_equal op_out_dest_object Hc) as H2.
  pose proof (f_equal op_out_author_type Hc) as H3. pose proof (f_equal op_inputs Hc) as H4. cbn in *. by rewrite H1, H2, H3, H4.
Qed.

Lemma row_result_config op op' vs : op_config op' = op_config op -> row_result op' vs = row_result op vs.
Proof.
  intros Hc. unfold row_result, operand_b. pose proof (f_equal op_operation Hc) as H1.
  pose proof (f_equal op_out_adjustment Hc) as H2. pose proof (f_equal op_input_params Hc) as H3. cbn in *. by rewrite H1, H2, H3.
Qed.

(** The row's output is the result for values equal to those it last ran on. *)
Definition tracks (op : bm_operation_t) : Prop :=
  forall ws, op_last_operands op = Some ws ->
    exists vs, same_values vs ws = true /\
      forall r, row_result op vs = Some r -> exists last, op_last_output op = Some last /\ d_eqb r last = true.

Definition faithful bm : Prop := forall i op, bm_ops bm !! i = Some op -> own_row bm op = true -> tracks op.

Lemma faithful_ext bm bm' : bm_ops bm' = bm_ops bm -> bm_authz_disabled bm' = bm_authz_disabled bm -> faithful bm -> faithful bm'.
Proof. intros Ho Hz Hf i op Hi Hown. rewrite Ho in Hi. apply (Hf i op Hi). by rewrite <- (own_row_config bm bm' op op Hz). Qed.

Lemma faithful_set_row bm i op op' : faithful bm -> bm_ops bm !! i = Some op -> op_config op' = op_config op ->
  (own_row bm op = true -> tracks op') -> faithful (set_row bm i op').
Proof.
  intros Hf Hi Hc Ht j opj Hj Hown. destruct (decide (i = j)) as [<-|Hne].
  - rewrite (set_row_same bm i op' op Hi) in Hj. injection Hj as <-. apply Ht. rewrite <- Hown.
    symmetry. by apply own_row_config.
  - rewrite set_row_other in Hj by done. apply (Hf j opj Hj). by rewrite <- Hown.
Qed.

Lemma recorded_tracks op ws vs : op_last_operands op = Some vs -> same_values vs ws = true -> tracks op ->
  tracks (op_with_last_operands op ws).
Proof.
  intros Hl Hs Ht ws' [= <-]. destruct (Ht vs Hl) as (us & Hus & Hr). exists us. split; [by eapply same_values_trans|exact Hr].
Qed.

Lemma own_row_performs bm bm' op vs os : own_row bm op = true ->
  perform_operation bm' (op_with_last_operands op vs) os =
  (bm', Some (apply_operation (op_operation op) (operand_a os) (operand_b op os))).
Proof.
  unfold own_row. intros [Hap%negb_true_iff _]%andb_prop. unfold perform_operation.
  change (op_operation (op_with_last_operands op vs)) with (op_operation op). by rewrite Hap.
Qed.

(** What an own row whose operands have changed does. *)
Lemma evaluate_own_row rec i bm bus op os :
  bm_ops bm !! i = Some op -> runs bm op os -> inputs_changed op os = true -> own_row bm op = true ->
  evaluate_op rec i (bm, bus) =
  match row_result op (od_value <$> os) with
  | None => Some (recorded bm i op os, bus)
  | Some result =>
      if match op_last_output op with Some last => d_eqb result last | None => false end
      then Some (recorded bm i op os, bus)
      else commit_output rec (recorded bm i op os) bus i (op_with_last_operands op (od_value <$> os)) result
  end.
Proof.
  intros Hi (He & Hrd & Hc & Hne) Hch Hown. unfold evaluate_op. rewrite Hi, He, Hrd, Hc. cbn [negb orb].
  destruct os as [|o os0]; [done|]. set (os := o :: os0) in *. clearbody os. rewrite Hch. cbn [negb].
  fold (recorded bm i op os). rewrite (own_row_performs bm) by done.
  change (op_out_adjustment (op_with_last_operands op _)) with (op_out_adjustment op). rewrite row_result_operands.
  destruct (apply_condition _ _) as [result|]; [|done].
  change (op_last_output (op_with_last_operands op _)) with (op_last_output op).
  destruct (match op_last_output op with Some last => d_eqb result last | None => false end); [done|].
  change (op_out_dest_object (op_with_last_operands op _)) with (op_out_dest_object op).
  rewrite (output_authorized_config bm (recorded bm i op os) op); [|by eapply recorded_config|done].
  destruct (own_row_authorized bm op Hown) as [-> | ->]; [done|]. by rewrite andb_false_r.
Qed.

Section step.
Variable rec : binding_map_t A -> hes_bus_t -> option (binding_map_t A * hes_bus_t).
Hypothesis rec_faithful : forall bm bus st, values_ok V bm -> faithful bm -> rec bm bus = Some st -> faithful (fst st).

Lemma commit_faithful bm bm1 bus i op os r result st' :
  bm_ops bm !! i = Some op -> values_ok V bm -> runs bm op os -> faithful bm ->
  perform_operation (recorded bm i op os) (op_with_last_operands op (od_value <$> os)) os = (bm1, Some r) ->
  apply_condition (op_out_adjustment op) r = Some result ->
  commit_output rec bm1 bus i (op_with_last_operands op (od_value <$> os)) result = Some st' -> faithful (fst st').
Proof.
  intros Hi Hv Hr Hf Hp Hadj H.
  destruct (committed_value V bm i op os bm1 r result Hi Hv Hr Hp Hadj) as [Hnum HP].
  pose proof (performed_state (recorded bm i op os) (op_with_last_operands op (od_value <$> os)) os) as (Ho & _).
  rewrite Hp in Ho. change (bm_ops bm1 = bm_ops (recorded bm i op os)) in Ho.
  pose proof (performed_config bm i op os bm1 (Some r) Hi Hp) as Hsc.
  assert (Hc : faithful (committed bm1 i op os result)).
  { assert (Heq : bm_ops (committed bm1 i op os result) =
      bm_ops (set_row bm i (op_with_last_output (op_with_last_operands op (od_value <$> os)) result))).
    { unfold committed. change (<[i:=op_with_last_output (op_with_last_operands op (od_value <$> os)) result]> (bm_ops bm1) =
        <[i:=op_with_last_output (op_with_last_operands op (od_value <$> os)) result]> (bm_ops bm)).
      rewrite Ho. apply list_insert_insert_eq. }
    apply (faithful_ext (set_row bm i (op_with_last_output (op_with_last_operands op (od_value <$> os)) result)));
      [exact Heq|cbn; by destruct Hsc|].
    apply (faithful_set_row bm i op); [done|done|done|]. intros Hown ws [= <-]. exists (od_value <$> os). split.
    - apply same_values_refl. by eapply operands_numbers.
    - intros r' Hr'. exists result. split; [done|].
      rewrite (row_result_config op) in Hr' by done. rewrite row_result_operands in Hr'.
      rewrite (own_row_performs bm) in Hp by done. injection Hp as _ Hp. rewrite Hp in Hr'.
      rewrite Hadj in Hr'. injection Hr' as <-. by apply d_eqb_refl. }
  destruct (commit_output_result _ _ _ _ _ _ _ _ H) as [bus1 Hcr]. destruct (in_cache_range _).
  - apply rec_faithful in Hcr; [done|..].
    + apply cache_set_values; [|by apply HP]. by eapply (committed_values V bm i op).
    + by eapply faithful_ext; [..|exact Hc].
  - by rewrite Hcr.
Qed.

Lemma evaluate_op_faithful i bm bus st' :
  values_ok V bm -> faithful bm -> evaluate_op rec i (bm, bus) = Some st' -> faithful (fst st').
Proof.
  intros Hv Hf H. pose proof (evaluate_op_cases rec bm bus i) as Hcase. pose proof H as H0. rewrite H in Hcase.
  remember (Some st') as o eqn:Eo.
  destruct Hcase as [Hskip|op os Hi Hr Hch|op os bm1 Hi Hr Hch Hbm1|op os bm1 r result Hi Hr Hch Hp Hadj Hl Ha].
  - injection Eo as <-. exact Hf.
  - injection Eo as <-. apply (faithful_set_row bm i op); [done|done|done|]. intros Hown.
    unfold inputs_changed in Hch. destruct (op_last_operands op) as [vs|] eqn:El; [|done]. apply negb_false_iff in Hch.
    eapply recorded_tracks; [exact El|exact Hch|by eapply Hf].
  - injection Eo as <-. cbn [fst]. destruct (own_row bm op) eqn:Hown.
    + assert (Hquiet : (forall r, row_result op (od_value <$> os) = Some r ->
        exists last, op_last_output op = Some last /\ d_eqb r last = true) -> faithful (recorded bm i op os)).
      { intros Hq. apply (faithful_set_row bm i op); [done|done|done|]. intros _ ws [= <-]. exists (od_value <$> os).
        split; [apply same_values_refl; by eapply operands_numbers|exact Hq]. }
      rewrite (evaluate_own_row rec i bm bus op os Hi Hr Hch Hown), row_result_operands in H0.
      rewrite row_result_operands in Hquiet. subst bm1. rewrite (own_row_performs bm) by done. cbn [fst].
      destruct (apply_condition (op_out_adjustment op) _) as [result|] eqn:Eres; [|by apply Hquiet].
      destruct (op_last_output op) as [last|] eqn:Elast.
      * destruct (d_eqb result last) eqn:Eeq; [apply Hquiet; intros r' [= <-]; by exists last|].
        rewrite (own_row_performs bm) in H0 by done.
        by apply (commit_faithful _ _ _ _ _ _ _ _ _ Hi Hv Hr Hf (own_row_performs bm _ op _ os Hown) Eres) in H0.
      * rewrite (own_row_performs bm) in H0 by done.
        by apply (commit_faithful _ _ _ _ _ _ _ _ _ Hi Hv Hr Hf (own_row_performs bm _ op _ os Hown) Eres) in H0.
    + subst bm1. pose proof (performed_state (recorded bm i op os) (op_with_last_operands op (od_value <$> os)) os) as (Ho & _).
      pose proof (perform_operation_config (recorded bm i op os) (op_with_last_operands op (od_value <$> os)) os) as Hpc.
      apply (faithful_ext (recorded bm i op os)); [exact Ho|by destruct Hpc|].
      apply (faithful_set_row bm i op); [done|done|done|]. by rewrite Hown.
  - by eapply commit_faithful.
Qed.
End step.

Lemma evaluation_faithful fuel bm bus st' :
  values_ok V bm -> faithful bm -> bm_evaluate_all fuel bm bus = Some st' -> faithful (fst st').
Proof.
  revert bm bus st'. induction fuel as [|fuel IH]; intros bm bus st' Hv Hf H; [done|]. cbn [bm_evaluate_all] in H.
  refine (proj2 (for_each_inv (fun st => values_ok V (fst st) /\ faithful (fst st)) _ _ (bm, bus) st' _ (conj Hv Hf) H)).
  intros i [bm1 bus1] st1 _ [Hv1 Hf1] H1. split.
  - apply (evaluate_op_good V) in H1 as [_ ?]; [done|intros; by eapply (evaluate_all_good V)|done].
  - by eapply (evaluate_op_faithful (bm_evaluate_all fuel)).
Qed.
End faithful.

(** ** The values of devices no row writes *)

Section sources.
Context {A : Type}.
Implicit Types bm : binding_map_t A.
Abbreviation state := (binding_map_t A * hes_bus_t)%type.

(** No row has the device as its output. *)
Definition source bm (di : Z) : Prop := Forall (fun op => op_out_device_index op <> di) (bm_ops bm).

Definition keeps_sources (st st' : state) : Prop :=
  same_config (fst st) (fst st') /\ forall di, source (fst st) di ->
    cached (fst st') di = cached (fst st) di /\ cache_valid (fst st') di = cache_valid (fst st) di.

Lemma source_config bm bm' di : same_config bm bm' -> source bm di -> source bm' di.
Proof.
  intros Hsc. unfold source. rewrite !Forall_lookup. intros Hs i op Hi.
  destruct (same_config_lookup bm' bm i op ltac:(by symmetry) Hi) as (op0 & Hi0 & Hc).
  pose proof (f_equal op_out_device_index Hc) as Hd. cbn in Hd. rewrite <- Hd. by eapply Hs.
Qed.

Lemma keeps_sources_trans st1 st2 st3 : keeps_sources st1 st2 -> keeps_sources st2 st3 -> keeps_sources st1 st3.
Proof.
  intros [Hc1 H1] [Hc2 H2]. split; [by etransitivity|]. intros di Hs. destruct (H1 di Hs) as [<- <-].
  apply H2. by eapply source_config.
Qed.

Lemma same_cache_keeps bm bm' bus bus' : same_config bm bm' -> bm_value_cache bm' = bm_value_cache bm ->
  bm_value_valid bm' = bm_value_valid bm -> keeps_sources (bm, bus) (bm', bus').
Proof. intros Hsc Hc Hv. split; [done|]. intros di _. cbn. unfold cached, cache_valid. by rewrite Hc, Hv. Qed.

Lemma evaluate_op_keeps_sources rec i st st' :
  (forall bm bus st'', rec bm bus = Some st'' -> keeps_sources (bm, bus) st'') ->
  evaluate_op rec i st = Some st' -> keeps_sources st st'.
Proof.
  intros Hrec. destruct st as [bm bus]. destruct (evaluate_op_cases rec bm bus i)
    as [Hskip|op os Hi Hr Hch|op os bm1 Hi Hr Hch Hbm1|op os bm1 r result Hi Hr Hch Hp Hadj Hl Ha];
    intros H; simplify_eq.
  - by split.
  - apply same_cache_keeps; [by eapply recorded_config|done|done].
  - destruct (perform_operation _ _ _) as [bm1 r] eqn:E. cbn [fst].
    pose proof (performed_state (recorded bm i op os) (op_with_last_operands op (od_value <$> os)) os) as (_ & Hc & Hv).
    rewrite E in Hc, Hv. by apply same_cache_keeps; [eapply performed_config|..].
  - pose proof (performed_state (recorded bm i op os) (op_with_last_operands op (od_value <$> os)) os) as (_ & Hc & Hv).
    rewrite Hp in Hc, Hv. cbn [fst] in Hc, Hv.
    pose proof (performed_config bm i op os bm1 (Some r) Hi Hp) as Hsc.
    destruct (same_config_lookup bm bm1 i op Hsc Hi) as (op1 & Hi1 & Hc1).
    assert (Hcom : keeps_sources (bm, bus) (committed bm1 i op os result, bus)).
    { apply same_cache_keeps; [|exact Hc|exact Hv]. etransitivity; [exact Hsc|]. by eapply set_row_config. }
    destruct (commit_output_result _ _ _ _ _ _ _ _ H) as [bus1 Hres]. destruct (in_cache_range _) eqn:Er.
    + apply Hrec in Hres. destruct st' as [bm' bus']. cbn [fst] in *.
      assert (Hk : keeps_sources (bm, bus) (bm', bus1)); [|exact Hk].
      eapply keeps_sources_trans; [|exact Hres]. eapply keeps_sources_trans; [exact Hcom|].
      split; [apply cache_set_config|]. intros di Hs. cbn [fst] in *. unfold cached, cache_valid. cbn.
      assert (Hne : op_out_device_index op <> di).
      { pose proof (source_config _ bm di ltac:(symmetry; apply Hcom) Hs) as Hs0. unfold source in Hs0.
        rewrite Forall_lookup in Hs0. by eapply Hs0. }
      unfold in_cache_range in Er. apply andb_prop in Er as [H0 _]. apply Z.ltb_lt in H0.
      destruct (decide (Z.to_nat (op_out_device_index op) = Z.to_nat di)) as [He|]; [|by rewrite !list_lookup_insert_ne].
      exfalso. lia.
    + destruct st' as [bm' bus']. cbn [fst] in *. by subst bm'.
Qed.

Lemma evaluation_keeps_sources fuel bm bus st' :
  bm_evaluate_all fuel bm bus = Some st' -> keeps_sources (bm, bus) st'.
Proof.
  apply (evaluate_all_rel keeps_sources); [by split|apply keeps_sources_trans|apply evaluate_op_keeps_sources].
Qed.
End sources.

(** ** A report takes effect *)

Section effect.
Context {A : Type} (V : nat -> double -> Prop).
Hypothesis V_number : forall k v, V k v -> is_nan v = false.
Implicit Types bm : binding_map_t A.

(** Between two messages. *)
Record steady bm : Prop := {
  st_ordered : ordered bm;
  st_values : values_ok V bm;
  st_settled : forall j, row_stale bm j = false;
  st_faithful : faithful bm;
  st_cache : length (bm_value_cache bm) = S BM_MAX_ADDRS;
  st_valid : length (bm_value_valid bm) = S BM_MAX_ADDRS;
}.

(** The messages the processor looks at. *)
Definition taken (m : hes_clme_msg_t) : bool :=
  (((msg_verb m =? HES_VERB_EVENT) || (msg_verb m =? HES_VERB_GET)) && negb (msg_payload m =?s ""))%bool.

Definition reported (m : hes_clme_msg_t) : double := bm_datum_value (Some (msg_payload m)) (Some BM_LIVE_INPUT_PARAM).

(** The report gives the devices it is stored for values of their sets. *)
Definition admissible bm (m : hes_clme_msg_t) : Prop :=
  taken m = true -> forall inp, inp ∈ concat (op_inputs <$> bm_ops bm) -> input_matches m inp = true ->
    V (Z.to_nat (in_device_index inp)) (reported m).

Lemma admissible_config bm bm' m : same_config bm bm' -> admissible bm m -> admissible bm' m.
Proof.
  intros Hsc Ha Ht inp Hin. apply Ha; [done|].
  apply list_elem_of_In, in_concat in Hin as (ins & Hins & Hin).
  apply list_elem_of_In, list_elem_of_fmap in Hins as (op' & -> & [i Hi]%list_elem_of_lookup_1).
  destruct (same_config_lookup bm' bm i op' ltac:(by symmetry) Hi) as (op & Hi0 & Hc).
  pose proof (f_equal op_inputs Hc) as Hii. cbn in Hii.
  apply list_elem_of_In, in_concat. exists (op_inputs op). rewrite Hii. split; [|done].
  apply list_elem_of_In, list_elem_of_fmap. exists op. split; [done|]. by eapply list_elem_of_lookup_2.
Qed.

(** Every device no row writes holds what the message reports of it, or what it held. *)
Definition holds_report (m : hes_clme_msg_t) bm bm' : Prop :=
  forall di, 0 <= di -> source bm di ->
    if (taken m && reports_on (concat (op_inputs <$> bm_ops bm)) m di)%bool
    then cached bm' di = reported m /\ cache_valid bm' di = true
    else cached bm' di = cached bm di /\ cache_valid bm' di = cache_valid bm di.

(** A table none of whose inputs has reported. *)
Lemma fresh_steady bm : ordered bm -> values_ok V bm -> (forall di, cache_valid bm di = false) ->
  (forall op, op ∈ bm_ops bm -> op_last_operands op = None) ->
  length (bm_value_cache bm) = S BM_MAX_ADDRS -> length (bm_value_valid bm) = S BM_MAX_ADDRS -> steady bm.
Proof.
  intros Ho Hv Hc Hl. split; [done|done| | |done|done].
  - intros j. unfold row_stale. destruct (bm_ops bm !! j) as [op|]; [|done]. unfold stale, current_operands.
    assert (Hr : op_ready bm op = false); [|by rewrite Hr, andb_false_r].
    assert (Hi : forall i, input_ready bm i = false)
      by (intros i; unfold input_ready; rewrite Hc, orb_true_r; by destruct (_ && _)%bool).
    unfold op_ready. destruct (op_inputs op) as [|i ins]; [done|]. cbn. by rewrite Hi.
  - intros i op Hi _ ws Hw. rewrite (Hl op) in Hw; [done|by eapply list_elem_of_lookup_2].
Qed.

Lemma store_inputs_state m v ins bm u :
  values_ok V bm -> (forall inp, inp ∈ ins -> input_matches m inp = true -> V (Z.to_nat (in_device_index inp)) v) ->
  let st := fold_left (store_input m v) ins (bm, u) in
  values_ok V (fst st) /\ bm_ops (fst st) = bm_ops bm /\ (snd st = false -> u = false /\ fst st = bm).
Proof.
  revert bm u. induction ins as [|i ins IH]; intros bm u Hv HP; [done|]. cbn [fold_left].
  assert (HP' : forall inp, inp ∈ ins -> input_matches m inp = true -> V (Z.to_nat (in_device_index inp)) v)
    by (intros; apply HP; [by right|done]).
  unfold store_input at 2 4 6 8. destruct (_ && _ && _)%bool eqn:E; [|by apply IH].
  destruct (IH (bm_cache_set bm (in_device_index i) v) true) as (H1 & H2 & H3); [|done|].
  { apply (cache_set_values V); [done|]. apply HP; [left|]. by do 2 apply andb_prop in E as [E _]. }
  split_and!; [done|by rewrite H2|]. intros Hs. by destruct (H3 Hs).
Qed.

(** What a turn of the processor leaves: the report is held, and the rows [C] sent one command
    each, with the values they have in the end; no other row with a destination has a new one. *)
Definition report_outcome (m : hes_clme_msg_t) (bm : binding_map_t A) (bus : hes_bus_t) (bm' : binding_map_t A)
  (bus' : hes_bus_t) : Prop :=
  steady bm' /\ holds_report m bm bm' /\ exists C ms, bus_extends bus bus' ms /\ NoDup C /\
    Forall2 (fun i m => exists op, bm_ops bm' !! i = Some op /\ op_out_dest_object op <> "" /\ command_of op m) C ms /\
    forall i op op', bm_ops bm !! i = Some op -> bm_ops bm' !! i = Some op' -> op_out_dest_object op <> "" ->
      op_last_output op' <> op_last_output op -> i ∈ C.

Lemma outcome_idle m bm bus bm' :
  bm_ops bm' = bm_ops bm -> steady bm' -> holds_report m bm bm' -> report_outcome m bm bus bm' bus.
Proof.
  intros He Hst Hh. split; [done|]. split; [done|]. exists [], []. split_and!; [apply bus_extends_refl|constructor|constructor|].
  intros i op op' H1 H2 _ Hne. rewrite He in H2. congruence.
Qed.

Lemma sent_to_destinations (bm bm' : binding_map_t A) C ms : same_config bm bm' ->
  Forall2 (fun i m => exists op, bm_ops bm' !! i = Some op /\ command_of op m)
    (filter (fun i => has_destination bm i = true) C) ms ->
  Forall2 (fun i m => exists op, bm_ops bm' !! i = Some op /\ op_out_dest_object op <> "" /\ command_of op m)
    (filter (fun i => has_destination bm i = true) C) ms.
Proof.
  intros Hsc Hsent.
  assert (Hin : Forall (fun i => has_destination bm i = true) (filter (fun i => has_destination bm i = true) C))
    by (apply Forall_forall; by intros i [Hi _]%list_elem_of_filter).
  induction Hsent as [|i msg l ms (op & Hi & Hcmd) Hrest IH]; constructor; apply Forall_cons in Hin as [Hd Hin]; [|by apply IH].
  exists op. split_and!; [done| |done]. rewrite <- (has_destination_config bm bm' i Hsc) in Hd.
  unfold has_destination in Hd. rewrite Hi in Hd. apply negb_true_iff in Hd. by apply String.eqb_neq.
Qed.

Lemma handle_steady fuel bm bus m bm' bus' : steady bm -> admissible bm m ->
  bm_processor_handle fuel bm bus m = Some (bm', bus') -> report_outcome m bm bus bm' bus'.
Proof.
  intros [Ho Hv Hs Hf Hl1 Hl2] HP H. set (bm0 := bm_with_current_msg bm (Some m)).
  assert (Hst0 : steady bm0).
  { split; [exact Ho|exact Hv| |by eapply faithful_ext; [..|exact Hf]|done|done]. intros j. rewrite <- (Hs j).
    by apply row_stale_same_ops. }
  unfold bm_processor_handle in H. fold bm0 in H. destruct (_ && _)%bool eqn:Etk.
  { injection H as <- <-. apply outcome_idle; [done|done|]. intros di _ _. unfold taken.
    rewrite <- negb_orb in Etk. apply negb_true_iff in Etk. by rewrite Etk. }
  destruct (msg_payload m =?s "") eqn:Epl.
  { injection H as <- <-. apply outcome_idle; [done|done|]. intros di _ _. unfold taken. by rewrite Epl, andb_false_r. }
  assert (Htk : taken m = true).
  { unfold taken. rewrite Epl. rewrite <- negb_orb in Etk. apply negb_false_iff in Etk. by rewrite Etk. }
  cbv zeta in H. change (bm_datum_value _ _) with (reported m) in H. set (v := reported m) in *. unfold store_report in H.
  destruct (store_inputs_state m v (concat (op_inputs <$> bm_ops bm0)) bm0 false (st_values _ Hst0) (HP Htk)) as (Hv1 & Ho1 & Hn1).
  pose proof (store_inputs_config m v (concat (op_inputs <$> bm_ops bm0)) (bm0, false)) as Hsc.
  pose proof (store_inputs_spec m v (concat (op_inputs <$> bm_ops bm0)) bm0 false Hl1 Hl2) as Hspec.
  destruct (fold_left (store_input m v) _ _) as [bm1 u]. cbn [fst snd] in *. destruct Hspec as (Hstored & _ & _).
  change (bm_ops bm0) with (bm_ops bm) in Hstored.
  assert (Hh1 : holds_report m bm bm1).
  { intros di Hdi _. rewrite Htk. cbn [andb]. destruct (Hstored di Hdi) as [-> ->]. by destruct (reports_on _ m di). }
  destruct u; [|injection H as <- <-; destruct (Hn1 eq_refl) as [_ ->]; by apply outcome_idle].
  assert (Hord1 : ordered bm1) by (by eapply ordered_config; [exact Hsc|apply Hst0]).
  assert (Hf1 : faithful bm1) by (apply (faithful_ext bm0); [done|by destruct Hsc|apply Hst0]).
  pose proof (evaluate_all_settles V V_number _ _ _ _ Hv1 H) as Hs'.
  pose proof (evaluate_all_good V _ _ _ _ Hv1 H) as [Hsc' Hv'].
  pose proof (evaluation_faithful V V_number _ _ _ _ Hv1 Hf1 H) as Hf'. cbn [fst] in *.
  destruct (evaluation_follows V V_number fuel 0 bm1 bus (bm', bus') Hv1 Hord1 ltac:(intros j Hj; lia) H)
    as (C & [_ Hnd Hk (ms & Hb & Hsent)] & _). cbn [fst snd] in *.
  split; [split; [by eapply ordered_config|done|done|done| |]|].
  { rewrite (sc_cache _ _ Hsc'), (sc_cache _ _ Hsc). exact Hl1. }
  { rewrite (sc_valid _ _ Hsc'), (sc_valid _ _ Hsc). exact Hl2. }
  split.
  { intros di Hdi Hsrc. specialize (Hh1 di Hdi Hsrc). destruct (evaluation_keeps_sources _ _ _ _ H) as [_ Hk'].
    cbn [fst] in Hk'. destruct (Hk' di) as [-> ->]; [|exact Hh1].
    change (bm_ops bm0) with (bm_ops bm) in Ho1. unfold source. by rewrite Ho1. }
  exists (filter (fun i => has_destination bm1 i = true) C), ms. split_and!; [done|by apply NoDup_filter| |].
  - by apply (sent_to_destinations bm1).
  - intros i op op' Hi Hi' Hd Hne. apply list_elem_of_filter. change (bm_ops bm0) with (bm_ops bm) in Ho1. split.
    + unfold has_destination. rewrite Ho1, Hi. apply negb_true_iff. by apply String.eqb_neq.
    + destruct (decide (i ∈ C)) as [|Hn]; [done|]. exfalso. apply Hne. apply (Hk i); [done|by rewrite Ho1|done].
Qed.

Lemma handle_total fuel bm bus m : steady bm -> admissible bm m ->
  (length (bm_ops bm) * S (length (bm_ops bm)) ^ length (bm_ops bm) < fuel)%nat ->
  exists bm' bus', bm_processor_handle fuel bm bus m = Some (bm', bus').
Proof.
  intros [Ho Hv _ _ _ _] HP Hfuel. unfold bm_processor_handle. destruct (_ && _)%bool eqn:Etk; [by eexists _, _|].
  destruct (_ =?s "") eqn:Epl; [by eexists _, _|].
  assert (Htk : taken m = true).
  { unfold taken. rewrite Epl. rewrite <- negb_orb in Etk. apply negb_false_iff in Etk. by rewrite Etk. }
  cbv zeta. change (bm_datum_value _ _) with (reported m).
  set (v := reported m) in *. unfold store_report.
  set (bm0 := bm_with_current_msg bm (Some m)).
  destruct (store_inputs_state m v (concat (op_inputs <$> bm_ops bm0)) bm0 false Hv (HP Htk)) as (Hv1 & Ho1 & _).
  pose proof (store_inputs_config m v (concat (op_inputs <$> bm_ops bm0)) (bm0, false)) as Hsc.
  destruct (fold_left (store_input m v) _ _) as [bm1 u]. cbn [fst snd] in *. destruct u; [|by eexists _, _].
  set (n := length (bm_ops bm)) in *.
  assert (Ha : acyclic (fun i => i) n bm1) by (eapply acyclic_config; [exact Hsc|exact Ho]).
  destruct (evaluate_all_total V V_number (fun i => i) n n ltac:(intros; lia) fuel bm1 bus Hv1 Ha) as ([bm' bus'] & E & _).
  { pose proof (measure_bound (fun i => i) n n bm1). lia. }
  by exists bm', bus'.
Qed.

(** Every row that computes its output itself holds the result of its operation on the values
    in the cache, up to the sign of a zero among the operands. *)
Definition computed bm : Prop :=
  forall i op os, bm_ops bm !! i = Some op -> own_row bm op = true -> current_operands bm op = Some os ->
    exists vs, same_values vs (od_value <$> os) = true /\
      forall r, row_result op vs = Some r -> exists last, op_last_output op = Some last /\ d_eqb r last = true.

Lemma steady_computed bm : steady bm -> computed bm.
Proof.
  intros [_ _ Hs' Hf' _ _] i op os Hi Hown Hos.
  specialize (Hs' i). unfold row_stale in Hs'. rewrite Hi in Hs'. unfold stale in Hs'. rewrite Hos in Hs'.
  unfold inputs_changed in Hs'. destruct (op_last_operands op) as [ws|] eqn:El; [|done]. apply negb_false_iff in Hs'.
  destruct (Hf' i op Hi Hown ws El) as (vs & Hvs & Hr). exists vs. split; [by eapply same_values_trans|exact Hr].
Qed.

(** [rows] have each sent one command, and so has every row whose value changed. *)
Record commanded bm bm' (rows : list nat) (ms : list hes_clme_msg_t) : Prop := {
  cm_once : NoDup rows;
  cm_commands : Forall2 (fun i m => exists op, bm_ops bm' !! i = Some op /\ op_out_dest_object op <> "" /\ command_of op m) rows ms;
  cm_changed : forall i op op', bm_ops bm !! i = Some op -> bm_ops bm' !! i = Some op' -> op_out_dest_object op <> "" ->
    op_last_output op' <> op_last_output op -> i ∈ rows;
}.

Lemma report_effect fuel bm bus m :
  let n := length (bm_ops bm) in
  steady bm -> admissible bm m -> (n * S n ^ n < fuel)%nat ->
  exists bm' bus' rows ms,
    bm_processor_handle fuel bm bus m = Some (bm', bus') /\ steady bm' /\ holds_report m bm bm' /\
    bus_extends bus bus' ms /\ commanded bm bm' rows ms.
Proof.
  intros n Hst HP Hfuel. destruct (handle_total fuel bm bus m Hst HP Hfuel) as (bm' & bus' & H).
  destruct (handle_steady fuel bm bus m bm' bus' Hst HP H) as (Hst' & Hh & C & ms & Hb & Hnd & Hsent & Hch).
  by exists bm', bus', C, ms.
Qed.

End effect.

(** *** The temperature-controlled light *)

Lemma unheard {A} (bm : binding_map_t A) : forallb negb (bm_value_valid bm) = true ->
  forall di, cache_valid bm di = false.
Proof.
  intros H di. unfold cache_valid. destruct (bm_value_valid bm !! _) as [b|] eqn:E; [|done].
  rewrite forallb_forall in H. apply list_elem_of_lookup_2, list_elem_of_In, H in E. by destruct b.
Qed.

(** A table of built-in rows in order that has heard nothing, checked. *)
Definition fresh_table {A} (fin : nat -> bool) (bm : binding_map_t A) : bool :=
  (acyclic_check (fun i => i) (length (bm_ops bm)) bm && forallb (numeric_row fin) (bm_ops bm)
   && forallb negb (bm_value_valid bm)
   && forallb (fun op => match op_last_operands op with None => true | _ => false end) (bm_ops bm)
   && (length (bm_value_cache bm) =? S BM_MAX_ADDRS)%nat && (length (bm_value_valid bm) =? S BM_MAX_ADDRS)%nat)%bool.

Lemma fresh_table_steady {A} fin (bm : binding_map_t A) : fresh_table fin bm = true -> steady (value_set fin) bm.
Proof.
  unfold fresh_table. rewrite !andb_true_iff, !Nat.eqb_eq. intros (((((H1 & H2) & H3) & H4) & H5) & H6).
  apply fresh_steady; [by apply acyclic_checked| |by apply unheard| |done|done].
  - split; [split; [congruence|]|].
    + intros di Hdi. by rewrite (unheard bm H3) in Hdi.
    + intros op Hop. apply numeric_row_keeps. rewrite forallb_forall in H2. by apply H2, list_elem_of_In.
  - intros op Hop. rewrite forallb_forall in H4. apply list_elem_of_In, H4 in Hop. by destruct (op_last_operands op).
Qed.

Definition admissible_check {A} (fin : nat -> bool) (bm : binding_map_t A) (m : hes_clme_msg_t) : bool :=
  implb (taken m) (forallb (fun inp => implb (input_matches m inp)
    (if fin (Z.to_nat (in_device_index inp)) then is_finite (reported m) else negb (is_nan (reported m))))
    (concat (op_inputs <$> bm_ops bm))).

Lemma admissible_checked {A} fin (bm : binding_map_t A) m : admissible_check fin bm m = true -> admissible (value_set fin) bm m.
Proof.
  unfold admissible_check. intros H Ht inp Hin Hm. rewrite Ht in H. cbn in H. rewrite forallb_forall in H.
  apply list_elem_of_In, H in Hin. by rewrite Hm in Hin.
Qed.

(** The product row of the light reads two devices: the table is a table of src/tests/data. *)
Lemma ex_light_steady : steady (value_set light_finite) ex_light.
Proof. apply fresh_table_steady. by vm_compute. Qed.

Definition ex_temperature : hes_clme_msg_t := ex_event "/lx/ob/uo/hv/ts/as/cv" "31.5".


(** The report the table is not prepared for. *)
Example nan_inadmissible : ~ admissible numbers ex_light (ex_event "/lx/ob/uo/hv/ts/as/cv" "nan").
Proof.
  intros H. specialize (H ltac:(done) (mk_input 1 "/lx/ob/uo/hv/ts/as/cv" "pt" "fl" "pt") ltac:(left) ltac:(done)).
  by vm_compute in H.
Qed.

(** ** A row in front of a row it reads

    Row 0 adds the outputs of device 1 and of row 1, which repeats device 1. The report "2"
    makes row 0 commit 3 (with row 1's old value), and the recursion makes it commit 4; each
    PUT goes out after the recursion of its own commit, so 4 is sent before 3. *)
Definition ex_unordered : binding_map_t unit :=
  ex_map [ex_row "ad" [ex_input 1 "/t" ""; ex_input 2 "" ""] 3 "/d" "o1"; ex_row "ad" [ex_input 1 "/t" ""] 2 "" "o2"].

Lemma stale_command_is_sent_last :
  let after := (let* (bm1, bus1) := bm_processor_handle 30 ex_unordered ex_bus (ex_event "/t" "1") in
                bm_processor_handle 30 bm1 bus1 (ex_event "/t" "2")) in
  (let* (_, bus) := after in Some (msg_payload <$> bus_sent bus)) = Some ["2"; "4"; "3"] /\
  (let* (bm, _) := after in op_last_output <$> bm_ops bm !! 0%nat) = Some (Some (bm_datum_value (Some "4") None)).
Proof. by vm_compute. Qed.
