(* ===== verification/Dispatch.v ===== *)
(** * The Lexicon router

    Models src/src/common/hes_dispatch.c: the object that owns an address, the data
    points a request names, and the trimming of a table answer to them. [G] is the
    state the service objects of the module share. *)

From S2P Require Import Prelude CLib HesCommon.

(** ** Finding the object *)

(** [path] ends after [len] characters, or continues there with a '/'. *)
Definition on_boundary (path : string) (len : nat) : bool :=
  match str_drop len path with
  | EmptyString => true
  | String c _ => Ascii.eqb c "/"
  end.

Definition single_segment (s : string) : bool :=
  (negb (s =?s "") && match strchr "/" s with None => true | Some _ => false end)%bool.

Section find.
Context {G : Type}.

(** The selector with which an object answers for [path]: [None] when it does
    not, [Some None] when the address is exactly its own. *)
Definition owns (so : service_object_t G) (path : string) : option (option string) :=
  let len := String.length (so_path so) in
  if (negb (str_prefix (so_path so) path) || negb (on_boundary path len))%bool then None
  else
    match str_drop len path with
    | String c sel => if single_segment sel then Some (Some sel) else None
    | EmptyString => Some None
    end.

(** One turn of the loop: [best] is the object so far and its selector. *)
Definition find_step (path : string) (best : option (service_object_t G * option string))
  (so : service_object_t G) : option (service_object_t G * option string) :=
  match owns so path with
  | None => best
  | Some sel =>
      match best with
      | Some (b, _) =>
          if (String.length (so_path b) <? String.length (so_path so))%nat
          then Some (so, sel) else best
      | None => Some (so, sel)
      end
  end.

Definition find_object (objs : list (service_object_t G)) (path : string)
  : option (service_object_t G * option string) :=
  fold_left (find_step path) objs None.
End find.

(** ** The requested data points *)

(** [p] is what is left of the query, [prev] the character before it ([None]: [p] is
    the whole query), [skip] the rest of a [p += 3]. *)
Fixpoint da_scan (prev : option ascii) (skip : nat) (p : string) : option string :=
  match p with
  | EmptyString => None
  | String c r =>
      match skip with
      | S k => da_scan (Some c) k r
      | O =>
          if str_prefix "da=" p then
            if match prev with None => true | Some b => Ascii.eqb b "&" end
            then Some (str_drop 3 p)
            else da_scan (Some c) 2 r
          else da_scan (Some c) 0 r
      end
  end.

Definition da_list (query : string) : option string := da_scan None 0 query.

Definition is_comma_space (c : ascii) : bool := (Ascii.eqb c "," || Ascii.eqb c " ")%bool.
Definition ends_item (c : ascii) : bool := (Ascii.eqb c "," || Ascii.eqb c "&")%bool.

Fixpoint skip_while (p : ascii -> bool) (s : string) : string :=
  match s with
  | String c r => if p c then skip_while p r else s
  | EmptyString => EmptyString
  end.

Fixpoint take_until (p : ascii -> bool) (s : string) : string :=
  match s with
  | String c r => if p c then EmptyString else String c (take_until p r)
  | EmptyString => EmptyString
  end.

(** [while (end > p && end[-1] == ' ') end--;] *)
Fixpoint rtrim (s : string) : string :=
  match s with
  | String c r =>
      match rtrim r with
      | EmptyString => if Ascii.eqb c " " then EmptyString else String c EmptyString
      | r' => String c r'
      end
  | EmptyString => EmptyString
  end.

(** The item the scan reads next, and where it starts. *)
Definition next_start (p : string) : string := skip_while is_comma_space p.
Definition next_item (p : string) : string := rtrim (take_until ends_item (next_start p)).
Definition after_item (p : string) : string :=
  str_drop (String.length (next_item p)) (next_start p).

(** [fuel] bounds the turns of the outer loop. *)
Fixpoint requested (fuel : nat) (p : string) (name : string) : option bool :=
  match p with
  | EmptyString => Some false
  | String c _ =>
      if Ascii.eqb c "&" then Some false
      else
        match fuel with
        | O => None
        | S fuel' =>
            if next_item p =?s name then Some true else requested fuel' (after_item p) name
        end
  end.

(** ** Trimming an answer *)

(** The fuel is the length of the list, which each turn shortens. *)
Definition is_requested (wanted name : string) : bool :=
  default false (requested (String.length wanted) wanted name).

Fixpoint trim_records (wanted : string) (ps : list string) (kept : string) : string :=
  match ps with
  | [] => kept
  | p :: ps' =>
      let record := before ";" p in
      if is_requested wanted (before "=" record) then
        if (HES_PAYLOAD_MAX <? String.length kept + String.length record + 2)%nat then kept
        else trim_records wanted ps'
               (if kept =?s "" then record else (kept ++ ";" ++ record)%string)
      else trim_records wanted ps' kept
  end.

Definition trim_payload (msg : hes_clme_msg_t) (wanted : string) : hes_clme_msg_t :=
  hes_msg_set_payload_str msg (trim_records wanted (visits ";" (msg_payload msg)) "").

(** ** Dispatching a message

    [None]: the [memcpy] of [payload_len] bytes leaves the 512-byte payload arrays. *)
Section dispatch.
Context {G : Type}.

Definition get_request (so : service_object_t G) (inm : hes_clme_msg_t) : option hes_clme_msg_t :=
  let out := msg_with_query (hes_strlcpy HES_QUERY_MAX (msg_query inm))
               (hes_msg_set_path (msg_with_verb HES_VERB_EVENT hes_msg_init) (so_path so)) in
  if Z.of_nat HES_PAYLOAD_MAX <? msg_payload_len inm then None
  else Some (msg_with_raw_payload (msg_payload_len inm)
               (str_take (Z.to_nat (msg_payload_len inm)) (msg_payload inm)) out).

Definition dispatch_to_local_objects (g : G) (bus : hes_bus_t)
  (objs : list (service_object_t G)) (inm : hes_clme_msg_t) : option (G * hes_bus_t * bool) :=
  match find_object objs (msg_path inm) with
  | None => Some (g, bus, false)
  | Some (so, selector) =>
      let wanted := match selector with Some s => Some s | None => da_list (msg_query inm) end in
      match (if msg_verb inm =? HES_VERB_GET then so_on_get so else None) with
      | Some on_get =>
          let* out := get_request so inm in
          let '(g, out) := on_get g out in
          let out := match wanted with Some l => trim_payload out l | None => out end in
          Some (g, hes_bus_send bus out, true)
      | None =>
          match (if msg_verb inm =? HES_VERB_PUT then so_on_put so else None) with
          | Some on_put => Some (on_put g inm, bus, true)
          | None => Some (g, bus, true)
          end
      end
  end.
End dispatch.

(** ** The search *)
Section find_facts.
Context {G : Type}.
Implicit Types so : service_object_t G.

(** An object owns its own address and the addresses one segment below it. *)
Lemma owns_spec so path sel :
  owns so path = Some sel <->
  match sel with
  | None => path = so_path so
  | Some s => path = (so_path so ++ "/" ++ s)%string /\ single_segment s = true
  end.
Proof.
  unfold owns. destruct (str_prefix (so_path so) path) eqn:E; simpl.
  - apply str_prefix_spec in E as [r ->]. unfold on_boundary. rewrite str_drop_app.
    destruct r as [|c r]; simpl.
    + rewrite str_app_nil_r. split; [by intros [= <-]|]. destruct sel as [s|]; [|done].
      intros [H _]. exfalso. apply (f_equal String.length) in H. rewrite length_str_app in H.
      simpl in H. lia.
    + destruct (Ascii.eqb c "/") eqn:Ec; simpl.
      * apply Ascii.eqb_eq in Ec. subst c. destruct (single_segment r) eqn:Es.
        -- split; [intros [= <-]; done|]. destruct sel as [s|].
           ++ intros [H _]. apply str_app_inj in H. by simplify_eq.
           ++ intros H. exfalso. apply (f_equal String.length) in H. rewrite length_str_app in H.
              simpl in H. lia.
        -- split; [done|]. destruct sel as [s|].
           ++ intros [H Hs]. apply str_app_inj in H. simplify_eq. congruence.
           ++ intros H. exfalso. apply (f_equal String.length) in H. rewrite length_str_app in H.
              simpl in H. lia.
      * split; [done|]. destruct sel as [s|].
        -- intros [H Hs]. apply str_app_inj in H. by simplify_eq.
        -- intros H. exfalso. apply (f_equal String.length) in H. rewrite length_str_app in H.
           simpl in H. lia.
  - split; [done|]. intros H. exfalso. destruct sel as [s|]; [destruct H as [-> _]|subst path].
    + by rewrite str_prefix_app in E.
    + rewrite <- (str_app_nil_r (so_path so)) in E at 2. by rewrite str_prefix_app in E.
Qed.

Lemma find_step_owner path best so :
  (forall b s, best = Some (b, s) -> owns b path = Some s) ->
  forall b s, find_step path best so = Some (b, s) -> owns b path = Some s.
Proof.
  intros Hb b s. unfold find_step. destruct (owns so path) as [sel|] eqn:E; [|by apply Hb].
  destruct best as [[b0 s0]|]; [destruct (_ <? _)%nat|]; intros H; simplify_eq; try done.
  by apply Hb.
Qed.

(** The loop keeps the longest owner, and the first among equals. *)
Definition best_of (objs : list (service_object_t G)) (path : string)
  (best : option (service_object_t G * option string)) : Prop :=
  match best with
  | None => forall so, so ∈ objs -> owns so path = None
  | Some (b, sel) =>
      owns b path = Some sel /\
      (exists l1 l2, objs = l1 ++ b :: l2 /\
         forall so, so ∈ l1 -> owns so path <> None ->
           (String.length (so_path so) < String.length (so_path b))%nat) /\
      forall so, so ∈ objs -> owns so path <> None ->
        (String.length (so_path so) <= String.length (so_path b))%nat
  end.

Lemma find_object_best objs path : best_of objs path (find_object objs path).
Proof.
  unfold find_object. induction objs as [|so objs IH] using rev_ind.
  - intros so Hso. by apply not_elem_of_nil in Hso.
  - rewrite fold_left_app. simpl. unfold find_step at 1.
    destruct (owns so path) as [sel|] eqn:E.
    + destruct (fold_left _ objs None) as [[b s]|].
      * destruct IH as (Hb & (l1 & l2 & Ho & Hl1) & Hmax).
        destruct (_ <? _)%nat eqn:El; [apply Nat.ltb_lt in El|apply Nat.ltb_ge in El].
        -- split; [done|]. split.
           ++ exists objs, []. split; [done|]. intros so' Hin Hn. specialize (Hmax so' Hin Hn). lia.
           ++ intros so' [Hin|Hin%list_elem_of_singleton]%elem_of_app Hn;
                [specialize (Hmax so' Hin Hn)|subst]; lia.
        -- split; [done|]. split.
           ++ exists l1, (l2 ++ [so]). split; [by rewrite Ho, <- app_assoc|done].
           ++ intros so' [Hin|Hin%list_elem_of_singleton]%elem_of_app Hn; [by apply Hmax|by subst].
      * split; [done|]. split.
        -- exists objs, []. split; [done|]. intros so' Hin Hn. by rewrite IH in Hn.
        -- intros so' [Hin|Hin%list_elem_of_singleton]%elem_of_app Hn; [by rewrite IH in Hn|by subst].
    + destruct (fold_left _ objs None) as [[b s]|].
      * destruct IH as (Hb & (l1 & l2 & Ho & Hl1) & Hmax). split; [done|]. split.
        -- exists l1, (l2 ++ [so]). split; [by rewrite Ho, <- app_assoc|done].
        -- intros so' [Hin|Hin%list_elem_of_singleton]%elem_of_app Hn; [by apply Hmax|by subst].
      * intros so' [Hin|Hin%list_elem_of_singleton]%elem_of_app; [by apply IH|by subst].
Qed.
End find_facts.
