(* ===== verification/DispatchFacts.v ===== *)
(** * The Lexicon router: which data an answer carries

    The scan of a 'da' list agrees with splitting the list at its commas and
    trimming the parts, and an answer is cut down to exactly the data asked for, in
    the order of the object's own table. *)

From S2P Require Import Prelude CLib HesCommon Bm BmLoad Dispatch.

(** ** The reference reading of a 'da' list *)

Fixpoint split_at (c : ascii) (s : string) : list string :=
  match s with
  | EmptyString => [EmptyString]
  | String a r =>
      if Ascii.eqb a c then EmptyString :: split_at c r
      else match split_at c r with
           | x :: xs => String a x :: xs
           | [] => [String a EmptyString]
           end
  end.

Definition ltrim (s : string) : string := skip_while (fun c => Ascii.eqb c " ") s.
Definition trim (s : string) : string := rtrim (ltrim s).

(** The names of a list: the part before '&', split at the commas, trimmed. *)
Definition names (p : string) : list string :=
  filter (fun x => x <> "") (trim <$> split_at "," (before "&" p)).

Lemma split_at_cons c s : exists x xs, split_at c s = x :: xs.
Proof.
  destruct s as [|a s]; simpl; [eauto|]. destruct (Ascii.eqb a c); [eauto|].
  destruct (split_at c s); eauto.
Qed.

Lemma names_comma r : names (String "," r) = names r.
Proof. unfold names. simpl. by rewrite filter_cons_False by (by intros H). Qed.

Lemma names_amp r : names (String "&" r) = [].
Proof. done. Qed.

Lemma names_space r : names (String " " r) = names r.
Proof.
  unfold names. simpl. destruct (split_at_cons "," (before "&" r)) as (x & xs & ->). done.
Qed.

Lemma names_next_start p : names (next_start p) = names p.
Proof.
  unfold next_start. induction p as [|c p IH]; simpl; [done|].
  unfold is_comma_space. destruct (Ascii.eqb c ",") eqn:E1; simpl.
  { apply Ascii.eqb_eq in E1. subst c. by rewrite names_comma. }
  destruct (Ascii.eqb c " ") eqn:E2; [|done].
  apply Ascii.eqb_eq in E2. subst c. by rewrite names_space.
Qed.

(** What follows the text of an item. *)
Fixpoint drop_until (p : ascii -> bool) (s : string) : string :=
  match s with
  | String c r => if p c then s else drop_until p r
  | EmptyString => EmptyString
  end.

Lemma take_drop_until p s : (take_until p s ++ drop_until p s)%string = s.
Proof. induction s as [|c s IH]; simpl; [done|]. destruct (p c); simpl; [done|]. by rewrite IH. Qed.

Lemma split_take_until p :
  exists xs, split_at "," (before "&" p) = take_until ends_item p :: xs /\
    names (drop_until ends_item p) = filter (fun x => x <> "") (trim <$> xs).
Proof.
  induction p as [|c p IH]; [by exists []|]. cbn [before take_until drop_until].
  destruct (ends_item c) eqn:E; unfold ends_item in E.
  - destruct (Ascii.eqb c ",") eqn:Ec.
    + apply Ascii.eqb_eq in Ec. subst c. exists (split_at "," (before "&" p)).
      split; [done|]. by rewrite names_comma.
    + apply Ascii.eqb_eq in E. subst c. by exists [].
  - apply orb_false_elim in E as [Ec Ea]. rewrite Ea. cbn [split_at]. rewrite Ec.
    destruct IH as (xs & -> & Hn). by exists xs.
Qed.

Lemma rtrim_spaces t : exists sp, t = (rtrim t ++ sp)%string /\ str_forallb (fun c => Ascii.eqb c " ") sp = true.
Proof.
  induction t as [|c t (sp & Ht & Hsp)]; simpl; [by exists ""|].
  destruct (rtrim t) as [|a r] eqn:E.
  - destruct (Ascii.eqb c " ") eqn:Ec.
    + exists (String c sp). simpl in *. rewrite Ec. by subst.
    + exists sp. by subst.
  - exists sp. simpl in *. by rewrite <- Ht.
Qed.

Lemma names_spaces sp r : str_forallb (fun c => Ascii.eqb c " ") sp = true -> names (sp ++ r) = names r.
Proof.
  induction sp as [|c sp IH]; simpl; [done|]. intros [Hc Hs]%andb_prop.
  apply Ascii.eqb_eq in Hc. subst c. rewrite names_space. by apply IH.
Qed.

Lemma next_start_head p :
  match next_start p with String c _ => is_comma_space c = false | EmptyString => True end.
Proof.
  unfold next_start. induction p as [|c p IH]; simpl; [done|].
  destruct (is_comma_space c) eqn:E; [done|by rewrite E].
Qed.

Lemma ltrim_next_start p :
  ltrim (take_until ends_item (next_start p)) = take_until ends_item (next_start p).
Proof.
  pose proof (next_start_head p) as H. destruct (next_start p) as [|c r]; simpl; [done|].
  destruct (ends_item c); [done|]. unfold ltrim. simpl. unfold is_comma_space in H.
  apply orb_false_elim in H as [_ H]. by rewrite H.
Qed.

(** One turn of the scan: the item in front, then the names that follow it. *)
Lemma names_step p :
  names p = filter (fun x => x <> "") [next_item p] ++ names (after_item p).
Proof.
  rewrite <- (names_next_start p). unfold after_item, next_item.
  destruct (split_take_until (next_start p)) as (xs & Hs & Hn).
  unfold names at 1. rewrite Hs. cbn [fmap list_fmap].
  assert (Ht : trim (take_until ends_item (next_start p)) =
               rtrim (take_until ends_item (next_start p)))
    by (unfold trim; by rewrite ltrim_next_start).
  rewrite Ht.
  pose proof (filter_app (fun x : string => x <> "") [rtrim (take_until ends_item (next_start p))]
    (trim <$> xs)) as Hf.
  cbn [app] in Hf. etransitivity; [exact Hf|]. clear Hf. f_equal.
  pose proof (take_drop_until ends_item (next_start p)) as Htd.
  destruct (rtrim_spaces (take_until ends_item (next_start p))) as (sp & Hsp & Hsps).
  assert (Hd : next_start p = (rtrim (take_until ends_item (next_start p)) ++
    (sp ++ drop_until ends_item (next_start p)))%string)
    by (rewrite <- str_app_assoc, <- Hsp; by rewrite Htd).
  rewrite Hd at 2. rewrite str_drop_app, names_spaces by done. by rewrite Hn.
Qed.

Lemma length_after_item p :
  (String.length (after_item p) + String.length (next_item p) <= String.length (next_start p))%nat.
Proof.
  unfold after_item, next_item.
  pose proof (take_drop_until ends_item (next_start p)) as Htd.
  destruct (rtrim_spaces (take_until ends_item (next_start p))) as (sp & Hsp & _).
  assert (Hd : next_start p = (rtrim (take_until ends_item (next_start p)) ++
    (sp ++ drop_until ends_item (next_start p)))%string)
    by (rewrite <- str_app_assoc, <- Hsp; by rewrite Htd).
  rewrite Hd at 2 4. rewrite str_drop_app, !length_str_app. lia.
Qed.

Lemma length_skip_while q s : (String.length (skip_while q s) <= String.length s)%nat.
Proof. induction s as [|c s IH]; simpl; [done|]. destruct (q c); simpl; lia. Qed.

Lemma after_item_shorter c p :
  Ascii.eqb c "&" = false ->
  (String.length (after_item (String c p)) < String.length (String c p))%nat.
Proof.
  intros Hc. pose proof (length_after_item (String c p)) as H.
  destruct (is_comma_space c) eqn:E.
  - unfold next_start in H. simpl in H. rewrite E in H.
    pose proof (length_skip_while is_comma_space p). simpl. lia.
  - assert (Hn : next_start (String c p) = String c p) by (unfold next_start; simpl; by rewrite E).
    rewrite Hn in H. assert (Hi : next_item (String c p) <> ""); [|destruct (next_item (String c p)); [done|]].
    + unfold next_item. rewrite Hn. simpl. unfold is_comma_space in E. unfold ends_item at 1.
      apply orb_false_elim in E as [E1 E2]. rewrite E1, Hc. simpl.
      destruct (rtrim _); [by rewrite E2|done].
    + simpl in *. lia.
Qed.

Lemma requested_names fuel p name :
  (String.length p <= fuel)%nat -> name <> "" ->
  requested fuel p name = Some (bool_decide (name ∈ names p)).
Proof.
  revert p. induction fuel as [|fuel IH]; intros [|c p] Hl Hn; simpl in Hl; [|lia| |]; try done.
  cbn [requested]. destruct (Ascii.eqb c "&") eqn:Ec.
  - apply Ascii.eqb_eq in Ec. subst c. by rewrite names_amp.
  - rewrite names_step. destruct (next_item (String c p) =?s name) eqn:Ei.
    + apply String.eqb_eq in Ei. rewrite Ei. rewrite filter_cons_True by done.
      f_equal. symmetry. apply bool_decide_eq_true. by left.
    + apply String.eqb_neq in Ei. pose proof (after_item_shorter c p Ec). simpl in H.
      rewrite IH by (done || lia). f_equal. apply bool_decide_ext. rewrite elem_of_app.
      split; [by right|]. intros [H'|H']; [|done]. exfalso.
      apply list_elem_of_filter in H' as [_ H']. by apply list_elem_of_singleton in H'.
Qed.

Lemma is_requested_names wanted name :
  name <> "" -> is_requested wanted name = bool_decide (name ∈ names wanted).
Proof. intros Hn. unfold is_requested. by rewrite requested_names. Qed.

(** ** Trimming a table answer *)

Definition selected (wanted : string) (t : list (string * string)) : list (string * string) :=
  filter (fun d => fst d ∈ names wanted) t.

Fixpoint weight_of (t : list (string * string)) : nat :=
  match t with
  | [] => 0
  | d :: t' => String.length (render_datum d) + 1 + weight_of t'
  end.

Lemma render_cons d t :
  render_table (d :: t) =
  (render_datum d ++ match t with [] => "" | _ => ";" ++ render_table t end)%string.
Proof. destruct t as [|d2 t]; [|done]. unfold render_table. simpl. by rewrite str_app_nil_r. Qed.

Lemma render_snoc ks d :
  Forall datum_ok ks ->
  (if render_table ks =?s "" then render_datum d else (render_table ks ++ ";" ++ render_datum d)%string)
  = render_table (ks ++ [d]).
Proof.
  induction ks as [|k ks IH]; intros Hk; [done|].
  inversion Hk as [|? ? Hk1 Hk2]; subst. specialize (IH Hk2).
  destruct (render_datum_ok k Hk1) as [Hne _].
  assert (Hr : (render_table (k :: ks) =?s "") = false).
  { apply String.eqb_neq. rewrite render_cons. intros H. by destruct (render_datum k). }
  rewrite Hr, <- app_comm_cons, !render_cons.
  destruct ks as [|k2 ks].
  - cbn [app]. rewrite str_app_nil_r. by rewrite render_cons, str_app_nil_r.
  - inversion Hk2 as [|? ? Hk3 _]; subst. destruct (render_datum_ok k2 Hk3) as [Hne2 _].
    assert (Hr2 : (render_table (k2 :: ks) =?s "") = false).
    { apply String.eqb_neq. rewrite render_cons. intros H. by destruct (render_datum k2). }
    rewrite Hr2 in IH. rewrite <- app_comm_cons in *. rewrite <- IH.
    by rewrite !str_app_assoc.
Qed.

Lemma length_render t :
  (String.length (render_table t) + (match t with [] => 0 | _ => 1 end) = weight_of t)%nat.
Proof.
  induction t as [|d t IH]; [done|]. rewrite render_cons. cbn [weight_of].
  destruct t as [|d2 t]; [rewrite str_app_nil_r; simpl; lia|].
  rewrite length_str_app. cbn [String.append String.length]. cbn [String.append] in *. lia.
Qed.

Lemma weight_of_app t u : weight_of (t ++ u) = (weight_of t + weight_of u)%nat.
Proof. induction t as [|d t IH]; simpl; [done|]. lia. Qed.

Lemma trim_records_step wanted d rest ps kept :
  datum_ok d -> (rest = "" \/ exists r, rest = String ";" r) ->
  (String.length kept + String.length (render_datum d) + 2 <= HES_PAYLOAD_MAX)%nat ->
  trim_records wanted ((render_datum d ++ rest)%string :: ps) kept =
  trim_records wanted ps
    (if decide (fst d ∈ names wanted) then
       if kept =?s "" then render_datum d else (kept ++ ";" ++ render_datum d)%string
     else kept).
Proof.
  intros Hd Hrest Hlen. cbn [trim_records]. destruct (render_datum_ok d Hd) as [_ Hno].
  assert (Hb : before ";" (render_datum d ++ rest) = render_datum d).
  { destruct Hrest as [->|[r ->]]; [by rewrite str_app_nil_r, before_no_char|by apply before_app_char]. }
  rewrite Hb. destruct Hd as (Hne & Heq & _ & _).
  assert (Hn : before "=" (render_datum d) = fst d) by (unfold render_datum; by apply before_app_char).
  rewrite Hn, is_requested_names by done. destruct (decide (fst d ∈ names wanted)) as [Hin|Hin].
  - rewrite bool_decide_eq_true_2 by done. rewrite (proj2 (Nat.ltb_ge _ _)) by lia. done.
  - by rewrite bool_decide_eq_false_2 by done.
Qed.

Lemma trim_records_table wanted t ks :
  Forall datum_ok t -> Forall datum_ok ks -> (weight_of ks + weight_of t < HES_PAYLOAD_MAX)%nat ->
  trim_records wanted (visits ";" (render_table t)) (render_table ks) =
  render_table (ks ++ selected wanted t).
Proof.
  intros Ht. revert ks. induction Ht as [|d t Hd Ht IH]; intros ks Hks Hlen.
  { simpl. by rewrite app_nil_r. }
  pose proof (length_render ks) as Hlk. cbn [weight_of] in Hlen.
  destruct (render_datum_ok d Hd) as [Hne Hno]. pose proof IH as IH'.
  assert (Hstep : forall rest ps, (rest = "" \/ exists r, rest = String ";" r) ->
    (forall ks, Forall datum_ok ks -> (weight_of ks + weight_of t < HES_PAYLOAD_MAX)%nat ->
       trim_records wanted ps (render_table ks) = render_table (ks ++ selected wanted t)) ->
    trim_records wanted ((render_datum d ++ rest)%string :: ps) (render_table ks) =
    render_table (ks ++ selected wanted (d :: t))).
  { intros rest ps Hrest Hps. rewrite trim_records_step by (done || lia).
    unfold selected. destruct (decide (fst d ∈ names wanted)) as [Hin|Hin].
    - rewrite filter_cons_True by done. rewrite render_snoc by done. rewrite Hps.
      + unfold selected. by rewrite <- app_assoc.
      + apply Forall_app. split; [done|]. by constructor.
      + rewrite weight_of_app. simpl. lia.
    - rewrite filter_cons_False by done. apply Hps; [done|]. lia. }
  destruct t as [|d2 t].
  - rewrite render_cons. rewrite str_app_nil_r, visits_last by done.
    rewrite <- (str_app_nil_r (render_datum d)). apply Hstep; [by left|].
    intros ks' Hks' _. simpl. by rewrite app_nil_r.
  - rewrite render_cons. change (";" ++ ?x)%string with (String ";" x).
    rewrite visits_cons by done. apply Hstep; [right; by eexists|exact IH'].
Qed.

(** ** Properties of the router *)
Section router.
Context {G : Type}.
Implicit Types so : service_object_t G.

(** An address goes to the object it names: the object found is the longest
    registered address that the path equals or extends by one segment (the first of
    them in the table), the selector is that segment, an object registered under
    exactly the path always wins, and nothing is found only when nothing owns the
    path. *)
Theorem find_object_longest (objs : list (service_object_t G)) path :
  match find_object objs path with
  | Some (so, sel) =>
      path = match sel with
             | None => so_path so
             | Some s => (so_path so ++ "/" ++ s)%string
             end /\
      (exists l1 l2, objs = l1 ++ so :: l2 /\ forall so', so' ∈ l1 -> so_path so' <> so_path so) /\
      (forall so', so' ∈ objs -> so_path so' = path -> sel = None) /\
      forall so' s, so' ∈ objs -> path = (so_path so' ++ "/" ++ s)%string ->
        single_segment s = true ->
        (String.length (so_path so') <= String.length (so_path so))%nat
  | None => forall so, so ∈ objs -> so_path so <> path /\
      forall s, single_segment s = true -> path <> (so_path so ++ "/" ++ s)%string
  end.
Proof.
  pose proof (find_object_best objs path) as H. unfold best_of in H.
  destruct (find_object objs path) as [[so sel]|].
  - destruct H as (Ho & (l1 & l2 & Hl & Hl1) & Hmax). pose proof Ho as Hs.
    rewrite owns_spec in Hs. repeat split.
    + destruct sel; [by destruct Hs|done].
    + exists l1, l2. split; [done|]. intros so' Hin Heq.
      assert (Hn : owns so' path <> None).
      { intros Hno. assert (owns so' path = Some sel) by (apply owns_spec; by rewrite Heq). congruence. }
      specialize (Hl1 so' Hin Hn). rewrite Heq in Hl1. lia.
    + intros so' Hin Heq. destruct sel as [s|]; [|done]. exfalso. destruct Hs as [Hp _].
      assert (Hn : owns so' path <> None).
      { intros Hno. assert (owns so' path = Some None) by (by apply owns_spec). congruence. }
      specialize (Hmax so' Hin Hn). rewrite Heq, Hp, length_str_app in Hmax. simpl in Hmax. lia.
    + intros so' s Hin Hp Hseg. apply Hmax; [done|]. intros Hno.
      assert (owns so' path = Some (Some s)) by (by apply owns_spec). congruence.
  - intros so Hin. specialize (H so Hin). split; [intros Hp|intros s Hseg Hp].
    + assert (owns so path = Some None) by (by apply owns_spec). congruence.
    + assert (owns so path = Some (Some s)) by (by apply owns_spec). congruence.
Qed.

(** The data points a request names: the trailing segment, else the 'da' list. *)
Definition request_list (selector : option string) (inm : hes_clme_msg_t) : option string :=
  match selector with Some s => Some s | None => da_list (msg_query inm) end.

(** C36: a GET of an object that answers with a table is answered by exactly one
    EVENT from the object's own address, whose payload is the records of that table
    asked for by the trailing segment or the 'da' list (split at commas, trimmed), in
    the order of the table; without a list it is the whole table. *)
Theorem get_answers_requested_data (g : G) bus objs inm so selector on_get g' t :
  find_object objs (msg_path inm) = Some (so, selector) -> so_on_get so = Some on_get ->
  msg_verb inm = HES_VERB_GET -> 0 <= msg_payload_len inm <= 512 ->
  (forall req, get_request so inm = Some req -> exists out, on_get g req = (g', out) /\
     msg_payload out = render_table t /\ msg_path out = msg_path req /\
     msg_verb out = msg_verb req) ->
  Forall datum_ok t -> (String.length (render_table t) <= 510)%nat ->
  exists bus' m, dispatch_to_local_objects g bus objs inm = Some (g', bus', true) /\
    bus_extends bus bus' [m] /\
    msg_verb m = HES_VERB_EVENT /\ msg_path m = hes_strlcpy HES_PATH_MAX (so_path so) /\
    msg_payload m = render_table match request_list selector inm with
                                 | Some l => selected l t
                                 | None => t
                                 end.
Proof.
  intros Hf Hg Hverb Hlen Hon Ht Hsz. unfold dispatch_to_local_objects. rewrite Hf, Hverb, Hg.
  rewrite Z.eqb_refl. unfold get_request in *. unfold HES_PAYLOAD_MAX in *.
  rewrite (proj2 (Z.ltb_ge _ _)) in * by lia.
  destruct (Hon _ eq_refl) as (out & Hout & Hp & Hpath & Hv). cbn -[hes_strlcpy str_take] in Hout.
  cbn -[hes_strlcpy str_take hes_bus_send trim_payload]. rewrite Hout.
  fold (request_list selector inm). eexists.
  destruct (bus_extends_send bus
    (match request_list selector inm with Some l => trim_payload out l | None => out end))
    as (m & Hm & Hmp & Hmv & _ & Hml & _).
  exists m. split; [done|]. split; [done|]. rewrite Hmp, Hmv, Hml.
  destruct (request_list selector inm) as [l|]; [|by rewrite Hv, Hpath, Hp].
  unfold trim_payload. cbn [msg_verb msg_path msg_payload hes_msg_set_payload_str].
  rewrite Hv, Hpath, Hp. split; [done|]. split; [done|].
  pose proof (length_render t) as Hw.
  pose proof (trim_records_table l t [] Ht ltac:(constructor)) as Htr. simpl weight_of in Htr.
  change (render_table []) with "" in Htr. rewrite Htr by (unfold HES_PAYLOAD_MAX; destruct t; lia). cbn [app].
  apply hes_strlcpy_small. unfold HES_PAYLOAD_MAX.
  assert (Hsel : (weight_of (selected l t) <= weight_of t)%nat).
  { clear. unfold selected. induction t as [|d t IH]; [done|].
    destruct (decide (fst d ∈ names l)); [rewrite filter_cons_True by done|rewrite filter_cons_False by done];
      simpl; lia. }
  pose proof (length_render (selected l t)). destruct t; destruct (selected l _); lia.
Qed.

(** The length field of a message is used as it came: a GET with a
    [payload_len] above 512 for an object that answers makes the copy of the
    payload run past both 512-byte arrays. *)
Theorem oversized_length_overruns (g : G) bus objs inm so selector on_get :
  find_object objs (msg_path inm) = Some (so, selector) -> so_on_get so = Some on_get ->
  msg_verb inm = HES_VERB_GET -> 512 < msg_payload_len inm ->
  dispatch_to_local_objects g bus objs inm = None.
Proof.
  intros Hf Hg Hverb Hlen. unfold dispatch_to_local_objects. rewrite Hf, Hverb, Hg.
  rewrite Z.eqb_refl. unfold get_request, HES_PAYLOAD_MAX. by rewrite (proj2 (Z.ltb_lt _ _)).
Qed.
End router.

(** An object that answers with a fixed table. *)
Definition ex_object : service_object_t unit :=
  mk_so "/lx/ob/so/id"
    (Some (fun g m => (g, hes_msg_set_payload_str m (render_table [("rq", "ma"); ("si", "ye"); ("ne", "hub")]))))
    None None.

Definition ex_get (path query : string) (len : Z) : hes_clme_msg_t :=
  msg_with_raw_payload len ""
    (msg_with_query query (hes_msg_set_path (msg_with_verb HES_VERB_GET hes_msg_init) path)).

Lemma get_answers_requested_data_witness :
  exists bus' m,
    dispatch_to_local_objects tt (mk_bus [] (fun _ => mk_reading None 0)) [ex_object]
      (ex_get "/lx/ob/so/id" "ei=1&da=si, rq" 0) = Some (tt, bus', true) /\
    bus_extends (mk_bus [] (fun _ => mk_reading None 0)) bus' [m] /\
    msg_verb m = HES_VERB_EVENT /\ msg_path m = "/lx/ob/so/id" /\
    msg_payload m = render_table (selected "si, rq" [("rq", "ma"); ("si", "ye"); ("ne", "hub")]).
Proof.
  apply (get_answers_requested_data tt (mk_bus [] (fun _ => mk_reading None 0)) [ex_object]
    (ex_get "/lx/ob/so/id" "ei=1&da=si, rq" 0) ex_object None
    (fun g m => (g, hes_msg_set_payload_str m (render_table [("rq", "ma"); ("si", "ye"); ("ne", "hub")])))
    tt [("rq", "ma"); ("si", "ye"); ("ne", "hub")]);
    [reflexivity|reflexivity|reflexivity|simpl; lia| | |vm_compute; lia].
  - intros req Hreq. injection Hreq as <-. eexists. repeat split.
  - repeat constructor; discriminate.
Defined.

Example ex_selected :
  selected "si, rq" [("rq", "ma"); ("si", "ye"); ("ne", "hub")] = [("rq", "ma"); ("si", "ye")].
Proof. reflexivity. Qed.

Lemma oversized_length_overruns_witness :
  dispatch_to_local_objects tt (mk_bus [] (fun _ => mk_reading None 0)) [ex_object]
    (ex_get "/lx/ob/so/id" "" 600) = None.
Proof.
  eapply (oversized_length_overruns tt _ [ex_object] (ex_get "/lx/ob/so/id" "" 600) ex_object None);
    [reflexivity|reflexivity|reflexivity|simpl; lia].
Defined.
