(* ===== verification/Json.v ===== *)
(** * JSON documents

    The value type of the JSON documents the program reads (jansson's [json_t], by
    its documented types) and the readers the program's files define on it:
    [jobj_int], [jobj_str], [jobj_array] of src/src/services/auth/auth.c. Reading a
    file is a parameter of the functions that do it. *)

From S2P Require Import Prelude CLib HesCommon.

#[warnings="-register-all"]
Inductive json :=
| JNull
| JBool (b : bool)
| JInteger (z : Z)
| JReal (d : double)
| JString (s : string)
| JArray (l : list json)
| JObject (members : list (string * json)).

(** [json_object_get]: NULL for a missing member and for anything but an object. *)
Definition json_object_get (o : option json) (key : string) : option json :=
  match o with
  | Some (JObject ms) => snd <$> find_first (fun m => fst m =?s key) ms
  | _ => None
  end.

#[global] Arguments json_object_get : simpl never.

Definition json_is_object (v : json) : bool :=
  match v with JObject _ => true | _ => false end.

Definition jobj_int (o : option json) (key : string) (def : Z) : Z :=
  match json_object_get o key with
  | Some (JInteger z) => int32 z
  | _ => def
  end.

(** A member that is missing or not a string leaves the buffer as it was. *)
Definition jobj_str (o : option json) (key : string) (cap : nat) (dst : string) : string :=
  match json_object_get o key with
  | Some (JString s) => hes_strlcpy cap s
  | _ => dst
  end.

Definition jobj_array (root : option json) (key : string) : option (list json) :=
  match json_object_get root key with
  | Some (JArray l) => Some l
  | _ => None
  end.

(** [for (i = 0; i < size && n < max; i++)] over the objects of an array, building
    one entry per object. *)
Fixpoint load_rows {T} (max : nat) (row : json -> T) (l : list json) (acc : list T) : list T :=
  match l with
  | [] => acc
  | v :: l' =>
      if (max <=? length acc)%nat then acc
      else load_rows max row l' (if json_is_object v then acc ++ [row v] else acc)
  end.

(** A text of the program's JSON, written with ' for the double quote. *)
Definition dq (template : string) : string :=
  str_map (fun c => if Ascii.eqb c "'" then chr 34 else c) template.

Lemma length_dq t : String.length (dq t) = String.length t.
Proof. unfold dq. induction t as [|c t IH]; simpl; [done|by f_equal]. Qed.

Lemma load_rows_spec {T} max (row : json -> T) l acc :
  (length acc <= max)%nat ->
  load_rows max row l acc = acc ++ take (max - length acc) (row <$> filter (fun v => json_is_object v = true) l).
Proof.
  revert acc. induction l as [|v l IH]; intros acc Hacc; simpl.
  { by rewrite take_nil, app_nil_r. }
  destruct (max <=? length acc)%nat eqn:E.
  - apply Nat.leb_le in E. replace (max - length acc)%nat with 0%nat by lia. by rewrite app_nil_r.
  - apply Nat.leb_gt in E. destruct (json_is_object v) eqn:Ev.
    + rewrite filter_cons_True by done. rewrite IH by (rewrite length_app; simpl; lia).
      rewrite length_app. cbn [length fmap list_fmap].
      replace (max - length acc)%nat with (S (max - (length acc + 1))) by lia. simpl.
      by rewrite <- app_assoc.
    + rewrite filter_cons_False by congruence. by apply IH.
Qed.

Lemma load_rows_length {T} max (row : json -> T) l :
  (length (load_rows max row l []) <= max)%nat.
Proof. rewrite load_rows_spec by (simpl; lia). simpl. rewrite length_take. lia. Qed.
