(* ===== verification/JsonText.v ===== *)
(** * Texts of JSON documents

    The part of RFC 8259 the program's renderers write, as a relation between documents and
    texts: objects, arrays, strings of printable ASCII without quotes and backslashes, integers,
    and white space wherever the standard allows it. What the code relies on jansson's
    [json_loads] for is [reads_json]: every text of a document that is not nested beyond the
    parser's limit is read as that document. The
    reader [read_json] has this property, which shows that it can be had: no text is one of two
    documents. *)

From Stdlib Require Import DecimalString DecimalZ.
From S2P Require Import Prelude CLib HesCommon Json.

(** ** The grammar *)

Definition is_ws (c : ascii) : bool :=
  (Ascii.eqb c " " || Ascii.eqb c (ascii_of_nat 9) || Ascii.eqb c (ascii_of_nat 10) || Ascii.eqb c (ascii_of_nat 13))%bool.

Definition ws (s : string) : Prop := str_forallb is_ws s = true.

(** Printable ASCII that JSON writes as it is. *)
Definition is_plain (c : ascii) : bool :=
  ((32 <=? nat_of_ascii c)%nat && (nat_of_ascii c <? 127)%nat &&
   negb (Ascii.eqb c (ascii_of_nat 34)) && negb (Ascii.eqb c "\"))%bool.

Definition plain (s : string) : Prop := str_forallb is_plain s = true.

Definition quote (s : string) : string := String (chr 34) (s ++ String (chr 34) "").

Definition is_long_integer (z : Z) : Prop := - 2 ^ 63 <= z < 2 ^ 63.

Inductive value_text : json -> string -> Prop :=
| text_integer z : is_long_integer z -> value_text (JInteger z) (fmt_d z)
| text_string s : plain s -> value_text (JString s) (quote s)
| text_empty_array w : ws w -> value_text (JArray []) ("[" ++ w ++ "]")
| text_array js t : items_text js t -> value_text (JArray js) ("[" ++ t ++ "]")
| text_empty_object w : ws w -> value_text (JObject []) ("{" ++ w ++ "}")
| text_object ms t : NoDup (fst <$> ms) -> members_text ms t -> value_text (JObject ms) ("{" ++ t ++ "}")
with items_text : list json -> string -> Prop :=
| items_one w1 j t w2 : ws w1 -> ws w2 -> value_text j t -> items_text [j] (w1 ++ t ++ w2)
| items_more w1 j t w2 js u : ws w1 -> ws w2 -> value_text j t -> items_text js u ->
    items_text (j :: js) (w1 ++ t ++ w2 ++ "," ++ u)
with members_text : list (string * json) -> string -> Prop :=
| members_one w1 k w2 w3 j t w4 : ws w1 -> ws w2 -> ws w3 -> ws w4 -> plain k -> value_text j t ->
    members_text [(k, j)] (w1 ++ quote k ++ w2 ++ ":" ++ w3 ++ t ++ w4)
| members_more w1 k w2 w3 j t w4 ms u : ws w1 -> ws w2 -> ws w3 -> ws w4 -> plain k -> value_text j t ->
    members_text ms u ->
    members_text ((k, j) :: ms) (w1 ++ quote k ++ w2 ++ ":" ++ w3 ++ t ++ w4 ++ "," ++ u).

Scheme value_text_mut := Induction for value_text Sort Prop
  with items_text_mut := Induction for items_text Sort Prop
  with members_text_mut := Induction for members_text Sort Prop.
Combined Scheme json_text_mut from value_text_mut, items_text_mut, members_text_mut.

(** A text: an object, with white space around it. *)
Definition json_text (ms : list (string * json)) (s : string) : Prop :=
  exists w1 t w2, ws w1 /\ ws w2 /\ value_text (JObject ms) t /\ s = (w1 ++ t ++ w2)%string.

(** How deep values are nested, counted as jansson's parser counts it, and its limit. *)
Fixpoint json_depth (j : json) : nat :=
  match j with
  | JArray js => S (list_max (map json_depth js))
  | JObject ms => S (list_max (map (fun m => json_depth (snd m)) ms))
  | _ => 1
  end.

Definition JSON_PARSER_MAX_DEPTH : nat := 2048.

Lemma depth_array js n : Forall (fun j => (json_depth j <= n)%nat) js -> (json_depth (JArray js) <= S n)%nat.
Proof. intros H. cbn [json_depth]. apply le_n_S, list_max_le. by rewrite Forall_map. Qed.

Lemma depth_object ms n : Forall (fun m => (json_depth (snd m) <= n)%nat) ms -> (json_depth (JObject ms) <= S n)%nat.
Proof. intros H. cbn [json_depth]. apply le_n_S, list_max_le. by rewrite Forall_map. Qed.

(** What the code relies on [json_loads] for. *)
Definition reads_json (json_loads : string -> option json) : Prop :=
  forall ms s, json_text ms s -> (json_depth (JObject ms) <= JSON_PARSER_MAX_DEPTH)%nat -> json_loads s = Some (JObject ms).

(** ** A reader *)

Fixpoint skip_ws (s : string) : string :=
  match s with
  | String c r => if is_ws c then skip_ws r else s
  | EmptyString => EmptyString
  end.

(** What stands before the closing quote, and what behind it. *)
Fixpoint read_plain (s : string) : option (string * string) :=
  match s with
  | EmptyString => None
  | String c r =>
      if Ascii.eqb c (ascii_of_nat 34) then Some (EmptyString, r)
      else if is_plain c then
        let* (s', rest) := read_plain r in Some (String c s', rest)
      else None
  end.

Definition is_number_char (c : ascii) : bool := (isdigit c || Ascii.eqb c "-")%bool.

Fixpoint span (p : ascii -> bool) (s : string) : string * string :=
  match s with
  | String c r => if p c then let '(a, b) := span p r in (String c a, b) else (EmptyString, s)
  | EmptyString => (EmptyString, EmptyString)
  end.

Definition read_integer (s : string) : option (json * string) :=
  let '(digits, rest) := span is_number_char s in
  let* i := NilZero.int_of_string digits in Some (JInteger (Z.of_int i), rest).

(** What is behind the character, when it comes next. *)
Definition expect (c : ascii) (s : string) : option string :=
  match s with
  | String d r => if Ascii.eqb c d then Some r else None
  | EmptyString => None
  end.

(** [fuel] bounds the nesting and the lengths of the lists. *)
Fixpoint read_value (fuel : nat) (s : string) : option (json * string) :=
  match fuel with
  | O => None
  | S fuel =>
      let s := skip_ws s in
      match expect "[" s with
      | Some r =>
          match expect "]" (skip_ws r) with
          | Some rest => Some (JArray [], rest)
          | None => let* (js, rest) := read_items fuel r in Some (JArray js, rest)
          end
      | None =>
          match expect "{" s with
          | Some r =>
              match expect "}" (skip_ws r) with
              | Some rest => Some (JObject [], rest)
              | None => let* (ms, rest) := read_members fuel r in Some (JObject ms, rest)
              end
          | None =>
              match expect (chr 34) s with
              | Some r => let* (t, rest) := read_plain r in Some (JString t, rest)
              | None => read_integer s
              end
          end
      end
  end
with read_items (fuel : nat) (s : string) : option (list json * string) :=
  match fuel with
  | O => None
  | S fuel =>
      let* (j, r) := read_value fuel s in
      let r := skip_ws r in
      match expect "]" r with
      | Some rest => Some ([j], rest)
      | None =>
          let* r := expect "," r in
          let* (js, rest) := read_items fuel r in
          Some (j :: js, rest)
      end
  end
with read_members (fuel : nat) (s : string) : option (list (string * json) * string) :=
  match fuel with
  | O => None
  | S fuel =>
      let* r := expect (chr 34) (skip_ws s) in
      let* (k, r) := read_plain r in
      let* r := expect ":" (skip_ws r) in
      let* (j, r) := read_value fuel r in
      let r := skip_ws r in
      match expect "}" r with
      | Some rest => Some ([(k, j)], rest)
      | None =>
          let* r := expect "," r in
          let* (ms, rest) := read_members fuel r in
          Some ((k, j) :: ms, rest)
      end
  end.

Definition read_json (s : string) : option json :=
  match read_value (2 * String.length s) s with
  | Some (j, rest) => if skip_ws rest =?s "" then Some j else None
  | None => None
  end.

(** ** The reader reads every text *)

Lemma skip_ws_app w s : ws w -> skip_ws (w ++ s) = skip_ws s.
Proof.
  unfold ws. induction w as [|c w IH]; intros Hw; [done|]. cbn [str_forallb] in Hw.
  apply andb_prop in Hw as [Hc Hw]. cbn [String.append skip_ws]. rewrite Hc. by apply IH.
Qed.

Lemma ws_ends s : skip_ws s = "" <-> ws s.
Proof.
  unfold ws. induction s as [|c s IH]; cbn [skip_ws str_forallb]; [done|].
  destruct (is_ws c); cbn [andb]; [exact IH|done].
Qed.

Lemma skip_ws_start c r : is_ws c = false -> skip_ws (String c r) = String c r.
Proof. intros H. cbn [skip_ws]. by rewrite H. Qed.

Lemma read_plain_quoted s rest : plain s -> read_plain (s ++ String (chr 34) rest) = Some (s, rest).
Proof.
  unfold plain. induction s as [|c s IH]; intros Hs; [done|]. cbn [str_forallb] in Hs.
  apply andb_prop in Hs as [Hc Hs]. cbn [String.append read_plain].
  assert (Hq : Ascii.eqb c (ascii_of_nat 34) = false).
  { unfold is_plain in Hc. apply andb_prop in Hc as [[_ Hc]%andb_prop _]. by apply negb_true_iff. }
  rewrite Hq, Hc, IH by done. done.
Qed.

(** Nothing that would go on a number comes next. *)
Definition stops (s : string) : Prop :=
  match s with String c _ => is_number_char c = false | EmptyString => True end.

Lemma span_app p a rest :
  str_forallb p a = true -> match rest with String c _ => p c = false | EmptyString => True end ->
  span p (a ++ rest) = (a, rest).
Proof.
  induction a as [|c a IH]; cbn [String.append span str_forallb]; intros Ha Hr.
  - destruct rest as [|c rest]; [done|]. cbn [span]. by rewrite Hr.
  - apply andb_prop in Ha as [Hc Ha]. by rewrite Hc, IH.
Qed.

Lemma fmt_d_number_chars z : str_forallb is_number_char (fmt_d z) = true.
Proof.
  assert (Hm : forall s, str_forallb isdigit s = true -> str_forallb is_number_char s = true).
  { induction s as [|c s IH]; cbn [str_forallb]; [done|]. intros [Hc Hs]%andb_prop. apply andb_true_intro.
    split; [unfold is_number_char; by rewrite Hc|by apply IH]. }
  destruct (decide (0 <= z)) as [Hz|Hz]; [apply Hm; by destruct (fmt_d_digits z Hz) as (_ & H & _)|].
  destruct z as [|p|p]; [lia..|]. pose proof (fmt_d_digits (Zpos p) ltac:(lia)) as (_ & H & _).
  change (fmt_d (Zneg p)) with (String "-" (NilZero.string_of_uint (Pos.to_uint p))).
  cbn [str_forallb]. rewrite Hm by exact H. done.
Qed.

Lemma read_integer_fmt z rest : stops rest -> read_integer (fmt_d z ++ rest) = Some (JInteger z, rest).
Proof.
  intros Hr. unfold read_integer. rewrite span_app by (apply fmt_d_number_chars || done).
  assert (Hn : Z.to_int z <> Decimal.Pos Decimal.Nil /\ Z.to_int z <> Decimal.Neg Decimal.Nil).
  { destruct z as [|p|p]; [done|..]; cbn; split; try congruence;
      intros [= H]; by apply (DecimalPos.Unsigned.to_uint_nonnil p). }
  unfold fmt_d. rewrite NilZero.isi by apply Hn. cbn. by rewrite DecimalZ.of_to.
Qed.

(** *** Texts begin with a character of their own *)

Definition starts (s : string) : Prop :=
  match s with
  | String c _ => is_ws c = false /\ Ascii.eqb "]" c = false /\ Ascii.eqb "}" c = false /\ Ascii.eqb "," c = false
  | EmptyString => False
  end.

Lemma number_char_starts c : is_number_char c = true ->
  starts (String c "") /\ Ascii.eqb "[" c = false /\ Ascii.eqb "{" c = false /\ Ascii.eqb (chr 34) c = false.
Proof. by destruct c as [[] [] [] [] [] [] [] []]. Qed.

Lemma fmt_d_starts z : exists c r, fmt_d z = String c r /\ is_number_char c = true.
Proof.
  pose proof (fmt_d_number_chars z) as H. destruct (fmt_d z) as [|c r] eqn:E.
  - exfalso. destruct z as [|p|p]; [done| |done].
    destruct (fmt_d_digits (Zpos p) ltac:(lia)) as [Hne _]. by rewrite E in Hne.
  - exists c, r. split; [done|]. cbn [str_forallb] in H. by apply andb_prop in H as [H _].
Qed.

Lemma value_starts j t : value_text j t -> starts t.
Proof.
  destruct 1; try done. destruct (fmt_d_starts z) as (c & r & -> & Hc). by apply number_char_starts in Hc as [H' _].
Qed.

Lemma skip_to_start t rest : starts t -> skip_ws (t ++ rest) = (t ++ rest)%string.
Proof. destruct t as [|c t]; [done|]. intros (Hw & _). by apply skip_ws_start. Qed.

Lemma expect_not c t rest : (match t with String d _ => Ascii.eqb c d = false | EmptyString => False end) ->
  expect c (t ++ rest) = None.
Proof. destruct t as [|d t]; [done|]. unfold expect. cbn [String.append]. by intros ->. Qed.

Lemma expect_closing t rest : starts t -> expect "]" (t ++ rest) = None /\ expect "}" (t ++ rest) = None.
Proof. destruct t as [|d t]; [done|]. intros (_ & H1 & H2 & _). unfold expect. cbn [String.append]. by rewrite H1, H2. Qed.

Lemma items_start js u : items_text js u -> exists w t v, u = (w ++ t ++ v)%string /\ ws w /\ starts t.
Proof.
  destruct 1 as [w1 j t w2 H1 H2 Ht|w1 j t w2 js u H1 H2 Ht]; exists w1, t; eexists; (split; [reflexivity|]);
    (split; [done|by eapply value_starts]).
Qed.

Lemma members_start ms u : members_text ms u -> exists w k v, u = (w ++ quote k ++ v)%string /\ ws w.
Proof. destruct 1; do 3 eexists; (split; [reflexivity|done]). Qed.

Lemma stops_ws w s : ws w -> stops s -> stops (w ++ s).
Proof.
  unfold ws. destruct w as [|c w]; [done|]. cbn [str_forallb]. intros [Hc _]%andb_prop _. cbn.
  by destruct c as [[] [] [] [] [] [] [] []].
Qed.

Ltac app_assoc_right := do 4 (rewrite ?str_app_assoc; cbn [String.append]).

(** ** Every text is read *)

Lemma read_texts :
  (forall j t, value_text j t -> forall fuel w rest, ws w -> stops rest -> (2 * String.length t <= fuel)%nat ->
     read_value fuel (w ++ t ++ rest) = Some (j, rest)) /\
  (forall js t, items_text js t -> forall fuel rest, (2 * String.length t + 1 <= fuel)%nat ->
     read_items fuel (t ++ String "]" rest) = Some (js, rest)) /\
  (forall ms t, members_text ms t -> forall fuel rest, (2 * String.length t + 1 <= fuel)%nat ->
     read_members fuel (t ++ String "}" rest) = Some (ms, rest)).
Proof.
  apply json_text_mut.
  - intros z Hz [|fuel] w rest Hw Hr Hf.
    { destruct (fmt_d_starts z) as (c & r & E & _). rewrite E in Hf. cbn in Hf. lia. }
    cbn [read_value]. rewrite skip_ws_app by done. destruct (fmt_d_starts z) as (c & r & E & Hc).
    destruct (number_char_starts c Hc) as ([Hs _] & H1 & H2 & H3).
    rewrite <- (read_integer_fmt z rest Hr). rewrite E. cbn [String.append]. rewrite skip_ws_start by done.
    cbn [expect]. by rewrite H1, H2, H3.
  - intros s Hs [|fuel] w rest Hw Hr Hf; [cbn in Hf; lia|]. cbn [read_value]. rewrite skip_ws_app by done.
    unfold quote. cbn [String.append]. rewrite skip_ws_start by done. rewrite str_app_assoc. cbn.
    by rewrite read_plain_quoted.
  - intros w0 Hw0 [|fuel] w rest Hw Hr Hf; [cbn in Hf; lia|]. cbn [read_value]. rewrite skip_ws_app by done.
    app_assoc_right. cbn -[skip_ws]. rewrite (skip_ws_start "[") by done. cbn -[skip_ws]. by rewrite skip_ws_app.
  - intros js u Hu IH [|fuel] w rest Hw Hr Hf; [cbn in Hf; lia|]. cbn [read_value]. rewrite skip_ws_app by done.
    app_assoc_right. rewrite (skip_ws_start "[") by done. change (expect "[" (String "[" ?x)) with (Some x). cbv iota beta.
    destruct (items_start js u Hu) as (w' & t & v & -> & Hw' & Ht).
    assert (He : expect "]" (skip_ws ((w' ++ t ++ v) ++ String "]" rest)) = None).
    { rewrite !str_app_assoc, skip_ws_app, skip_to_start by done. by apply expect_closing. }
    rewrite He. cbn [String.append String.length] in Hf. rewrite length_str_app in Hf. cbn [String.length] in Hf. rewrite IH by lia. done.
  - intros w0 Hw0 [|fuel] w rest Hw Hr Hf; [cbn in Hf; lia|]. cbn [read_value]. rewrite skip_ws_app by done.
    app_assoc_right. rewrite (skip_ws_start "{") by done. change (expect "[" (String "{" ?x)) with (@None string).
    change (expect "{" (String "{" ?x)) with (Some x). cbv iota beta. rewrite skip_ws_app by done. done.
  - intros ms u Hnd Hu IH [|fuel] w rest Hw Hr Hf; [cbn in Hf; lia|]. cbn [read_value]. rewrite skip_ws_app by done.
    app_assoc_right. rewrite (skip_ws_start "{") by done. change (expect "[" (String "{" ?x)) with (@None string).
    change (expect "{" (String "{" ?x)) with (Some x). cbv iota beta.
    destruct (members_start ms u Hu) as (w' & k & v & -> & Hw').
    assert (He : expect "}" (skip_ws ((w' ++ quote k ++ v) ++ String "}" rest)) = None).
    { rewrite !str_app_assoc, skip_ws_app by done. reflexivity. }
    rewrite He. cbn [String.append String.length] in Hf. rewrite length_str_app in Hf. cbn [String.length] in Hf. rewrite IH by lia. done.
  - intros w1 j t w2 H1 H2 Ht IH [|fuel] rest Hf; [lia|]. cbn [read_items]. rewrite !length_str_app in Hf.
    app_assoc_right. rewrite (IH fuel w1) by (done || lia || by apply stops_ws). cbn [mbind option_bind].
    rewrite skip_ws_app by done. done.
  - intros w1 j t w2 js u H1 H2 Ht IHt Hu IHu [|fuel] rest Hf; [lia|]. cbn [read_items]. rewrite !length_str_app in Hf.
    cbn [String.length] in Hf. app_assoc_right.
    rewrite (IHt fuel w1) by (done || lia || by apply stops_ws). cbn [mbind option_bind].
    rewrite skip_ws_app by done. rewrite (skip_ws_start ",") by done.
    change (expect "]" (String "," ?x)) with (@None string). change (expect "," (String "," ?x)) with (Some x).
    cbn [mbind option_bind]. rewrite IHu by lia. done.
  - intros w1 k w2 w3 j t w4 H1 H2 H3 H4 Hk Ht IH [|fuel] rest Hf; [lia|]. cbn [read_members].
    rewrite !length_str_app in Hf. cbn [String.length] in Hf. unfold quote. app_assoc_right. rewrite skip_ws_app by done.
    rewrite (skip_ws_start (chr 34)) by done. change (expect (chr 34) (String (chr 34) ?x)) with (Some x).
    cbn [mbind option_bind]. rewrite read_plain_quoted by done. cbn [mbind option_bind].
    rewrite skip_ws_app by done. rewrite (skip_ws_start ":") by done. change (expect ":" (String ":" ?x)) with (Some x).
    cbn [mbind option_bind]. rewrite (IH fuel w3) by (done || lia || by apply stops_ws). cbn [mbind option_bind].
    rewrite skip_ws_app by done. done.
  - intros w1 k w2 w3 j t w4 ms u H1 H2 H3 H4 Hk Ht IHt Hu IHu [|fuel] rest Hf; [lia|]. cbn [read_members].
    rewrite !length_str_app in Hf. cbn [String.length] in Hf. unfold quote. app_assoc_right. rewrite skip_ws_app by done.
    rewrite (skip_ws_start (chr 34)) by done. change (expect (chr 34) (String (chr 34) ?x)) with (Some x).
    cbn [mbind option_bind]. rewrite read_plain_quoted by done. cbn [mbind option_bind].
    rewrite skip_ws_app by done. rewrite (skip_ws_start ":") by done. change (expect ":" (String ":" ?x)) with (Some x).
    cbn [mbind option_bind]. rewrite (IHt fuel w3) by (done || lia || by apply stops_ws). cbn [mbind option_bind].
    rewrite skip_ws_app by done. rewrite (skip_ws_start ",") by done.
    change (expect "}" (String "," ?x)) with (@None string). change (expect "," (String "," ?x)) with (Some x).
    cbn [mbind option_bind]. rewrite IHu by lia. done.
Qed.

Lemma read_json_text ms s : json_text ms s -> read_json s = Some (JObject ms).
Proof.
  intros (w1 & t & w2 & H1 & H2 & Ht & ->). unfold read_json. destruct read_texts as [Hr _].
  rewrite (Hr (JObject ms) t Ht) with (w := w1); [|done| |rewrite !length_str_app; lia].
  - rewrite (proj2 (ws_ends w2) H2). done.
  - rewrite <- (str_app_nil_r w2). by apply stops_ws.
Qed.

Theorem read_json_reads : reads_json read_json.
Proof. intros ms s H _. by apply read_json_text. Qed.

(** So no text is that of two documents. *)
Corollary json_text_one ms ms' s : json_text ms s -> json_text ms' s -> ms = ms'.
Proof. intros H H'. apply read_json_text in H, H'. congruence. Qed.
