(* ===== verification/Auth.v ===== *)
(** * The authorization and authentication service

    Models src/src/services/auth/auth.c: the policy tables, the loader, the answer
    to a GET, the propagation of permissions into the binding map, the decision on
    one message, and the proof requirements. [json_load_file] is the document
    reader. *)

From S2P Require Import Prelude CLib HesCommon Json.

Definition AUTH_MAX_CLASSES : nat := 16.
Definition AUTH_MAX_IDENTITIES : nat := 16.
Definition AUTH_MAX_CREDENTIALS : nat := 16.
Definition AUTH_MAX_GROUPS : nat := 32.
Definition AUTH_MAX_PERMISSIONS : nat := 32.
Definition AUTH_MAX_PROOF_REQUIREMENTS : nat := 16.
Definition AUTH_NAME_MAX : nat := 32.
Definition AUTH_SECRET_MAX : nat := 64.

(** ** The policy tables *)

Record auth_class_t := mk_class {
  cl_class_id : Z;
  cl_name : string;
  cl_status : string;
  cl_identity_ref : Z;
  cl_group_id : Z;
  cl_credential_ref : Z;
}.

Record auth_identity_t := mk_identity {
  ai_identity : Z;
  ai_type : string;
  ai_device_index : Z;
}.

Record auth_credential_t := mk_credential {
  cr_cred_id : Z;
  cr_method : string;
  cr_protocol : string;
  cr_info : string;
  cr_timing : Z;
  cr_valid : bool;
}.

Record auth_group_t := mk_group {
  gr_group_id : Z;
  gr_table_type : string;
  gr_permission_ref : Z;
}.

Record auth_permission_t := mk_permission {
  pe_service_index : Z;
  pe_status_check : string;
  pe_device_index : Z;
  pe_lexicon_object : string;
  pe_value_new : string;
}.

Record auth_proof_requirement_t := mk_proof_requirement {
  pr_at_address : string;
  pr_public_id : string;
}.

Record auth_service_state_t := mk_auth {
  au_classes : list auth_class_t;
  au_identities : list auth_identity_t;
  au_credentials : list auth_credential_t;
  au_groups : list auth_group_t;
  au_permissions : list auth_permission_t;
  au_proof_requirements : list auth_proof_requirement_t;
  au_loaded : bool;
}.

Definition auth_empty : auth_service_state_t := mk_auth [] [] [] [] [] [] false.

(** ** Loading the policy *)

Definition class_of (row : json) : auth_class_t :=
  mk_class (jobj_int (Some row) "ci" 0) (jobj_str (Some row) "fn" AUTH_NAME_MAX "")
    (jobj_str (Some row) "st" 4 "") (jobj_int (Some row) "ti" 0) (jobj_int (Some row) "pi" 0)
    (jobj_int (Some row) "cr" 0).

Definition identity_of (row : json) : auth_identity_t :=
  mk_identity (jobj_int (Some row) "id" 0) (jobj_str (Some row) "ta" 4 "")
    (uint32 (jobj_int (Some row) "di" 0)).

Definition credential_of (row : json) : auth_credential_t :=
  mk_credential (jobj_int (Some row) "id" 0) (jobj_str (Some row) "cm" 4 "")
    (jobj_str (Some row) "cp" 4 "") (jobj_str (Some row) "ci" AUTH_SECRET_MAX "")
    (jobj_int (Some row) "ss" 0) (jobj_str (Some row) "cv" 4 "" =?s "ye").

Definition group_of (row : json) : auth_group_t :=
  mk_group (jobj_int (Some row) "pi" 0) (jobj_str (Some row) "pt" 4 "")
    (jobj_int (Some row) "pr" 0).

Definition permission_of (row : json) : auth_permission_t :=
  mk_permission (jobj_int (Some row) "pi" 0) (jobj_str (Some row) "st" 4 "")
    (uint32 (jobj_int (Some row) "di" 0)) (jobj_str (Some row) "lo" HES_PATH_MAX "")
    (jobj_str (Some row) "vn" 4 "").

(** The proofRequired loop: an entry is written into the next free slot, which the
    loop leaves as it is when it refuses the entry. [slot] is that slot. *)
Fixpoint load_proofs (l : list json) (slot : auth_proof_requirement_t)
  (acc : list auth_proof_requirement_t) : list auth_proof_requirement_t :=
  match l with
  | [] => acc
  | v :: l' =>
      if (AUTH_MAX_PROOF_REQUIREMENTS <=? length acc)%nat then acc
      else if json_is_object v then
        let pr := mk_proof_requirement (jobj_str (Some v) "at" HES_PATH_MAX (pr_at_address slot))
                    (jobj_str (Some v) "pi" 65 (pr_public_id slot)) in
        if ((pr_at_address pr =?s "") || negb (strlen (pr_public_id pr) =? 64))%bool
        then load_proofs l' pr acc
        else load_proofs l' (mk_proof_requirement "" "") (acc ++ [pr])
      else load_proofs l' slot acc
  end.

Definition load_table {T} (root : option json) (key : string) (max : nat) (row : json -> T)
  : list T :=
  match jobj_array root key with
  | Some l => load_rows max row l []
  | None => []
  end.

Section load.
Variable json_load_file : string -> option json.

(** The state the service starts from is all zeroes ([auth_empty]). *)
Definition load_policy (path : option string) : auth_service_state_t :=
  match path with
  | None | Some EmptyString => auth_empty
  | Some p =>
      match json_load_file p with
      | None => auth_empty
      | Some root =>
          let r := Some root in
          mk_auth (load_table r "authClasses" AUTH_MAX_CLASSES class_of)
            (load_table r "authIdentities" AUTH_MAX_IDENTITIES identity_of)
            (load_table r "credentials" AUTH_MAX_CREDENTIALS credential_of)
            (load_table r "permissionGroups" AUTH_MAX_GROUPS group_of)
            (load_table r "permissionServices" AUTH_MAX_PERMISSIONS permission_of)
            match jobj_array r "proofRequired" with
            | Some l => load_proofs l (mk_proof_requirement "" "") []
            | None => []
            end
            true
      end
  end.
End load.

(** ** Answering a GET *)

Definition class_text (i : nat) (c : auth_class_t) : string :=
  ((if (0 <? i)%nat then ";" else "") ++ "ci=" ++ fmt_d (cl_class_id c) ++ ",fn=" ++ cl_name c
   ++ ",st=" ++ cl_status c)%string.

(** [buf] and [off] of the snprintf loop: [off] counts what would have been
    written, the buffer takes what fits. *)
Fixpoint class_list (i : nat) (cs : list auth_class_t) (off : nat) (buf : string) : string * nat :=
  match cs with
  | [] => (buf, off)
  | c :: cs' =>
      if (off <? HES_PAYLOAD_MAX - 1)%nat then
        let t := class_text i c in
        class_list (S i) cs' (off + String.length t)
          (buf ++ str_take (HES_PAYLOAD_MAX - 1 - off) t)
      else (buf, off)
  end.

Definition auth_on_get (st : auth_service_state_t) (out : hes_clme_msg_t) : hes_clme_msg_t :=
  let '(buf, off) := class_list 0 (au_classes st) 0 "" in
  hes_msg_set_payload_str out (if (off =? 0)%nat then "no-auth-policy" else buf).

(** Policy writes are refused. *)
Definition auth_on_put (st : auth_service_state_t) (inm : hes_clme_msg_t) : auth_service_state_t := st.

(** ** Decisions *)

(** The stored credential is what the presented text holds before the first ';'. *)
Definition credential_matches (stored presented : string) : bool := stored =?s before ";" presented.

(** The permission rows of one class: group rows in order, and for each of them
    the permission rows it refers to whose status check is the class's status. *)
Definition group_applies (c : auth_class_t) (g : auth_group_t) : bool :=
  ((gr_group_id g =? cl_group_id c) && (gr_table_type g =?s "ps"))%bool.
Definition permission_applies (c : auth_class_t) (g : auth_group_t) (p : auth_permission_t) : bool :=
  ((pe_service_index p =? gr_permission_ref g) && (pe_status_check p =?s cl_status c))%bool.

Section propagate.
Context {X : Type}.
Variable write : X -> string -> string -> X * Z.

Definition propagate_permission (c : auth_class_t) (g : auth_group_t) (st : X * Z)
  (p : auth_permission_t) : X * Z :=
  let '(x, writes) := st in
  if permission_applies c g p then
    let '(x', rv) := write x (pe_lexicon_object p) (pe_value_new p) in
    (x', if rv =? 0 then writes + 1 else writes)
  else (x, writes).

Definition propagate_group (ps : list auth_permission_t) (c : auth_class_t) (st : X * Z)
  (g : auth_group_t) : X * Z :=
  if group_applies c g then fold_left (propagate_permission c g) ps st else st.

Definition propagate_class (gs : list auth_group_t) (ps : list auth_permission_t) (st : X * Z)
  (c : auth_class_t) : X * Z :=
  fold_left (propagate_group ps c) gs st.

Definition auth_service_propagate (a : auth_service_state_t) (x : X) : X * Z :=
  fold_left (propagate_class (au_groups a) (au_permissions a)) (au_classes a) (x, 0).
End propagate.

(** The value of the last applicable permission for the address. *)
Definition value_for (a : auth_service_state_t) (c : auth_class_t) (at_address : string)
  : option string :=
  fold_left
    (fun vn g =>
       if group_applies c g then
         fold_left
           (fun vn p =>
              if (permission_applies c g p && (pe_lexicon_object p =?s at_address))%bool
              then Some (pe_value_new p) else vn)
           (au_permissions a) vn
       else vn)
    (au_groups a) None.

Definition auth_service_authorize (a : auth_service_state_t) (cred_info user_name : string)
  (at_address : string) : bool :=
  if (negb (au_loaded a) || (cred_info =?s ""))%bool then false
  else
    match find_first (fun cr => credential_matches (cr_info cr) cred_info) (au_credentials a) with
    | None => false
    | Some cr =>
        if negb (cr_valid cr) then false
        else
          match find_first (fun c => cl_credential_ref c =? cr_cred_id cr) (au_classes a) with
          | None => false
          | Some c =>
              if (negb (user_name =?s "") && negb (user_name =?s cl_name c))%bool then false
              else
                match value_for a c at_address with
                | None => false
                | Some vn => vn =?s "fl"
                end
          end
    end.

Definition auth_service_required_proof_pi (a : auth_service_state_t) (at_address : string)
  : option string :=
  pr_public_id <$> find_first (fun r => pr_at_address r =?s at_address) (au_proof_requirements a).

(** The service object, over the state of the module that hosts it. *)
Definition auth_service_object {G} (get : G -> auth_service_state_t)
  (put : auth_service_state_t -> G -> G) : service_object_t G :=
  mk_so "/lx/ob/so/aa/ac/cv"
    (Some (fun g out => (g, auth_on_get (get g) out)))
    (Some (fun g inm => put (auth_on_put (get g) inm) g))
    None.

Definition auth_service_create (json_load_file : string -> option json) (policy_path : option string)
  : auth_service_state_t := load_policy json_load_file policy_path.
