(* ===== verification/AuthFacts.v ===== *)
(** * Authorization: properties

    The decision on one message and the propagation into the binding map walk the
    same permission rows; what a policy document is loaded into; what a GET may
    reveal. *)

From S2P Require Import Prelude CLib HesCommon Json Bm BmLoad Auth.

(** ** The writes of a class

    Both walks go through this list: the binding-map address and the value of every
    permission row that applies to the class now. *)
Definition group_writes (a : auth_service_state_t) (c : auth_class_t) (g : auth_group_t)
  : list (string * string) :=
  if group_applies c g then
    (fun p => (pe_lexicon_object p, pe_value_new p)) <$>
      filter (fun p => permission_applies c g p = true) (au_permissions a)
  else [].

Definition class_writes (a : auth_service_state_t) (c : auth_class_t) : list (string * string) :=
  concat (group_writes a c <$> au_groups a).

Definition policy_writes (a : auth_service_state_t) : list (string * string) :=
  concat (class_writes a <$> au_classes a).

(** The value the last write to an address leaves there. *)
Fixpoint last_value (ws : list (string * string)) (address : string) : option string :=
  match ws with
  | [] => None
  | w :: ws' =>
      match last_value ws' address with
      | Some v => Some v
      | None => if fst w =?s address then Some (snd w) else None
      end
  end.

Lemma last_value_app ws1 ws2 address :
  last_value (ws1 ++ ws2) address =
  match last_value ws2 address with Some v => Some v | None => last_value ws1 address end.
Proof.
  induction ws1 as [|w ws1 IH]; simpl.
  - by destruct (last_value ws2 address).
  - rewrite IH. by destruct (last_value ws2 address).
Qed.

Lemma last_value_elem ws address v : last_value ws address = Some v -> (address, v) ∈ ws.
Proof.
  induction ws as [|w ws IH]; simpl; [done|].
  destruct (last_value ws address) as [v'|].
  - intros [= <-]. right. by apply IH.
  - destruct (fst w =?s address) eqn:E; [|done]. intros [= <-]. apply String.eqb_eq in E.
    subst address. destruct w. left.
Qed.

Definition or_else (new old : option string) : option string :=
  match new with Some v => Some v | None => old end.

Lemma fold_permissions c g address ps vn :
  fold_left
    (fun vn p => if (permission_applies c g p && (pe_lexicon_object p =?s address))%bool
                 then Some (pe_value_new p) else vn) ps vn =
  or_else (last_value ((fun p => (pe_lexicon_object p, pe_value_new p)) <$>
      filter (fun p => permission_applies c g p = true) ps) address) vn.
Proof.
  revert vn. induction ps as [|p ps IH]; intros vn; [done|]. cbn [fold_left].
  rewrite IH. destruct (permission_applies c g p) eqn:E.
  - rewrite filter_cons_True by done. simpl. destruct (last_value _ address); [done|].
    simpl. by destruct (pe_lexicon_object p =?s address).
  - by rewrite filter_cons_False by congruence.
Qed.

Lemma value_for_last a c address : value_for a c address = last_value (class_writes a c) address.
Proof.
  unfold value_for, class_writes.
  assert (H : forall gs vn,
    fold_left
      (fun vn g => if group_applies c g then
         fold_left (fun vn p => if (permission_applies c g p && (pe_lexicon_object p =?s address))%bool
                                then Some (pe_value_new p) else vn) (au_permissions a) vn
       else vn) gs vn =
    or_else (last_value (concat (group_writes a c <$> gs)) address) vn).
  { induction gs as [|g gs IH]; intros vn; [done|]. cbn [fold_left]. rewrite IH.
    cbn [fmap list_fmap concat]. rewrite last_value_app. destruct (last_value (concat _) address); [done|].
    unfold group_writes. destruct (group_applies c g); [|done]. simpl.
    rewrite fold_permissions. done. }
  rewrite H. by destruct (last_value _ address).
Qed.

(** Propagation performs the policy's writes, in order. *)
Section propagation.
Context {X : Type} (write : X -> string -> string -> X * Z).

Definition write_step (st : X * Z) (w : string * string) : X * Z :=
  let '(x, n) := st in
  let '(x', rv) := write x (fst w) (snd w) in (x', if rv =? 0 then n + 1 else n).

Lemma propagate_writes (a : auth_service_state_t) x :
  auth_service_propagate write a x = fold_left write_step (policy_writes a) (x, 0).
Proof.
  unfold auth_service_propagate, policy_writes. generalize (x, 0). clear x.
  induction (au_classes a) as [|c cs IH]; intros st; [done|]. cbn [fold_left fmap list_fmap concat].
  rewrite fold_left_app, <- IH. f_equal. unfold propagate_class, class_writes. clear.
  revert st. induction (au_groups a) as [|g gs IH]; intros st; [done|].
  cbn [fold_left fmap list_fmap concat]. rewrite fold_left_app, <- IH. f_equal.
  unfold propagate_group, group_writes. destruct (group_applies c g); [|done]. clear.
  revert st. induction (au_permissions a) as [|p ps IH]; intros st; [done|]. cbn [fold_left].
  rewrite IH. unfold propagate_permission. destruct st as [x n].
  destruct (permission_applies c g p) eqn:E.
  - rewrite filter_cons_True by done. done.
  - by rewrite filter_cons_False by congruence.
Qed.
End propagation.

(** ** Propagating into a binding map *)
Section binding_map.
Context {A : Type}.
Implicit Types bm : binding_map_t A.

Definition address_of (op : bm_operation_t) : string := bm_at_address op HES_PATH_MAX.

Definition with_value (ws : list (string * string)) (op : bm_operation_t) : bm_operation_t :=
  match last_value ws (address_of op) with
  | Some v => op_with_out_author_type op (hes_strlcpy 4 v)
  | None => op
  end.

Lemma set_at_map ops address v :
  NoDup (address_of <$> ops) ->
  match ops_set_at ops address v with
  | Some ops' => ops' = with_value [(address, v)] <$> ops /\ address ∈ address_of <$> ops
  | None => with_value [(address, v)] <$> ops = ops /\ address ∉ address_of <$> ops
  end.
Proof.
  induction ops as [|op ops IH]; intros Hnd; cbn [ops_set_at].
  { split; [done|]. by apply not_elem_of_nil. }
  apply NoDup_cons in Hnd as [Hnin Hnd]. specialize (IH Hnd). fold (address_of op).
  assert (Hw : forall o, with_value [(address, v)] o =
    if address =?s address_of o then op_with_out_author_type o (hes_strlcpy 4 v) else o).
  { intros o. unfold with_value. simpl. by destruct (address =?s address_of o). }
  destruct (address_of op =?s address) eqn:E.
  - apply String.eqb_eq in E. cbn [fmap list_fmap]. rewrite Hw, E, String.eqb_refl.
    split; [f_equal|by left]. symmetry. clear IH. subst address.
    revert Hnin. clear -Hw. induction ops as [|o ops IH]; intros Hnin; [done|].
    cbn [fmap list_fmap] in *. apply not_elem_of_cons in Hnin as [Hne Hnin].
    rewrite Hw. apply String.eqb_neq in Hne. rewrite Hne. f_equal. by apply IH.
  - apply String.eqb_neq in E. cbn [fmap list_fmap]. rewrite Hw.
    assert (Hne : (address =?s address_of op) = false) by (by apply String.eqb_neq).
    rewrite Hne. destruct (ops_set_at ops address v) as [ops'|]; cbn [fmap option_map option_fmap].
    + destruct IH as [-> Hin]. split; [done|by right].
    + destruct IH as [-> Hin]. split; [done|]. by apply not_elem_of_cons.
Qed.

Lemma set_author_address op v : address_of (op_with_out_author_type op v) = address_of op.
Proof. done. Qed.

Lemma with_value_address ws op : address_of (with_value ws op) = address_of op.
Proof. unfold with_value. by destruct (last_value ws (address_of op)). Qed.

Lemma with_value_app ws1 ws2 op :
  with_value ws2 (with_value ws1 op) = with_value (ws1 ++ ws2) op.
Proof.
  unfold with_value at 1 3. rewrite with_value_address, last_value_app.
  destruct (last_value ws2 (address_of op)); [|done].
  unfold with_value. by destruct (last_value ws1 (address_of op)).
Qed.

Definition known (ops : list bm_operation_t) (w : string * string) : Prop :=
  fst w ∈ address_of <$> ops.
#[local] Instance known_dec ops w : Decision (known ops w).
Proof. unfold known. apply _. Defined.

Lemma write_policy ws bm n :
  NoDup (address_of <$> bm_ops bm) ->
  let '(bm', n') := fold_left (write_step bm_set_at) ws (bm, n) in
  bm_ops bm' = with_value ws <$> bm_ops bm /\
  n' = n + Z.of_nat (length (filter (known (bm_ops bm)) ws)).
Proof.
  revert bm n. induction ws as [|w ws IH]; intros bm n Hnd; cbn [fold_left].
  { split; [|simpl; lia]. symmetry. apply list_fmap_id. }
  pose proof (set_at_map (bm_ops bm) (fst w) (snd w) Hnd) as Hset.
  unfold write_step at 2. unfold bm_set_at at 2.
  assert (Hw : (fst w, snd w) = w) by (by destruct w).
  destruct (ops_set_at (bm_ops bm) (fst w) (snd w)) as [ops'|]; destruct Hset as [Hops Hin].
  - specialize (IH (bm_with_ops bm ops') (if 0 =? 0 then n + 1 else n)). simpl in IH.
    assert (Hnd' : NoDup (address_of <$> ops')).
    { rewrite Hops, <- list_fmap_compose.
      rewrite (list_fmap_ext _ address_of) by (intros; simpl; apply with_value_address). done. }
    specialize (IH Hnd'). destruct (fold_left _ ws _) as [bm' n']. destruct IH as [-> ->].
    subst ops'. rewrite <- list_fmap_compose. split.
    + apply list_fmap_ext. intros i x _. simpl. rewrite Hw. apply (with_value_app [w] ws).
    + rewrite filter_cons_True by done. cbn [length].
      assert (Hk : filter (known (with_value [(fst w, snd w)] <$> bm_ops bm)) ws =
                   filter (known (bm_ops bm)) ws).
      { apply list_filter_iff. intros x. unfold known.
        rewrite <- list_fmap_compose.
        by rewrite (list_fmap_ext _ address_of) by (intros; simpl; apply with_value_address). }
      rewrite Hk. lia.
  - specialize (IH bm (if -1 =? 0 then n + 1 else n) Hnd). simpl in IH.
    destruct (fold_left _ ws _) as [bm' n']. destruct IH as [-> ->]. split.
    + rewrite <- Hops at 1. rewrite <- list_fmap_compose.
      apply list_fmap_ext. intros i x _. simpl. rewrite Hw. apply (with_value_app [w] ws).
    + by rewrite filter_cons_False by done.
Qed.
End binding_map.

(** ** Properties *)

(** C11: propagating the policy into a binding map whose rows have distinct
    addresses leaves in every row the value of the last permission row that applies
    to it (in class, group and permission order), leaves the other rows alone, and
    returns the number of writes that found a row. *)
Theorem propagate_into_binding_map {A} (a : auth_service_state_t) (bm : binding_map_t A) :
  NoDup (address_of <$> bm_ops bm) ->
  let '(bm', n) := auth_service_propagate bm_set_at a bm in
  bm_ops bm' = with_value (policy_writes a) <$> bm_ops bm /\
  n = Z.of_nat (length (filter (fun w => fst w ∈ address_of <$> bm_ops bm) (policy_writes a))).
Proof.
  intros Hnd. rewrite propagate_writes. pose proof (write_policy (policy_writes a) bm 0 Hnd) as H.
  destruct (fold_left _ _ _) as [bm' n]. destruct H as [H1 ->]. split; [done|].
  rewrite Z.add_0_l. by do 2 f_equal.
Qed.

(** C10: a message is authorized only on all of these grounds, and then always: a
    policy was read; the first stored credential equal to the presented one (up to
    its ';') is valid; the first class with that credential has the claimed user name
    (if one is claimed); and the value the propagation of that class leaves at the
    address is 'fl'. Everything else is refused. *)
Theorem authorize_decides (a : auth_service_state_t) cred_info user_name at_address :
  auth_service_authorize a cred_info user_name at_address = true <->
  au_loaded a = true /\ cred_info <> "" /\
  exists cr c,
    find_first (fun cr => cr_info cr =?s before ";" cred_info) (au_credentials a) = Some cr /\
    cr_valid cr = true /\
    find_first (fun c => cl_credential_ref c =? cr_cred_id cr) (au_classes a) = Some c /\
    (user_name = "" \/ user_name = cl_name c) /\
    last_value (class_writes a c) at_address = Some "fl".
Proof.
  unfold auth_service_authorize, credential_matches. split.
  - intros H. destruct (_ || _)%bool eqn:E; [done|]. bool_hyps.
    split; [done|]. split; [done|].
    destruct (find_first (fun cr => cr_info cr =?s before ";" cred_info) (au_credentials a))
      as [cr|] eqn:Ecr; [|done].
    destruct (cr_valid cr) eqn:Ev; [|done]. simpl in H.
    destruct (find_first (fun c => cl_credential_ref c =? cr_cred_id cr) (au_classes a))
      as [c|] eqn:Ec; [|done].
    destruct (_ && _)%bool eqn:Eu; [done|]. rewrite value_for_last in H.
    destruct (last_value (class_writes a c) at_address) as [vn|] eqn:Evn; [|done].
    apply String.eqb_eq in H. subst vn. exists cr, c. split; [done|]. split; [done|]. split; [done|].
    split; [|done]. apply andb_false_elim in Eu as [Eu|Eu]; apply negb_false_iff, String.eqb_eq in Eu; auto.
  - intros (Hl & Hc & cr & c & Hcr & Hv & Hcl & Hu & Hw).
    apply String.eqb_neq in Hc. rewrite Hl, Hc. simpl. rewrite Hcr, Hv. simpl. rewrite Hcl.
    rewrite value_for_last, Hw. destruct Hu as [->| ->]; [done|].
    rewrite String.eqb_refl. simpl. by rewrite andb_false_r.
Qed.

(** C22: the two ways a permission takes effect agree. Take a loaded policy of one class whose one
    credential is valid, and a binding map in which no two rows have the same address. After the
    policy is propagated, every row whose address the policy has a value for carries that value
    in 'at', and every other row the 'at' it had; and a message that presents the credential
    is authorized for a row's address exactly when the policy's value for it is "fl", which is
    never so for the rows it says nothing about. *)
Theorem per_message_agrees_with_propagation {A} (a : auth_service_state_t) (c : auth_class_t)
    (cr : auth_credential_t) (bm : binding_map_t A) i op :
  au_loaded a = true -> au_classes a = [c] -> au_credentials a = [cr] ->
  cr_valid cr = true -> cr_info cr <> "" -> has_char ";" (cr_info cr) = false ->
  cl_credential_ref c = cr_cred_id cr ->
  NoDup (address_of <$> bm_ops bm) -> bm_ops bm !! i = Some op ->
  let bm' := fst (auth_service_propagate bm_set_at a bm) in
  exists op', bm_ops bm' !! i = Some op' /\
    op_out_author_type op' =
      match value_for a c (address_of op) with Some v => hes_strlcpy 4 v | None => op_out_author_type op end /\
    (auth_service_authorize a (cr_info cr) "" (address_of op) = true <-> value_for a c (address_of op) = Some "fl").
Proof.
  intros Hl Hcs Hcrs Hv Hne Hno Href Hnd Hi bm'.
  assert (Hb : before ";" (cr_info cr) = cr_info cr) by (by apply before_no_char).
  assert (Hops : bm_ops bm' = with_value (policy_writes a) <$> bm_ops bm).
  { subst bm'. rewrite propagate_writes. pose proof (write_policy (policy_writes a) bm 0 Hnd) as H.
    destruct (fold_left _ _ _) as [bm2 n]. by destruct H. }
  exists (with_value (policy_writes a) op). split; [by rewrite Hops, list_lookup_fmap, Hi|].
  assert (Hpw : policy_writes a = class_writes a c)
    by (unfold policy_writes; rewrite Hcs; simpl; by rewrite app_nil_r).
  split; [unfold with_value; rewrite Hpw, value_for_last; by destruct (last_value _ _)|].
  unfold auth_service_authorize, credential_matches. apply String.eqb_neq in Hne.
  rewrite Hl, Hne, Hcrs. simpl. rewrite Hb, String.eqb_refl. simpl. rewrite Hv, Hcs. simpl.
  rewrite Href, Z.eqb_refl. simpl. destruct (value_for a c (address_of op)) as [v|]; [|done].
  rewrite String.eqb_eq. split; [by intros ->|by intros [= ->]].
Qed.

(** ** What a GET may reveal *)

Definition class_record (c : auth_class_t) : string :=
  ("ci=" ++ fmt_d (cl_class_id c) ++ ",fn=" ++ cl_name c ++ ",st=" ++ cl_status c)%string.

Lemma str_take_app n s t :
  str_take n (s ++ t) = (str_take n s ++ str_take (n - String.length s) t)%string.
Proof.
  revert s. induction n as [|n IH]; intros [|x s]; simpl; try done. by rewrite IH.
Qed.

Lemma class_list_spec i cs off buf :
  exists rest, class_list i cs off buf = ((buf ++ rest)%string, snd (class_list i cs off buf)) /\
    rest = str_take (HES_PAYLOAD_MAX - 1 - off)
      (str_join "" (imap (fun j c => class_text (i + j) c) cs)) /\
    (off <= snd (class_list i cs off buf))%nat /\
    (cs <> [] -> (off < HES_PAYLOAD_MAX - 1)%nat -> (off < snd (class_list i cs off buf))%nat).
Proof.
  revert i off buf. induction cs as [|c cs IH]; intros i off buf; cbn [class_list].
  { exists "". rewrite str_app_nil_r. simpl. repeat split; try done. by destruct (_ - _)%nat. }
  destruct (off <? HES_PAYLOAD_MAX - 1)%nat eqn:E; [apply Nat.ltb_lt in E|apply Nat.ltb_ge in E].
  - destruct (IH (S i) (off + String.length (class_text i c))%nat
      (buf ++ str_take (HES_PAYLOAD_MAX - 1 - off) (class_text i c))%string) as (r & Hr & Hrest & Hle & _).
    exists (str_take (HES_PAYLOAD_MAX - 1 - off) (class_text i c) ++ r)%string.
    rewrite Hr. cbn [snd]. split; [by rewrite str_app_assoc|]. split; [|split].
    + subst r. cbn [imap]. rewrite Nat.add_0_r.
      assert (Hj : str_join "" (class_text i c :: imap (fun j c0 => class_text (i + S j) c0) cs) =
        (class_text i c ++ str_join "" (imap (fun j c0 => class_text (S i + j) c0) cs))%string).
      { assert (Him : imap (fun j c0 => class_text (i + S j) c0) cs =
                      imap (fun j c0 => class_text (S i + j) c0) cs)
          by (apply imap_ext; intros; by rewrite Nat.add_succ_r).
        rewrite Him. destruct (imap _ cs); simpl; [by rewrite str_app_nil_r|done]. }
      change (fun j c0 => class_text (i + S j) c0) with ((fun j c0 => class_text (i + j) c0) ∘ S) in Hj.
      rewrite Hj, str_take_app. do 2 f_equal. lia.
    + lia.
    + intros _ _. enough (0 < String.length (class_text i c))%nat by lia.
      unfold class_text. destruct (0 <? i)%nat; simpl; lia.
  - exists "". rewrite str_app_nil_r. cbn [snd]. repeat split; try done; try lia.
    by replace (HES_PAYLOAD_MAX - 1 - off)%nat with 0%nat by lia.
Qed.

Lemma join_texts i cs :
  str_join "" (imap (fun j c => class_text (S i + j) c) cs) =
  match cs with [] => "" | _ => (";" ++ str_join ";" (class_record <$> cs))%string end.
Proof.
  revert i. induction cs as [|c cs IH]; intros i; [done|].
  assert (Hj : forall l, str_join "" (class_text (S i) c :: l) = (class_text (S i) c ++ str_join "" l)%string)
    by (intros [|x l]; simpl; [by rewrite str_app_nil_r|done]).
  cbn [imap fmap list_fmap]. rewrite Nat.add_0_r.
  assert (Him : imap ((fun j c0 => class_text (S i + j) c0) ∘ S) cs =
                imap (fun j c0 => class_text (S (S i) + j) c0) cs)
    by (apply imap_ext; intros; simpl; by rewrite Nat.add_succ_r).
  rewrite Him, Hj, IH. destruct cs as [|c2 cs]; [by rewrite str_app_nil_r|]. done.
Qed.

(** A GET answers with the list of the classes' identifiers, names and statuses,
    cut to the payload size, and depends on nothing else of the policy: no credential,
    permission or proof requirement can be read over the bus. *)
Theorem auth_get_reveals_classes_only (a : auth_service_state_t) out :
  msg_payload (auth_on_get a out) =
    match au_classes a with
    | [] => "no-auth-policy"
    | cs => str_take (HES_PAYLOAD_MAX - 1) (str_join ";" (class_record <$> cs))
    end /\
  forall a', au_classes a' = au_classes a -> auth_on_get a' out = auth_on_get a out.
Proof.
  split; [|intros a' H; unfold auth_on_get; by rewrite H].
  unfold auth_on_get. destruct (class_list_spec 0 (au_classes a) 0 "") as (r & -> & -> & _ & Hoff).
  destruct (au_classes a) as [|c cs]; [done|].
  specialize (Hoff ltac:(done) ltac:(unfold HES_PAYLOAD_MAX; lia)). cbn [snd] in Hoff.
  destruct (snd (class_list 0 (c :: cs) 0 "") =? 0)%nat eqn:Ez; [apply Nat.eqb_eq in Ez; lia|].
  clear Hoff Ez. cbn [msg_payload hes_msg_set_payload_str].
  unfold hes_strlcpy. cbn [String.append]. rewrite str_take_idemp, Nat.sub_0_r, Nat.min_id. f_equal.
  assert (Hc : class_text 0 c = class_record c) by reflexivity.
  cbn [imap]. change (0 + 0)%nat with 0%nat. rewrite Hc.
  assert (Him : imap ((fun j c0 => class_text (0 + j) c0) ∘ S) cs =
                imap (fun j c0 => class_text (1 + j) c0) cs) by (apply imap_ext; intros; done).
  rewrite Him. pose proof (join_texts 0 cs) as Hj. change (S 0) with 1%nat in Hj.
  destruct cs as [|c2 cs]; [done|].
  assert (Hcons : forall x l, l <> [] -> str_join "" (x :: l) = (x ++ str_join "" l)%string)
    by (intros x [|y l] Hl; done).
  rewrite Hcons by done. rewrite Hj. done.
Qed.

(** ** Loading a policy *)

Definition proof_requirement_ok (r : auth_proof_requirement_t) : Prop :=
  pr_at_address r <> "" /\ fits HES_PATH_MAX (pr_at_address r) /\
  String.length (pr_public_id r) = 64%nat.

Lemma jobj_str_fits o key cap dst : (0 < cap)%nat -> fits cap dst -> fits cap (jobj_str o key cap dst).
Proof.
  intros Hc Hd. unfold jobj_str. destruct (json_object_get o key) as [[]|]; try done.
  by apply strlcpy_fits.
Qed.

Lemma load_proofs_ok l slot acc :
  fits HES_PATH_MAX (pr_at_address slot) -> Forall proof_requirement_ok acc ->
  (length acc <= AUTH_MAX_PROOF_REQUIREMENTS)%nat ->
  Forall proof_requirement_ok (load_proofs l slot acc) /\
  (length (load_proofs l slot acc) <= AUTH_MAX_PROOF_REQUIREMENTS)%nat.
Proof.
  revert slot acc. induction l as [|v l IH]; intros slot acc Hs Ha Hl; cbn [load_proofs]; [done|].
  destruct (AUTH_MAX_PROOF_REQUIREMENTS <=? length acc)%nat eqn:E; [done|]. apply Nat.leb_gt in E.
  destruct (json_is_object v); [|by apply IH].
  set (pr := mk_proof_requirement _ _).
  assert (Hpr : fits HES_PATH_MAX (pr_at_address pr))
    by (apply jobj_str_fits; [unfold HES_PATH_MAX; lia|done]).
  destruct (_ || _)%bool eqn:Eb; [by apply IH|]. bool_hyps.
  apply IH; [unfold fits, HES_PATH_MAX; simpl; lia| |rewrite length_app; simpl; lia].
  apply Forall_app. split; [done|]. constructor; [|constructor]. split; [done|]. split; [done|].
  unfold strlen in *. lia.
Qed.

(** Whatever the document, the loaded policy respects the capacities of its
    tables, takes the first objects of each array in order, and holds only proof
    requirements with an address and a 64-character identity; without a readable
    document the policy is empty and not loaded, so every message is refused. *)
Theorem policy_loaded (json_load_file : string -> option json) path :
  let a := auth_service_create json_load_file path in
  (length (au_classes a) <= AUTH_MAX_CLASSES)%nat /\
  (length (au_credentials a) <= AUTH_MAX_CREDENTIALS)%nat /\
  (length (au_permissions a) <= AUTH_MAX_PERMISSIONS)%nat /\
  (length (au_proof_requirements a) <= AUTH_MAX_PROOF_REQUIREMENTS)%nat /\
  Forall proof_requirement_ok (au_proof_requirements a) /\
  match (p ← path; if p =?s "" then None else json_load_file p) with
  | None => a = auth_empty /\ forall cred user at_address,
      auth_service_authorize a cred user at_address = false
  | Some root =>
      au_loaded a = true /\
      forall l, jobj_array (Some root) "credentials" = Some l ->
        au_credentials a =
          take AUTH_MAX_CREDENTIALS (credential_of <$> filter (fun v => json_is_object v = true) l)
  end.
Proof.
  unfold auth_service_create, load_policy.
  assert (Hempty : forall o : option json, o = None ->
    let a := auth_empty in
    (length (au_classes a) <= AUTH_MAX_CLASSES)%nat /\
    (length (au_credentials a) <= AUTH_MAX_CREDENTIALS)%nat /\
    (length (au_permissions a) <= AUTH_MAX_PERMISSIONS)%nat /\
    (length (au_proof_requirements a) <= AUTH_MAX_PROOF_REQUIREMENTS)%nat /\
    Forall proof_requirement_ok (au_proof_requirements a) /\
    (a = auth_empty /\ forall cred user at_address, auth_service_authorize a cred user at_address = false)).
  { intros o _. simpl. repeat split; try lia. constructor. }
  destruct path as [[|ch p]|]; [by apply (Hempty None)| |by apply (Hempty None)].
  cbn [mbind option_bind]. destruct (String ch p =?s "") eqn:Ep; [done|].
  destruct (json_load_file (String ch p)) as [root|]; [|by apply (Hempty None)].
  assert (Ht : forall T key max (row : json -> T), (length (load_table (Some root) key max row) <= max)%nat).
  { intros T key max row. unfold load_table. destruct (jobj_array _ key); [apply load_rows_length|simpl; lia]. }
  cbn [au_classes au_credentials au_permissions au_proof_requirements au_loaded].
  split; [apply Ht|]. split; [apply Ht|]. split; [apply Ht|].
  assert (Hp : Forall proof_requirement_ok
      (match jobj_array (Some root) "proofRequired" with
       | Some l => load_proofs l (mk_proof_requirement "" "") [] | None => [] end) /\
    (length (match jobj_array (Some root) "proofRequired" with
       | Some l => load_proofs l (mk_proof_requirement "" "") [] | None => [] end)
     <= AUTH_MAX_PROOF_REQUIREMENTS)%nat).
  { destruct (jobj_array (Some root) "proofRequired") as [l|]; [|split; [constructor|simpl; lia]].
    apply load_proofs_ok; [unfold fits, HES_PATH_MAX; simpl; lia|constructor|simpl; lia]. }
  destruct Hp as [Hp1 Hp2]. split; [done|]. split; [done|]. split; [done|].
  intros l Hl. unfold load_table. rewrite Hl. rewrite load_rows_spec by (simpl; lia).
  simpl length. by rewrite Nat.sub_0_r.
Qed.

(** ** What the loader and the comparison let through *)

(** A refused proofRequired entry is left in its slot: an entry with an address
    but a malformed identity is refused, and the next entry, which has an identity but
    no address and so should be refused too, is accepted under that address. *)
Theorem refused_proof_entry_is_inherited at_address short_pi pi :
  at_address <> "" -> fits HES_PATH_MAX at_address ->
  fits 64 short_pi -> String.length pi = 64%nat ->
  load_proofs [JObject [("at", JString at_address); ("pi", JString short_pi)];
               JObject [("pi", JString pi)]] (mk_proof_requirement "" "") [] =
  [mk_proof_requirement at_address pi].
Proof.
  intros Ha Hf Hs Hp.
  set (e1 := JObject _). set (e2 := JObject _).
  assert (H1 : jobj_str (Some e1) "at" HES_PATH_MAX "" = at_address) by (by apply hes_strlcpy_small).
  assert (H2 : jobj_str (Some e1) "pi" 65 "" = short_pi)
    by (apply hes_strlcpy_small; unfold fits in Hs; lia).
  assert (H3 : jobj_str (Some e2) "at" HES_PATH_MAX at_address = at_address) by done.
  assert (H4 : jobj_str (Some e2) "pi" 65 short_pi = pi) by (apply hes_strlcpy_small; lia).
  apply String.eqb_neq in Ha.
  assert (H5 : (strlen short_pi =? 64) = false)
    by (apply Z.eqb_neq; unfold strlen, fits in *; lia).
  assert (H6 : (strlen pi =? 64) = true) by (apply Z.eqb_eq; unfold strlen; lia).
  cbn -[strlen jobj_str]. rewrite H1, H2, Ha, H5. cbn -[strlen jobj_str].
  rewrite H3, H4, Ha, H6. done.
Qed.

(** ** Witnesses *)

Definition ex_class : auth_class_t := mk_class 1 "alice" "au" 0 7 5.
Definition ex_policy (vn : string) : auth_service_state_t :=
  mk_auth [ex_class] [] [mk_credential 5 "ak" "" "k3y" 0 true] [mk_group 7 "ps" 3]
    [mk_permission 3 "au" 0 "/lx/ob/bm/ot1/o1/at" vn] [] true.

Definition ex_two_rows : binding_map_t unit :=
  let row t c := op_with_out_code (op_with_table_code op_empty t) c in
  bm_with_ops (bm_init tt) [row "ot1" "o1"; row "ot1" "o2"].

Lemma ex_two_rows_distinct : NoDup (address_of <$> bm_ops ex_two_rows).
Proof.
  apply NoDup_cons. split; [|apply NoDup_singleton]. intros H%list_elem_of_singleton. discriminate.
Qed.

Lemma propagate_into_binding_map_witness :
  let '(bm', n) := auth_service_propagate bm_set_at (ex_policy "fl") ex_two_rows in
  bm_ops bm' = with_value (policy_writes (ex_policy "fl")) <$> bm_ops ex_two_rows /\
  n = Z.of_nat (length (filter (fun w => fst w ∈ address_of <$> bm_ops ex_two_rows)
                          (policy_writes (ex_policy "fl")))).
Proof. apply (propagate_into_binding_map (ex_policy "fl") ex_two_rows ex_two_rows_distinct). Defined.

Lemma per_message_agrees_with_propagation_witness :
  let bm' := fst (auth_service_propagate bm_set_at (ex_policy "bk") ex_two_rows) in
  exists op', bm_ops bm' !! 0%nat = Some op' /\ op_out_author_type op' = "bk" /\
    (auth_service_authorize (ex_policy "bk") "k3y" "" "/lx/ob/bm/ot1/o1/at" = true <-> Some "bk" = Some "fl").
Proof.
  apply (per_message_agrees_with_propagation (ex_policy "bk") ex_class
    (mk_credential 5 "ak" "" "k3y" 0 true) ex_two_rows 0
    (op_with_out_code (op_with_table_code op_empty "ot1") "o1"));
    try reflexivity; [discriminate|apply ex_two_rows_distinct].
Defined.

Lemma refused_proof_entry_is_inherited_witness :
  load_proofs [JObject [("at", JString "/lx/ob/bm/ot1/o1/at"); ("pi", JString "oops")];
               JObject [("pi", JString "0123456789abcdef0123456789abcdef0123456789abcdef0123456789abcdef")]]
    (mk_proof_requirement "" "") [] =
  [mk_proof_requirement "/lx/ob/bm/ot1/o1/at"
     "0123456789abcdef0123456789abcdef0123456789abcdef0123456789abcdef"].
Proof.
  apply refused_proof_entry_is_inherited;
    [discriminate|unfold fits, HES_PATH_MAX; simpl; lia|unfold fits; simpl; lia|reflexivity].
Defined.

(** A credential whose 'ci' is missing from the document is the empty text, which a
    presented credential that starts with ';' matches. *)
Example empty_credential_matches :
  auth_service_authorize
    (mk_auth [ex_class] [] [mk_credential 5 "ak" "" "" 0 true] [mk_group 7 "ps" 3]
       [mk_permission 3 "au" 0 "/lx/ob/bm/ot1/o1/at" "fl"] [] true)
    ";pi=x" "" "/lx/ob/bm/ot1/o1/at" = true.
Proof. reflexivity. Qed.
