(* ===== verification/Crypto.v ===== *)
(** * The cryptographic service

    Models src/src/services/crypto/crypto.c: the cipher table and its answers, the
    text forms (hexadecimal, 'code=value' records), the identity signature and the
    verification of a proof. The PSA Crypto API is the class [Psa]: bytes in, a
    status and bytes out; key handles and cipher operations are values of its types
    (destroying a handle has no effect the program can observe). *)

From S2P Require Import Prelude CLib HesCommon.

Definition CRYPTO_MAX_PAYLOAD : nat := 128.
Definition CRYPTO_AEAD_NONCE_SIZE : nat := 12.
Definition CRYPTO_AEAD_TAG_SIZE : nat := 16.
Definition CRYPTO_IDENTITY_EI : Z := 100.
Definition CRYPTO_IDENTITY_KEY_BYTES : nat := 32.
Definition CRYPTO_IDENTITY_SIG_BYTES : nat := 64.
Definition CRYPTO_IDENTITY_PUB_BYTES : nat := 65.

(** ** The PSA Crypto API, as the service uses it *)

Inductive psa_status_t :=
| PSA_SUCCESS
| PSA_ERROR_NOT_SUPPORTED
| PSA_ERROR_INVALID_ARGUMENT
| PSA_ERROR_INVALID_SIGNATURE
| PSA_ERROR_GENERIC_ERROR
| PSA_ERROR_OTHER (code : Z).

Inductive psa_key_type_t :=
| PSA_KEY_TYPE_NONE | PSA_KEY_TYPE_AES | PSA_KEY_TYPE_ARIA
| PSA_KEY_TYPE_ECC_KEY_PAIR | PSA_KEY_TYPE_ECC_PUBLIC_KEY | PSA_KEY_TYPE_DERIVE.

Inductive psa_algorithm_t :=
| PSA_ALG_NONE | PSA_ALG_CBC_NO_PADDING | PSA_ALG_CFB | PSA_ALG_CCM | PSA_ALG_GCM
| PSA_ALG_DETERMINISTIC_ECDSA | PSA_ALG_HKDF.

Inductive psa_usage := PSA_KEY_USAGE_DECRYPT | PSA_KEY_USAGE_SIGN_HASH
| PSA_KEY_USAGE_EXPORT | PSA_KEY_USAGE_VERIFY_HASH | PSA_KEY_USAGE_EXPORT_SIGN_HASH | PSA_KEY_USAGE_DERIVE.

Record psa_key_attributes_t := mk_attr {
  ka_type : psa_key_type_t;
  ka_bits : Z;
  ka_usage : psa_usage;
  ka_alg : psa_algorithm_t;
}.

Class Psa (K O : Type) := {
  psa_crypto_init : psa_status_t;
  psa_import_key : psa_key_attributes_t -> bytes -> psa_status_t * K;
  psa_cipher_decrypt_setup : K -> psa_algorithm_t -> psa_status_t * O;
  psa_cipher_set_iv : O -> bytes -> psa_status_t * O;
  (** the last argument is the capacity of the output buffer *)
  psa_cipher_update : O -> bytes -> nat -> psa_status_t * (O * bytes);
  psa_cipher_finish : O -> nat -> psa_status_t * bytes;
  psa_aead_decrypt : K -> psa_algorithm_t -> bytes -> bytes -> bytes -> nat -> psa_status_t * bytes;
  psa_sha256 : bytes -> psa_status_t * bytes;
  psa_sign_hash : K -> psa_algorithm_t -> bytes -> nat -> psa_status_t * bytes;
  psa_verify_hash : K -> psa_algorithm_t -> bytes -> bytes -> psa_status_t;
  psa_export_public_key : K -> nat -> psa_status_t * bytes;
}.

Definition ok (s : psa_status_t) : bool := match s with PSA_SUCCESS => true | _ => false end.

(** ** The cipher table *)

Record cipher_entry_t := mk_cipher {
  ci_ei : Z;
  ci_name_cipher : string;
  ci_key_size : Z;
  ci_mode_cipher : string;
  ci_key : bytes;
  ci_supported : bool;
  ci_internal_bits : Z;
  ci_auth_bytes : Z;
}.

Record crypto_service_state_t := mk_crypto {
  cs_ciphers : list cipher_entry_t;
  cs_identity_scalar : bytes;
  cs_have_identity_key : bool;
  cs_refs : Z;
}.

Definition find_cipher (st : crypto_service_state_t) (ei : Z) : option cipher_entry_t :=
  find_first (fun c => ci_ei c =? ei) (cs_ciphers st).

Definition parse_ei (query : string) : Z :=
  match strstr "ei=" query with
  | None => -1
  | Some p => atoi (str_drop 3 p)
  end.

(** ** Hexadecimal text *)

(** [sscanf(pair, "%2x", &b) == 1] on two characters: leading white space is
    skipped, a sign is taken, and at least one digit is needed; a bare "0x" is a
    matching failure. *)
Definition scan_2x (a b : ascii) : option Z :=
  let '(neg, r) := read_sign (skip_space (String a (String b EmptyString))) in
  if prefix_nocase "0x" r then None
  else
    match hex_digits_from 0 0 r with
    | (_, O, _) => None
    | (v, _, _) => Some (uint8 (uint32 (if neg then - v else v)))
    end.

Fixpoint decode_pairs (s : string) : option bytes :=
  match s with
  | EmptyString => Some []
  | String a (String b r) =>
      let* v := scan_2x a b in
      let* rest := decode_pairs r in
      Some (v :: rest)
  | String _ EmptyString => None
  end.

Definition hex_decode (hex : string) (out_cap : nat) : option bytes :=
  if negb (Nat.even (String.length hex)) then None
  else if (out_cap <? String.length hex / 2)%nat then None
  else decode_pairs hex.

(** Two characters per byte while they and the terminator fit. *)
Fixpoint hex_encode_from (upper : bool) (data : bytes) (off out_cap : nat) : string :=
  match data with
  | [] => EmptyString
  | b :: data' =>
      if (off + 2 <? out_cap)%nat
      then (fmt_02x upper b ++ hex_encode_from upper data' (off + 2) out_cap)%string
      else EmptyString
  end.

Definition hex_encode (data : bytes) (out_cap : nat) : string := hex_encode_from true data 0 out_cap.
Definition hex_encode_lower (data : bytes) (out_cap : nat) : string :=
  hex_encode_from false data 0 out_cap.

(** ** Records of a credential text *)

(** The loop over the records; the first one of that name decides, even when its
    value does not fit. *)
Fixpoint proof_scan (ps : list string) (code : string) (out_cap : nat) : option string :=
  match ps with
  | [] => None
  | p :: ps' =>
      match cut_eq (before ";" p) with
      | Some (name, v) =>
          if name =?s code then
            if (out_cap <=? String.length v)%nat then None else Some v
          else proof_scan ps' code out_cap
      | None => proof_scan ps' code out_cap
      end
  end.

Definition proof_field (cred : option string) (code : string) (out_cap : nat) : option string :=
  match cred with
  | None => None
  | Some c => proof_scan (visits ";" c) code out_cap
  end.

(** The text a proof signs: path, newline, payload, in a buffer of [out_cap]. *)
Definition newline : string := String (chr 10) EmptyString.

Definition crypto_proof_message (path payload : string) (out_cap : nat) : string :=
  match out_cap with
  | O => EmptyString
  | _ =>
      let p := hes_strlcpy out_cap path in
      if (out_cap <=? String.length p + 1)%nat then p
      else (p ++ newline ++ hes_strlcpy (out_cap - (String.length p + 1)) payload)%string
  end.

(** ** Pinning a key to an identity *)

Definition nibbles_match (b : Z) (hi lo : ascii) : bool :=
  (Ascii.eqb (hex_char false (Z.shiftr b 4)) (tolower hi) &&
   Ascii.eqb (hex_char false (Z.land b 15)) (tolower lo))%bool.

Fixpoint pi_loop (xs : bytes) (pi : string) : bool :=
  match xs, pi with
  | [], _ => true
  | b :: xs', String hi (String lo pi') => (nibbles_match b hi lo && pi_loop xs' pi')%bool
  | _ :: _, _ => false
  end.

Definition crypto_pi_matches (pub : bytes) (pi : string) : bool :=
  if (negb (byte_at pub 0 =? 4) || negb (strlen pi =? 64))%bool then false
  else pi_loop (take 32 (drop 1 pub)) pi.

(** ** Signing, exporting and verifying *)
Section psa.
Context {K O : Type} {psa : Psa K O}.

Definition sha256_digest (msg : bytes) : option bytes :=
  let '(st, d) := psa_sha256 msg in
  if (ok st && (length d =? 32)%nat)%bool then Some d else None.

Definition ecc_attr (t : psa_key_type_t) (u : psa_usage) : psa_key_attributes_t :=
  mk_attr t 256 u PSA_ALG_DETERMINISTIC_ECDSA.

Definition crypto_service_sign (st : crypto_service_state_t) (msg : bytes) : option bytes :=
  if negb (cs_have_identity_key st) then None
  else if negb (ok psa_crypto_init) then None
  else
    let* digest := sha256_digest msg in
    let '(rv, key) := psa_import_key (ecc_attr PSA_KEY_TYPE_ECC_KEY_PAIR PSA_KEY_USAGE_SIGN_HASH)
                        (cs_identity_scalar st) in
    if negb (ok rv) then None
    else
      let '(rv, sig) := psa_sign_hash key PSA_ALG_DETERMINISTIC_ECDSA digest
                          CRYPTO_IDENTITY_SIG_BYTES in
      if (ok rv && (length sig =? CRYPTO_IDENTITY_SIG_BYTES)%nat)%bool then Some sig else None.

Definition crypto_service_public_key (st : crypto_service_state_t) : option bytes :=
  if negb (cs_have_identity_key st) then None
  else if negb (ok psa_crypto_init) then None
  else
    let '(rv, key) := psa_import_key (ecc_attr PSA_KEY_TYPE_ECC_KEY_PAIR PSA_KEY_USAGE_EXPORT)
                        (cs_identity_scalar st) in
    if negb (ok rv) then None
    else
      let '(rv, pub) := psa_export_public_key key CRYPTO_IDENTITY_PUB_BYTES in
      if (ok rv && (length pub =? CRYPTO_IDENTITY_PUB_BYTES)%nat)%bool then Some pub else None.

(** [true] is the return value 0: the signature verifies. *)
Definition crypto_verify_message (pub msg sig : bytes) : bool :=
  if negb (byte_at pub 0 =? 4) then false
  else if negb (ok psa_crypto_init) then false
  else
    match sha256_digest msg with
    | None => false
    | Some digest =>
        let '(rv, key) := psa_import_key (ecc_attr PSA_KEY_TYPE_ECC_PUBLIC_KEY PSA_KEY_USAGE_VERIFY_HASH)
                            pub in
        if negb (ok rv) then false
        else ok (psa_verify_hash key PSA_ALG_DETERMINISTIC_ECDSA digest sig)
    end.

Definition crypto_verify_proof (cred_info : option string) (expected_pi : string) (msg : bytes)
  : bool :=
  match proof_field cred_info "pi" 65, proof_field cred_info "pk" 131,
        proof_field cred_info "sig" 129 with
  | Some pi, Some pk_hex, Some sig_hex =>
      match hex_decode pk_hex CRYPTO_IDENTITY_PUB_BYTES, hex_decode sig_hex CRYPTO_IDENTITY_SIG_BYTES with
      | Some pub, Some sig =>
          if (negb (length pub =? CRYPTO_IDENTITY_PUB_BYTES)%nat ||
              negb (length sig =? CRYPTO_IDENTITY_SIG_BYTES)%nat)%bool then false
          else if negb (crypto_pi_matches pub expected_pi) then false
          else if negb (crypto_pi_matches pub pi) then false
          else crypto_verify_message pub msg sig
      | _, _ => false
      end
  | _, _, _ => false
  end.

Definition crypto_service_set_identity_key (priv : bytes) (st : crypto_service_state_t)
  : crypto_service_state_t := mk_crypto (cs_ciphers st) priv true (cs_refs st).

(** *** Decryption *)

Definition psa_cipher_key_type (c : cipher_entry_t) : psa_key_type_t :=
  if ci_name_cipher c =?s "ae" then PSA_KEY_TYPE_AES
  else if ci_name_cipher c =?s "ar" then PSA_KEY_TYPE_ARIA
  else PSA_KEY_TYPE_NONE.

Definition psa_cipher_algorithm (c : cipher_entry_t) : psa_algorithm_t :=
  if ci_mode_cipher c =?s "cb" then PSA_ALG_CBC_NO_PADDING
  else if ci_mode_cipher c =?s "cf" then PSA_ALG_CFB
  else if ci_mode_cipher c =?s "cc" then PSA_ALG_CCM
  else if ci_mode_cipher c =?s "gc" then PSA_ALG_GCM
  else PSA_ALG_NONE.

Definition import_key (c : cipher_entry_t) : psa_status_t * K :=
  psa_import_key (mk_attr (psa_cipher_key_type c) (ci_key_size c * 8) PSA_KEY_USAGE_DECRYPT
                    (psa_cipher_algorithm c))
    (take (Z.to_nat (ci_key_size c)) (ci_key c)).

(** The operation on an imported key: each step runs only when the one before
    succeeded; what was produced so far is kept. *)
Definition cipher_steps (key : K) (c : cipher_entry_t) (data : bytes)
  : psa_status_t * bytes * bytes :=
  let '(st, op) := psa_cipher_decrypt_setup key (psa_cipher_algorithm c) in
  let '(st, op) := if ok st then psa_cipher_set_iv op (replicate 16 0) else (st, op) in
  let '(st, (op, out1)) := if ok st then psa_cipher_update op data 128 else (st, (op, [])) in
  let '(st, out2) := if ok st then psa_cipher_finish op (128 - length out1) else (st, []) in
  (st, out1, out2).

Definition decrypt_block_or_feedback (data : bytes) (c : cipher_entry_t)
  : psa_status_t * bytes :=
  if ((length data =? 0)%nat ||
      ((ci_mode_cipher c =?s "cb") && negb (length data mod 16 =? 0)%nat))%bool
  then (PSA_ERROR_INVALID_ARGUMENT, data)
  else if negb (ok psa_crypto_init) then (psa_crypto_init, data)
  else
    let '(st, key) := import_key c in
    if negb (ok st) then (st, data)
    else
      let '(st, out1, out2) := cipher_steps key c data in
      if (ok st && (length out1 + length out2 =? length data)%nat)%bool
      then (PSA_SUCCESS, out1 ++ out2)
      else (PSA_ERROR_GENERIC_ERROR, data).

Definition decrypt_aead (data : bytes) (c : cipher_entry_t) : psa_status_t * bytes :=
  if (length data <=? CRYPTO_AEAD_NONCE_SIZE + CRYPTO_AEAD_TAG_SIZE)%nat
  then (PSA_ERROR_INVALID_ARGUMENT, [])
  else if negb (ok psa_crypto_init) then (psa_crypto_init, [])
  else
    let '(st, key) := import_key c in
    if negb (ok st) then (st, [])
    else psa_aead_decrypt key (psa_cipher_algorithm c) (take CRYPTO_AEAD_NONCE_SIZE data) []
           (drop CRYPTO_AEAD_NONCE_SIZE data) (length data - CRYPTO_AEAD_NONCE_SIZE).

(** The plaintext, or the text of the error to answer with. *)
Definition decrypt_error (c : cipher_entry_t) (payload : string) : string + bytes :=
  if negb (ci_supported c) then inl "error:unsupported-cipher"
  else
    match hex_decode payload CRYPTO_MAX_PAYLOAD with
    | None | Some [] => inl "error:invalid-parameters"
    | Some data =>
        if ((ci_mode_cipher c =?s "cc") || (ci_mode_cipher c =?s "gc"))%bool then
          let '(st, plain) := decrypt_aead data c in
          match st with
          | PSA_ERROR_NOT_SUPPORTED => inl "error:unsupported-mode"
          | PSA_ERROR_INVALID_SIGNATURE => inl "error:authentication-failed"
          | PSA_SUCCESS => inr plain
          | _ => inl "error:invalid-parameters"
          end
        else
          let '(st, plain) := decrypt_block_or_feedback data c in
          match st with
          | PSA_ERROR_NOT_SUPPORTED =>
              inl (if ci_name_cipher c =?s "ar" then "error:unsupported-cipher"
                   else "error:unsupported-mode")
          | PSA_SUCCESS => inr plain
          | _ => inl "error:invalid-parameters"
          end
    end.

(** *** The answers *)

Definition proof_text (pub sig : bytes) : string :=
  ("pi=" ++ hex_encode_lower (take 32 (drop 1 pub)) 65 ++
   ";pk=" ++ hex_encode (take CRYPTO_IDENTITY_PUB_BYTES pub) 131 ++
   ";sig=" ++ hex_encode (take CRYPTO_IDENTITY_SIG_BYTES sig) 129)%string.

Definition crypto_identity_proof (st : crypto_service_state_t) (out : hes_clme_msg_t)
  : hes_clme_msg_t :=
  match hex_decode (hes_strlcpy HES_PAYLOAD_MAX (msg_payload out)) CRYPTO_MAX_PAYLOAD with
  | None | Some [] => hes_msg_set_payload_str out "error:bad-challenge"
  | Some challenge =>
      match crypto_service_public_key st, crypto_service_sign st challenge with
      | Some pub, Some sig =>
          let text := proof_text pub sig in
          if (HES_PAYLOAD_MAX <=? String.length text)%nat
          then hes_msg_set_payload_str out "error:proof-too-large"
          else hes_msg_set_payload_str out text
      | _, _ => hes_msg_set_payload_str out "error:no-identity-key"
      end
  end.

Definition internal_report (c : cipher_entry_t) : string :=
  str_take 127 ("ei=" ++ fmt_d (ci_ei c) ++ ";ks=" ++ fmt_d (ci_key_size c) ++
                ";it=" ++ fmt_d (ci_internal_bits c) ++ ";au=" ++ fmt_d (ci_auth_bytes c)).

Definition cipher_report (c : cipher_entry_t) : string :=
  str_take 127 ("ei=" ++ fmt_d (ci_ei c) ++ ";nc=" ++ ci_name_cipher c ++
                ";ks=" ++ fmt_d (ci_key_size c) ++ ";mc=" ++ ci_mode_cipher c).

Definition crypto_on_get (st : crypto_service_state_t) (out : hes_clme_msg_t) : hes_clme_msg_t :=
  let ei := parse_ei (msg_query out) in
  match (if 0 <=? ei then find_cipher st ei else None) with
  | None => hes_msg_set_payload_str out "error:unknown-ei"
  | Some c =>
      if 0 <? ci_internal_bits c then
        if 0 <? msg_payload_len out then crypto_identity_proof st out
        else hes_msg_set_payload_str out (internal_report c)
      else if 0 <? msg_payload_len out then
        match decrypt_error c (msg_payload out) with
        | inl error => hes_msg_set_payload_str out error
        | inr raw => hes_msg_set_payload_str out (hex_encode raw 257)
        end
      else hes_msg_set_payload_str out (cipher_report c)
  end.

Definition crypto_on_put (st : crypto_service_state_t) (inm : hes_clme_msg_t)
  : crypto_service_state_t := st.

Definition crypto_config_on_get (out : hes_clme_msg_t) : hes_clme_msg_t :=
  hes_msg_set_payload_str out "vr=1.0.0;rq=ma;si=no".

(** Releasing one of the objects; the last one scrubs the secret. [None]: freed. *)
Definition crypto_destroy (st : crypto_service_state_t) : option crypto_service_state_t :=
  let refs := cs_refs st - 1 in
  if 0 <? refs
  then Some (mk_crypto (cs_ciphers st) (cs_identity_scalar st) (cs_have_identity_key st) refs)
  else None.
End psa.

(** ** Creating the service *)

Definition cipher_definitions : list (string * string * bool) :=
  [("ae", "cb", true); ("ae", "cf", true); ("ae", "cc", true); ("ae", "gc", true);
   ("ar", "cb", true); ("ar", "cf", true); ("ar", "cc", true); ("ar", "gc", true);
   ("bf", "cb", false); ("bf", "cc", false); ("bf", "cf", false); ("bf", "gc", false)].

Definition crypto_key : bytes := string_bytes "0123456789ABCDEF".

Definition cipher_rows : list cipher_entry_t :=
  imap (fun i d => mk_cipher (Z.of_nat (S i)) (fst (fst d)) 16 (snd (fst d)) crypto_key (snd d) 0 0)
    cipher_definitions ++
  [mk_cipher CRYPTO_IDENTITY_EI "" 32 "" [] true 256 64].

Definition crypto_service_init : crypto_service_state_t :=
  mk_crypto cipher_rows (replicate CRYPTO_IDENTITY_KEY_BYTES 0) false 2.

(** The two objects, over the state of the module that hosts them. *)
Definition crypto_service_create {K O} {psa : Psa K O} {G}
  (get : G -> crypto_service_state_t) (put : crypto_service_state_t -> G -> G)
  : list (service_object_t G) :=
  [mk_so "/lx/ob/so/cr" (Some (fun g out => (g, crypto_config_on_get out)))
     (Some (fun g inm => put (crypto_on_put (get g) inm) g)) None;
   mk_so "/lx/ob/so/cr/ci" (Some (fun g out => (g, crypto_on_get (get g) out)))
     (Some (fun g inm => put (crypto_on_put (get g) inm) g)) None].
