(* ===== verification/CryptoFacts.v ===== *)
(** * The cryptographic service: properties

    Hexadecimal text and back, what a verified proof establishes, and that the
    gateway's own proofs verify under the laws of the signature primitive. *)

From S2P Require Import Prelude CLib HesCommon Bm BmLoad Crypto.

(** ** Hexadecimal text *)


Definition decodes (upper : bool) (b : Z) : bool :=
  match fmt_02x upper b with
  | String x (String y EmptyString) =>
      match scan_2x x y with Some v => v =? b | None => false end
  | _ => false
  end.

Lemma all_bytes (P : Z -> bool) :
  forallb P (Z.of_nat <$> seq 0 256) = true -> forall b, byte b -> P b = true.
Proof.
  intros H b Hb. rewrite forallb_forall in H. apply H, list_elem_of_In, list_elem_of_fmap.
  exists (Z.to_nat b). unfold byte in Hb. split; [lia|]. apply elem_of_seq. lia.
Qed.

Lemma byte_decodes upper b : byte b -> decodes upper b = true.
Proof. apply all_bytes. destruct upper; vm_compute; reflexivity. Qed.

Lemma fmt_02x_two upper b :
  fmt_02x upper b = String (hex_char upper (Z.shiftr b 4)) (String (hex_char upper (Z.land b 15)) "").
Proof. done. Qed.

Lemma length_hex_encode upper data off cap :
  (off + 2 * length data < cap)%nat ->
  String.length (hex_encode_from upper data off cap) = (2 * length data)%nat.
Proof.
  revert off. induction data as [|b data IH]; intros off H; [done|].
  cbn [hex_encode_from length] in *. rewrite (proj2 (Nat.ltb_lt _ _)) by lia.
  rewrite fmt_02x_two. cbn [String.append String.length]. rewrite IH by lia. lia.
Qed.

Lemma decode_pairs_encode upper data off cap :
  Forall byte data -> (off + 2 * length data < cap)%nat ->
  decode_pairs (hex_encode_from upper data off cap) = Some data.
Proof.
  intros Hb. revert off. induction Hb as [|b data Hb Hd IH]; intros off H; [done|].
  cbn [hex_encode_from length] in *. rewrite (proj2 (Nat.ltb_lt _ _)) by lia.
  pose proof (byte_decodes upper b Hb) as Hdec. unfold decodes in Hdec.
  rewrite fmt_02x_two in *. cbn [String.append decode_pairs].
  destruct (scan_2x _ _) as [v|]; [|done]. apply Z.eqb_eq in Hdec. subst v.
  by rewrite IH by lia.
Qed.

(** What the service encodes, in either case, it decodes back to the same
    bytes, whenever they fit the two buffers. *)
Theorem hex_round_trip upper (data : bytes) enc_cap dec_cap :
  Forall byte data -> (2 * length data < enc_cap)%nat -> (length data <= dec_cap)%nat ->
  hex_decode (hex_encode_from upper data 0 enc_cap) dec_cap = Some data.
Proof.
  intros Hb He Hd. unfold hex_decode. rewrite length_hex_encode by lia.
  replace (Nat.even (2 * length data)) with true by (symmetry; apply Nat.even_spec; by exists (length data)).
  rewrite Nat.mul_comm, Nat.div_mul by lia. rewrite (proj2 (Nat.ltb_ge _ _)) by lia.
  apply decode_pairs_encode; [done|]. lia.
Qed.

Lemma hex_round_trip_witness :
  hex_decode (hex_encode_from true [0; 255; 16] 0 10) 3 = Some [0; 255; 16].
Proof. apply hex_round_trip; [repeat constructor; unfold byte; lia|simpl; lia|simpl; lia]. Defined.

(** The decoder takes texts that are not hexadecimal: a pair whose second
    character is no digit is read as its first digit, a blank or a sign may stand for
    a digit, and a minus sign wraps around. *)
Theorem hex_decode_accepts_non_hex :
  hex_decode "1g" 1 = Some [1] /\ hex_decode " 7" 1 = Some [7] /\ hex_decode "-1" 1 = Some [255].
Proof. repeat split; vm_compute; reflexivity. Qed.

(** ** Records of a credential *)

Lemma proof_scan_step d rest ps c cap :
  datum_ok d -> (rest = "" \/ exists r, rest = String ";" r) ->
  proof_scan ((render_datum d ++ rest)%string :: ps) c cap =
  if fst d =?s c then (if (cap <=? String.length (snd d))%nat then None else Some (snd d))
  else proof_scan ps c cap.
Proof.
  intros Hd Hrest. cbn [proof_scan].
  assert (Hb : before ";" (render_datum d ++ rest) = render_datum d).
  { destruct (render_datum_ok d Hd) as [_ Hno].
    destruct Hrest as [->|[r ->]]; [by rewrite str_app_nil_r, before_no_char|by apply before_app_char]. }
  by rewrite Hb, cut_eq_render.
Qed.

Lemma proof_scan_table t c cap :
  Forall datum_ok t ->
  proof_scan (visits ";" (render_table t)) c cap =
  match find_first (fun d => fst d =?s c) t with
  | Some d => if (cap <=? String.length (snd d))%nat then None else Some (snd d)
  | None => None
  end.
Proof.
  induction 1 as [|d t Hd Ht IH]; [done|].
  destruct (render_datum_ok d Hd) as [Hne Hno]. unfold render_table in *.
  destruct t as [|d2 t].
  - cbn [list_fmap fmap str_join]. rewrite visits_last by done.
    rewrite <- (str_app_nil_r (render_datum d)). rewrite proof_scan_step by (done || by left).
    simpl find_first. by destruct (fst d =?s c).
  - cbn [list_fmap fmap]. rewrite str_join_cons. change (";" ++ ?x)%string with (String ";" x).
    rewrite visits_cons by done. rewrite proof_scan_step by (done || right; by eexists).
    simpl find_first. destruct (fst d =?s c); [done|]. cbn [list_fmap fmap] in IH. by rewrite IH.
Qed.

(** ** Pinning *)

Lemma pi_loop_spec xs pi off cap :
  String.length pi = (2 * length xs)%nat -> (off + 2 * length xs < cap)%nat ->
  pi_loop xs pi = true <-> str_map tolower pi = hex_encode_from false xs off cap.
Proof.
  revert pi off. induction xs as [|b xs IH]; intros pi off Hl Hc; simpl in Hl.
  { destruct pi; [done|]. simpl in Hl. lia. }
  destruct pi as [|hi [|lo pi]]; simpl in Hl; [lia|lia|].
  cbn [pi_loop str_map hex_encode_from length] in *. rewrite (proj2 (Nat.ltb_lt _ _)) by lia.
  rewrite fmt_02x_two. cbn [String.append]. unfold nibbles_match.
  rewrite andb_true_iff, (IH pi (off + 2)%nat) by lia.
  rewrite andb_true_iff, !Ascii.eqb_eq. split.
  - intros [[<- <-] ->]. done.
  - intros H. injection H. intros H1 H2 H3. by rewrite H1, <- H2, <- H3.
Qed.

Definition x_coordinate (pub : bytes) : bytes := take 32 (drop 1 pub).

(** The public identity of a key: its X coordinate in lowercase hexadecimal. *)
Definition identity_of_key (pub : bytes) : string := hex_encode_lower (x_coordinate pub) 65.

Lemma pi_matches_spec pub pi :
  length pub = CRYPTO_IDENTITY_PUB_BYTES ->
  crypto_pi_matches pub pi = true <->
  byte_at pub 0 = 4 /\ String.length pi = 64%nat /\ str_map tolower pi = identity_of_key pub.
Proof.
  intros Hl. unfold crypto_pi_matches, identity_of_key, hex_encode_lower.
  assert (Hx : length (x_coordinate pub) = 32%nat).
  { unfold x_coordinate. rewrite length_take, length_drop, Hl. reflexivity. }
  fold (x_coordinate pub). destruct (_ || _)%bool eqn:E.
  - split; [done|]. intros (H1 & H2 & _). exfalso. apply orb_prop in E as [E|E]; bool_hyps.
    + done.
    + unfold strlen in E. lia.
  - bool_hyps. assert (Hs : String.length pi = 64%nat) by (unfold strlen in *; lia).
    rewrite (pi_loop_spec _ _ 0 65) by lia. tauto.
Qed.

Section proofs.
Context {K O : Type} {psa : Psa K O}.

Lemma verify_proof_fields cred expected_pi msg :
  crypto_verify_proof cred expected_pi msg = true <->
  exists pi pk sig_hex pub sig,
    proof_field cred "pi" 65 = Some pi /\ proof_field cred "pk" 131 = Some pk /\
    proof_field cred "sig" 129 = Some sig_hex /\
    hex_decode pk CRYPTO_IDENTITY_PUB_BYTES = Some pub /\ length pub = 65%nat /\
    hex_decode sig_hex CRYPTO_IDENTITY_SIG_BYTES = Some sig /\ length sig = 64%nat /\
    byte_at pub 0 = 4 /\
    String.length expected_pi = 64%nat /\ str_map tolower expected_pi = identity_of_key pub /\
    String.length pi = 64%nat /\ str_map tolower pi = identity_of_key pub /\
    crypto_verify_message pub msg sig = true.
Proof.
  unfold crypto_verify_proof. split.
  - intros H. destruct (proof_field cred "pi" 65) as [pi|]; [|done].
    destruct (proof_field cred "pk" 131) as [pk|]; [|done].
    destruct (proof_field cred "sig" 129) as [sig_hex|]; [|done].
    destruct (hex_decode pk _) as [pub|] eqn:Epub; [|done].
    destruct (hex_decode sig_hex _) as [sig|] eqn:Esig; [|done].
    destruct (_ || _)%bool eqn:El; [done|]. bool_hyps.
    apply Nat.eqb_eq in H0. apply Nat.eqb_eq in H1.
    destruct (crypto_pi_matches pub expected_pi) eqn:E1; [|done].
    destruct (crypto_pi_matches pub pi) eqn:E2; [|done]. simpl in H.
    apply pi_matches_spec in E1 as (H4 & Hl1 & Hm1); [|done].
    apply pi_matches_spec in E2 as (_ & Hl2 & Hm2); [|done].
    exists pi, pk, sig_hex, pub, sig. repeat split; done.
  - intros (pi & pk & sig_hex & pub & sig & -> & -> & -> & -> & Hlp & -> & Hls & H4 & Hl1 & Hm1 & Hl2 & Hm2 & Hv).
    rewrite Hlp, Hls. cbn.
    rewrite (proj2 (pi_matches_spec pub expected_pi Hlp)) by done.
    rewrite (proj2 (pi_matches_spec pub pi Hlp)) by done. done.
Qed.

(** A proof is accepted exactly when the presented text carries a public key
    and a signature of the right sizes, the key is the one the expected identity
    names (its X coordinate, in any letter case) and the one the text claims, and
    the signature verifies over the message under that very key. *)
Theorem verify_proof_pins_identity cred expected_pi msg :
  crypto_verify_proof cred expected_pi msg = true <->
  exists pi pk sig_hex pub sig,
    proof_field cred "pi" 65 = Some pi /\ proof_field cred "pk" 131 = Some pk /\
    proof_field cred "sig" 129 = Some sig_hex /\
    hex_decode pk CRYPTO_IDENTITY_PUB_BYTES = Some pub /\ length pub = 65%nat /\
    hex_decode sig_hex CRYPTO_IDENTITY_SIG_BYTES = Some sig /\ length sig = 64%nat /\
    byte_at pub 0 = 4 /\
    String.length expected_pi = 64%nat /\ str_map tolower expected_pi = identity_of_key pub /\
    String.length pi = 64%nat /\ str_map tolower pi = identity_of_key pub /\
    crypto_verify_message pub msg sig = true.
Proof. apply verify_proof_fields. Qed.
End proofs.

(** ** The laws of the signature primitive

    What the PSA specification promises of deterministic ECDSA on P-256: an exported
    public key is an uncompressed point, it can be imported for verification, and it
    verifies what the private key signed. *)
Class PsaLaws (K O : Type) (psa : Psa K O) := {
  psa_public_point : forall scalar key pub,
    psa_import_key (ecc_attr PSA_KEY_TYPE_ECC_KEY_PAIR PSA_KEY_USAGE_EXPORT) scalar = (PSA_SUCCESS, key) ->
    psa_export_public_key key CRYPTO_IDENTITY_PUB_BYTES = (PSA_SUCCESS, pub) ->
    length pub = CRYPTO_IDENTITY_PUB_BYTES -> byte_at pub 0 = 4 /\ Forall byte pub;
  psa_signature_bytes : forall key digest sig,
    psa_sign_hash key PSA_ALG_DETERMINISTIC_ECDSA digest CRYPTO_IDENTITY_SIG_BYTES = (PSA_SUCCESS, sig) ->
    Forall byte sig;
  psa_signature_verifies : forall scalar ek sk pub digest sig,
    psa_import_key (ecc_attr PSA_KEY_TYPE_ECC_KEY_PAIR PSA_KEY_USAGE_EXPORT) scalar = (PSA_SUCCESS, ek) ->
    psa_export_public_key ek CRYPTO_IDENTITY_PUB_BYTES = (PSA_SUCCESS, pub) ->
    psa_import_key (ecc_attr PSA_KEY_TYPE_ECC_KEY_PAIR PSA_KEY_USAGE_SIGN_HASH) scalar = (PSA_SUCCESS, sk) ->
    psa_sign_hash sk PSA_ALG_DETERMINISTIC_ECDSA digest CRYPTO_IDENTITY_SIG_BYTES = (PSA_SUCCESS, sig) ->
    exists vk, psa_import_key (ecc_attr PSA_KEY_TYPE_ECC_PUBLIC_KEY PSA_KEY_USAGE_VERIFY_HASH) pub
                 = (PSA_SUCCESS, vk) /\
      psa_verify_hash vk PSA_ALG_DETERMINISTIC_ECDSA digest sig = PSA_SUCCESS;
}.

Section own_proofs.
Context {K O : Type} {psa : Psa K O} {laws : PsaLaws K O psa}.

Lemma ok_success s : ok s = true -> s = PSA_SUCCESS.
Proof. by destruct s. Qed.

Lemma public_key_cases st pub :
  crypto_service_public_key st = Some pub ->
  exists key, psa_import_key (ecc_attr PSA_KEY_TYPE_ECC_KEY_PAIR PSA_KEY_USAGE_EXPORT)
                (cs_identity_scalar st) = (PSA_SUCCESS, key) /\
    psa_export_public_key key CRYPTO_IDENTITY_PUB_BYTES = (PSA_SUCCESS, pub) /\
    length pub = CRYPTO_IDENTITY_PUB_BYTES /\ ok psa_crypto_init = true.
Proof.
  unfold crypto_service_public_key. intros H.
  destruct (cs_have_identity_key st); [|done]. destruct (ok psa_crypto_init); [|done]. simpl in H.
  destruct (psa_import_key _ _) as [rv key] eqn:Ei. destruct (ok rv) eqn:Erv; [|done]. simpl in H.
  destruct (psa_export_public_key _ _) as [rv2 p] eqn:Ee.
  destruct (ok rv2 && _)%bool eqn:Eok; [|done]. apply andb_prop in Eok as [Hok Hl].
  apply ok_success in Erv, Hok. subst. injection H as <-. exists key. by apply Nat.eqb_eq in Hl.
Qed.

Lemma sign_cases st msg sig :
  crypto_service_sign st msg = Some sig ->
  exists digest key, sha256_digest msg = Some digest /\
    psa_import_key (ecc_attr PSA_KEY_TYPE_ECC_KEY_PAIR PSA_KEY_USAGE_SIGN_HASH)
      (cs_identity_scalar st) = (PSA_SUCCESS, key) /\
    psa_sign_hash key PSA_ALG_DETERMINISTIC_ECDSA digest CRYPTO_IDENTITY_SIG_BYTES = (PSA_SUCCESS, sig) /\
    length sig = CRYPTO_IDENTITY_SIG_BYTES.
Proof.
  unfold crypto_service_sign. intros H.
  destruct (cs_have_identity_key st); [|done]. destruct (ok psa_crypto_init); [|done]. simpl in H.
  destruct (sha256_digest msg) as [digest|] eqn:Ed; [|done].
  destruct (psa_import_key _ _) as [rv key] eqn:Ei. destruct (ok rv) eqn:Erv; [|done]. simpl in H.
  destruct (psa_sign_hash _ _ _ _) as [rv2 s] eqn:Es.
  destruct (ok rv2 && _)%bool eqn:Eok; [|done]. apply andb_prop in Eok as [Hok Hl].
  apply ok_success in Erv, Hok. subst. injection H as <-. exists digest, key. by apply Nat.eqb_eq in Hl.
Qed.

Lemma own_signature_verifies st pub msg sig :
  crypto_service_public_key st = Some pub -> crypto_service_sign st msg = Some sig ->
  crypto_verify_message pub msg sig = true.
Proof.
  intros (ek & Hek & Hex & Hlp & Hinit)%public_key_cases (digest & sk & Hd & Hsk & Hs & Hls)%sign_cases.
  destruct (psa_public_point _ _ _ Hek Hex Hlp) as [H4 _].
  destruct (psa_signature_verifies _ _ _ _ _ _ Hek Hex Hsk Hs) as (vk & Hvk & Hv).
  unfold crypto_verify_message. rewrite H4, Hinit, Hd, Hvk. cbn. by rewrite Hv.
Qed.

Lemma hex_text_has_no upper data off cap c :
  Forall byte data -> isxdigit c = false -> has_char c (hex_encode_from upper data off cap) = false.
Proof.
  intros Hb Hc. revert off. induction Hb as [|b data Hb _ IH]; intros off; [done|].
  cbn [hex_encode_from]. destruct (off + 2 <? cap)%nat; [|done].
  rewrite has_char_app, IH, orb_false_r.
  assert (Hx : str_forallb isxdigit (fmt_02x upper b) = true).
  { apply (all_bytes (fun b => str_forallb isxdigit (fmt_02x upper b))); [|done].
    destruct upper; vm_compute; reflexivity. }
  unfold has_char. induction (fmt_02x upper b) as [|a s IHs]; [done|]. simpl in *.
  apply andb_prop in Hx as [Ha Hx]. destruct (Ascii.eqb a c) eqn:E; [|by apply IHs].
  apply Ascii.eqb_eq in E. congruence.
Qed.

(** The proof text is a table of three records. *)
Definition proof_table (pub sig : bytes) : list (string * string) :=
  [("pi", identity_of_key pub); ("pk", hex_encode pub 131); ("sig", hex_encode sig 129)].

Lemma proof_text_table pub sig :
  length pub = 65%nat -> length sig = 64%nat ->
  proof_text pub sig = render_table (proof_table pub sig).
Proof.
  intros Hp Hs. unfold proof_text, proof_table, render_table, render_datum, identity_of_key, x_coordinate.
  unfold CRYPTO_IDENTITY_PUB_BYTES, CRYPTO_IDENTITY_SIG_BYTES. rewrite (take_ge pub 65), (take_ge sig 64) by lia.
  cbn [fmap list_fmap str_join fst snd]. by rewrite !str_app_assoc.
Qed.

Lemma proof_table_ok pub sig :
  Forall byte pub -> Forall byte sig -> Forall datum_ok (proof_table pub sig).
Proof.
  intros Hp Hs. unfold proof_table, identity_of_key, hex_encode, hex_encode_lower.
  repeat constructor; try discriminate; simpl; try (by apply hex_text_has_no).
  apply hex_text_has_no; [|done]. unfold x_coordinate. by apply Forall_take, Forall_drop.
Qed.

Lemma tolower_hex data off cap :
  Forall byte data -> str_map tolower (hex_encode_from false data off cap) = hex_encode_from false data off cap.
Proof.
  intros Hb. revert off. induction Hb as [|b data Hb _ IH]; intros off; [done|].
  cbn [hex_encode_from]. destruct (off + 2 <? cap)%nat; [|done].
  rewrite fmt_02x_two. cbn [String.append str_map]. rewrite IH.
  assert (Hx : (str_map tolower (fmt_02x false b) =?s fmt_02x false b) = true)
    by (apply (all_bytes (fun b => str_map tolower (fmt_02x false b) =?s fmt_02x false b));
        [vm_compute; reflexivity|done]).
  apply String.eqb_eq in Hx. rewrite fmt_02x_two in Hx. cbn [str_map] in Hx. by injection Hx as -> ->.
Qed.

(** C9: the gateway's answer to a challenge is a proof its own verifier accepts: with
    an identity key installed and the laws of the signature primitive, the reply to a
    challenge of 1 to 128 bytes, presented as a credential, proves the identity named
    by the key over exactly those challenge bytes. *)
Theorem identity_proof_verifies st pub sig challenge out :
  crypto_service_public_key st = Some pub -> crypto_service_sign st challenge = Some sig ->
  Forall byte challenge -> (0 < length challenge <= 128)%nat ->
  msg_payload out = hex_encode challenge 512 ->
  crypto_verify_proof (Some (msg_payload (crypto_identity_proof st out))) (identity_of_key pub)
    challenge = true.
Proof.
  intros Hpub Hsig Hch Hlen Hout. pose proof (own_signature_verifies _ _ _ _ Hpub Hsig) as Hver.
  pose proof Hpub as (ek & Hek & Hex & Hlp & _)%public_key_cases.
  pose proof Hsig as (digest & sk & _ & _ & Hs & Hls)%sign_cases.
  destruct (psa_public_point _ _ _ Hek Hex Hlp) as [H4 Hbp]. apply psa_signature_bytes in Hs as Hbs.
  unfold CRYPTO_IDENTITY_PUB_BYTES, CRYPTO_IDENTITY_SIG_BYTES in *.
  assert (Hlx : length (x_coordinate pub) = 32%nat)
    by (unfold x_coordinate; rewrite length_take, length_drop, Hlp; done).
  assert (Hlpi : String.length (identity_of_key pub) = 64%nat)
    by (unfold identity_of_key, hex_encode_lower; rewrite length_hex_encode by lia; lia).
  assert (Hlpk : String.length (hex_encode pub 131) = 130%nat)
    by (unfold hex_encode; rewrite length_hex_encode by lia; lia).
  assert (Hlsg : String.length (hex_encode sig 129) = 128%nat)
    by (unfold hex_encode; rewrite length_hex_encode by lia; lia).
  assert (Htext : msg_payload (crypto_identity_proof st out) = render_table (proof_table pub sig)).
  { unfold crypto_identity_proof. rewrite Hout.
    rewrite hes_strlcpy_small by (unfold hex_encode, HES_PAYLOAD_MAX; rewrite length_hex_encode; lia).
    unfold hex_encode at 1. rewrite hex_round_trip by (done || unfold CRYPTO_MAX_PAYLOAD; lia).
    destruct challenge as [|c0 cs]; [simpl in Hlen; lia|]. rewrite Hpub, Hsig.
    rewrite proof_text_table by lia.
    assert (Hlt : (String.length (render_table (proof_table pub sig)) < HES_PAYLOAD_MAX)%nat).
    { unfold render_table, proof_table, render_datum. cbn [fmap list_fmap str_join fst snd].
      rewrite !length_str_app. rewrite Hlpi, Hlpk, Hlsg. unfold HES_PAYLOAD_MAX. simpl. lia. }
    rewrite (proj2 (Nat.leb_gt _ _)) by lia. by apply hes_strlcpy_small. }
  rewrite Htext. apply verify_proof_pins_identity. unfold proof_field.
  rewrite !proof_scan_table by (by apply proof_table_ok).
  cbn [proof_table find_first fst snd String.eqb Ascii.eqb Bool.eqb].
  rewrite Hlpi, Hlpk, Hlsg. cbn [Nat.leb].
  exists (identity_of_key pub), (hex_encode pub 131), (hex_encode sig 129), pub, sig.
  assert (Hlow : str_map tolower (identity_of_key pub) = identity_of_key pub)
    by (apply tolower_hex; unfold x_coordinate; by apply Forall_take, Forall_drop).
  repeat split; try done; apply hex_round_trip; try done;
    unfold CRYPTO_IDENTITY_PUB_BYTES, CRYPTO_IDENTITY_SIG_BYTES; lia.
Qed.
End own_proofs.

(** *** A concrete primitive

    A stand-in that satisfies the laws: the "signature" is the key and the digest. *)
Module Toy.
Definition pad32 (b : bytes) : bytes := (fun x => x mod 256) <$> take 32 (b ++ replicate 32 0).

#[export] Instance psa : Psa bytes unit := {
  psa_crypto_init := PSA_SUCCESS;
  psa_import_key a k := (PSA_SUCCESS, match ka_type a with
                                      | PSA_KEY_TYPE_ECC_PUBLIC_KEY => take 32 (drop 1 k)
                                      | _ => pad32 k
                                      end);
  psa_cipher_decrypt_setup _ _ := (PSA_ERROR_NOT_SUPPORTED, tt);
  psa_cipher_set_iv o _ := (PSA_SUCCESS, o);
  psa_cipher_update o d _ := (PSA_SUCCESS, (o, d));
  psa_cipher_finish _ _ := (PSA_SUCCESS, []);
  psa_aead_decrypt _ _ _ _ d _ := (PSA_SUCCESS, d);
  psa_sha256 m := (PSA_SUCCESS, pad32 m);
  psa_sign_hash k _ d _ := (PSA_SUCCESS, pad32 k ++ pad32 d);
  psa_verify_hash k _ d s := if decide (s = pad32 k ++ pad32 d) then PSA_SUCCESS
                             else PSA_ERROR_INVALID_SIGNATURE;
  psa_export_public_key k _ := (PSA_SUCCESS, 4 :: pad32 k ++ replicate 32 0);
}.

Lemma pad32_length b : length (pad32 b) = 32%nat.
Proof.
  unfold pad32. rewrite length_fmap, length_take, length_app, length_replicate. lia.
Qed.

Lemma pad32_bytes b : Forall byte (pad32 b).
Proof.
  unfold pad32. apply Forall_fmap, Forall_true. intros x. unfold byte. simpl.
  apply Z.mod_pos_bound. lia.
Qed.

Lemma pad32_idemp b : pad32 (pad32 b) = pad32 b.
Proof.
  unfold pad32 at 1. rewrite take_app_le by (rewrite pad32_length; lia).
  rewrite take_ge by (rewrite pad32_length; lia).
  assert (H : forall l, Forall byte l -> (fun x => x mod 256) <$> l = l).
  { induction 1 as [|x l Hx Hl IH]; [done|]. cbn [fmap list_fmap]. f_equal; [|done].
    apply Z.mod_small. exact Hx. }
  apply H, pad32_bytes.
Qed.

#[export] Instance laws : PsaLaws bytes unit psa.
Proof.
  constructor.
  - intros scalar key pub Hi He _. injection He as <-. split; [done|].
    constructor; [unfold byte; lia|]. apply Forall_app. split; [apply pad32_bytes|].
    repeat (apply Forall_cons; split; [unfold byte; lia|]). constructor.
  - intros key digest sig Hs. injection Hs as <-. apply Forall_app. split; apply pad32_bytes.
  - intros scalar ek sk pub digest sig Hek Hex Hsk Hs.
    injection Hek as <-. injection Hex as <-. injection Hsk as <-. injection Hs as <-.
    exists (take 32 (pad32 (pad32 scalar) ++ replicate 32 0)). split; [done|].
    rewrite take_app_le by (rewrite pad32_length; lia).
    rewrite take_ge by (rewrite pad32_length; lia).
    change (psa_verify_hash ?k ?a ?d ?s) with
      (if decide (s = pad32 k ++ pad32 d) then PSA_SUCCESS else PSA_ERROR_INVALID_SIGNATURE).
    apply decide_True. by rewrite !pad32_idemp.
Qed.
End Toy.

Definition ex_crypto : crypto_service_state_t :=
  crypto_service_set_identity_key (replicate 32 7) crypto_service_init.

Definition ex_challenge : hes_clme_msg_t := hes_msg_set_payload_str hes_msg_init "00FF2A".

Lemma identity_proof_verifies_witness :
  crypto_verify_proof (psa := Toy.psa) (Some (msg_payload (crypto_identity_proof (psa := Toy.psa) ex_crypto ex_challenge)))
    (identity_of_key (4 :: replicate 32 7 ++ replicate 32 0)) [0; 255; 42] = true.
Proof.
  apply (identity_proof_verifies (laws := Toy.laws) ex_crypto
    (4 :: replicate 32 7 ++ replicate 32 0)
    (replicate 32 7 ++ Toy.pad32 (Toy.pad32 [0; 255; 42])) [0; 255; 42] ex_challenge).
  - vm_compute. reflexivity.
  - vm_compute. reflexivity.
  - repeat constructor; unfold byte; lia.
  - simpl. lia.
  - vm_compute. reflexivity.
Defined.

(** ** The signed text *)

Definition newline_free (s : string) : Prop := has_char (chr 10) s = false.

Lemma proof_message_frame p l :
  (String.length p < HES_PATH_MAX)%nat -> (String.length l < HES_PAYLOAD_MAX)%nat ->
  crypto_proof_message p l (HES_PATH_MAX + HES_PAYLOAD_MAX + 2) = (p ++ String (chr 10) l)%string.
Proof.
  intros H1 H2. unfold crypto_proof_message, HES_PATH_MAX, HES_PAYLOAD_MAX in *.
  cbn [Nat.add]. rewrite hes_strlcpy_small by lia.
  rewrite (proj2 (Nat.leb_gt _ _)) by lia. by rewrite hes_strlcpy_small by lia.
Qed.

(** The text a proof signs determines the path and the payload: for messages that
    fit their buffers and paths without a newline, a proof taken from one message
    signs no other. *)
Theorem proof_message_injective path payload path' payload' :
  fits HES_PATH_MAX path -> fits HES_PAYLOAD_MAX payload -> newline_free path ->
  fits HES_PATH_MAX path' -> fits HES_PAYLOAD_MAX payload' -> newline_free path' ->
  crypto_proof_message path payload (HES_PATH_MAX + HES_PAYLOAD_MAX + 2) =
  crypto_proof_message path' payload' (HES_PATH_MAX + HES_PAYLOAD_MAX + 2) ->
  path = path' /\ payload = payload'.
Proof.
  unfold fits, newline_free. intros Hp Hl Hn Hp' Hl' Hn'.
  rewrite !proof_message_frame by done. intros Heq.
  assert (Hpp : path = path').
  { rewrite <- (before_app_char (chr 10) path payload) by done. rewrite Heq. by apply before_app_char. }
  subst path'. split; [done|]. apply str_app_inj in Heq. by injection Heq.
Qed.

Lemma proof_message_injective_witness :
  "/lx/a" = "/lx/a" /\ "1" = "1".
Proof.
  apply (proof_message_injective "/lx/a" "1" "/lx/a" "1"); try reflexivity;
    unfold fits, HES_PATH_MAX, HES_PAYLOAD_MAX; simpl; lia.
Defined.

(** ** Decryption answers *)

Section answers.
Context {K O : Type} {psa : Psa K O}.

(** A cipher or mode the PSA library does not support is reported as invalid
    parameters: the status of a refused set-up is overwritten before it is looked at,
    so "error:unsupported-mode" is not what the caller is told. *)
Theorem unsupported_setup_is_masked (c : cipher_entry_t) payload data key o :
  ci_supported c = true -> hex_decode payload CRYPTO_MAX_PAYLOAD = Some data -> data <> [] ->
  ci_mode_cipher c = "cf" ->
  psa_crypto_init = PSA_SUCCESS -> import_key c = (PSA_SUCCESS, key) ->
  psa_cipher_decrypt_setup key PSA_ALG_CFB = (PSA_ERROR_NOT_SUPPORTED, o) ->
  decrypt_error c payload = inl "error:invalid-parameters".
Proof.
  intros Hs Hd Hne Hm Hi Hk Hset. unfold decrypt_error. rewrite Hs, Hd. cbn [negb].
  destruct data as [|b data]; [done|]. rewrite Hm. cbn [String.eqb Ascii.eqb Bool.eqb orb].
  unfold decrypt_block_or_feedback. rewrite Hm. cbn [length String.eqb Ascii.eqb Bool.eqb orb andb Nat.eqb].
  rewrite Hi. cbn [ok negb]. rewrite Hk. cbn [ok negb]. unfold cipher_steps, psa_cipher_algorithm.
  rewrite Hm. cbn [String.eqb Ascii.eqb Bool.eqb]. rewrite Hset. done.
Qed.
End answers.

Lemma unsupported_setup_is_masked_witness :
  decrypt_error (psa := Toy.psa) (mk_cipher 2 "ae" 16 "cf" crypto_key true 0 0) "00FF" =
  inl "error:invalid-parameters".
Proof.
  eapply (unsupported_setup_is_masked (psa := Toy.psa) (mk_cipher 2 "ae" 16 "cf" crypto_key true 0 0)
    "00FF" [0; 255]); [reflexivity|vm_compute; reflexivity|discriminate|reflexivity..].
Defined.
