(* ===== verification/Id.v ===== *)
(** * The identification service

    Models src/src/services/id/id.c: the identity document, the derivation of the
    identity key pair from the fingerprint, the three objects' answers, and the
    custody of the private key. The key derivation operation of the PSA Crypto API
    is the class [PsaKdf]; [json_load_file] is the document reader. *)

From S2P Require Import Prelude CLib HesCommon Json Crypto.

Definition ID_HEX_CHARS : nat := 64.
Definition ID_IDENTITY_KEY_BYTES : nat := 32.
Definition ID_MAX_BINDING_MAPS : nat := 8.
Definition ID_KEY_TRIES : nat := 4.
Definition ID_VERSION_MAX : nat := 16.
Definition ID_SYSNUM_MAX : nat := 16.
Definition ID_DESC_MAX : nat := 64.
Definition ID_CLASS_MAX : nat := 8.

(** ** Data *)

Record id_binding_map_t := mk_id_bm {
  ib_module_type : string;
  ib_module_ref_index : Z;
  ib_net_ref_index : Z;
  ib_address : string;
}.

Record id_inventory_t := mk_inventory {
  iv_hans_number : Z;
  iv_wans_number : Z;
  iv_service_modules_number : Z;
  iv_binding_maps : list id_binding_map_t;
}.

Definition inventory_zero : id_inventory_t := mk_inventory 0 0 0 [].

(** [id_inventory]: the host's answer, asked for anew on every read; [None] is the
    missing hook. *)
Record id_service_state_t := mk_id {
  id_refs : Z;
  id_unique_public_id : string;
  id_digital_fingerprint : string;
  id_hes_clme_ver : string;
  id_hes_system_number : string;
  id_public_description : string;
  id_gateway_class : string;
  id_vulnerability : Z;
  id_adverse_impact : Z;
  id_likelihood : Z;
  id_risk_level : Z;
  id_identity_scalar : bytes;
  id_have_identity_key : bool;
}.

(** ** Reading the document *)

Definition take_hex256 (value : option string) : option string :=
  match value with
  | None => None
  | Some v =>
      if negb (String.length v =? ID_HEX_CHARS)%nat then None
      else if str_forallb isxdigit v then Some (str_map tolower v) else None
  end.

Definition take_optional (gw : json) (key : string) (cap : nat) (fallback : string) : string :=
  match json_object_get (Some gw) key with
  | Some (JString s) => hes_strlcpy cap s
  | _ => hes_strlcpy cap fallback
  end.

Definition take_optional_int (gw : json) (key : string) : Z :=
  match json_object_get (Some gw) key with
  | Some (JInteger z) => if 0 <? z then z else 0
  | _ => 0
  end.

(** ** Bytes *)

Fixpoint hex_to_bytes (hex : string) (n : nat) : option bytes :=
  match n, hex with
  | O, _ => Some []
  | S n', String a (String b r) =>
      let* hi := hex_digit a in
      let* lo := hex_digit b in
      let* rest := hex_to_bytes r n' in
      Some (Z.lor (Z.shiftl hi 4) lo :: rest)
  | S _, _ => None
  end.

Fixpoint bytes_to_hex (bs : bytes) : string :=
  match bs with
  | [] => EmptyString
  | b :: bs' => (fmt_02x false b ++ bytes_to_hex bs')%string
  end.

(** The order of the P-256 group, big-endian. *)
Definition P256_ORDER : bytes :=
  [255; 255; 255; 255; 0; 0; 0; 0; 255; 255; 255; 255; 255; 255; 255; 255;
   188; 230; 250; 173; 167; 23; 158; 132; 243; 185; 202; 194; 252; 99; 37; 81].

(** The subtraction loop, from the least significant byte. *)
Fixpoint negate_loop (order d : bytes) (borrow : Z) : bytes :=
  match order, d with
  | o :: order', x :: d' =>
      let t := o - x - borrow in
      if t <? 0 then uint8 (t + 256) :: negate_loop order' d' 1
      else uint8 t :: negate_loop order' d' 0
  | _, _ => []
  end.

Definition scalar_negate (d : bytes) : bytes := rev (negate_loop (rev P256_ORDER) (rev d) 0).

(** ** Deriving the key pair *)

(** A key-derivation operation [D]: inputs in order, then the output bytes. *)
Class PsaKdf (K D : Type) := {
  psa_key_derivation_setup : psa_algorithm_t -> psa_status_t * D;
  psa_key_derivation_input_salt : D -> bytes -> psa_status_t * D;
  psa_key_derivation_input_key : D -> K -> psa_status_t * D;
  psa_key_derivation_input_info : D -> bytes -> psa_status_t * D;
  psa_key_derivation_output_bytes : D -> nat -> psa_status_t * bytes;
}.

Section derive.
Context {K Op D : Type} {psa : Psa K Op} {kdf : PsaKdf K D}.

Definition ID_KEY_SALT : bytes := string_bytes "openhes-id-v1".

Definition hkdf_sha256 (ikm : bytes) (info : string) (out_len : nat) : option bytes :=
  if negb (ok psa_crypto_init) then None
  else
    let '(st, key) := psa_import_key (mk_attr PSA_KEY_TYPE_DERIVE 0 PSA_KEY_USAGE_DERIVE PSA_ALG_HKDF) ikm in
    if negb (ok st) then None
    else
      let '(st, op) := psa_key_derivation_setup PSA_ALG_HKDF in
      let '(st, op) := if ok st then psa_key_derivation_input_salt op ID_KEY_SALT else (st, op) in
      let '(st, op) := if ok st then psa_key_derivation_input_key op key else (st, op) in
      let '(st, op) := if ok st then psa_key_derivation_input_info op (string_bytes info) else (st, op) in
      let '(st, out) := if ok st then psa_key_derivation_output_bytes op out_len else (st, []) in
      if ok st then Some out else None.

Definition key_pair_attr : psa_key_attributes_t :=
  mk_attr PSA_KEY_TYPE_ECC_KEY_PAIR 256 PSA_KEY_USAGE_EXPORT_SIGN_HASH PSA_ALG_DETERMINISTIC_ECDSA.

(** The public point of a usable scalar. *)
Definition public_from_scalar (candidate : bytes) : option bytes :=
  let '(st, key) := psa_import_key key_pair_attr candidate in
  if negb (ok st) then None
  else
    let '(st, pub) := psa_export_public_key key 65 in
    if negb (ok st) then None
    else if (negb (length pub =? 65)%nat || negb (byte_at pub 0 =? 4))%bool then None
    else Some pub.

Definition key_info (attempt : nat) : string :=
  ("openhes-id-p256-v1/" ++ fmt_d (Z.of_nat attempt))%string.

(** The attempts left; a failing HKDF ends the loop. *)
Fixpoint derive_attempts (fp : bytes) (attempt left : nat) : option (bytes * bytes) :=
  match left with
  | O => None
  | S left' =>
      match hkdf_sha256 fp (key_info attempt) ID_IDENTITY_KEY_BYTES with
      | None => None
      | Some candidate =>
          match public_from_scalar candidate with
          | Some pub => Some (candidate, pub)
          | None => derive_attempts fp (S attempt) left'
          end
      end
  end.

Definition y_is_odd (pub : bytes) : bool := Z.land (byte_at pub 64) 1 =? 1.

(** The scalar and the public identity. *)
Definition derive_identity_key (fingerprint : string) : option (bytes * string) :=
  if negb (ok psa_crypto_init) then None
  else
    let* fp := hex_to_bytes fingerprint ID_IDENTITY_KEY_BYTES in
    let* (scalar, pub) := derive_attempts fp 0 ID_KEY_TRIES in
    if y_is_odd pub then
      let negated := scalar_negate scalar in
      let* pub := public_from_scalar negated in
      if y_is_odd pub then None
      else Some (negated, bytes_to_hex (take ID_IDENTITY_KEY_BYTES (drop 1 pub)))
    else Some (scalar, bytes_to_hex (take ID_IDENTITY_KEY_BYTES (drop 1 pub))).

Definition document_pi_matches (pi : option string) (derived : string) : bool :=
  match pi with
  | None => true
  | Some _ =>
      match take_hex256 pi with
      | None => false
      | Some given => given =?s derived
      end
  end.

Definition string_member (gw : json) (key : string) : option string :=
  match json_object_get (Some gw) key with Some (JString s) => Some s | _ => None end.

Variable json_load_file : string -> option json.

Definition load_identity (path : string) : option id_service_state_t :=
  let* root := json_load_file path in
  match json_object_get (Some root) "gatewayIdentity" with
  | Some (JObject ms) =>
      let gw := JObject ms in
      let* fp := take_hex256 (string_member gw "fp") in
      let* (scalar, pi) := derive_identity_key fp in
      if negb (document_pi_matches (string_member gw "pi") pi) then None
      else
        Some (mk_id 0 pi fp
                (take_optional gw "vr" ID_VERSION_MAX "1.0.0")
                (take_optional gw "hs" ID_SYSNUM_MAX "1")
                (take_optional gw "pd" ID_DESC_MAX "")
                (take_optional gw "ch" ID_CLASS_MAX "sh")
                (take_optional_int gw "vl") (take_optional_int gw "il")
                (take_optional_int gw "ll") (take_optional_int gw "rl")
                scalar true)
  | _ => None
  end.

(** [None] is the return value -1: the service refuses to start. *)
Definition id_service_create (identity_path : option string) (max_out : nat)
  : option id_service_state_t :=
  match identity_path with
  | None | Some EmptyString => None
  | Some path =>
      if (max_out <? 3)%nat then None
      else
        let* st := load_identity path in
        Some (mk_id 3 (id_unique_public_id st) (id_digital_fingerprint st) (id_hes_clme_ver st)
                (id_hes_system_number st) (id_public_description st) (id_gateway_class st)
                (id_vulnerability st) (id_adverse_impact st) (id_likelihood st) (id_risk_level st)
                (id_identity_scalar st) (id_have_identity_key st))
  end.
End derive.

(** ** The answers *)

Definition id_config_on_get (out : hes_clme_msg_t) : hes_clme_msg_t :=
  hes_msg_set_payload_str out "rq=ma;si=ye".

Definition status_text (st : id_service_state_t) (inv : id_inventory_t) : string :=
  ("pi=" ++ id_unique_public_id st ++ ";vr=" ++ id_hes_clme_ver st ++
   ";hs=" ++ id_hes_system_number st ++ ";ch=" ++ id_gateway_class st ++
   ";pd=" ++ id_public_description st ++
   ";nh=" ++ fmt_d (iv_hans_number inv) ++ ";nw=" ++ fmt_d (iv_wans_number inv) ++
   ";ns=" ++ fmt_d (iv_service_modules_number inv) ++
   ";vl=" ++ fmt_d (id_vulnerability st) ++ ";il=" ++ fmt_d (id_adverse_impact st) ++
   ";ll=" ++ fmt_d (id_likelihood st) ++ ";rl=" ++ fmt_d (id_risk_level st))%string.

Definition id_status_on_get (st : id_service_state_t) (inventory : option id_inventory_t)
  (out : hes_clme_msg_t) : hes_clme_msg_t :=
  hes_msg_set_payload_str out
    (str_take (HES_PAYLOAD_MAX - 1) (status_text st (default inventory_zero inventory))).

Definition map_row_text (i : nat) (m : id_binding_map_t) : string :=
  ((if (i =? 0)%nat then "" else ";") ++ "mt=" ++ ib_module_type m ++
   ",mi=" ++ fmt_d (ib_module_ref_index m) ++ ",ni=" ++ fmt_d (ib_net_ref_index m) ++
   ",ad=" ++ ib_address m)%string.

(** A row that does not fit ends the list, cut at the end of the buffer. *)
Fixpoint discovery_rows (i : nat) (ms : list id_binding_map_t) (buf : string) : string :=
  match ms with
  | [] => buf
  | m :: ms' =>
      let room := (HES_PAYLOAD_MAX - String.length buf)%nat in
      let t := map_row_text i m in
      if (room <=? String.length t)%nat then (buf ++ str_take (room - 1) t)%string
      else discovery_rows (S i) ms' (buf ++ t)
  end.

Definition id_discovery_on_get (inventory : option id_inventory_t) (out : hes_clme_msg_t)
  : hes_clme_msg_t :=
  hes_msg_set_payload_str out
    (discovery_rows 0 (take ID_MAX_BINDING_MAPS
       (iv_binding_maps (default inventory_zero inventory))) "").

Definition id_on_put (st : id_service_state_t) (inm : hes_clme_msg_t) : id_service_state_t := st.

(** ** Custody of the private key *)

Definition id_with_key (st : id_service_state_t) (refs : Z) (scalar : bytes) (have : bool)
  : id_service_state_t :=
  mk_id refs (id_unique_public_id st) (id_digital_fingerprint st) (id_hes_clme_ver st)
    (id_hes_system_number st) (id_public_description st) (id_gateway_class st)
    (id_vulnerability st) (id_adverse_impact st) (id_likelihood st) (id_risk_level st) scalar have.

(** The key and the state without it, or [None] (the return value -1). *)
Definition id_service_export_identity_key (st : id_service_state_t)
  : option (bytes * id_service_state_t) :=
  if negb (id_have_identity_key st) then None
  else Some (id_identity_scalar st,
             id_with_key st (id_refs st) (replicate ID_IDENTITY_KEY_BYTES 0) false).

(** Releasing one of the three objects; the last one wipes and frees the state. *)
Definition id_destroy (st : id_service_state_t) : option id_service_state_t :=
  let refs := id_refs st - 1 in
  if 0 <? refs then Some (id_with_key st refs (id_identity_scalar st) (id_have_identity_key st))
  else None.

(** The three objects; [inventory] is the host's hook. *)
Definition id_service_objects {G} (get : G -> id_service_state_t)
  (put : id_service_state_t -> G -> G) (inventory : G -> option id_inventory_t)
  : list (service_object_t G) :=
  let refuse := fun g inm => put (id_on_put (get g) inm) g in
  [mk_so "/lx/ob/so/id" (Some (fun g out => (g, id_config_on_get out))) (Some refuse) None;
   mk_so "/lx/ob/so/id/co/st/cv"
     (Some (fun g out => (g, id_status_on_get (get g) (inventory g) out))) (Some refuse) None;
   mk_so "/lx/ac/so/id/dc/bm/cv"
     (Some (fun g out => (g, id_discovery_on_get (inventory g) out))) (Some refuse) None].
