(* ===== verification/IdFacts.v ===== *)
(** * The identification service: properties

    The arithmetic of the canonical key, the identity a started service presents, and
    the custody of the secrets. *)

From S2P Require Import Prelude CLib HesCommon Json Bm BmLoad Crypto CryptoFacts Id.

(** ** Numbers as byte strings *)

Fixpoint le_value (bs : bytes) : Z :=
  match bs with [] => 0 | b :: bs' => b + 256 * le_value bs' end.

(** The number a big-endian byte string stands for. *)
Definition be_value (bs : bytes) : Z := le_value (rev bs).

Lemma le_value_bound bs : Forall byte bs -> 0 <= le_value bs < 256 ^ Z.of_nat (length bs).
Proof.
  induction 1 as [|b bs Hb _ IH]; [simpl; lia|]. cbn [le_value length].
  rewrite Nat2Z.inj_succ, Z.pow_succ_r by lia. unfold byte in Hb. lia.
Qed.

Lemma negate_loop_spec o d borrow :
  Forall byte o -> Forall byte d -> length o = length d -> 0 <= borrow <= 1 ->
  exists c, 0 <= c <= 1 /\
    le_value (negate_loop o d borrow) + le_value d + borrow =
      le_value o + c * 256 ^ Z.of_nat (length o) /\
    Forall byte (negate_loop o d borrow) /\ length (negate_loop o d borrow) = length o.
Proof.
  intros Ho. revert d borrow. induction Ho as [|x o Hx Ho IH]; intros [|y d] borrow Hd Hl Hb; try done.
  { exists borrow. simpl. split; [done|]. split; [lia|]. split; [constructor|done]. }
  inversion Hd as [|? ? Hy Hd']; subst. injection Hl as Hl. unfold byte in Hx, Hy.
  cbn [negate_loop le_value length]. rewrite Nat2Z.inj_succ, Z.pow_succ_r by lia.
  destruct (x - y - borrow <? 0) eqn:E; bool_hyps.
  - destruct (IH d 1 Hd' Hl ltac:(lia)) as (c & Hc & Hv & Hbs & Hlen).
    exists c. cbn [le_value length]. rewrite wrap_u_small by lia. split; [done|]. split; [lia|].
    split; [constructor; [unfold byte; lia|done]|]. by rewrite Hlen.
  - destruct (IH d 0 Hd' Hl ltac:(lia)) as (c & Hc & Hv & Hbs & Hlen).
    exists c. cbn [le_value length]. rewrite wrap_u_small by lia. split; [done|]. split; [lia|].
    split; [constructor; [unfold byte; lia|done]|]. by rewrite Hlen.
Qed.

Lemma order_bytes : Forall byte P256_ORDER.
Proof. repeat (apply Forall_cons; split; [unfold byte; lia|]). constructor. Qed.

(** Negating a scalar is subtraction from the group order: for a 32-byte scalar
    the result is the 32 bytes of (n - d) mod 2^256, which is n - d itself for every
    scalar up to the order. *)
Theorem scalar_negate_subtracts d :
  Forall byte d -> length d = 32%nat ->
  Forall byte (scalar_negate d) /\ length (scalar_negate d) = 32%nat /\
  be_value (scalar_negate d) = (be_value P256_ORDER - be_value d) mod 2 ^ 256 /\
  (be_value d <= be_value P256_ORDER ->
   be_value (scalar_negate d) = be_value P256_ORDER - be_value d).
Proof.
  intros Hd Hl. unfold scalar_negate, be_value. rewrite !rev_involutive.
  assert (Hrev : forall l, Forall byte l -> Forall byte (rev l)).
  { intros l Hlb. apply Forall_forall. intros x Hx. rewrite Forall_forall in Hlb. apply Hlb.
    apply list_elem_of_In in Hx. apply list_elem_of_In. by apply in_rev. }
  assert (Hlen : length (rev P256_ORDER) = length (rev d)) by (rewrite !length_rev, Hl; done).
  destruct (negate_loop_spec (rev P256_ORDER) (rev d) 0 (Hrev _ order_bytes) (Hrev _ Hd) Hlen ltac:(lia))
    as (c & Hc & Hv & Hb & Hn).
  split; [by apply Hrev|]. rewrite length_rev, Hn. split; [by rewrite length_rev|].
  assert (Hw : 256 ^ Z.of_nat (length (rev P256_ORDER)) = 2 ^ 256) by reflexivity.
  rewrite Hw in Hv. pose proof (le_value_bound _ Hb) as Hbound. rewrite Hn, Hw in Hbound.
  assert (Heq : le_value (negate_loop (rev P256_ORDER) (rev d) 0) =
    le_value (rev P256_ORDER) - le_value (rev d) + c * 2 ^ 256) by lia.
  split.
  - rewrite Heq. rewrite <- (Z.mod_small (le_value (negate_loop _ _ _)) (2 ^ 256)) in Heq by done.
    rewrite <- (Z.mod_small (le_value (rev P256_ORDER) - le_value (rev d) + c * 2 ^ 256) (2 ^ 256)) by lia.
    by rewrite Z_mod_plus_full.
  - intros Hle. assert (le_value (rev P256_ORDER) < 2 ^ 256) by (vm_compute; reflexivity).
    pose proof (le_value_bound _ (Hrev _ Hd)) as Hdb. lia.
Qed.

Lemma scalar_negate_subtracts_witness :
  be_value (scalar_negate (replicate 31 0 ++ [1])) = be_value P256_ORDER - 1.
Proof.
  apply (scalar_negate_subtracts (replicate 31 0 ++ [1])); [|reflexivity|vm_compute; discriminate].
  repeat (apply Forall_cons; split; [unfold byte; lia|]). constructor.
Defined.

(** ** Hexadecimal text *)

Lemma hex_to_bytes_lower b : byte b ->
  (let* hi := hex_digit (hex_char false (Z.shiftr b 4)) in
   let* lo := hex_digit (hex_char false (Z.land b 15)) in Some (Z.lor (Z.shiftl hi 4) lo)) = Some b.
Proof.
  intros Hb.
  pose (P := fun b => match (let* hi := hex_digit (hex_char false (Z.shiftr b 4)) in
   let* lo := hex_digit (hex_char false (Z.land b 15)) in Some (Z.lor (Z.shiftl hi 4) lo))
   with Some v => v =? b | None => false end).
  assert (HP : P b = true) by (apply all_bytes; [vm_compute; reflexivity|done]). unfold P in HP.
  destruct (hex_digit _) as [hi|]; [|done]. destruct (hex_digit _) as [lo|]; [|done].
  apply Z.eqb_eq in HP. by rewrite HP.
Qed.

Lemma bytes_to_hex_encode bs off cap :
  (off + 2 * length bs < cap)%nat -> bytes_to_hex bs = hex_encode_from false bs off cap.
Proof.
  revert off. induction bs as [|b bs IH]; intros off H; [done|]. cbn [length] in H.
  cbn [bytes_to_hex hex_encode_from]. rewrite (proj2 (Nat.ltb_lt _ _)) by lia. by rewrite <- IH by lia.
Qed.

(** The identity texts are faithful: bytes written in hexadecimal are read back,
    and a document value of 64 hexadecimal digits denotes the same bytes as its
    normalised form, whatever the case it was written in. *)
Theorem identity_text_round_trip :
  (forall bs, Forall byte bs -> hex_to_bytes (bytes_to_hex bs) (length bs) = Some bs) /\
  (forall v w, take_hex256 (Some v) = Some w ->
     String.length w = 64%nat /\ str_map tolower w = w /\
     hex_to_bytes w 32 = hex_to_bytes v 32 /\ hex_to_bytes v 32 <> None).
Proof.
  split.
  - induction 1 as [|b bs Hb _ IH]; [done|]. cbn [bytes_to_hex length].
    rewrite fmt_02x_two. cbn [String.append hex_to_bytes]. pose proof (hex_to_bytes_lower b Hb) as H.
    destruct (hex_digit (hex_char false (Z.shiftr b 4))) as [hi|]; [|done].
    destruct (hex_digit (hex_char false (Z.land b 15))) as [lo|]; [|done].
    injection H as ->. by rewrite IH.
  - intros v w. unfold take_hex256. destruct (String.length v =? ID_HEX_CHARS)%nat eqn:El; [|done].
    apply Nat.eqb_eq in El. destruct (str_forallb isxdigit v) eqn:Ex; [|done]. cbn [negb].
    intros [= <-].
    assert (Hlen : forall s, String.length (str_map tolower s) = String.length s)
      by (induction s as [|c s IH]; simpl; [done|by rewrite IH]).
    assert (Hc : forall c, tolower (tolower c) = tolower c /\
      (isxdigit c = true -> hex_digit (tolower c) = hex_digit c /\ hex_digit c <> None)).
    { intros c. destruct c as [[] [] [] [] [] [] [] []]; vm_compute; split; (done || intros; split; done). }
    split; [by rewrite Hlen, El|]. split.
    { clear -Hc. assert (Hcc : forall c, tolower (tolower c) = tolower c) by (intros; apply Hc).
      induction v as [|c v IH]; simpl; [done|]. by rewrite IH, Hcc. }
    unfold ID_HEX_CHARS in El.
    assert (Hn : forall n s, String.length s = (2 * n)%nat -> str_forallb isxdigit s = true ->
      hex_to_bytes (str_map tolower s) n = hex_to_bytes s n /\ hex_to_bytes s n <> None).
    { induction n as [|n IH]; intros s Hs Hx; [by destruct s|].
      destruct s as [|a [|b s]]; simpl in Hs; [lia|lia|]. simpl in Hx.
      apply andb_prop in Hx as [Ha Hx]. apply andb_prop in Hx as [Hb Hx].
      destruct (Hc a) as [_ Hda]. destruct (Hc b) as [_ Hdb].
      destruct (Hda Ha) as [H1 H2]. destruct (Hdb Hb) as [H3 H4].
      cbn [str_map hex_to_bytes]. rewrite H1, H3. destruct (IH s ltac:(lia) Hx) as [-> Hne].
      destruct (hex_digit a); [|done]. destruct (hex_digit b); [|done].
      destruct (hex_to_bytes s n); [|done]. done. }
    apply Hn; [lia|done].
Qed.

Lemma tolower_twice s : str_map tolower (str_map tolower s) = str_map tolower s.
Proof.
  assert (Hc : forall c, tolower (tolower c) = tolower c) by (intros [[] [] [] [] [] [] [] []]; reflexivity).
  induction s as [|c s IH]; [done|]. cbn [str_map]. by rewrite IH, Hc.
Qed.

Lemma length_str_map f s : String.length (str_map f s) = String.length s.
Proof. induction s as [|c s IH]; [done|]. cbn. by rewrite IH. Qed.

Lemma hex_digit_lower c v : hex_digit c = Some v -> 0 <= v < 16 /\ hex_char false v = tolower c.
Proof.
  assert (H : match hex_digit c with
              | Some v => (0 <=? v) && (v <? 16) && Ascii.eqb (hex_char false v) (tolower c)
              | None => true end = true) by (destruct c as [[] [] [] [] [] [] [] []]; vm_compute; reflexivity).
  intros E. rewrite E in H. apply andb_prop in H as [H Hc]. apply Ascii.eqb_eq in Hc. bool_hyps. by split.
Qed.

Lemma two_nibbles hi lo : 0 <= hi < 16 -> 0 <= lo < 16 ->
  let b := Z.lor (Z.shiftl hi 4) lo in byte b /\ Z.shiftr b 4 = hi /\ Z.land b 15 = lo.
Proof.
  intros Hh Hl. assert (H : forallb (fun h => forallb (fun l => let b := Z.lor (Z.shiftl h 4) l in
    (0 <=? b) && (b <? 256) && (Z.shiftr b 4 =? h) && (Z.land b 15 =? l)) (Z.of_nat <$> seq 0 16))
    (Z.of_nat <$> seq 0 16) = true) by (vm_compute; reflexivity).
  rewrite forallb_forall in H. assert (Hin : forall z, 0 <= z < 16 -> In z (Z.of_nat <$> seq 0 16)).
  { intros z Hz. apply list_elem_of_In, list_elem_of_fmap. exists (Z.to_nat z). split; [lia|]. apply elem_of_seq. lia. }
  specialize (H hi (Hin hi Hh)). rewrite forallb_forall in H. specialize (H lo (Hin lo Hl)).
  cbv zeta in *. bool_hyps. unfold byte. by split_and!.
Qed.

(** The bytes a text of hexadecimal digits was read as are written as that text in lowercase. *)
Lemma hex_to_bytes_back n s bs : hex_to_bytes s n = Some bs -> String.length s = (2 * n)%nat ->
  Forall byte bs /\ length bs = n /\ bytes_to_hex bs = str_map tolower s.
Proof.
  revert s bs. induction n as [|n IH]; intros s bs; [destruct s; [|done]; by intros [= <-]|].
  destruct s as [|a [|b s]]; [done|done|]. cbn [hex_to_bytes str_map String.length].
  destruct (hex_digit a) as [hi|] eqn:Ea; [|done]. destruct (hex_digit b) as [lo|] eqn:Eb; [|done]. cbn.
  destruct (hex_to_bytes s n) as [bs'|] eqn:Es; [|done]. intros [= <-] Hlen.
  destruct (IH s bs' Es ltac:(lia)) as (Hb & Hl & Ht). apply hex_digit_lower in Ea as [Hhi <-], Eb as [Hlo <-].
  destruct (two_nibbles hi lo Hhi Hlo) as (Hby & H1 & H2). split; [by constructor|]. split; [cbn; lia|].
  cbn [bytes_to_hex]. by rewrite fmt_02x_two, H1, H2, Ht.
Qed.

(** ** The identity a started service presents *)
Section identity.
Context {K Op D : Type} {psa : Psa K Op} {kdf : PsaKdf K D}.
Variable json_load_file : string -> option json.

(** What HKDF yields for the input key [ikm], call by call: the key is imported for derivation,
    and salt, key and info are put in before the output is taken. *)
Definition hkdf_yields (ikm : bytes) (salt info : string) (len : nat) (out : bytes) : Prop :=
  exists key op1 op2 op3 op4,
    psa_import_key (mk_attr PSA_KEY_TYPE_DERIVE 0 PSA_KEY_USAGE_DERIVE PSA_ALG_HKDF) ikm = (PSA_SUCCESS, key) /\
    psa_key_derivation_setup PSA_ALG_HKDF = (PSA_SUCCESS, op1) /\
    psa_key_derivation_input_salt op1 (string_bytes salt) = (PSA_SUCCESS, op2) /\
    psa_key_derivation_input_key op2 key = (PSA_SUCCESS, op3) /\
    psa_key_derivation_input_info op3 (string_bytes info) = (PSA_SUCCESS, op4) /\
    psa_key_derivation_output_bytes op4 len = (PSA_SUCCESS, out).

Lemma hkdf_sha256_yields ikm info len out :
  hkdf_sha256 ikm info len = Some out -> hkdf_yields ikm "openhes-id-v1" info len out.
Proof.
  unfold hkdf_sha256, hkdf_yields. destruct (ok psa_crypto_init); [|done]. cbn [negb].
  destruct (psa_import_key _ ikm) as [[] key]; try done. cbn [ok negb].
  destruct (psa_key_derivation_setup _) as [[] op1]; try done. cbn [ok].
  destruct (psa_key_derivation_input_salt _ _) as [[] op2] eqn:E2; try done. cbn [ok].
  destruct (psa_key_derivation_input_key _ _) as [[] op3] eqn:E3; try done. cbn [ok].
  destruct (psa_key_derivation_input_info _ _) as [[] op4] eqn:E4; try done. cbn [ok].
  destruct (psa_key_derivation_output_bytes _ _) as [[] out'] eqn:E5; try done. cbn [ok]. intros [= ->].
  by exists key, op1, op2, op3, op4.
Qed.

(** The n-th candidate for the scalar that a fingerprint yields. *)
Definition candidate (fp : bytes) (n : nat) (out : bytes) : Prop :=
  hkdf_yields fp "openhes-id-v1" ("openhes-id-p256-v1/" ++ fmt_d (Z.of_nat n)) 32 out.

(** The first candidate that is a private key of the curve, among the first four. *)
Definition derived_from (fp : bytes) (scalar pub : bytes) : Prop :=
  exists n, (n < 4)%nat /\ candidate fp n scalar /\ public_from_scalar scalar = Some pub /\
    forall i, (i < n)%nat -> exists c, candidate fp i c /\ public_from_scalar c = None.

Lemma derive_attempts_derived fp attempt left scalar pub :
  derive_attempts fp attempt left = Some (scalar, pub) ->
  exists n, (attempt <= n < attempt + left)%nat /\ candidate fp n scalar /\ public_from_scalar scalar = Some pub /\
    forall i, (attempt <= i < n)%nat -> exists c, candidate fp i c /\ public_from_scalar c = None.
Proof.
  revert attempt. induction left as [|left IH]; intros attempt H; cbn [derive_attempts] in H; [done|].
  destruct (hkdf_sha256 _ _ _) as [c|] eqn:Eh; [|done]. apply hkdf_sha256_yields in Eh.
  destruct (public_from_scalar c) eqn:E.
  - simplify_eq. exists attempt. split_and!; [lia|lia|exact Eh|done|]. intros i Hi. lia.
  - apply IH in H as (n & Hn & Hc & Hp & Hb). exists n. split_and!; [lia|lia|done|done|]. intros i Hi.
    destruct (decide (i = attempt)) as [->|Hne]; [exists c; by split|]. apply Hb. lia.
Qed.

(** The identity of a fingerprint: the first usable candidate, or its negation when the point
    has an odd Y, and the X coordinate of the key's point in lowercase hexadecimal. *)
Lemma derive_identity_key_spec fingerprint scalar pi :
  derive_identity_key fingerprint = Some (scalar, pi) ->
  exists fp, hex_to_bytes fingerprint 32 = Some fp /\
  exists first pub0, derived_from fp first pub0 /\ scalar = (if y_is_odd pub0 then scalar_negate first else first) /\
  exists pub, public_from_scalar scalar = Some pub /\ y_is_odd pub = false /\
    pi = bytes_to_hex (x_coordinate pub) /\ length pub = 65%nat.
Proof.
  assert (Hlen : forall s p, public_from_scalar s = Some p -> length p = 65%nat).
  { intros s p. unfold public_from_scalar. destruct (psa_import_key _ _) as [st key].
    destruct (ok st); [|done]. simpl. destruct (psa_export_public_key _ _) as [st2 q].
    destruct (ok st2); [|done]. simpl. destruct (_ || _)%bool eqn:E; [done|].
    intros H. simplify_eq. apply orb_false_elim in E as [E _]. apply negb_false_iff in E.
    by apply Nat.eqb_eq in E. }
  unfold derive_identity_key. destruct (ok psa_crypto_init); [|done]. cbn [negb].
  destruct (hex_to_bytes fingerprint _) as [fp|]; [|done]. cbn [mbind option_bind].
  destruct (derive_attempts fp 0 ID_KEY_TRIES) as [[first p]|] eqn:E; [|done]. cbn [mbind option_bind].
  intros H. exists fp. split; [done|]. exists first, p.
  apply derive_attempts_derived in E as (n & Hn & Hc & Hp & Hb). unfold ID_KEY_TRIES in Hn.
  split; [exists n; split_and!; [lia|done|done|]; intros i Hi; apply Hb; lia|].
  destruct (y_is_odd p) eqn:Ey.
  - destruct (public_from_scalar (scalar_negate first)) as [q|] eqn:Eq; [|done]. cbn [mbind option_bind] in H.
    destruct (y_is_odd q) eqn:Eyq; [done|]. simplify_eq. split; [done|]. exists q.
    split; [done|]. split; [done|]. split; [done|]. exact (Hlen _ _ Eq).
  - simplify_eq. split; [done|]. exists p. split; [done|]. split; [done|]. split; [done|]. exact (Hlen _ _ Hp).
Qed.

(** C38: a service that starts presents the identity its document's fingerprint stands for. The
    document was readable and its fingerprint is 64 hexadecimal digits; the key is the first of
    at most four outputs of HKDF, on the 32 bytes those digits denote, that is a private key of
    the curve, negated when its point has an odd Y; the public identity is the X coordinate of
    the point of the key it then holds, whose Y is even; and a 'pi' in the document agrees with
    it in every digit. A missing document, and a missing or malformed fingerprint, make it
    refuse to start. *)
Theorem started_identity_is_sound path max_out :
  match id_service_create json_load_file (Some path) max_out with
  | Some st =>
      exists root gw fp, json_load_file path = Some root /\
        json_object_get (Some root) "gatewayIdentity" = Some gw /\
        string_member gw "fp" = Some fp /\ str_map tolower fp = id_digital_fingerprint st /\
        String.length fp = 64%nat /\ str_forallb isxdigit fp = true /\
        (exists bs first pub0, length bs = 32%nat /\ bytes_to_hex bs = str_map tolower fp /\
           derived_from bs first pub0 /\
           id_identity_scalar st = (if y_is_odd pub0 then scalar_negate first else first)) /\
        (exists pub, public_from_scalar (id_identity_scalar st) = Some pub /\
           y_is_odd pub = false /\ id_unique_public_id st = identity_of_key pub) /\
        (forall pi, string_member gw "pi" = Some pi ->
           str_map tolower pi = id_unique_public_id st) /\
        id_have_identity_key st = true /\ id_refs st = 3
  | None => True
  end /\
  (json_load_file path = None -> id_service_create json_load_file (Some path) max_out = None) /\
  (forall root gw, json_load_file path = Some root ->
     json_object_get (Some root) "gatewayIdentity" = Some gw ->
     take_hex256 (string_member gw "fp") = None ->
     id_service_create json_load_file (Some path) max_out = None).
Proof.
  assert (Hth : forall v w, take_hex256 v = Some w -> exists s, v = Some s /\ str_map tolower s = w /\
    String.length s = 64%nat /\ str_forallb isxdigit s = true).
  { intros [s|] w; [|done]. unfold take_hex256.
    destruct (String.length s =? ID_HEX_CHARS)%nat eqn:El; [|done]. apply Nat.eqb_eq in El. cbn [negb].
    destruct (str_forallb isxdigit s) eqn:Ex; [|done]. intros [= <-]. exists s. repeat (split; [done|]). done. }
  split; [|split].
  - unfold id_service_create. destruct path as [|ch p]; [done|].
    destruct (max_out <? 3)%nat; [done|]. unfold load_identity.
    destruct (json_load_file (String ch p)) as [root|] eqn:Er; [|done].
    destruct (json_object_get (Some root) "gatewayIdentity") as [[]|] eqn:Eg; try done.
    destruct (take_hex256 (string_member (JObject members) "fp")) as [fp|] eqn:Ef; [|done].
    destruct (derive_identity_key fp) as [[scalar pi]|] eqn:Ed; [|done].
    destruct (document_pi_matches _ pi) eqn:Em; [|done]. cbn [negb].
    cbn [id_unique_public_id id_digital_fingerprint id_identity_scalar id_have_identity_key id_refs].
    destruct (Hth _ _ Ef) as (s & Hs & Hlow & Hl & Hx).
    exists root, (JObject members), s. repeat (split; [done|]).
    destruct (derive_identity_key_spec _ _ _ Ed) as (bs & Hbs & first & pub0 & Hd & Hsc & pub & Hp & Hy & -> & Hlp).
    split.
    { exists bs, first, pub0. rewrite Hlow. apply hex_to_bytes_back in Hbs as (_ & Hbl & Hbt).
      - split_and!; [done| |done|done]. rewrite Hbt, <- Hlow. apply tolower_twice.
      - rewrite <- Hlow, length_str_map, Hl. done. }
    split.
    { exists pub. split; [done|]. split; [done|]. unfold identity_of_key, hex_encode_lower.
      apply bytes_to_hex_encode. unfold x_coordinate. rewrite length_take, length_drop, Hlp. simpl. lia. }
    split; [|done]. intros q Hq. unfold document_pi_matches in Em. rewrite Hq in Em.
    destruct (take_hex256 (Some q)) as [g|] eqn:Egiv; [|done].
    destruct (Hth _ _ Egiv) as (q' & Hq' & Hlow' & _). injection Hq' as <-. rewrite Hlow'.
    by apply String.eqb_eq in Em.
  - intros Hn. unfold id_service_create, load_identity. destruct path as [|ch p]; [done|].
    destruct (max_out <? 3)%nat; [done|]. by rewrite Hn.
  - intros root gw Hr Hg Hf. unfold id_service_create, load_identity. destruct path as [|ch p]; [done|].
    destruct (max_out <? 3)%nat; [done|]. rewrite Hr. cbn [mbind]. rewrite Hg.
    destruct gw; try done. by rewrite Hf.
Qed.
End identity.

(** ** Custody of the secrets *)

(** Everything of the state but the fingerprint and the private key. *)
Definition same_public (st st' : id_service_state_t) : Prop :=
  exists fp scalar have refs, st' =
    mk_id refs (id_unique_public_id st) fp (id_hes_clme_ver st)
      (id_hes_system_number st) (id_public_description st) (id_gateway_class st)
      (id_vulnerability st) (id_adverse_impact st) (id_likelihood st) (id_risk_level st) scalar have.

(** The private key is handed over once: the first export returns it and leaves a
    state that is scrubbed, refuses every further export and presents the same public
    identity; and no answer of the service depends on the fingerprint or on the key. *)
Theorem identity_key_leaves_once (st : id_service_state_t) :
  (id_have_identity_key st = true ->
   exists st', id_service_export_identity_key st = Some (id_identity_scalar st, st') /\
     id_identity_scalar st' = replicate 32 0 /\ id_service_export_identity_key st' = None /\
     same_public st st') /\
  forall st' inventory out, same_public st st' ->
    id_status_on_get st' inventory out = id_status_on_get st inventory out.
Proof.
  split.
  - intros Hh. unfold id_service_export_identity_key. rewrite Hh. eexists. split; [done|].
    split; [done|]. split; [done|]. by eexists _, _, _, _.
  - intros st' inventory out (fp & scalar & have & refs & ->). done.
Qed.

(** A started service, on the stand-in primitive. *)
Module ToyKdf.
#[export] Instance kdf : PsaKdf bytes bytes := {
  psa_key_derivation_setup _ := (PSA_SUCCESS, []);
  psa_key_derivation_input_salt d s := (PSA_SUCCESS, d ++ s);
  psa_key_derivation_input_key d k := (PSA_SUCCESS, k ++ d);
  psa_key_derivation_input_info d i := (PSA_SUCCESS, d ++ i);
  psa_key_derivation_output_bytes d n := (PSA_SUCCESS, take n d);
}.
End ToyKdf.

Definition ex_fp : string := "00112233445566778899AABBCCDDEEFF00112233445566778899aabbccddeeff".

Example ex_identity_starts :
  id_unique_public_id <$>
    id_service_create (psa := Toy.psa) (kdf := ToyKdf.kdf)
      (fun p => if p =?s "id.json" then
                  Some (JObject [("gatewayIdentity", JObject [("fp", JString ex_fp)])])
                else None) (Some "id.json") 3 =
  Some (str_map tolower ex_fp).
Proof. vm_compute. reflexivity. Qed.
