(* ===== verification/Devreg.v ===== *)
(** * The device registry

    Models src/src/common/hes_devreg.c: parsing a module's device slice, the lookups,
    and the topics a module subscribes to; and the numeric readers the JSON clients
    share. The conversion of a double outside the range of the target type, which C
    leaves undefined, is a parameter ([Target]). *)

From S2P Require Import Prelude CLib HesCommon Json.

Definition HES_DEVREG_MAX_DEVICES : nat := 16.
Definition HES_DEVREG_MAX_OBJECTS : nat := 16.

(** What the target machine makes of a double that no [long], [uint32_t] or [int] holds. *)
Class Target := {
  long_out_of_range : double -> Z;
  u32_out_of_range : double -> Z;
  int_out_of_range : double -> Z;
}.

(** A [long] out of range is a [long] all the same, a [uint32_t] a [uint32_t]. *)
Class TargetOk (target : Target) := {
  long_is_long : forall d, LONG_MIN <= long_out_of_range d <= LONG_MAX;
  u32_is_u32 : forall d, 0 <= u32_out_of_range d < 2 ^ 32;
  int_is_int : forall d, - 2 ^ 31 <= int_out_of_range d < 2 ^ 31;
}.

(** A target whose conversions give the "integer indefinite" value and 0. *)
Definition indefinite_target : Target :=
  {| long_out_of_range := fun _ => LONG_MIN; u32_out_of_range := fun _ => 0;
     int_out_of_range := fun _ => - 2 ^ 31 |}.

#[export] Instance indefinite_target_ok : TargetOk indefinite_target.
Proof. by split. Qed.

Section readers.
Context {target : Target}.

Definition json_number_value (v : json) : option double :=
  match v with
  | JInteger z => Some (d_of_Z z)
  | JReal d => Some d
  | _ => None
  end.

(** [(long)d] *)
Definition d_to_long (d : double) : Z :=
  match d_trunc d with
  | Some z => if ((LONG_MIN <=? z) && (z <=? LONG_MAX))%bool then z else long_out_of_range d
  | None => long_out_of_range d
  end.

(** [(uint32_t)d] *)
Definition d_to_u32 (d : double) : Z :=
  match d_trunc d with
  | Some z => if ((0 <=? z) && (z <? 2 ^ 32))%bool then z else u32_out_of_range d
  | None => u32_out_of_range d
  end.

(** [(int)d] *)
Definition d_to_int (d : double) : Z :=
  match d_trunc d with
  | Some z => if ((- 2 ^ 31 <=? z) && (z <? 2 ^ 31))%bool then z else int_out_of_range d
  | None => int_out_of_range d
  end.

(** The member as a [long], or [None] when it is missing or no number. *)
Definition get_member_long (obj : json) (key : string) : option Z :=
  let* v := json_object_get (Some obj) key in
  let* d := json_number_value v in
  Some (d_to_long d).

Definition get_member_string (obj : json) (key : string) (dstsz : nat) : option string :=
  match json_object_get (Some obj) key with
  | Some (JString s) => Some (hes_strlcpy dstsz s)
  | _ => None
  end.
End readers.

Section reader_facts.
Context {target : Target}.

Lemma d_to_long_range {ok : TargetOk target} d : LONG_MIN <= d_to_long d <= LONG_MAX.
Proof.
  unfold d_to_long. destruct (d_trunc d); [|apply long_is_long].
  destruct (_ && _)%bool eqn:E; [bool_hyps; lia|apply long_is_long].
Qed.

(** Integers below 2^53 pass through the double unchanged. *)
Lemma d_to_long_of_Z z : - 2 ^ 53 < z < 2 ^ 53 -> d_to_long (d_of_Z z) = z.
Proof.
  intros Hz. unfold d_to_long. rewrite d_trunc_of_Z by done. unfold LONG_MIN, LONG_MAX.
  rewrite (proj2 (Z.leb_le _ z)), (proj2 (Z.leb_le z _)) by lia. done.
Qed.

Lemma d_to_int_range {ok : TargetOk target} d : - 2 ^ 31 <= d_to_int d < 2 ^ 31.
Proof.
  unfold d_to_int. destruct (d_trunc d); [|apply int_is_int].
  destruct (_ && _)%bool eqn:E; [bool_hyps; lia|apply int_is_int].
Qed.

Lemma d_to_int_of_Z z : - 2 ^ 31 <= z < 2 ^ 31 -> d_to_int (d_of_Z z) = z.
Proof.
  intros Hz. unfold d_to_int. rewrite d_trunc_of_Z by lia.
  rewrite (proj2 (Z.leb_le _ z)), (proj2 (Z.ltb_lt z _)) by lia. done.
Qed.

Lemma d_to_u32_of_Z z : 0 <= z < 2 ^ 32 -> d_to_u32 (d_of_Z z) = z.
Proof.
  intros Hz. unfold d_to_u32. rewrite d_trunc_of_Z by lia.
  rewrite (proj2 (Z.leb_le 0 z)), (proj2 (Z.ltb_lt z _)) by lia. done.
Qed.
End reader_facts.

(** ** Data *)

Record hes_dev_object_t := mk_dev_object { do_path : string; do_access : string }.

Record hes_device_t := mk_device {
  hd_device_index : Z;
  hd_net_ref_index : Z;
  hd_role : string;
  hd_expected_hardware : string;
  hd_network_type : string;
  hd_address : string;
  hd_udp_port : Z;
  hd_online : bool;
  hd_objects : list hes_dev_object_t;
}.

Record hes_devreg_t := mk_devreg {
  dr_gateway_id : string;
  dr_module_type : string;
  dr_module_ref_index : Z;
  dr_network_type : string;
  dr_devices : list hes_device_t;
}.

Definition hes_devreg_init : hes_devreg_t := mk_devreg "" "" 0 "" [].

Section parse.
Context {target : Target}.

Definition status_to_online (dev : json) : bool :=
  match json_object_get (Some dev) "status" with
  | Some (JString s) => s =?s "online"
  | _ => true
  end.

Fixpoint parse_objects (l : list json) (acc : list hes_dev_object_t) : list hes_dev_object_t :=
  match l with
  | [] => acc
  | o :: l' =>
      if (HES_DEVREG_MAX_OBJECTS <=? length acc)%nat then acc
      else
        parse_objects l'
          (if json_is_object o then
             match get_member_string o "lexiconPath" HES_PATH_MAX, get_member_string o "access" 4 with
             | Some p, Some a => acc ++ [mk_dev_object p a]
             | _, _ => acc
             end
           else acc)
  end.

(** One device entry; [None] when it has no device index. *)
Definition parse_device (d : json) : option hes_device_t :=
  let* di := get_member_long d "deviceIndex" in
  let text key cap := default "" (get_member_string d key cap) in
  Some (mk_device (uint32 di)
          (uint32 (default 0 (get_member_long d "netRefIndex")))
          (text "deviceRole" 32%nat) (text "expectedHardware" 48%nat) (text "networkType" 16%nat)
          (text "address" 64%nat)
          (int32 (default 0 (get_member_long d "udpPort")))
          (status_to_online d)
          match json_object_get (Some d) "objects" with
          | Some (JArray l) => parse_objects l []
          | _ => []
          end).

(** The registry's network type is the first one a device names. *)
Definition adopt_network (nt : string) (dev : hes_device_t) : string :=
  if ((nt =?s "") && negb (hd_network_type dev =?s ""))%bool then hd_network_type dev else nt.

Fixpoint parse_devices (l : list json) (nt : string) (acc : list hes_device_t)
  : string * list hes_device_t :=
  match l with
  | [] => (nt, acc)
  | d :: l' =>
      if (HES_DEVREG_MAX_DEVICES <=? length acc)%nat then (nt, acc)
      else
        match (if json_is_object d then parse_device d else None) with
        | Some dev => parse_devices l' (adopt_network nt dev) (acc ++ [dev])
        | None => parse_devices l' nt acc
        end
  end.

(** The registry it leaves and the return value. *)
Definition hes_devreg_parse (root : json) : hes_devreg_t * Z :=
  if negb (json_is_object root) then (hes_devreg_init, -1)
  else
    match json_object_get (Some root) "error" with
    | Some (JString _) => (hes_devreg_init, -1)
    | _ =>
        let text key cap := default "" (get_member_string root key cap) in
        let reg devs nt :=
          mk_devreg (text "gatewayId" 64%nat) (text "moduleType" 8%nat)
            (uint32 (default 0 (get_member_long root "moduleRefIndex"))) nt devs in
        match json_object_get (Some root) "devices" with
        | Some (JArray l) =>
            let '(nt, devs) := parse_devices l (text "networkType" 16%nat) [] in
            (reg devs nt, 0)
        | _ => (reg [] (text "networkType" 16%nat), -1)
        end
    end.

Definition hes_devreg_load_file (read_file : string -> option string)
  (json_loads : string -> option json) (reg : hes_devreg_t) (path : string) : hes_devreg_t * Z :=
  match read_file path with
  | None => (reg, -1)
  | Some text =>
      match json_loads text with
      | None => (reg, -1)
      | Some root => hes_devreg_parse root
      end
  end.
End parse.

(** ** Lookups *)

Definition hes_devreg_find (reg : hes_devreg_t) (device_index : Z) : option hes_device_t :=
  find_first (fun d => hd_device_index d =? device_index) (dr_devices reg).

Definition hes_dev_object_find (dev : hes_device_t) (path : string) : option hes_dev_object_t :=
  find_first (fun o => do_path o =?s path) (hd_objects dev).

Definition hes_dev_object_can (dev : hes_device_t) (path : string) (access : ascii) : bool :=
  match hes_dev_object_find dev path with
  | Some o => (Ascii.eqb access Ascii.zero || has_char access (do_access o))%bool
  | None => false
  end.

(** The distinct object paths, in order, at most [max] of them. *)
Definition add_topic (max : nat) (topics : list string) (o : hes_dev_object_t) : list string :=
  if (max <=? length topics)%nat then topics
  else if existsb (fun t => t =?s do_path o) topics then topics
  else topics ++ [hes_strlcpy HES_PATH_MAX (do_path o)].

Definition hes_devreg_collect_topics (reg : hes_devreg_t) (max : nat) : list string :=
  fold_left (fun topics dev => fold_left (add_topic max) (hd_objects dev) topics)
    (dr_devices reg) [].

(** ** Properties *)

Definition device_fits (d : hes_device_t) : Prop :=
  0 <= hd_device_index d < 2 ^ 32 /\ 0 <= hd_net_ref_index d < 2 ^ 32 /\
  - 2 ^ 31 <= hd_udp_port d < 2 ^ 31 /\
  (String.length (hd_role d) < 32)%nat /\ (String.length (hd_expected_hardware d) < 48)%nat /\
  (String.length (hd_network_type d) < 16)%nat /\ (String.length (hd_address d) < 64)%nat /\
  (length (hd_objects d) <= HES_DEVREG_MAX_OBJECTS)%nat /\
  Forall (fun o => (String.length (do_path o) < HES_PATH_MAX)%nat /\
                   (String.length (do_access o) < 4)%nat) (hd_objects d).

Record devreg_fits (r : hes_devreg_t) : Prop := {
  rf_gateway : (String.length (dr_gateway_id r) < 64)%nat;
  rf_module_type : (String.length (dr_module_type r) < 8)%nat;
  rf_index : 0 <= dr_module_ref_index r < 2 ^ 32;
  rf_network : (String.length (dr_network_type r) < 16)%nat;
  rf_devices : (length (dr_devices r) <= HES_DEVREG_MAX_DEVICES)%nat /\ Forall device_fits (dr_devices r);
}.

Section facts.
Context {target : Target}.

Lemma member_string_fits obj key cap :
  (0 < cap)%nat -> (String.length (default "" (get_member_string obj key cap)) < cap)%nat.
Proof.
  intros Hc. unfold get_member_string.
  destruct (json_object_get (Some obj) key) as [[]|]; simpl; try lia. by apply hes_strlcpy_fits.
Qed.

Lemma parse_objects_fits l acc :
  (length acc <= HES_DEVREG_MAX_OBJECTS)%nat ->
  Forall (fun o => (String.length (do_path o) < HES_PATH_MAX)%nat /\
                   (String.length (do_access o) < 4)%nat) acc ->
  (length (parse_objects l acc) <= HES_DEVREG_MAX_OBJECTS)%nat /\
  Forall (fun o => (String.length (do_path o) < HES_PATH_MAX)%nat /\
                   (String.length (do_access o) < 4)%nat) (parse_objects l acc).
Proof.
  revert acc. induction l as [|o l IH]; intros acc Hl Ha; cbn [parse_objects]; [done|].
  destruct (HES_DEVREG_MAX_OBJECTS <=? length acc)%nat eqn:E; [done|]. apply Nat.leb_gt in E.
  apply IH; (destruct (json_is_object o); [|done]);
    (destruct (get_member_string o "lexiconPath" HES_PATH_MAX) as [p|] eqn:Ep; [|done]);
    (destruct (get_member_string o "access" 4) as [a|] eqn:Eac; [|done]).
  - rewrite length_app. simpl. lia.
  - apply Forall_app. split; [done|]. constructor; [|constructor]. simpl.
    pose proof (member_string_fits o "lexiconPath" HES_PATH_MAX ltac:(unfold HES_PATH_MAX; lia)) as H1.
    pose proof (member_string_fits o "access" 4 ltac:(lia)) as H2. by rewrite Ep in H1; rewrite Eac in H2.
Qed.

Lemma parse_device_fits d dev : parse_device d = Some dev -> device_fits dev.
Proof.
  unfold parse_device. destruct (get_member_long d "deviceIndex") as [di|]; [|done].
  intros H. apply Some_inj in H. subst dev. unfold device_fits. simpl.
  split; [apply wrap_u_range; lia|]. split; [apply wrap_u_range; lia|].
  split; [apply (wrap_s_range 32); lia|].
  repeat (split; [apply member_string_fits; lia|]).
  destruct (json_object_get (Some d) "objects") as [[]|]; simpl; try (split; [lia|constructor]).
  apply parse_objects_fits; [simpl; lia|constructor].
Qed.

Lemma parse_devices_fits l nt acc :
  (String.length nt < 16)%nat -> (length acc <= HES_DEVREG_MAX_DEVICES)%nat -> Forall device_fits acc ->
  (String.length (fst (parse_devices l nt acc)) < 16)%nat /\
  (length (snd (parse_devices l nt acc)) <= HES_DEVREG_MAX_DEVICES)%nat /\
  Forall device_fits (snd (parse_devices l nt acc)).
Proof.
  revert nt acc. induction l as [|d l IH]; intros nt acc Hn Hl Ha; cbn [parse_devices]; [done|].
  destruct (HES_DEVREG_MAX_DEVICES <=? length acc)%nat eqn:E; [done|]. apply Nat.leb_gt in E.
  destruct (if json_is_object d then parse_device d else None) as [dev|] eqn:Ed; [|by apply IH].
  assert (Hdev : device_fits dev) by (destruct (json_is_object d); [by eapply parse_device_fits|done]).
  apply IH.
  - unfold adopt_network. destruct (_ && _)%bool; [|done]. by destruct Hdev as (_ & _ & _ & _ & _ & ? & _).
  - rewrite length_app. simpl. lia.
  - apply Forall_app. split; [done|]. by apply Forall_singleton.
Qed.

Definition slice_entries (l : list json) : list hes_device_t :=
  take HES_DEVREG_MAX_DEVICES (omap (fun d => if json_is_object d then parse_device d else None) l).

Lemma parse_devices_take l nt acc :
  (length acc <= HES_DEVREG_MAX_DEVICES)%nat ->
  snd (parse_devices l nt acc) = acc ++ take (HES_DEVREG_MAX_DEVICES - length acc)
    (omap (fun d => if json_is_object d then parse_device d else None) l).
Proof.
  revert nt acc. induction l as [|d l IH]; intros nt acc Hacc; cbn [parse_devices].
  { cbn [omap list_omap]. by rewrite take_nil, app_nil_r. }
  destruct (HES_DEVREG_MAX_DEVICES <=? length acc)%nat eqn:E.
  - apply Nat.leb_le in E. replace (_ - length acc)%nat with 0%nat by lia. by rewrite app_nil_r.
  - apply Nat.leb_gt in E. cbn [omap list_omap].
    destruct (if json_is_object d then parse_device d else None) as [dev|]; [|by apply IH].
    rewrite IH by (rewrite length_app; simpl; lia). rewrite length_app. cbn [length].
    replace (HES_DEVREG_MAX_DEVICES - length acc)%nat
      with (S (HES_DEVREG_MAX_DEVICES - (length acc + 1))) by lia.
    by rewrite <- app_assoc.
Qed.

(** What makes a document a device slice. *)
Definition slice_of (root : json) (l : list json) : Prop :=
  json_is_object root = true /\
  (forall s, json_object_get (Some root) "error" <> Some (JString s)) /\
  json_object_get (Some root) "devices" = Some (JArray l).

Lemma devreg_parse_cases root :
  devreg_fits (fst (hes_devreg_parse root)) /\
  ((snd (hes_devreg_parse root) = -1 /\ forall l, ~ slice_of root l) \/
   exists l, slice_of root l /\ snd (hes_devreg_parse root) = 0 /\
             dr_devices (fst (hes_devreg_parse root)) = slice_entries l).
Proof.
  assert (Hinit : devreg_fits hes_devreg_init) by (constructor; simpl; repeat split; try lia; constructor).
  unfold hes_devreg_parse, slice_of. destruct (json_is_object root); cbn [negb].
  2: { split; [done|]. left. split; [done|]. by intros l [? _]. }
  assert (He : (exists s, json_object_get (Some root) "error" = Some (JString s)) \/
               ~ (exists s, json_object_get (Some root) "error" = Some (JString s))).
  { destruct (json_object_get (Some root) "error") as [[]|];
      try (right; by intros [? ?]). left. by eexists. }
  destruct He as [[s Hs]|Hne].
  { rewrite Hs. split; [done|]. left. split; [done|]. intros l (_ & H & _). by destruct (H s). }
  assert (Hr : forall r, match json_object_get (Some root) "error" with
                         | Some (JString _) => (hes_devreg_init, -1) | _ => r end = r).
  { intros r. destruct (json_object_get (Some root) "error") as [[]|]; try done. destruct Hne. by eexists. }
  cbn zeta. rewrite Hr. clear Hr.
  assert (Hnt : (String.length (default "" (get_member_string root "networkType" 16)) < 16)%nat)
    by (apply member_string_fits; lia).
  assert (Hfits : devreg_fits (mk_devreg
      (default "" (get_member_string root "gatewayId" 64)) (default "" (get_member_string root "moduleType" 8))
      (uint32 (default 0 (get_member_long root "moduleRefIndex")))
      (default "" (get_member_string root "networkType" 16)) [])).
  { constructor; simpl; try done; try (apply member_string_fits; lia).
    - apply wrap_u_range; lia.
    - split; [lia|constructor]. }
  destruct (json_object_get (Some root) "devices") as [[| | | | |l|]|];
    try (split; [done|]; left; split; [done|]; by intros l' (_ & _ & ?)).
  pose proof (parse_devices_fits l _ [] Hnt ltac:(simpl; lia) ltac:(constructor)) as (H1 & H2 & H3).
  pose proof (parse_devices_take l (default "" (get_member_string root "networkType" 16)) []
                ltac:(simpl; lia)) as Ht.
  destruct (parse_devices l _ []) as [nt devs]. cbn [fst snd] in *. split.
  - constructor; simpl; try done; try (apply member_string_fits; lia). apply wrap_u_range; lia.
  - right. exists l. split; [|done]. split; [done|]. split; [|done]. intros s Hs. apply Hne. by eexists.
Qed.

(** A device slice is taken in within bounds, whatever it holds: at most 16
    devices of at most 16 objects, texts that fit their buffers, machine integers in
    range. 0 is returned exactly for an object without an error text that has a
    devices array; then the devices are the parsable entries of that array, in order,
    up to the capacity. *)
Theorem devreg_parse_bounds root :
  devreg_fits (fst (hes_devreg_parse root)) /\
  (snd (hes_devreg_parse root) = 0 \/ snd (hes_devreg_parse root) = -1) /\
  (snd (hes_devreg_parse root) = 0 <->
     json_is_object root = true /\
  (forall s, json_object_get (Some root) "error" <> Some (JString s)) /\
  exists l, json_object_get (Some root) "devices" = Some (JArray l)) /\
  forall l, snd (hes_devreg_parse root) = 0 -> json_object_get (Some root) "devices" = Some (JArray l) ->
    dr_devices (fst (hes_devreg_parse root)) =
      take HES_DEVREG_MAX_DEVICES
        (omap (fun d => if json_is_object d then parse_device d else None) l).
Proof.
  destruct (devreg_parse_cases root) as [Hf [[H0 Hno]|(l & (Ho & He & Hd) & H0 & Hdev)]].
  - rewrite H0. split; [done|]. split; [by right|]. split; [|done].
    split; [done|]. intros (? & ? & l & ?). by destruct (Hno l).
  - rewrite H0. split; [done|]. split; [by left|]. split; [split; [intros _|done]|].
    + split; [done|]. split; [done|]. by exists l.
    + intros l' _ Hl'. by simplify_eq.
Qed.

Lemma add_topics_spec max objs topics :
  Forall (fun o => (String.length (do_path o) < HES_PATH_MAX)%nat) objs ->
  NoDup topics -> (length topics <= max)%nat ->
  NoDup (fold_left (add_topic max) objs topics) /\
  (length (fold_left (add_topic max) objs topics) <= max)%nat /\
  (forall t, t ∈ fold_left (add_topic max) objs topics -> t ∈ topics \/ t ∈ do_path <$> objs) /\
  (forall t, t ∈ topics -> t ∈ fold_left (add_topic max) objs topics) /\
  ((length (fold_left (add_topic max) objs topics) < max)%nat ->
     forall o, o ∈ objs -> do_path o ∈ fold_left (add_topic max) objs topics).
Proof.
  revert topics. induction objs as [|o objs IH]; intros topics Hf Hn Hl; cbn [fold_left].
  { repeat split; try done; [by left|]. intros _ o Ho. by apply not_elem_of_nil in Ho. }
  inversion Hf as [|? ? Hfo Hfs]; subst.
  assert (Hstep : NoDup (add_topic max topics o) /\ (length (add_topic max topics o) <= max)%nat /\
    (forall t, t ∈ add_topic max topics o -> t ∈ topics \/ t = do_path o) /\
    (forall t, t ∈ topics -> t ∈ add_topic max topics o) /\
    ((length topics < max)%nat -> do_path o ∈ add_topic max topics o)).
  { unfold add_topic. destruct (max <=? length topics)%nat eqn:Em; [apply Nat.leb_le in Em|apply Nat.leb_gt in Em].
    { repeat split; try done; [by left|lia]. }
    destruct (existsb _ topics) eqn:Ex.
    - apply existsb_exists in Ex as (t & Ht & Heq). apply String.eqb_eq in Heq. subst t.
      repeat split; try done; [by left|intros _; by apply list_elem_of_In].
    - rewrite hes_strlcpy_small by done. repeat split.
      + apply NoDup_app. split; [done|]. split; [|apply NoDup_singleton].
        intros t Ht Ht2%list_elem_of_singleton. subst t.
        assert (existsb (fun t => t =?s do_path o) topics = true); [|congruence].
        apply existsb_exists. exists (do_path o). rewrite String.eqb_refl.
        split; [by apply list_elem_of_In|done].
      + rewrite length_app. simpl. lia.
      + intros t [Ht|Ht%list_elem_of_singleton]%elem_of_app; [by left|by right].
      + intros t Ht. apply elem_of_app. by left.
      + intros _. apply elem_of_app. right. by left. }
  destruct Hstep as (S1 & S2 & S3 & S4 & S5). destruct (IH _ Hfs S1 S2) as (I1 & I2 & I3 & I4 & I5).
  split; [done|]. split; [done|]. split; [|split].
  - intros t Ht. destruct (I3 t Ht) as [Ht'|Ht']; [|right; by right].
    destruct (S3 t Ht') as [Ht''|Ht'']; [by left|subst t; right; by left].
  - intros t Ht. by apply I4, S4.
  - intros Hlt o' [->|Ho']%elem_of_cons; [|by apply I5]. apply I4.
    destruct (decide (length topics < max)%nat); [by apply S5|]. exfalso.
    assert (Hle : (length topics <= length (fold_left (add_topic max) objs (add_topic max topics o)))%nat).
    { apply submseteq_length, NoDup_submseteq; [done|]. intros t Ht. by apply I4, S4. }
    lia.
Qed.

(** The topics a module subscribes to are distinct object paths of its devices,
    at most [max] of them; when they do not fill the table, every object of every
    device is covered. *)
Theorem collect_topics_covers root max :
  let reg := fst (hes_devreg_parse root) in
  let topics := hes_devreg_collect_topics reg max in
  NoDup topics /\ (length topics <= max)%nat /\
  (forall t, t ∈ topics -> exists d o, d ∈ dr_devices reg /\ o ∈ hd_objects d /\ do_path o = t) /\
  ((length topics < max)%nat -> forall d o, d ∈ dr_devices reg -> o ∈ hd_objects d ->
     do_path o ∈ topics).
Proof.
  intros reg topics. destruct (devreg_parse_cases root) as ([_ _ _ _ [_ Hdevs]] & _).
  fold reg in Hdevs. clearbody reg. subst topics. unfold hes_devreg_collect_topics.
  assert (Hflat : forall devs ts, fold_left (fun topics dev => fold_left (add_topic max) (hd_objects dev) topics) devs ts =
    fold_left (add_topic max) (concat (hd_objects <$> devs)) ts).
  { induction devs as [|d devs IH]; intros ts; [done|]. cbn [fold_left fmap list_fmap concat].
    by rewrite fold_left_app, IH. }
  rewrite Hflat.
  assert (Hin : forall o, o ∈ concat (hd_objects <$> dr_devices reg) <->
    exists d, d ∈ dr_devices reg /\ o ∈ hd_objects d).
  { intros o. rewrite list_elem_of_In, in_concat. split.
    - intros (l & Hl & Ho). apply list_elem_of_In, list_elem_of_fmap in Hl as (d & -> & Hd).
      exists d. split; [done|by apply list_elem_of_In].
    - intros (d & Hd & Ho). exists (hd_objects d).
      split; apply list_elem_of_In; [by apply list_elem_of_fmap_2|done]. }
  destruct (add_topics_spec max (concat (hd_objects <$> dr_devices reg)) []) as (H1 & H2 & H3 & _ & H5).
  - apply Forall_forall. intros o Ho. apply Hin in Ho as (d & Hd & Ho).
    rewrite Forall_forall in Hdevs. destruct (Hdevs d Hd) as (_ & _ & _ & _ & _ & _ & _ & _ & Hobj).
    rewrite Forall_forall in Hobj. by destruct (Hobj o Ho).
  - constructor.
  - simpl. lia.
  - split; [done|]. split; [done|]. split.
    + intros t Ht. destruct (H3 t Ht) as [Ht'|Ht']; [by apply not_elem_of_nil in Ht'|].
      apply list_elem_of_fmap in Ht' as (o & -> & Ho). apply Hin in Ho as (d & Hd & Ho). by exists d, o.
    + intros Hlt d o Hd Ho. apply H5; [done|]. apply Hin. by exists d.
Qed.
End facts.
