(* ===== verification/Mreg.v ===== *)
(** * The manifest client

    Models src/src/common/hes_mreg.c: opening a handle, the query, module-list and
    report requests, and the notification a module polls for. The sockets are the
    class [Nng]: the result of each dial, and the peer's answer to a request as the
    message it delivers. Results are [None] when the code leaves its buffers. *)

From S2P Require Import Prelude CLib HesCommon Json Devreg.

Definition HES_MREG_REQ_MAX : nat := Z.to_nat 8192.
Definition HES_MREG_REPLY_MAX : nat := Z.to_nat 65536.
Definition HES_MREG_REPORT_REPLY_MAX : nat := 256.
Definition HES_MODULES_MAX : nat := 16.
Definition DIAL_ATTEMPTS : nat := 50.

(** ** Data *)

(** [mr_req] and [mr_sub]: the socket is open. *)
Record hes_mreg_t := mk_mreg {
  mr_req : bool;
  mr_sub : bool;
  mr_module_type : string;
  mr_module_ref_index : Z;
  mr_topic : string;
}.

Definition mreg_zero : hes_mreg_t := mk_mreg false false "" 0 "".

Record hes_module_entry_t := mk_module_entry {
  me_module_type : string;
  me_module_ref_index : Z;
  me_service_module_type : string;
  me_present : bool;
}.

Definition hes_modules_t : Type := list hes_module_entry_t.

(** ** The transport *)

Class Nng := {
  nng_req0_open : Z;
  nng_sub0_open : Z;
  (** the outcome of the n-th attempt to dial an endpoint *)
  nng_dial : string -> nat -> Z;
}.

Section open.
Context {nng : Nng}.

(** Attempts [k], [k + 1], ...: 0, or the last error. *)
Fixpoint dial_from (k left : nat) (url : string) (rv : Z) : Z :=
  match left with
  | O => rv
  | S left' =>
      let rv := nng_dial url k in
      if rv =? 0 then 0 else dial_from (S k) left' url rv
  end.

Definition dial_retry (url : string) : Z := dial_from 0 DIAL_ATTEMPTS url 0.

Definition dial_once (url : string) : Z := nng_dial url 0.

Definition hes_mreg_open (svc_rep_url svc_pub_url : string) (module_type : option string)
  (module_ref_index : Z) : hes_mreg_t * Z :=
  let h req sub := mk_mreg req sub (hes_strlcpy 8 (default "" module_type)) module_ref_index
                     (hes_strlcpy 16 (fmt_d module_ref_index)) in
  if negb (nng_req0_open =? 0) then (h false false, nng_req0_open)
  else if negb (dial_retry svc_rep_url =? 0) then (h false false, -1)
  else if negb (nng_sub0_open =? 0) then (h false false, nng_sub0_open)
  else if negb (dial_retry svc_pub_url =? 0) then (h false false, -1)
  else (h true true, 0).

Definition hes_mreg_open_registry (svc_rep_url : option string) : hes_mreg_t * Z :=
  match svc_rep_url with
  | None | Some EmptyString => (mreg_zero, -1)
  | Some url =>
      if negb (nng_req0_open =? 0) then (mreg_zero, nng_req0_open)
      else if negb (dial_once url =? 0) then (mreg_zero, -1)
      else (mk_mreg true false "" 0 "", 0)
  end.

Definition hes_mreg_close (m : hes_mreg_t) : hes_mreg_t :=
  mk_mreg false false (mr_module_type m) (mr_module_ref_index m) (mr_topic m).
End open.

(** ** Requests

    [service] is the peer: its state after a request, and the message that answers it
    ([None]: the send or the receive failed). Results are [None] when the code leaves
    its buffers. *)
Section requests.
Context {target : Target}.
Variable json_loads : string -> option json.
Context {W : Type}.
Variable service : W -> string -> W * option string.

Definition req_reply (w : W) (req : string) (replysz : nat) : option (W * option string) :=
  let '(w, answer) := service w req in
  match answer with
  | None => Some (w, None)
  | Some msg => let* reply := recv_text replysz msg in Some (w, Some reply)
  end.

(** The registry is only touched when the text is JSON. *)
Definition parse_slice (reg : hes_devreg_t) (text : string) : hes_devreg_t * Z :=
  match json_loads text with
  | None => (reg, -1)
  | Some root => hes_devreg_parse root
  end.

Definition json_str_field (o : json) (key : string) (dstsz : nat) (dst : string) : string :=
  jobj_str (Some o) key dstsz dst.

Definition json_u32_field (o : json) (key : string) : Z :=
  match (let* v := json_object_get (Some o) key in json_number_value v) with
  | Some d => if d_ltb d_zero d then d_to_u32 d else 0
  | None => 0
  end.

Definition json_flag_field (o : json) (key : string) : bool :=
  match (let* v := json_object_get (Some o) key in json_number_value v) with
  | Some d => negb (d_eqb d d_zero)
  | None => false
  end.

Definition query_request (m : hes_mreg_t) : string :=
  str_take (HES_MREG_REQ_MAX - 1)
    (dq "{'cmd':'query','moduleType':'" ++ mr_module_type m ++ dq "','moduleRefIndex':" ++
     fmt_d (mr_module_ref_index m) ++ "}")%string.

Definition hes_mreg_query (w : W) (m : hes_mreg_t) (reg : hes_devreg_t)
  : option (W * hes_devreg_t * Z) :=
  let* (w, reply) := req_reply w (query_request m) HES_MREG_REPLY_MAX in
  match reply with
  | None => Some (w, reg, -1)
  | Some text => let '(reg, rv) := parse_slice reg text in Some (w, reg, rv)
  end.

Definition module_entry_of (mo : json) : hes_module_entry_t :=
  mk_module_entry (json_str_field mo "moduleType" 8 "") (json_u32_field mo "moduleRefIndex")
    (json_str_field mo "serviceModuleType" 8 "") (json_flag_field mo "present").

(** The module list it leaves and the return value. *)
Definition hes_mreg_query_modules (w : W) : option (W * hes_modules_t * Z) :=
  let* (w, reply) := req_reply w (dq "{'cmd':'modules'}") HES_MREG_REPLY_MAX in
  match reply with
  | None => Some (w, [], -1)
  | Some text =>
      match json_loads text with
      | None => Some (w, [], -1)
      | Some root =>
          match json_object_get (Some root) "modules" with
          | Some (JArray l) => Some (w, load_rows HES_MODULES_MAX module_entry_of l [], 0)
          | _ => Some (w, [], -1)
          end
      end
  end.

Definition report_device (i : nat) (d : hes_device_t) : string :=
  ((if (i =? 0)%nat then "" else ",") ++ dq "{'deviceIndex':" ++ fmt_d (hd_device_index d) ++
   dq ",'netRefIndex':" ++ fmt_d (hd_net_ref_index d) ++
   dq ",'address':'" ++ hd_address d ++ dq "','udpPort':" ++ fmt_d (hd_udp_port d) ++
   dq ",'online':" ++ (if hd_online d then "1" else "0") ++ "}")%string.

(** The snprintf loop: [off] counts what would have been written, [buf] holds what
    was; the loop ends when [off] reaches the size of the buffer. *)
Fixpoint report_devices (i : nat) (ds : list hes_device_t) (buf : string) (off : nat)
  : string * nat :=
  match ds with
  | [] => (buf, off)
  | d :: ds' =>
      if (off <? HES_MREG_REQ_MAX)%nat then
        let t := report_device i d in
        report_devices (S i) ds' (buf ++ str_take (HES_MREG_REQ_MAX - off - 1) t)
          (off + String.length t)
      else (buf, off)
  end.

Definition report_head (m : hes_mreg_t) : string :=
  (dq "{'cmd':'report','moduleType':'" ++ mr_module_type m ++ dq "','moduleRefIndex':" ++
   fmt_d (mr_module_ref_index m) ++ dq ",'devices':[")%string.

(** [None]: [off] passed the end of the buffer, and the size of the last snprintf,
    [sizeof(req) - off], wraps around. *)
Definition report_request (m : hes_mreg_t) (reg : hes_devreg_t) : option string :=
  let head := report_head m in
  let '(buf, off) := report_devices 0 (dr_devices reg)
                       (str_take (HES_MREG_REQ_MAX - 1) head) (String.length head) in
  if (HES_MREG_REQ_MAX <? off)%nat then None
  else Some (buf ++ str_take (HES_MREG_REQ_MAX - off - 1) "]}")%string.

Definition hes_mreg_report (w : W) (m : hes_mreg_t) (reg : hes_devreg_t) : option (W * Z) :=
  let* req := report_request m reg in
  let* (w, reply) := req_reply w req HES_MREG_REPORT_REPLY_MAX in
  Some (w, match reply with Some _ => 0 | None => -1 end).

(** [incoming]: the notification that arrived before the timeout, or the error. *)
Definition hes_mreg_recv_update (m : hes_mreg_t) (reg : hes_devreg_t) (incoming : string + Z)
  : option (hes_devreg_t * Z) :=
  match incoming with
  | inr rv => Some (reg, rv)
  | inl msg =>
      let* buf := recv_text HES_MREG_REPLY_MAX msg in
      let p := if str_prefix (mr_topic m) buf then str_drop (String.length (mr_topic m)) buf
               else buf in
      Some (parse_slice reg p)
  end.
End requests.

(** A query that succeeds leaves a registry within its bounds. *)
Lemma query_fits {target : Target} json_loads {W} service (w : W) m reg w' reg' rv :
  hes_mreg_query json_loads service w m reg = Some (w', reg', rv) -> rv = 0 -> devreg_fits reg'.
Proof.
  unfold hes_mreg_query. destruct (req_reply _ _ _ _) as [[w1 [text|]]|]; [| |done]; cbn.
  2: { intros [= _ _ <-]. done. }
  unfold parse_slice. destruct (json_loads text) as [root|]; [|by intros [= _ _ <-]].
  destruct (devreg_parse_cases root) as [Hf _]. destruct (hes_devreg_parse root) as [r rv1].
  by intros [= _ <- <-].
Qed.
