(* ===== verification/Dm.v ===== *)
(** * The device manifest service

    Models src/src/dm/dm.c: the product profile and its loader, the rendering of a
    module's device slice and of the module list, and the handling of one request.
    A request yields the registry it leaves, the notifications it publishes and its
    reply. *)

From S2P Require Import Prelude CLib HesCommon Json Devreg.

Definition MS_MAX_MODULES : nat := 8.
Definition MS_MAX_DEVICES : nat := 16.
Definition MS_MAX_OBJECTS : nat := 8.
Definition MS_PATH : nat := 192.
Definition MS_MAX_REQ_BUF_SIZE : nat := Z.to_nat 16384.
Definition MAX_CMD_SIZE : nat := 32.
Definition MAX_ERR_MSG_SIZE : nat := 256.

(** ** Data *)

Record ms_object_t := mk_ms_object { mo_path : string; mo_access : string }.

(** The declared part of a device, and the runtime part the reports feed. *)
Record ms_devprofile_t := mk_devprofile {
  dp_device_index : Z;
  dp_net_ref_index : Z;
  dp_role : string;
  dp_expected_hardware : string;
  dp_network_type : string;
  dp_objects : list ms_object_t;
  dp_runtime_address : string;
  dp_runtime_udp_port : Z;
  dp_runtime_bound : bool;
  dp_online : bool;
}.

Record ms_module_t := mk_ms_module {
  mm_module_type : string;
  mm_module_ref_index : Z;
  mm_service_module_type : string;
  mm_network_type : string;
  mm_devs : list ms_devprofile_t;
}.

Definition ms_profile_t : Type := list ms_module_t.

Definition dev_with_runtime (d : ms_devprofile_t) (addr : string) (udp : Z) (bound online : bool)
  : ms_devprofile_t :=
  mk_devprofile (dp_device_index d) (dp_net_ref_index d) (dp_role d) (dp_expected_hardware d)
    (dp_network_type d) (dp_objects d) addr udp bound online.

Definition mod_with_devs (m : ms_module_t) (devs : list ms_devprofile_t) : ms_module_t :=
  mk_ms_module (mm_module_type m) (mm_module_ref_index m) (mm_service_module_type m)
    (mm_network_type m) devs.

Section service.
Context {target : Target}.
Variable json_loads : string -> option json.

Definition obj_long (o : json) (key : string) (def : Z) : Z := default def (get_member_long o key).
Definition obj_str (o : json) (key : string) (dstsz : nat) (dst : string) : string :=
  jobj_str (Some o) key dstsz dst.

(** ** Loading the product profile *)

Definition object_of (ob : json) : ms_object_t :=
  mk_ms_object (obj_str ob "lexiconPath" MS_PATH "") (obj_str ob "access" 8 "").

Definition json_items (o : json) (key : string) : list json :=
  match json_object_get (Some o) key with Some (JArray l) => l | _ => [] end.

Definition devprofile_of (dp : json) : ms_devprofile_t :=
  mk_devprofile (obj_long dp "deviceIndex" 0) (obj_long dp "netRefIndex" 0)
    (obj_str dp "deviceRole" 64 "") (obj_str dp "expectedHardware" 96 "")
    (obj_str dp "networkType" 16 "")
    (load_rows MS_MAX_OBJECTS object_of (json_items dp "objects") [])
    "" 0 false false.

Definition module_of (mo : json) : ms_module_t :=
  mk_ms_module (obj_str mo "moduleType" 8 "") (obj_long mo "moduleRefIndex" 0)
    (obj_str mo "serviceModuleType" 8 "") (obj_str mo "networkType" 16 "")
    (load_rows MS_MAX_DEVICES devprofile_of (json_items mo "deviceProfiles") []).

Definition load_profile (read_file : string -> option string) (path : string) : ms_profile_t * Z :=
  match read_file path with
  | None => ([], -1)
  | Some txt =>
      match json_loads txt with
      | None => ([], -1)
      | Some root =>
          match json_object_get (Some root) "modules" with
          | Some (JArray l) =>
              let pf := load_rows MS_MAX_MODULES module_of l [] in
              (pf, if (length pf =? 0)%nat then -1 else 0)
          | _ => ([], -1)
          end
      end
  end.

(** ** Lookups *)

Definition is_module (module_type : string) (mi : Z) (m : ms_module_t) : bool :=
  ((mm_module_ref_index m =? mi) &&
   ((module_type =?s "") || (mm_module_type m =?s module_type)))%bool.

Definition find_module (pf : ms_profile_t) (module_type : string) (mi : Z) : option ms_module_t :=
  find_first (is_module module_type mi) pf.

Definition is_device (di : Z) (d : ms_devprofile_t) : bool := dp_device_index d =? di.

Definition find_device (m : ms_module_t) (di : Z) : option ms_devprofile_t :=
  find_first (is_device di) (mm_devs m).

(** ** Rendering *)

Definition newline : string := String (chr 10) EmptyString.

Definition object_text (last : bool) (o : ms_object_t) : string :=
  (dq "        { 'lexiconPath': '" ++ mo_path o ++ dq "', 'access': '" ++ mo_access o ++
   dq "' }" ++ (if last then "" else ",") ++ newline)%string.

Fixpoint objects_text (os : list ms_object_t) : string :=
  match os with
  | [] => EmptyString
  | o :: os' => (object_text (match os' with [] => true | _ => false end) o ++ objects_text os')%string
  end.

Definition device_status (d : ms_devprofile_t) : string :=
  if dp_runtime_bound d then (if dp_online d then "online" else "offline") else "unbound".

Definition device_network (m : ms_module_t) (d : ms_devprofile_t) : string :=
  if dp_network_type d =?s "" then mm_network_type m else dp_network_type d.

Definition device_text (m : ms_module_t) (d : ms_devprofile_t) : string :=
  ("    {" ++ newline ++
   dq "      'deviceIndex': " ++ fmt_d (dp_device_index d) ++ "," ++ newline ++
   dq "      'netRefIndex': " ++ fmt_d (dp_net_ref_index d) ++ "," ++ newline ++
   dq "      'deviceRole': '" ++ dp_role d ++ dq "'," ++ newline ++
   dq "      'expectedHardware': '" ++ dp_expected_hardware d ++ dq "'," ++ newline ++
   dq "      'networkType': '" ++ device_network m d ++ dq "'," ++ newline ++
   dq "      'address': '" ++ dp_runtime_address d ++ dq "'," ++ newline ++
   dq "      'udpPort': " ++ fmt_d (dp_runtime_udp_port d) ++ "," ++ newline ++
   dq "      'status': '" ++ device_status d ++ dq "'," ++ newline ++
   dq "      'objects': [" ++ newline ++ objects_text (dp_objects d) ++
   "      ]" ++ newline ++ "    }")%string.

(** The texts of a list, the second and later ones after a comma and a newline. *)
Definition comma_separated (texts : list string) : string := str_join ("," ++ newline) texts.

Definition build_slice (m : ms_module_t) : string :=
  ("{" ++ newline ++
   dq "  'gatewayId': 'HES-GW-2026-99A1'," ++ newline ++
   dq "  'moduleType': '" ++ mm_module_type m ++ dq "'," ++ newline ++
   dq "  'moduleRefIndex': " ++ fmt_d (mm_module_ref_index m) ++ "," ++ newline ++
   dq "  'networkType': '" ++ mm_network_type m ++ dq "'," ++ newline ++
   dq "  'devices': [" ++ newline ++ comma_separated (device_text m <$> mm_devs m) ++
   newline ++ "  ]" ++ newline ++ "}" ++ newline)%string.

Definition module_present (m : ms_module_t) : bool :=
  (existsb dp_runtime_bound (mm_devs m) || (length (mm_devs m) =? 0)%nat)%bool.

Definition module_text (m : ms_module_t) : string :=
  ("    {" ++ newline ++
   dq "      'moduleType': '" ++ mm_module_type m ++ dq "'," ++ newline ++
   dq "      'moduleRefIndex': " ++ fmt_d (mm_module_ref_index m) ++ "," ++ newline ++
   dq "      'serviceModuleType': '" ++ mm_service_module_type m ++ dq "'," ++ newline ++
   dq "      'present': " ++ (if module_present m then "1" else "0") ++ newline ++ "    }")%string.

Definition build_modules_list (pf : ms_profile_t) : string :=
  ("{" ++ newline ++ dq "  'modules': [" ++ newline ++ comma_separated (module_text <$> pf) ++
   newline ++ "  ]" ++ newline ++ "}" ++ newline)%string.

Definition publish_slice (m : ms_module_t) : string :=
  (fmt_d (mm_module_ref_index m) ++ build_slice m)%string.

(** ** Requests *)

(** The runtime part after one entry of a report. *)
Definition report_into (e : json) (d : ms_devprofile_t) : ms_devprofile_t :=
  let addr := obj_str e "address" MS_PATH "" in
  let udp := obj_long e "udpPort" (-1) in
  let online := obj_long e "online" (-1) in
  dev_with_runtime d
    (if addr =?s "" then dp_runtime_address d else addr)
    (if 0 <=? udp then int32 udp else dp_runtime_udp_port d)
    true
    (if 0 <=? online then negb (online =? 0) else dp_online d).

(** [f] on the first element that satisfies [p]. *)
Fixpoint update_first {T} (p : T -> bool) (f : T -> T) (l : list T) : list T :=
  match l with
  | [] => []
  | x :: l' => if p x then f x :: l' else x :: update_first p f l'
  end.

(** One turn of the loop over the reported devices: the module and [changed]. *)
Definition report_entry (st : ms_module_t * bool) (e : json) : ms_module_t * bool :=
  let '(m, changed) := st in
  if negb (json_is_object e) then (m, changed)
  else
    let di := obj_long e "deviceIndex" (-1) in
    match find_device m di with
    | None => (m, changed)
    | Some _ => (mod_with_devs m (update_first (is_device di) (report_into e) (mm_devs m)), true)
    end.

Definition no_module_text (mt : string) (mi : Z) : string :=
  str_take (MAX_ERR_MSG_SIZE - 1)
    (if mt =?s "" then dq "{'error':'no module " ++ fmt_d mi ++ dq "'}"
     else dq "{'error':'no module " ++ mt ++ "/" ++ fmt_d mi ++ dq "'}")%string.

(** The registry, what is published, and the reply. *)
Definition handle_request (pf : ms_profile_t) (req : string) : ms_profile_t * list string * string :=
  match json_loads req with
  | None => (pf, [], dq "{'error':'bad json'}")
  | Some root =>
      let cmd := obj_str root "cmd" MAX_CMD_SIZE "" in
      if cmd =?s "modules" then (pf, [], build_modules_list pf)
      else
        let mi := obj_long root "moduleRefIndex" (-1) in
        if mi <? 0 then (pf, [], dq "{'error':'missing moduleRefIndex'}")
        else
          let mt := obj_str root "moduleType" MAX_CMD_SIZE "" in
          match find_module pf mt mi with
          | None => (pf, [], no_module_text mt mi)
          | Some m =>
              if cmd =?s "query" then (pf, [], build_slice m)
              else if cmd =?s "report" then
                let '(m', changed) := fold_left report_entry (json_items root "devices") (m, false) in
                (update_first (is_module mt mi) (fun _ => m') pf,
                 if changed then [publish_slice m'] else [], dq "{'ok':1}")
              else (pf, [], dq "{'error':'unknown cmd'}")
          end
  end.

(** One message received by the service loop. [None]: the terminator of a message
    that does not fit the request buffer is written outside it. *)
Definition service_message (pf : ms_profile_t) (msg : string)
  : option (ms_profile_t * list string * string) :=
  let* req := recv_text MS_MAX_REQ_BUF_SIZE msg in
  Some (handle_request pf req).

(** A sequence of requests. *)
Definition handle_requests (pf : ms_profile_t) (reqs : list string) : ms_profile_t * list string :=
  fold_left (fun st req => let '(pf, pub, _) := handle_request (fst st) req in (pf, snd st ++ pub))
    reqs (pf, []).
End service.
