(* ===== verification/DmFacts.v ===== *)
(** * Properties of the device manifest service

    What requests may change, what a report does to the module it names and when it
    is announced, that repeating one changes nothing, and that what the service
    renders fits the buffers of its clients. *)

From S2P Require Import Prelude CLib HesCommon Json Devreg Mreg Dm.

Section updates.
Context {T : Type}.
Implicit Types (p : T -> bool) (f : T -> T) (l : list T).

Lemma update_first_fmap {U} (g : T -> U) p f l :
  (forall x, g (f x) = g x) -> g <$> update_first p f l = g <$> l.
Proof.
  intros Hg. induction l as [|x l IH]; simpl; [done|].
  destruct (p x); cbn [fmap list_fmap]; [by rewrite Hg|by f_equal].
Qed.

Lemma update_first_split p f l x :
  find_first p l = Some x ->
  exists l1 l2, l = l1 ++ x :: l2 /\ (forall y, y ∈ l1 -> p y = false) /\ p x = true /\
                update_first p f l = l1 ++ f x :: l2.
Proof.
  induction l as [|y l IH]; simpl; [done|]. destruct (p y) eqn:E.
  - intros [= ->]. exists [], l. split; [done|]. split; [|done]. intros z Hz. by apply not_elem_of_nil in Hz.
  - intros H. destruct (IH H) as (l1 & l2 & -> & H1 & Hx & ->). exists (y :: l1), l2.
    split; [done|]. split; [|done]. intros z [->|Hz]%elem_of_cons; auto.
Qed.

Lemma update_first_none p f l : find_first p l = None -> update_first p f l = l.
Proof.
  induction l as [|y l IH]; simpl; [done|]. destruct (p y); [done|]. intros H. by rewrite IH.
Qed.

Lemma update_first_same p f l x : find_first p l = Some x -> f x = x -> update_first p f l = l.
Proof.
  intros H Hf. destruct (update_first_split p f l x H) as (l1 & l2 & -> & _ & _ & ->). by rewrite Hf.
Qed.
End updates.

(** ** The declared part *)

Definition declared (d : ms_devprofile_t) : ms_devprofile_t := dev_with_runtime d "" 0 false false.
Definition declared_module (m : ms_module_t) : ms_module_t := mod_with_devs m (declared <$> mm_devs m).

Section requests.
Context {target : Target}.
Variable json_loads : string -> option json.

(** The entry of a report is about this device. *)
Definition entry_for (di : Z) (e : json) : bool :=
  (json_is_object e && (obj_long e "deviceIndex" (-1) =? di))%bool.

(** A device after the entries of a report. *)
Definition reported (es : list json) (d : ms_devprofile_t) : ms_devprofile_t :=
  fold_left (fun d e => if entry_for (dp_device_index d) e then report_into e d else d) es d.

Lemma report_into_index e d : dp_device_index (report_into e d) = dp_device_index d.
Proof. done. Qed.

Lemma report_into_declared e d : declared (report_into e d) = declared d.
Proof. done. Qed.

Lemma report_entry_declared st e : declared_module (fst (report_entry st e)) = declared_module (fst st).
Proof.
  destruct st as [m c]. unfold report_entry. destruct (json_is_object e); simpl; [|done].
  destruct (find_device m _); simpl; [|done]. unfold declared_module, mod_with_devs. simpl. f_equal.
  apply update_first_fmap, report_into_declared.
Qed.

Lemma report_entries_declared es st :
  declared_module (fst (fold_left report_entry es st)) = declared_module (fst st).
Proof.
  revert st. induction es as [|e es IH]; intros st; [done|]. cbn [fold_left].
  by rewrite IH, report_entry_declared.
Qed.

Lemma is_module_declared mt mi m m' :
  declared_module m = declared_module m' -> is_module mt mi m = is_module mt mi m'.
Proof. unfold declared_module, mod_with_devs, is_module. intros [= -> -> _ _ _]. done. Qed.

(** With distinct device indices an entry reaches the device it names and no other. *)
Lemma update_device_nodup di f (devs : list ms_devprofile_t) :
  NoDup (dp_device_index <$> devs) ->
  update_first (is_device di) f devs = (fun d => if is_device di d then f d else d) <$> devs.
Proof.
  induction devs as [|d devs IH]; intros Hn; [done|]. cbn [update_first fmap list_fmap] in *.
  apply NoDup_cons in Hn as [Hd Hn]. unfold is_device at 1 3. destruct (dp_device_index d =? di) eqn:E.
  - f_equal. apply Z.eqb_eq in E. symmetry.
    rewrite <- (list_fmap_id devs) at 2. apply list_fmap_ext. intros i d' Hi.
    unfold is_device. destruct (dp_device_index d' =? di) eqn:E'; [|done].
    apply Z.eqb_eq in E'. destruct Hd. apply list_elem_of_fmap. exists d'. split; [congruence|].
    by eapply list_elem_of_lookup_2.
  - f_equal. by apply IH.
Qed.

Lemma report_entry_nodup m c e :
  NoDup (dp_device_index <$> mm_devs m) ->
  report_entry (m, c) e =
    (mod_with_devs m ((fun d => if entry_for (dp_device_index d) e then report_into e d else d) <$> mm_devs m),
     (c || existsb (fun d => entry_for (dp_device_index d) e) (mm_devs m))%bool).
Proof.
  intros Hn. unfold report_entry, entry_for. destruct (json_is_object e); cbn [negb andb].
  - set (di := obj_long e "deviceIndex" (-1)). unfold find_device.
    destruct (find_first (is_device di) (mm_devs m)) as [x|] eqn:E.
    + rewrite update_device_nodup by done.
      replace (existsb _ (mm_devs m)) with true; [rewrite orb_true_r|].
      * do 2 f_equal. apply list_fmap_ext. intros i d _. unfold is_device. by rewrite Z.eqb_sym.
      * symmetry. apply existsb_exists. apply find_first_Some in E as [Hx Hp].
        exists x. split; [by apply list_elem_of_In|]. unfold is_device in Hp. by rewrite Z.eqb_sym.
    + rewrite find_first_None in E. f_equal.
      * destruct m as [a b c' d devs]. unfold mod_with_devs. simpl in *. f_equal. symmetry.
        rewrite <- (list_fmap_id devs) at 2. apply list_fmap_ext. intros i x Hi.
        rewrite Z.eqb_sym. specialize (E x). unfold is_device in E. rewrite E; [done|].
        by eapply list_elem_of_lookup_2.
      * replace (existsb _ (mm_devs m)) with false; [by rewrite orb_false_r|]. symmetry.
        apply not_true_iff_false. rewrite existsb_exists. intros (d & Hd & Heq).
        apply list_elem_of_In in Hd. specialize (E d Hd). unfold is_device in E.
        rewrite Z.eqb_sym in Heq. congruence.
  - f_equal.
    + destruct m as [a b c' d devs]. unfold mod_with_devs. simpl in *. by rewrite list_fmap_id.
    + replace (existsb _ (mm_devs m)) with false; [by rewrite orb_false_r|]. symmetry.
      clear Hn. induction (mm_devs m); [done|]. simpl. done.
Qed.

Lemma reported_index e (d : ms_devprofile_t) :
  dp_device_index (if entry_for (dp_device_index d) e then report_into e d else d) = dp_device_index d.
Proof. by destruct (entry_for _ e). Qed.

(** All the entries of a report, on a module with distinct device indices. *)
Lemma report_entries_nodup es m c :
  NoDup (dp_device_index <$> mm_devs m) ->
  fold_left report_entry es (m, c) =
    (mod_with_devs m (reported es <$> mm_devs m),
     (c || existsb (fun e => existsb (fun d => entry_for (dp_device_index d) e) (mm_devs m)) es)%bool).
Proof.
  revert m c. induction es as [|e es IH]; intros m c Hn; cbn [fold_left existsb].
  - rewrite orb_false_r. f_equal. destruct m as [a b c' d devs]. unfold mod_with_devs. simpl.
    f_equal. symmetry. apply list_fmap_id.
  - rewrite report_entry_nodup by done.
    assert (Hidx : dp_device_index <$> ((fun d => if entry_for (dp_device_index d) e
              then report_into e d else d) <$> mm_devs m) = dp_device_index <$> mm_devs m).
    { rewrite <- list_fmap_compose. apply list_fmap_ext. intros i d _. apply reported_index. }
    rewrite IH by (cbn [mm_devs mod_with_devs]; by rewrite Hidx). cbn [mod_with_devs mm_devs]. f_equal.
    + unfold mod_with_devs. simpl. f_equal. rewrite <- list_fmap_compose. apply list_fmap_ext.
      done.
    + rewrite orb_assoc. f_equal. clear IH. induction es as [|e' es IH]; [done|]. cbn [existsb].
      f_equal; [|done]. assert (Hx : forall devs, existsb (fun d => entry_for (dp_device_index d) e') devs =
        existsb (fun i => entry_for i e') (dp_device_index <$> devs))
        by (intros devs; induction devs as [|x devs IHd]; [done|]; cbn [existsb fmap list_fmap]; by f_equal).
      by rewrite !Hx, Hidx.
Qed.

(** *** A repeated report *)

(** Folding conditional assignments of one field twice: the last one wins anyway. *)
Lemma assign_twice {V} (assign : json -> option V) es (v : V) :
  let run := fold_left (fun v e => default v (assign e)) es in run (run v) = run v.
Proof.
  cbn zeta. revert v. induction es as [|e es IH] using rev_ind; intros v; [done|].
  rewrite !fold_left_app. cbn [fold_left]. by destruct (assign e); cbn [default].
Qed.

Definition assigned {V} (di : Z) (f : json -> option V) (e : json) : option V :=
  if entry_for di e then f e else None.

Definition set_address (e : json) : option string :=
  let addr := obj_str e "address" MS_PATH "" in if addr =?s "" then None else Some addr.
Definition set_port (e : json) : option Z :=
  let udp := obj_long e "udpPort" (-1) in if 0 <=? udp then Some (int32 udp) else None.
Definition set_online (e : json) : option bool :=
  let online := obj_long e "online" (-1) in if 0 <=? online then Some (negb (online =? 0)) else None.

Lemma entry_fields e d :
  let v {V} (f : json -> option V) old := default old (assigned (dp_device_index d) f e) in
  (if entry_for (dp_device_index d) e then report_into e d else d) =
  dev_with_runtime d (v set_address (dp_runtime_address d)) (v set_port (dp_runtime_udp_port d))
    (v (fun _ => Some true) (dp_runtime_bound d)) (v set_online (dp_online d)).
Proof.
  cbn zeta. unfold assigned, set_address, set_port, set_online.
  destruct (entry_for (dp_device_index d) e); [|by destruct d]. unfold report_into. cbn zeta.
  by destruct (obj_str e "address" MS_PATH "" =?s ""), (0 <=? obj_long e "udpPort" (-1)),
    (0 <=? obj_long e "online" (-1)).
Qed.

Lemma reported_fields es d :
  let run {V} (f : json -> option V) v :=
    fold_left (fun v e => default v (assigned (dp_device_index d) f e)) es v in
  reported es d = dev_with_runtime d (run set_address (dp_runtime_address d))
    (run set_port (dp_runtime_udp_port d)) (run (fun _ => Some true) (dp_runtime_bound d))
    (run set_online (dp_online d)).
Proof.
  intros run. subst run. unfold reported. revert d.
  induction es as [|e es IH]; intros d; cbn [fold_left]; [by destruct d|].
  by rewrite IH, entry_fields.
Qed.

Lemma reported_idemp es d : reported es (reported es d) = reported es d.
Proof.
  rewrite (reported_fields es (reported es d)), (reported_fields es d). cbn.
  by rewrite !assign_twice.
Qed.

(** *** What a request may change *)

Definition pf_after (pf : ms_profile_t) (req : string) : ms_profile_t :=
  fst (fst (handle_request json_loads pf req)).
Definition published (pf : ms_profile_t) (req : string) : list string :=
  snd (fst (handle_request json_loads pf req)).

(** The request is a report, and these are its module and its entries. *)
Definition is_report (pf : ms_profile_t) (req : string) (root : json) (m : ms_module_t) : Prop :=
  json_loads req = Some root /\ obj_str root "cmd" MAX_CMD_SIZE "" = "report" /\
  0 <= obj_long root "moduleRefIndex" (-1) /\
  find_module pf (obj_str root "moduleType" MAX_CMD_SIZE "") (obj_long root "moduleRefIndex" (-1)) = Some m.

Lemma handle_request_report pf req root m :
  is_report pf req root m ->
  let st := fold_left report_entry (json_items root "devices") (m, false) in
  handle_request json_loads pf req =
    (update_first (is_module (obj_str root "moduleType" MAX_CMD_SIZE "")
                     (obj_long root "moduleRefIndex" (-1))) (fun _ => fst st) pf,
     if snd st then [publish_slice (fst st)] else [], dq "{'ok':1}").
Proof.
  intros (Hr & Hc & Hi & Hf) st. unfold handle_request. rewrite Hr. cbn zeta. rewrite Hc.
  cbn [String.eqb]. rewrite (proj2 (Z.ltb_ge _ 0)) by done. rewrite Hf.
  change ("report" =?s "modules") with false. change ("report" =?s "query") with false.
  change ("report" =?s "report") with true. subst st. by destruct (fold_left _ _ _).
Qed.

(** Every other request leaves the registry alone and publishes nothing. *)
Lemma handle_request_cases pf req :
  (pf_after pf req = pf /\ published pf req = []) \/ exists root m, is_report pf req root m.
Proof.
  unfold pf_after, published. destruct (json_loads req) as [root|] eqn:Er.
  2: { left. unfold handle_request. by rewrite Er. }
  destruct (decide (obj_str root "cmd" MAX_CMD_SIZE "" = "report")) as [Hc|Hc].
  - destruct (obj_long root "moduleRefIndex" (-1) <? 0) eqn:Ei.
    { left. unfold handle_request. rewrite Er. cbn zeta. rewrite Ei. by destruct (_ =?s "modules"). }
    destruct (find_module pf (obj_str root "moduleType" MAX_CMD_SIZE "")
                (obj_long root "moduleRefIndex" (-1))) as [m|] eqn:Em.
    + right. exists root, m. bool_hyps. by repeat split.
    + left. unfold handle_request. rewrite Er. cbn zeta. rewrite Ei, Em. by destruct (_ =?s "modules").
  - left. unfold handle_request. rewrite Er. cbn zeta. apply String.eqb_neq in Hc. rewrite Hc.
    destruct (_ =?s "modules"); [done|]. destruct (_ <? 0); [done|]. destruct (find_module _ _ _); [|done].
    by destruct (_ =?s "query").
Qed.

(** The product profile is read-only: whatever requests arrive, the declared part
    of every module and device, and their order, stay what the profile said. *)
Theorem requests_keep_profile pf reqs :
  declared_module <$> fst (handle_requests json_loads pf reqs) = declared_module <$> pf.
Proof.
  assert (Hstep : forall pf req, declared_module <$> pf_after pf req = declared_module <$> pf).
  { clear. intros pf req. destruct (handle_request_cases pf req) as [[-> _]|(root & m & Hr)]; [done|].
    unfold pf_after. rewrite (handle_request_report pf req root m Hr). cbn [fst].
    destruct Hr as (_ & _ & _ & Hf). unfold find_module in Hf.
    destruct (update_first_split _ (fun _ => fst (fold_left report_entry (json_items root "devices") (m, false)))
      pf m Hf) as (l1 & l2 & -> & _ & _ & ->).
    rewrite !fmap_app. cbn [fmap list_fmap]. by rewrite report_entries_declared. }
  unfold handle_requests. generalize (@nil string). revert pf.
  induction reqs as [|req reqs IH]; intros pf pub; [done|]. cbn [fold_left fst snd].
  specialize (Hstep pf req). unfold pf_after in Hstep.
  destruct (handle_request json_loads pf req) as [[pf' pub'] reply]. rewrite IH. exact Hstep.
Qed.

(** C23: a report reaches exactly the devices it names: in the module that the pair of
    type and index identifies, a device takes, in order, the facts of the entries with
    its index, and keeps what they omit; every other module and device stays as it
    was. The module's slice is published once, exactly when an entry named a device. *)
Theorem report_updates_named_devices pf req root m :
  is_report pf req root m -> NoDup (dp_device_index <$> mm_devs m) ->
  let es := json_items root "devices" in
  let m' := mod_with_devs m (reported es <$> mm_devs m) in
  exists l1 l2, pf = l1 ++ m :: l2 /\
    (forall x, x ∈ l1 -> is_module (obj_str root "moduleType" MAX_CMD_SIZE "")
                           (obj_long root "moduleRefIndex" (-1)) x = false) /\
    handle_request json_loads pf req =
      (l1 ++ m' :: l2,
       if existsb (fun e => existsb (fun d => entry_for (dp_device_index d) e) (mm_devs m)) es
       then [publish_slice m'] else [],
       dq "{'ok':1}").
Proof.
  intros Hr Hn es m'. rewrite (handle_request_report pf req root m Hr).
  fold es. rewrite report_entries_nodup by done. cbn [fst snd orb]. fold m'.
  destruct Hr as (_ & _ & _ & Hf).
  destruct (update_first_split _ (fun _ => m') pf m Hf) as (l1 & l2 & -> & H1 & _ & ->). by exists l1, l2.
Qed.

(** A report is idempotent: a module that repeats one, for want of a reply,
    leaves the registry as the first one did. *)
Theorem report_idempotent pf req root m :
  is_report pf req root m -> NoDup (dp_device_index <$> mm_devs m) ->
  pf_after (pf_after pf req) req = pf_after pf req.
Proof.
  intros Hr Hn. set (es := json_items root "devices").
  set (m' := mod_with_devs m (reported es <$> mm_devs m)).
  assert (Hpf : forall pf0 m0, is_report pf0 req root m0 -> NoDup (dp_device_index <$> mm_devs m0) ->
    pf_after pf0 req = update_first (is_module (obj_str root "moduleType" MAX_CMD_SIZE "")
      (obj_long root "moduleRefIndex" (-1))) (fun _ => mod_with_devs m0 (reported es <$> mm_devs m0)) pf0).
  { intros pf0 m0 Hr0 Hn0. unfold pf_after. rewrite (handle_request_report pf0 req root m0 Hr0).
    fold es. by rewrite report_entries_nodup. }
  rewrite (Hpf pf m Hr Hn). fold m'. destruct Hr as (Hj & Hc & Hi & Hf).
  destruct (update_first_split _ (fun _ => m') pf m Hf) as (l1 & l2 & Hpfe & H1 & Hm & ->).
  assert (Hm' : is_module (obj_str root "moduleType" MAX_CMD_SIZE "")
    (obj_long root "moduleRefIndex" (-1)) m' = true) by done.
  assert (Hf' : find_module (l1 ++ m' :: l2) (obj_str root "moduleType" MAX_CMD_SIZE "")
    (obj_long root "moduleRefIndex" (-1)) = Some m') by (by apply find_first_split).
  rewrite (Hpf (l1 ++ m' :: l2) m').
  - eapply update_first_same; [exact Hf'|]. unfold m' at 1 2. unfold mod_with_devs. simpl. f_equal.
    rewrite <- list_fmap_compose. apply list_fmap_ext. intros i d _. apply reported_idemp.
  - done.
  - cbn [m' mod_with_devs mm_devs]. rewrite <- list_fmap_compose.
    replace ((dp_device_index ∘ reported es) <$> mm_devs m) with (dp_device_index <$> mm_devs m); [done|].
    apply list_fmap_ext. intros i d _. simpl. by rewrite reported_fields.
Qed.

(** No silent change: a request that changes the registry publishes the slice of
    the module it changed, as that module now stands; every request publishes at most
    one. *)
Theorem changes_are_published pf req :
  (published pf req = [] -> pf_after pf req = pf) /\
  (published pf req <> [] -> exists m, m ∈ pf_after pf req /\ published pf req = [publish_slice m]).
Proof.
  destruct (handle_request_cases pf req) as [[Hp ->]|(root & m & Hr)]; [done|].
  unfold pf_after, published. rewrite (handle_request_report pf req root m Hr). cbn [fst snd].
  destruct Hr as (_ & _ & _ & Hf). unfold find_module in Hf.
  assert (Hsame : forall es st, snd (fold_left report_entry es st) = false ->
    fold_left report_entry es st = st).
  { clear. intros es st. revert st. induction es as [|e es IH]; intros st H; [done|]. cbn [fold_left] in *.
    pose proof (IH _ H) as He. rewrite He in H |- *. destruct st as [m c]. unfold report_entry in *.
    destruct (json_is_object e); cbn [negb] in *; [|done]. by destruct (find_device m _). }
  destruct (snd (fold_left report_entry (json_items root "devices") (m, false))) eqn:Ec.
  - split; [done|]. intros _. eexists. split; [|reflexivity].
    destruct (update_first_split _ (fun _ => fst (fold_left report_entry (json_items root "devices") (m, false)))
      pf m Hf) as (l1 & l2 & _ & _ & _ & ->). apply elem_of_app. right. by left.
  - split; [|done]. intros _. rewrite (Hsame _ _ Ec). cbn [fst]. by eapply update_first_same.
Qed.
End requests.

(** ** A profile *)

Definition ex_bulb : ms_devprofile_t :=
  mk_devprofile 2 7 "light" "WiZ A60" "" [mk_ms_object "/lx/ob/uo/li/ll/da/cv" "rw"] "" 0 false false.

(** The identification service and an interface module share the index 1. *)
Definition ex_module : ms_module_t := mk_ms_module "hi" 1 "" "wifi" [ex_bulb].
Definition ex_profile : ms_profile_t := [mk_ms_module "sm" 1 "id" "" []; ex_module].

Definition ex_report : json :=
  JObject [("cmd", JString "report"); ("moduleType", JString "hi"); ("moduleRefIndex", JInteger 1);
           ("devices", JArray [JObject [("deviceIndex", JInteger 2); ("address", JString "10.0.0.7");
                                        ("online", JInteger 1)];
                               JObject [("deviceIndex", JInteger 9); ("online", JInteger 1)]])].

Definition ex_loads (s : string) : option json := if s =?s "R" then Some ex_report else None.

Lemma ex_is_report : @is_report indefinite_target ex_loads ex_profile "R" ex_report ex_module.
Proof. by vm_compute. Qed.

Lemma report_updates_named_devices_witness :
  NoDup (dp_device_index <$> mm_devs ex_module) /\
  exists l1 l2, ex_profile = l1 ++ ex_module :: l2 /\
    @handle_request indefinite_target ex_loads ex_profile "R" =
      (l1 ++ mod_with_devs ex_module [dev_with_runtime ex_bulb "10.0.0.7" 0 true true] :: l2,
       [publish_slice (mod_with_devs ex_module [dev_with_runtime ex_bulb "10.0.0.7" 0 true true])],
       dq "{'ok':1}").
Proof.
  assert (Hn : NoDup (dp_device_index <$> mm_devs ex_module)) by (apply NoDup_singleton).
  split; [exact Hn|].
  destruct (@report_updates_named_devices indefinite_target ex_loads ex_profile "R" ex_report ex_module
    ex_is_report Hn) as (l1 & l2 & H1 & _ & H2).
  exists l1, l2. split; [exact H1|]. rewrite H2. reflexivity.
Defined.

Lemma report_idempotent_witness :
  @pf_after indefinite_target ex_loads (@pf_after indefinite_target ex_loads ex_profile "R") "R" =
  @pf_after indefinite_target ex_loads ex_profile "R" /\
  @pf_after indefinite_target ex_loads ex_profile "R" <> ex_profile.
Proof.
  split; [|by vm_compute]. apply (@report_idempotent indefinite_target ex_loads ex_profile "R" ex_report ex_module).
  - exact ex_is_report.
  - apply NoDup_singleton.
Defined.
