(* ===== verification/DmText.v ===== *)
(** * The texts of the manifest service

    The documents that src/src/dm/dm.c and src/src/common/hes_mreg.c exchange, and that what
    their renderers write is the text of the document: of a slice, of the module list and of a
    query, as long as the strings of the profile are plain (dm.c escapes nothing). *)

From S2P Require Import Prelude CLib HesCommon Json JsonText Devreg Mreg Dm.

(** ** The documents *)

Definition query_members (h : hes_mreg_t) : list (string * json) :=
  [("cmd", JString "query"); ("moduleType", JString (mr_module_type h));
   ("moduleRefIndex", JInteger (mr_module_ref_index h))].

Definition query_doc (h : hes_mreg_t) : json := JObject (query_members h).

Definition object_doc (o : ms_object_t) : json :=
  JObject [("lexiconPath", JString (mo_path o)); ("access", JString (mo_access o))].

Definition device_doc (m : ms_module_t) (d : ms_devprofile_t) : json :=
  JObject [("deviceIndex", JInteger (dp_device_index d)); ("netRefIndex", JInteger (dp_net_ref_index d));
           ("deviceRole", JString (dp_role d)); ("expectedHardware", JString (dp_expected_hardware d));
           ("networkType", JString (device_network m d)); ("address", JString (dp_runtime_address d));
           ("udpPort", JInteger (dp_runtime_udp_port d)); ("status", JString (device_status d));
           ("objects", JArray (object_doc <$> dp_objects d))].

Definition slice_members (m : ms_module_t) : list (string * json) :=
  [("gatewayId", JString "HES-GW-2026-99A1"); ("moduleType", JString (mm_module_type m));
   ("moduleRefIndex", JInteger (mm_module_ref_index m));
   ("networkType", JString (mm_network_type m));
   ("devices", JArray (device_doc m <$> mm_devs m))].

Definition slice_doc (m : ms_module_t) : json := JObject (slice_members m).

Definition module_doc (m : ms_module_t) : json :=
  JObject [("moduleType", JString (mm_module_type m));
           ("moduleRefIndex", JInteger (mm_module_ref_index m));
           ("serviceModuleType", JString (mm_service_module_type m));
           ("present", JInteger (if module_present m then 1 else 0))].

Definition modules_members (pf : ms_profile_t) : list (string * json) :=
  [("modules", JArray (module_doc <$> pf))].

Definition modules_doc (pf : ms_profile_t) : json := JObject (modules_members pf).

(** None is nested deeply. *)
Ltac shallow := repeat first
  [ apply Forall_nil_2 | apply Forall_cons_2; cbn [snd] | progress cbn [json_depth]; lia
  | apply depth_object | apply depth_array | apply Forall_fmap, Forall_true; intros; cbn [compose] ].

Lemma query_depth h : (json_depth (query_doc h) <= JSON_PARSER_MAX_DEPTH)%nat.
Proof. transitivity 2%nat; [shallow|unfold JSON_PARSER_MAX_DEPTH; lia]. Qed.

Lemma slice_depth m : (json_depth (slice_doc m) <= JSON_PARSER_MAX_DEPTH)%nat.
Proof. transitivity 6%nat; [unfold slice_doc, slice_members, device_doc, object_doc; shallow|unfold JSON_PARSER_MAX_DEPTH; lia]. Qed.

Lemma modules_depth pf : (json_depth (modules_doc pf) <= JSON_PARSER_MAX_DEPTH)%nat.
Proof. transitivity 4%nat; [unfold modules_doc, modules_members, module_doc; shallow|unfold JSON_PARSER_MAX_DEPTH; lia]. Qed.

(** ** Plain profiles *)

Record plain_device (d : ms_devprofile_t) : Prop := {
  pd_role : plain (dp_role d);
  pd_hardware : plain (dp_expected_hardware d);
  pd_network : plain (dp_network_type d);
  pd_address : plain (dp_runtime_address d);
  pd_objects : Forall (fun o => plain (mo_path o) /\ plain (mo_access o)) (dp_objects d);
  pd_integers : is_long_integer (dp_device_index d) /\ is_long_integer (dp_net_ref_index d) /\
    is_long_integer (dp_runtime_udp_port d);
}.

Record plain_module (m : ms_module_t) : Prop := {
  pm_type : plain (mm_module_type m);
  pm_service : plain (mm_service_module_type m);
  pm_network : plain (mm_network_type m);
  pm_index : is_long_integer (mm_module_ref_index m);
  pm_devices : Forall plain_device (mm_devs m);
}.

(** ** Writing texts *)

Lemma value_cong j t t' : t = t' -> value_text j t -> value_text j t'.
Proof. by intros ->. Qed.

Lemma ws_app a b : ws a -> ws b -> ws (a ++ b).
Proof.
  unfold ws. induction a as [|c a IH]; [done|]. cbn [String.append str_forallb].
  intros [-> Ha]%andb_prop Hb. by apply IH.
Qed.

(** A member on a line of its own: [w] before the key, a space behind the colon. *)
Lemma line_one w k j t w4 : ws w -> ws w4 -> plain k -> value_text j t ->
  members_text [(k, j)] (w ++ quote k ++ ": " ++ t ++ w4).
Proof. intros Hw Hw4 Hk Ht. by eapply (members_one w k "" " " j t w4). Qed.

Lemma line_more w k j t ms u : ws w -> plain k -> value_text j t -> members_text ms u ->
  members_text ((k, j) :: ms) (w ++ quote k ++ ": " ++ t ++ "," ++ u).
Proof. intros Hw Hk Ht Hu. by eapply (members_more w k "" " " j t "" ms u). Qed.

(** Two concatenations of the same pieces. *)
Ltac same_text :=
  unfold newline, quote, dq; rewrite ?str_app_assoc; cbn -[fmt_d];
  rewrite ?str_app_assoc; cbn -[fmt_d]; rewrite ?str_app_assoc; reflexivity.

Ltac distinct_keys := apply (bool_decide_unpack _); vm_compute; exact I.

Lemma items_behind w js t : ws w -> items_text js t -> items_text js (w ++ t).
Proof.
  intros Hw H. destruct H as [w1 j t w3 H1 H3 Ht|w1 j t w3 js u H1 H3 Ht Hu]; rewrite <- str_app_assoc.
  - apply items_one; [by apply ws_app|done|done].
  - apply items_more; [by apply ws_app|done..].
Qed.

(** The rows of a comma-separated list. *)
Lemma joined_items {T} (doc : T -> json) (text : T -> string) (w : string) l w2 :
  ws w -> ws w2 -> Forall (fun x => exists t, value_text (doc x) t /\ text x = (w ++ t)%string) l -> l <> [] ->
  items_text (doc <$> l) (newline ++ comma_separated (text <$> l) ++ w2).
Proof.
  intros Hw Hw2 Hall Hne. unfold comma_separated. induction Hall as [|x l (t & Ht & Hx) Hall IH]; [done|]. clear Hne.
  assert (Hnl : ws (newline ++ w)) by (by apply ws_app).
  destruct l as [|y l]; cbn [fmap list_fmap].
  - cbn [str_join]. rewrite Hx. replace (newline ++ (w ++ t) ++ w2)%string with ((newline ++ w) ++ t ++ w2)%string
      by (by rewrite !str_app_assoc). by apply items_one.
  - rewrite str_join_cons, Hx. specialize (IH ltac:(done)). cbn [fmap list_fmap] in IH.
    replace (newline ++ _ ++ w2)%string
      with ((newline ++ w) ++ t ++ "" ++ "," ++ (newline ++ str_join ("," ++ newline) (text y :: (text <$> l)) ++ w2))%string
      by (rewrite !str_app_assoc; reflexivity).
    by apply items_more.
Qed.

Lemma joined_array {T} (doc : T -> json) (text : T -> string) w l w2 :
  ws w -> ws w2 -> Forall (fun x => exists t, value_text (doc x) t /\ text x = (w ++ t)%string) l ->
  value_text (JArray (doc <$> l)) ("[" ++ (newline ++ comma_separated (text <$> l) ++ w2) ++ "]").
Proof.
  intros Hw Hw2 Hall. destruct l as [|x l].
  - cbn [fmap list_fmap]. apply text_empty_array. by apply ws_app.
  - apply text_array. by apply joined_items with (w := w).
Qed.

(** ** What the renderers write *)

Lemma query_text h : plain (mr_module_type h) -> is_long_integer (mr_module_ref_index h) ->
  (String.length (mr_module_type h) < 8)%nat -> json_text (query_members h) (query_request h).
Proof.
  intros Ht Hi Hl. exists "". eexists. exists "". split; [done|]. split; [done|]. split.
  - apply text_object; [distinct_keys|].
    eapply (members_more "" "cmd" "" "" _ _ ""); [done..|by constructor|].
    eapply (members_more "" "moduleType" "" "" _ _ ""); [done..|by constructor|].
    eapply (members_one "" "moduleRefIndex" "" "" _ _ ""); [done..|by constructor].
  - unfold query_request. rewrite str_take_ge.
    + same_text.
    + unfold is_long_integer in Hi. pose proof (length_fmt_long (mr_module_ref_index h) ltac:(unfold LONG_MIN, LONG_MAX; lia)).
      unfold HES_MREG_REQ_MAX. rewrite !length_str_app, !length_dq. cbn [String.length]. lia.
Qed.

Lemma object_value o : plain (mo_path o) -> plain (mo_access o) ->
  value_text (object_doc o)
    ("{" ++ " " ++ quote "lexiconPath" ++ ": " ++ quote (mo_path o) ++ ", " ++ quote "access" ++ ": " ++ quote (mo_access o) ++ " }").
Proof.
  intros Hp Ha. eapply value_cong; [|apply text_object; [distinct_keys|
    eapply (line_more " " "lexiconPath"); [done|done|by constructor|
    eapply (line_one " " "access" _ _ " "); [done|done|done|by constructor]]]]. same_text.
Qed.

(** The rows of the objects come with their own commas and line ends. *)
Lemma objects_items os w2 : ws w2 -> Forall (fun o => plain (mo_path o) /\ plain (mo_access o)) os -> os <> [] ->
  items_text (object_doc <$> os) (newline ++ objects_text os ++ w2).
Proof.
  intros Hw2 Hall Hne. apply items_behind; [done|].
  induction Hall as [|o os [Hp Ha] Hall IH]; [done|]. clear Hne. pose proof (object_value o Hp Ha) as Ho.
  set (text := ("{" ++ _)%string) in Ho. destruct os as [|o2 os]; cbn [fmap list_fmap].
  - replace (objects_text [o] ++ w2)%string with ("        " ++ text ++ (newline ++ w2))%string
      by (unfold text; cbn [objects_text]; unfold object_text; same_text).
    apply items_one; [done|by apply ws_app|done].
  - specialize (IH ltac:(done)).
    replace (objects_text (o :: o2 :: os) ++ w2)%string
      with ("        " ++ text ++ "" ++ "," ++ (newline ++ (objects_text (o2 :: os) ++ w2)))%string.
    2: { change (objects_text (o :: o2 :: os)) with (object_text false o ++ objects_text (o2 :: os))%string.
         generalize (objects_text (o2 :: os)). intros rest. unfold text, object_text. same_text. }
    apply items_more; [done..|]. by apply items_behind.
Qed.

Lemma objects_array os w2 : ws w2 -> Forall (fun o => plain (mo_path o) /\ plain (mo_access o)) os ->
  value_text (JArray (object_doc <$> os)) ("[" ++ (newline ++ objects_text os ++ w2) ++ "]").
Proof.
  intros Hw Hall. destruct os as [|o os].
  - apply text_empty_array. by apply ws_app.
  - apply text_array. by apply objects_items.
Qed.

Lemma plain_status d : plain (device_status d).
Proof. unfold device_status. by destruct (dp_runtime_bound d), (dp_online d). Qed.

Lemma device_value m d : plain_module m -> plain_device d ->
  exists t, value_text (device_doc m d) t /\ device_text m d = ("    " ++ t)%string.
Proof.
  intros Hm [Hr Hh Hn Ha Ho (Hi1 & Hi2 & Hi3)].
  assert (Hnet : plain (device_network m d)) by (unfold device_network; destruct (_ =?s ""); [apply Hm|done]).
  eexists. split.
  - apply text_object; [distinct_keys|].
    eapply (line_more (newline ++ "      ") "deviceIndex"); [done|done|by constructor|].
    eapply (line_more (newline ++ "      ") "netRefIndex"); [done|done|by constructor|].
    eapply (line_more (newline ++ "      ") "deviceRole"); [done|done|by constructor|].
    eapply (line_more (newline ++ "      ") "expectedHardware"); [done|done|by constructor|].
    eapply (line_more (newline ++ "      ") "networkType"); [done|done|by constructor|].
    eapply (line_more (newline ++ "      ") "address"); [done|done|by constructor|].
    eapply (line_more (newline ++ "      ") "udpPort"); [done|done|by constructor|].
    eapply (line_more (newline ++ "      ") "status"); [done|done|constructor; apply plain_status|].
    eapply (line_one (newline ++ "      ") "objects" _ _ (newline ++ "    ")); [done|done|done|].
    by apply (objects_array (dp_objects d) "      ").
  - unfold device_text. same_text.
Qed.

Lemma slice_text m : plain_module m -> json_text (slice_members m) (build_slice m).
Proof.
  intros Hm. pose proof Hm as [Ht Hs Hn Hi Hd]. exists "". eexists. exists newline. split; [done|]. split; [done|]. split.
  - apply text_object; [distinct_keys|].
    eapply (line_more (newline ++ "  ") "gatewayId"); [done|done|by constructor|].
    eapply (line_more (newline ++ "  ") "moduleType"); [done|done|by constructor|].
    eapply (line_more (newline ++ "  ") "moduleRefIndex"); [done|done|by constructor|].
    eapply (line_more (newline ++ "  ") "networkType"); [done|done|by constructor|].
    eapply (line_one (newline ++ "  ") "devices" _ _ newline); [done|done|done|].
    apply (joined_array (device_doc m) (device_text m) "    " (mm_devs m) (newline ++ "  ")); [done|done|].
    eapply Forall_impl; [exact Hd|]. intros d Hpd. by apply device_value.
  - unfold build_slice. same_text.
Qed.

Lemma module_value m : plain_module m -> exists t, value_text (module_doc m) t /\ module_text m = ("    " ++ t)%string.
Proof.
  intros [Ht Hs Hn Hi Hd]. eexists. split.
  - apply text_object; [distinct_keys|].
    eapply (line_more (newline ++ "      ") "moduleType"); [done|done|by constructor|].
    eapply (line_more (newline ++ "      ") "moduleRefIndex"); [done|done|by constructor|].
    eapply (line_more (newline ++ "      ") "serviceModuleType"); [done|done|by constructor|].
    eapply (line_one (newline ++ "      ") "present" _ _ (newline ++ "    ")); [done|done|done|].
    constructor. unfold is_long_integer. destruct (module_present m); lia.
  - unfold module_text. destruct (module_present m); same_text.
Qed.

Lemma modules_text pf : Forall plain_module pf -> json_text (modules_members pf) (build_modules_list pf).
Proof.
  intros Hpf. exists "". eexists. exists newline. split; [done|]. split; [done|]. split.
  - apply text_object; [distinct_keys|].
    eapply (line_one (newline ++ "  ") "modules" _ _ newline); [done|done|done|].
    apply (joined_array module_doc module_text "    " pf (newline ++ "  ")); [done|done|].
    eapply Forall_impl; [exact Hpf|]. intros m Hm. by apply module_value.
  - unfold build_modules_list. same_text.
Qed.

(** A plain text has no terminator inside. *)
Lemma plain_no_nul s : plain s -> has_char Ascii.zero s = false.
Proof.
  unfold plain, has_char. induction s as [|c s IH]; [done|]. cbn [str_forallb strchr]. intros [Hc Hs]%andb_prop.
  destruct (Ascii.eqb c Ascii.zero) eqn:E; [|by apply IH]. apply Ascii.eqb_eq in E. by subst c.
Qed.

Lemma ws_no_nul s : ws s -> has_char Ascii.zero s = false.
Proof.
  unfold ws, has_char. induction s as [|c s IH]; [done|]. cbn [str_forallb strchr]. intros [Hc Hs]%andb_prop.
  destruct (Ascii.eqb c Ascii.zero) eqn:E; [|by apply IH]. apply Ascii.eqb_eq in E. by subst c.
Qed.

Lemma number_no_nul z : has_char Ascii.zero (fmt_d z) = false.
Proof.
  pose proof (fmt_d_number_chars z) as H. revert H. unfold has_char. induction (fmt_d z) as [|c s IH]; [done|].
  cbn [str_forallb strchr]. intros [Hc Hs]%andb_prop.
  destruct (Ascii.eqb c Ascii.zero) eqn:E; [|by apply IH]. apply Ascii.eqb_eq in E. by subst c.
Qed.

Lemma quote_no_nul s : plain s -> has_char Ascii.zero (quote s) = false.
Proof.
  intros Hs. change (quote s) with (String (chr 34) "" ++ s ++ String (chr 34) "")%string.
  rewrite !has_char_app. rewrite (plain_no_nul s Hs). reflexivity.
Qed.

Lemma texts_no_nul :
  (forall j t, value_text j t -> has_char Ascii.zero t = false) /\
  (forall js t, items_text js t -> has_char Ascii.zero t = false) /\
  (forall ms t, members_text ms t -> has_char Ascii.zero t = false).
Proof.
  apply json_text_mut; intros; rewrite ?has_char_app;
    repeat match goal with H : ws _ |- _ => apply ws_no_nul in H | H : plain _ |- _ => apply quote_no_nul in H end;
    repeat match goal with H : has_char _ _ = false |- _ => rewrite ?H; clear H end; try reflexivity.
  apply number_no_nul.
Qed.

Lemma json_text_no_nul ms s : json_text ms s -> has_char Ascii.zero s = false.
Proof.
  intros (w1 & t & w2 & H1 & H2 & Ht & ->). rewrite !has_char_app, (ws_no_nul w1 H1), (ws_no_nul w2 H2).
  destruct texts_no_nul as [H _]. by rewrite (H _ _ Ht).
Qed.
