(* ===== verification/ManifestFacts.v ===== *)
(** * The service and its clients together

    That the requests a client builds and the slices the service renders fit the
    buffers they go through, that a module's query yields the devices the profile
    declares for it with the presence last reported, and what the notification topic
    tells apart. *)

From S2P Require Import Prelude CLib HesCommon Json JsonText Devreg Mreg Dm DmFacts DmText.

(** Lengths of rendered texts: every piece of a concatenation on its own. *)
Ltac text_length :=
  repeat first [rewrite length_str_app | rewrite length_dq]; cbn [String.length].

(** ** The client's requests *)

Definition handle_fits (h : hes_mreg_t) : Prop :=
  (String.length (mr_module_type h) < 8)%nat /\ 0 <= mr_module_ref_index h < 2 ^ 32.

Lemma report_device_length i d : device_fits d -> (String.length (report_device i d) <= 174)%nat.
Proof.
  intros (Hi & Hn & Hu & _ & _ & _ & Ha & _). unfold report_device.
  pose proof (length_fmt_u32 _ Hi). pose proof (length_fmt_u32 _ Hn).
  pose proof (length_fmt_d 10 (hd_udp_port d) ltac:(lia) ltac:(lia)) as Hport.
  text_length. destruct (i =? 0)%nat, (hd_online d), (hd_udp_port d <? 0); cbn [String.length]; lia.
Qed.

Lemma report_devices_spec i ds buf off :
  Forall device_fits ds -> String.length buf = off -> (off + length ds * 174 < HES_MREG_REQ_MAX)%nat ->
  exists t, report_devices i ds buf off = ((buf ++ t)%string, (off + String.length t)%nat) /\
            t = foldr (fun d f i => (report_device i d ++ f (S i))%string) (fun _ => "") ds i /\
            (String.length t <= length ds * 174)%nat.
Proof.
  revert i buf off. induction ds as [|d ds IH]; intros i buf off Hf Hb Hoff; cbn [report_devices foldr].
  { exists "". rewrite str_app_nil_r. repeat split; simpl; try lia. f_equal. lia. }
  inversion Hf as [|? ? Hd Hds]; subst. pose proof (report_device_length i d Hd) as Hl. cbn [length] in *.
  rewrite (proj2 (Nat.ltb_lt _ _)) by lia. rewrite str_take_ge by lia.
  destruct (IH (S i) (buf ++ report_device i d)%string (String.length buf + String.length (report_device i d))%nat
    Hds) as (t & -> & Ht & Hlen).
  - apply length_str_app.
  - lia.
  - exists (report_device i d ++ t)%string. rewrite str_app_assoc, length_str_app, Ht.
    split; [f_equal; rewrite <- Ht; lia|]. split; [done|]. rewrite <- Ht. lia.
Qed.

(** The report of a full registry fits its request: whatever devices the module
    holds, the text is complete, shorter than the 8192-byte buffer, and the offset the
    code accumulates never passes its end. *)
Theorem report_request_complete (h : hes_mreg_t) (reg : hes_devreg_t) :
  handle_fits h -> devreg_fits reg ->
  exists text, report_request h reg = Some text /\
    text = (report_head h ++
            foldr (fun d f i => (report_device i d ++ f (S i))%string) (fun _ => "") (dr_devices reg) 0%nat ++
            "]}")%string /\
    (String.length text < HES_MREG_REQ_MAX)%nat.
Proof.
  intros [Ht Hi] [_ _ _ _ [Hn Hf]].
  assert (Hh : (String.length (report_head h) <= 100)%nat).
  { unfold report_head. pose proof (length_fmt_u32 _ Hi). text_length. lia. }
  assert (Hb : (100 + length (dr_devices reg) * 174 + 2 < HES_MREG_REQ_MAX)%nat).
  { unfold HES_MREG_REQ_MAX, HES_DEVREG_MAX_DEVICES in *. lia. }
  unfold report_request. rewrite str_take_ge by lia.
  destruct (report_devices_spec 0 (dr_devices reg) (report_head h) (String.length (report_head h)) Hf)
    as (t & -> & Het & Hlt); [done|lia|].
  rewrite (proj2 (Nat.ltb_ge _ _)) by lia. rewrite (str_take_ge _ "]}") by (cbn [String.length]; lia).
  eexists. split; [reflexivity|]. rewrite <- Het. split; [apply str_app_assoc|].
  rewrite !length_str_app. cbn [String.length]. lia.
Qed.

(** ** What the service holds and sends *)

Definition object_fits (o : ms_object_t) : Prop :=
  (String.length (mo_path o) < MS_PATH)%nat /\ (String.length (mo_access o) < 8)%nat.

Definition is_long (z : Z) : Prop := LONG_MIN <= z <= LONG_MAX.

Record devprofile_fits (d : ms_devprofile_t) : Prop := {
  df_indices : is_long (dp_device_index d) /\ is_long (dp_net_ref_index d);
  df_role : (String.length (dp_role d) < 64)%nat;
  df_hardware : (String.length (dp_expected_hardware d) < 96)%nat;
  df_network : (String.length (dp_network_type d) < 16)%nat;
  df_objects : (length (dp_objects d) <= MS_MAX_OBJECTS)%nat /\ Forall object_fits (dp_objects d);
  df_address : (String.length (dp_runtime_address d) < MS_PATH)%nat;
  df_port : - 2 ^ 31 <= dp_runtime_udp_port d < 2 ^ 31;
}.

Record ms_module_fits (m : ms_module_t) : Prop := {
  mf_type : (String.length (mm_module_type m) < 8)%nat;
  mf_index : is_long (mm_module_ref_index m);
  mf_service : (String.length (mm_service_module_type m) < 8)%nat;
  mf_network : (String.length (mm_network_type m) < 16)%nat;
  mf_devices : (length (mm_devs m) <= MS_MAX_DEVICES)%nat /\ Forall devprofile_fits (mm_devs m);
}.

Definition profile_fits (pf : ms_profile_t) : Prop :=
  (length pf <= MS_MAX_MODULES)%nat /\ Forall ms_module_fits pf.

Lemma objects_text_length os : Forall object_fits os -> (String.length (objects_text os) <= length os * 243)%nat.
Proof.
  induction 1 as [|o os [Hp Ha] _ IH]; [simpl; lia|]. cbn [objects_text length].
  unfold object_text, Dm.newline. unfold MS_PATH in Hp.
  text_length. destruct os; cbn [String.length] in *; lia.
Qed.

Lemma device_text_length m d :
  ms_module_fits m -> devprofile_fits d -> (String.length (device_text m d) <= 2700)%nat.
Proof.
  intros [_ _ _ Hmn _] [[Hi Hn] Hr Hh Hnt [Ho Hof] Ha Hp].
  pose proof (objects_text_length _ Hof) as Hobj. unfold MS_MAX_OBJECTS in Ho. unfold MS_PATH in Ha.
  pose proof (length_fmt_long _ Hi). pose proof (length_fmt_long _ Hn).
  pose proof (length_fmt_d 10 (dp_runtime_udp_port d) ltac:(lia) ltac:(lia)) as Hport.
  assert (Hnet : (String.length (device_network m d) < 16)%nat)
    by (unfold device_network; by destruct (_ =?s "")).
  assert (Hst : (String.length (device_status d) <= 7)%nat)
    by (unfold device_status; destruct (dp_runtime_bound d), (dp_online d); simpl; lia).
  unfold device_text, Dm.newline. text_length. destruct (dp_runtime_udp_port d <? 0); lia.
Qed.

Lemma comma_separated_length k texts :
  Forall (fun t => (String.length t <= k)%nat) texts ->
  (String.length (comma_separated texts) <= length texts * (k + 2))%nat.
Proof.
  unfold comma_separated, Dm.newline. induction 1 as [|t texts Ht _ IH]; [simpl; lia|].
  destruct texts as [|t' texts]; [cbn [str_join length]; lia|].
  rewrite str_join_cons. text_length. cbn [length] in *. lia.
Qed.

Lemma slice_length m : ms_module_fits m -> (String.length (build_slice m) <= Z.to_nat 43500)%nat.
Proof.
  intros Hm. pose proof Hm as [Ht Hi Hs Hn [Hd Hdf]].
  pose proof (length_fmt_long _ Hi).
  assert (Hds : (String.length (comma_separated (device_text m <$> mm_devs m)) <= 16 * 2702)%nat).
  { etransitivity; [apply (comma_separated_length 2700)|].
    - apply Forall_fmap. eapply Forall_impl; [exact Hdf|]. intros d Hdd. by apply device_text_length.
    - rewrite length_fmap. unfold MS_MAX_DEVICES in Hd. lia. }
  unfold build_slice, Dm.newline. text_length. lia.
Qed.

Lemma modules_list_length pf : profile_fits pf -> (String.length (build_modules_list pf) <= 2000)%nat.
Proof.
  intros [Hl Hf].
  assert (Hds : (String.length (comma_separated (module_text <$> pf)) <= 8 * 242)%nat).
  { etransitivity; [apply (comma_separated_length 240)|].
    - apply Forall_fmap. eapply Forall_impl; [exact Hf|]. intros m [Ht Hi Hs _ _]. cbn [compose].
      pose proof (length_fmt_long _ Hi). unfold module_text, Dm.newline. text_length.
      destruct (module_present m); cbn [String.length]; lia.
    - rewrite length_fmap. unfold MS_MAX_MODULES in Hl. lia. }
  unfold build_modules_list, Dm.newline. text_length. lia.
Qed.

Section service_bounds.
Context {target : Target} {target_ok : TargetOk target}.
Variable json_loads : string -> option json.

Lemma obj_str_fits o key cap : (0 < cap)%nat -> (String.length (obj_str o key cap "") < cap)%nat.
Proof.
  intros Hc. unfold obj_str, jobj_str. destruct (json_object_get (Some o) key) as [[]|]; simpl; try lia.
  by apply hes_strlcpy_fits.
Qed.

Lemma obj_long_fits o key def : is_long def -> is_long (obj_long o key def).
Proof.
  intros Hd. unfold obj_long, get_member_long.
  destruct (json_object_get (Some o) key) as [v|]; [|done]. destruct (json_number_value v); [|done].
  apply d_to_long_range.
Qed.

Lemma load_rows_Forall {T} (P : T -> Prop) max row l :
  (forall v, P (row v)) -> Forall P (load_rows max row l []).
Proof.
  intros H. rewrite load_rows_spec by (simpl; lia). apply Forall_take, Forall_fmap, Forall_true. done.
Qed.

Lemma load_profile_fits read_file path : profile_fits (fst (load_profile json_loads read_file path)).
Proof.
  assert (H0 : is_long 0) by (unfold is_long, LONG_MIN, LONG_MAX; lia).
  assert (Hnil : profile_fits []) by (split; [simpl; lia|constructor]).
  unfold load_profile. destruct (read_file path); [|done]. destruct (json_loads s) as [root|]; [|done].
  destruct (json_object_get (Some root) "modules") as [[]|]; try done. simpl.
  split; [apply load_rows_length|]. apply load_rows_Forall. intros mo.
  constructor; simpl; try (apply obj_str_fits; lia); [by apply obj_long_fits|].
  split; [apply load_rows_length|]. apply load_rows_Forall. intros dp.
  constructor; simpl; try (apply obj_str_fits; lia); try (unfold MS_PATH; lia).
  - split; by apply obj_long_fits.
  - split; [apply load_rows_length|]. apply load_rows_Forall. intros ob.
    split; apply obj_str_fits; unfold MS_PATH; lia.
Qed.

Lemma report_into_fits e d : devprofile_fits d -> devprofile_fits (report_into e d).
Proof.
  intros [? ? ? ? ? ? ?]. constructor; simpl; try done.
  - destruct (_ =?s ""); [done|]. apply obj_str_fits. unfold MS_PATH. lia.
  - destruct (0 <=? _); [|done]. apply (wrap_s_range 32). lia.
Qed.

Lemma update_first_Forall {T} (P : T -> Prop) p f l :
  Forall P l -> (forall x, P x -> P (f x)) -> Forall P (update_first p f l).
Proof.
  intros Hl Hf. induction Hl as [|x l Hx Hl IH]; simpl; [constructor|].
  destruct (p x); constructor; auto.
Qed.

Lemma length_update_first {T} p (f : T -> T) l : length (update_first p f l) = length l.
Proof. induction l as [|x l IH]; simpl; [done|]. destruct (p x); simpl; congruence. Qed.

Lemma report_entries_fit es st :
  ms_module_fits (fst st) -> ms_module_fits (fst (fold_left report_entry es st)).
Proof.
  revert st. induction es as [|e es IH]; intros [m c] Hm; [done|]. cbn [fold_left]. apply IH.
  unfold report_entry. destruct (json_is_object e); cbn [negb]; [|done].
  destruct (find_device m _); [|done]. destruct Hm as [? ? ? ? [Hl Hd]]. constructor; simpl; try done.
  rewrite length_update_first. split; [done|]. apply update_first_Forall; [done|].
  intros x. apply report_into_fits.
Qed.

Lemma handle_request_fits pf req : profile_fits pf -> profile_fits (pf_after json_loads pf req).
Proof.
  intros Hpf. destruct (handle_request_cases json_loads pf req) as [[-> _]|(root & m & Hr)]; [done|].
  unfold pf_after. rewrite (handle_request_report json_loads pf req root m Hr). cbn [fst].
  destruct Hpf as [Hl Hf]. split; [by rewrite length_update_first|].
  destruct Hr as (_ & _ & _ & Hfm). apply find_first_Some in Hfm as [Hin _].
  apply update_first_Forall; [done|]. intros _ _. apply report_entries_fit. simpl.
  rewrite Forall_forall in Hf. by apply Hf.
Qed.

Lemma error_reply_length pf req :
  profile_fits pf -> (String.length (snd (handle_request json_loads pf req)) <= Z.to_nat 43500)%nat.
Proof.
  intros Hpf. unfold handle_request. destruct (json_loads req) as [root|]; [|cbn [snd]; text_length; lia]. cbn zeta.
  destruct (_ =?s "modules"); [pose proof (modules_list_length pf Hpf); cbn [snd]; lia|].
  destruct (_ <? 0); [simpl; lia|].
  destruct (find_module pf _ _) as [m|] eqn:Em.
  - destruct (_ =?s "query").
    { apply find_first_Some in Em as [Hin _]. apply slice_length. destruct Hpf as [_ Hf].
      rewrite Forall_forall in Hf. by apply Hf. }
    destruct (_ =?s "report"); [|cbn [snd]; text_length; lia]. destruct (fold_left _ _ _). cbn [snd]. text_length. lia.
  - cbn [snd]. unfold no_module_text, MAX_ERR_MSG_SIZE. rewrite length_str_take. lia.
Qed.

(** Replies to a report are short. *)
Lemma report_reply_length pf req root :
  json_loads req = Some root -> obj_str root "cmd" MAX_CMD_SIZE "" = "report" ->
  (String.length (snd (handle_request json_loads pf req)) < HES_MREG_REPORT_REPLY_MAX)%nat.
Proof.
  intros Hr Hc. unfold handle_request, HES_MREG_REPORT_REPLY_MAX. rewrite Hr, Hc. cbn zeta. cbn [String.eqb Ascii.eqb Bool.eqb].
  destruct (_ <? 0); [cbn [snd]; text_length; lia|]. destruct (find_module pf _ _) as [m|].
  - destruct (fold_left _ _ _). cbn [snd]. text_length. lia.
  - cbn [snd]. unfold no_module_text, MAX_ERR_MSG_SIZE. rewrite length_str_take. lia.
Qed.

(** The messages the service receives, one after the other. *)
Fixpoint service_messages (pf : ms_profile_t) (msgs : list string) : option ms_profile_t :=
  match msgs with
  | [] => Some pf
  | msg :: msgs =>
      let* (pf, _, _) := service_message json_loads pf msg in service_messages pf msgs
  end.

Lemma short_message pf msg : (String.length msg < MS_MAX_REQ_BUF_SIZE)%nat ->
  service_message json_loads pf msg = Some (handle_request json_loads pf (c_string msg)).
Proof.
  intros Hl. unfold service_message, recv_text, nng_recv. rewrite (proj2 (Nat.leb_gt _ _)) by done.
  by rewrite str_take_ge by lia.
Qed.

Lemma service_messages_fit pf msgs : profile_fits pf ->
  Forall (fun msg => (String.length msg < MS_MAX_REQ_BUF_SIZE)%nat) msgs ->
  exists pf', service_messages pf msgs = Some pf' /\ profile_fits pf'.
Proof.
  intros Hpf Hall. revert pf Hpf. induction Hall as [|msg msgs Hm _ IH]; intros pf Hpf; [by exists pf|].
  cbn [service_messages]. rewrite short_message by done. cbn [mbind option_bind].
  pose proof (handle_request_fits pf (c_string msg) Hpf) as Hn. unfold pf_after in Hn.
  destruct (handle_request json_loads pf (c_string msg)) as [[pf1 pub] reply]. by apply IH.
Qed.

(** C39: the service stays within its bounds, and so do its clients: from any profile
    document, through any sequence of messages each shorter than the request buffer of 16384
    bytes (a longer one overruns it: [oversized_request_overruns]), the service handles every
    one; the registry holds at most 8 modules of 16 devices of 8 objects with texts that fit
    their buffers; and of the next such message the reply and the slices published are shorter
    than the 65536 bytes their readers have for them, the reply to a report shorter than the
    256 bytes of a reporting module. *)
Theorem service_stays_in_bounds read_file path msgs :
  Forall (fun msg => (String.length msg < MS_MAX_REQ_BUF_SIZE)%nat) msgs ->
  exists pf, service_messages (fst (load_profile json_loads read_file path)) msgs = Some pf /\ profile_fits pf /\
    forall msg, (String.length msg < MS_MAX_REQ_BUF_SIZE)%nat ->
      exists pf' published reply, service_message json_loads pf msg = Some (pf', published, reply) /\
        (String.length reply < HES_MREG_REPLY_MAX)%nat /\
        (forall root, json_loads (c_string msg) = Some root -> obj_str root "cmd" MAX_CMD_SIZE "" = "report" ->
           (String.length reply < HES_MREG_REPORT_REPLY_MAX)%nat) /\
        Forall (fun slice => (String.length slice < HES_MREG_REPLY_MAX)%nat) published.
Proof.
  intros Hmsgs. destruct (service_messages_fit _ msgs (load_profile_fits read_file path) Hmsgs) as (pf & Hrun & Hpf).
  exists pf. split; [done|]. split; [done|]. intros msg Hl. rewrite short_message by done.
  pose proof (error_reply_length pf (c_string msg) Hpf) as Hreply.
  pose proof (report_reply_length pf (c_string msg)) as Hreport.
  pose proof (handle_request_fits pf (c_string msg) Hpf) as Hn. unfold pf_after in Hn.
  assert (Hpub : Forall (fun slice => (String.length slice < HES_MREG_REPLY_MAX)%nat)
    (published json_loads pf (c_string msg))).
  { destruct (handle_request_cases json_loads pf (c_string msg)) as [[_ ->]|(root & m & Hr)]; [constructor|].
    unfold published. rewrite (handle_request_report json_loads pf (c_string msg) root m Hr). cbn [fst snd].
    destruct (snd (fold_left _ _ _)); [|constructor]. apply Forall_singleton.
    set (m' := fst _). assert (Hm : ms_module_fits m').
    { apply report_entries_fit. cbn [fst]. destruct Hr as (_ & _ & _ & Hfm). apply find_first_Some in Hfm as [Hin _].
      destruct Hpf as [_ Hf]. rewrite Forall_forall in Hf. by apply Hf. }
    pose proof (slice_length m' Hm). pose proof (length_fmt_long _ (mf_index m' Hm)).
    unfold publish_slice, HES_MREG_REPLY_MAX. rewrite length_str_app. lia. }
  unfold published in Hpub. destruct (handle_request json_loads pf (c_string msg)) as [[pf' pub] reply]. exists pf', pub, reply. cbn [fst snd] in *.
  split; [done|]. split; [unfold HES_MREG_REPLY_MAX; lia|done].
Qed.
End service_bounds.

(** ** A module's query *)

(** What the client keeps of a device of a slice. *)
Definition client_object (o : ms_object_t) : hes_dev_object_t :=
  mk_dev_object (hes_strlcpy HES_PATH_MAX (mo_path o)) (hes_strlcpy 4 (mo_access o)).

Definition client_device (m : ms_module_t) (d : ms_devprofile_t) : hes_device_t :=
  mk_device (dp_device_index d) (dp_net_ref_index d) (hes_strlcpy 32 (dp_role d))
    (hes_strlcpy 48 (dp_expected_hardware d)) (device_network m d)
    (hes_strlcpy 64 (dp_runtime_address d)) (dp_runtime_udp_port d)
    (dp_runtime_bound d && dp_online d) (client_object <$> dp_objects d).

Definition client_registry (m : ms_module_t) : hes_devreg_t :=
  let devs := client_device m <$> mm_devs m in
  mk_devreg "HES-GW-2026-99A1" (mm_module_type m) (mm_module_ref_index m)
    (fold_left adopt_network devs (mm_network_type m)) devs.

(** Indices a module and its devices can be addressed by. *)
Definition addressable (m : ms_module_t) : Prop :=
  0 <= mm_module_ref_index m < 2 ^ 32 /\
  Forall (fun d => 0 <= dp_device_index d < 2 ^ 32 /\ 0 <= dp_net_ref_index d < 2 ^ 32) (mm_devs m).

Section query.
Context {target : Target}.
Variable json_loads : string -> option json.

Lemma member_integer ms key z :
  json_object_get (Some (JObject ms)) key = Some (JInteger z) -> - 2 ^ 53 < z < 2 ^ 53 ->
  get_member_long (JObject ms) key = Some z.
Proof. intros H Hz. unfold get_member_long. rewrite H. cbn [json_number_value]. by rewrite d_to_long_of_Z. Qed.

Lemma parse_object_docs os acc :
  (length acc + length os <= HES_DEVREG_MAX_OBJECTS)%nat ->
  parse_objects (object_doc <$> os) acc = acc ++ (client_object <$> os).
Proof.
  revert acc. induction os as [|o os IH]; intros acc Hl; cbn [fmap list_fmap parse_objects length] in *.
  { by rewrite app_nil_r. }
  rewrite (proj2 (Nat.leb_gt _ _)) by lia. cbn [object_doc json_is_object].
  change (get_member_string (object_doc o) "lexiconPath" HES_PATH_MAX)
    with (Some (hes_strlcpy HES_PATH_MAX (mo_path o))).
  change (get_member_string (object_doc o) "access" 4) with (Some (hes_strlcpy 4 (mo_access o))).
  cbv iota beta. rewrite IH by (rewrite length_app; simpl; lia). by rewrite <- app_assoc.
Qed.

Lemma parse_device_doc m d :
  ms_module_fits m -> devprofile_fits d ->
  0 <= dp_device_index d < 2 ^ 32 -> 0 <= dp_net_ref_index d < 2 ^ 32 ->
  parse_device (device_doc m d) = Some (client_device m d).
Proof.
  intros Hm Hd Hi Hn. pose proof (df_port d Hd) as Hp.
  unfold parse_device, device_doc. rewrite (member_integer _ "deviceIndex" (dp_device_index d)) by (done || lia).
  rewrite (member_integer _ "netRefIndex" (dp_net_ref_index d)) by (done || lia).
  rewrite (member_integer _ "udpPort" (dp_runtime_udp_port d)) by (done || lia). cbn [default].
  unfold client_device. f_equal. unfold id. rewrite !wrap_u_small by lia. rewrite (wrap_s_small 32) by (change (32 - 1) with 31; lia).
  f_equal.
  - cbn. apply hes_strlcpy_small. unfold device_network.
    destruct (_ =?s ""); [apply Hm|apply Hd].
  - unfold status_to_online, device_status. cbn. by destruct (dp_runtime_bound d), (dp_online d).
  - change (parse_objects (object_doc <$> dp_objects d) [] = client_object <$> dp_objects d).
    rewrite parse_object_docs; [done|]. destruct (df_objects d Hd) as [Ho _].
    unfold MS_MAX_OBJECTS in Ho. unfold HES_DEVREG_MAX_OBJECTS. simpl. lia.
Qed.

Lemma parse_device_docs m devs nt acc :
  ms_module_fits m -> Forall devprofile_fits devs ->
  Forall (fun d => 0 <= dp_device_index d < 2 ^ 32 /\ 0 <= dp_net_ref_index d < 2 ^ 32) devs ->
  (length acc + length devs <= HES_DEVREG_MAX_DEVICES)%nat ->
  parse_devices (device_doc m <$> devs) nt acc =
    (fold_left adopt_network (client_device m <$> devs) nt, acc ++ (client_device m <$> devs)).
Proof.
  intros Hm Hf Ha. revert nt acc. induction Hf as [|d devs Hd Hf IH]; intros nt acc Hl;
    cbn [fmap list_fmap parse_devices length fold_left] in *; [by rewrite app_nil_r|].
  inversion Ha as [|? ? [Hi Hn] Ha']; subst. rewrite (proj2 (Nat.leb_gt _ _)) by lia.
  cbn [device_doc json_is_object]. fold (device_doc m d). rewrite parse_device_doc by done.
  rewrite IH by (done || (rewrite length_app; simpl; lia)). by rewrite <- app_assoc.
Qed.

Lemma parse_slice_doc m :
  ms_module_fits m -> addressable m -> hes_devreg_parse (slice_doc m) = (client_registry m, 0).
Proof.
  intros Hm [Hi Ha]. pose proof (mf_devices m Hm) as [Hl Hf].
  unfold hes_devreg_parse, slice_doc, slice_members. cbn [json_is_object negb].
  change (json_object_get (Some (JObject _)) "error") with (@None json).
  change (json_object_get (Some (JObject _)) "devices") with (Some (JArray (device_doc m <$> mm_devs m))).
  cbv zeta beta iota.
  rewrite parse_device_docs by (done || (unfold HES_DEVREG_MAX_DEVICES, MS_MAX_DEVICES in *; simpl; lia)).
  rewrite (member_integer _ "moduleRefIndex" (mm_module_ref_index m)) by (done || lia).
  unfold client_registry. cbn [app default]. unfold id. rewrite wrap_u_small by lia.
  pose proof (hes_strlcpy_small 8 (mm_module_type m) (mf_type m Hm)) as H1.
  pose proof (hes_strlcpy_small 16 (mm_network_type m) (mf_network m Hm)) as H2.
  transitivity (mk_devreg "HES-GW-2026-99A1" (hes_strlcpy 8 (mm_module_type m)) (mm_module_ref_index m)
    (fold_left adopt_network (client_device m <$> mm_devs m) (hes_strlcpy 16 (mm_network_type m)))
    (client_device m <$> mm_devs m), 0); [reflexivity|by rewrite H1, H2].
Qed.

(** The service as the peer of a client's request. *)
Definition service_peer (pf : ms_profile_t) (req : string) : ms_profile_t * option string :=
  let '(pf', _, reply) := handle_request json_loads pf req in (pf', Some reply).

Lemma recv_complete cap t :
  (String.length t < cap)%nat -> has_char Ascii.zero t = false -> recv_text cap t = Some t.
Proof.
  intros Hl Hz. unfold recv_text, nng_recv, c_string. rewrite (proj2 (Nat.leb_gt _ _)) by done.
  rewrite str_take_ge by lia. by rewrite before_no_char.
Qed.

(** C8: a module that queries gets its own devices: for a client and a service that
    keep within their bounds, a profile whose strings are plain (printable ASCII without
    quotes and backslashes: dm.c escapes nothing), and a reader that reads every text of a JSON
    document nested at most 2048 deep (jansson's limit) as that document, the query returns 0 with the declared devices of the one module of the client's type
    and index, modules of another type with the same index left aside, each with the
    presence last reported, and leaves the service as it was. *)
Theorem query_returns_own_slice pf (h : hes_mreg_t) reg m :
  reads_json json_loads -> plain (mr_module_type h) -> plain_module m ->
  profile_fits pf -> handle_fits h -> addressable m ->
  m ∈ pf -> mm_module_type m = mr_module_type h -> mm_module_ref_index m = mr_module_ref_index h ->
  (forall x, x ∈ pf -> mm_module_type x = mr_module_type h ->
     mm_module_ref_index x = mr_module_ref_index h -> x = m) -> mr_module_type h <> "" ->
  hes_mreg_query json_loads service_peer pf h reg = Some (pf, client_registry m, 0).
Proof.
  intros Hread Hplain Hpm Hpf Hh. pose proof Hh as [Hht Hhi].
  assert (Hq : json_loads (query_request h) = Some (query_doc h)).
  { apply Hread; [|apply query_depth]. apply query_text; [done| |done]. unfold is_long_integer. lia. }
  pose proof (slice_text m Hpm) as Hst. assert (Hs : json_loads (build_slice m) = Some (slice_doc m)) by (by apply Hread, slice_depth). apply json_text_no_nul in Hst as Hz.
  revert Hpf Hh.
  intros Hpf [Ht Hi] Ha Hin Hmtype Hmidx Huniq Hne.
  assert (Hm : ms_module_fits m) by (destruct Hpf as [_ Hall]; rewrite Forall_forall in Hall; by apply Hall).
  assert (Hself : is_module (mr_module_type h) (mr_module_ref_index h) m = true).
  { unfold is_module. rewrite Hmidx, Hmtype, Z.eqb_refl, String.eqb_refl. apply orb_true_r. }
  assert (Hf : find_module pf (mr_module_type h) (mr_module_ref_index h) = Some m).
  { unfold find_module. destruct (find_first _ pf) as [x|] eqn:Ex.
    - apply find_first_Some in Ex as [Hx Hp]. f_equal. unfold is_module in Hp.
      apply andb_prop in Hp as [Hpi Hpt]. apply String.eqb_neq in Hne. rewrite Hne in Hpt. bool_hyps.
      apply Huniq; [done| |done]. by apply String.eqb_eq.
    - rewrite find_first_None in Ex. by rewrite (Ex m Hin) in Hself. }
  assert (Hreq : handle_request json_loads pf (query_request h) = (pf, [], build_slice m)).
  { unfold handle_request. rewrite Hq. cbn zeta.
    assert (Hc : obj_str (query_doc h) "cmd" MAX_CMD_SIZE "" = "query") by done.
    assert (Hmt : obj_str (query_doc h) "moduleType" MAX_CMD_SIZE "" = mr_module_type h).
    { unfold obj_str, jobj_str, query_doc, query_members.
      change (json_object_get (Some (JObject _)) "moduleType") with (Some (JString (mr_module_type h))).
      apply hes_strlcpy_small. unfold MAX_CMD_SIZE. lia. }
    assert (Hmi : obj_long (query_doc h) "moduleRefIndex" (-1) = mr_module_ref_index h).
    { unfold obj_long, query_doc, query_members. by rewrite (member_integer _ _ (mr_module_ref_index h)) by (done || lia). }
    rewrite Hc, Hmt, Hmi, Hf. rewrite (proj2 (Z.ltb_ge _ _)) by lia. done. }
  unfold hes_mreg_query, req_reply, service_peer. rewrite Hreq.
  pose proof (slice_length m Hm) as Hlen.
  rewrite recv_complete by (done || (unfold HES_MREG_REPLY_MAX; lia)).
  unfold parse_slice. rewrite Hs. by rewrite parse_slice_doc.
Qed.
End query.

(** ** The gateway's module list *)

Definition client_entry (m : ms_module_t) : hes_module_entry_t :=
  mk_module_entry (mm_module_type m) (mm_module_ref_index m) (mm_service_module_type m)
    (module_present m).

Section modules.
Context {target : Target}.
Variable json_loads : string -> option json.

Lemma parse_module_doc m :
  ms_module_fits m -> 0 <= mm_module_ref_index m < 2 ^ 32 ->
  module_entry_of (module_doc m) = client_entry m.
Proof.
  intros Hm Hi. unfold module_entry_of, client_entry.
  assert (Hu : json_u32_field (module_doc m) "moduleRefIndex" = mm_module_ref_index m).
  { transitivity (if d_ltb d_zero (d_of_Z (mm_module_ref_index m))
                  then d_to_u32 (d_of_Z (mm_module_ref_index m)) else 0); [reflexivity|].
    rewrite (proj1 (d_of_Z_sign (mm_module_ref_index m) ltac:(lia))), d_to_u32_of_Z by done.
    destruct (0 <? _) eqn:E; [done|]. bool_hyps. lia. }
  assert (Hf : json_flag_field (module_doc m) "present" = module_present m).
  { transitivity (negb (d_eqb (d_of_Z (if module_present m then 1 else 0)) d_zero)); [reflexivity|].
    by destruct (module_present m). }
  rewrite Hu, Hf. f_equal.
  - transitivity (hes_strlcpy 8 (mm_module_type m)); [reflexivity|]. apply hes_strlcpy_small, Hm.
  - transitivity (hes_strlcpy 8 (mm_service_module_type m)); [reflexivity|]. apply hes_strlcpy_small, Hm.
Qed.

(** The module list the service answers is read back in full by its client. *)
Lemma query_modules_of_service pf :
  reads_json json_loads -> Forall plain_module pf ->
  profile_fits pf -> Forall (fun m => 0 <= mm_module_ref_index m < 2 ^ 32) pf ->
  hes_mreg_query_modules json_loads (service_peer json_loads) pf = Some (pf, client_entry <$> pf, 0).
Proof.
  intros Hread Hplain Hpf Hi. pose proof (modules_text pf Hplain) as Hmt.
  assert (Hd : json_loads (build_modules_list pf) = Some (modules_doc pf)) by (by apply Hread, modules_depth).
  apply json_text_no_nul in Hmt as Hz. assert (Hq : json_loads (dq "{'cmd':'modules'}") = Some (JObject [("cmd", JString "modules")])).
  { apply Hread; [|apply Nat.leb_le; vm_compute; reflexivity]. exists "", (dq "{'cmd':'modules'}"), "". split; [done|]. split; [done|]. split; [|done].
    apply (text_object _ (quote "cmd" ++ ":" ++ quote "modules")); [distinct_keys|].
    by apply (members_one "" "cmd" "" "" _ (quote "modules") ""); try constructor. }
  assert (Hreq : handle_request json_loads pf (dq "{'cmd':'modules'}") = (pf, [], build_modules_list pf)).
  { unfold handle_request. rewrite Hq. reflexivity. }
  unfold hes_mreg_query_modules, req_reply, service_peer. rewrite Hreq.
  pose proof (modules_list_length pf Hpf) as Hlen.
  rewrite recv_complete by (done || (unfold HES_MREG_REPLY_MAX; lia)). rewrite Hd.
  change (json_object_get (Some (modules_doc pf)) "modules") with (Some (JArray (module_doc <$> pf))).
  cbv iota beta. rewrite load_rows_spec by (simpl; lia). cbn [app length]. do 3 f_equal.
  destruct Hpf as [Hl Hf]. rewrite Nat.sub_0_r, take_ge.
  - assert (Hfilter : filter (fun v => json_is_object v = true) (module_doc <$> pf) = module_doc <$> pf).
    { clear. induction pf as [|m pf IH]; [done|]. cbn [fmap list_fmap]. rewrite filter_cons_True by done.
      f_equal. exact IH. }
    rewrite Hfilter, <- list_fmap_compose. apply list_fmap_ext. intros i m Hm.
    apply list_elem_of_lookup_2 in Hm. rewrite Forall_forall in Hf, Hi. apply parse_module_doc; auto.
  - rewrite length_fmap. etransitivity; [apply length_filter|]. rewrite length_fmap.
    unfold MS_MAX_MODULES, HES_MODULES_MAX in *. lia.
Qed.
End modules.

(** ** Connecting and being notified *)

Section connection.
Context {nng : Nng}.

Lemma dial_from_spec k left url rv :
  (0 < left)%nat ->
  dial_from k left url rv = 0 <-> exists n, (k <= n < k + left)%nat /\ nng_dial url n = 0.
Proof.
  revert k rv. induction left as [|left IH]; intros k rv Hl; [lia|]. cbn [dial_from].
  destruct (nng_dial url k =? 0) eqn:E; bool_hyps.
  - split; [intros _|done]. exists k. split; [lia|done].
  - destruct left as [|left].
    + cbn [dial_from]. split; [done|]. intros (n & Hn & Hd). replace n with k in Hd by lia. done.
    + rewrite IH by lia. split; intros (n & Hn & Hd); exists n.
      * split; [lia|done].
      * split; [|done]. destruct (decide (n = k)) as [->|]; [done|lia].
Qed.

(** A handle is opened exactly when both sockets could be created and each
    endpoint accepted one of its 50 dials; it is then subscribed to the decimal text of
    its index, and otherwise no socket is left open. *)
Theorem mreg_open_connects rep_url pub_url module_type mi :
  0 <= mi < 2 ^ 32 ->
  let '(h, rv) := hes_mreg_open rep_url pub_url module_type mi in
  (rv = 0 <-> nng_req0_open = 0 /\ nng_sub0_open = 0 /\
     (exists n, (n < DIAL_ATTEMPTS)%nat /\ nng_dial rep_url n = 0) /\
     (exists n, (n < DIAL_ATTEMPTS)%nat /\ nng_dial pub_url n = 0)) /\
  mr_req h = (rv =? 0) /\ mr_sub h = (rv =? 0) /\ mr_topic h = fmt_d mi /\ handle_fits h.
Proof.
  intros Hmi. destruct (hes_mreg_open rep_url pub_url module_type mi) as [h rv] eqn:E.
  unfold hes_mreg_open, dial_retry in E.
  assert (Hdial : forall url, dial_from 0 DIAL_ATTEMPTS url 0 = 0 <->
    exists n, (n < DIAL_ATTEMPTS)%nat /\ nng_dial url n = 0).
  { intros url. rewrite dial_from_spec by (unfold DIAL_ATTEMPTS; lia).
    split; intros (n & Hn & Hd); exists n; (split; [lia|done]). }
  assert (Htopic : hes_strlcpy 16 (fmt_d mi) = fmt_d mi).
  { apply hes_strlcpy_small. pose proof (length_fmt_u32 mi Hmi). lia. }
  assert (Hh : forall req sub, handle_fits (mk_mreg req sub (hes_strlcpy 8 (default "" module_type)) mi (fmt_d mi)))
    by (intros req sub; split; [apply hes_strlcpy_fits; lia|done]).
  cbn zeta in E. rewrite Htopic in E. rewrite <- (Hdial rep_url), <- (Hdial pub_url).
  clear Hdial Htopic. revert E.
  generalize (dial_from 0 DIAL_ATTEMPTS rep_url 0) (dial_from 0 DIAL_ATTEMPTS pub_url 0). intros d1 d2 E.
  assert (Hfail : forall r, r <> 0 -> (mk_mreg false false (hes_strlcpy 8 (default "" module_type)) mi (fmt_d mi), r)
    = (h, rv) -> mr_req h = (rv =? 0) /\ mr_sub h = (rv =? 0) /\ mr_topic h = fmt_d mi /\ handle_fits h /\ rv <> 0).
  { intros r Hr [= <- <-]. rewrite (proj2 (Z.eqb_neq r 0)) by done. by split_and!; try apply Hh. }
  destruct (nng_req0_open =? 0) eqn:E1; cbn [negb] in E; bool_hyps.
  2: { destruct (Hfail nng_req0_open ltac:(done) E) as (? & ? & ? & ? & ?). by split_and!; [split; [|intros (? & _)]|..]. }
  destruct (d1 =? 0) eqn:E2; cbn [negb] in E; bool_hyps.
  2: { destruct (Hfail (-1) ltac:(done) E) as (? & ? & ? & ? & ?). by split_and!; [split; [|intros (_ & _ & ? & _)]|..]. }
  destruct (nng_sub0_open =? 0) eqn:E3; cbn [negb] in E; bool_hyps.
  2: { destruct (Hfail nng_sub0_open ltac:(done) E) as (? & ? & ? & ? & ?). by split_and!; [split; [|intros (_ & ? & _)]|..]. }
  destruct (d2 =? 0) eqn:E4; cbn [negb] in E; bool_hyps.
  2: { destruct (Hfail (-1) ltac:(done) E) as (? & ? & ? & ? & ?). by split_and!; [split; [|intros (_ & _ & _ & ?)]|..]. }
  injection E as <- <-. by split_and!; try apply Hh.
Qed.
End connection.

Section notification.
Context {target : Target}.
Variable json_loads : string -> option json.

(** A notification is told apart by its index alone: a client takes the slice of
    any module that carries its index, whatever the module types of the two. *)
Theorem notification_by_index_only (h : hes_mreg_t) reg m :
  reads_json json_loads -> plain_module m ->
  ms_module_fits m -> addressable m -> mr_topic h = fmt_d (mm_module_ref_index m) ->
  hes_mreg_recv_update json_loads h reg (inl (publish_slice m)) = Some (client_registry m, 0).
Proof.
  intros Hread Hp Hm Ha Ht. pose proof (slice_text m Hp) as Hst. assert (Hd : json_loads (build_slice m) = Some (slice_doc m)) by (by apply Hread, slice_depth).
  assert (Hz : has_char Ascii.zero (publish_slice m) = false).
  { unfold publish_slice. by rewrite has_char_app, number_no_nul, (json_text_no_nul _ _ Hst). }
  unfold hes_mreg_recv_update.
  assert (Hlen : (String.length (publish_slice m) < HES_MREG_REPLY_MAX)%nat).
  { pose proof (slice_length m Hm). pose proof (length_fmt_long _ (mf_index m Hm)).
    unfold publish_slice, HES_MREG_REPLY_MAX. rewrite length_str_app. lia. }
  rewrite recv_complete by done. rewrite Ht. unfold publish_slice.
  rewrite str_prefix_app, str_drop_app. unfold parse_slice. rewrite Hd. by rewrite parse_slice_doc.
Qed.

(** The service trusts the size a receive reports: a request is handled exactly
    when it is shorter than the 16384-byte buffer, and a longer one makes the service
    write its terminator outside the buffer. *)
Theorem oversized_request_overruns pf msg :
  (service_message json_loads pf msg = None <-> (MS_MAX_REQ_BUF_SIZE <= String.length msg)%nat) /\
  ((String.length msg < MS_MAX_REQ_BUF_SIZE)%nat ->
   service_message json_loads pf msg = Some (handle_request json_loads pf (c_string msg))).
Proof.
  unfold service_message, recv_text, nng_recv. destruct (_ <=? _)%nat eqn:E.
  - apply Nat.leb_le in E. split; [done|]. intros. lia.
  - apply Nat.leb_gt in E. split; [split; [done|lia]|]. intros _. by rewrite str_take_ge by lia.
Qed.
End notification.

(** ** The statements at concrete inputs *)

Definition ex_handle : hes_mreg_t := mk_mreg true true "hi" 1 "1".

Lemma ex_profile_fits : profile_fits ex_profile.
Proof.
  assert (Hz : forall z, -100 <= z <= 100 -> is_long z) by (intros z Hz; unfold is_long, LONG_MIN, LONG_MAX; lia).
  split; [unfold MS_MAX_MODULES; simpl; lia|]. repeat (apply Forall_cons; split); [..|constructor].
  - constructor; try (simpl; lia); [by apply Hz|]. split; [simpl; lia|constructor].
  - constructor; try (simpl; lia); [by apply Hz|]. split; [unfold MS_MAX_DEVICES; simpl; lia|].
    apply Forall_singleton. constructor; try (simpl; lia); try (unfold MS_PATH; simpl; lia).
    + split; by apply Hz.
    + split; [unfold MS_MAX_OBJECTS; simpl; lia|]. apply Forall_singleton. split; unfold MS_PATH; simpl; lia.
Qed.

Lemma ex_addressable : addressable ex_module.
Proof. split; [simpl; lia|]. apply Forall_singleton. simpl. lia. Qed.

Lemma report_request_complete_witness :
  report_request ex_handle (client_registry ex_module) =
  Some (dq "{'cmd':'report','moduleType':'hi','moduleRefIndex':1,'devices':[{'deviceIndex':2,'netRefIndex':7,'address':'','udpPort':0,'online':0}]}").
Proof.
  destruct (report_request_complete ex_handle (client_registry ex_module)) as (text & H & -> & _).
  - split; simpl; lia.
  - constructor; try (simpl; lia); try (simpl; lia). split; [unfold HES_DEVREG_MAX_DEVICES; simpl; lia|].
    apply Forall_singleton. unfold device_fits. split_and!; try (simpl; lia).
    + unfold HES_DEVREG_MAX_OBJECTS. simpl. lia.
    + apply Forall_singleton. unfold HES_PATH_MAX. simpl. lia.
  - rewrite H. reflexivity.
Defined.

Lemma ex_plain : Forall plain_module ex_profile.
Proof.
  repeat (apply Forall_cons; split); [..|constructor]; constructor; try done.
  apply Forall_singleton. constructor; try done. by apply Forall_singleton.
Qed.

(** A profile document of one module with one device, a report of the device, and the query of
    the module. *)
Definition ex_profile_text : string :=
  dq "{'modules': [ {'moduleType':'hi','moduleRefIndex':1,'deviceProfiles':[{'deviceIndex':2,'netRefIndex':7}]} ]}".

Definition ex_report_text : string :=
  dq "{'cmd':'report','moduleType':'hi','moduleRefIndex':1,'devices':[{'deviceIndex':2,'address':'10.0.0.9','online':1}]}".

Definition ex_query_text : string := dq "{'cmd':'query','moduleType':'hi','moduleRefIndex':1}".

Lemma service_stays_in_bounds_witness :
  exists pf, @service_messages indefinite_target read_json
    (fst (@load_profile indefinite_target read_json (fun _ => Some ex_profile_text) "profile.json"))
    [ex_report_text; ex_query_text; "junk"] = Some pf /\ profile_fits pf /\
    (fun m => (mm_module_type m, (fun d => (dp_device_index d, dp_runtime_address d, dp_online d)) <$> mm_devs m)) <$> pf =
      [("hi", [(2, "10.0.0.9", true)])].
Proof.
  destruct (@service_stays_in_bounds indefinite_target indefinite_target_ok read_json
    (fun _ => Some ex_profile_text) "profile.json" [ex_report_text; ex_query_text; "junk"]) as (pf & Hr & Hf & _).
  - repeat (apply Forall_cons; split); [apply Nat.ltb_lt; vm_compute; reflexivity..|constructor].
  - exists pf. split; [exact Hr|]. split; [exact Hf|]. vm_compute in Hr. injection Hr as <-. reflexivity.
Defined.

Lemma query_returns_own_slice_witness :
  @hes_mreg_query indefinite_target read_json _ (@service_peer indefinite_target read_json) ex_profile ex_handle
    hes_devreg_init = Some (ex_profile, client_registry ex_module, 0) /\
  (hd_address <$> dr_devices (client_registry ex_module)) = [""].
Proof.
  split; [|reflexivity].
  apply (@query_returns_own_slice indefinite_target read_json).
  - exact read_json_reads.
  - reflexivity.
  - pose proof ex_plain as H. rewrite Forall_forall in H. apply H. right. left.
  - exact ex_profile_fits.
  - split; simpl; lia.
  - exact ex_addressable.
  - right. left.
  - reflexivity.
  - reflexivity.
  - intros x [->|Hx]%elem_of_cons Ht _; [discriminate|]. by apply list_elem_of_singleton in Hx.
  - discriminate.
Defined.

Definition ex_nng : Nng :=
  {| nng_req0_open := 0; nng_sub0_open := 0; nng_dial := fun _ n => if (n <? 3)%nat then 6 else 0 |}.

Lemma mreg_open_connects_witness :
  snd (@hes_mreg_open ex_nng "ipc:///rep" "ipc:///pub" (Some "hi") 1) = 0.
Proof.
  pose proof (@mreg_open_connects ex_nng "ipc:///rep" "ipc:///pub" (Some "hi") 1 ltac:(lia)) as H.
  destruct (@hes_mreg_open ex_nng "ipc:///rep" "ipc:///pub" (Some "hi") 1) as [h rv].
  apply (proj2 (proj1 H)). split_and!; [reflexivity|reflexivity|exists 3%nat..].
  - split; [unfold DIAL_ATTEMPTS; lia|reflexivity].
  - split; [unfold DIAL_ATTEMPTS; lia|reflexivity].
Defined.

(** The client of the service module of index 1 takes the interface module's slice. *)
Lemma notification_by_index_only_witness :
  @hes_mreg_recv_update indefinite_target read_json (mk_mreg true true "sm" 1 "1") hes_devreg_init
    (inl (publish_slice ex_module)) = Some (client_registry ex_module, 0).
Proof.
  apply (@notification_by_index_only indefinite_target read_json).
  - exact read_json_reads.
  - pose proof ex_plain as H. rewrite Forall_forall in H. apply H. right. left.
  - pose proof ex_profile_fits as [_ H]. rewrite Forall_forall in H. apply H. right. by left.
  - exact ex_addressable.
  - reflexivity.
Defined.
