(* ===== verification/Utils.v ===== *)
(** * Reading files

    Models the remaining helpers of src/src/utils.c: read_file, with the bytes of its buffer
    and its stream, and is_dir_exist. The paths of an installation are in Cli.v. *)

From S2P Require Import Prelude CLib HesCommon.

(** What can be opened under a path: the offset ftell tells at its end, and the bytes that can
    be read from its beginning. A regular file's are of that number. *)
Record stream := mk_stream {
  fl_size : Z;
  fl_text : string;
}.

Definition regular_file (t : string) : stream := mk_stream (strlen t) t.

(** The text that is read, and the streams open afterwards, of [opened] before. [malloc_ok]: a
    buffer of that many bytes can be had; [junk]: the bytes in it. *)
Definition read_file (malloc_ok : Z -> bool) (junk : string) (f : option stream) (opened : nat) : option string * nat :=
  match f with
  | None => (None, opened)
  | Some f =>
      let opened := S opened in
      let sz := fl_size f in
      if ((sz <=? 0) || (Z.shiftl 1 20 <? sz))%bool then (None, pred opened)
      else if negb (malloc_ok (sz + 1)) then (None, pred opened)
      else
        let got := Nat.min (Z.to_nat sz) (String.length (fl_text f)) in
        let buf := (str_take got (fl_text f) ++ String Ascii.zero (str_drop (S got) junk))%string in
        (Some (c_string buf), pred opened)
  end.

(** [opens]: the directory can be opened; the handles open afterwards. *)
Definition is_dir_exist (opens : bool) (opened : nat) : Z * nat :=
  if opens then (1, pred (S opened)) else (0, opened).

Lemma c_string_closed s junk : c_string (s ++ String Ascii.zero junk) = c_string s.
Proof.
  unfold c_string. induction s as [|c s IH]; [done|]. cbn. destruct (Ascii.eqb c Ascii.zero); [done|by rewrite IH].
Qed.

(** A file is read to its first NUL or its end when it has from one byte to 2^20, and not at
    all otherwise; what was in the buffer is not read, and the stream is closed. *)
Lemma read_regular_file malloc_ok junk t opened :
  read_file malloc_ok junk (Some (regular_file t)) opened =
  (if ((0 <? strlen t) && (strlen t <=? 2 ^ 20) && malloc_ok (strlen t + 1))%bool then Some (c_string t) else None, opened).
Proof.
  unfold read_file, regular_file. cbn [fl_size fl_text pred].
  change (Z.shiftl 1 20) with (2 ^ 20). rewrite (Z.leb_antisym 0), (Z.ltb_antisym (strlen t) (2 ^ 20)).
  destruct (0 <? strlen t), (strlen t <=? 2 ^ 20); cbn [andb orb negb]; [|done..].
  destruct (malloc_ok (strlen t + 1)); cbn [negb]; [|done].
  rewrite c_string_closed. unfold strlen. rewrite Nat2Z.id, Nat.min_id. by rewrite str_take_ge by lia.
Qed.

(** However the read ends, no stream is left open. *)
Lemma read_file_closes malloc_ok junk f opened : snd (read_file malloc_ok junk f opened) = opened.
Proof. unfold read_file. destruct f as [f|]; [|done]. cbn zeta.
  destruct ((fl_size f <=? 0) || (Z.shiftl 1 20 <? fl_size f))%bool; [done|].
  by destruct (negb (malloc_ok (fl_size f + 1))). Qed.

