(* ===== verification/DmMain.v ===== *)
(** * The device manifest service's process

    Models manifest_service_main of src/src/dm/dm.c: start-up, with the sockets each failure
    leaves, the loop that answers requests until a signal, each reply and notification a call of
    nng_send whose result the code does not look at, and the way out. The profile is read
    with read_file of Utils.v from the files of the host; requests are answered by Dm.v. NNG's
    answer to a call may depend on all calls before. *)

From S2P Require Import Prelude CLib HesCommon Json Devreg Mreg Dm Utils DmFacts ManifestFacts.

Inductive dm_sock := RepSock | PubSock.

Definition same_sock (s s' : dm_sock) : bool :=
  match s, s' with RepSock, RepSock | PubSock, PubSock => true | _, _ => false end.

Inductive dm_call :=
| DmOpen (s : dm_sock)
| DmRecvTimeout (s : dm_sock) (ms : Z)
| DmListen (s : dm_sock) (url : string)
| DmSend (s : dm_sock) (text : string)
| DmClose (s : dm_sock).

(** The calls made and what each returned, oldest first. *)
Definition dm_history : Type := list (dm_call * Z).

(** An open socket: its receive timeout, if one was set, and where it listens. *)
Record dm_socket := mk_dm_socket { ds_timeout : option Z; ds_listening : list string }.

Definition dm_socket_step (s : dm_sock) (st : option dm_socket) (e : dm_call * Z) : option dm_socket :=
  let ok := snd e =? 0 in
  match fst e, st with
  | DmOpen s', _ => if (same_sock s s' && ok)%bool then Some (mk_dm_socket None []) else st
  | DmClose s', _ => if same_sock s s' then None else st
  | DmRecvTimeout s' ms, Some k =>
      if (same_sock s s' && ok)%bool then Some (mk_dm_socket (Some ms) (ds_listening k)) else st
  | DmListen s' u, Some k =>
      if (same_sock s s' && ok)%bool then Some (mk_dm_socket (ds_timeout k) (ds_listening k ++ [u])) else st
  | _, _ => st
  end.

Definition dm_socket_after (s : dm_sock) (h : dm_history) : option dm_socket :=
  fold_left (dm_socket_step s) h None.

Section main.
Context {target : Target}.
Variable json_loads : string -> option json.
Variable files : string -> option string.
Variable nng : dm_history -> dm_call -> Z.

(** The text read_file returns: [malloc] does not fail here. *)
Definition read_path (path : string) : option string :=
  fst (read_file (fun _ => true) "" (regular_file <$> files path) 0).

Definition dm_call_nng (c : dm_call) (h : dm_history) : dm_history * Z := let rv := nng h c in (h ++ [(c, rv)], rv).
Definition dm_do (c : dm_call) (h : dm_history) : dm_history := fst (dm_call_nng c h).

(** Up to the loop: the sockets, and the exit code, 0 when the loop is reached. *)
Definition dm_open (rep_url pub_url : string) (h : dm_history) : dm_history * Z :=
  let '(h, rv) := dm_call_nng (DmOpen RepSock) h in
  if negb (rv =? 0) then (h, 1)
  else
    let '(h, rv) := dm_call_nng (DmRecvTimeout RepSock 200) h in
    if negb (rv =? 0) then (dm_do (DmClose RepSock) h, 1)
    else
      let '(h, rv) := dm_call_nng (DmListen RepSock rep_url) h in
      if negb (rv =? 0) then (dm_do (DmClose RepSock) h, 1)
      else
        let '(h, rv) := dm_call_nng (DmOpen PubSock) h in
        if negb (rv =? 0) then (dm_do (DmClose RepSock) h, 1)
        else
          let '(h, rv) := dm_call_nng (DmListen PubSock pub_url) h in
          if negb (rv =? 0) then (dm_do (DmClose RepSock) (dm_do (DmClose PubSock) h), 1)
          else (h, 0).

(** [publish_slice] and then [reply_text], as handle_request calls them. *)
Definition reply_text (reply : string) (h : dm_history) : dm_history := dm_do (DmSend RepSock reply) h.

Definition send_answer (pub : list string) (reply : string) (h : dm_history) : dm_history :=
  reply_text reply (fold_left (fun h text => dm_do (DmSend PubSock text) h) pub h).

(** The turns of the loop until the signal: a message, or a receive that failed or timed out.
    [None]: a write outside the request buffer. *)
Fixpoint serve (pf : ms_profile_t) (turns : list (option string)) (h : dm_history) : option dm_history :=
  match turns with
  | [] => Some h
  | None :: turns => serve pf turns h
  | Some msg :: turns =>
      let* (pf, pub, reply) := service_message json_loads pf msg in
      serve pf turns (send_answer pub reply h)
  end.

Definition manifest_service_main (profile rep_url pub_url : string) (turns : list (option string))
  : option (dm_history * Z) :=
  let '(pf, rv) := load_profile json_loads read_path profile in
  if negb (rv =? 0) then Some ([], 1)
  else
    let '(h, rv) := dm_open rep_url pub_url [] in
    if negb (rv =? 0) then Some (h, rv)
    else
      let* h := serve pf turns h in
      Some (dm_do (DmClose RepSock) (dm_do (DmClose PubSock) h), 0).

(** ** The sockets *)

Lemma dm_call_after s c h h' rv :
  dm_call_nng c h = (h', rv) -> dm_socket_after s h' = dm_socket_step s (dm_socket_after s h) (c, rv).
Proof. intros [= <- <-]. unfold dm_socket_after. by rewrite fold_left_app. Qed.

Lemma dm_close_after s s' h :
  dm_socket_after s (dm_do (DmClose s') h) = if same_sock s s' then None else dm_socket_after s h.
Proof.
  unfold dm_do. destruct (dm_call_nng (DmClose s') h) as [h' rv] eqn:E. cbn [fst].
  rewrite (dm_call_after _ _ _ _ _ E). by destruct s, s', (dm_socket_after _ h).
Qed.

(** The next call of [dm_open]: whether it returned 0, and the sockets after it. *)
Ltac dm_next :=
  match goal with
  | HR : dm_socket_after RepSock ?h = _, HP : dm_socket_after PubSock ?h = _ |- context [dm_call_nng ?c ?h] =>
    let E := fresh "E" in let r := fresh "r" in let NR := fresh "HR" in let NP := fresh "HP" in
    destruct (dm_call_nng c h) as [? r] eqn:E;
    pose proof (dm_call_after RepSock _ _ _ _ E) as NR; pose proof (dm_call_after PubSock _ _ _ _ E) as NP; clear E;
    rewrite HR in NR; rewrite HP in NP; clear HR HP;
    unfold dm_socket_step in NR, NP; cbn [fst snd same_sock andb] in NR, NP;
    destruct (r =? 0); cbn [negb]; cbn in NR, NP
  end.

(** What was sent, oldest first: a message goes to NNG whatever NNG answers. *)
Definition sends (h : dm_history) : list (dm_sock * string) :=
  omap (fun e => match fst e with DmSend s t => Some (s, t) | _ => None end) h.

Lemma sends_do c h :
  sends (dm_do c h) = sends h ++ match c with DmSend s t => [(s, t)] | _ => [] end.
Proof. unfold dm_do, sends. cbn [dm_call_nng fst]. rewrite omap_app. by destruct c. Qed.

(** The sockets when the loop is reached, and that none is left when it is not; nothing is sent. *)
Lemma dm_open_spec rep_url pub_url h rv : dm_open rep_url pub_url [] = (h, rv) ->
  ((rv = 0 /\ dm_socket_after RepSock h = Some (mk_dm_socket (Some 200) [rep_url]) /\
             dm_socket_after PubSock h = Some (mk_dm_socket None [pub_url])) \/
   (rv = 1 /\ forall s, dm_socket_after s h = None)) /\ sends h = [].
Proof.
  intros E. split.
  - revert E. assert (HR : dm_socket_after RepSock [] = None) by done.
    assert (HP : dm_socket_after PubSock [] = None) by done.
    unfold dm_open. repeat dm_next; intros [= <- <-]; [left|right..]; (split; [done|]); [done|intros []..];
      by rewrite ?dm_close_after.
  - revert E. unfold dm_open, dm_call_nng.
    repeat (case_match; cbn [negb]; simplify_eq); intros [= <- <-]; rewrite ?sends_do; unfold sends;
      rewrite ?omap_app; reflexivity.
Qed.

(** ** The requests *)

Definition requests_of (turns : list (option string)) : list string := c_string <$> omap id turns.

(** What one request makes the service send, from a registry. *)
Definition answer (pf : ms_profile_t) (req : string) : list (dm_sock * string) :=
  let '(_, pub, reply) := handle_request json_loads pf req in (pair PubSock <$> pub) ++ [(RepSock, reply)].

(** What a sequence of requests makes it send: each is answered from the registry that those
    before it left. *)
Definition answers (pf : ms_profile_t) (reqs : list string) : list (dm_sock * string) :=
  concat (imap (fun i req => answer (fst (handle_requests json_loads pf (take i reqs))) req) reqs).

Lemma handle_requests_cons pf req reqs :
  fst (handle_requests json_loads pf (req :: reqs)) =
  fst (handle_requests json_loads (fst (fst (handle_request json_loads pf req))) reqs).
Proof.
  unfold handle_requests. cbn [fold_left fst snd]. destruct (handle_request json_loads pf req) as [[pf' pub] r]. cbn [fst].
  generalize ([] ++ pub) as l. generalize (@nil string) as l'. revert pf'.
  induction reqs as [|q reqs IH]; intros pf' l l'; [done|]. cbn [fold_left fst snd].
  destruct (handle_request json_loads pf' q) as [[pf2 pub2] r2]. apply IH.
Qed.

Lemma answers_cons pf req reqs :
  answers pf (req :: reqs) = answer pf req ++ answers (fst (fst (handle_request json_loads pf req))) reqs.
Proof.
  unfold answers. cbn [imap concat take]. f_equal. f_equal. apply imap_ext. intros i q _. cbn [compose take].
  by rewrite handle_requests_cons.
Qed.

Lemma send_answer_sends pub reply h :
  sends (send_answer pub reply h) = sends h ++ (pair PubSock <$> pub) ++ [(RepSock, reply)].
Proof.
  unfold send_answer, reply_text. rewrite sends_do, app_assoc. f_equal. revert h.
  induction pub as [|t pub IH]; intros h; cbn [fold_left fmap list_fmap]; [by rewrite app_nil_r|].
  rewrite IH, sends_do. by rewrite <- app_assoc.
Qed.

(** The loop is the sequence of its requests. *)
Lemma serve_spec pf turns h :
  match serve pf turns h with
  | Some h' => sends h' = sends h ++ answers pf (requests_of turns)
  | None => Exists (fun msg => (MS_MAX_REQ_BUF_SIZE <= String.length msg)%nat) (omap id turns)
  end.
Proof.
  revert pf h. induction turns as [|[msg|] turns IH]; intros pf h; [by rewrite app_nil_r| |apply IH].
  cbn [serve]. change (requests_of (Some msg :: turns)) with (c_string msg :: requests_of turns).
  change (omap id (Some msg :: turns)) with (msg :: omap id turns).
  destruct (oversized_request_overruns json_loads pf msg) as [Hover Hfit].
  destruct (service_message json_loads pf msg) as [[[pf' pub] reply]|] eqn:E.
  - assert (Hlen : (String.length msg < MS_MAX_REQ_BUF_SIZE)%nat).
    { destruct (decide (MS_MAX_REQ_BUF_SIZE <= String.length msg)%nat) as [H|H]; [by apply Hover in H|lia]. }
    specialize (Hfit Hlen). injection Hfit as Hfit. specialize (IH pf' (send_answer pub reply h)).
    cbn [mbind option_bind]. destruct (serve pf' turns _) as [h'|]; [|by apply Exists_cons_tl].
    rewrite IH, send_answer_sends, answers_cons, <- app_assoc. do 2 f_equal; unfold answer; by rewrite <- Hfit.
  - apply Exists_cons_hd. by apply Hover.
Qed.

(** C18: whatever NNG answers to each call, the service's process leaves no socket open. It ends
    with 1, and has sent nothing, when its profile could not be loaded or a socket not opened.
    Otherwise it ends with 0 and has sent, in this order and whatever became of each send, exactly
    the answers to its requests one after the other: to each the reply of handle_request from the
    registry that the requests before it left, on REP, behind the notifications of that
    request, on PUB. It is undefined only on a request of 16384 bytes or more, which it writes
    outside its buffer. *)
Theorem service_process profile rep_url pub_url turns :
  let '(pf, loaded) := load_profile json_loads read_path profile in
  match manifest_service_main profile rep_url pub_url turns with
  | Some (h, rv) =>
      (forall s, dm_socket_after s h = None) /\
      rv = (if loaded =? 0 then snd (dm_open rep_url pub_url []) else 1) /\
      (rv = 0 /\ sends h = answers pf (requests_of turns) \/ rv = 1 /\ sends h = [])
  | None => Exists (fun msg => (MS_MAX_REQ_BUF_SIZE <= String.length msg)%nat) (omap id turns)
  end.
Proof.
  unfold manifest_service_main. destruct (load_profile json_loads read_path profile) as [pf rv].
  destruct (rv =? 0); cbn [negb]; [|split_and!; [done|done|by right]].
  destruct (dm_open rep_url pub_url []) as [h rv'] eqn:E.
  apply dm_open_spec in E as [[(-> & Hr & Hp)|(-> & Hs)] Hnone]; cbn [Z.eqb negb snd].
  - pose proof (serve_spec pf turns h) as Hserve.
    destruct (serve pf turns h) as [h'|]; [|done]. cbn [mbind option_bind]. split_and!; [|done|left; split; [done|]].
    + intros s. rewrite !dm_close_after. by destruct s.
    + by rewrite !sends_do, !app_nil_r, Hserve, Hnone.
  - split_and!; [done|done|by right].
Qed.

(** A profile of more than 2^20 bytes is not loaded: the process ends with 1, before any socket. *)
Lemma oversized_profile_ends profile t rep_url pub_url turns :
  files profile = Some t -> 2 ^ 20 < strlen t ->
  manifest_service_main profile rep_url pub_url turns = Some ([], 1).
Proof.
  intros Hf Ht. unfold manifest_service_main, load_profile, read_path. rewrite Hf. cbn [fmap option_fmap option_map].
  rewrite read_regular_file. rewrite (proj2 (Z.leb_gt (strlen t) (2 ^ 20))) by done. by rewrite andb_false_r.
Qed.
End main.

(** ** A run *)

Definition one_module_reader (s : string) : option json :=
  if s =?s "P" then Some (JObject [("modules", JArray [JObject [("moduleType", JString "hi"); ("moduleRefIndex", JInteger 1)]])])
  else if s =?s "R" then Some ex_report else None.

(** A profile of one module, a request about it that is no JSON, a silence, and a report for it. *)
Lemma a_service_run :
  (fun r => (snd r, sends (fst r))) <$>
    @manifest_service_main indefinite_target one_module_reader (fun _ => Some "P") (fun _ _ => 0) "profile.json" "r" "p"
      [Some "?"; None; Some "R"] = Some (0, [(RepSock, dq "{'error':'bad json'}"); (RepSock, dq "{'ok':1}")]).
Proof. vm_compute. reflexivity. Qed.
