(* ===== verification/Https.v ===== *)
(** * The HTTPS client

    Models src/src/common/hes_https.c over libcurl: the options of a request, the sink
    that collects the entity, and what counts as success. libcurl is the class [Curl]:
    a transfer hands its chunks to the write callback until one is refused. *)

From S2P Require Import Prelude CLib HesCommon.

Definition HES_HTTPS_BODY_MAX : nat := Z.to_nat 4096.
Definition HTTPS_DEFAULT_TIMEOUT_MS : Z := 8000.
Definition HES_HTTPS_CA_BUNDLE : string := "/etc/ssl/certs/ca-certificates.crt".

(** The options set on the handle. *)
Record curl_options := mk_curl_options {
  CURLOPT_URL : string;
  CURLOPT_PROTOCOLS_STR : string;
  CURLOPT_REDIR_PROTOCOLS_STR : string;
  CURLOPT_SSL_VERIFYPEER : Z;
  CURLOPT_SSL_VERIFYHOST : Z;
  CURLOPT_CAINFO : string;
  CURLOPT_TIMEOUT_MS : Z;
}.

(** What a transfer does: the chunks of the entity in order, whether it ends well when
    all of them are taken, and the response code. *)
Record curl_transfer := mk_transfer {
  ct_chunks : list string;
  ct_ok : bool;
  ct_status : Z;
}.

(** The transfer libcurl performs for the options; [None]: no handle could be made. *)
Class Curl := curl_easy_perform : curl_options -> option curl_transfer.

Record body_sink_t := mk_sink {
  sink_body : string;
  sink_cap : nat;
  sink_len : nat;
  sink_overflow : bool;
}.

(** The sink and the number of bytes taken. *)
Definition sink_write (data : string) (sink : body_sink_t) : body_sink_t * nat :=
  let n := String.length data in
  if (sink_cap sink - 1 - sink_len sink <? n)%nat
  then (mk_sink (sink_body sink) (sink_cap sink) (sink_len sink) true, 0%nat)
  else (mk_sink (sink_body sink ++ data) (sink_cap sink) (sink_len sink + n) (sink_overflow sink), n).

(** The chunks go to the callback until it takes less than it was given. *)
Fixpoint deliver (chunks : list string) (sink : body_sink_t) : body_sink_t * bool :=
  match chunks with
  | [] => (sink, true)
  | c :: cs =>
      let '(sink, taken) := sink_write c sink in
      if (taken <? String.length c)%nat then (sink, false) else deliver cs sink
  end.

Definition https_options (url : string) (timeout_ms : Z) : curl_options :=
  mk_curl_options url "https" "https" 1 2 HES_HTTPS_CA_BUNDLE
    (if timeout_ms <=? 0 then HTTPS_DEFAULT_TIMEOUT_MS else timeout_ms).

(** The body and its length; [None] is the return value -1. *)
Definition hes_https_get {curl : Curl} (url : string) (body_cap : nat) (timeout_ms : Z)
  : option (string * nat) :=
  if (body_cap <? 2)%nat then None
  else
    match curl_easy_perform (https_options url timeout_ms) with
    | None => None
    | Some t =>
        let '(sink, taken) := deliver (ct_chunks t) (mk_sink "" body_cap 0 false) in
        if sink_overflow sink then None
        else if negb (taken && ct_ok t) then None
        else if ((ct_status t <? 200) || (299 <? ct_status t))%bool then None
        else Some (sink_body sink, sink_len sink)
    end.

(** ** Whole entities only *)

Definition entity (t : curl_transfer) : string := fold_right String.append "" (ct_chunks t).

Lemma deliver_spec cs b cap o :
  (String.length b < cap)%nat ->
  let total := (b ++ fold_right String.append "" cs)%string in
  if (String.length total <? cap)%nat
  then deliver cs (mk_sink b cap (String.length b) o) = (mk_sink total cap (String.length total) o, true)
  else sink_overflow (fst (deliver cs (mk_sink b cap (String.length b) o))) = true.
Proof.
  cbv zeta. revert b. induction cs as [|c cs IH]; intros b Hb.
  - cbn [fold_right deliver]. rewrite str_app_nil_r. by rewrite (proj2 (Nat.ltb_lt _ _)).
  - cbn [fold_right deliver]. unfold sink_write. cbn [sink_cap sink_len sink_body sink_overflow].
    rewrite <- str_app_assoc. destruct (_ <? String.length c)%nat eqn:E.
    + apply Nat.ltb_lt in E. rewrite (proj2 (Nat.ltb_ge _ _)).
      2: { rewrite length_str_app, length_str_app. lia. }
      rewrite (proj2 (Nat.ltb_lt _ _)) by lia. done.
    + apply Nat.ltb_ge in E. rewrite Nat.ltb_irrefl, <- length_str_app.
      apply IH. rewrite length_str_app. lia.
Qed.

(** A request gives its whole entity or nothing: it succeeds exactly when libcurl's
    transfer does, with a 2xx status, and the entity fits the buffer with its NUL; and
    the transfer it is about is over verified HTTPS with a positive timeout. *)
Theorem https_get_all_or_nothing {curl : Curl} url body_cap timeout_ms body len :
  (2 <= body_cap)%nat ->
  hes_https_get url body_cap timeout_ms = Some (body, len) <->
  exists opts t,
    (CURLOPT_URL opts = url /\ CURLOPT_PROTOCOLS_STR opts = "https" /\
     CURLOPT_REDIR_PROTOCOLS_STR opts = "https" /\ CURLOPT_SSL_VERIFYPEER opts = 1 /\
     CURLOPT_SSL_VERIFYHOST opts = 2 /\ CURLOPT_CAINFO opts = HES_HTTPS_CA_BUNDLE /\
     CURLOPT_TIMEOUT_MS opts = (if timeout_ms <=? 0 then HTTPS_DEFAULT_TIMEOUT_MS else timeout_ms)) /\
    curl_easy_perform opts = Some t /\
    ct_ok t = true /\ 200 <= ct_status t <= 299 /\
    body = entity t /\ len = String.length body /\ (String.length body < body_cap)%nat.
Proof.
  intros Hcap. unfold hes_https_get. rewrite (proj2 (Nat.ltb_ge _ _)) by lia. split.
  - destruct (curl_easy_perform _) as [t|] eqn:Et; [|done].
    pose proof (deliver_spec (ct_chunks t) "" body_cap false ltac:(simpl; lia)) as Hd.
    cbv zeta in Hd. cbn [String.append String.length] in Hd. change (fold_right _ _ _) with (entity t) in Hd.
    destruct (String.length (entity t) <? body_cap)%nat eqn:El.
    + rewrite Hd. cbn [sink_overflow sink_body sink_len andb].
      destruct (ct_ok t) eqn:Eok; [|done]. cbn [negb]. destruct (_ || _)%bool eqn:Es; [done|].
      intros [= <- <-]. exists (https_options url timeout_ms), t. bool_hyps. apply Nat.ltb_lt in El.
      split; [done|]. by split_and!.
    + destruct (deliver _ _) as [sink taken]. cbn [fst] in Hd. by rewrite Hd.
  - intros (opts & t & (H1 & H2 & H3 & H4 & H5 & H6 & H7) & Ht & Hok & Hst & -> & -> & Hl).
    assert (opts = https_options url timeout_ms) as ->.
    { destruct opts. simpl in *. by subst. }
    rewrite Ht. pose proof (deliver_spec (ct_chunks t) "" body_cap false ltac:(simpl; lia)) as Hd.
    cbv zeta in Hd. cbn [String.append String.length] in Hd. change (fold_right _ _ _) with (entity t) in Hd.
    rewrite (proj2 (Nat.ltb_lt _ _) Hl) in Hd. rewrite Hd. cbn [sink_overflow sink_body sink_len andb].
    rewrite Hok. cbn [negb]. rewrite (proj2 (Z.ltb_ge _ _)), (proj2 (Z.ltb_ge _ _)) by lia. done.
Qed.

(** At a provider that answers in two chunks. *)
#[local] Instance ex_curl : Curl := fun o =>
  Some (mk_transfer ["{'timezone':"; "'Asia/Taipei'}"] (CURLOPT_PROTOCOLS_STR o =?s "https") 200).

Lemma https_get_all_or_nothing_witness :
  hes_https_get "https://ipapi.co/json/" 4096 0 = Some ("{'timezone':'Asia/Taipei'}", 26%nat) /\
  hes_https_get "https://ipapi.co/json/" 26 0 = None.
Proof.
  split; [|vm_compute; reflexivity].
  apply (https_get_all_or_nothing "https://ipapi.co/json/" 4096 0); [lia|].
  exists (https_options "https://ipapi.co/json/" 0),
    (mk_transfer ["{'timezone':"; "'Asia/Taipei'}"] true 200).
  split_and!; try reflexivity; try discriminate. apply Nat.ltb_lt. reflexivity.
Defined.
