(* ===== verification/GeoTz.v ===== *)
(** * The time zone lookup

    Models src/src/services/time/geo_tz.c: which texts are taken as zone names, the
    provider's answer, the host's own zone, and the two offsets of a zone. The host is
    a record: its files, its zone database as [localtime] reads it, and its clock; the
    process's [TZ] variable is state, since the lookup of the offsets changes it. *)

From S2P Require Import Prelude CLib HesCommon Json Https.

Definition GEO_TZ_NAME_MAX : nat := 64.
Definition GEO_TZ_DEFAULT_URL : string := "https://ipapi.co/json/".
Definition GEO_TZ_DEFAULT_URLS : string := "https://ipapi.co/json/,https://worldtimeapi.org/api/ip".
Definition GEO_TZ_DEFAULT_KEY : string := "timezone".
Definition TZ_DIR : string := "/usr/share/zoneinfo/".
Definition TZ_ENV_SAVE_MAX : nat := 256.

(** ** Zone names *)

Definition zone_char (c : ascii) : bool :=
  (in_range "A" "Z" c || in_range "a" "z" c || in_range "0" "9" c ||
   Ascii.eqb c "/" || Ascii.eqb c "_" || Ascii.eqb c "-" || Ascii.eqb c "+")%bool.

Fixpoint last_char (s : string) : option ascii :=
  match s with
  | EmptyString => None
  | String c EmptyString => Some c
  | String _ r => last_char r
  end.

Definition zone_name_is_sane (name : string) : bool :=
  match name with
  | EmptyString => false
  | String first _ =>
      if (GEO_TZ_NAME_MAX <=? String.length name)%nat then false
      else if negb (str_forallb zone_char name) then false
      else if (Ascii.eqb first "/" || bool_decide (last_char name = Some "/"%char))%bool then false
      else match strstr "//" name with Some _ => false | None => true end
  end.

(** [None] is the return value -1. *)
Definition adopt_zone_name (src : string) (buf_size : nat) : option string :=
  if negb (zone_name_is_sane src) then None
  else if (buf_size <=? String.length src)%nat then None
  else Some (str_take (buf_size - 1) src).

Definition zone_from_path (path : string) (buf_size : nat) : option string :=
  let zone := match strstr "zoneinfo/" path with
              | Some marker => str_drop 9 marker
              | None => path
              end in
  adopt_zone_name zone buf_size.

(** ** A provider's answer *)

Section provider.
Variable json_loads : string -> option json.

Definition provider_value (root : json) (want : string) : option json :=
  match json_object_get (Some root) want with
  | Some v => Some v
  | None =>
      let inside container :=
        match json_object_get (Some root) container with
        | Some (JObject ms) => json_object_get (Some (JObject ms)) want
        | _ => None
        end in
      match inside "data" with Some v => Some v | None => inside "location" end
  end.

Definition geo_tz_parse_json (body : string) (key : option string) (cap : nat) : option string :=
  if (cap =? 0)%nat then None
  else
    let want := match key with Some (String c r) => String c r | _ => GEO_TZ_DEFAULT_KEY end in
    match json_loads body with
    | None => None
    | Some root =>
        match provider_value root want with
        | Some (JString zone) => adopt_zone_name zone cap
        | _ => None
        end
    end.

(** The body is read as the C string in its buffer. *)
Definition geo_tz_detect {curl : Curl} (url : option string) (json_key : option string) (cap : nat)
  (timeout_ms : Z) : option string :=
  if (cap =? 0)%nat then None
  else
    let endpoint := match url with Some (String c r) => String c r | _ => GEO_TZ_DEFAULT_URL end in
    match hes_https_get endpoint HES_HTTPS_BODY_MAX timeout_ms with
    | None => None
    | Some (body, _) => geo_tz_parse_json (c_string body) json_key cap
    end.
End provider.

(** ** The host

    [th_localtime zone t]: the offset from UTC in seconds and [tm_isdst] of the instant
    [t] under [TZ=zone]. *)
Record tz_host := mk_tz_host {
  th_etc_localtime : option string;
  th_access : string -> bool;
  th_localtime : string -> Z -> option (Z * Z);
}.

Definition geo_tz_system_name (h : tz_host) (tz_env : option string) (cap : nat) : option string :=
  if (cap =? 0)%nat then None
  else
    let from_env :=
      match tz_env with
      | Some (String c r) =>
          match (if Ascii.eqb c ":" then r else String c r) with
          | EmptyString => None
          | tz => zone_from_path tz cap
          end
      | _ => None
      end in
    match from_env with
    | Some name => Some name
    | None =>
        match th_etc_localtime h with
        | Some (String c r) => zone_from_path (c_string (str_take 511 (String c r))) cap
        | _ => None
        end
    end.

(** ** The calendar

    [gmtime] and [timegm] of the C library, as far as the sources use them: the year of
    an instant, and noon on the first day of a month. *)

Definition leap_year (y : Z) : bool :=
  ((y mod 4 =? 0) && (negb (y mod 100 =? 0) || (y mod 400 =? 0)))%bool.

(** Days from 1970-01-01 to the first of January of [y]. *)
Definition days_before_year (y : Z) : Z :=
  365 * (y - 1970) + ((y - 1) / 4 - (y - 1) / 100 + (y - 1) / 400) - 477.

Definition days_before_month (y mon : Z) : Z :=
  byte_at [0; 31; 59; 90; 120; 151; 181; 212; 243; 273; 304; 334] (Z.to_nat mon) +
  (if ((2 <=? mon) && leap_year y)%bool then 1 else 0).

Definition first_of_month_utc (year mon : Z) : Z :=
  (days_before_year year + days_before_month year mon) * 86400 + 12 * 3600.

(** The year of a day number, by the 400-year cycle that starts on 1 March 0000. *)
Definition year_of_day (d : Z) : Z :=
  let z := d + 719468 in
  let era := z / 146097 in
  let doe := z mod 146097 in
  let yoe := (doe - doe / 1460 + doe / 36524 - doe / 146096) / 365 in
  let doy := doe - (365 * yoe + yoe / 4 - yoe / 100) in
  yoe + era * 400 + (if 306 <=? doy then 1 else 0).

Definition gmtime_year (t : Z) : Z := year_of_day (t / 86400).

(** ** The offsets of a zone *)

(** The standard offset and the daylight adjustment out of the two samples. *)
Definition offset_pair (jan jul : Z * Z) : Z * Z :=
  let jan_off := int32 (Z.quot (fst jan) 60) in
  let jul_off := int32 (Z.quot (fst jul) 60) in
  let jan_dst := 0 <? snd jan in
  let jul_dst := 0 <? snd jul in
  if (jan_dst && negb jul_dst)%bool then (jul_off, jan_off - jul_off)
  else if (jul_dst && negb jan_dst)%bool then (jan_off, jul_off - jan_off)
  else if (negb jan_dst && negb jul_dst)%bool then (jan_off, 0)
  else (jan_off, jul_off - jan_off).

Definition tz_path (name : string) : string := (TZ_DIR ++ name)%string.

(** [now] is [hes_clock_now()]. The result and the variable [TZ] afterwards. *)
Definition geo_tz_offsets (h : tz_host) (now : Z) (tz_env : option string) (name : string)
  : option (Z * Z) * option string :=
  if negb (zone_name_is_sane name) then (None, tz_env)
  else if ((String.length TZ_DIR + 1 + GEO_TZ_NAME_MAX + 1 <=? String.length (tz_path name))%nat
           || negb (th_access h (tz_path name)))%bool then (None, tz_env)
  else
    let saved := match tz_env with
                 | Some current =>
                     if (String.length current <? TZ_ENV_SAVE_MAX)%nat then current else ""
                 | None => ""
                 end in
    let year := gmtime_year now in
    let pair :=
      match th_localtime h name (first_of_month_utc year 0), th_localtime h name (first_of_month_utc year 6) with
      | Some jan, Some jul => Some (offset_pair jan jul)
      | _, _ => None
      end in
    (pair, match tz_env with Some _ => Some saved | None => None end).
