(* ===== verification/GeoTzFacts.v ===== *)
(** * The time zone lookup: properties

    Which names can reach the zone database, what the offsets of a zone are, what the
    lookup leaves in the process's TZ, and that the calendar is the Gregorian one. *)

From S2P Require Import Prelude CLib HesCommon Json Https GeoTz.

(** ** Zone names *)

(** A relative path of non-empty components over letters, digits, '_', '-' and '+'. *)
Definition zone_ok (n : string) : Prop :=
  n <> "" /\ (String.length n < GEO_TZ_NAME_MAX)%nat /\ str_forallb zone_char n = true /\
  forall a b, n = (a ++ "/" ++ b)%string -> a <> "" /\ b <> "" /\ forall r, b <> ("/" ++ r)%string.

Lemma strstr_spec needle s :
  strstr needle s = None <-> forall a b, s <> (a ++ needle ++ b)%string.
Proof.
  assert (Hp : forall s, str_prefix needle s = true <-> exists r, s = (needle ++ r)%string)
    by (intros; apply str_prefix_spec).
  induction s as [|c s IH].
  - cbn [strstr]. specialize (Hp ""). destruct (str_prefix needle "").
    + split; [done|]. intros H. destruct (proj1 Hp eq_refl) as [r Hr]. by destruct (H "" r).
    + split; [|done]. intros _ a b Hab. destruct a; [|done]. assert (false = true) by (apply Hp; by exists b). done.
  - cbn [strstr]. specialize (Hp (String c s)). destruct (str_prefix needle (String c s)).
    + split; [done|]. intros H. destruct (proj1 Hp eq_refl) as [r Hr]. by destruct (H "" r).
    + rewrite IH. split.
      * intros H a b Hab. destruct a as [|c' a]; [assert (false = true) by (apply Hp; by exists b); done|].
        injection Hab as _ Hab. by apply (H a b).
      * intros H a b ->. by apply (H (String c a) b).
Qed.

Lemma last_char_spec s c : last_char s = Some c <-> exists a, s = (a ++ String c "")%string.
Proof.
  induction s as [|d s IH]; [split; [done|by intros [[|??] ?]]|].
  destruct s as [|e s].
  - simpl. split; [intros [= ->]; by exists ""|]. intros [[|? [|??]] [= ->]]; done.
  - change (last_char (String d (String e s))) with (last_char (String e s)). rewrite IH. split.
    + intros [a Ha]. exists (String d a). by rewrite Ha.
    + intros [[|d' a] Ha]; [done|]. injection Ha as -> Ha. by exists a.
Qed.

Lemma zone_name_is_sane_spec n : zone_name_is_sane n = true <-> zone_ok n.
Proof.
  unfold zone_ok, zone_name_is_sane. destruct n as [|c n]; [by split; [|intros [? _]]|].
  set (s := String c n). destruct (GEO_TZ_NAME_MAX <=? String.length s)%nat eqn:E1.
  { apply Nat.leb_le in E1. split; [done|]. lia. }
  apply Nat.leb_gt in E1. destruct (str_forallb zone_char s) eqn:E2; cbn [negb]; [|by split; [|intros (_ & _ & ? & _)]].
  destruct (Ascii.eqb c "/") eqn:E3; cbn [orb].
  { apply ascii_eqb_eq in E3 as ->. split; [done|]. intros (_ & _ & _ & H). by destruct (H "" n eq_refl). }
  case_bool_decide as E4.
  { apply last_char_spec in E4 as [a Ha]. split; [done|]. intros (_ & _ & _ & H).
    by destruct (H a "" Ha) as (_ & ? & _). }
  destruct (strstr "//" s) eqn:E5; split; try done.
  - intros (_ & _ & _ & H). exfalso. enough (strstr "//" s = None) by congruence.
    apply strstr_spec. intros a b Hab. destruct (H a (String "/" b) Hab) as (_ & _ & H3). by apply (H3 b).
  - intros _. split_and!; [done|done|done|]. intros a b Hab. split_and!.
    + intros ->. injection Hab as -> _. done.
    + intros ->. apply E4, last_char_spec. by exists a.
    + intros r ->. exact (proj1 (strstr_spec _ _) E5 a r Hab).
Qed.

Lemma adopt_zone_name_spec src cap n :
  adopt_zone_name src cap = Some n <-> n = src /\ zone_ok src /\ (String.length src < cap)%nat.
Proof.
  unfold adopt_zone_name. rewrite <- zone_name_is_sane_spec. destruct (zone_name_is_sane src); cbn [negb];
    [|by split; [|intros (_ & ? & _)]].
  destruct (cap <=? String.length src)%nat eqn:E.
  - apply Nat.leb_le in E. split; [done|]. lia.
  - apply Nat.leb_gt in E. rewrite str_take_ge by lia. split; [by intros [= ->]|by intros (-> & _)].
Qed.

Lemma geo_tz_offsets_name h now tz_env n :
  fst (geo_tz_offsets h now tz_env n) <> None -> zone_ok n /\ (String.length n < GEO_TZ_NAME_MAX)%nat.
Proof.
  unfold geo_tz_offsets. destruct (zone_name_is_sane n) eqn:E; [|done]. intros _.
  apply zone_name_is_sane_spec in E. split; [done|apply E].
Qed.

Lemma parse_json_ok json_loads body key cap n :
  geo_tz_parse_json json_loads body key cap = Some n -> zone_ok n /\ (String.length n < cap)%nat.
Proof.
  unfold geo_tz_parse_json. destruct (cap =? 0)%nat; [done|]. destruct (json_loads body); [|done].
  destruct (provider_value _ _) as [[]|]; try done. by intros (-> & ? & ?)%adopt_zone_name_spec.
Qed.

Lemma system_name_ok h tz_env cap n :
  geo_tz_system_name h tz_env cap = Some n -> zone_ok n /\ (String.length n < cap)%nat.
Proof.
  assert (Hz : forall p, zone_from_path p cap = Some n -> zone_ok n /\ (String.length n < cap)%nat).
  { intros p. unfold zone_from_path. by intros (-> & ? & ?)%adopt_zone_name_spec. }
  unfold geo_tz_system_name. destruct (cap =? 0)%nat; [done|].
  match goal with |- context [match ?x with Some name => Some name | None => _ end] => destruct x as [m|] eqn:E end.
  - intros [= ->]. destruct tz_env as [[|c r]|]; [done| |done].
    destruct (if Ascii.eqb c ":" then r else String c r); [done|]. by eapply Hz.
  - destruct (th_etc_localtime h) as [[|c r]|]; [done| |done]. apply Hz.
Qed.

Lemma zone_char_not_dot n a b : str_forallb zone_char n = true -> n <> (a ++ "." ++ b)%string.
Proof.
  revert n. induction a as [|c a IH]; intros n Hn Hab; subst n; cbn [String.append str_forallb] in Hn.
  - done.
  - apply andb_prop in Hn as [_ Hn]. by apply (IH _ Hn).
Qed.

(** C35: Whatever a provider answers and whatever the host's TZ and /etc/localtime hold,
    a name that is adopted fits its buffer and is a relative path of non-empty
    components of letters, digits, '_', '-' and '+', so that the file looked up for it
    lies in the zone database; and a name that is not so is never looked up. *)
Theorem zone_names_are_safe {curl : Curl} json_loads h tz_env url key cap timeout n :
  (geo_tz_detect json_loads url key cap timeout = Some n \/ geo_tz_system_name h tz_env cap = Some n ->
   zone_ok n /\ (String.length n < cap)%nat /\ forall a b, n <> (a ++ "." ++ b)%string) /\
  (~ zone_ok n -> forall now, geo_tz_offsets h now tz_env n = (None, tz_env)).
Proof.
  split.
  - intros H. enough (zone_ok n /\ (String.length n < cap)%nat) as [Hz Hl].
    { split_and!; [done|done|]. intros a b. apply zone_char_not_dot, Hz. }
    destruct H as [H|H]; [|by eapply system_name_ok].
    unfold geo_tz_detect in H. destruct (cap =? 0)%nat; [done|].
    destruct (hes_https_get _ _ _) as [[body len]|]; [|done]. by eapply parse_json_ok.
  - intros Hn now. unfold geo_tz_offsets. destruct (zone_name_is_sane n) eqn:E; [|done].
    by apply zone_name_is_sane_spec in E.
Qed.

(** ** The calendar *)

Lemma days_before_year_cycle y q : days_before_year (y + 400 * q) = days_before_year y + 146097 * q.
Proof.
  unfold days_before_year.
  replace ((y + 400 * q - 1) / 4) with ((y - 1) / 4 + 100 * q).
  2: { replace (y + 400 * q - 1) with (y - 1 + (100 * q) * 4) by lia. by rewrite Z.div_add by lia. }
  replace ((y + 400 * q - 1) / 100) with ((y - 1) / 100 + 4 * q).
  2: { replace (y + 400 * q - 1) with (y - 1 + (4 * q) * 100) by lia. by rewrite Z.div_add by lia. }
  replace ((y + 400 * q - 1) / 400) with ((y - 1) / 400 + q).
  2: { replace (y + 400 * q - 1) with (y - 1 + q * 400) by lia. by rewrite Z.div_add by lia. }
  lia.
Qed.

Lemma year_of_day_cycle d q : year_of_day (d + 146097 * q) = year_of_day d + 400 * q.
Proof.
  unfold year_of_day. replace (d + 146097 * q + 719468) with (d + 719468 + q * 146097) by lia.
  rewrite Z.div_add, Z.mod_add by lia. lia.
Qed.

Definition year_ok (r k : nat) : bool := year_of_day (days_before_year (Z.of_nat r) + Z.of_nat k) =? Z.of_nat r.

(** The first day, the two candidates for the first of July, and the 365th day. *)
Definition sample_days : list nat := [0; 181; 182; 364]%nat.

Lemma years_of_a_cycle : forallb (fun r => forallb (year_ok r) sample_days) (seq 0 400) = true.
Proof. vm_compute. reflexivity. Qed.

Lemma year_of_day_spec y k :
  k ∈ sample_days -> year_of_day (days_before_year y + Z.of_nat k) = y.
Proof.
  intros Hk. rewrite (Z.div_mod y 400) by lia. set (r := y mod 400). set (q := y / 400).
  assert (Hr : 0 <= r < 400) by (apply Z.mod_pos_bound; lia).
  replace (400 * q + r) with (r + 400 * q) by lia. rewrite days_before_year_cycle.
  replace (days_before_year r + 146097 * q + Z.of_nat k)
    with (days_before_year r + Z.of_nat k + 146097 * q) by lia.
  rewrite year_of_day_cycle. f_equal.
  pose proof years_of_a_cycle as H. rewrite forallb_forall in H.
  specialize (H (Z.to_nat r)). rewrite in_seq in H. specialize (H ltac:(lia)). rewrite forallb_forall in H.
  specialize (H k ltac:(by apply list_elem_of_In)).
  unfold year_ok in H. rewrite !Z2Nat.id in H by lia. by apply Z.eqb_eq.
Qed.

(** The samples are noon of the first of January and of July of the year asked for. *)
Lemma first_of_month_year y mon : mon = 0 \/ mon = 6 -> gmtime_year (first_of_month_utc y mon) = y.
Proof.
  intros Hm. unfold gmtime_year, first_of_month_utc. rewrite Z.add_comm, Z.div_add by lia.
  change (12 * 3600 / 86400) with 0. rewrite Z.add_0_l.
  unfold days_before_month, byte_at. destruct Hm as [-> | ->]; simpl.
  - apply (year_of_day_spec y 0). by left.
  - destruct (leap_year y); simpl.
    + apply (year_of_day_spec y 182). by repeat constructor.
    + apply (year_of_day_spec y 181). by repeat constructor.
Qed.

(** ** The offsets *)

(** For a zone in the database the pair is the offset of standard time, sampled
    where daylight saving is not in force, and what daylight saving adds to it, in
    whichever half of the year it is; the pair is that of the year, and does not say
    whether daylight saving is in force now. A TZ of 256 characters or more is lost in
    the lookup: the process goes on with an empty one. *)
Theorem offsets_of_zone h now tz_env name jan jul :
  zone_ok name -> th_access h (tz_path name) = true ->
  th_localtime h name (first_of_month_utc (gmtime_year now) 0) = Some jan ->
  th_localtime h name (first_of_month_utc (gmtime_year now) 6) = Some jul ->
  Z.abs (fst jan) <= 86400 -> Z.abs (fst jul) <= 86400 ->
  exists std dst,
    geo_tz_offsets h now tz_env name =
      (Some (std, dst),
       match tz_env with
       | Some current => Some (if (String.length current <? TZ_ENV_SAVE_MAX)%nat then current else "")
       | None => None
       end) /\
    (0 < snd jan -> snd jul <= 0 -> std = Z.quot (fst jul) 60 /\ std + dst = Z.quot (fst jan) 60) /\
    (snd jan <= 0 -> 0 < snd jul -> std = Z.quot (fst jan) 60 /\ std + dst = Z.quot (fst jul) 60) /\
    (snd jan <= 0 -> snd jul <= 0 -> std = Z.quot (fst jan) 60 /\ dst = 0) /\
    -1440 <= std <= 1440 /\
    forall later, gmtime_year later = gmtime_year now ->
      geo_tz_offsets h later tz_env name = geo_tz_offsets h now tz_env name.
Proof.
  intros Hz Ha Hjan Hjul Bjan Bjul.
  assert (Hq : forall x, Z.abs x <= 86400 -> -1440 <= Z.quot x 60 <= 1440 /\ int32 (Z.quot x 60) = Z.quot x 60).
  { intros x Hx. assert (-1440 <= Z.quot x 60 <= 1440).
    { pose proof (Z.quot_rem' x 60). pose proof (Z.rem_bound_abs x 60). lia. }
    split; [done|]. apply wrap_s_small; simpl; lia. }
  destruct (Hq _ Bjan) as [Rjan Wjan], (Hq _ Bjul) as [Rjul Wjul].
  exists (fst (offset_pair jan jul)), (snd (offset_pair jan jul)).
  assert (Hlen : (String.length name < 64)%nat) by apply Hz.
  assert (Heq : forall now', gmtime_year now' = gmtime_year now -> geo_tz_offsets h now' tz_env name =
    (Some (offset_pair jan jul), match tz_env with
       | Some current => Some (if (String.length current <? TZ_ENV_SAVE_MAX)%nat then current else "")
       | None => None end)).
  { intros now' Hy. unfold geo_tz_offsets. rewrite (proj2 (zone_name_is_sane_spec name) Hz), Ha, Hy, Hjan, Hjul.
    rewrite (proj2 (Nat.leb_gt _ _)); [by destruct tz_env|].
    unfold tz_path, GEO_TZ_NAME_MAX. rewrite length_str_app. simpl. lia. }
  split; [rewrite (Heq now eq_refl); by destruct (offset_pair jan jul)|].
  split_and!; try (intros later Hl; by rewrite (Heq later Hl), (Heq now eq_refl)).
  all: unfold offset_pair; rewrite Wjan, Wjul;
    destruct (Z.ltb_spec 0 (snd jan)), (Z.ltb_spec 0 (snd jul)); simpl; lia.
Qed.

(** ** The statements at concrete inputs *)

Definition ex_zones (zone : string) (t : Z) : option (Z * Z) :=
  if zone =?s "Europe/Paris" then Some (if t =? first_of_month_utc 2025 6 then (7200, 1) else (3600, 0)) else None.

Definition ex_host : tz_host :=
  mk_tz_host (Some "../usr/share/zoneinfo/Europe/Paris") (fun p => p =?s tz_path "Europe/Paris") ex_zones.

#[local] Instance no_curl : Curl := fun _ => None.

Lemma zone_names_are_safe_witness :
  geo_tz_system_name ex_host None 64 = Some "Europe/Paris" /\ zone_ok "Europe/Paris" /\
  fst (geo_tz_offsets ex_host 1735732800 None "../../etc/passwd") = None.
Proof.
  assert (H : geo_tz_system_name ex_host None 64 = Some "Europe/Paris") by (vm_compute; reflexivity).
  split; [exact H|]. split.
  - apply (zone_names_are_safe (fun _ => None) ex_host None None None 64 0). right. exact H.
  - destruct (zone_names_are_safe (fun _ => None) ex_host None None None 64 0 "../../etc/passwd") as [_ Hn].
    rewrite Hn; [reflexivity|]. intros Hz. apply zone_name_is_sane_spec in Hz. vm_compute in Hz. discriminate.
Defined.

Lemma offsets_of_zone_witness :
  exists std dst, fst (geo_tz_offsets ex_host 1735732800 None "Europe/Paris") = Some (std, dst) /\
    std = 60 /\ std + dst = 120.
Proof.
  assert (Hz : zone_ok "Europe/Paris") by (apply zone_name_is_sane_spec; vm_compute; reflexivity).
  destruct (offsets_of_zone ex_host 1735732800 None "Europe/Paris" (3600, 0) (7200, 1) Hz
    ltac:(vm_compute; reflexivity) ltac:(vm_compute; reflexivity) ltac:(vm_compute; reflexivity)
    ltac:(simpl; lia) ltac:(simpl; lia)) as (std & dst & H & _ & H2 & _).
  exists std, dst. rewrite H. split; [reflexivity|]. destruct H2 as [-> H2]; [simpl; lia|simpl; lia|].
  split; [reflexivity|exact H2].
Defined.
