(* ===== verification/Sntp.v ===== *)
(** * The SNTP client

    Models src/src/services/time/sntp.c: the NTP timestamps, the request, the checks
    and the arithmetic behind the offset of a reply, and the walk over a server's
    addresses. What the sockets and the clock did at one address is a [udp_peer].
    [long long] arithmetic is checked: [None] is a signed overflow. *)

From S2P Require Import Prelude CLib HesCommon.

Definition SNTP_PACKET_LEN : nat := 48.
Definition SNTP_UNIX_EPOCH_DELTA : Z := 2208988800.
Definition SNTP_MAX_OFFSET_NS : Z := 86400 * NS_PER_SEC.
Definition SNTP_MAX_DELAY_NS : Z := 60 * NS_PER_SEC.
Definition NTP_ORIGINATE_TS : nat := 24.
Definition NTP_RECEIVE_TS : nat := 32.
Definition NTP_TRANSMIT_TS : nat := 40.

Definition ll (x : Z) : option Z :=
  if ((LONG_MIN <=? x) && (x <=? LONG_MAX))%bool then Some x else None.

Definition read_be32 (p : bytes) : Z :=
  uint32 (Z.lor (Z.lor (Z.lor (Z.shiftl (byte_at p 0) 24) (Z.shiftl (byte_at p 1) 16))
                       (Z.shiftl (byte_at p 2) 8)) (byte_at p 3)).

Definition write_be32 (v : Z) : bytes :=
  [uint8 (Z.shiftr v 24); uint8 (Z.shiftr v 16); uint8 (Z.shiftr v 8); uint8 v].

Definition timespec_to_ns (ts : timespec) : option Z :=
  let* s := ll (fst ts * NS_PER_SEC) in ll (s + snd ts).

(** Division and remainder of C truncate. *)
Definition unix_ns_to_ntp_ts (unix_ns : Z) : bytes :=
  let sec := Z.quot unix_ns NS_PER_SEC in
  let rem_ns := Z.rem unix_ns NS_PER_SEC in
  let '(sec, rem_ns) := if rem_ns <? 0 then (sec - 1, rem_ns + NS_PER_SEC) else (sec, rem_ns) in
  write_be32 (uint32 (sec + SNTP_UNIX_EPOCH_DELTA)) ++
  write_be32 (uint32 (Z.quot (Z.shiftl rem_ns 32) NS_PER_SEC)).

Definition ntp_ts_to_unix_ns (p : bytes) : option Z :=
  let sec := read_be32 p in
  let frac := read_be32 (drop 4 p) in
  if sec <? SNTP_UNIX_EPOCH_DELTA then None
  else Some ((sec - SNTP_UNIX_EPOCH_DELTA) * NS_PER_SEC + Z.shiftr (frac * NS_PER_SEC) 32).

Definition sntp_build_request (now : timespec) : option bytes :=
  let packet := store (replicate SNTP_PACKET_LEN 0) 0 [uint8 (Z.lor (Z.shiftl 4 3) 3)] in
  let* ns := timespec_to_ns now in
  Some (store packet NTP_TRANSMIT_TS (unix_ns_to_ntp_ts ns)).

Record sntp_result_t := mk_sntp_result {
  sr_offset_ns : Z;
  sr_delay_ms : Z;
  sr_stratum : Z;
  sr_leap : Z;
  sr_server_time : Z;
}.

(** The inner [None] is the return value -1, with the result untouched. *)
Definition sntp_compute_offset (request reply : bytes) (reply_len : Z) (local_recv : timespec)
  : option (option sntp_result_t) :=
  if reply_len <? Z.of_nat SNTP_PACKET_LEN then Some None
  else
    let leap := Z.shiftr (byte_at reply 0) 6 in
    let mode := Z.land (byte_at reply 0) 7 in
    let stratum := byte_at reply 1 in
    if negb (mode =? 4) then Some None
    else if leap =? 3 then Some None
    else if stratum =? 0 then Some None
    else if 15 <? stratum then Some None
    else if negb (bool_decide (take 8 (drop NTP_ORIGINATE_TS reply) = take 8 (drop NTP_TRANSMIT_TS request)))
    then Some None
    else
      match ntp_ts_to_unix_ns (drop NTP_TRANSMIT_TS request),
            ntp_ts_to_unix_ns (drop NTP_RECEIVE_TS reply),
            ntp_ts_to_unix_ns (drop NTP_TRANSMIT_TS reply) with
      | Some t1, Some t2, Some t3 =>
          let* t4 := timespec_to_ns local_recv in
          if t3 <? t2 then Some None
          else
            let* there_and_back := ll (t4 - t1) in
            let* at_server := ll (t3 - t2) in
            let* delay := ll (there_and_back - at_server) in
            if ((delay <? 0) || (SNTP_MAX_DELAY_NS <? delay))%bool then Some None
            else
              let* ahead_out := ll (t2 - t1) in
              let* ahead_back := ll (t3 - t4) in
              let* twice := ll (ahead_out + ahead_back) in
              let offset := Z.quot twice 2 in
              if ((SNTP_MAX_OFFSET_NS <? offset) || (offset <? - SNTP_MAX_OFFSET_NS))%bool then Some None
              else
                Some (Some (mk_sntp_result offset (Z.quot delay 1000000) stratum leap (Z.quot t3 NS_PER_SEC)))
      | _, _, _ => Some None
      end.

(** ** One query

    What happens at one address: whether the socket opened and connected, the two clock
    readings, how much of the request was sent, and what [recv] returned under its
    timeout (a negative size: nothing). *)
Record udp_peer := mk_peer {
  pr_socket : bool;
  pr_connect : bool;
  pr_t1 : timespec;
  pr_send : bytes -> Z;
  pr_recv : Z * Z -> bytes -> Z * bytes;
  pr_t4 : timespec;
}.

Definition sntp_attempt (tv : Z * Z) (ai : udp_peer) : option (option sntp_result_t) :=
  if negb (pr_socket ai) then Some None
  else if negb (pr_connect ai) then Some None
  else
    let* request := sntp_build_request (pr_t1 ai) in
    if negb (pr_send ai request =? Z.of_nat SNTP_PACKET_LEN) then Some None
    else
      let '(n, reply) := pr_recv ai tv request in
      if n <? Z.of_nat SNTP_PACKET_LEN then Some None
      else sntp_compute_offset request reply n (pr_t4 ai).

Fixpoint sntp_attempts (tv : Z * Z) (res : list udp_peer) : option (option sntp_result_t) :=
  match res with
  | [] => Some None
  | ai :: res' =>
      let* r := sntp_attempt tv ai in
      match r with Some _ => Some r | None => sntp_attempts tv res' end
  end.

Definition receive_timeout (timeout_ms : Z) : Z * Z :=
  let timeout_ms := if timeout_ms <=? 0 then 3000 else timeout_ms in
  let sec := Z.quot timeout_ms 1000 in
  let usec := Z.rem timeout_ms 1000 * 1000 in
  if ((sec =? 0) && (usec =? 0))%bool then (1, usec) else (sec, usec).

(** [getaddrinfo]: the addresses of a name, [None] when it does not resolve. *)
Definition sntp_query (getaddrinfo : string -> option (list udp_peer)) (server : string) (timeout_ms : Z)
  : option (option sntp_result_t) :=
  match getaddrinfo server with
  | None => Some None
  | Some res => sntp_attempts (receive_timeout timeout_ms) res
  end.

(** ** Timestamps *)

Lemma ll_small x : LONG_MIN <= x <= LONG_MAX -> ll x = Some x.
Proof. intros Hx. unfold ll. destruct (Z.leb_spec LONG_MIN x), (Z.leb_spec x LONG_MAX); simpl; (done || lia). Qed.

Lemma ll_inv x y : ll x = Some y -> y = x /\ LONG_MIN <= x <= LONG_MAX.
Proof. unfold ll. destruct (_ && _)%bool eqn:E; [|done]. intros [= <-]. bool_hyps. lia. Qed.

Lemma lor_add a b n : 0 <= n -> 0 <= b < 2 ^ n -> Z.lor (Z.shiftl a n) b = a * 2 ^ n + b.
Proof.
  intros Hn Hb. rewrite <- Z.shiftl_mul_pow2 by done. rewrite <- Z.add_lor_land.
  enough (Z.land (Z.shiftl a n) b = 0) by lia. apply Z.bits_inj'. intros i Hi. rewrite Z.land_spec, Z.bits_0.
  destruct (Z.lt_ge_cases i n).
  - by rewrite Z.shiftl_spec_low.
  - destruct (Z.eq_dec b 0) as [->|]; [by rewrite Z.bits_0, andb_false_r|].
    rewrite (Z.bits_above_log2 b); [by rewrite andb_false_r|lia|]. apply Z.log2_lt_pow2; [lia|].
    apply Z.lt_le_trans with (2 ^ n); [lia|]. by apply Z.pow_le_mono_r; lia.
Qed.

Lemma read_be32_value a b c d r :
  byte a -> byte b -> byte c -> byte d ->
  read_be32 (a :: b :: c :: d :: r) = ((a * 256 + b) * 256 + c) * 256 + d.
Proof.
  unfold byte, read_be32. intros Ha Hb Hc Hd.
  change (byte_at _ 0) with a. change (byte_at _ 1) with b. change (byte_at _ 2) with c. change (byte_at _ 3) with d.
  replace (Z.shiftl a 24) with (Z.shiftl (Z.shiftl a 8) 16) by by rewrite Z.shiftl_shiftl.
  rewrite <- Z.shiftl_lor, (lor_add a b 8) by lia.
  replace (Z.shiftl (a * 2 ^ 8 + b) 16) with (Z.shiftl (Z.shiftl (a * 2 ^ 8 + b) 8) 8) by by rewrite Z.shiftl_shiftl.
  rewrite <- Z.shiftl_lor, (lor_add _ c 8), (lor_add _ d 8) by lia. rewrite wrap_u_small; lia.
Qed.

Lemma read_write_be32 v r : 0 <= v < 2 ^ 32 -> read_be32 (write_be32 v ++ r) = v.
Proof.
  intros Hv. unfold write_be32. cbn [app].
  assert (Hb : forall x, byte (uint8 x)) by (intros x; apply (wrap_u_range 8 x); lia).
  rewrite read_be32_value by apply Hb. unfold wrap_u. rewrite !Z.shiftr_div_pow2 by lia.
  change (2 ^ 8) with 256. change (2 ^ 16) with (256 * 256). change (2 ^ 24) with (256 * 256 * 256).
  rewrite <- !Z.div_div by lia.
  pose proof (Z.div_mod v 256). pose proof (Z.div_mod (v / 256) 256). pose proof (Z.div_mod (v / 256 / 256) 256).
  rewrite (Z.mod_small (v / 256 / 256 / 256)); [lia|].
  split; [repeat apply Z.div_pos; lia|]. repeat apply Z.div_lt_upper_bound; lia.
Qed.

Lemma read_be32_range p : 0 <= read_be32 p < 2 ^ 32.
Proof. apply wrap_u_range. lia. Qed.

(** Instants NTP's 32-bit seconds can name without wrapping: 1970 to 2036. *)
Definition in_ntp_era (ns : Z) : Prop := 0 <= ns < (2 ^ 32 - SNTP_UNIX_EPOCH_DELTA) * NS_PER_SEC.

Lemma ntp_decode_range p t : ntp_ts_to_unix_ns p = Some t -> in_ntp_era t.
Proof.
  unfold ntp_ts_to_unix_ns, in_ntp_era. destruct (_ <? _) eqn:E; [done|]. intros [= <-]. bool_hyps.
  pose proof (read_be32_range p). pose proof (read_be32_range (drop 4 p)).
  rewrite Z.shiftr_div_pow2 by lia.
  assert (0 <= read_be32 (drop 4 p) * NS_PER_SEC / 2 ^ 32 < NS_PER_SEC).
  { unfold NS_PER_SEC in *. split; [apply Z.div_pos; lia|apply Z.div_lt_upper_bound; lia]. }
  unfold NS_PER_SEC, SNTP_UNIX_EPOCH_DELTA in *. lia.
Qed.

(** The decoder of what the encoder wrote, in closed form. *)
Lemma ntp_decode_encode ns r :
  ntp_ts_to_unix_ns (unix_ns_to_ntp_ts ns ++ r) =
  let sec := uint32 (ns / NS_PER_SEC + SNTP_UNIX_EPOCH_DELTA) in
  if sec <? SNTP_UNIX_EPOCH_DELTA then None
  else Some ((sec - SNTP_UNIX_EPOCH_DELTA) * NS_PER_SEC +
             (ns mod NS_PER_SEC * 2 ^ 32 / NS_PER_SEC) * NS_PER_SEC / 2 ^ 32).
Proof.
  unfold unix_ns_to_ntp_ts.
  assert (Hqr : (if Z.rem ns NS_PER_SEC <? 0
                 then (Z.quot ns NS_PER_SEC - 1, Z.rem ns NS_PER_SEC + NS_PER_SEC)
                 else (Z.quot ns NS_PER_SEC, Z.rem ns NS_PER_SEC))
                = (ns / NS_PER_SEC, ns mod NS_PER_SEC)).
  { unfold NS_PER_SEC. pose proof (Z.quot_rem' ns 1000000000). pose proof (Z.div_mod ns 1000000000).
    pose proof (Z.mod_pos_bound ns 1000000000). pose proof (Z.rem_bound_abs ns 1000000000).
    destruct (Z.ltb_spec (Z.rem ns 1000000000) 0); f_equal; lia. }
  rewrite Hqr. unfold ntp_ts_to_unix_ns. rewrite <- app_assoc.
  assert (Hd : forall v s, drop 4 (write_be32 v ++ s) = s) by done. rewrite Hd.
  pose proof (Z.mod_pos_bound ns NS_PER_SEC ltac:(done)) as Hm.
  rewrite Z.shiftl_mul_pow2, Z.quot_div_nonneg by (unfold NS_PER_SEC in *; lia).
  rewrite !read_write_be32 by apply (wrap_u_range 32 _ ltac:(lia)).
  rewrite (wrap_u_small 32 (_ * 2 ^ 32 / _)).
  2: { split; [apply Z.div_pos; unfold NS_PER_SEC in *; lia|].
       apply Z.div_lt_upper_bound; unfold NS_PER_SEC in *; lia. }
  by rewrite Z.shiftr_div_pow2 by lia.
Qed.
