(* ===== verification/SntpFacts.v ===== *)
(** * The SNTP client: properties

    The timestamps' round trip, what an accepted reply guarantees, that an honest
    server's reply is accepted and its offset is right to within half the round trip,
    that the arithmetic cannot overflow, and which server a query takes. *)

From S2P Require Import Prelude CLib HesCommon Sntp.

(** The fraction of a second loses less than a nanosecond on the way. *)
Lemma fraction_error m :
  0 <= m < NS_PER_SEC -> m - 1 <= (m * 2 ^ 32 / NS_PER_SEC) * NS_PER_SEC / 2 ^ 32 <= m.
Proof.
  unfold NS_PER_SEC. intros Hm.
  pose proof (Z.div_mod (m * 2 ^ 32) 1000000000). pose proof (Z.mod_pos_bound (m * 2 ^ 32) 1000000000).
  split; [apply Z.div_le_lower_bound; lia|apply Z.div_le_upper_bound; lia].
Qed.

Lemma decode_encode_era ns r :
  in_ntp_era ns -> exists t, ntp_ts_to_unix_ns (unix_ns_to_ntp_ts ns ++ r) = Some t /\ ns - 1 <= t <= ns.
Proof.
  intros [H0 H1]. rewrite ntp_decode_encode. cbv zeta.
  assert (Hq : 0 <= ns / NS_PER_SEC < 2 ^ 32 - SNTP_UNIX_EPOCH_DELTA).
  { unfold NS_PER_SEC in *. split; [apply Z.div_pos; lia|apply Z.div_lt_upper_bound; lia]. }
  rewrite wrap_u_small by (unfold SNTP_UNIX_EPOCH_DELTA in *; lia).
  rewrite (proj2 (Z.ltb_ge _ _)) by lia. eexists. split; [reflexivity|].
  pose proof (Z.mod_pos_bound ns NS_PER_SEC ltac:(done)) as Hm.
  pose proof (fraction_error _ Hm). pose proof (Z.div_mod ns NS_PER_SEC ltac:(done)). lia.
Qed.

(** An instant between 1970 and 2036 written as an NTP timestamp is read back, up
    to a nanosecond less; one of the rest of the span in which the 32-bit seconds do
    not repeat (back to 1900, on to 2106) is refused, not misread. *)
Theorem ntp_timestamp_round_trip ns r :
  (in_ntp_era ns ->
   exists t, ntp_ts_to_unix_ns (unix_ns_to_ntp_ts ns ++ r) = Some t /\ ns - 1 <= t <= ns) /\
  (- SNTP_UNIX_EPOCH_DELTA * NS_PER_SEC <= ns < 2 ^ 32 * NS_PER_SEC -> ~ in_ntp_era ns ->
   ntp_ts_to_unix_ns (unix_ns_to_ntp_ts ns ++ r) = None).
Proof.
  split; [apply decode_encode_era|]. intros [H0 H1] Hera. rewrite ntp_decode_encode. cbv zeta.
  assert (Hq : - SNTP_UNIX_EPOCH_DELTA <= ns / NS_PER_SEC < 2 ^ 32).
  { unfold NS_PER_SEC in *. split; [apply Z.div_le_lower_bound; lia|apply Z.div_lt_upper_bound; lia]. }
  assert (Hn : ns / NS_PER_SEC < 0 \/ 2 ^ 32 - SNTP_UNIX_EPOCH_DELTA <= ns / NS_PER_SEC).
  { unfold in_ntp_era, NS_PER_SEC in *. destruct (Z.lt_ge_cases ns 0); [left|right].
    - apply Z.div_lt_upper_bound; lia.
    - apply Z.div_le_lower_bound; lia. }
  rewrite (proj2 (Z.ltb_lt _ _)); [done|]. unfold wrap_u, SNTP_UNIX_EPOCH_DELTA in *. destruct Hn.
  - rewrite Z.mod_small; lia.
  - rewrite <- (Z.mod_add _ (-1)), Z.mod_small; lia.
Qed.

(** ** What a reply must be *)

Lemma byte_at_byte p i : Forall byte p -> byte (byte_at p i).
Proof.
  intros Hp. unfold byte_at. destruct (p !! i) as [b|] eqn:E; [|unfold byte; simpl; lia].
  by apply (proj1 (Forall_lookup _ _) Hp i b).
Qed.

Lemma leap_range b : byte b -> 0 <= Z.shiftr b 6 <= 3.
Proof.
  unfold byte. intros Hb. rewrite Z.shiftr_div_pow2 by lia.
  split; [apply Z.div_pos; lia|]. assert (b / 2 ^ 6 < 4) by (apply Z.div_lt_upper_bound; lia). lia.
Qed.

Lemma accepted_reply request reply reply_len local_recv r :
  Forall byte reply ->
  sntp_compute_offset request reply reply_len local_recv = Some (Some r) ->
  Z.of_nat SNTP_PACKET_LEN <= reply_len /\
  Z.land (byte_at reply 0) 7 = 4 /\ 0 <= sr_leap r <= 2 /\ 1 <= sr_stratum r <= 15 /\
  take 8 (drop NTP_ORIGINATE_TS reply) = take 8 (drop NTP_TRANSMIT_TS request) /\
  exists t1 t2 t3 t4,
    ntp_ts_to_unix_ns (drop NTP_TRANSMIT_TS request) = Some t1 /\
    ntp_ts_to_unix_ns (drop NTP_RECEIVE_TS reply) = Some t2 /\
    ntp_ts_to_unix_ns (drop NTP_TRANSMIT_TS reply) = Some t3 /\
    timespec_to_ns local_recv = Some t4 /\ t2 <= t3 /\
    0 <= (t4 - t1) - (t3 - t2) <= SNTP_MAX_DELAY_NS /\
    sr_delay_ms r = ((t4 - t1) - (t3 - t2)) / 1000000 /\
    sr_offset_ns r = Z.quot ((t2 - t1) + (t3 - t4)) 2 /\
    - SNTP_MAX_OFFSET_NS <= sr_offset_ns r <= SNTP_MAX_OFFSET_NS /\
    sr_server_time r = t3 / NS_PER_SEC.
Proof.
  intros Hb. unfold sntp_compute_offset.
  pose proof (leap_range _ (byte_at_byte reply 0 Hb)) as Hl. pose proof (byte_at_byte reply 1 Hb) as Hs.
  unfold byte in Hs.
  destruct (reply_len <? _) eqn:E1; [done|]. destruct (negb (_ =? 4)) eqn:E2; [done|].
  destruct (_ =? 3) eqn:E3; [done|]. destruct (byte_at reply 1 =? 0) eqn:E4; [done|].
  destruct (15 <? _) eqn:E5; [done|].
  case_bool_decide as E6; [|done]. cbn [negb].
  destruct (ntp_ts_to_unix_ns (drop NTP_TRANSMIT_TS request)) as [t1|]; [|done].
  destruct (ntp_ts_to_unix_ns (drop NTP_RECEIVE_TS reply)) as [t2|]; [|done].
  destruct (ntp_ts_to_unix_ns (drop NTP_TRANSMIT_TS reply)) as [t3|] eqn:Et3; [|done].
  destruct (timespec_to_ns local_recv) as [t4|]; [|done].
  destruct (t3 <? t2) eqn:E7; [done|].
  destruct (ll (t4 - t1)) as [a|] eqn:Ea; [|done]. destruct (ll (t3 - t2)) as [b|] eqn:Eb; [|done].
  destruct (ll (a - b)) as [delay|] eqn:Ed; [|done]. destruct ((delay <? 0) || _)%bool eqn:E8; [done|].
  destruct (ll (t2 - t1)) as [c|] eqn:Ec; [|done]. destruct (ll (t3 - t4)) as [d|] eqn:Ed'; [|done].
  destruct (ll (c + d)) as [tw|] eqn:Etw; [|done]. destruct ((SNTP_MAX_OFFSET_NS <? _) || _)%bool eqn:E9; [done|].
  intros [= <-]. cbn [sr_offset_ns sr_delay_ms sr_stratum sr_leap sr_server_time].
  apply ll_inv in Ea as [-> _], Eb as [-> _], Ec as [-> _], Ed' as [-> _].
  apply ll_inv in Ed as [-> _], Etw as [-> _]. bool_hyps. apply ntp_decode_range in Et3 as [Ht3 _].
  split_and!; try lia; [done|]. exists t1, t2, t3, t4.
  split_and!; try (done || lia); apply Z.quot_div_nonneg; unfold NS_PER_SEC in *; lia.
Qed.

(** A reply is accepted only if it is a synchronized server's (mode 4, leap 0 to 2,
    stratum 1 to 15), echoes the request's transmit timestamp, and its own timestamps
    are in order; the result is then the offset of the exchange's four timestamps, of
    a day at most, with a round trip of a minute at most. *)
Theorem accepted_reply_is_sound request reply reply_len local_recv r :
  Forall byte reply ->
  sntp_compute_offset request reply reply_len local_recv = Some (Some r) ->
  Z.of_nat SNTP_PACKET_LEN <= reply_len /\
  Z.land (byte_at reply 0) 7 = 4 /\ 0 <= sr_leap r <= 2 /\ 1 <= sr_stratum r <= 15 /\
  take 8 (drop NTP_ORIGINATE_TS reply) = take 8 (drop NTP_TRANSMIT_TS request) /\
  exists t1 t2 t3 t4,
    ntp_ts_to_unix_ns (drop NTP_TRANSMIT_TS request) = Some t1 /\
    ntp_ts_to_unix_ns (drop NTP_RECEIVE_TS reply) = Some t2 /\
    ntp_ts_to_unix_ns (drop NTP_TRANSMIT_TS reply) = Some t3 /\
    timespec_to_ns local_recv = Some t4 /\ t2 <= t3 /\
    0 <= (t4 - t1) - (t3 - t2) <= SNTP_MAX_DELAY_NS /\
    sr_delay_ms r = ((t4 - t1) - (t3 - t2)) / 1000000 /\
    sr_offset_ns r = Z.quot ((t2 - t1) + (t3 - t4)) 2 /\
    - SNTP_MAX_OFFSET_NS <= sr_offset_ns r <= SNTP_MAX_OFFSET_NS /\
    sr_server_time r = t3 / NS_PER_SEC.
Proof. apply accepted_reply. Qed.

(** ** No input makes the arithmetic overflow *)

(** A clock reading of the era of 32-bit seconds, before 2106. *)
Definition clock_time (ts : timespec) : Prop := 0 <= fst ts < 2 ^ 32 /\ 0 <= snd ts < NS_PER_SEC.

Lemma timespec_to_ns_clock ts :
  clock_time ts -> timespec_to_ns ts = Some (fst ts * NS_PER_SEC + snd ts).
Proof.
  unfold clock_time, timespec_to_ns, NS_PER_SEC. intros [H1 H2].
  by rewrite !ll_small by (unfold LONG_MIN, LONG_MAX; lia).
Qed.

Ltac ll_step :=
  match goal with
  | |- context [ll ?x] => rewrite (ll_small x) by (unfold LONG_MIN, LONG_MAX, NS_PER_SEC, SNTP_UNIX_EPOCH_DELTA in *; lia)
  end.

Lemma compute_offset_total request reply reply_len local_recv :
  clock_time local_recv -> sntp_compute_offset request reply reply_len local_recv <> None.
Proof.
  intros Hc. unfold sntp_compute_offset. rewrite (timespec_to_ns_clock _ Hc). destruct Hc as [H1 H2].
  do 6 (case_match; [done|]).
  destruct (ntp_ts_to_unix_ns (drop NTP_TRANSMIT_TS request)) as [t1|] eqn:E1; [|done].
  destruct (ntp_ts_to_unix_ns (drop NTP_RECEIVE_TS reply)) as [t2|] eqn:E2; [|done].
  destruct (ntp_ts_to_unix_ns (drop NTP_TRANSMIT_TS reply)) as [t3|] eqn:E3; [|done].
  apply ntp_decode_range in E1, E2, E3. unfold in_ntp_era in *.
  destruct (t3 <? t2) eqn:E; [done|]. repeat ll_step. case_match; [done|]. repeat ll_step. by case_match.
Qed.

(** Whatever bytes the request and the reply hold and however long the reply is,
    the offset of a reply received before 2106 is computed without a signed overflow. *)
Theorem compute_offset_never_overflows request reply reply_len local_recv :
  clock_time local_recv -> sntp_compute_offset request reply reply_len local_recv <> None.
Proof. apply compute_offset_total. Qed.

(** ** An honest server *)

Lemma length_ntp_ts ns : length (unix_ns_to_ntp_ts ns) = 8%nat.
Proof. unfold unix_ns_to_ntp_ts. by destruct (Z.rem ns NS_PER_SEC <? 0). Qed.

Lemma request_layout now request :
  sntp_build_request now = Some request ->
  exists ns, timespec_to_ns now = Some ns /\
    request = 35 :: replicate 39 0 ++ unix_ns_to_ntp_ts ns.
Proof.
  unfold sntp_build_request. destruct (timespec_to_ns now) as [ns|]; [|done]. intros [= <-].
  exists ns. split; [done|]. unfold store. rewrite length_ntp_ts. simpl. by rewrite app_nil_r.
Qed.

Lemma decode_take8 p q : take 8 p = take 8 q -> ntp_ts_to_unix_ns p = ntp_ts_to_unix_ns q.
Proof.
  intros H.
  assert (Hb : forall i, (i < 8)%nat -> byte_at p i = byte_at q i).
  { intros i Hi. unfold byte_at. by rewrite <- (lookup_take_lt p 8 i), <- (lookup_take_lt q 8 i), H by lia. }
  assert (Hd : forall (p : bytes) i, byte_at (drop 4 p) i = byte_at p (4 + i)).
  { intros p0 i. unfold byte_at. by rewrite lookup_drop. }
  unfold ntp_ts_to_unix_ns, read_be32. rewrite !Hd. by rewrite !Hb by lia.
Qed.

(** The quantisation of the three timestamps costs the offset at most 2 ns. *)
Lemma half_round_trip theta d1 d2 e :
  -2 <= e <= 1 -> 0 <= d1 -> 0 <= d2 ->
  2 * Z.abs (Z.quot (2 * theta + d1 - d2 + e) 2 - theta) <= d1 + d2 + 3.
Proof.
  intros He H1 H2. pose proof (Z.quot_rem' (2 * theta + d1 - d2 + e) 2).
  pose proof (Z.rem_bound_abs (2 * theta + d1 - d2 + e) 2). lia.
Qed.

(** A server whose clock is ahead of the gateway's by [theta] answers the request:
    it is received [d1] ns after it was sent, and the answer [d2] ns after it was. Then
    the reply is accepted, and the offset is [theta] up to half the round trip. *)
Theorem honest_reply_gives_offset now recv request reply T1 T2 T3 T4 theta d1 d2 :
  clock_time now -> clock_time recv ->
  timespec_to_ns now = Some T1 -> timespec_to_ns recv = Some T4 ->
  sntp_build_request now = Some request ->
  Z.land (byte_at reply 0) 7 = 4 -> Z.shiftr (byte_at reply 0) 6 <> 3 -> 1 <= byte_at reply 1 <= 15 ->
  take 8 (drop NTP_ORIGINATE_TS reply) = take 8 (drop NTP_TRANSMIT_TS request) ->
  take 8 (drop NTP_RECEIVE_TS reply) = unix_ns_to_ntp_ts T2 ->
  take 8 (drop NTP_TRANSMIT_TS reply) = unix_ns_to_ntp_ts T3 ->
  in_ntp_era T1 -> in_ntp_era T2 -> in_ntp_era T3 ->
  T2 = T1 + theta + d1 -> T4 = T3 - theta + d2 -> T2 < T3 ->
  0 <= d1 -> 0 <= d2 -> 1 <= d1 + d2 <= SNTP_MAX_DELAY_NS - 2 ->
  Z.abs theta <= SNTP_MAX_OFFSET_NS - SNTP_MAX_DELAY_NS ->
  exists r, sntp_compute_offset request reply (Z.of_nat SNTP_PACKET_LEN) recv = Some (Some r) /\
    2 * Z.abs (sr_offset_ns r - theta) <= d1 + d2 + 3 /\
    sr_stratum r = byte_at reply 1.
Proof.
  intros Hc1 Hc4 HT1 HT4 Hreq Hmode Hleap Hst Hecho HR HX He1 He2 He3 H2 H4 H23 Hd1 Hd2 Hd Hth.
  apply request_layout in Hreq as (ns & Hns & ->). assert (ns = T1) as -> by congruence.
  assert (Htx : forall p T, in_ntp_era T -> take 8 p = unix_ns_to_ntp_ts T ->
    exists t, ntp_ts_to_unix_ns p = Some t /\ T - 1 <= t <= T).
  { intros p T HT Hp. rewrite (decode_take8 p (unix_ns_to_ntp_ts T ++ [])); [by apply decode_encode_era|].
    rewrite app_nil_r, Hp, take_ge; [done|]. by rewrite length_ntp_ts. }
  destruct (decode_encode_era T1 [] He1) as (t1 & Et1 & Hq1). rewrite app_nil_r in Et1.
  destruct (Htx _ T2 He2 HR) as (t2 & Et2 & Hq2). destruct (Htx _ T3 He3 HX) as (t3 & Et3 & Hq3).
  unfold sntp_compute_offset. rewrite Z.ltb_irrefl, Hmode, Hecho, bool_decide_true by done.
  cbn [negb Z.eqb Pos.eqb]. rewrite (proj2 (Z.eqb_neq _ _) Hleap), (proj2 (Z.eqb_neq _ 0)) by lia.
  rewrite (proj2 (Z.ltb_ge _ _)) by lia.
  change (drop NTP_TRANSMIT_TS (35 :: _ ++ unix_ns_to_ntp_ts T1)) with (unix_ns_to_ntp_ts T1).
  rewrite Et1, Et2, Et3, HT4. rewrite (proj2 (Z.ltb_ge t3 t2)) by lia.
  unfold in_ntp_era, SNTP_MAX_OFFSET_NS, SNTP_MAX_DELAY_NS in *.
  repeat ll_step. rewrite (proj2 (Z.ltb_ge (_ - _) 0)), (proj2 (Z.ltb_ge _ (_ - _))) by lia. cbn [orb].
  repeat ll_step.
  pose proof (half_round_trip theta d1 d2 ((t2 - T2) + (t3 - T3) - (t1 - T1)) ltac:(lia) Hd1 Hd2) as Ho.
  replace (2 * theta + d1 - d2 + _) with (t2 - t1 + (t3 - T4)) in Ho by lia.
  rewrite (proj2 (Z.ltb_ge _ (Z.quot _ 2))), (proj2 (Z.ltb_ge (Z.quot _ 2) _)) by (unfold NS_PER_SEC in *; lia).
  eexists. by split_and!.
Qed.

(** ** One query *)

Lemma attempts_first tv res r :
  sntp_attempts tv res = Some (Some r) <->
  exists before ai after, res = before ++ ai :: after /\
    Forall (fun a => sntp_attempt tv a = Some None) before /\ sntp_attempt tv ai = Some (Some r).
Proof.
  induction res as [|ai res IH]; cbn [sntp_attempts].
  - split; [done|]. intros (b & a & c & H & _). by apply app_cons_not_nil in H.
  - destruct (sntp_attempt tv ai) as [[r'|]|] eqn:E.
    + split.
      * intros [= ->]. by exists [], ai, res.
      * intros (b & a & c & H & Hb & Ha). destruct b as [|b0 b]; simplify_eq/=; try congruence.
        apply Forall_cons in Hb as [Hb _]. congruence.
    + rewrite IH. split; intros (b & a & c & H & Hb & Ha).
      * exists (ai :: b), a, c. subst res. split; [done|]. split; [by apply Forall_cons|done].
      * destruct b as [|b0 b]; simplify_eq/=; try congruence. apply Forall_cons in Hb as [_ Hb]. by exists b, a, c.
    + split; [done|]. intros (b & a & c & H & Hb & Ha). destruct b as [|b0 b]; simplify_eq/=; try congruence.
      apply Forall_cons in Hb as [Hb _]. congruence.
Qed.

Lemma receive_timeout_range timeout_ms :
  0 < fst (receive_timeout timeout_ms) * 1000000 + snd (receive_timeout timeout_ms) /\
  0 <= snd (receive_timeout timeout_ms) < 1000000.
Proof.
  unfold receive_timeout. set (t := if timeout_ms <=? 0 then 3000 else timeout_ms).
  assert (0 < t) by (subst t; destruct (Z.leb_spec timeout_ms 0); lia).
  pose proof (Z.quot_rem' t 1000). pose proof (Z.rem_bound_pos t 1000).
  assert (0 <= Z.quot t 1000) by (apply Z.quot_pos; lia).
  destruct (_ && _)%bool eqn:E; simpl; lia.
Qed.

(** A query yields the result of the first of the name's addresses that gives a
    usable reply, after every earlier one gave none, and waits a positive time for
    each; a name that does not resolve yields nothing. *)
Theorem query_takes_first_usable getaddrinfo server timeout_ms r :
  (sntp_query getaddrinfo server timeout_ms = Some (Some r) <->
   exists before ai after, getaddrinfo server = Some (before ++ ai :: after) /\
     Forall (fun a => sntp_attempt (receive_timeout timeout_ms) a = Some None) before /\
     sntp_attempt (receive_timeout timeout_ms) ai = Some (Some r)) /\
  (getaddrinfo server = None -> sntp_query getaddrinfo server timeout_ms = Some None) /\
  0 < fst (receive_timeout timeout_ms) * 1000000 + snd (receive_timeout timeout_ms) /\
  0 <= snd (receive_timeout timeout_ms) < 1000000.
Proof.
  unfold sntp_query. split_and!.
  - destruct (getaddrinfo server) as [res|].
    + rewrite attempts_first. split; intros (b & a & c & H & ?); exists b, a, c; [by subst|by injection H].
    + split; [done|]. by intros (b & a & c & H & _).
  - by intros ->.
  - apply receive_timeout_range.
  - apply receive_timeout_range.
  - apply receive_timeout_range.
Qed.

(** *** Lemmas for the worker *)

Lemma bytes_by_test (l : bytes) : forallb (fun b => (0 <=? b) && (b <? 256))%bool l = true -> Forall byte l.
Proof.
  intros H. rewrite forallb_forall in H. apply Forall_forall. intros b Hb. apply list_elem_of_In, H in Hb.
  bool_hyps. by split.
Qed.

Definition peer_ok (ai : udp_peer) : Prop :=
  clock_time (pr_t1 ai) /\ clock_time (pr_t4 ai) /\ forall tv request, Forall byte (snd (pr_recv ai tv request)).

Definition network_ok (getaddrinfo : string -> option (list udp_peer)) : Prop :=
  forall server res, getaddrinfo server = Some res -> Forall peer_ok res.

Lemma attempt_defined tv ai : peer_ok ai -> sntp_attempt tv ai <> None.
Proof.
  intros (H1 & H4 & _). unfold sntp_attempt. destruct (negb (pr_socket ai)); [done|].
  destruct (negb (pr_connect ai)); [done|]. unfold sntp_build_request. rewrite timespec_to_ns_clock by done.
  case_match; [done|]. destruct (pr_recv _ _ _). case_match; [done|]. by apply compute_offset_total.
Qed.

Lemma query_defined getaddrinfo server timeout_ms :
  network_ok getaddrinfo -> sntp_query getaddrinfo server timeout_ms <> None.
Proof.
  intros Hn. unfold sntp_query. destruct (getaddrinfo server) as [res|] eqn:E; [|done].
  apply Hn in E. induction res as [|ai res IH]; [done|]. apply Forall_cons in E as [Ha E]. cbn [sntp_attempts].
  pose proof (attempt_defined (receive_timeout timeout_ms) ai Ha) as Hd.
  destruct (sntp_attempt _ ai) as [[r|]|]; [done| |done]. by apply IH.
Qed.

(** What the snapshot promises about a synchronisation. *)
Definition result_ok (offset delay stratum : Z) : Prop :=
  - SNTP_MAX_OFFSET_NS <= offset <= SNTP_MAX_OFFSET_NS /\ 0 <= delay <= 60000 /\ 1 <= stratum <= 15.

Lemma query_result_ok getaddrinfo server timeout_ms r :
  network_ok getaddrinfo -> sntp_query getaddrinfo server timeout_ms = Some (Some r) ->
  result_ok (sr_offset_ns r) (sr_delay_ms r) (sr_stratum r).
Proof.
  intros Hn. unfold sntp_query. destruct (getaddrinfo server) as [res|] eqn:E; [|done].
  intros (b & ai & c & -> & _ & Ha)%attempts_first. apply Hn in E.
  apply Forall_app in E as [_ [(_ & _ & Hb) _]%Forall_cons].
  unfold sntp_attempt in Ha. destruct (negb (pr_socket ai)); [done|]. destruct (negb (pr_connect ai)); [done|].
  destruct (sntp_build_request _) as [req|]; [|done]. case_match; [done|].
  specialize (Hb (receive_timeout timeout_ms) req). destruct (pr_recv _ _ _) as [n reply]. case_match; [done|].
  apply accepted_reply in Ha as (_ & _ & _ & Hs & _ & t1 & t2 & t3 & t4 & _ & _ & _ & _ & _ & Hd & Hdm & _ & Ho & _);
    [|done].
  split; [done|]. split; [|done]. rewrite Hdm. unfold SNTP_MAX_DELAY_NS, NS_PER_SEC in Hd.
  split; [apply Z.div_pos; lia|apply Z.div_le_upper_bound; lia].
Qed.

(** ** The statements at concrete inputs *)

Definition ex_now : timespec := (1700000000, 250000000).
Definition ex_T1 : Z := 1700000000250000000.
Definition ex_T2 : Z := ex_T1 + 5000000000 + 10000000.
Definition ex_T3 : Z := ex_T2 + 1000000.
Definition ex_recv : timespec := (1700000000, 281000000).
Definition ex_request : bytes := default [] (sntp_build_request ex_now).

(** A stratum 2 server five seconds ahead. *)
Definition ex_reply : bytes :=
  store (store (store (36 :: 2 :: replicate 46 0) NTP_ORIGINATE_TS (unix_ns_to_ntp_ts ex_T1))
    NTP_RECEIVE_TS (unix_ns_to_ntp_ts ex_T2)) NTP_TRANSMIT_TS (unix_ns_to_ntp_ts ex_T3).

Definition ex_result : sntp_result_t := mk_sntp_result 4994999999 30 2 0 1700000005.

Definition ex_peer (connects : bool) : udp_peer :=
  mk_peer true connects ex_now (fun p => Z.of_nat (length p)) (fun _ _ => (48, ex_reply)) ex_recv.

Lemma ntp_timestamp_round_trip_witness :
  (exists t, ntp_ts_to_unix_ns (unix_ns_to_ntp_ts ex_T1) = Some t /\ ex_T1 - 1 <= t <= ex_T1) /\
  ntp_ts_to_unix_ns (unix_ns_to_ntp_ts (-1)) = None.
Proof.
  rewrite <- (app_nil_r (unix_ns_to_ntp_ts ex_T1)), <- (app_nil_r (unix_ns_to_ntp_ts (-1))). split.
  - apply (ntp_timestamp_round_trip ex_T1 []). unfold in_ntp_era. split; vm_compute; congruence.
  - apply (ntp_timestamp_round_trip (-1) []).
    + unfold SNTP_UNIX_EPOCH_DELTA, NS_PER_SEC. lia.
    + unfold in_ntp_era. lia.
Defined.

Lemma accepted_reply_is_sound_witness :
  sntp_compute_offset ex_request ex_reply 48 ex_recv = Some (Some ex_result) /\
  - SNTP_MAX_OFFSET_NS <= sr_offset_ns ex_result <= SNTP_MAX_OFFSET_NS.
Proof.
  assert (H : sntp_compute_offset ex_request ex_reply 48 ex_recv = Some (Some ex_result)) by (vm_compute; reflexivity).
  split; [exact H|]. apply accepted_reply_is_sound in H as (_ & _ & _ & _ & _ & H).
  - destruct H as (t1 & t2 & t3 & t4 & _ & _ & _ & _ & _ & _ & _ & _ & H & _). exact H.
  - apply bytes_by_test. vm_compute. reflexivity.
Defined.

Lemma compute_offset_never_overflows_witness :
  sntp_compute_offset ex_request (replicate 48 255) 48 ex_recv <> None.
Proof. apply compute_offset_never_overflows. unfold clock_time, NS_PER_SEC. simpl. lia. Defined.

Lemma honest_reply_gives_offset_witness :
  exists r, sntp_compute_offset ex_request ex_reply 48 ex_recv = Some (Some r) /\
    2 * Z.abs (sr_offset_ns r - 5000000000) <= 10000000 + 20000000 + 3 /\ sr_stratum r = 2.
Proof.
  apply (honest_reply_gives_offset ex_now ex_recv ex_request ex_reply ex_T1 ex_T2 ex_T3
    1700000000281000000 5000000000 10000000 20000000);
    try (unfold clock_time, in_ntp_era, NS_PER_SEC, SNTP_UNIX_EPOCH_DELTA, SNTP_MAX_DELAY_NS, SNTP_MAX_OFFSET_NS,
         NS_PER_SEC, ex_T3, ex_T2, ex_T1; simpl; lia).
  all: vm_compute; (reflexivity || discriminate || (split; discriminate)).
Defined.

Lemma query_takes_first_usable_witness :
  sntp_query (fun _ => Some [ex_peer false; ex_peer true]) "pool.ntp.org" 4000 = Some (Some ex_result).
Proof.
  apply (query_takes_first_usable (fun _ => Some [ex_peer false; ex_peer true]) "pool.ntp.org" 4000 ex_result).
  exists [ex_peer false], (ex_peer true), []. split; [reflexivity|]. split.
  - repeat constructor.
  - vm_compute. reflexivity.
Defined.
