(* ===== verification/TimeSync.v ===== *)
(** * The time synchronisation

    Models src/src/services/time/time_sync.c: the configuration's defaults, the lists
    of servers and providers, the two refreshes, and a turn of the worker with the
    instant it sleeps until. The state is the shared structure, the gateway clock's
    correction and the process's TZ; what a turn meets (clocks, network, host) is a
    [turn_env]. [None] is a signed overflow. *)

From S2P Require Import Prelude CLib HesCommon Json Https GeoTz Sntp.

Definition TIME_SYNC_DEFAULT_SERVERS : string := "pool.ntp.org,time.google.com,time.cloudflare.com".
Definition TIME_SYNC_DEFAULT_NTP_INTERVAL_S : Z := 3600.
Definition TIME_SYNC_DEFAULT_TZ_INTERVAL_S : Z := 21600.
Definition TIME_SYNC_DEFAULT_TIMEOUT_MS : Z := 4000.
Definition MIN_NTP_INTERVAL_S : Z := 60.
Definition MIN_TZ_INTERVAL_S : Z := 300.
Definition IDLE_WAIT_S : Z := 3600.

Record time_snapshot_t := mk_snapshot {
  sn_ntp_valid : bool;
  sn_offset_ns : Z;
  sn_delay_ms : Z;
  sn_stratum : Z;
  sn_last_sync : Z;
  sn_tz_valid : bool;
  sn_tz_name : string;
  sn_std_offset_min : Z;
  sn_dst_offset_min : Z;
  sn_reachable : bool;
}.

Definition snapshot_zero : time_snapshot_t := mk_snapshot false 0 0 0 0 false "" 0 0 false.

Record time_sync_config_t := mk_sync_config {
  tc_ntp_servers : option string;
  tc_ntp_interval_s : Z;
  tc_ntp_enabled : bool;
  tc_tz_name : option string;
  tc_tz_urls : option string;
  tc_tz_enabled : bool;
  tc_tz_interval_s : Z;
  tc_timeout_ms : Z;
}.

(** [cfg] keeps the switches and the numbers; its strings are the copies. *)
Record time_sync := mk_time_sync {
  ts_servers : string;
  ts_tz_urls : string;
  ts_forced_tz : string;
  ts_ntp_enabled : bool;
  ts_tz_enabled : bool;
  ts_ntp_interval_s : Z;
  ts_tz_interval_s : Z;
  ts_timeout_ms : Z;
  ts_snap : time_snapshot_t;
}.

Definition ts_with_snap (s : time_snapshot_t) (ts : time_sync) : time_sync :=
  mk_time_sync (ts_servers ts) (ts_tz_urls ts) (ts_forced_tz ts) (ts_ntp_enabled ts) (ts_tz_enabled ts)
    (ts_ntp_interval_s ts) (ts_tz_interval_s ts) (ts_timeout_ms ts) s.

Definition or_default (s : option string) (def : string) : string :=
  match s with Some (String c r) => String c r | _ => def end.

Definition time_sync_start (cfg : time_sync_config_t) : time_sync :=
  mk_time_sync
    (hes_strlcpy 256 (or_default (tc_ntp_servers cfg) TIME_SYNC_DEFAULT_SERVERS))
    (hes_strlcpy 256 (or_default (tc_tz_urls cfg) GEO_TZ_DEFAULT_URLS))
    (match tc_tz_name cfg with Some n => hes_strlcpy GEO_TZ_NAME_MAX n | None => "" end)
    (tc_ntp_enabled cfg) (tc_tz_enabled cfg)
    (if MIN_NTP_INTERVAL_S <=? tc_ntp_interval_s cfg then tc_ntp_interval_s cfg
     else TIME_SYNC_DEFAULT_NTP_INTERVAL_S)
    (if MIN_TZ_INTERVAL_S <=? tc_tz_interval_s cfg then tc_tz_interval_s cfg
     else TIME_SYNC_DEFAULT_TZ_INTERVAL_S)
    (if 0 <? tc_timeout_ms cfg then tc_timeout_ms cfg else TIME_SYNC_DEFAULT_TIMEOUT_MS)
    snapshot_zero.

(** [ts] is [None] when no synchronisation was started. *)
Definition time_sync_get (ts : option time_sync) : time_snapshot_t :=
  match ts with Some ts => ts_snap ts | None => snapshot_zero end.

Definition time_sync_source_code (snap : time_snapshot_t) : string :=
  if sn_ntp_valid snap then "nt" else "lx".

(** ** Comma-separated lists *)

Fixpoint skip_separators (s : string) : string :=
  match s with
  | String c r => if (Ascii.eqb c " " || Ascii.eqb c ",")%bool then skip_separators r else s
  | EmptyString => s
  end.

Definition blank (c : ascii) : bool := (Ascii.eqb c " " || Ascii.eqb c (chr 9))%bool.

Fixpoint trim_end (s : string) : string :=
  match s with
  | EmptyString => EmptyString
  | String c r =>
      match trim_end r with
      | EmptyString => if blank c then EmptyString else String c EmptyString
      | r' => String c r'
      end
  end.

(** The advanced cursor, and the field when one was read. *)
Definition next_csv (cap : nat) (cursor : string) : string * option string :=
  match skip_separators cursor with
  | EmptyString => (EmptyString, None)
  | p =>
      let out := trim_end (str_take (cap - 1) (before "," p)) in
      let rest := match strchr "," p with Some (String _ r) => r | _ => EmptyString end in
      (rest, match out with EmptyString => None | _ => Some out end)
  end.

(** The fields a [while (next_csv(...))] loop visits; each moves the cursor on, so the
    length of the list is fuel enough ([csv_fields_fuel]). *)
Fixpoint csv_fields (fuel : nat) (cap : nat) (cursor : string) : list string :=
  match fuel with
  | O => []
  | S fuel' =>
      match next_csv cap cursor with
      | (cursor', Some field) => field :: csv_fields fuel' cap cursor'
      | (_, None) => []
      end
  end.

Definition csv_list (cap : nat) (s : string) : list string := csv_fields (S (String.length s)) cap s.

(** ** Refreshing the time *)

Fixpoint first_answer (getaddrinfo : string -> option (list udp_peer)) (timeout_ms : Z) (servers : list string)
  : option (option sntp_result_t) :=
  match servers with
  | [] => Some None
  | server :: servers' =>
      let* r := sntp_query getaddrinfo server timeout_ms in
      match r with Some _ => Some r | None => first_answer getaddrinfo timeout_ms servers' end
  end.

(** The state and the clock's correction; [now] is [time(NULL)]. *)
Definition refresh_time (getaddrinfo : string -> option (list udp_peer)) (now : Z) (ts : time_sync)
  (offset_ns : Z) : option (time_sync * Z) :=
  let* r := first_answer getaddrinfo (ts_timeout_ms ts) (csv_list 128 (ts_servers ts)) in
  match r with
  | None => Some (ts, offset_ns)
  | Some r =>
      let s := ts_snap ts in
      Some (ts_with_snap (mk_snapshot true (sr_offset_ns r) (sr_delay_ms r) (sr_stratum r) now
              (sn_tz_valid s) (sn_tz_name s) (sn_std_offset_min s) (sn_dst_offset_min s) true) ts,
            hes_clock_set_offset_ns (sr_offset_ns r) offset_ns)
  end.

(** ** Refreshing the zone *)

Fixpoint first_detected {curl : Curl} (json_loads : string -> option json) (timeout_ms : Z)
  (urls : list string) : option string :=
  match urls with
  | [] => None
  | url :: urls' =>
      match geo_tz_detect json_loads (Some url) None GEO_TZ_NAME_MAX timeout_ms with
      | Some name => Some name
      | None => first_detected json_loads timeout_ms urls'
      end
  end.

Definition snap_with_reachable (s : time_snapshot_t) : time_snapshot_t :=
  mk_snapshot (sn_ntp_valid s) (sn_offset_ns s) (sn_delay_ms s) (sn_stratum s) (sn_last_sync s)
    (sn_tz_valid s) (sn_tz_name s) (sn_std_offset_min s) (sn_dst_offset_min s) true.

Definition snap_with_zone (name : string) (std dst : Z) (s : time_snapshot_t) : time_snapshot_t :=
  mk_snapshot (sn_ntp_valid s) (sn_offset_ns s) (sn_delay_ms s) (sn_stratum s) (sn_last_sync s)
    true (hes_strlcpy GEO_TZ_NAME_MAX name) std dst (sn_reachable s).

(** The name to adopt, and the structure with what the providers changed. *)
Definition zone_name {curl : Curl} (json_loads : string -> option json) (h : tz_host)
  (tz_env : option string) (ts : time_sync) : option string * time_sync :=
  match ts_forced_tz ts with
  | String c r => (Some (hes_strlcpy GEO_TZ_NAME_MAX (String c r)), ts)
  | EmptyString =>
      match (if ts_tz_enabled ts then first_detected json_loads (ts_timeout_ms ts) (csv_list 192 (ts_tz_urls ts))
             else None) with
      | Some name => (Some name, ts_with_snap (snap_with_reachable (ts_snap ts)) ts)
      | None =>
          (if sn_tz_valid (ts_snap ts) then None else geo_tz_system_name h tz_env GEO_TZ_NAME_MAX, ts)
      end
  end.

(** [now] is [hes_clock_now()]. The structure and the process's TZ. *)
Definition refresh_zone {curl : Curl} (json_loads : string -> option json) (h : tz_host) (now : Z)
  (ts : time_sync) (tz_env : option string) : time_sync * option string :=
  let '(name, ts) := zone_name json_loads h tz_env ts in
  match name with
  | None => (ts, tz_env)
  | Some name =>
      let '(offsets, tz_env) := geo_tz_offsets h now tz_env name in
      match offsets with
      | None => (ts, tz_env)
      | Some (std_min, dst_min) => (ts_with_snap (snap_with_zone name std_min dst_min (ts_snap ts)) ts, tz_env)
      end
  end.

(** ** The worker *)

Record turn_env := mk_turn {
  te_mono : Z * Z * Z * Z;
  te_realtime : option (Z * Z);
  te_time : Z;
  te_getaddrinfo : string -> option (list udp_peer);
  te_curl : Curl;
  te_host : tz_host;
}.

Record worker_t := mk_worker {
  wk_ts : time_sync;
  wk_offset_ns : Z;
  wk_tz_env : option string;
  wk_next_ntp : Z;
  wk_next_tz : Z;
}.

Definition worker_init (ts : time_sync) (offset_ns : Z) (tz_env : option string) : worker_t :=
  mk_worker ts offset_ns tz_env (if ts_ntp_enabled ts then 0 else -1) 0.

Definition due (next mono : Z) : bool := ((0 <=? next) && (next <=? mono))%bool.

Section worker.
Variable json_loads : string -> option json.

Definition zone_turn (e : turn_env) (w : worker_t) : option worker_t :=
  let '(m1, m2, m3, m4) := te_mono e in
  if due (wk_next_tz w) m1 then
    let now := hes_clock_now (clock_gettime (te_realtime e) (wk_offset_ns w)) in
    let '(ts, tz_env) := @refresh_zone (te_curl e) json_loads (te_host e) now (wk_ts w) (wk_tz_env w) in
    let* next_tz := (if ts_tz_enabled ts
                     then let* d := ll (ts_tz_interval_s ts * 1000) in ll (m2 + d)
                     else Some (-1)) in
    Some (mk_worker ts (wk_offset_ns w) tz_env (wk_next_ntp w) next_tz)
  else Some w.

Definition time_turn (e : turn_env) (w : worker_t) : option worker_t :=
  let '(m1, m2, m3, m4) := te_mono e in
  if due (wk_next_ntp w) m3 then
    let* (ts, offset_ns) := refresh_time (te_getaddrinfo e) (te_time e) (wk_ts w) (wk_offset_ns w) in
    let* d := ll (ts_ntp_interval_s ts * 1000) in
    let* next_ntp := ll (m4 + d) in
    Some (mk_worker ts offset_ns (wk_tz_env w) next_ntp (wk_next_tz w))
  else Some w.

Definition worker_turn (e : turn_env) (w : worker_t) : option worker_t :=
  let* w := zone_turn e w in time_turn e w.

(** When to wake again, on the monotonic clock; negative: nothing is scheduled. *)
Definition next_deadline (w : worker_t) : Z :=
  let next := if 0 <=? wk_next_tz w then wk_next_tz w else -1 in
  if ((0 <=? wk_next_ntp w) && ((next <? 0) || (wk_next_ntp w <? next)))%bool then wk_next_ntp w else next.

(** The turns of a run; the thread ends after one of them. *)
Fixpoint worker_run (es : list turn_env) (w : worker_t) : option worker_t :=
  match es with
  | [] => Some w
  | e :: es' => let* w' := worker_turn e w in worker_run es' w'
  end.
End worker.

(** The instant the condition variable is waited on until. *)
Definition wait_until (realtime : timespec) (deadline_mono mono : Z) : timespec :=
  let delta_ms := if deadline_mono <? 0 then IDLE_WAIT_S * 1000 else deadline_mono - mono in
  let delta_ms := if delta_ms <? 0 then 0 else delta_ms in
  let sec := fst realtime + Z.quot delta_ms 1000 in
  let nsec := snd realtime + Z.rem delta_ms 1000 * 1000000 in
  if 1000000000 <=? nsec then (sec + 1, nsec - 1000000000) else (sec, nsec).
