(* ===== verification/TimeSyncFacts.v ===== *)
(** * The time synchronisation: properties

    What the snapshot and the clock's correction hold in every state of the worker,
    how often it contacts the servers and the providers, which server's answer it
    adopts, and when it wakes. *)

From S2P Require Import Prelude CLib HesCommon Json Https GeoTz GeoTzFacts Sntp SntpFacts TimeSync.

(** ** Lists *)

Lemma skip_separators_length s : (String.length (skip_separators s) <= String.length s)%nat.
Proof. induction s as [|c s IH]; simpl; [done|]. destruct (_ || _)%bool; simpl; lia. Qed.

Lemma strchr_length c s t : strchr c s = Some t -> (String.length t <= String.length s)%nat.
Proof.
  induction s as [|a s IH]; simpl; [done|]. destruct (Ascii.eqb a c); [by intros [= <-]|].
  intros H. apply IH in H. lia.
Qed.

Lemma next_csv_shorter cap s s' f : next_csv cap s = (s', Some f) -> (String.length s' < String.length s)%nat.
Proof.
  unfold next_csv. pose proof (skip_separators_length s) as Hl.
  destruct (skip_separators s) as [|c p]; [done|]. set (q := String c p) in *.
  assert (Hq : (0 < String.length q)%nat) by (simpl; lia). clearbody q.
  pose proof (strchr_length "," q) as Hc. intros [= <- _].
  destruct (strchr "," q) as [[|a r]|]; cbn [String.length].
  - lia.
  - specialize (Hc _ eq_refl). cbn [String.length] in Hc. lia.
  - lia.
Qed.

Lemma csv_fields_fuel cap s n m :
  (String.length s < n)%nat -> (String.length s < m)%nat -> csv_fields n cap s = csv_fields m cap s.
Proof.
  revert s m. induction n as [|n IH]; intros s m Hn Hm; [lia|]. destruct m as [|m]; [lia|]. cbn [csv_fields].
  destruct (next_csv cap s) as [s' [f|]] eqn:E; [|done]. apply next_csv_shorter in E. f_equal. apply IH; lia.
Qed.

(** The loop over a list reads one field and goes on behind it. *)
Lemma csv_list_step cap s :
  csv_list cap s =
  match next_csv cap s with (s', Some f) => f :: csv_list cap s' | (_, None) => [] end.
Proof.
  unfold csv_list at 1. cbn [csv_fields]. destruct (next_csv cap s) as [s' [f|]] eqn:E; [|done].
  apply next_csv_shorter in E. f_equal. apply csv_fields_fuel; lia.
Qed.

(** ** The servers *)

Lemma first_answer_spec getaddrinfo timeout_ms servers r :
  first_answer getaddrinfo timeout_ms servers = Some (Some r) <->
  exists before server after, servers = before ++ server :: after /\
    Forall (fun s => sntp_query getaddrinfo s timeout_ms = Some None) before /\
    sntp_query getaddrinfo server timeout_ms = Some (Some r).
Proof.
  induction servers as [|s servers IH]; cbn [first_answer].
  - split; [done|]. intros (b & s & a & H & _). by apply app_cons_not_nil in H.
  - destruct (sntp_query getaddrinfo s timeout_ms) as [[r'|]|] eqn:E.
    + split; [intros [= ->]; by exists [], s, servers|]. intros (b & x & a & H & Hb & Hx).
      destruct b as [|b0 b]; simplify_eq/=; [congruence|]. apply Forall_cons in Hb as [Hb _]. congruence.
    + rewrite IH. split; intros (b & x & a & H & Hb & Hx).
      * exists (s :: b), x, a. subst servers. split; [done|]. split; [by apply Forall_cons|done].
      * destruct b as [|b0 b]; simplify_eq/=; try congruence. apply Forall_cons in Hb as [_ Hb]. by exists b, x, a.
    + split; [done|]. intros (b & x & a & H & Hb & Hx). destruct b as [|b0 b]; simplify_eq/=; try congruence.
      apply Forall_cons in Hb as [Hb _]. congruence.
Qed.

Lemma first_answer_ok getaddrinfo timeout_ms servers r :
  network_ok getaddrinfo -> first_answer getaddrinfo timeout_ms servers = Some (Some r) ->
  result_ok (sr_offset_ns r) (sr_delay_ms r) (sr_stratum r).
Proof. intros Hn (b & s & a & _ & _ & H)%first_answer_spec. by eapply query_result_ok. Qed.

Lemma first_answer_defined getaddrinfo timeout_ms servers :
  network_ok getaddrinfo -> first_answer getaddrinfo timeout_ms servers <> None.
Proof.
  intros Hn. induction servers as [|s servers IH]; [done|]. cbn [first_answer].
  pose proof (query_defined getaddrinfo s timeout_ms Hn).
  by destruct (sntp_query getaddrinfo s timeout_ms) as [[r|]|].
Qed.

(** A refresh adopts the answer of the first of the configured servers that gives
    one: the gateway clock is corrected by its offset and the snapshot says so; when no
    server answers, neither the correction nor the snapshot changes. *)
Theorem refresh_adopts_first_answer getaddrinfo now ts offset_ns ts' offset_ns' :
  refresh_time getaddrinfo now ts offset_ns = Some (ts', offset_ns') ->
  (ts' = ts /\ offset_ns' = offset_ns /\
   Forall (fun s => sntp_query getaddrinfo s (ts_timeout_ms ts) = Some None) (csv_list 128 (ts_servers ts))) \/
  (exists before server after r,
     csv_list 128 (ts_servers ts) = before ++ server :: after /\
     Forall (fun s => sntp_query getaddrinfo s (ts_timeout_ms ts) = Some None) before /\
     sntp_query getaddrinfo server (ts_timeout_ms ts) = Some (Some r) /\
     offset_ns' = sr_offset_ns r /\
     sn_ntp_valid (ts_snap ts') = true /\ sn_offset_ns (ts_snap ts') = sr_offset_ns r /\
     sn_stratum (ts_snap ts') = sr_stratum r /\ sn_last_sync (ts_snap ts') = now /\
     sn_tz_valid (ts_snap ts') = sn_tz_valid (ts_snap ts) /\ sn_tz_name (ts_snap ts') = sn_tz_name (ts_snap ts)).
Proof.
  unfold refresh_time. destruct (first_answer _ _ _) as [[r|]|] eqn:E; [| |done].
  - intros [= <- <-]. right. apply first_answer_spec in E as (b & s & a & Hl & Hb & Hs).
    exists b, s, a, r. by split_and!.
  - intros [= <- <-]. left. split_and!; [done..|]. revert E.
    induction (csv_list 128 (ts_servers ts)) as [|s l IH]; [done|]. cbn [first_answer].
    destruct (sntp_query getaddrinfo s (ts_timeout_ms ts)) as [[?|]|] eqn:Es; [done| |done].
    intros H. apply Forall_cons. by split; [|apply IH].
Qed.

(** ** The worker's invariant *)

Definition turn_ok (e : turn_env) : Prop := network_ok (te_getaddrinfo e).

Definition snap_ok (offset0 offset_ns : Z) (s : time_snapshot_t) : Prop :=
  (if sn_ntp_valid s
   then sn_offset_ns s = offset_ns /\ result_ok (sn_offset_ns s) (sn_delay_ms s) (sn_stratum s)
   else offset_ns = offset0) /\
  (sn_tz_valid s = true -> zone_ok (sn_tz_name s)).

(** What no turn changes. *)
Definition same_config (ts ts' : time_sync) : Prop := exists s, ts' = ts_with_snap s ts.

Lemma same_config_refl ts : same_config ts ts.
Proof. exists (ts_snap ts). by destruct ts. Qed.

Lemma same_config_trans a b c : same_config a b -> same_config b c -> same_config a c.
Proof. intros [s ->] [s' ->]. by exists s'. Qed.

#[local] Hint Resolve same_config_refl : core.

Lemma refresh_zone_ok {curl : Curl} json_loads h now ts tz_env ts' tz_env' o0 o :
  refresh_zone json_loads h now ts tz_env = (ts', tz_env') ->
  same_config ts ts' /\
  sn_ntp_valid (ts_snap ts') = sn_ntp_valid (ts_snap ts) /\
  (sn_tz_valid (ts_snap ts) = true -> sn_tz_valid (ts_snap ts') = true) /\
  (snap_ok o0 o (ts_snap ts) -> snap_ok o0 o (ts_snap ts')).
Proof.
  unfold refresh_zone. destruct (zone_name json_loads h tz_env ts) as [name ts1] eqn:E.
  assert (H1 : same_config ts ts1 /\ (ts_snap ts1 = ts_snap ts \/ ts_snap ts1 = snap_with_reachable (ts_snap ts))).
  { unfold zone_name in E. destruct (ts_forced_tz ts); [|injection E as _ <-; by auto].
    destruct (if ts_tz_enabled ts then _ else _); injection E as _ <-; [|by auto].
    split; [by eexists|by right]. }
  assert (H2 : sn_ntp_valid (ts_snap ts1) = sn_ntp_valid (ts_snap ts) /\
    (sn_tz_valid (ts_snap ts) = true -> sn_tz_valid (ts_snap ts1) = true) /\
    (snap_ok o0 o (ts_snap ts) -> snap_ok o0 o (ts_snap ts1))) by (destruct H1 as [_ [-> | ->]]; done).
  destruct H1 as [Hc _]. destruct name as [name|]; [|by intros [= <- <-]].
  pose proof (geo_tz_offsets_name h now tz_env name) as Hn.
  destruct (geo_tz_offsets h now tz_env name) as [[[std dst]|] env]; [|by intros [= <- <-]].
  intros [= <- <-]. destruct H2 as (Hv & Hm & Hok). split_and!.
  - eapply same_config_trans; [done|by eexists].
  - done.
  - done.
  - intros H. destruct (Hok H) as [H3 _]. split; [done|]. intros _.
    cbn [ts_with_snap ts_snap snap_with_zone sn_tz_name]. by rewrite hes_strlcpy_small; apply Hn.
Qed.

Section worker_facts.
Variable json_loads : string -> option json.
Abbreviation turn := (worker_turn json_loads).
Abbreviation run := (worker_run json_loads).

Definition m1 (e : turn_env) : Z := fst (fst (fst (te_mono e))).
Definition m2 (e : turn_env) : Z := snd (fst (fst (te_mono e))).
Definition m3 (e : turn_env) : Z := snd (fst (te_mono e)).
Definition m4 (e : turn_env) : Z := snd (te_mono e).

Lemma zone_turn_spec e w w' :
  zone_turn json_loads e w = Some w' ->
  same_config (wk_ts w) (wk_ts w') /\ wk_next_ntp w' = wk_next_ntp w /\ wk_offset_ns w' = wk_offset_ns w /\
  wk_next_tz w' = (if due (wk_next_tz w) (m1 e)
                   then (if ts_tz_enabled (wk_ts w) then m2 e + ts_tz_interval_s (wk_ts w) * 1000 else -1)
                   else wk_next_tz w) /\
  sn_ntp_valid (ts_snap (wk_ts w')) = sn_ntp_valid (ts_snap (wk_ts w)) /\
  (sn_tz_valid (ts_snap (wk_ts w)) = true -> sn_tz_valid (ts_snap (wk_ts w')) = true) /\
  forall o0, snap_ok o0 (wk_offset_ns w) (ts_snap (wk_ts w)) -> snap_ok o0 (wk_offset_ns w') (ts_snap (wk_ts w')).
Proof.
  unfold zone_turn, m1, m2. destruct (te_mono e) as [[[a b] c] d]. cbn [fst snd].
  destruct (due (wk_next_tz w) a); [|by intros [= <-]].
  destruct (@refresh_zone _ _ _ _ _ _) as [ts' env] eqn:E.
  pose proof (fun o0 => @refresh_zone_ok _ _ _ _ _ _ _ _ o0 (wk_offset_ns w) E) as H.
  destruct (H 0) as ([s ->] & Hv & Hm & _). cbn [ts_with_snap ts_tz_enabled ts_tz_interval_s].
  destruct (ts_tz_enabled (wk_ts w)).
  - destruct (ll _) as [x|] eqn:E1; [|done]. apply ll_inv in E1 as [-> _].
    destruct (ll (b + _)) as [y|] eqn:E2; [|done]. apply ll_inv in E2 as [-> _]. intros [= <-].
    split_and!; try done; [by eexists|]. intros o0. apply (H o0).
  - intros [= <-]. split_and!; try done; [by eexists|]. intros o0. apply (H o0).
Qed.

Lemma time_turn_spec e w w' :
  time_turn e w = Some w' ->
  same_config (wk_ts w) (wk_ts w') /\ wk_next_tz w' = wk_next_tz w /\
  wk_next_ntp w' = (if due (wk_next_ntp w) (m3 e) then m4 e + ts_ntp_interval_s (wk_ts w) * 1000
                    else wk_next_ntp w) /\
  (sn_ntp_valid (ts_snap (wk_ts w)) = true -> sn_ntp_valid (ts_snap (wk_ts w')) = true) /\
  sn_tz_valid (ts_snap (wk_ts w')) = sn_tz_valid (ts_snap (wk_ts w)) /\
  (turn_ok e -> forall o0,
   snap_ok o0 (wk_offset_ns w) (ts_snap (wk_ts w)) -> snap_ok o0 (wk_offset_ns w') (ts_snap (wk_ts w'))).
Proof.
  unfold time_turn, m3, m4. destruct (te_mono e) as [[[a b] c] d]. cbn [fst snd].
  destruct (due (wk_next_ntp w) c); [|by intros [= <-]]. unfold refresh_time.
  destruct (first_answer _ _ _) as [[r|]|] eqn:E; [| |done]; cbn [ts_with_snap ts_ntp_interval_s].
  - destruct (ll _) as [x|] eqn:E1; [|done]. apply ll_inv in E1 as [-> _].
    destruct (ll (d + _)) as [y|] eqn:E2; [|done]. apply ll_inv in E2 as [-> _]. intros [= <-].
    split_and!; try done; [by eexists|]. intros He o0 [_ Hz]. apply first_answer_ok in E; [|done]. by split.
  - destruct (ll _) as [x|] eqn:E1; [|done]. apply ll_inv in E1 as [-> _].
    destruct (ll (d + _)) as [y|] eqn:E2; [|done]. apply ll_inv in E2 as [-> _]. by intros [= <-].
Qed.

(** One turn, as the properties need it. *)
Lemma turn_spec e w w' :
  turn e w = Some w' ->
  same_config (wk_ts w) (wk_ts w') /\
  wk_next_ntp w' = (if due (wk_next_ntp w) (m3 e) then m4 e + ts_ntp_interval_s (wk_ts w) * 1000
                    else wk_next_ntp w) /\
  wk_next_tz w' = (if due (wk_next_tz w) (m1 e)
                   then (if ts_tz_enabled (wk_ts w) then m2 e + ts_tz_interval_s (wk_ts w) * 1000 else -1)
                   else wk_next_tz w) /\
  (sn_ntp_valid (ts_snap (wk_ts w)) = true -> sn_ntp_valid (ts_snap (wk_ts w')) = true) /\
  (sn_tz_valid (ts_snap (wk_ts w)) = true -> sn_tz_valid (ts_snap (wk_ts w')) = true) /\
  (turn_ok e -> forall o0,
   snap_ok o0 (wk_offset_ns w) (ts_snap (wk_ts w)) -> snap_ok o0 (wk_offset_ns w') (ts_snap (wk_ts w'))).
Proof.
  unfold worker_turn. destruct (zone_turn json_loads e w) as [w1|] eqn:E; [|done]. intros E2.
  apply zone_turn_spec in E as (Hc1 & Hn1 & Ho1 & Ht1 & Hv1 & Hz1 & Hi1).
  apply time_turn_spec in E2 as (Hc2 & Ht2 & Hn2 & Hv2 & Hz2 & Hi2). split_and!.
  - by eapply same_config_trans.
  - rewrite Hn2, Hn1. by destruct Hc1 as [s ->].
  - by rewrite Ht2, Ht1.
  - rewrite <- Hv1. done.
  - by rewrite Hz2.
  - intros He o0 H. by apply Hi2, Hi1.
Qed.

Lemma run_spec es w w' :
  run es w = Some w' ->
  same_config (wk_ts w) (wk_ts w') /\
  (sn_ntp_valid (ts_snap (wk_ts w)) = true -> sn_ntp_valid (ts_snap (wk_ts w')) = true) /\
  (sn_tz_valid (ts_snap (wk_ts w)) = true -> sn_tz_valid (ts_snap (wk_ts w')) = true) /\
  (Forall turn_ok es -> forall o0,
   snap_ok o0 (wk_offset_ns w) (ts_snap (wk_ts w)) -> snap_ok o0 (wk_offset_ns w') (ts_snap (wk_ts w'))).
Proof.
  revert w. induction es as [|e es IH]; intros w; cbn [worker_run]; [by intros [= ->]|].
  destruct (turn e w) as [w1|] eqn:E; [|done]. intros H. apply IH in H as (Hc & Hv & Hz & Hi).
  apply turn_spec in E as (Hc1 & _ & _ & Hv1 & Hz1 & Hi1). split_and!; [by eapply same_config_trans|by auto..|].
  intros [He Hes]%Forall_cons o0 H. by apply Hi, Hi1.
Qed.

(** *** The reply in force *)

(** The reply a turn accepts: the first usable one of the configured servers, when a request is
    due, with the second the host's clock said. *)
Definition adoption (e : turn_env) (w : worker_t) : option (sntp_result_t * Z) :=
  if due (wk_next_ntp w) (m3 e) then
    match first_answer (te_getaddrinfo e) (ts_timeout_ms (wk_ts w)) (csv_list 128 (ts_servers (wk_ts w))) with
    | Some (Some r) => Some (r, te_time e)
    | _ => None
    end
  else None.

(** The last reply accepted in a run. *)
Fixpoint adopted (es : list turn_env) (w : worker_t) : option (sntp_result_t * Z) :=
  match es with
  | [] => None
  | e :: es =>
      match turn e w with
      | None => None
      | Some w' => match adopted es w' with Some a => Some a | None => adoption e w end
      end
  end.

(** What the clock's correction and the snapshot say of the time. *)
Definition time_fields (w : worker_t) : Z * (bool * Z * Z * Z * Z) :=
  let s := ts_snap (wk_ts w) in
  (wk_offset_ns w, (sn_ntp_valid s, sn_offset_ns s, sn_delay_ms s, sn_stratum s, sn_last_sync s)).

Definition reply_fields (a : sntp_result_t * Z) : Z * (bool * Z * Z * Z * Z) :=
  let '(r, now) := a in (sr_offset_ns r, (true, sr_offset_ns r, sr_delay_ms r, sr_stratum r, now)).

Lemma zone_turn_fields e w w' : zone_turn json_loads e w = Some w' -> time_fields w' = time_fields w.
Proof.
  unfold zone_turn. destruct (te_mono e) as [[[a b] c] d]. destruct (due (wk_next_tz w) a); [|by intros [= <-]].
  destruct (@refresh_zone _ _ _ _ _ _) as [ts' env] eqn:E.
  assert (Hf : forall o z n t, time_fields (mk_worker ts' o z n t) = time_fields (mk_worker (wk_ts w) o z n t)).
  { intros o z n t. unfold refresh_zone in E. destruct (zone_name json_loads (te_host e) (wk_tz_env w) (wk_ts w)) as [name ts1] eqn:En.
    assert (H1 : forall o z n t, time_fields (mk_worker ts1 o z n t) = time_fields (mk_worker (wk_ts w) o z n t)).
    { intros. unfold zone_name in En. destruct (ts_forced_tz (wk_ts w)); [|by injection En as _ <-].
      destruct (if ts_tz_enabled (wk_ts w) then _ else _); by injection En as _ <-. }
    destruct name as [name|]; [|injection E as <- _; apply H1].
    destruct (geo_tz_offsets _ _ _ name) as [[[std dst]|] env']; injection E as <- _; [|apply H1].
    rewrite <- H1. reflexivity. }
  destruct (if ts_tz_enabled ts' then _ else _) as [next|]; [|done]. cbn [mbind option_bind]. intros [= <-]. by rewrite Hf.
Qed.

Lemma time_turn_fields e w w' :
  time_turn e w = Some w' ->
  time_fields w' = match adoption e w with Some a => reply_fields a | None => time_fields w end.
Proof.
  unfold time_turn, adoption, m3. destruct (te_mono e) as [[[a b] c] d]. cbn [fst snd].
  destruct (due (wk_next_ntp w) c); [|by intros [= <-]]. unfold refresh_time.
  destruct (first_answer _ _ _) as [[r|]|]; [| |done]; cbn [mbind option_bind];
    (destruct (ll _) as [x|]; [|done]); cbn [mbind option_bind]; (destruct (ll _) as [y|]; [|done]); by intros [= <-].
Qed.

Lemma turn_fields e w w' :
  turn e w = Some w' ->
  time_fields w' = match adoption e w with Some a => reply_fields a | None => time_fields w end.
Proof.
  unfold worker_turn. destruct (zone_turn json_loads e w) as [w1|] eqn:E; [|done]. intros Ht%time_turn_fields.
  rewrite Ht. pose proof (zone_turn_spec _ _ _ E) as ([s Hs] & Hn & _). apply zone_turn_fields in E. rewrite E.
  unfold adoption. by rewrite Hn, Hs.
Qed.

Lemma run_fields es w w' :
  run es w = Some w' ->
  time_fields w' = match adopted es w with Some a => reply_fields a | None => time_fields w end.
Proof.
  revert w. induction es as [|e es IH]; intros w; cbn [worker_run adopted]; [by intros [= ->]|].
  destruct (turn e w) as [w1|] eqn:E; [|done]. intros H. rewrite (IH w1 H).
  destruct (adopted es w1); [done|]. by apply turn_fields.
Qed.

(** The reply is one a configured server gave in a turn of the run. *)
Definition answered_by (es : list turn_env) (ts : time_sync) (a : sntp_result_t * Z) : Prop :=
  exists e server, e ∈ es /\ snd a = te_time e /\ server ∈ csv_list 128 (ts_servers ts) /\
    sntp_query (te_getaddrinfo e) server (ts_timeout_ms ts) = Some (Some (fst a)).

Lemma adoption_answered e w a : adoption e w = Some a -> answered_by [e] (wk_ts w) a.
Proof.
  unfold adoption. destruct (due _ _); [|done]. destruct (first_answer _ _ _) as [[r|]|] eqn:E; [|done|done].
  intros [= <-]. apply first_answer_spec in E as (b & server & l & Hl & _ & Hq). exists e, server.
  split_and!; [left|done| |done]. rewrite Hl. apply elem_of_app. right. left.
Qed.

Lemma adopted_answered es w a : adopted es w = Some a -> answered_by es (wk_ts w) a.
Proof.
  revert w. induction es as [|e es IH]; intros w; cbn [adopted]; [done|].
  destruct (turn e w) as [w1|] eqn:E; [|done].
  apply turn_spec in E as ([s Hs] & _). intros H. destruct (adopted es w1) as [a'|] eqn:Ea.
  - injection H as ->. destruct (IH _ Ea) as (e' & server & He & Ht & Hin & Hq). rewrite Hs in Hin, Hq.
    exists e', server. split_and!; [by right|done..].
  - apply adoption_answered in H as (e' & server & He%list_elem_of_singleton & H). subst e'.
    exists e, server. split; [left|done].
Qed.

Lemma run_snap_ok cfg offset0 tz_env es w :
  Forall turn_ok es -> run es (worker_init (time_sync_start cfg) offset0 tz_env) = Some w ->
  snap_ok offset0 (wk_offset_ns w) (ts_snap (wk_ts w)).
Proof. intros Hes (_ & _ & _ & Hi)%run_spec. by apply Hi. Qed.

(** C33: After every turn of the worker, whatever the network and the host answer, the gateway
    clock's correction and the snapshot's validity, offset, delay, stratum and time of
    synchronisation are exactly those of the last reply the turns so far accepted, which is one
    that a configured server gave in one of them, of a day's offset at most and from a server of
    stratum 1 to 15 within a minute; as long as none was accepted, the correction is the one the
    worker started from and the snapshot is not valid. The zone it names is a zone name; and
    neither the time nor the zone is lost again in a later turn. *)
Theorem sync_state_sound cfg offset0 tz_env es w :
  Forall turn_ok es ->
  let w0 := worker_init (time_sync_start cfg) offset0 tz_env in
  run es w0 = Some w ->
  match adopted es w0 with
  | Some (r, at_s) =>
      time_fields w = (sr_offset_ns r, (true, sr_offset_ns r, sr_delay_ms r, sr_stratum r, at_s)) /\
      answered_by es (time_sync_start cfg) (r, at_s) /\ result_ok (sr_offset_ns r) (sr_delay_ms r) (sr_stratum r)
  | None => time_fields w = (offset0, (false, 0, 0, 0, 0))
  end /\
  (sn_tz_valid (ts_snap (wk_ts w)) = true -> zone_ok (sn_tz_name (ts_snap (wk_ts w)))) /\
  forall es' w', run es' w = Some w' ->
    (sn_ntp_valid (ts_snap (wk_ts w)) = true -> sn_ntp_valid (ts_snap (wk_ts w')) = true) /\
    (sn_tz_valid (ts_snap (wk_ts w)) = true -> sn_tz_valid (ts_snap (wk_ts w')) = true).
Proof.
  intros Hes w0 Hrun. pose proof (run_fields _ _ _ Hrun) as Hf.
  pose proof (run_spec _ _ _ Hrun) as (_ & _ & _ & Hi).
  destruct (Hi Hes offset0 ltac:(by split)) as [Hok Hz]. split; [|split; [done|]].
  - destruct (adopted es w0) as [[r t]|] eqn:Ea; [|done]. split; [done|]. split; [by apply adopted_answered in Ea|].
    injection Hf as Ho Hv H1 H2 H3 _. rewrite Hv, H1, H2, H3 in Hok. by destruct Hok.
  - intros es' w' (_ & Hv & Hz' & _)%run_spec. by split.
Qed.

(** ** How often the network is contacted

    The refreshes of a run: for each the monotonic instant at which it was found due,
    and the one after it. *)

Fixpoint attempts (due_at : turn_env -> worker_t -> option (Z * Z)) (es : list turn_env) (w : worker_t)
  : list (Z * Z) :=
  match es with
  | [] => []
  | e :: es' =>
      let later := match turn e w with Some w' => attempts due_at es' w' | None => [] end in
      match due_at e w with Some a => a :: later | None => later end
  end.

Definition ntp_refresh (e : turn_env) (w : worker_t) : option (Z * Z) :=
  if due (wk_next_ntp w) (m3 e) then Some (m3 e, m4 e) else None.

Definition zone_refresh (e : turn_env) (w : worker_t) : option (Z * Z) :=
  if due (wk_next_tz w) (m1 e) then Some (m1 e, m2 e) else None.

Section spacing.
Variable due_at : turn_env -> worker_t -> option (Z * Z).
Variable next : worker_t -> Z.
Variable inv : worker_t -> Prop.
Variable gap : Z.
Hypothesis turn_inv : forall e w w', turn e w = Some w' -> inv w -> inv w'.
Hypothesis due_next : forall e w a, due_at e w = Some a -> 0 <= next w <= fst a.
Hypothesis turn_next : forall e w w', turn e w = Some w' -> inv w ->
  match due_at e w with
  | Some a => next w' < 0 \/ snd a + gap <= next w'
  | None => next w' = next w
  end.

Lemma attempts_after es w a l :
  inv w -> attempts due_at es w = a :: l -> 0 <= next w <= fst a.
Proof.
  revert w. induction es as [|e es IH]; intros w Hi; cbn [attempts]; [done|].
  destruct (due_at e w) as [b|] eqn:Ed; [intros [= -> _]; by eapply due_next|].
  destruct (turn e w) as [w1|] eqn:Et; [|done]. intros H.
  pose proof (turn_next e w w1 Et Hi) as Hn. rewrite Ed in Hn. rewrite <- Hn. apply (IH w1); [by eapply turn_inv|done].
Qed.

Lemma attempts_spaced es w before a b after :
  inv w -> attempts due_at es w = before ++ a :: b :: after -> snd a + gap <= fst b.
Proof.
  revert w before. induction es as [|e es IH]; intros w before Hi; cbn [attempts].
  { intros H. by apply app_cons_not_nil in H. }
  destruct (turn e w) as [w1|] eqn:Et.
  - pose proof (turn_inv e w w1 Et Hi) as Hi1. pose proof (turn_next e w w1 Et Hi) as Hn.
    destruct (due_at e w) as [x|] eqn:Ed; [|by apply IH].
    destruct before as [|y before]; cbn [app]; intros [= -> H].
    + apply attempts_after in H; [|done]. lia.
    + by apply (IH w1 before).
  - destruct (due_at e w) as [x|]; destruct before as [|? [|]]; done.
Qed.
End spacing.

Definition configured (cfg : time_sync_config_t) (w : worker_t) : Prop :=
  same_config (time_sync_start cfg) (wk_ts w).

Lemma configured_init cfg offset0 tz_env : configured cfg (worker_init (time_sync_start cfg) offset0 tz_env).
Proof. apply same_config_refl. Qed.

Lemma configured_turn cfg e w w' : turn e w = Some w' -> configured cfg w -> configured cfg w'.
Proof. intros (Hc & _)%turn_spec Hi. by eapply same_config_trans. Qed.

(** The intervals the worker runs with, whatever was asked for. *)
Lemma start_intervals cfg :
  60 <= ts_ntp_interval_s (time_sync_start cfg) /\ 300 <= ts_tz_interval_s (time_sync_start cfg).
Proof.
  cbn. unfold MIN_NTP_INTERVAL_S, TIME_SYNC_DEFAULT_NTP_INTERVAL_S, MIN_TZ_INTERVAL_S, TIME_SYNC_DEFAULT_TZ_INTERVAL_S.
  destruct (Z.leb_spec 60 (tc_ntp_interval_s cfg)), (Z.leb_spec 300 (tc_tz_interval_s cfg)); lia.
Qed.

Lemma due_inv next mono : due next mono = true -> 0 <= next <= mono.
Proof. unfold due. intros H. bool_hyps. done. Qed.

Lemma ntp_refresh_due e w a : ntp_refresh e w = Some a -> 0 <= wk_next_ntp w <= fst a.
Proof. unfold ntp_refresh. destruct (due _ _) eqn:E; [|done]. intros [= <-]. by apply due_inv. Qed.

Lemma zone_refresh_due e w a : zone_refresh e w = Some a -> 0 <= wk_next_tz w <= fst a.
Proof. unfold zone_refresh. destruct (due _ _) eqn:E; [|done]. intros [= <-]. by apply due_inv. Qed.

Lemma ntp_refresh_next cfg e w w' :
  turn e w = Some w' -> configured cfg w ->
  match ntp_refresh e w with
  | Some a => wk_next_ntp w' < 0 \/ snd a + 60 * 1000 <= wk_next_ntp w'
  | None => wk_next_ntp w' = wk_next_ntp w
  end.
Proof.
  intros (_ & Hn & _)%turn_spec [s Hs]. unfold ntp_refresh. rewrite Hn, Hs.
  destruct (due _ _); [|done]. right. destruct (start_intervals cfg) as [H _].
  cbn [snd ts_with_snap ts_ntp_interval_s] in *. lia.
Qed.

Lemma zone_refresh_next cfg gap e w w' :
  (tc_tz_enabled cfg = true -> gap <= 300 * 1000) ->
  turn e w = Some w' -> configured cfg w ->
  match zone_refresh e w with
  | Some a => wk_next_tz w' < 0 \/ snd a + gap <= wk_next_tz w'
  | None => wk_next_tz w' = wk_next_tz w
  end.
Proof.
  intros Hgap (_ & _ & Hn & _)%turn_spec [s Hs]. unfold zone_refresh. rewrite Hn, Hs.
  destruct (due _ _); [|done]. destruct (start_intervals cfg) as [_ H].
  cbn [snd ts_with_snap ts_tz_interval_s ts_tz_enabled] in *.
  change (ts_tz_enabled (time_sync_start cfg)) with (tc_tz_enabled cfg).
  destruct (tc_tz_enabled cfg); [right|by left]. specialize (Hgap eq_refl). lia.
Qed.

Lemma attempts_disabled cfg es w :
  configured cfg w -> wk_next_ntp w < 0 -> attempts ntp_refresh es w = [].
Proof.
  intros Hc Hw. destruct (attempts ntp_refresh es w) as [|a l] eqn:E; [done|].
  apply (attempts_after ntp_refresh wk_next_ntp (configured cfg) (60 * 1000)) in E.
  - lia.
  - apply configured_turn.
  - apply ntp_refresh_due.
  - apply ntp_refresh_next.
  - done.
Qed.

(** Whatever intervals are configured, the worker asks for the time only when that
    is enabled, and then again no sooner than a minute after the last time; and for the
    zone no sooner than five minutes after, or only once when providers are disabled. *)
Theorem worker_is_rate_limited cfg offset0 tz_env es :
  let w0 := worker_init (time_sync_start cfg) offset0 tz_env in
  (forall before a b after,
     attempts ntp_refresh es w0 = before ++ a :: b :: after -> snd a + 60 * 1000 <= fst b) /\
  (tc_ntp_enabled cfg = false -> attempts ntp_refresh es w0 = []) /\
  (forall before a b after,
     attempts zone_refresh es w0 = before ++ a :: b :: after ->
     tc_tz_enabled cfg = true /\ snd a + 300 * 1000 <= fst b).
Proof.
  cbv zeta. pose proof (configured_init cfg offset0 tz_env) as Hc. split_and!.
  - intros before a b after.
    by apply (attempts_spaced ntp_refresh wk_next_ntp (configured cfg));
      [apply configured_turn|apply ntp_refresh_due|apply ntp_refresh_next|].
  - intros Hd. apply (attempts_disabled cfg); [done|]. cbn. by rewrite Hd.
  - intros before a b after H.
    assert (Hs : forall gap, (tc_tz_enabled cfg = true -> gap <= 300 * 1000) -> snd a + gap <= fst b).
    { intros gap Hgap. revert H.
      by apply (attempts_spaced zone_refresh wk_next_tz (configured cfg));
        [apply configured_turn|apply zone_refresh_due|intros e w w'; by apply zone_refresh_next|]. }
    split; [|by apply Hs]. apply not_false_is_true. intros Hd.
    enough (snd a + (fst b - snd a + 1) <= fst b) by lia. apply Hs. by rewrite Hd.
Qed.

(** ** The worker goes on, and recovers *)

Definition clocks_ok (now : Z) (e : turn_env) : Prop :=
  0 <= m1 e <= now /\ 0 <= m2 e <= now /\ 0 <= m3 e <= now /\ 0 <= m4 e <= now.

(** Intervals of up to some thirty thousand years. *)
Definition config_ok (cfg : time_sync_config_t) : Prop :=
  tc_ntp_interval_s cfg <= 2 ^ 40 /\ tc_tz_interval_s cfg <= 2 ^ 40.

Lemma config_intervals cfg w :
  config_ok cfg -> configured cfg w ->
  60 <= ts_ntp_interval_s (wk_ts w) <= 2 ^ 40 /\ 300 <= ts_tz_interval_s (wk_ts w) <= 2 ^ 40.
Proof.
  intros [H1 H2] [s ->]. pose proof (start_intervals cfg) as [H3 H4]. revert H3 H4. cbn.
  unfold TIME_SYNC_DEFAULT_NTP_INTERVAL_S, TIME_SYNC_DEFAULT_TZ_INTERVAL_S.
  destruct (_ <=? tc_ntp_interval_s cfg), (_ <=? tc_tz_interval_s cfg); lia.
Qed.

Lemma zone_turn_defined cfg e w now :
  config_ok cfg -> configured cfg w -> clocks_ok now e -> now <= 2 ^ 50 ->
  exists w', zone_turn json_loads e w = Some w'.
Proof.
  intros Hk Hc He Hnow. unfold zone_turn, clocks_ok, m1, m2, m3, m4 in *.
  destruct (te_mono e) as [[[a b] c] d]. cbn [fst snd] in He. destruct (due _ a); [|by eexists].
  destruct (@refresh_zone _ _ _ _ _ _) as [ts' env] eqn:E.
  destruct (@refresh_zone_ok _ _ _ _ _ _ _ _ 0 0 E) as ([s ->] & _).
  cbn [ts_with_snap ts_tz_enabled ts_tz_interval_s].
  pose proof (config_intervals cfg w Hk Hc) as [_ Hi].
  destruct (ts_tz_enabled (wk_ts w)); [|by eexists]. repeat ll_step. by eexists.
Qed.

Lemma time_turn_defined cfg e w now :
  config_ok cfg -> configured cfg w -> turn_ok e -> clocks_ok now e -> now <= 2 ^ 50 ->
  exists w', time_turn e w = Some w' /\
    (wk_next_ntp w <= m3 e -> 0 <= wk_next_ntp w ->
     (exists server r, server ∈ csv_list 128 (ts_servers (wk_ts w)) /\
        sntp_query (te_getaddrinfo e) server (ts_timeout_ms (wk_ts w)) = Some (Some r)) ->
     sn_ntp_valid (ts_snap (wk_ts w')) = true).
Proof.
  intros Hk Hc Hn He Hnow. unfold time_turn, clocks_ok, m1, m2, m3, m4 in *.
  destruct (te_mono e) as [[[a b] c] d]. cbn [fst snd] in *. unfold due.
  destruct (_ && _)%bool eqn:Edue; [|eexists; split; [done|]; intros H1 H2; bool_hyps; lia].
  pose proof (config_intervals cfg w Hk Hc) as [Hi _]. unfold refresh_time.
  pose proof (first_answer_defined (te_getaddrinfo e) (ts_timeout_ms (wk_ts w)) (csv_list 128 (ts_servers (wk_ts w))) Hn) as Hd.
  destruct (first_answer _ _ _) as [[r|]|] eqn:E; [| |done]; cbn [ts_with_snap ts_ntp_interval_s]; repeat ll_step;
    (eexists; split; [done|]); [done|].
  intros _ _ (server & r & Hin & Hq). exfalso. revert Hin E. generalize (csv_list 128 (ts_servers (wk_ts w))) as l.
  induction l as [|s l IH]; [by intros ?%not_elem_of_nil|]. cbn [first_answer].
  intros [-> | Hin]%elem_of_cons; [by rewrite Hq|]. destruct (sntp_query _ s _) as [[?|]|]; [done|by apply IH|done].
Qed.

Lemma turn_defined cfg e w now :
  config_ok cfg -> configured cfg w -> turn_ok e -> clocks_ok now e -> now <= 2 ^ 50 ->
  exists w', turn e w = Some w' /\
    (wk_next_ntp w <= m3 e -> 0 <= wk_next_ntp w ->
     (exists server r, server ∈ csv_list 128 (ts_servers (wk_ts w)) /\
        sntp_query (te_getaddrinfo e) server (ts_timeout_ms (wk_ts w)) = Some (Some r)) ->
     sn_ntp_valid (ts_snap (wk_ts w')) = true).
Proof.
  intros Hk Hc Hn He Hnow. unfold worker_turn.
  destruct (zone_turn_defined cfg e w now Hk Hc He Hnow) as [w1 E]. rewrite E.
  apply zone_turn_spec in E as ([s Hs] & Hnext & _).
  destruct (time_turn_defined cfg e w1 now) as (w' & -> & Hv); [done| |done..|].
  { destruct Hc as [s0 Hc]. exists s. by rewrite Hs, Hc. }
  exists w'. split; [done|]. rewrite <- Hnext. by rewrite Hs in Hv.
Qed.

Lemma run_defined cfg es w now :
  config_ok cfg -> configured cfg w -> Forall turn_ok es -> Forall (clocks_ok now) es -> now <= 2 ^ 50 ->
  0 <= wk_next_ntp w <= now + ts_ntp_interval_s (wk_ts w) * 1000 ->
  exists w', run es w = Some w' /\ configured cfg w' /\
    0 <= wk_next_ntp w' <= now + ts_ntp_interval_s (wk_ts w) * 1000.
Proof.
  intros Hk. revert w. induction es as [|e es IH]; intros w Hc Hok Hcl Hnow Hn; cbn [worker_run]; [by exists w|].
  apply Forall_cons in Hok as [He Hok], Hcl as [Hce Hcl].
  destruct (turn_defined cfg e w now Hk Hc He Hce Hnow) as (w1 & Et & _). rewrite Et.
  pose proof (configured_turn _ _ _ _ Et Hc) as Hc1. apply turn_spec in Et as ([s Hs] & Hn1 & _).
  pose proof (config_intervals cfg w Hk Hc) as [Hi _]. unfold clocks_ok in Hce.
  destruct (IH w1) as (w' & Hr & Hc' & Hn'); try done.
  - rewrite Hn1, Hs. cbn [ts_with_snap ts_ntp_interval_s]. destruct (due _ _); lia.
  - exists w'. rewrite Hs in Hn'. cbn [ts_with_snap ts_ntp_interval_s] in Hn'. split_and!; (done || lia).
Qed.

Lemma next_deadline_ntp w : 0 <= wk_next_ntp w -> 0 <= next_deadline w <= wk_next_ntp w.
Proof.
  intros H. unfold next_deadline. rewrite (proj2 (Z.leb_le _ _) H). cbn [andb].
  destruct (Z.leb_spec 0 (wk_next_tz w)); [|simpl; lia]. rewrite (proj2 (Z.ltb_ge _ _)) by lia. cbn [orb].
  destruct (Z.ltb_spec (wk_next_ntp w) (wk_next_tz w)); lia.
Qed.

End worker_facts.

(** ** Sleeping *)

(** The sleep ends at the deadline, at once when that has passed, and within an hour
    when nothing is scheduled; the instant is a normalised [timespec]. *)
Lemma wait_until_spec realtime deadline mono :
  0 <= snd realtime < NS_PER_SEC ->
  let until := wait_until realtime deadline mono in
  0 <= snd until < NS_PER_SEC /\
  fst until * NS_PER_SEC + snd until = fst realtime * NS_PER_SEC + snd realtime +
    (if deadline <? 0 then 3600 * NS_PER_SEC else Z.max 0 (deadline - mono) * 1000000).
Proof.
  unfold NS_PER_SEC, wait_until, IDLE_WAIT_S. intros Hn. cbv zeta.
  set (d := if (if deadline <? 0 then 3600 * 1000 else deadline - mono) <? 0 then 0
            else if deadline <? 0 then 3600 * 1000 else deadline - mono).
  assert (Hd : 0 <= d /\ d * 1000000 = if deadline <? 0 then 3600 * 1000000000 else Z.max 0 (deadline - mono) * 1000000).
  { subst d. destruct (deadline <? 0); [simpl; lia|]. destruct (Z.ltb_spec (deadline - mono) 0); lia. }
  destruct Hd as [Hd <-]. pose proof (Z.quot_rem' d 1000). pose proof (Z.rem_bound_pos d 1000 Hd ltac:(lia)).
  destruct (Z.leb_spec 1000000000 (snd realtime + Z.rem d 1000 * 1000000)); simpl; lia.
Qed.

(** C32: With NTP enabled the worker never stops trying: after any turns, under any
    network and host, it is alive and its next request is scheduled within the interval
    after the last clock it read. The sleep it then takes ends, on the host's real-time clock
    (which the code waits on; setting that clock back meanwhile prolongs the sleep), no later
    than the time the request has left on the monotonic clock, at once when it is overdue. And
    the first turn from then on that finds the request due and in which one of its servers gives
    a usable answer leaves the snapshot marked synchronised, the gateway clock corrected by the
    offset of such an answer, and says so in the snapshot. *)
Theorem worker_recovers json_loads cfg offset0 tz_env es now :
  tc_ntp_enabled cfg = true -> config_ok cfg ->
  Forall turn_ok es -> Forall (clocks_ok now) es -> 0 <= now <= 2 ^ 50 ->
  exists w, worker_run json_loads es (worker_init (time_sync_start cfg) offset0 tz_env) = Some w /\
    0 <= wk_next_ntp w <= now + ts_ntp_interval_s (time_sync_start cfg) * 1000 /\
    (forall realtime mono, 0 <= snd realtime < NS_PER_SEC ->
       let until := wait_until realtime (next_deadline w) mono in
       fst until * NS_PER_SEC + snd until <=
         fst realtime * NS_PER_SEC + snd realtime + Z.max 0 (wk_next_ntp w - mono) * 1000000) /\
    forall e later, turn_ok e -> clocks_ok later e -> later <= 2 ^ 50 -> wk_next_ntp w <= m3 e ->
      (exists server r, server ∈ csv_list 128 (ts_servers (wk_ts w)) /\
         sntp_query (te_getaddrinfo e) server (ts_timeout_ms (wk_ts w)) = Some (Some r)) ->
      exists w' r, worker_turn json_loads e w = Some w' /\ answered_by [e] (wk_ts w) (r, te_time e) /\
        time_fields w' = (sr_offset_ns r, (true, sr_offset_ns r, sr_delay_ms r, sr_stratum r, te_time e)).
Proof.
  intros Hen Hk Hok Hcl Hnow. pose proof (configured_init cfg offset0 tz_env) as Hc.
  destruct (start_intervals cfg) as [Hi _].
  destruct (run_defined json_loads cfg es _ now Hk Hc Hok Hcl) as (w & Hr & Hcw & Hn); [lia| |].
  { cbn [worker_init wk_next_ntp wk_ts]. change (ts_ntp_enabled _) with (tc_ntp_enabled cfg). rewrite Hen. lia. }
  cbn [worker_init wk_ts] in Hn. exists w. split; [done|]. split; [lia|]. split.
  - intros realtime mono Hrt until. destruct (wait_until_spec realtime (next_deadline w) mono Hrt) as [_ Hu].
    cbv zeta in Hu. fold until in Hu. rewrite Hu.
    pose proof (next_deadline_ntp w ltac:(lia)) as Hd. rewrite (proj2 (Z.ltb_ge _ _)) by lia. lia.
  - intros e later He Hl Hlater Hdue (server & r & Hin & Hq).
    destruct (turn_defined json_loads cfg e w later Hk Hcw He Hl Hlater) as (w' & Ht & _).
    pose proof (turn_fields json_loads _ _ _ Ht) as Hf. destruct (adoption e w) as [[r' t]|] eqn:Ea.
    + exists w', r'. pose proof (adoption_answered _ _ _ Ea) as Hans.
      assert (t = te_time e) as -> by (destruct Hans as (e' & ? & ->%list_elem_of_singleton & Ht' & _); exact Ht').
      by split_and!.
    + exfalso. unfold adoption, due in Ea. rewrite (proj2 (Z.leb_le 0 _)), (proj2 (Z.leb_le _ (m3 e))) in Ea by lia.
      cbn [andb] in Ea. pose proof (first_answer_defined (te_getaddrinfo e) (ts_timeout_ms (wk_ts w))
        (csv_list 128 (ts_servers (wk_ts w))) He) as Hd.
      destruct (first_answer _ _ _) as [[?|]|] eqn:E; [done| |done]. clear Ea Hd. revert Hin E.
      generalize (csv_list 128 (ts_servers (wk_ts w))) as l. induction l as [|s l IH]; [by intros ?%not_elem_of_nil|].
      cbn [first_answer]. intros [-> | Hin]%elem_of_cons; [by rewrite Hq|].
      destruct (sntp_query _ s _) as [[?|]|]; [done|by apply IH|done].
Qed.

(** A list entry of tabs ends the list: the servers behind it are never asked. *)
Lemma blank_entry_ends_list :
  csv_list 128 ("a.example,b.example") = ["a.example"; "b.example"] /\
  csv_list 128 ("a.example," ++ String (chr 9) ",b.example") = ["a.example"].
Proof. split; vm_compute; reflexivity. Qed.

(** [reachable] says that some attempt succeeded, not that the last one did. *)
Lemma reachable_is_never_reset getaddrinfo now ts offset_ns :
  (forall server, sntp_query getaddrinfo server (ts_timeout_ms ts) = Some None) ->
  refresh_time getaddrinfo now ts offset_ns = Some (ts, offset_ns).
Proof.
  intros H. unfold refresh_time. assert (Hn : first_answer getaddrinfo (ts_timeout_ms ts) (csv_list 128 (ts_servers ts)) = Some None).
  { induction (csv_list 128 (ts_servers ts)) as [|s l IH]; [done|]. cbn [first_answer]. by rewrite H. }
  by rewrite Hn.
Qed.

(** ** The statements at concrete inputs *)

Definition ex_network (server : string) : option (list udp_peer) :=
  if server =?s "time.google.com" then Some [ex_peer true] else None.

#[local] Instance offline : Curl := fun _ => None.

Definition ex_config : time_sync_config_t := mk_sync_config None 0 true None None false 0 0.

Definition ex_turn (mono : Z) : turn_env :=
  mk_turn (mono, mono, mono, mono + 40) (Some ex_now) 1700000000 ex_network offline ex_host.

Definition ex_start : worker_t := worker_init (time_sync_start ex_config) 0 None.

Lemma ex_network_ok : network_ok ex_network.
Proof.
  intros server res. unfold ex_network. destruct (server =?s "time.google.com"); [|done]. intros [= <-].
  apply Forall_cons. split; [|constructor]. unfold peer_ok, clock_time, NS_PER_SEC. simpl. split_and!; try lia.
  intros _ _. apply bytes_by_test. vm_compute. reflexivity.
Qed.

Lemma refresh_adopts_first_answer_witness :
  exists ts', refresh_time ex_network 1700000000 (time_sync_start ex_config) 0 = Some (ts', 4994999999) /\
    sn_ntp_valid (ts_snap ts') = true.
Proof.
  assert (Ho : snd <$> refresh_time ex_network 1700000000 (time_sync_start ex_config) 0 = Some 4994999999)
    by (vm_compute; reflexivity).
  destruct (refresh_time ex_network 1700000000 (time_sync_start ex_config) 0) as [[ts' o]|] eqn:E; [|discriminate].
  injection Ho as ->.
  pose proof (refresh_adopts_first_answer _ _ _ _ _ _ E) as [(_ & Ho & _)|(b & s & a & r & _ & _ & _ & _ & Hv & _)];
    [discriminate|]. exists ts'. split; [reflexivity|exact Hv].
Defined.

Lemma sync_state_sound_witness :
  exists w r, worker_run (fun _ => None) [ex_turn 0; ex_turn 4000000] ex_start = Some w /\
    adopted (fun _ => None) [ex_turn 0; ex_turn 4000000] ex_start = Some (r, 1700000000) /\
    time_fields w = (4994999999, (true, 4994999999, sr_delay_ms r, sr_stratum r, 1700000000)).
Proof.
  destruct (worker_run (fun _ => None) [ex_turn 0; ex_turn 4000000] ex_start) as [w|] eqn:E;
    [|exfalso; vm_compute in E; discriminate].
  assert (Hes : Forall turn_ok [ex_turn 0; ex_turn 4000000])
    by (repeat (apply Forall_cons; split; [exact ex_network_ok|]); constructor).
  pose proof (sync_state_sound (fun _ => None) ex_config 0 None [ex_turn 0; ex_turn 4000000] w Hes E) as [H _].
  fold ex_start in H.
  assert (Ho : option_map (fun a => (sr_offset_ns (fst a), snd a)) (adopted (fun _ => None) [ex_turn 0; ex_turn 4000000] ex_start)
    = Some (4994999999, 1700000000)) by (vm_compute; reflexivity).
  destruct (adopted (fun _ => None) [ex_turn 0; ex_turn 4000000] ex_start) as [[r t]|]; [|discriminate].
  injection Ho as Ho ->. destruct H as (Hf & _). rewrite <- Ho. exists w, r.
  split; [reflexivity|split; [reflexivity|exact Hf]].
Defined.

Lemma worker_is_rate_limited_witness :
  attempts (fun _ => None) ntp_refresh [ex_turn 0; ex_turn 1000; ex_turn 4000000] ex_start = [(0, 40); (4000000, 4000040)] /\
  40 + 60 * 1000 <= 4000000.
Proof.
  split; [vm_compute; reflexivity|].
  destruct (worker_is_rate_limited (fun _ => None) ex_config 0 None [ex_turn 0; ex_turn 1000; ex_turn 4000000])
    as (H & _ & _).
  apply (H [] (0, 40) (4000000, 4000040) []). vm_compute. reflexivity.
Defined.

Lemma worker_recovers_witness :
  exists w w' r, worker_run (fun _ => None) [mk_turn (0, 0, 0, 40) None 0 (fun _ => None) offline ex_host] ex_start = Some w /\
    sn_ntp_valid (ts_snap (wk_ts w)) = false /\
    worker_turn (fun _ => None) (ex_turn 3600040) w = Some w' /\
    time_fields w' = (sr_offset_ns r, (true, sr_offset_ns r, sr_delay_ms r, sr_stratum r, 1700000000)).
Proof.
  destruct (worker_recovers (fun _ => None) ex_config 0 None
    [mk_turn (0, 0, 0, 40) None 0 (fun _ => None) offline ex_host] 40) as (w & Hr & _ & _ & Hl).
  - reflexivity.
  - split; simpl; lia.
  - apply Forall_cons. split; [|constructor]. intros server res. discriminate.
  - apply Forall_cons. split; [|constructor]. unfold clocks_ok, m1, m2, m3, m4. simpl. lia.
  - lia.
  - assert (Hw : wk_next_ntp w = 3600040 /\ sn_ntp_valid (ts_snap (wk_ts w)) = false /\
                 ts_servers (wk_ts w) = TIME_SYNC_DEFAULT_SERVERS /\ ts_timeout_ms (wk_ts w) = 4000)
      by (vm_compute in Hr; injection Hr as <-; vm_compute; auto).
    destruct Hw as (Hn & Hv & Hs & Ht).
    destruct (Hl (ex_turn 3600040) 3600080) as (w' & r & Hw' & _ & Hv').
    + exact ex_network_ok.
    + unfold clocks_ok, m1, m2, m3, m4. simpl. lia.
    + lia.
    + rewrite Hn. unfold m3. simpl. lia.
    + exists "time.google.com", ex_result. rewrite Hs, Ht. split; [|vm_compute; reflexivity].
      vm_compute. right. left.
    + exists w, w', r. auto.
Defined.
