(* ===== verification/SyncThread.v ===== *)
(** * The synchronisation's threads

    Models the concurrency of src/src/services/time/time_sync.c: the worker thread and
    the thread that calls time_sync_get and time_sync_stop, over the handle they share.
    A function of the source is a [code]: its accesses to the shared memory and its
    calls of pthread, in order, each a step of its own; what it computes in between is
    TimeSync.v's. A schedule picks the thread that steps ([step], [run]). *)

From S2P Require Import Prelude CLib HesCommon Json Https GeoTz Sntp TimeSync.

(** ** Code *)

(** [update] is one assignment to a field of the snapshot. *)
Inductive code (A : Type) : Type :=
| ret (a : A)
| undefined
| lock (k : code A)
| unlock (k : code A)
| load_snap (k : time_snapshot_t -> code A)
| update (f : time_snapshot_t -> time_snapshot_t) (k : code A)
| load_stop (k : bool -> code A)
| store_stop (b : bool) (k : code A)
| get_clock (k : Z -> code A)
| set_clock (offset_ns : Z) (k : code A)
| timedwait (deadline_mono : Z) (k : code A)
| signal (k : code A)
| join (k : code A)
| destroy (k : code A).
Arguments ret {A}.
Arguments undefined {A}.
Arguments lock {A}.
Arguments unlock {A}.
Arguments load_snap {A}.
Arguments update {A}.
Arguments load_stop {A}.
Arguments store_stop {A}.
Arguments get_clock {A}.
Arguments set_clock {A}.
Arguments timedwait {A}.
Arguments signal {A}.
Arguments join {A}.
Arguments destroy {A}.

Fixpoint bind {A B} (c : code A) (f : A -> code B) : code B :=
  match c with
  | ret a => f a
  | undefined => undefined
  | lock k => lock (bind k f)
  | unlock k => unlock (bind k f)
  | load_snap k => load_snap (fun s => bind (k s) f)
  | update g k => update g (bind k f)
  | load_stop k => load_stop (fun b => bind (k b) f)
  | store_stop b k => store_stop b (bind k f)
  | get_clock k => get_clock (fun o => bind (k o) f)
  | set_clock o k => set_clock o (bind k f)
  | timedwait d k => timedwait d (bind k f)
  | signal k => signal (bind k f)
  | join k => join (bind k f)
  | destroy k => destroy (bind k f)
  end.

(** [None] is a signed overflow. *)
Definition defined {A B} (a : option A) (f : A -> code B) : code B :=
  match a with Some a => f a | None => undefined end.

(** ** The assignments to the snapshot *)

Section assignments.
Variable s : time_snapshot_t.

Definition set_ntp_valid (b : bool) : time_snapshot_t :=
  mk_snapshot b (sn_offset_ns s) (sn_delay_ms s) (sn_stratum s) (sn_last_sync s)
    (sn_tz_valid s) (sn_tz_name s) (sn_std_offset_min s) (sn_dst_offset_min s) (sn_reachable s).
Definition set_offset_ns (o : Z) : time_snapshot_t :=
  mk_snapshot (sn_ntp_valid s) o (sn_delay_ms s) (sn_stratum s) (sn_last_sync s)
    (sn_tz_valid s) (sn_tz_name s) (sn_std_offset_min s) (sn_dst_offset_min s) (sn_reachable s).
Definition set_delay_ms (d : Z) : time_snapshot_t :=
  mk_snapshot (sn_ntp_valid s) (sn_offset_ns s) d (sn_stratum s) (sn_last_sync s)
    (sn_tz_valid s) (sn_tz_name s) (sn_std_offset_min s) (sn_dst_offset_min s) (sn_reachable s).
Definition set_stratum (n : Z) : time_snapshot_t :=
  mk_snapshot (sn_ntp_valid s) (sn_offset_ns s) (sn_delay_ms s) n (sn_last_sync s)
    (sn_tz_valid s) (sn_tz_name s) (sn_std_offset_min s) (sn_dst_offset_min s) (sn_reachable s).
Definition set_last_sync (t : Z) : time_snapshot_t :=
  mk_snapshot (sn_ntp_valid s) (sn_offset_ns s) (sn_delay_ms s) (sn_stratum s) t
    (sn_tz_valid s) (sn_tz_name s) (sn_std_offset_min s) (sn_dst_offset_min s) (sn_reachable s).
Definition set_tz_valid (b : bool) : time_snapshot_t :=
  mk_snapshot (sn_ntp_valid s) (sn_offset_ns s) (sn_delay_ms s) (sn_stratum s) (sn_last_sync s)
    b (sn_tz_name s) (sn_std_offset_min s) (sn_dst_offset_min s) (sn_reachable s).
Definition set_tz_name (n : string) : time_snapshot_t :=
  mk_snapshot (sn_ntp_valid s) (sn_offset_ns s) (sn_delay_ms s) (sn_stratum s) (sn_last_sync s)
    (sn_tz_valid s) n (sn_std_offset_min s) (sn_dst_offset_min s) (sn_reachable s).
Definition set_std_offset_min (m : Z) : time_snapshot_t :=
  mk_snapshot (sn_ntp_valid s) (sn_offset_ns s) (sn_delay_ms s) (sn_stratum s) (sn_last_sync s)
    (sn_tz_valid s) (sn_tz_name s) m (sn_dst_offset_min s) (sn_reachable s).
Definition set_dst_offset_min (m : Z) : time_snapshot_t :=
  mk_snapshot (sn_ntp_valid s) (sn_offset_ns s) (sn_delay_ms s) (sn_stratum s) (sn_last_sync s)
    (sn_tz_valid s) (sn_tz_name s) (sn_std_offset_min s) m (sn_reachable s).
Definition set_reachable (b : bool) : time_snapshot_t :=
  mk_snapshot (sn_ntp_valid s) (sn_offset_ns s) (sn_delay_ms s) (sn_stratum s) (sn_last_sync s)
    (sn_tz_valid s) (sn_tz_name s) (sn_std_offset_min s) (sn_dst_offset_min s) b.
End assignments.

(** ** The worker *)

(** The locals of [sync_worker], with the process's TZ, which no other thread sets. *)
Record locals := mk_locals {
  lc_tz_env : option string;
  lc_next_ntp : Z;
  lc_next_tz : Z;
}.

Section code.
Variable json_loads : string -> option json.
(** The handle's copies, which nobody assigns after the start. *)
Variable cfg : time_sync.

Definition refresh_time (e : turn_env) : code unit :=
  defined (first_answer (te_getaddrinfo e) (ts_timeout_ms cfg) (csv_list 128 (ts_servers cfg))) (fun answer =>
  match answer with
  | None => ret tt
  | Some r =>
      set_clock (sr_offset_ns r) (
      lock (
      update (fun s => set_ntp_valid s true) (
      update (fun s => set_offset_ns s (sr_offset_ns r)) (
      update (fun s => set_delay_ms s (sr_delay_ms r)) (
      update (fun s => set_stratum s (sr_stratum r)) (
      update (fun s => set_last_sync s (te_time e)) (
      update (fun s => set_reachable s true) (
      unlock (ret tt)))))))))
  end).

(** The name to adopt, and whether there is one. *)
Definition zone_name_code (e : turn_env) (tz_env : option string) : code (option string) :=
  match ts_forced_tz cfg with
  | String c r => ret (Some (hes_strlcpy GEO_TZ_NAME_MAX (String c r)))
  | EmptyString =>
      match (if ts_tz_enabled cfg
             then first_detected (curl := te_curl e) json_loads (ts_timeout_ms cfg) (csv_list 192 (ts_tz_urls cfg))
             else None) with
      | Some name => lock (update (fun s => set_reachable s true) (unlock (ret (Some name))))
      | None =>
          lock (load_snap (fun s =>
          let already_known := sn_tz_valid s in
          unlock (
          ret (if already_known then None else geo_tz_system_name (te_host e) tz_env GEO_TZ_NAME_MAX))))
      end
  end.

(** The process's TZ. *)
Definition refresh_zone (e : turn_env) (tz_env : option string) : code (option string) :=
  bind (zone_name_code e tz_env) (fun name =>
  match name with
  | None => ret tz_env
  | Some name =>
      get_clock (fun offset_ns =>
      let now := hes_clock_now (clock_gettime (te_realtime e) offset_ns) in
      let '(offsets, tz_env) := geo_tz_offsets (te_host e) now tz_env name in
      match offsets with
      | None => ret tz_env
      | Some (std_min, dst_min) =>
          lock (
          update (fun s => set_tz_valid s true) (
          update (fun s => set_tz_name s (hes_strlcpy GEO_TZ_NAME_MAX name)) (
          update (fun s => set_std_offset_min s std_min) (
          update (fun s => set_dst_offset_min s dst_min) (
          unlock (ret tz_env))))))
      end)
  end).

(** The turn's refreshes: the two [if]s of the loop. *)
Definition zone_turn (e : turn_env) (l : locals) : code locals :=
  let '(m1, m2, m3, m4) := te_mono e in
  if due (lc_next_tz l) m1 then
    bind (refresh_zone e (lc_tz_env l)) (fun tz_env =>
    defined (if ts_tz_enabled cfg
             then let* d := ll (ts_tz_interval_s cfg * 1000) in ll (m2 + d)
             else Some (-1)) (fun next_tz =>
    ret (mk_locals tz_env (lc_next_ntp l) next_tz)))
  else ret l.

Definition time_turn (e : turn_env) (l : locals) : code locals :=
  let '(m1, m2, m3, m4) := te_mono e in
  if due (lc_next_ntp l) m3 then
    bind (refresh_time e) (fun _ =>
    defined (let* d := ll (ts_ntp_interval_s cfg * 1000) in ll (m4 + d)) (fun next_ntp =>
    ret (mk_locals (lc_tz_env l) next_ntp (lc_next_tz l))))
  else ret l.

Definition worker_turn (e : turn_env) (l : locals) : code locals := bind (zone_turn e l) (time_turn e).

Definition next_deadline (l : locals) : Z :=
  let next := if 0 <=? lc_next_tz l then lc_next_tz l else -1 in
  if ((0 <=? lc_next_ntp l) && ((next <? 0) || (lc_next_ntp l <? next)))%bool then lc_next_ntp l else next.

(** The rest of the turn: sleep unless a stop was asked for, and whether to break. *)
Definition wait_turn (l : locals) : code bool :=
  let rest := load_stop (fun stop => unlock (ret stop)) in
  lock (load_stop (fun stop => if negb stop then timedwait (next_deadline l) rest else rest)).

Definition sync_worker_init (tz_env : option string) : locals :=
  mk_locals tz_env (if ts_ntp_enabled cfg then 0 else -1) 0.
End code.

(** ** The caller *)

Definition time_sync_get : code time_snapshot_t :=
  lock (load_snap (fun snap => unlock (ret snap))).

Definition time_sync_stop : code unit :=
  lock (store_stop true (signal (unlock (join (destroy (ret tt)))))).

(** ** The shared memory and the threads *)

Inductive thread := Worker | Caller.

(** [me_live]: the handle is allocated, its mutex and condition variable initialised. *)
Record mem := mk_mem {
  me_snap : time_snapshot_t;
  me_stop : bool;
  me_clock : Z;
  me_owner : option thread;
  me_live : bool;
}.

(** The step of a thread that depends on the memory alone. A thread that asks for a lock
    that is held waits; one that unlocks what it does not hold is undefined. *)
Definition op {A} (t : thread) (c : code A) (m : mem) : option (code A * mem) :=
  match c with
  | lock k =>
      match me_owner m with
      | None => Some (k, mk_mem (me_snap m) (me_stop m) (me_clock m) (Some t) (me_live m))
      | Some _ => None
      end
  | unlock k =>
      match me_owner m, t with
      | Some Worker, Worker | Some Caller, Caller =>
          Some (k, mk_mem (me_snap m) (me_stop m) (me_clock m) None (me_live m))
      | _, _ => None
      end
  | load_snap k => Some (k (me_snap m), m)
  | update f k => Some (k, mk_mem (f (me_snap m)) (me_stop m) (me_clock m) (me_owner m) (me_live m))
  | load_stop k => Some (k (me_stop m), m)
  | store_stop b k => Some (k, mk_mem (me_snap m) b (me_clock m) (me_owner m) (me_live m))
  | get_clock k => Some (k (me_clock m), m)
  | set_clock o k =>
      Some (k, mk_mem (me_snap m) (me_stop m) (hes_clock_set_offset_ns o (me_clock m)) (me_owner m) (me_live m))
  | destroy k => Some (k, mk_mem (me_snap m) (me_stop m) (me_clock m) (me_owner m) false)
  | ret _ | undefined | timedwait _ _ | signal _ | join _ => None
  end.

(** The worker refreshes, or is in the rest of its turn, or asleep in it, or has ended. *)
Inductive worker_thread :=
| Turning (c : code locals)
| Waiting (l : locals) (c : code bool)
| Asleep (l : locals) (c : code bool)
| Exited (l : locals).

Inductive caller_thread :=
| Idle
| Getting (c : code time_snapshot_t)
| Stopping (c : code unit)
| Gone.

(** With the histories: the turns begun, each with what it meets, and the snapshots got. *)
Record system := mk_system {
  sy_mem : mem;
  sy_worker : worker_thread;
  sy_caller : caller_thread;
  sy_turns : list turn_env;
  sy_got : list time_snapshot_t;
}.

(** A choice of the scheduler. [WakeUp]: the wait of the worker times out, or ends for no
    reason. *)
Inductive choice :=
| RunWorker
| BeginTurn (e : turn_env)
| WakeUp
| CallGet
| CallStop
| RunCaller.

Section step.
Variable json_loads : string -> option json.
Variable cfg : time_sync.

Definition step_worker (s : system) : option system :=
  let next m w := mk_system m w (sy_caller s) (sy_turns s) (sy_got s) in
  match sy_worker s with
  | Turning (ret l) => Some (next (sy_mem s) (Waiting l (wait_turn l)))
  | Turning c => let* (c', m) := op Worker c (sy_mem s) in Some (next m (Turning c'))
  | Waiting l (ret true) => Some (next (sy_mem s) (Exited l))
  | Waiting l (timedwait _ k) =>
      let m := sy_mem s in
      match me_owner m with
      | Some Worker => Some (next (mk_mem (me_snap m) (me_stop m) (me_clock m) None (me_live m)) (Asleep l k))
      | _ => None
      end
  | Waiting l c => let* (c', m) := op Worker c (sy_mem s) in Some (next m (Waiting l c'))
  | Asleep _ _ | Exited _ => None
  end.

(** Who wakes takes the lock back first. *)
Definition awake (w : worker_thread) : worker_thread :=
  match w with Asleep l k => Waiting l (lock k) | w => w end.

Definition step_caller (s : system) : option system :=
  let next m c := mk_system m (sy_worker s) c (sy_turns s) (sy_got s) in
  match sy_caller s with
  | Idle | Gone => None
  | Getting (ret snap) => Some (mk_system (sy_mem s) (sy_worker s) Idle (sy_turns s) (sy_got s ++ [snap]))
  | Getting c => let* (c', m) := op Caller c (sy_mem s) in Some (next m (Getting c'))
  | Stopping (ret _) => Some (next (sy_mem s) Gone)
  | Stopping (signal k) =>
      Some (mk_system (sy_mem s) (awake (sy_worker s)) (Stopping k) (sy_turns s) (sy_got s))
  | Stopping (join k) =>
      match sy_worker s with Exited _ => Some (next (sy_mem s) (Stopping k)) | _ => None end
  | Stopping c => let* (c', m) := op Caller c (sy_mem s) in Some (next m (Stopping c'))
  end.

Definition step (c : choice) (s : system) : option system :=
  match c with
  | RunWorker => step_worker s
  | BeginTurn e =>
      match sy_worker s with
      | Waiting l (ret false) =>
          Some (mk_system (sy_mem s) (Turning (worker_turn json_loads cfg e l)) (sy_caller s)
                  (sy_turns s ++ [e]) (sy_got s))
      | _ => None
      end
  | WakeUp =>
      match sy_worker s with
      | Asleep _ _ => Some (mk_system (sy_mem s) (awake (sy_worker s)) (sy_caller s) (sy_turns s) (sy_got s))
      | _ => None
      end
  | CallGet =>
      match sy_caller s with
      | Idle => Some (mk_system (sy_mem s) (sy_worker s) (Getting time_sync_get) (sy_turns s) (sy_got s))
      | _ => None
      end
  | CallStop =>
      match sy_caller s with
      | Idle => Some (mk_system (sy_mem s) (sy_worker s) (Stopping time_sync_stop) (sy_turns s) (sy_got s))
      | _ => None
      end
  | RunCaller => step_caller s
  end.

Fixpoint run (cs : list choice) (s : system) : option system :=
  match cs with
  | [] => Some s
  | c :: cs' => let* s' := step c s in run cs' s'
  end.

(** What a start that succeeds leaves: the thread is about to begin its first turn. *)
Definition started (clock0 : Z) (tz_env : option string) : system :=
  mk_system (mk_mem (ts_snap cfg) false clock0 None true)
    (Waiting (sync_worker_init cfg tz_env) (ret false))
    Idle [] [].
End step.
