(* ===== verification/SyncThreadFacts.v ===== *)
(** * The synchronisation's threads: properties

    The lock discipline of the handle, the refinement of the sequential worker of
    TimeSync.v by the threads, what a reader of the snapshot sees, and the end of a
    stop. *)

From stdpp Require Import sorting.
From S2P Require Import Prelude CLib HesCommon Json Https GeoTz GeoTzFacts Sntp SntpFacts TimeSync TimeSyncFacts SyncThread.

(** ** Code run on its own *)

(** The result, the snapshot and the clock's correction when no other thread interferes;
    [None] where the code is undefined or is not a refresh. *)
Fixpoint exec {A} (c : code A) (s : time_snapshot_t) (o : Z) : option (A * time_snapshot_t * Z) :=
  match c with
  | ret a => Some (a, s, o)
  | lock k | unlock k => exec k s o
  | load_snap k => exec (k s) s o
  | update f k => exec k (f s) o
  | get_clock k => exec (k o) s o
  | set_clock o' k => exec k s o'
  | _ => None
  end.

(** The snapshots at the releases of the lock. *)
Fixpoint releases {A} (c : code A) (s : time_snapshot_t) (o : Z) : list time_snapshot_t :=
  match c with
  | lock k => releases k s o
  | unlock k => s :: releases k s o
  | load_snap k => releases (k s) s o
  | update f k => releases k (f s) o
  | get_clock k => releases (k o) s o
  | set_clock o' k => releases k s o'
  | _ => []
  end.

Lemma exec_bind {A B} (c : code A) (f : A -> code B) s o :
  exec (bind c f) s o = let* (a, s', o') := exec c s o in exec (f a) s' o'.
Proof. revert s o. induction c; intros s o; cbn [bind exec]; auto. Qed.

Lemma releases_bind {A B} (c : code A) (f : A -> code B) s o :
  releases (bind c f) s o =
  releases c s o ++ match exec c s o with Some (a, s', o') => releases (f a) s' o' | None => [] end.
Proof. revert s o. induction c; intros s o; cbn [bind exec releases]; rewrite ?app_nil_r; auto. cbn [app]. by f_equal. Qed.

(** ** The refreshes are those of the sequential worker *)

Section refines.
Variable json_loads : string -> option json.
Variable cfg : time_sync.

Definition seq_worker (l : locals) (s : time_snapshot_t) (o : Z) : worker_t :=
  mk_worker (ts_with_snap s cfg) o (lc_tz_env l) (lc_next_ntp l) (lc_next_tz l).

Definition locals_of (w : worker_t) : locals := mk_locals (wk_tz_env w) (wk_next_ntp w) (wk_next_tz w).

Definition outcome (w : option worker_t) : option (locals * time_snapshot_t * Z) :=
  let* w := w in Some (locals_of w, ts_snap (wk_ts w), wk_offset_ns w).

Lemma exec_refresh_time e s o :
  exec (refresh_time cfg e) s o =
  let* (ts, o') := TimeSync.refresh_time (te_getaddrinfo e) (te_time e) (ts_with_snap s cfg) o in
  Some (tt, ts_snap ts, o').
Proof.
  unfold refresh_time, TimeSync.refresh_time, defined. cbn [ts_with_snap ts_timeout_ms ts_servers].
  by destruct (first_answer _ _ _) as [[r|]|].
Qed.

Lemma exec_zone_name e env s o :
  exec (zone_name_code json_loads cfg e env) s o =
  let '(name, ts) := @zone_name (te_curl e) json_loads (te_host e) env (ts_with_snap s cfg) in
  Some (name, ts_snap ts, o).
Proof.
  unfold zone_name_code, zone_name. cbn [ts_with_snap ts_forced_tz ts_tz_enabled ts_tz_urls ts_timeout_ms ts_snap].
  destruct (ts_forced_tz cfg); [|done].
  by destruct (if ts_tz_enabled cfg then _ else _); cbn [exec].
Qed.

Lemma zone_name_config e env ts : same_config ts (snd (@zone_name (te_curl e) json_loads (te_host e) env ts)).
Proof.
  unfold zone_name. destruct (ts_forced_tz ts); [|apply same_config_refl].
  destruct (if ts_tz_enabled ts then _ else _); [by eexists|apply same_config_refl].
Qed.

Lemma exec_refresh_zone e env s o :
  exec (refresh_zone json_loads cfg e env) s o =
  let '(ts, env') := @TimeSync.refresh_zone (te_curl e) json_loads (te_host e)
    (hes_clock_now (clock_gettime (te_realtime e) o)) (ts_with_snap s cfg) env in
  Some (env', ts_snap ts, o).
Proof.
  unfold refresh_zone, TimeSync.refresh_zone. rewrite exec_bind, exec_zone_name.
  destruct (@zone_name _ _ _ _ _) as [[name|] ts]; [|done]. cbn [exec].
  by destruct (geo_tz_offsets _ _ env name) as [[[std dst]|] env'].
Qed.

Lemma exec_turn e l s o :
  exec (worker_turn json_loads cfg e l) s o = outcome (TimeSync.worker_turn json_loads e (seq_worker l s o)).
Proof.
  unfold worker_turn, TimeSync.worker_turn. rewrite exec_bind. unfold zone_turn, TimeSync.zone_turn.
  destruct (te_mono e) as [[[m1 m2] m3] m4] eqn:Em. cbn [seq_worker wk_next_tz wk_offset_ns wk_ts wk_tz_env wk_next_ntp].
  assert (Ht : forall l' s' o', exec (time_turn cfg e l') s' o' =
    outcome (TimeSync.time_turn e (seq_worker l' s' o'))).
  { intros l' s' o'. unfold time_turn, TimeSync.time_turn. rewrite Em.
    cbn [seq_worker wk_next_tz wk_offset_ns wk_ts wk_tz_env wk_next_ntp].
    destruct (due (lc_next_ntp l') m3); [|by destruct l']. rewrite exec_bind, exec_refresh_time.
    destruct (TimeSync.refresh_time _ _ _ _) as [[ts o1]|] eqn:E; [|done].
    assert (Hi : ts_ntp_interval_s ts = ts_ntp_interval_s cfg).
    { unfold TimeSync.refresh_time in E. destruct (first_answer _ _ _) as [[r|]|]; [| |done]; by injection E as <- <-. }
    rewrite Hi. by destruct (ll _) as [d|]; [destruct (ll (m4 + d))|]. }
  destruct (due (lc_next_tz l) m1); [|cbn [exec]; by rewrite Ht].
  rewrite exec_bind, exec_refresh_zone.
  destruct (@TimeSync.refresh_zone _ _ _ _ _ _) as [ts env'] eqn:E.
  destruct (@refresh_zone_ok _ _ _ _ _ _ _ _ 0 0 E) as ([s1 ->] & _).
  cbn [ts_with_snap ts_tz_enabled ts_tz_interval_s ts_snap].
  destruct (if ts_tz_enabled cfg then _ else _) as [next|]; [|done]. cbn [defined exec]. by rewrite Ht.
Qed.
End refines.

(** ** The discipline of a refresh

    The snapshot is accessed between a [lock] and its [unlock] only, the code ends
    without the lock, and no assignment takes back what the snapshot promises. *)

Definition grows (a b : time_snapshot_t) : Prop :=
  (sn_ntp_valid a = true -> sn_ntp_valid b = true) /\ (sn_tz_valid a = true -> sn_tz_valid b = true) /\
  (sn_reachable a = true -> sn_reachable b = true).

#[export] Instance grows_preorder : PreOrder grows.
Proof. split; [by intros a|]. intros a b c (?&?&?) (?&?&?). split_and!; auto. Qed.

Fixpoint disciplined {A} (holds : bool) (c : code A) : Prop :=
  match c with
  | ret _ => holds = false
  | undefined => True
  | lock k => holds = false /\ disciplined true k
  | unlock k => holds = true /\ disciplined false k
  | load_snap k => holds = true /\ forall s, disciplined true (k s)
  | update f k => holds = true /\ (forall s, grows s (f s)) /\ disciplined true k
  | get_clock k => forall o, disciplined holds (k o)
  | set_clock _ k => disciplined holds k
  | _ => False
  end.

Lemma disciplined_bind {A B} h (c : code A) (f : A -> code B) :
  disciplined h c -> (forall a, disciplined false (f a)) -> disciplined h (bind c f).
Proof.
  intros Hc Hf. revert h Hc. induction c; intros h; cbn [bind disciplined]; try done; try (intuition; fail).
  by intros ->.
Qed.

Lemma disciplined_defined {A B} (a : option A) (f : A -> code B) :
  (forall x, disciplined false (f x)) -> disciplined false (defined a f).
Proof. intros H. destruct a; [apply H|done]. Qed.

Section discipline.
Variable json_loads : string -> option json.
Variable cfg : time_sync.

Lemma refresh_time_disciplined e : disciplined false (refresh_time cfg e).
Proof. apply disciplined_defined. intros [r|]; [|done]. cbn. split_and!; done. Qed.

Lemma refresh_zone_disciplined e env : disciplined false (refresh_zone json_loads cfg e env).
Proof.
  apply disciplined_bind.
  - unfold zone_name_code. destruct (ts_forced_tz cfg); [|done].
    destruct (if ts_tz_enabled cfg then _ else _); cbn; split_and!; done.
  - intros [name|]; [|done]. cbn [disciplined]. intros o.
    destruct (geo_tz_offsets _ _ _ _) as [[[std dst]|] env']; [|done]. cbn. split_and!; done.
Qed.

Lemma worker_turn_disciplined e l : disciplined false (worker_turn json_loads cfg e l).
Proof.
  apply disciplined_bind; [unfold zone_turn|intros l'; unfold time_turn];
    destruct (te_mono e) as [[[m1 m2] m3] m4]; destruct (due _ _); try done; apply disciplined_bind.
  - apply refresh_zone_disciplined.
  - intros env. by apply disciplined_defined.
  - apply refresh_time_disciplined.
  - intros []. by apply disciplined_defined.
Qed.
End discipline.

(** ** Where the threads are

    [stop], [signalled], [joined], [live]: what the caller has done; [holds]: the thread
    holds the lock. *)

Definition wait_rest : code bool := load_stop (fun stop => unlock (ret stop)).

Inductive waits (stop : bool) (l : locals) : bool -> code bool -> Prop :=
| waits_lock : waits stop l false (wait_turn l)
| waits_test : waits stop l true
    (load_stop (fun stop => if negb stop then timedwait (next_deadline l) wait_rest else wait_rest))
| waits_sleep : stop = false -> waits stop l true (timedwait (next_deadline l) wait_rest)
| waits_woken : waits stop l false (lock wait_rest)
| waits_load : waits stop l true wait_rest
| waits_unlock b : (b = true -> stop = true) -> waits stop l true (unlock (ret b))
| waits_ret b : (b = true -> stop = true) -> waits stop l false (ret b).

Inductive worker_at (stop signalled joined : bool) : worker_thread -> bool -> Prop :=
| at_turning h c : joined = false -> disciplined h c -> worker_at stop signalled joined (Turning c) h
| at_waiting h l c : joined = false -> waits stop l h c -> worker_at stop signalled joined (Waiting l c) h
| at_asleep l : joined = false -> signalled = false -> worker_at stop signalled joined (Asleep l wait_rest) false
| at_exited l : stop = true -> worker_at stop signalled joined (Exited l) false.

Inductive gets : bool -> code time_snapshot_t -> Prop :=
| gets_lock : gets false time_sync_get
| gets_load : gets true (load_snap (fun snap => unlock (ret snap)))
| gets_unlock s : gets true (unlock (ret s))
| gets_ret s : gets false (ret s).

(** [caller_at stop signalled joined live c holds] *)
Inductive caller_at : bool -> bool -> bool -> bool -> caller_thread -> bool -> Prop :=
| at_idle : caller_at false false false true Idle false
| at_getting h c : gets h c -> caller_at false false false true (Getting c) h
| at_stop_lock : caller_at false false false true (Stopping time_sync_stop) false
| at_stop_store : caller_at false false false true
    (Stopping (store_stop true (signal (unlock (join (destroy (ret tt))))))) true
| at_stop_signal : caller_at true false false true (Stopping (signal (unlock (join (destroy (ret tt)))))) true
| at_stop_unlock : caller_at true true false true (Stopping (unlock (join (destroy (ret tt))))) true
| at_stop_join : caller_at true true false true (Stopping (join (destroy (ret tt)))) false
| at_stop_destroy : caller_at true true true true (Stopping (destroy (ret tt))) false
| at_stop_ret : caller_at true true true false (Stopping (ret tt)) false
| at_gone : caller_at true true true false Gone false.

Definition owner_of (hw hc : bool) : option thread :=
  if hw then Some Worker else if hc then Some Caller else None.

Definition threads_ok (s : system) : Prop :=
  exists signalled joined hw hc,
    worker_at (me_stop (sy_mem s)) signalled joined (sy_worker s) hw /\
    caller_at (me_stop (sy_mem s)) signalled joined (me_live (sy_mem s)) (sy_caller s) hc /\
    (hw && hc)%bool = false /\ me_owner (sy_mem s) = owner_of hw hc.

Ltac steps := repeat match goal with
  | H : Some _ = Some _ |- _ => injection H as H
  | H : (let* _ := ?x in _) = Some _ |- _ => destruct x as [?|] eqn:?; [|discriminate H]
  | H : None = Some _ |- _ => discriminate H
  | p : (_ * _)%type |- _ => destruct p
  end.

(** A step of a refresh: what it keeps. *)
Lemma op_disciplined {A} h hc (c : code A) m c' m' :
  disciplined h c -> (h && hc)%bool = false -> me_owner m = owner_of h hc ->
  op Worker c m = Some (c', m') ->
  me_stop m' = me_stop m /\ me_live m' = me_live m /\ grows (me_snap m) (me_snap m') /\
  exists h', disciplined h' c' /\ (h' && hc)%bool = false /\ me_owner m' = owner_of h' hc.
Proof.
  intros Hd Hx Ho. destruct c; cbn [op disciplined] in *; try done.
  - destruct Hd as [-> Hd]. destruct hc; rewrite Ho; [done|]. intros [= <- <-]. split_and!; [done..|].
    by exists true.
  - destruct Hd as [-> Hd]. rewrite Ho. intros [= <- <-]. destruct hc; [done|]. split_and!; [done..|]. by exists false.
  - destruct Hd as [-> Hd]. intros [= <- <-]. split_and!; [done..|]. exists true. by split_and!.
  - destruct Hd as (-> & Hf & Hd). intros [= <- <-]. split_and!; [done..|apply Hf|]. exists true. by split_and!.
  - intros [= <- <-]. split_and!; [done..|]. by exists h.
  - intros [= <- <-]. split_and!; [done..|]. by exists h.
Qed.

(** The same for the rest of a turn. *)
Lemma op_waits h hc l c m c' m' :
  waits (me_stop m) l h c -> (h && hc)%bool = false -> me_owner m = owner_of h hc ->
  op Worker c m = Some (c', m') ->
  me_stop m' = me_stop m /\ me_live m' = me_live m /\ me_snap m' = me_snap m /\ me_clock m' = me_clock m /\
  exists h', waits (me_stop m) l h' c' /\ (h' && hc)%bool = false /\ me_owner m' = owner_of h' hc.
Proof.
  intros Hw Hx Ho Hop. destruct hc, Hw; cbn in Ho; cbn in Hop; try done; rewrite ?Ho in Hop; steps; subst;
    cbn; split_and!; try done; try (exists true; split_and!; [constructor|done..]);
    try (exists false; split_and!; [by constructor|done..]).
  - exists true. split_and!; [|done..]. destruct (me_stop m') eqn:E; by constructor.
  - done.
Qed.

(** And for the caller. *)
Lemma op_gets h hw c m c' m' :
  gets h c -> (hw && h)%bool = false -> me_owner m = owner_of hw h ->
  op Caller c m = Some (c', m') ->
  me_stop m' = me_stop m /\ me_live m' = me_live m /\ me_snap m' = me_snap m /\ me_clock m' = me_clock m /\
  exists h', gets h' c' /\ (hw && h')%bool = false /\ me_owner m' = owner_of hw h'.
Proof.
  intros Hg Hx Ho Hop. destruct hw, Hg; cbn in Ho; cbn in Hop; try done; rewrite ?Ho in Hop; steps; subst;
    cbn; split_and!; try done; try (exists true; split_and!; [constructor|done..]);
    try (exists false; split_and!; [by constructor|done..]).
Qed.

Lemma worker_at_awake stop signalled joined w h :
  worker_at stop signalled joined w h -> worker_at stop true joined (awake w) h.
Proof. destruct 1; constructor; try done. constructor. Qed.

(** A worker without the lock stays where it is while the caller asks for the stop. *)
Lemma worker_at_stop sg jn w : worker_at false sg jn w false -> worker_at true sg jn w false.
Proof.
  inversion 1 as [h c Hj Hd|h l c Hj Hw|l Hj Hs|l Hs]; subst; try (by constructor).
  constructor; [done|]. inversion Hw; subst; by constructor.
Qed.

(** ** The steps, by rules *)

Definition unlocked (m : mem) : mem := mk_mem (me_snap m) (me_stop m) (me_clock m) None (me_live m).

Inductive worker_rule (m : mem) : worker_thread -> mem -> worker_thread -> Prop :=
| rule_refresh k k' m' : op Worker k m = Some (k', m') -> worker_rule m (Turning k) m' (Turning k')
| rule_refreshed l : worker_rule m (Turning (ret l)) m (Waiting l (wait_turn l))
| rule_wait l k k' m' : op Worker k m = Some (k', m') -> worker_rule m (Waiting l k) m' (Waiting l k')
| rule_sleep l d k : me_owner m = Some Worker -> worker_rule m (Waiting l (timedwait d k)) (unlocked m) (Asleep l k)
| rule_exit l : worker_rule m (Waiting l (ret true)) m (Exited l).

Lemma step_worker_rule s s' :
  step_worker s = Some s' <->
  exists m w, worker_rule (sy_mem s) (sy_worker s) m w /\ s' = mk_system m w (sy_caller s) (sy_turns s) (sy_got s).
Proof.
  destruct s as [m w c ts got]. unfold step_worker. cbn [sy_mem sy_worker sy_caller sy_turns sy_got]. split.
  - destruct w as [k|l k|l k|l]; try done.
    + intros H. assert (H2 : (exists l, k = ret l /\ s' = mk_system m (Waiting l (wait_turn l)) c ts got) \/
        (let* (k', m') := op Worker k m in Some (mk_system m' (Turning k') c ts got)) = Some s').
      { destruct k; auto. injection H as <-. left. by eexists. }
      destruct H2 as [(l & -> & ->)|H2]; [by eauto using worker_rule|].
      destruct (op Worker k m) as [[k' m']|] eqn:E; [|done]. injection H2 as <-. eauto using worker_rule.
    + intros H. assert (H2 : (k = ret true /\ s' = mk_system m (Exited l) c ts got) \/
        (exists d k', k = timedwait d k' /\ me_owner m = Some Worker /\ s' = mk_system (unlocked m) (Asleep l k') c ts got) \/
        (let* (k', m') := op Worker k m in Some (mk_system m' (Waiting l k') c ts got)) = Some s').
      { destruct k as [[]| | | | | | | | | |d k'| | |]; auto.
        - injection H as <-. by left.
        - right. left. destruct (me_owner m) as [[]|]; try done. injection H as <-. by exists d, k'. }
      destruct H2 as [[-> ->]|[(d & k' & -> & Ho & ->)|H2]]; [by eauto using worker_rule..|].
      destruct (op Worker k m) as [[k' m']|] eqn:E; [|done]. injection H2 as <-. eauto using worker_rule.
  - intros (m' & w' & Hr & ->). destruct Hr as [k k' m' E|l|l k k' m' E|l d k Ho|l]; try done.
    + destruct k; try done; by rewrite E.
    + destruct k; try done; by rewrite E.
    + by rewrite Ho.
Qed.

Inductive caller_rule (m : mem) (w : worker_thread) (got : list time_snapshot_t) :
  caller_thread -> mem -> worker_thread -> caller_thread -> list time_snapshot_t -> Prop :=
| rule_get k k' m' : op Caller k m = Some (k', m') -> caller_rule m w got (Getting k) m' w (Getting k') got
| rule_got s : caller_rule m w got (Getting (ret s)) m w Idle (got ++ [s])
| rule_stop k k' m' : op Caller k m = Some (k', m') -> caller_rule m w got (Stopping k) m' w (Stopping k') got
| rule_stopped u : caller_rule m w got (Stopping (ret u)) m w Gone got
| rule_signal k : caller_rule m w got (Stopping (signal k)) m (awake w) (Stopping k) got
| rule_join l k : w = Exited l -> caller_rule m w got (Stopping (join k)) m w (Stopping k) got.

Lemma step_caller_rule s s' :
  step_caller s = Some s' <->
  exists m w c got, caller_rule (sy_mem s) (sy_worker s) (sy_got s) (sy_caller s) m w c got /\
    s' = mk_system m w c (sy_turns s) got.
Proof.
  destruct s as [m w c ts got]. unfold step_caller. cbn [sy_mem sy_worker sy_caller sy_turns sy_got]. split.
  - destruct c as [|k|k|]; try done.
    + intros H. assert (H2 : (exists s, k = ret s /\ s' = mk_system m w Idle ts (got ++ [s])) \/
        (let* (k', m') := op Caller k m in Some (mk_system m' w (Getting k') ts got)) = Some s').
      { destruct k; auto. injection H as <-. left. by eexists. }
      destruct H2 as [(s & -> & ->)|H2]; [by eauto 12 using caller_rule|].
      destruct (op Caller k m) as [[k' m']|] eqn:E; [|done]. injection H2 as <-. eauto 12 using caller_rule.
    + intros H. assert (H2 : (exists m2 w2 c2, caller_rule m w got (Stopping k) m2 w2 c2 got /\ s' = mk_system m2 w2 c2 ts got) \/
        (let* (k', m') := op Caller k m in Some (mk_system m' w (Stopping k') ts got)) = Some s').
      { destruct k; auto; left.
        - injection H as <-. eauto 12 using caller_rule.
        - injection H as <-. eauto 12 using caller_rule.
        - destruct w as [| | |l]; try done. injection H as <-. eauto 12 using caller_rule. }
      destruct H2 as [(m2 & w2 & c2 & Hr & ->)|H2]; [by eauto 12|].
      destruct (op Caller k m) as [[k' m']|] eqn:E; [|done]. injection H2 as <-. eauto 12 using caller_rule.
  - intros (m' & w' & c' & got' & Hr & ->). destruct Hr as [k k' m' E|s|k k' m' E|u|k|l k ->]; try done.
    + destruct k; try done; by rewrite E.
    + destruct k; try done; by rewrite E.
Qed.

(** ** The invariant of the threads *)

Lemma worker_rule_ok m w m' w' sg jn hw hc c :
  worker_rule m w m' w' ->
  worker_at (me_stop m) sg jn w hw -> caller_at (me_stop m) sg jn (me_live m) c hc ->
  (hw && hc)%bool = false -> me_owner m = owner_of hw hc ->
  me_stop m' = me_stop m /\ me_live m' = me_live m /\ grows (me_snap m) (me_snap m') /\
  exists hw', worker_at (me_stop m) sg jn w' hw' /\ (hw' && hc)%bool = false /\ me_owner m' = owner_of hw' hc.
Proof.
  intros Hr Hw Hc Hx Ho. destruct Hr as [k k' m' E|l|l k k' m' E|l d k Hm|l]; inversion_clear Hw as [? ? Hj Hk|? ? ? Hj Hk| |].
  - destruct (op_disciplined _ _ _ _ _ _ Hk Hx Ho E) as (Es & El & Hg & h' & Hk' & Hx' & Ho').
    split_and!; [done..|]. exists h'. by split_and!; [constructor|..].
  - split_and!; [done..|]. cbn in Hk. subst hw. exists false. split_and!; [|done..]. constructor; [done|constructor].
  - destruct (op_waits _ _ _ _ _ _ _ Hk Hx Ho E) as (Es & El & Eg & _ & h' & Hk' & Hx' & Ho').
    rewrite Eg. split_and!; [done..|]. exists h'. by split_and!; [constructor|..].
  - split_and!; [done..|]. inversion Hk as [| |Hst| | | |]. subst. destruct hc; [done|].
    exists false. split_and!; [|done..]. apply at_asleep; [done|]. rewrite Hst in Hc. by inversion Hc.
  - split_and!; [done..|]. inversion Hk as [| | | | | |b Hb]. subst. exists false. split_and!; [|done..].
    apply at_exited. auto.
Qed.

Lemma caller_rule_ok m w got c m' w' c' got' sg jn hw hc :
  caller_rule m w got c m' w' c' got' ->
  worker_at (me_stop m) sg jn w hw -> caller_at (me_stop m) sg jn (me_live m) c hc ->
  (hw && hc)%bool = false -> me_owner m = owner_of hw hc ->
  me_snap m' = me_snap m /\ me_clock m' = me_clock m /\ (me_stop m = true -> me_stop m' = true) /\
  exists sg' jn' hc', worker_at (me_stop m') sg' jn' w' hw /\ caller_at (me_stop m') sg' jn' (me_live m') c' hc' /\
    (hw && hc')%bool = false /\ me_owner m' = owner_of hw hc'.
Proof.
  intros Hr Hw Hc Hx Ho. destruct Hr as [k k' m' E|s|k k' m' E|u|k|l k ->].
  - assert (exists h, gets h k /\ h = hc /\ sg = false /\ jn = false /\ me_stop m = false /\ me_live m = true)
      as (h & Hg & -> & -> & -> & Hst & Hl) by (inversion Hc; subst; eauto 8).
    destruct (op_gets _ _ _ _ _ _ Hg Hx Ho E) as (Es & El & Eg & Ec & h' & Hk' & Hx' & Ho').
    split_and!; [done..|by rewrite Es|]. exists false, false, h'. rewrite Es, El, Hl. rewrite Hst in *.
    by split_and!; [|constructor|..].
  - split_and!; [done..|]. destruct m as [sn st cl ow lv]. cbn in *. inversion Hc as [|? ? Hg| | | | | | | |]; subst. inversion Hg; subst.
    exists false, false, false. by split_and!; [|constructor|..].
  - destruct m as [sn st cl ow lv]. cbn in *. subst ow. inversion Hc; subst; cbn in E.
    + destruct hw; [done|]. injection E as <- <-. split_and!; [done..|]. exists false, false, true.
      by split_and!; [|constructor|..].
    + destruct hw; [done|]. injection E as <- <-. split_and!; [done..|]. exists false, false, true.
      split_and!; [|constructor|done..]. by eapply worker_at_stop.
    + done.
    + destruct hw; [done|]. injection E as <- <-. split_and!; [done..|]. exists true, false, false.
      by split_and!; [|constructor|..].
    + done.
    + injection E as <- <-. split_and!; [done..|]. exists true, true, false. by split_and!; [|constructor|..].
    + done.
  - split_and!; [done..|]. destruct m as [sn st cl ow lv]. cbn in *. inversion Hc; subst.
    exists true, true, false. by split_and!; [|constructor|..].
  - split_and!; [done..|]. destruct m as [sn st cl ow lv]. cbn in *. inversion Hc; subst.
    exists true, false, true. split_and!; [by eapply worker_at_awake|constructor|done..].
  - split_and!; [done..|]. destruct m as [sn st cl ow lv]. cbn in *. inversion Hc; subst.
    exists true, true, false. inversion Hw; subst. split_and!; [by constructor|constructor|done..].
Qed.

Section reached.
Variable json_loads : string -> option json.
Variable cfg : time_sync.
Variable clock0 : Z.
Variable tz_env : option string.

Definition reaches (s : system) : Prop := exists cs, run json_loads cfg cs (started cfg clock0 tz_env) = Some s.

Lemma reaches_ind (P : system -> Prop) :
  P (started cfg clock0 tz_env) ->
  (forall c s s', reaches s -> P s -> step json_loads cfg c s = Some s' -> P s') ->
  forall s, reaches s -> P s.
Proof.
  intros H0 Hs s [cs H]. revert H0. assert (Hr : reaches (started cfg clock0 tz_env)) by by exists [].
  revert Hr H. generalize (started cfg clock0 tz_env) as s0. induction cs as [|c cs IH]; intros s0 Hr H HP; cbn [run] in H.
  - by injection H as <-.
  - destruct (step json_loads cfg c s0) as [s1|] eqn:E; [|done]. apply (IH s1); [|done|by eapply Hs].
    destruct Hr as [cs0 Hr]. exists (cs0 ++ [c]). revert Hr. generalize (started cfg clock0 tz_env) as t.
    induction cs0 as [|c0 cs0 IH0]; intros t; cbn [run app]; [intros [= ->]; by rewrite E|].
    destruct (step _ _ c0 t); [apply IH0|done].
Qed.

Lemma step_ok c s s' : step json_loads cfg c s = Some s' -> threads_ok s -> threads_ok s'.
Proof.
  intros H (sg & jn & hw & hc & Hw & Hc & Hx & Ho). destruct c; cbn [step] in H.
  - apply step_worker_rule in H as (m & w & Hr & ->).
    destruct (worker_rule_ok _ _ _ _ _ _ _ _ _ Hr Hw Hc Hx Ho) as (Es & El & _ & hw' & Hw' & Hx' & Ho').
    exists sg, jn, hw', hc. cbn. by rewrite Es, El.
  - destruct (sy_worker s) as [|l [[]| | | | | | | | | | | | |]| |] eqn:Ew; try done. injection H as <-.
    inversion Hw as [|? ? ? Hj Hk| |]; subst. inversion Hk; subst.
    exists sg, false, false, hc. split_and!; [|done..]. constructor; [done|apply worker_turn_disciplined].
  - destruct (sy_worker s) as [| |l k|] eqn:Ew; try done. injection H as <-. inversion Hw; subst.
    exists false, false, false, hc. split_and!; [|done..]. constructor; [done|constructor].
  - destruct (sy_caller s) eqn:Ec; try done. injection H as <-. exists sg, jn, hw, hc. split_and!; [done| |done..].
    cbn. inversion Hc; subst. repeat constructor.
  - destruct (sy_caller s) eqn:Ec; try done. injection H as <-. exists sg, jn, hw, hc. split_and!; [done| |done..].
    cbn. inversion Hc; subst. repeat constructor.
  - apply step_caller_rule in H as (m & w & c & got & Hr & ->).
    destruct (caller_rule_ok _ _ _ _ _ _ _ _ _ _ _ _ Hr Hw Hc Hx Ho) as (_ & _ & _ & sg' & jn' & hc' & H).
    by exists sg', jn', hw, hc'.
Qed.

Lemma started_ok : threads_ok (started cfg clock0 tz_env).
Proof. exists false, false, false, false. split_and!; [|constructor|done..]. constructor; [done|by constructor]. Qed.

Lemma step_turns c s s' :
  step json_loads cfg c s = Some s' -> sy_turns s' = sy_turns s ++ match c with BeginTurn e => [e] | _ => [] end.
Proof.
  destruct c; cbn [step]; intros H; rewrite ?app_nil_r.
  - by apply step_worker_rule in H as (m & w & _ & ->).
  - destruct (sy_worker s) as [|l [[]| | | | | | | | | | | | |]| |]; try done. by injection H as <-.
  - destruct (sy_worker s); try done. by injection H as <-.
  - destruct (sy_caller s); try done. by injection H as <-.
  - destruct (sy_caller s); try done. by injection H as <-.
  - by apply step_caller_rule in H as (m & w & c & got & _ & ->).
Qed.

Lemma reached_ok s : reaches s -> threads_ok s.
Proof. revert s. apply reaches_ind; [apply started_ok|]. intros c s s' _ H E. by eapply step_ok. Qed.

(** ** The lock discipline *)

(** What a thread does next, as tests on its code. *)
Definition guarded {A} (c : code A) : bool :=
  match c with
  | unlock _ | load_snap _ | update _ _ | load_stop _ | store_stop _ _ | timedwait _ _ => true
  | _ => false
  end.

Definition uses_handle {A} (c : code A) : bool :=
  match c with ret _ | undefined | get_clock _ | set_clock _ _ => false | _ => true end.

Definition asks_lock {A} (c : code A) : bool := match c with lock _ => true | _ => false end.

Definition frees {A} (c : code A) : bool := match c with destroy _ => true | _ => false end.

Definition worker_does (f : forall A, code A -> bool) (w : worker_thread) : bool :=
  match w with Turning c => f _ c | Waiting _ c => f _ c | Asleep _ c => f _ (lock c) | Exited _ => false end.

Definition caller_does (f : forall A, code A -> bool) (c : caller_thread) : bool :=
  match c with Getting c => f _ c | Stopping c => f _ c | Idle | Gone => false end.

(** C30: under any schedule, a thread about to access the snapshot or the stop flag, to release
    the lock or to sleep holds the lock, and one that asks for the lock does not hold it: no
    data race, no undefined unlock, no thread waiting for itself. The handle is alive
    whenever a thread is about to use it, and is destroyed after the worker has ended, with
    its mutex released. *)
Theorem lock_discipline s :
  reaches s ->
  let m := sy_mem s in
  (worker_does (@guarded) (sy_worker s) = true -> me_owner m = Some Worker) /\
  (caller_does (@guarded) (sy_caller s) = true -> me_owner m = Some Caller) /\
  (worker_does (@asks_lock) (sy_worker s) = true -> me_owner m <> Some Worker) /\
  (caller_does (@asks_lock) (sy_caller s) = true -> me_owner m <> Some Caller) /\
  (worker_does (@uses_handle) (sy_worker s) = true -> me_live m = true) /\
  (caller_does (@uses_handle) (sy_caller s) = true -> me_live m = true) /\
  (caller_does (@frees) (sy_caller s) = true -> me_owner m = None /\ exists l, sy_worker s = Exited l).
Proof.
  intros (sg & jn & hw & hc & Hw & Hc & Hx & Ho)%reached_ok m. fold m in Hw, Hc, Ho. rewrite Ho.
  assert (Hlive : jn = false -> me_live m = true) by (intros ->; by inversion Hc).
  split_and!.
  - destruct Hw as [h c Hj Hk|h l c Hj Hk|l|l]; try done.
    + destruct c; cbn in Hk |- *; try done; by destruct Hk as [-> _].
    + by destruct Hk.
  - destruct Hc as [|h c Hk| | | | | | | |]; try done; try (by destruct hw). by destruct Hk; destruct hw.
  - destruct Hw as [h c Hj Hk|h l c Hj Hk|l|l]; try done; [|by destruct Hk, hc|by destruct hc].
    destruct c; cbn in Hk |- *; try done. destruct Hk as [-> _]. by destruct hc.
  - destruct Hc as [|h c Hk| | | | | | | |]; try done; try (by destruct hw). by destruct Hk; destruct hw.
  - destruct Hw as [h c Hj Hk|h l c Hj Hk|l|l]; try done; intros _; by apply Hlive.
  - by destruct Hc.
  - destruct Hc as [|h c Hk| | | | | | | |]; try done; [by destruct Hk|]. intros _.
    destruct Hw; try done. split; [done|by eexists].
Qed.

(** ** The threads refine the sequential worker *)

Abbreviation seq_run ts :=
  (TimeSync.worker_run json_loads ts (worker_init cfg clock0 tz_env)).

Definition refines (s : system) : Prop :=
  let m := sy_mem s in
  match sy_worker s with
  | Turning c => exec c (me_snap m) (me_clock m) = outcome (seq_run (sy_turns s))
  | Waiting l _ | Asleep l _ | Exited l => seq_run (sy_turns s) = Some (seq_worker cfg l (me_snap m) (me_clock m))
  end.

Lemma exec_op {A} (c : code A) m c' m' h :
  disciplined h c -> op Worker c m = Some (c', m') ->
  exec c' (me_snap m') (me_clock m') = exec c (me_snap m) (me_clock m).
Proof.
  intros Hd H. destruct c; cbn in *; try done; try (by injection H as <- <-).
  - destruct (me_owner m); [done|]. by injection H as <- <-.
  - destruct (me_owner m) as [[]|]; try done. by injection H as <- <-.
Qed.

Lemma outcome_config ts w :
  seq_run ts = Some w -> w = seq_worker cfg (locals_of w) (ts_snap (wk_ts w)) (wk_offset_ns w).
Proof. intros ([s Hs] & _)%run_spec. destruct w as [t o e a b]. cbn in *. by subst t. Qed.

Lemma seq_run_snoc ts e :
  seq_run (ts ++ [e]) = let* w := seq_run ts in TimeSync.worker_turn json_loads e w.
Proof.
  generalize (worker_init cfg clock0 tz_env) as w. induction ts as [|e0 ts IH]; intros w; cbn [app worker_run].
  - by destruct (TimeSync.worker_turn json_loads e w).
  - destruct (TimeSync.worker_turn json_loads e0 w); [apply IH|done].
Qed.

Lemma step_refines c s s' :
  threads_ok s -> refines s -> step json_loads cfg c s = Some s' -> refines s'.
Proof.
  intros (sg & jn & hw & hc & Hw & Hc & Hx & Ho) Hr H. destruct s as [m w cl ts got]. cbn in *. destruct c; cbn [step] in H.
  - apply step_worker_rule in H as (m' & w' & Hrule & ->). cbn in *. unfold refines in *. cbn in *.
    destruct Hrule as [k k' m' E|l|l k k' m' E|l d k Hm|l]; try done.
    + inversion Hw; subst. by erewrite exec_op.
    + cbn in Hr. destruct (seq_run ts) as [x|] eqn:Er; [|done]. cbn in Hr. injection Hr as H1 H2 H3. rewrite H1, H2, H3.
      by rewrite <- (outcome_config _ _ Er).
    + inversion Hw as [|? ? ? Hj Hk| |]; subst.
      by destruct (op_waits _ _ _ _ _ _ _ Hk Hx Ho E) as (_ & _ & -> & -> & _).
  - destruct w as [|l [[]| | | | | | | | | | | | |]| |]; try done. injection H as <-. unfold refines in *. cbn in *.
    by rewrite exec_turn, seq_run_snoc, Hr.
  - destruct w as [| |l k|]; try done. by injection H as <-.
  - destruct cl; try done. by injection H as <-.
  - destruct cl; try done. by injection H as <-.
  - apply step_caller_rule in H as (m' & w' & c' & got' & Hrule & ->). cbn in *.
    destruct (caller_rule_ok _ _ _ _ _ _ _ _ _ _ _ _ Hrule Hw Hc Hx Ho) as (Es & Ec & _).
    assert (w' = w \/ w' = awake w) as [-> | ->] by (destruct Hrule; auto);
      unfold refines in *; cbn in *; rewrite Es, Ec; [done|by destruct w].
Qed.

Lemma reached_refines s : ts_snap cfg = snapshot_zero -> reaches s -> refines s.
Proof.
  intros Hz. revert s. apply reaches_ind.
  - unfold refines. cbn. unfold seq_worker, worker_init. do 2 f_equal. by destruct cfg.
  - intros c s s' Hs Hr H. eapply step_refines; [by apply reached_ok|done..].
Qed.

(** ** What a reader sees *)

(** The snapshots a turn leaves in the handle, one after the other: the one it finds, the
    one that says the providers were reached, that of the zone's refresh and that of the
    time's. *)
Definition published (e : turn_env) (w : worker_t) : list time_snapshot_t :=
  let '(m1, m2, m3, m4) := te_mono e in
  let ts := wk_ts w in
  let now := hes_clock_now (clock_gettime (te_realtime e) (wk_offset_ns w)) in
  let zone := due (wk_next_tz w) m1 in
  let named := if zone then snd (@zone_name (te_curl e) json_loads (te_host e) (wk_tz_env w) ts) else ts in
  let zoned := if zone then fst (@TimeSync.refresh_zone (te_curl e) json_loads (te_host e) now ts (wk_tz_env w)) else ts in
  ts_snap <$> [ts; named; zoned] ++
    (if due (wk_next_ntp w) m3 then
       match TimeSync.refresh_time (te_getaddrinfo e) (te_time e) zoned (wk_offset_ns w) with
       | Some (timed, _) => [timed]
       | None => []
       end
     else []).

(** A snapshot some turn of the sequential worker publishes, or the initial one. *)
Definition visible (ts : list turn_env) (s : time_snapshot_t) : Prop :=
  s = ts_snap cfg \/
  exists before e after w, ts = before ++ e :: after /\ seq_run before = Some w /\ s ∈ published e w.

Lemma releases_zone_name e env s o x :
  x ∈ releases (zone_name_code json_loads cfg e env) s o ->
  x = ts_snap (snd (@zone_name (te_curl e) json_loads (te_host e) env (ts_with_snap s cfg))).
Proof.
  unfold zone_name_code, zone_name. cbn [ts_with_snap ts_forced_tz ts_tz_enabled ts_tz_urls ts_timeout_ms ts_snap].
  destruct (ts_forced_tz cfg); [|by intros ?%elem_of_nil].
  destruct (if ts_tz_enabled cfg then _ else _); cbn [releases]; by intros ->%list_elem_of_singleton.
Qed.

Lemma releases_refresh_zone e env s o x :
  x ∈ releases (refresh_zone json_loads cfg e env) s o ->
  let ts := ts_with_snap s cfg in
  x = ts_snap (snd (@zone_name (te_curl e) json_loads (te_host e) env ts)) \/
  x = ts_snap (fst (@TimeSync.refresh_zone (te_curl e) json_loads (te_host e)
        (hes_clock_now (clock_gettime (te_realtime e) o)) ts env)).
Proof.
  unfold refresh_zone. rewrite releases_bind, elem_of_app. cbv zeta. intros [H|H].
  { left. by eapply releases_zone_name. }
  right. unfold TimeSync.refresh_zone. rewrite exec_zone_name in H.
  destruct (@zone_name _ _ _ _ _) as [[name|] ts]; [|by apply elem_of_nil in H]. cbn [releases] in H.
  destruct (geo_tz_offsets _ _ env name) as [[[std dst]|] env']; [|by apply elem_of_nil in H]. cbn [releases] in H.
  by apply list_elem_of_singleton in H as ->.
Qed.

Lemma releases_refresh_time e s o x :
  x ∈ releases (refresh_time cfg e) s o ->
  exists ts o', TimeSync.refresh_time (te_getaddrinfo e) (te_time e) (ts_with_snap s cfg) o = Some (ts, o') /\ x = ts_snap ts.
Proof.
  unfold refresh_time, TimeSync.refresh_time. cbn [ts_with_snap ts_timeout_ms ts_servers].
  destruct (first_answer _ _ _) as [[r|]|]; cbn [defined releases]; try by intros ?%elem_of_nil.
  intros ->%list_elem_of_singleton. by do 2 eexists.
Qed.

Lemma releases_turn e l s o x :
  x ∈ releases (worker_turn json_loads cfg e l) s o -> x ∈ published e (seq_worker cfg l s o).
Proof.
  unfold worker_turn, zone_turn, published. destruct (te_mono e) as [[[m1 m2] m3] m4] eqn:Em.
  cbn [seq_worker wk_ts wk_offset_ns wk_tz_env wk_next_ntp wk_next_tz].
  assert (Ht : forall l' ts', lc_next_ntp l' = lc_next_ntp l -> same_config cfg ts' ->
    x ∈ releases (time_turn cfg e l') (ts_snap ts') o ->
    x ∈ ts_snap <$> (if due (lc_next_ntp l) m3
       then match TimeSync.refresh_time (te_getaddrinfo e) (te_time e) ts' o with
            | Some (timed, _) => [timed] | None => [] end else [])).
  { intros l' ts' Hn [s' ->]. unfold time_turn. rewrite Em, Hn.
    destruct (due (lc_next_ntp l) m3); [|by intros ?%elem_of_nil]. rewrite releases_bind, elem_of_app.
    intros [(ts & o' & Hr & ->)%releases_refresh_time|H].
    - cbn [ts_with_snap ts_snap] in Hr. rewrite Hr. by left.
    - exfalso. destruct (exec (refresh_time cfg e) _ o) as [[[[] s2] o2]|]; [|by apply elem_of_nil in H].
      revert H. by destruct (let* _ := _ in _); intros ?%elem_of_nil. }
  rewrite releases_bind, !fmap_app, !elem_of_app. cbn [fmap list_fmap].
  destruct (due (lc_next_tz l) m1).
  - intros [H|H].
    + left. rewrite releases_bind, elem_of_app in H. destruct H as [[-> | ->]%releases_refresh_zone|H].
      * right. left.
      * right. right. left.
      * exfalso. destruct (exec (refresh_zone _ _ e _) s o) as [[[env' s2] o2]|]; [|by apply elem_of_nil in H].
        revert H. by destruct (if ts_tz_enabled cfg then _ else _); intros ?%elem_of_nil.
    + right. rewrite exec_bind, exec_refresh_zone in H.
      destruct (@TimeSync.refresh_zone _ _ _ _ _ _) as [ts' env'] eqn:E.
      destruct (@refresh_zone_ok _ _ _ _ _ _ _ _ 0 0 E) as ([s1 ->] & _).
      destruct (if ts_tz_enabled cfg then _ else _) as [next|]; [|by apply elem_of_nil in H].
      cbn [defined exec] in H. eapply Ht; [|by eexists|exact H]. done.
  - intros [H|H]; [by apply elem_of_nil in H|]. right. cbn [exec] in H.
    by eapply (Ht l (ts_with_snap s cfg)); [|eexists|].
Qed.

Lemma op_releases {A} h hc (c : code A) m c' m' :
  disciplined h c -> me_owner m = owner_of h hc -> op Worker c m = Some (c', m') ->
  releases c' (me_snap m') (me_clock m') ⊆ releases c (me_snap m) (me_clock m) /\
  (me_owner m' <> Some Worker ->
   (me_owner m <> Some Worker /\ me_snap m' = me_snap m) \/ me_snap m' ∈ releases c (me_snap m) (me_clock m)).
Proof.
  intros Hd Ho H. destruct c; cbn in *; try done.
  - destruct (me_owner m); [done|]. by injection H as <- <-.
  - destruct (me_owner m) as [[]|]; try done. injection H as <- <-. cbn. split; [intros x Hx; by right|]. right. left.
  - injection H as <- <-. split; [done|]. intros; by left.
  - injection H as <- <-. split; [done|]. destruct Hd as [-> _]. by rewrite Ho.
  - injection H as <- <-. split; [done|]. intros; by left.
  - injection H as <- <-. split; [done|]. intros; by left.
Qed.

(** What the caller has read, with the call under way. *)
Definition reads (s : system) : list time_snapshot_t :=
  sy_got s ++ match sy_caller s with Getting (unlock (ret x)) | Getting (ret x) => [x] | _ => [] end.

Definition views (s : system) : Prop :=
  let m := sy_mem s in
  match sy_worker s with
  | Turning c =>
      (forall x, x ∈ releases c (me_snap m) (me_clock m) -> visible (sy_turns s) x) /\
      (me_owner m <> Some Worker -> visible (sy_turns s) (me_snap m))
  | _ => visible (sy_turns s) (me_snap m)
  end /\
  Forall (fun x => visible (sy_turns s) x /\ grows x (me_snap m)) (reads s) /\
  StronglySorted grows (reads s).

Lemma visible_snoc ts e x : visible ts x -> visible (ts ++ [e]) x.
Proof.
  intros [->|(b & e0 & a & w & -> & Hw & Hx)]; [by left|]. right. exists b, e0, (a ++ [e]), w.
  by rewrite <- app_assoc.
Qed.

Lemma views_grow ts (l : list time_snapshot_t) a b :
  grows a b -> Forall (fun x => visible ts x /\ grows x a) l -> Forall (fun x => visible ts x /\ grows x b) l.
Proof. intros Hg H. eapply Forall_impl; [exact H|]. intros x [Hv Hx]. split; [done|by transitivity a]. Qed.

Lemma worker_views m w m' w' ts sg jn hw hc cl got :
  worker_rule m w m' w' -> worker_at (me_stop m) sg jn w hw -> caller_at (me_stop m) sg jn (me_live m) cl hc ->
  (hw && hc)%bool = false -> me_owner m = owner_of hw hc -> refines (mk_system m w cl ts got) ->
  views (mk_system m w cl ts got) -> views (mk_system m' w' cl ts got).
Proof.
  intros Hr Hw Hc Hx Ho Href (Hv & Hf & Hs).
  destruct (worker_rule_ok _ _ _ _ _ _ _ _ _ Hr Hw Hc Hx Ho) as (_ & _ & Hg & _).
  split_and!; [|by eapply views_grow|done]. clear Hf Hs. cbn in *.
  destruct Hr as [k k' m' E|l|l k k' m' E|l d k Hm|l]; try done.
  - destruct Hv as [Hrel Hsn]. inversion Hw as [? ? Hj Hd| | |]; subst.
    destruct (op_releases _ _ _ _ _ _ Hd Ho E) as [Hin Hown]. split; [intros x Hk; by apply Hrel, Hin|].
    intros [[H ->]|H]%Hown; auto.
  - destruct Hv as [_ Hsn]. apply Hsn. inversion Hw as [? ? ? Hd| | |]; subst. cbn in Hd. subst hw. rewrite Ho. by destruct hc.
  - inversion Hw as [|? ? ? Hj Hk| |]; subst. by destruct (op_waits _ _ _ _ _ _ _ Hk Hx Ho E) as (_ & _ & -> & _).
Qed.

(** A step of the caller adds to its reads what its load finds. *)
Lemma caller_reads m w cl ts got m' w' cl' got' :
  caller_rule m w got cl m' w' cl' got' ->
  forall sg jn hc, caller_at (me_stop m) sg jn (me_live m) cl hc ->
  reads (mk_system m' w' cl' ts got') = reads (mk_system m w cl ts got) \/
  (exists k, cl = Getting (load_snap k)) /\ reads (mk_system m' w' cl' ts got') = reads (mk_system m w cl ts got) ++ [me_snap m].
Proof.
  intros Hr sg jn hc Hc. unfold reads. cbn. destruct Hr as [k k' m' E|x|k k' m' E|u|k|l k ->]; try by left.
  - inversion Hc as [|? ? Hg| | | | | | | |]; subst. destruct Hg; cbn in E.
    + destruct (me_owner m); [done|]. injection E as <- <-. by left.
    + injection E as <- <-. right. split; [by eexists|]. by rewrite app_nil_r.
    + destruct (me_owner m) as [[]|]; try done. injection E as <- <-. by left.
    + done.
  - left. by rewrite app_nil_r.
Qed.

Lemma caller_views m w cl ts got m' w' cl' got' sg jn hw hc :
  caller_rule m w got cl m' w' cl' got' ->
  worker_at (me_stop m) sg jn w hw -> caller_at (me_stop m) sg jn (me_live m) cl hc ->
  (hw && hc)%bool = false -> me_owner m = owner_of hw hc ->
  views (mk_system m w cl ts got) -> views (mk_system m' w' cl' ts got').
Proof.
  intros Hr Hw Hc Hx Ho (Hv & Hf & Hs).
  destruct (caller_rule_ok _ _ _ _ _ _ _ _ _ _ _ _ Hr Hw Hc Hx Ho) as (Es & Ec & _ & sg' & jn' & hc' & _ & _ & Hx' & Ho').
  assert (Hvis : me_owner m <> Some Worker \/ me_owner m' = me_owner m).
  { destruct hw; [right|left]; [|by rewrite Ho; destruct hc]. destruct hc, hc'; try done. by rewrite Ho, Ho'. }
  unfold views. cbn [sy_mem sy_worker sy_turns]. rewrite Es, Ec. split.
  { cbn in Hv. destruct Hr; try done; destruct w; try done; cbn; destruct Hv as [H1 H2]; split; try done;
      intros; apply H2; destruct Hvis; congruence. }
  destruct (caller_reads _ _ _ ts _ _ _ _ _ Hr _ _ _ Hc) as [-> |[[k ->] ->]]; [done|].
  assert (Hsn : visible ts (me_snap m)).
  { inversion Hc as [|? ? Hg| | | | | | | |]; subst. inversion Hg; subst. destruct hw; [done|].
    cbn in Hv. destruct w; try done. apply Hv. by rewrite Ho. }
  split; [by apply Forall_app; split; [|constructor]|].
  apply StronglySorted_app_2; [|done|repeat constructor].
  intros x y Hin ->%list_elem_of_singleton. rewrite Forall_forall in Hf. by apply Hf.
Qed.

Lemma step_views c s s' :
  threads_ok s -> refines s -> views s -> step json_loads cfg c s = Some s' -> views s'.
Proof.
  intros (sg & jn & hw & hc & Hw & Hc & Hx & Ho) Hr Hv H. destruct s as [m w cl ts got]. cbn in *. destruct c; cbn [step] in H.
  - apply step_worker_rule in H as (m' & w' & Hrule & ->). by eapply worker_views.
  - destruct w as [|l [[]| | | | | | | | | | | | |]| |]; try done. injection H as <-. unfold refines in Hr. cbn in Hr.
    destruct Hv as (Hsn & Hf & Hs). cbn in Hsn. split_and!; [cbn; split| |done].
    + intros x Hin%releases_turn. right. exists ts, e, [], (seq_worker cfg l (me_snap m) (me_clock m)). by rewrite Hr.
    + intros _. by apply visible_snoc.
    + eapply Forall_impl; [exact Hf|]. intros x [Hvx Hg]. by split; [apply visible_snoc|].
  - destruct w as [| |l k|]; try done. by injection H as <-.
  - destruct cl; try done. by injection H as <-.
  - destruct cl; try done. by injection H as <-.
  - apply step_caller_rule in H as (m' & w' & c' & got' & Hrule & ->). by eapply caller_views.
Qed.

Lemma reached_views s : ts_snap cfg = snapshot_zero -> reaches s -> views s.
Proof.
  intros Hz. revert s. apply reaches_ind.
  - split_and!; [by left|constructor|constructor].
  - intros c s s' Hs Hv H. eapply step_views; [by apply reached_ok|by apply reached_refines|done..].
Qed.

(** ** A stop ends *)

(** A step of the worker once the stop flag is set. *)
Inductive winds_down : worker_thread -> worker_thread -> Prop :=
| winds_rule m w m' w' : me_stop m = true -> worker_rule m w m' w' -> winds_down w' w
| winds_begin e l : winds_down (Turning (worker_turn json_loads cfg e l)) (Waiting l (ret false))
| winds_wake l k : winds_down (Waiting l (lock k)) (Asleep l k).

Lemma winds_waiting l k w : winds_down w (Waiting l k) ->
  (exists m k' m', me_stop m = true /\ op Worker k m = Some (k', m') /\ w = Waiting l k') \/
  (exists d k', k = timedwait d k' /\ w = Asleep l k') \/
  (k = ret true /\ w = Exited l) \/
  (k = ret false /\ exists e, w = Turning (worker_turn json_loads cfg e l)).
Proof.
  intros H. inversion H as [m ? m' ? Hst Hr| |]; subst.
  - inversion Hr; subst; eauto 12.
  - eauto 12.
Qed.

Lemma exited_ends l : Acc winds_down (Exited l).
Proof. constructor. intros w H. inversion H as [? ? ? ? Hst Hr| |]; subst. inversion Hr. Qed.

(** Acc of [Waiting l k] when [k] is neither a sleep nor a result: that of what follows. *)
Lemma waiting_ends l k :
  match k with ret _ | timedwait _ _ => False | _ => True end ->
  (forall m k' m', me_stop m = true -> op Worker k m = Some (k', m') -> Acc winds_down (Waiting l k')) ->
  Acc winds_down (Waiting l k).
Proof.
  intros Hk H. constructor. intros w Hw. apply winds_waiting in Hw as [(m & k' & m' & Hst & E & ->)|[(?&?&->&_)|[[-> _]|[-> _]]]]; eauto; destruct Hk.
Qed.

Lemma unlocks_end l k : Acc winds_down (Waiting l k) -> Acc winds_down (Waiting l (unlock k)).
Proof. intros H. apply waiting_ends; [done|]. intros m k' m' _ E. cbn in E. destruct (me_owner m) as [[]|]; simplify_eq; auto. Qed.

Lemma locks_end l k : Acc winds_down (Waiting l k) -> Acc winds_down (Waiting l (lock k)).
Proof. intros H. apply waiting_ends; [done|]. intros m k' m' _ E. cbn in E. destruct (me_owner m) as [[]|]; simplify_eq; auto. Qed.

Lemma load_ends l k : Acc winds_down (Waiting l (k true)) -> Acc winds_down (Waiting l (load_stop k)).
Proof. intros H. apply waiting_ends; [done|]. intros m k' m' Hst E. cbn in E. rewrite Hst in E. simplify_eq. auto. Qed.

Lemma true_ends l : Acc winds_down (Waiting l (ret true)).
Proof.
  constructor. intros w Hw. apply winds_waiting in Hw as [(?&?&?&_&?&_)|[(?&?&?&_)|[[_ ->]|[? _]]]]; try discriminate.
  apply exited_ends.
Qed.

Lemma rest_ends l : Acc winds_down (Waiting l wait_rest).
Proof. apply load_ends, unlocks_end, true_ends. Qed.

Lemma wait_turn_ends l : Acc winds_down (Waiting l (wait_turn l)).
Proof. apply locks_end, load_ends, rest_ends. Qed.

Lemma turning_ends c : Acc winds_down (Turning c).
Proof.
  assert (H : forall k, (forall m k' m', op Worker k m = Some (k', m') -> Acc winds_down (Turning k')) -> Acc winds_down (Turning k)).
  { intros k Hk. constructor. intros w Hw. inversion Hw as [m ? m' ? Hst Hr| |]; subst.
    inversion Hr; subst; [by eauto|apply wait_turn_ends]. }
  induction c; apply H; intros m k' m' E; cbn in E; try discriminate; try (simplify_eq; auto; fail).
  - destruct (me_owner m); simplify_eq; auto.
  - destruct (me_owner m) as [[]|]; simplify_eq; auto.
Qed.

Lemma worker_ends stop sg jn w h : worker_at stop sg jn w h -> (stop = true -> Acc winds_down w).
Proof.
  intros Hw ->. destruct Hw as [h c _ _|h l c _ Hk|l _ _|l _].
  - apply turning_ends.
  - assert (Hret : forall b, Acc winds_down (Waiting l (ret b))).
    { intros [|]; [apply true_ends|]. constructor. intros w Hw.
      apply winds_waiting in Hw as [(?&?&?&_&?&_)|[(?&?&?&_)|[[? _]|(_&e&->)]]]; try discriminate. apply turning_ends. }
    destruct Hk; try discriminate; eauto using wait_turn_ends, locks_end, rest_ends, unlocks_end. apply load_ends, rest_ends.
  - constructor. intros w Hw. inversion Hw as [? ? ? ? _ Hr| |]; subst; [inversion Hr|apply locks_end, rest_ends].
  - apply exited_ends.
Qed.

(** The steps the caller has left. *)
Fixpoint steps_left {A} (c : code A) : nat :=
  match c with
  | lock k | unlock k | store_stop _ k | signal k | join k | destroy k => S (steps_left k)
  | _ => O
  end.

Definition caller_left (c : caller_thread) : nat :=
  match c with Stopping c => S (steps_left c) | _ => O end.

Definition follows (s' s : system) : Prop := exists c, step json_loads cfg c s = Some s'.

(** Once the flag is set, no schedule goes on for ever. *)
Lemma stopping_ends s : threads_ok s -> me_stop (sy_mem s) = true -> Acc follows s.
Proof.
  remember (caller_left (sy_caller s)) as n eqn:En. revert s En.
  induction n as [n IHn] using lt_wf_ind. intros s En Hok Hst.
  assert (Hacc : Acc winds_down (sy_worker s)).
  { destruct Hok as (sg & jn & hw & hc & Hw & _). by eapply worker_ends. }
  remember (sy_worker s) as w eqn:Ew. revert s En Hok Hst Ew. induction Hacc as [w _ IHw]. intros s En Hok Hst ->.
  constructor. intros s' [c H]. pose proof (step_ok c s s' H Hok) as Hok'.
  destruct Hok as (sg & jn & hw & hc & Hw & Hc & Hx & Ho). destruct c; cbn [step] in H.
  - apply step_worker_rule in H as (m & w & Hr & ->).
    destruct (worker_rule_ok _ _ _ _ _ _ _ _ _ Hr Hw Hc Hx Ho) as (Es & _). apply (IHw w); [by econstructor|done|done|cbn; congruence|done].
  - destruct (sy_worker s) as [|l [[]| | | | | | | | | | | | |]| |] eqn:Ew; try discriminate. injection H as <-.
    eapply IHw; [constructor|done..].
  - destruct (sy_worker s) as [| |l k|] eqn:Ew; try discriminate. injection H as <-. eapply IHw; [constructor|done..].
  - destruct (sy_caller s) eqn:Ec; try discriminate. inversion Hc; congruence.
  - destruct (sy_caller s) eqn:Ec; try discriminate. inversion Hc; congruence.
  - apply step_caller_rule in H as (m & w & c & got & Hr & ->).
    destruct (caller_rule_ok _ _ _ _ _ _ _ _ _ _ _ _ Hr Hw Hc Hx Ho) as (_ & _ & Hst' & _).
    eapply IHn; [|done|done|by apply Hst']. subst n. rewrite Hst in Hc. cbn.
    destruct Hr as [k k' m' E|x|k k' m' E|u|k|l k Hk]; inversion Hc; subst; cbn in E || idtac; cbn; try lia; try congruence.
    + destruct (me_owner (sy_mem s)) as [[]|]; simplify_eq; cbn; lia.
    + simplify_eq. cbn. lia.
Qed.

(** ** A stop gets on *)

Lemma run_app cs1 cs2 s : run json_loads cfg (cs1 ++ cs2) s = let* s' := run json_loads cfg cs1 s in run json_loads cfg cs2 s'.
Proof. revert s. induction cs1 as [|c cs1 IH]; intros s; cbn [run app]; [done|]. by destruct (step json_loads cfg c s). Qed.

Lemma run_reaches cs s s' : reaches s -> run json_loads cfg cs s = Some s' -> reaches s'.
Proof. intros [cs0 H0] H. exists (cs0 ++ cs). by rewrite run_app, H0. Qed.

(** The choices that need no timer; [e] is what a turn that begins would meet. *)
Definition prompt (e : turn_env) : list choice := [RunWorker; BeginTurn e; RunCaller].

(** A worker that is not asleep can step unless it waits for the lock. *)
Lemma worker_goes e s stop sg jn hw hc :
  worker_at stop sg jn (sy_worker s) hw -> me_owner (sy_mem s) = owner_of hw hc ->
  (forall l, sy_worker s <> Exited l) -> (forall l k, sy_worker s <> Asleep l k) -> sy_worker s <> Turning undefined ->
  (worker_does (@asks_lock) (sy_worker s) = true -> hc = false) ->
  exists c s', c ∈ prompt e /\ step json_loads cfg c s = Some s'.
Proof.
  intros Hw Ho Hne Hna Hnu Hl. destruct s as [m w cl ts got]. cbn in *.
  assert (Hgo : forall s', step_worker (mk_system m w cl ts got) = Some s' ->
    exists c s', c ∈ prompt e /\ step json_loads cfg c (mk_system m w cl ts got) = Some s').
  { intros s' H. exists RunWorker, s'. split; [left|done]. }
  destruct Hw as [h c _ Hk|h l c _ Hk|l _ _|l _]; [| |by destruct (Hna l wait_rest)|by destruct (Hne l)].
  - destruct c; cbn in Hk; try done; unfold step_worker in Hgo; cbn in Hgo; try (by eapply Hgo).
    + rewrite Hl in Ho by done. destruct Hk as [-> _]. rewrite Ho in Hgo. by eapply Hgo.
    + destruct Hk as [-> _]. rewrite Ho in Hgo. by eapply Hgo.
  - destruct Hk as [| | | | |b _|[] _]; unfold step_worker in Hgo; cbn in Hgo, Hl; try (by eapply Hgo);
      try (rewrite Ho, ?Hl in Hgo by done; by eapply Hgo).
    exists (BeginTurn e). eexists. split; [right; left|reflexivity].
Qed.

(** A worker that holds the lock releases it by itself. *)
Definition releases_from (m : mem) (w : worker_thread) (cl : caller_thread) (ts : list turn_env)
  (got : list time_snapshot_t) : Prop :=
  exists n s', run json_loads cfg (replicate n RunWorker) (mk_system m w cl ts got) = Some s' /\
    me_owner (sy_mem s') = None /\ me_stop (sy_mem s') = me_stop m /\ sy_caller s' = cl /\ sy_turns s' = ts.

Lemma releases_step m w m' w' cl ts got :
  worker_rule m w m' w' -> me_stop m' = me_stop m -> releases_from m' w' cl ts got -> releases_from m w cl ts got.
Proof.
  intros Hr Es (n & s' & H & Ho & Hst & Hrest). exists (S n), s'. split; [|by rewrite Hst, Es].
  cbn [replicate run step]. pose proof (proj2 (step_worker_rule (mk_system m w cl ts got) _)
    (ex_intro _ m' (ex_intro _ w' (conj Hr eq_refl)))) as Hs. by rewrite Hs.
Qed.

Lemma releases_now m w cl ts got : me_owner m = None -> releases_from m w cl ts got.
Proof. intros Ho. exists O. by eexists. Qed.

Lemma refresh_releases c m cl ts got :
  disciplined true c -> exec c (me_snap m) (me_clock m) <> None -> me_owner m = Some Worker ->
  releases_from m (Turning c) cl ts got.
Proof.
  revert m. induction c; intros m Hd He Ho; cbn in Hd, He; try done.
  - by destruct Hd.
  - eapply releases_step; [apply rule_refresh; cbn; by rewrite Ho|done|by apply releases_now].
  - destruct Hd as [_ Hd]. eapply releases_step; [by apply rule_refresh|done|by apply H].
  - destruct Hd as (_ & _ & Hd). eapply releases_step; [by apply rule_refresh|done|by apply IHc].
  - eapply releases_step; [by apply rule_refresh|done|by apply H].
  - eapply releases_step; [by apply rule_refresh|done|by apply IHc].
Qed.

Lemma waiting_releases l k m cl ts got :
  waits (me_stop m) l true k -> me_owner m = Some Worker -> releases_from m (Waiting l k) cl ts got.
Proof.
  intros Hk Ho.
  assert (Hu : forall b, releases_from m (Waiting l (unlock (ret b))) cl ts got).
  { intros b. eapply releases_step; [apply rule_wait; cbn; by rewrite Ho|done|by apply releases_now]. }
  assert (Hr : releases_from m (Waiting l wait_rest) cl ts got)
    by (eapply releases_step; [by apply rule_wait|done|apply Hu]).
  assert (Hs : releases_from m (Waiting l (timedwait (next_deadline l) wait_rest)) cl ts got)
    by (eapply releases_step; [by apply rule_sleep|done|by apply releases_now]).
  inversion Hk; subst; auto.
  eapply releases_step; [by apply rule_wait|done|]. by destruct (negb (me_stop m)).
Qed.
End reached.

(** ** The synchronisation with its threads *)

Definition snap_facts (s : time_snapshot_t) : Prop :=
  (sn_ntp_valid s = true -> result_ok (sn_offset_ns s) (sn_delay_ms s) (sn_stratum s)) /\
  (sn_tz_valid s = true -> zone_ok (sn_tz_name s)).

Lemma snap_ok_facts o0 o s : snap_ok o0 o s -> snap_facts s.
Proof. intros [H1 H2]. split; [|done]. intros Hv. rewrite Hv in H1. by destruct H1. Qed.

Section start.
Variable json_loads : string -> option json.
Variable config : time_sync_config_t.
Variable clock0 : Z.
Variable tz_env : option string.
Abbreviation cfg := (TimeSync.time_sync_start config).
Abbreviation seq_run ts := (TimeSync.worker_run json_loads ts (worker_init cfg clock0 tz_env)).

Lemma published_sound e w x :
  turn_ok e -> snap_ok clock0 (wk_offset_ns w) (ts_snap (wk_ts w)) -> x ∈ published json_loads e w -> snap_facts x.
Proof.
  intros He Hw. unfold published. destruct (te_mono e) as [[[m1 m2] m3] m4].
  destruct (@TimeSync.refresh_zone _ _ _ _ _ _) as [ts env] eqn:E. cbn [fst].
  destruct (@refresh_zone_ok _ _ _ _ _ _ _ _ clock0 (wk_offset_ns w) E) as (_ & _ & _ & Hz). specialize (Hz Hw).
  assert (Hzoned : snap_ok clock0 (wk_offset_ns w) (ts_snap (if due (wk_next_tz w) m1 then ts else wk_ts w)))
    by by destruct (due _ m1).
  rewrite fmap_app, elem_of_app. cbn [fmap list_fmap]. rewrite !elem_of_cons, elem_of_nil. intros [[->|[->|[->|[]]]]|Hin].
  - by eapply snap_ok_facts.
  - destruct (due _ m1); [|by eapply snap_ok_facts]. unfold zone_name.
    destruct (ts_forced_tz _); [|by eapply snap_ok_facts].
    destruct (if ts_tz_enabled _ then _ else _); by apply (snap_ok_facts _ _ _ Hw).
  - by eapply snap_ok_facts.
  - destruct (due _ m3); [|by apply elem_of_nil in Hin]. unfold TimeSync.refresh_time in Hin.
    destruct (first_answer _ _ _) as [[r|]|] eqn:Ea; cbn [fmap list_fmap] in Hin; apply list_elem_of_singleton in Hin || by apply elem_of_nil in Hin.
    + subst x. apply first_answer_ok in Ea; [|done]. apply snap_ok_facts in Hzoned as [_ Hzf]. by split.
    + subst x. by eapply snap_ok_facts.
Qed.

(** C31: under any schedule of the two threads, whatever the network and the host answer: whenever
    the worker is not inside a turn (before it, asleep, or ended) the handle and the clock are what
    the sequential worker of TimeSync.v leaves after the turns begun; a snapshot a caller gets, also
    in the middle of a turn, is the initial one or one that a turn of that worker publishes whole,
    its synchronisation the result of one accepted reply and its zone a zone name with offsets looked
    up for it; and a later snapshot never takes back a synchronisation or a zone an earlier one had,
    nor the [reachable] flag, which the code only ever sets (time_sync.h announces it as being about
    the last attempt: a divergence of that comment, [TimeSyncFacts.reachable_is_never_reset]). *)
Theorem readers_see_whole_snapshots s :
  reaches json_loads cfg clock0 tz_env s -> Forall turn_ok (sy_turns s) ->
  match sy_worker s with
  | Turning _ => True
  | Waiting l _ | Asleep l _ | Exited l =>
      seq_run (sy_turns s) = Some (seq_worker cfg l (me_snap (sy_mem s)) (me_clock (sy_mem s)))
  end /\
  Forall (fun x => snap_facts x /\
    (x = snapshot_zero \/ exists before e after w,
       sy_turns s = before ++ e :: after /\ seq_run before = Some w /\ x ∈ published json_loads e w)) (sy_got s) /\
  StronglySorted grows (sy_got s).
Proof.
  intros Hs Hok. pose proof (reached_refines json_loads cfg clock0 tz_env s eq_refl Hs) as Hr.
  destruct (reached_views json_loads cfg clock0 tz_env s eq_refl Hs) as (_ & Hf & Hst).
  split; [by unfold refines in Hr; destruct (sy_worker s)|].
  apply StronglySorted_app_1_l in Hst. split; [|done]. apply Forall_app in Hf as [Hf _].
  eapply Forall_impl; [exact Hf|]. intros x [Hx _]. split; [|exact Hx]. destruct Hx as [->|(b & e & a & w & Ht & Hw & Hx)].
  - split; discriminate.
  - rewrite Ht in Hok. apply Forall_app in Hok as [Hb [He _]%Forall_cons].
    eapply published_sound; [done| |done]. by eapply run_snap_ok.
Qed.
(** ** Every stop returns *)

Variable now : Z.

Definition env_ok (e : turn_env) : Prop := turn_ok e /\ clocks_ok now e.

Lemma seq_run_defined es : config_ok config -> now <= 2 ^ 50 -> Forall env_ok es -> exists w, seq_run es = Some w.
Proof.
  intros Hk Hnow. pose proof (configured_init config clock0 tz_env) as Hc. revert Hc.
  generalize (worker_init cfg clock0 tz_env) as w.
  induction es as [|e es IH]; intros w Hc; cbn [TimeSync.worker_run]; [by exists w|]. intros [[He Hcl] Hes]%Forall_cons.
  destruct (turn_defined json_loads config e w now Hk Hc He Hcl Hnow) as (w1 & E & _). rewrite E.
  apply IH; [by eapply configured_turn|done].
Qed.

Lemma refresh_defined s c :
  config_ok config -> now <= 2 ^ 50 -> reaches json_loads cfg clock0 tz_env s -> Forall env_ok (sy_turns s) ->
  sy_worker s = Turning c -> exec c (me_snap (sy_mem s)) (me_clock (sy_mem s)) <> None.
Proof.
  intros Hk Hnow Hs He Hw. pose proof (reached_refines json_loads cfg clock0 tz_env s eq_refl Hs) as Hr.
  unfold refines in Hr. rewrite Hw in Hr. rewrite Hr.
  by destruct (seq_run_defined _ Hk Hnow He) as [w ->].
Qed.

Definition stopped (s : system) : Prop :=
  sy_caller s = Gone /\ (exists l, sy_worker s = Exited l) /\ me_live (sy_mem s) = false /\ me_owner (sy_mem s) = None.

(** Some schedule in which no timer fires ends the stop. *)
Definition can_finish (s : system) : Prop :=
  exists cs s', run json_loads cfg cs s = Some s' /\ (WakeUp ∉ cs) /\ stopped s'.

(** While a stop is under way some thread can step, and no timer is needed. *)
Lemma stop_progress e s k :
  config_ok config -> now <= 2 ^ 50 -> reaches json_loads cfg clock0 tz_env s -> Forall env_ok (sy_turns s) ->
  sy_caller s = Stopping k -> exists c s', c ∈ prompt e /\ step json_loads cfg c s = Some s'.
Proof.
  intros Hk Hnow Hs He Hcl.
  destruct (reached_ok json_loads cfg clock0 tz_env s Hs) as (sg & jn & hw & hc & Hw & Hc & Hx & Ho).
  assert (Hnu : sy_worker s <> Turning undefined).
  { intros Hu. by apply (refresh_defined s undefined Hk Hnow Hs He Hu). }
  assert (Hcaller : forall s', step_caller s = Some s' -> exists c s', c ∈ prompt e /\ step json_loads cfg c s = Some s').
  { intros s' H. exists RunCaller, s'. split; [right; right; left|done]. }
  unfold step_caller in Hcaller. rewrite Hcl in Hcaller, Hc.
  inversion Hc; subst; cbn in Hcaller; try (by eapply Hcaller).
  - destruct hw; rewrite Ho in Hcaller; [|by eapply Hcaller].
    eapply (worker_goes _ _ e s _ _ _ true false); try done; intros l; intros; intros Hl; rewrite Hl in Hw; inversion Hw.
  - destruct hw; [done|]. rewrite Ho in Hcaller. by eapply Hcaller.
  - destruct (sy_worker s) as [| | |l] eqn:Ew; [| | |by eapply Hcaller].
    + rewrite <- Ew in *. by eapply (worker_goes _ _ e s); try done; intros; rewrite Ew.
    + rewrite <- Ew in *. by eapply (worker_goes _ _ e s); try done; intros; rewrite Ew.
    + by inversion Hw.
Qed.

Lemma prepend c s s1 :
  c <> WakeUp -> step json_loads cfg c s = Some s1 ->
  can_finish s1 ->
  can_finish s.
Proof.
  intros Hc E (cs & s' & Hr & Hn & Hd). exists (c :: cs), s'. cbn [run]. rewrite E. split_and!; [done| |done].
  by intros [?|?]%elem_of_cons.
Qed.

Lemma stopped_from_flag e s :
  config_ok config -> now <= 2 ^ 50 -> env_ok e -> Acc (follows json_loads cfg) s ->
  reaches json_loads cfg clock0 tz_env s -> Forall env_ok (sy_turns s) -> me_stop (sy_mem s) = true ->
  can_finish s.
Proof.
  intros Hk Hnow Hee Hacc. induction Hacc as [s _ IH]. intros Hs He Hst.
  pose proof (reached_ok json_loads cfg clock0 tz_env s Hs) as Hok.
  destruct Hok as (sg & jn & hw & hc & Hw & Hc & Hx & Ho). rewrite Hst in Hc.
  destruct (sy_caller s) as [|k|k|] eqn:Ecl; try (by inversion Hc).
  - destruct (stop_progress e s k Hk Hnow Hs He Ecl) as (c & s1 & Hin & E).
    assert (Hs1 : reaches json_loads cfg clock0 tz_env s1).
    { apply (run_reaches _ _ _ _ [c] s s1 Hs). cbn [run]. by rewrite E. }
    assert (Hst1 : me_stop (sy_mem s1) = true /\ Forall env_ok (sy_turns s1)).
    { rewrite <- Hst in Hc. destruct s as [m w cl ts got]. cbn in *. subst cl. apply elem_of_cons in Hin as [->|Hin].
      - apply step_worker_rule in E as (m' & w' & Hr & ->). cbn in *.
        destruct (worker_rule_ok _ _ _ _ _ _ _ _ _ Hr Hw Hc Hx Ho) as (-> & _). done.
      - apply elem_of_cons in Hin as [->| ->%list_elem_of_singleton]; cbn [step] in E.
        + destruct w as [|l [[]| | | | | | | | | | | | |]| |]; try discriminate. cbn in E. injection E as <-. cbn.
          split; [done|]. apply Forall_app. by split; [|constructor].
        + apply step_caller_rule in E as (m' & w' & c' & got' & Hr & ->). cbn in *.
          destruct (caller_rule_ok _ _ _ _ _ _ _ _ _ _ _ _ Hr Hw Hc Hx Ho) as (_ & _ & Hm & _). auto. }
    eapply prepend; [|exact E|apply (IH s1); [by exists c|done|apply Hst1..]].
    intros ->. by repeat (apply elem_of_cons in Hin as [?|Hin]; [done|]); apply elem_of_nil in Hin.
  - exists [], s. split_and!; [done|by intros ?%elem_of_nil|]. inversion Hc; subst. inversion Hw; subst; try done.
    unfold stopped. rewrite Ecl. rewrite Ho. split_and!; eauto.
Qed.

(** C29: a call of [time_sync_stop] returns, with the worker ended and joined and the handle
    released, in whatever state the worker is: some thread can always step until then, and
    no timer need fire, so neither a deadlock nor a lost wake-up keeps the caller; it can be
    served from every state; and once it holds the lock and has set the flag, no schedule
    goes on for ever, however unfair. *)
Theorem stop_returns e s k :
  config_ok config -> now <= 2 ^ 50 -> env_ok e ->
  reaches json_loads cfg clock0 tz_env s -> Forall env_ok (sy_turns s) -> sy_caller s = Stopping k ->
  (exists c s', c ∈ prompt e /\ step json_loads cfg c s = Some s') /\
  can_finish s /\
  (me_stop (sy_mem s) = true -> Acc (follows json_loads cfg) s).
Proof.
  intros Hk Hnow Hee Hs He Hcl. pose proof (reached_ok json_loads cfg clock0 tz_env s Hs) as Hok.
  split; [by eapply stop_progress|]. split; [|intros Hst; by eapply stopping_ends].
  assert (Hflag : forall s, reaches json_loads cfg clock0 tz_env s -> Forall env_ok (sy_turns s) ->
    me_stop (sy_mem s) = true -> can_finish s).
  { intros s1 Hs1 He1 Hst1. apply (stopped_from_flag e); try assumption. eapply stopping_ends; [|done]. by eapply reached_ok. }
  assert (Hset : forall s k, reaches json_loads cfg clock0 tz_env s -> Forall env_ok (sy_turns s) ->
    sy_caller s = Stopping (store_stop true k) ->
    can_finish s).
  { intros s1 k1 Hs1 He1 Hc1. eapply (prepend RunCaller); [done|cbn [step]; unfold step_caller; by rewrite Hc1|].
    apply Hflag; [|done..]. eapply (run_reaches _ _ _ _ [RunCaller]); [done|]. cbn [run step]. unfold step_caller. by rewrite Hc1. }
  assert (Hfree : forall s, reaches json_loads cfg clock0 tz_env s -> Forall env_ok (sy_turns s) ->
    sy_caller s = Stopping time_sync_stop -> me_owner (sy_mem s) = None ->
    can_finish s).
  { intros s1 Hs1 He1 Hc1 Ho1. eapply (prepend RunCaller); [done|cbn [step]; unfold step_caller; rewrite Hc1; cbn; by rewrite Ho1|].
    eapply Hset; [|done..]. eapply (run_reaches _ _ _ _ [RunCaller]); [done|]. cbn [run step]. unfold step_caller.
    rewrite Hc1. cbn. by rewrite Ho1. }
  destruct Hok as (sg & jn & hw & hc & Hw & Hc & Hx & Ho).
  destruct (me_stop (sy_mem s)) eqn:Hst; [by apply Hflag|]. rewrite Hcl in Hc. inversion Hc; subst; [|by eapply Hset].
  destruct hw; [|by apply Hfree].
  assert (Hrel : releases_from json_loads cfg (sy_mem s) (sy_worker s) (sy_caller s) (sy_turns s) (sy_got s)).
  { destruct (sy_worker s) as [c|l c|l c|l] eqn:Ew; inversion Hw; subst.
    - apply refresh_releases; [done| |done]. by apply (refresh_defined s c).
    - apply waiting_releases; [by rewrite Hst|done]. }
  destruct Hrel as (n & s1 & Hrun & Ho1 & Hst1 & Hcl1 & Ht1). destruct s as [m w cl ts got]. cbn in *.
  destruct (Hfree s1) as (cs & s2 & Hrun2 & Hn & Hd); [by eapply run_reaches|by rewrite Ht1|congruence|done|].
  exists (replicate n RunWorker ++ cs), s2. split_and!; [by rewrite run_app, Hrun| |done].
  by intros [[? _]%elem_of_replicate|?]%elem_of_app.
Qed.
End start.

(** ** The statements at concrete inputs *)

Definition ex_sync : time_sync := TimeSync.time_sync_start ex_config.

Definition ex_run (cs : list choice) : option system := run (fun _ => None) ex_sync cs (started ex_sync 0 None).

Lemma ex_reaches cs s : ex_run cs = Some s -> reaches (fun _ => None) ex_sync 0 None s.
Proof. intros H. by exists cs. Qed.

(** The first turn, up to the fifth assignment of its answer. *)
Definition ex_midway : list choice := BeginTurn (ex_turn 0) :: replicate 17 RunWorker.

(** The first turn up to the worker's sleep, a read of the snapshot, and a stop under way:
    the flag is set, the signal not yet sent. *)
Definition ex_asleep : list choice :=
  BeginTurn (ex_turn 0) :: replicate 23 RunWorker ++ CallGet :: replicate 4 RunCaller.

Definition ex_stopping : list choice := ex_asleep ++ CallStop :: replicate 2 RunCaller.

Lemma ex_env_ok : Forall (env_ok 3600080) [ex_turn 0].
Proof.
  constructor; [|constructor]. split; [exact ex_network_ok|]. unfold clocks_ok, m1, m2, m3, m4. simpl. lia.
Qed.

Lemma lock_discipline_witness :
  exists s, ex_run ex_midway = Some s /\ me_owner (sy_mem s) = Some Worker /\ me_live (sy_mem s) = true.
Proof.
  destruct (ex_run ex_midway) as [s|] eqn:E; [|exfalso; vm_compute in E; discriminate].
  destruct (lock_discipline (fun _ => None) ex_sync 0 None s) as (H1 & _ & _ & _ & H2 & _).
  { exact (ex_reaches _ _ E). }
  exists s. split; [reflexivity|]. vm_compute in E. injection E as <-. split; [apply H1|apply H2]; reflexivity.
Defined.

Lemma readers_see_whole_snapshots_witness :
  exists s x, ex_run ex_asleep = Some s /\ sy_got s = [x] /\ snap_facts x /\ sn_offset_ns x = 4994999999 /\
    x ∈ published (fun _ => None) (ex_turn 0) (worker_init ex_sync 0 None).
Proof.
  destruct (ex_run ex_asleep) as [s|] eqn:E; [|exfalso; vm_compute in E; discriminate].
  destruct (readers_see_whole_snapshots (fun _ => None) ex_config 0 None s) as (_ & Hg & _).
  - exact (ex_reaches _ _ E).
  - assert (Ht : sy_turns s = [ex_turn 0]) by (vm_compute in E; injection E as <-; reflexivity). rewrite Ht.
    constructor; [exact ex_network_ok|constructor].
  - assert (Hs : sy_turns s = [ex_turn 0] /\ exists x, sy_got s = [x] /\ sn_offset_ns x = 4994999999)
      by (vm_compute in E; injection E as <-; split; [reflexivity|eexists; split; reflexivity]).
    destruct Hs as (Ht & x & Hx & Ho). rewrite Hx in Hg. apply Forall_cons in Hg as [[Hf Hp] _].
    exists s, x. split; [reflexivity|]. split; [exact Hx|]. split; [exact Hf|]. split; [exact Ho|].
    destruct Hp as [->|(b & e & a & w & Hl & Hw & Hin)]; [discriminate Ho|].
    rewrite Ht in Hl. destruct b as [|? [|]]; [|discriminate Hl|discriminate Hl]. injection Hl as <- _. cbn in Hw. injection Hw as <-.
    exact Hin.
Defined.

Lemma stop_returns_witness :
  exists s, ex_run ex_stopping = Some s /\ can_finish (fun _ => None) ex_config s /\
    Acc (follows (fun _ => None) ex_sync) s.
Proof.
  destruct (ex_run ex_stopping) as [s|] eqn:E; [|exfalso; vm_compute in E; discriminate].
  assert (Hs : sy_turns s = [ex_turn 0] /\ me_stop (sy_mem s) = true /\ exists k, sy_caller s = Stopping k)
    by (vm_compute in E; injection E as <-; split_and!; [reflexivity|reflexivity|eexists; reflexivity]).
  destruct Hs as (Ht & Hst & k & Hk).
  destruct (stop_returns (fun _ => None) ex_config 0 None 3600080 (ex_turn 0) s k) as (_ & Hf & Ha).
  - split; simpl; lia.
  - lia.
  - apply (Forall_inv ex_env_ok).
  - exact (ex_reaches _ _ E).
  - rewrite Ht. exact ex_env_ok.
  - exact Hk.
  - exists s. split; [reflexivity|]. split; [exact Hf|exact (Ha Hst)].
Defined.

(** The clock is corrected before the snapshot says so: between the two a reader is told of
    the old source while the time is already the new one. *)
Lemma clock_leads_snapshot :
  exists s, ex_run (BeginTurn (ex_turn 0) :: replicate 11 RunWorker ++ CallGet :: replicate 4 RunCaller) = Some s /\
    me_clock (sy_mem s) = 4994999999 /\ time_sync_source_code (me_snap (sy_mem s)) = "lx" /\
    sn_ntp_valid <$> sy_got s = [false].
Proof. eexists. split; [vm_compute; reflexivity|]. vm_compute. split_and!; reflexivity. Qed.
