(* ===== verification/Time.v ===== *)
(** * The time service

    Models src/src/services/time/time.c: the answers of the three functional objects,
    the event-reports of a tick, and the objects over their shared state. What the code
    reads of the clocks and of the synchronisation's snapshot is a [time_env]; the
    service draws one for each answer and for each tick. *)

From S2P Require Import Prelude CLib HesCommon GeoTz TimeSync.

Definition HES_LX_TIME_REALTIME_CV : string := "/lx/ob/so/ti/rt/st/cv".
Definition HES_LX_TIME_LOCALTZ_CV : string := "/lx/ob/so/ti/tz/st/cv".
Definition HES_LX_TIME_SOURCE_CV : string := "/lx/ob/so/ti/st/mp/cv".
Definition TIME_VERSION : string := "1.0.0".
Definition REALTIME_VALUE_SIZE : Z := 10.
Definition LOCALTZ_VALUE_SIZE : Z := 12.
Definition SOURCE_VALUE_SIZE : Z := 2.
Definition REALTIME_MAX_SECONDS : Z := 4294967295.
Definition REALTIME_EVENT_PERIOD_S : Z := 5.
Definition TIME_SERVICE_OBJECT_COUNT : nat := 3.
Definition TIME_OBJECT_REALTIME : nat := 0.

(** [snapshot]: whether a provider of snapshots is set. *)
Record time_state_t := mk_time_state {
  tm_refs : Z;
  tm_snapshot : bool;
  tm_last_event : Z;
  tm_have_tz : bool;
  tm_tz_name : string;
  tm_tz_std : Z;
  tm_tz_dst : Z;
  tm_have_source : bool;
  tm_source_is_ntp : bool;
}.

(** [sample_state] with what the provider says. *)
Definition sample_state (st : time_state_t) (provided : time_snapshot_t) : time_snapshot_t :=
  if tm_snapshot st then provided else snapshot_zero.

(** ** The answers *)

Definition reported_seconds (c : clock_reading) : Z :=
  let now := hes_clock_now c in
  let now := if now <? 0 then 0 else now in
  if REALTIME_MAX_SECONDS <? now then REALTIME_MAX_SECONDS else now.

(** [snprintf] into a payload buffer. *)
Definition payload_text (s : string) : string := str_take (HES_PAYLOAD_MAX - 1) s.

Definition build_realtime_payload (c : clock_reading) : string :=
  payload_text ("vr=" ++ TIME_VERSION ++ ";dt=ss;sz=" ++ fmt_d REALTIME_VALUE_SIZE ++
    ";ne=1;nr=0;um=se;sc=0;mp=me;ar=100;pr=100;rq=op;pt=tm;ac=in;cd=no;cp=0;df=0;mn=0;mx=" ++
    fmt_d REALTIME_MAX_SECONDS ++ ";vl=0;rl=0;va=" ++ fmt_d (reported_seconds c)).

Definition build_localtz_payload (st : time_state_t) (provided : time_snapshot_t) : string :=
  let snap := sample_state st provided in
  let std_min := if sn_tz_valid snap then sn_std_offset_min snap else 0 in
  let dst_min := if sn_tz_valid snap then sn_dst_offset_min snap else 0 in
  payload_text ("dt=ai,ai;sz=" ++ fmt_d LOCALTZ_VALUE_SIZE ++
    ";ne=2;nr=0;um=mi,mi;sc=0;mp=pr;ar=100;pr=100;rq=op;pt=tm;ac=in;cd=no;cp=0;df=0,0;mn=-1440,-1440;mx=1440,1440;vl=0;rl=0;va=" ++
    fmt_d std_min ++ "," ++ fmt_d dst_min).

Definition build_source_payload (st : time_state_t) (provided : time_snapshot_t) : string :=
  payload_text ("dt=sl;sz=" ++ fmt_d SOURCE_VALUE_SIZE ++
    ";ne=1;nr=0;sc=0;mp=pr;ar=100;pr=100;rq=op;pt=tm;ac=in;cd=no;cp=0;df=lx;vl=0;rl=0;va=" ++
    time_sync_source_code (sample_state st provided)).

(** ** The event-reports *)

Definition event_report (path payload : string) : hes_clme_msg_t :=
  hes_msg_set_payload_str
    (msg_with_query (hes_strlcpy HES_QUERY_MAX "va")
       (hes_msg_set_path (msg_with_verb HES_VERB_EVENT hes_msg_init) path)) payload.

Definition publish_event (bus : hes_bus_t) (path payload : string) : hes_bus_t :=
  hes_bus_send bus (event_report path payload).

(** What a turn of the module reads: [time(NULL)], the clock behind
    [hes_clock_now()], and the snapshot when it is first taken and when the zone's and
    the source's answers are built. *)
Record time_env := mk_time_env {
  tn_time : Z;
  tn_clock : clock_reading;
  tn_snap : time_snapshot_t;
  tn_snap_tz : time_snapshot_t;
  tn_snap_source : time_snapshot_t;
}.

Definition event_due (st : time_state_t) (now : Z) : bool :=
  ((tm_last_event st =? 0) || (REALTIME_EVENT_PERIOD_S <=? now - tm_last_event st))%bool.

Definition zone_changed (st : time_state_t) (snap : time_snapshot_t) : bool :=
  (sn_tz_valid snap &&
   (negb (tm_have_tz st) || negb (tm_tz_name st =?s sn_tz_name snap) ||
    negb (tm_tz_std st =? sn_std_offset_min snap) || negb (tm_tz_dst st =? sn_dst_offset_min snap)))%bool.

Definition source_changed (st : time_state_t) (snap : time_snapshot_t) : bool :=
  (negb (tm_have_source st) || negb (Bool.eqb (tm_source_is_ntp st) (sn_ntp_valid snap)))%bool.

Definition with_last_event (now : Z) (st : time_state_t) : time_state_t :=
  mk_time_state (tm_refs st) (tm_snapshot st) now (tm_have_tz st) (tm_tz_name st) (tm_tz_std st) (tm_tz_dst st)
    (tm_have_source st) (tm_source_is_ntp st).

Definition with_zone (snap : time_snapshot_t) (st : time_state_t) : time_state_t :=
  mk_time_state (tm_refs st) (tm_snapshot st) (tm_last_event st) true
    (hes_strlcpy GEO_TZ_NAME_MAX (sn_tz_name snap)) (sn_std_offset_min snap) (sn_dst_offset_min snap)
    (tm_have_source st) (tm_source_is_ntp st).

Definition with_source (snap : time_snapshot_t) (st : time_state_t) : time_state_t :=
  mk_time_state (tm_refs st) (tm_snapshot st) (tm_last_event st) (tm_have_tz st) (tm_tz_name st) (tm_tz_std st)
    (tm_tz_dst st) true (sn_ntp_valid snap).

Definition realtime_tick (e : time_env) (st : time_state_t) (bus : hes_bus_t) : time_state_t * hes_bus_t :=
  let '(st, bus) :=
    if event_due st (tn_time e)
    then (with_last_event (tn_time e) st,
          publish_event bus HES_LX_TIME_REALTIME_CV (build_realtime_payload (tn_clock e)))
    else (st, bus) in
  let snap := sample_state st (tn_snap e) in
  let '(st, bus) :=
    if zone_changed st snap
    then let st := with_zone snap st in
         (st, publish_event bus HES_LX_TIME_LOCALTZ_CV (build_localtz_payload st (tn_snap_tz e)))
    else (st, bus) in
  if source_changed st snap
  then let st := with_source snap st in
       (st, publish_event bus HES_LX_TIME_SOURCE_CV (build_source_payload st (tn_snap_source e)))
  else (st, bus).

(** ** The objects *)

(** The state and what the clocks and the synchronisation will say: [tv_env n] is what
    the n-th answer or tick reads. *)
Record time_service_t := mk_time_service {
  tv_state : time_state_t;
  tv_env : nat -> time_env;
  tv_reads : nat;
}.

Definition draw (t : time_service_t) : time_env * time_service_t :=
  (tv_env t (tv_reads t), mk_time_service (tv_state t) (tv_env t) (S (tv_reads t))).

Definition realtime_on_get (t : time_service_t) (out : hes_clme_msg_t) : time_service_t * hes_clme_msg_t :=
  let '(e, t) := draw t in (t, hes_msg_set_payload_str out (build_realtime_payload (tn_clock e))).

Definition localtz_on_get (t : time_service_t) (out : hes_clme_msg_t) : time_service_t * hes_clme_msg_t :=
  let '(e, t) := draw t in (t, hes_msg_set_payload_str out (build_localtz_payload (tv_state t) (tn_snap e))).

Definition source_on_get (t : time_service_t) (out : hes_clme_msg_t) : time_service_t * hes_clme_msg_t :=
  let '(e, t) := draw t in (t, hes_msg_set_payload_str out (build_source_payload (tv_state t) (tn_snap e))).

Definition time_on_put (t : time_service_t) (inm : hes_clme_msg_t) : time_service_t := t.

Definition time_tick (t : time_service_t) (bus : hes_bus_t) : time_service_t * hes_bus_t :=
  let '(e, t) := draw t in
  let '(st, bus) := realtime_tick e (tv_state t) bus in
  (mk_time_service st (tv_env t) (tv_reads t), bus).

(** The array [time_service_create] fills. *)
Definition time_service_objects : list (service_object_t time_service_t) :=
  [mk_so HES_LX_TIME_REALTIME_CV (Some realtime_on_get) (Some time_on_put) (Some time_tick);
   mk_so HES_LX_TIME_LOCALTZ_CV (Some localtz_on_get) (Some time_on_put) None;
   mk_so HES_LX_TIME_SOURCE_CV (Some source_on_get) (Some time_on_put) None].

(** [None] is the return value -1. *)
Definition time_service_create (snapshot : bool) (max_out : nat) : option time_state_t :=
  if (max_out <? TIME_SERVICE_OBJECT_COUNT)%nat then None
  else Some (mk_time_state (Z.of_nat (length time_service_objects)) snapshot 0 false "" 0 0 false false).

(** Releasing one of the objects; the last one frees the state. *)
Definition time_destroy (st : time_state_t) : option time_state_t :=
  let refs := tm_refs st - 1 in
  if 0 <? refs
  then Some (mk_time_state refs (tm_snapshot st) (tm_last_event st) (tm_have_tz st) (tm_tz_name st) (tm_tz_std st)
               (tm_tz_dst st) (tm_have_source st) (tm_source_is_ntp st))
  else None.
