(* ===== verification/TimeFacts.v ===== *)
(** * The time service: properties

    The three answers are tables of data; the binding map reads the clock out of the
    realTime reports exactly; what a tick reports; and that a subscriber who follows
    the reports knows the zone and the source the gateway is on. *)

From S2P Require Import Prelude CLib HesCommon Bm BmLoad GeoTz TimeSync Time.

(** ** The answers are tables *)

Definition realtime_table (seconds : Z) : list (string * string) :=
  [("vr", "1.0.0"); ("dt", "ss"); ("sz", "10"); ("ne", "1"); ("nr", "0"); ("um", "se"); ("sc", "0"); ("mp", "me");
   ("ar", "100"); ("pr", "100"); ("rq", "op"); ("pt", "tm"); ("ac", "in"); ("cd", "no"); ("cp", "0"); ("df", "0");
   ("mn", "0"); ("mx", "4294967295"); ("vl", "0"); ("rl", "0"); ("va", fmt_d seconds)].

Definition localtz_table (std dst : Z) : list (string * string) :=
  [("dt", "ai,ai"); ("sz", "12"); ("ne", "2"); ("nr", "0"); ("um", "mi,mi"); ("sc", "0"); ("mp", "pr"); ("ar", "100");
   ("pr", "100"); ("rq", "op"); ("pt", "tm"); ("ac", "in"); ("cd", "no"); ("cp", "0"); ("df", "0,0");
   ("mn", "-1440,-1440"); ("mx", "1440,1440"); ("vl", "0"); ("rl", "0"); ("va", (fmt_d std ++ "," ++ fmt_d dst)%string)].

Definition source_table (code : string) : list (string * string) :=
  [("dt", "sl"); ("sz", "2"); ("ne", "1"); ("nr", "0"); ("sc", "0"); ("mp", "pr"); ("ar", "100"); ("pr", "100");
   ("rq", "op"); ("pt", "tm"); ("ac", "in"); ("cd", "no"); ("cp", "0"); ("df", "lx"); ("vl", "0"); ("rl", "0");
   ("va", code)].

Lemma clock_nonneg c : 0 <= hes_clock_now_ns c.
Proof.
  unfold hes_clock_now_ns. destruct (rd_time c) as [[s n]|]; [|lia]. destruct (_ <? 0); [lia|].
  apply (wrap_u_range 64). lia.
Qed.

Lemma reported_seconds_spec c : reported_seconds c = Z.min (hes_clock_now c) REALTIME_MAX_SECONDS /\
  0 <= reported_seconds c <= REALTIME_MAX_SECONDS.
Proof.
  unfold reported_seconds, hes_clock_now, NS_PER_SEC. pose proof (clock_nonneg c).
  assert (0 <= hes_clock_now_ns c / 1000000000) by (apply Z.div_pos; lia).
  rewrite (proj2 (Z.ltb_ge _ 0)) by done. unfold REALTIME_MAX_SECONDS.
  destruct (Z.ltb_spec 4294967295 (hes_clock_now_ns c / 1000000000)); lia.
Qed.

Lemma payload_text_small s : (String.length s <= 511)%nat -> payload_text s = s.
Proof. intros H. apply str_take_ge. exact H. Qed.

Lemma realtime_payload_table c : build_realtime_payload c = render_table (realtime_table (reported_seconds c)).
Proof.
  unfold build_realtime_payload. rewrite payload_text_small; [reflexivity|]. rewrite !length_str_app.
  destruct (reported_seconds_spec c) as [_ Hs]. unfold REALTIME_MAX_SECONDS in Hs.
  pose proof (length_fmt_u32 (reported_seconds c)). simpl. lia.
Qed.

Definition zone_of (s : time_snapshot_t) : Z * Z :=
  if sn_tz_valid s then (sn_std_offset_min s, sn_dst_offset_min s) else (0, 0).

(** The [int]s of the snapshot. *)
Definition snap_ints (s : time_snapshot_t) : Prop :=
  -2 ^ 31 <= sn_std_offset_min s < 2 ^ 31 /\ -2 ^ 31 <= sn_dst_offset_min s < 2 ^ 31.

Lemma length_fmt_int z : -2 ^ 31 <= z < 2 ^ 31 -> (String.length (fmt_d z) <= 11)%nat.
Proof. intros Hz. pose proof (length_fmt_d 10 z ltac:(lia) ltac:(lia)). destruct (z <? 0); lia. Qed.

Lemma localtz_payload_table st s :
  snap_ints s ->
  let z := zone_of (sample_state st s) in
  build_localtz_payload st s = render_table (localtz_table (fst z) (snd z)).
Proof.
  intros [H1 H2]. cbv zeta. unfold build_localtz_payload.
  assert (Hi : -2 ^ 31 <= fst (zone_of (sample_state st s)) < 2 ^ 31 /\
               -2 ^ 31 <= snd (zone_of (sample_state st s)) < 2 ^ 31).
  { unfold zone_of, sample_state. destruct (tm_snapshot st); [destruct (sn_tz_valid s)|]; simpl; lia. }
  replace (if sn_tz_valid (sample_state st s) then sn_std_offset_min (sample_state st s) else 0)
    with (fst (zone_of (sample_state st s))) by (unfold zone_of; by destruct (sn_tz_valid _)).
  replace (if sn_tz_valid (sample_state st s) then sn_dst_offset_min (sample_state st s) else 0)
    with (snd (zone_of (sample_state st s))) by (unfold zone_of; by destruct (sn_tz_valid _)).
  rewrite payload_text_small; [reflexivity|]. rewrite !length_str_app.
  pose proof (length_fmt_int _ (proj1 Hi)). pose proof (length_fmt_int _ (proj2 Hi)). simpl. lia.
Qed.

Lemma source_payload_table st s :
  build_source_payload st s = render_table (source_table (time_sync_source_code (sample_state st s))).
Proof. unfold build_source_payload, time_sync_source_code. by destruct (sn_ntp_valid _). Qed.

Lemma realtime_table_ok seconds : has_char ";" (fmt_d seconds) = false -> Forall datum_ok (realtime_table seconds).
Proof. intros H. repeat (apply Forall_cons; split; [by split_and!|]). constructor. Qed.

Lemma digits_no_char c s : isdigit c = false -> str_forallb isdigit s = true -> has_char c s = false.
Proof.
  intros Hc. unfold has_char. induction s as [|d s IH]; simpl; [done|]. intros [Hd Hs]%andb_prop.
  destruct (Ascii.eqb d c) eqn:E; [apply ascii_eqb_eq in E; congruence|]. by apply IH.
Qed.

Lemma clock_datum c :
  bm_datum_value (Some (build_realtime_payload c)) (Some BM_LIVE_INPUT_PARAM) = d_of_Z (reported_seconds c).
Proof.
  destruct (reported_seconds_spec c) as [_ H]. unfold REALTIME_MAX_SECONDS in H.
  rewrite realtime_payload_table. unfold bm_datum_value. rewrite datum_scan_table; [| |done].
  - cbn [realtime_table find_first fst snd BM_LIVE_INPUT_PARAM String.eqb Ascii.eqb Bool.eqb]. apply atof_fmt_d. lia.
  - apply realtime_table_ok. destruct (fmt_d_digits (reported_seconds c)) as (_ & Hd & _); [lia|].
    by apply digits_no_char.
Qed.

Lemma payload_text_fits s : (String.length (payload_text s) < HES_PAYLOAD_MAX)%nat.
Proof. apply (hes_strlcpy_fits HES_PAYLOAD_MAX s). unfold HES_PAYLOAD_MAX. lia. Qed.

(** A realTime report carries the gateway's UTC seconds, kept within the declared
    range of 32 bits, in a table that fits the message; and the number the binding map
    takes from it for an input on the current value is exactly those seconds. *)
Theorem clock_reaches_binding_map c :
  let payload := build_realtime_payload c in
  reported_seconds c = Z.min (hes_clock_now c) REALTIME_MAX_SECONDS /\
  0 <= reported_seconds c <= REALTIME_MAX_SECONDS /\
  (String.length payload < HES_PAYLOAD_MAX)%nat /\
  msg_payload (event_report HES_LX_TIME_REALTIME_CV payload) = payload /\
  bm_datum_value (Some payload) (Some BM_LIVE_INPUT_PARAM) = d_of_Z (reported_seconds c) /\
  d_trunc (bm_datum_value (Some payload) (Some BM_LIVE_INPUT_PARAM)) = Some (reported_seconds c).
Proof.
  cbv zeta. destruct (reported_seconds_spec c) as [H1 H2]. unfold REALTIME_MAX_SECONDS in H2.
  assert (Hlen : (String.length (build_realtime_payload c) < HES_PAYLOAD_MAX)%nat) by apply payload_text_fits.
  rewrite clock_datum. split_and!; try done; try lia; [|apply d_trunc_of_Z; lia].
  cbn [event_report hes_msg_set_payload_str msg_payload]. by apply hes_strlcpy_small.
Qed.

(** ** What a tick reports *)

(** A message as it was handed to the bus, without the bus's time stamp. *)
Definition unstamped (m : hes_clme_msg_t) : hes_clme_msg_t := msg_stamped 0 m.

Definition sends (bus bus' : hes_bus_t) (ms : list hes_clme_msg_t) : Prop :=
  exists ns, bus_extends bus bus' ns /\ unstamped <$> ns = unstamped <$> ms.

Lemma sends_nil bus : sends bus bus [].
Proof. exists []. split; [apply bus_extends_refl|done]. Qed.

Lemma sends_trans b1 b2 b3 ms ns : sends b1 b2 ms -> sends b2 b3 ns -> sends b1 b3 (ms ++ ns).
Proof.
  intros (ms' & H1 & E1) (ns' & H2 & E2). exists (ms' ++ ns'). split; [by eapply bus_extends_trans|].
  by rewrite !fmap_app, E1, E2.
Qed.

Lemma sends_if (c : bool) bus0 bus ms path payload :
  sends bus0 bus ms ->
  sends bus0 (if c then publish_event bus path payload else bus) (ms ++ if c then [event_report path payload] else []).
Proof. intros H. eapply sends_trans; [done|]. destruct c; [by eexists [_]|apply sends_nil]. Qed.

Definition name_fits (s : time_snapshot_t) : Prop := (String.length (sn_tz_name s) < GEO_TZ_NAME_MAX)%nat.

Definition realtime_reports (e : time_env) (st : time_state_t) : list hes_clme_msg_t :=
  if event_due st (tn_time e) then [event_report HES_LX_TIME_REALTIME_CV (build_realtime_payload (tn_clock e))] else [].

Definition zone_reports (e : time_env) (st : time_state_t) : list hes_clme_msg_t :=
  if zone_changed st (sample_state st (tn_snap e))
  then [event_report HES_LX_TIME_LOCALTZ_CV (build_localtz_payload st (tn_snap_tz e))] else [].

Definition source_reports (e : time_env) (st : time_state_t) : list hes_clme_msg_t :=
  if source_changed st (sample_state st (tn_snap e))
  then [event_report HES_LX_TIME_SOURCE_CV (build_source_payload st (tn_snap_source e))] else [].

(** The state a tick leaves. *)
Definition ticked (e : time_env) (st : time_state_t) : time_state_t :=
  let snap := sample_state st (tn_snap e) in
  let st := if event_due st (tn_time e) then with_last_event (tn_time e) st else st in
  let st := if zone_changed st snap then with_zone snap st else st in
  if source_changed st snap then with_source snap st else st.

Lemma realtime_tick_eq e st bus :
  realtime_tick e st bus =
  (ticked e st,
   let bus := if event_due st (tn_time e)
              then publish_event bus HES_LX_TIME_REALTIME_CV (build_realtime_payload (tn_clock e)) else bus in
   let bus := if zone_changed st (sample_state st (tn_snap e))
              then publish_event bus HES_LX_TIME_LOCALTZ_CV (build_localtz_payload st (tn_snap_tz e)) else bus in
   if source_changed st (sample_state st (tn_snap e))
   then publish_event bus HES_LX_TIME_SOURCE_CV (build_source_payload st (tn_snap_source e)) else bus).
Proof.
  unfold realtime_tick, ticked.
  destruct (event_due st (tn_time e)); cbv beta iota;
    change (sample_state (with_last_event (tn_time e) st) (tn_snap e)) with (sample_state st (tn_snap e));
    change (zone_changed (with_last_event (tn_time e) st)) with (zone_changed st);
    destruct (zone_changed st (sample_state st (tn_snap e))); cbv beta iota zeta;
    change (source_changed (with_zone ?a ?b)) with (source_changed b);
    change (source_changed (with_last_event (tn_time e) st)) with (source_changed st);
    by destruct (source_changed st (sample_state st (tn_snap e))).
Qed.

Lemma tick_spec e st bus :
  fst (realtime_tick e st bus) = ticked e st /\
  sends bus (snd (realtime_tick e st bus)) (realtime_reports e st ++ zone_reports e st ++ source_reports e st).
Proof.
  rewrite realtime_tick_eq. split; [done|]. cbn [snd]. rewrite app_assoc.
  apply sends_if, sends_if. apply (sends_if _ _ _ []), sends_nil.
Qed.

Lemma ticked_knows e st :
  name_fits (tn_snap e) ->
  let snap := sample_state st (tn_snap e) in
  zone_changed (ticked e st) snap = false /\ source_changed (ticked e st) snap = false /\
  tm_snapshot (ticked e st) = tm_snapshot st /\
  tm_last_event (ticked e st) = (if event_due st (tn_time e) then tn_time e else tm_last_event st).
Proof.
  intros Hfit. cbv zeta. set (snap := sample_state st (tn_snap e)).
  assert (Hs : hes_strlcpy GEO_TZ_NAME_MAX (sn_tz_name snap) = sn_tz_name snap).
  { apply hes_strlcpy_small. subst snap. unfold sample_state. destruct (tm_snapshot st); [done|].
    unfold GEO_TZ_NAME_MAX. simpl. lia. }
  set (st1 := if event_due st (tn_time e) then with_last_event (tn_time e) st else st).
  assert (H1 : zone_changed st1 = zone_changed st /\ source_changed st1 = source_changed st /\
    tm_snapshot st1 = tm_snapshot st /\ tm_last_event st1 = if event_due st (tn_time e) then tn_time e else tm_last_event st).
  { subst st1. by destruct (event_due st (tn_time e)). }
  destruct H1 as (Hz & Hso & Hsn & Hle). set (st2 := if zone_changed st1 snap then with_zone snap st1 else st1).
  assert (H2 : zone_changed st2 snap = false /\ source_changed st2 = source_changed st1 /\
    tm_snapshot st2 = tm_snapshot st1 /\ tm_last_event st2 = tm_last_event st1).
  { subst st2. destruct (zone_changed st1 snap) eqn:E; [|done]. split_and!; try done.
    unfold zone_changed, with_zone. cbn [tm_have_tz tm_tz_name tm_tz_std tm_tz_dst].
    rewrite Hs, String.eqb_refl, !Z.eqb_refl. by rewrite andb_false_r. }
  destruct H2 as (Hz2 & Hso2 & Hsn2 & Hle2). change (ticked e st) with (if source_changed st2 snap then with_source snap st2 else st2).
  destruct (source_changed st2 snap) eqn:E; [|by rewrite Hsn2, Hle2].
  split_and!; [exact Hz2| |by rewrite <- Hsn, <- Hsn2|by rewrite <- Hle, <- Hle2].
  unfold source_changed, with_source. cbn. by rewrite eqb_reflx.
Qed.

(** A tick reports the clock when five seconds have passed since it last did, the
    zone when one is known and it is not the one last reported, and the source of time
    when it is not the one last reported, in that order and nothing else; so a tick
    that finds the same, less than five seconds later, reports nothing. *)
Theorem tick_reports_changes e st bus :
  let st' := fst (realtime_tick e st bus) in
  sends bus (snd (realtime_tick e st bus))
    ((if (tm_last_event st =? 0) || (5 <=? tn_time e - tm_last_event st)
      then [event_report HES_LX_TIME_REALTIME_CV (build_realtime_payload (tn_clock e))] else []) ++
     (if zone_changed st (sample_state st (tn_snap e))
      then [event_report HES_LX_TIME_LOCALTZ_CV (build_localtz_payload st (tn_snap_tz e))] else []) ++
     (if source_changed st (sample_state st (tn_snap e))
      then [event_report HES_LX_TIME_SOURCE_CV (build_source_payload st (tn_snap_source e))] else []))%bool /\
  (forall e' bus1, name_fits (tn_snap e) -> tn_snap e' = tn_snap e ->
     tm_last_event st' <> 0 -> tn_time e' - tm_last_event st' < 5 ->
     realtime_tick e' st' bus1 = (st', bus1)).
Proof.
  cbv zeta. destruct (tick_spec e st bus) as [Hst Hs]. split; [exact Hs|]. rewrite Hst.
  intros e' bus1 Hfit Hsnap Hne Hlt. destruct (ticked_knows e st Hfit) as (Hz & Hso & Hsn & Hle).
  unfold realtime_tick, event_due. rewrite (proj2 (Z.eqb_neq _ _) Hne).
  rewrite (proj2 (Z.leb_gt _ _)) by (unfold REALTIME_EVENT_PERIOD_S; lia). cbn [orb].
  replace (sample_state (ticked e st) (tn_snap e')) with (sample_state st (tn_snap e))
    by (unfold sample_state; by rewrite Hsn, Hsnap).
  by rewrite Hz, Hso.
Qed.

(** ** A subscriber is kept current *)

(** The last thing the bus was told about an address. *)
Definition last_report (path : string) (ms : list hes_clme_msg_t) : option string :=
  last (msg_payload <$> filter (fun m => msg_path m = path) ms).

Lemma last_report_app path ms ns :
  last_report path (ms ++ ns) =
  match last_report path ns with Some p => Some p | None => last_report path ms end.
Proof.
  unfold last_report. rewrite filter_app, fmap_app.
  induction (msg_payload <$> filter (fun m => msg_path m = path) ns) as [|x l _] using rev_ind; [by rewrite app_nil_r|].
  by rewrite app_assoc, !last_snoc.
Qed.

Lemma last_report_unstamped path ms : last_report path (unstamped <$> ms) = last_report path ms.
Proof.
  unfold last_report. f_equal. induction ms as [|m ms IH]; [done|]. rewrite fmap_cons, !filter_cons.
  change (msg_path (unstamped m)) with (msg_path m). destruct (decide _); [|done]. rewrite !fmap_cons. by f_equal.
Qed.

Lemma last_report_sends path bus bus' ms :
  sends bus bus' ms ->
  last_report path (bus_sent bus') =
  match last_report path ms with Some p => Some p | None => last_report path (bus_sent bus) end.
Proof.
  intros (ns & [-> _] & E). rewrite last_report_app, <- (last_report_unstamped path ns), E.
  by rewrite last_report_unstamped.
Qed.

(** What one conditional report tells about an address. *)
Lemma last_report_if (c : bool) path p payload :
  (String.length payload < HES_PAYLOAD_MAX)%nat ->
  last_report path (if c then [event_report p payload] else []) =
  if (c && (hes_strlcpy HES_PATH_MAX p =?s path))%bool then Some payload else None.
Proof.
  intros Hp. destruct c; [|done]. unfold last_report. rewrite filter_cons.
  change (msg_path (event_report p payload)) with (hes_strlcpy HES_PATH_MAX p). cbn [andb].
  destruct (String.eqb_spec (hes_strlcpy HES_PATH_MAX p) path) as [E|E].
  - rewrite decide_True by done. cbn [event_report hes_msg_set_payload_str fmap list_fmap last filter list_filter msg_payload].
    by rewrite hes_strlcpy_small.
  - by rewrite decide_False.
Qed.

Lemma tick_last_reports e st :
  let reports := realtime_reports e st ++ zone_reports e st ++ source_reports e st in
  last_report HES_LX_TIME_LOCALTZ_CV reports =
    (if zone_changed st (sample_state st (tn_snap e)) then Some (build_localtz_payload st (tn_snap_tz e)) else None) /\
  last_report HES_LX_TIME_SOURCE_CV reports =
    (if source_changed st (sample_state st (tn_snap e)) then Some (build_source_payload st (tn_snap_source e)) else None).
Proof.
  cbv zeta. unfold realtime_reports, zone_reports, source_reports. rewrite !last_report_app.
  rewrite !last_report_if by apply payload_text_fits.
  change (hes_strlcpy HES_PATH_MAX HES_LX_TIME_REALTIME_CV =?s _) with false.
  change (hes_strlcpy HES_PATH_MAX HES_LX_TIME_SOURCE_CV =?s HES_LX_TIME_LOCALTZ_CV) with false.
  change (hes_strlcpy HES_PATH_MAX HES_LX_TIME_LOCALTZ_CV =?s HES_LX_TIME_SOURCE_CV) with false.
  change (hes_strlcpy HES_PATH_MAX HES_LX_TIME_LOCALTZ_CV =?s HES_LX_TIME_LOCALTZ_CV) with true.
  change (hes_strlcpy HES_PATH_MAX HES_LX_TIME_SOURCE_CV =?s HES_LX_TIME_SOURCE_CV) with true.
  rewrite !andb_false_r, !andb_true_r. split; by repeat case_match.
Qed.

(** A turn during which the synchronisation writes nothing. *)
Definition stable (e : time_env) : Prop :=
  tn_snap_tz e = tn_snap e /\ tn_snap_source e = tn_snap e /\ name_fits (tn_snap e).

(** The answers as functions of what the state remembers having reported. *)
Definition zone_answer (std dst : Z) : string :=
  build_localtz_payload (mk_time_state 0 true 0 false "" 0 0 false false) (mk_snapshot false 0 0 0 0 true "" std dst false).

Definition source_answer (ntp : bool) : string :=
  build_source_payload (mk_time_state 0 true 0 false "" 0 0 false false) (mk_snapshot ntp 0 0 0 0 false "" 0 0 false).

Definition kept_current (st : time_state_t) (bus : hes_bus_t) : Prop :=
  (tm_have_tz st = true ->
   last_report HES_LX_TIME_LOCALTZ_CV (bus_sent bus) = Some (zone_answer (tm_tz_std st) (tm_tz_dst st))) /\
  (tm_have_source st = true ->
   last_report HES_LX_TIME_SOURCE_CV (bus_sent bus) = Some (source_answer (tm_source_is_ntp st))).

Lemma localtz_answer st s :
  sn_tz_valid (sample_state st s) = true ->
  build_localtz_payload st s =
  zone_answer (sn_std_offset_min (sample_state st s)) (sn_dst_offset_min (sample_state st s)).
Proof. intros H. unfold build_localtz_payload, zone_answer. by rewrite H. Qed.

Lemma ticked_zone e st :
  let snap := sample_state st (tn_snap e) in
  if zone_changed st snap
  then tm_have_tz (ticked e st) = true /\ tm_tz_std (ticked e st) = sn_std_offset_min snap /\
       tm_tz_dst (ticked e st) = sn_dst_offset_min snap
  else tm_have_tz (ticked e st) = tm_have_tz st /\ tm_tz_std (ticked e st) = tm_tz_std st /\
       tm_tz_dst (ticked e st) = tm_tz_dst st.
Proof.
  cbv zeta. pose proof (f_equal fst (realtime_tick_eq e st (mk_bus [] (fun _ => mk_reading None 0)))) as H.
  cbn [fst] in H. rewrite <- H. unfold realtime_tick.
  destruct (event_due st (tn_time e)); cbv beta iota;
    change (sample_state (with_last_event (tn_time e) st) (tn_snap e)) with (sample_state st (tn_snap e));
    change (zone_changed (with_last_event (tn_time e) st)) with (zone_changed st);
    destruct (zone_changed st (sample_state st (tn_snap e))); cbv beta iota zeta;
    by destruct (source_changed _ _).
Qed.

Lemma ticked_source e st :
  let snap := sample_state st (tn_snap e) in
  if source_changed st snap
  then tm_have_source (ticked e st) = true /\ tm_source_is_ntp (ticked e st) = sn_ntp_valid snap
  else tm_have_source (ticked e st) = tm_have_source st /\ tm_source_is_ntp (ticked e st) = tm_source_is_ntp st.
Proof.
  cbv zeta. unfold ticked. destruct (event_due st (tn_time e)); cbv beta iota zeta;
    change (zone_changed (with_last_event (tn_time e) st)) with (zone_changed st);
    destruct (zone_changed st (sample_state st (tn_snap e))); cbv beta iota zeta;
    change (source_changed (with_zone ?a ?b)) with (source_changed b);
    change (source_changed (with_last_event (tn_time e) st)) with (source_changed st);
    by destruct (source_changed st (sample_state st (tn_snap e))).
Qed.

Lemma tick_keeps_current e st bus :
  stable e -> kept_current st bus ->
  kept_current (fst (realtime_tick e st bus)) (snd (realtime_tick e st bus)).
Proof.
  intros (Etz & Eso & _) [Hz Hs]. destruct (tick_spec e st bus) as [-> Hsend].
  pose proof (ticked_zone e st) as Tz. pose proof (ticked_source e st) as Ts. cbv zeta in Tz, Ts. split; intros Hh.
  - rewrite (last_report_sends _ _ _ _ Hsend), (proj1 (tick_last_reports e st)), Etz.
    destruct (zone_changed st (sample_state st (tn_snap e))) eqn:E; destruct Tz as (Th & -> & ->).
    + rewrite localtz_answer; [done|]. unfold zone_changed in E. by apply andb_prop in E as [? _].
    + apply Hz. congruence.
  - rewrite (last_report_sends _ _ _ _ Hsend), (proj2 (tick_last_reports e st)), Eso.
    destruct (source_changed st (sample_state st (tn_snap e))) eqn:E; destruct Ts as (Th & ->); [done|].
    apply Hs. congruence.
Qed.

Definition ticks (es : list time_env) (s : time_state_t * hes_bus_t) : time_state_t * hes_bus_t :=
  fold_left (fun s e => realtime_tick e (fst s) (snd s)) es s.

Lemma ticks_keep_current es s :
  Forall stable es -> kept_current (fst s) (snd s) -> kept_current (fst (ticks es s)) (snd (ticks es s)).
Proof.
  intros Hes. revert s. induction Hes as [|e es He Hes IH]; intros s Hk; [done|].
  cbn [ticks fold_left]. by apply IH, tick_keeps_current.
Qed.

(** C34: After any ticks of a new service, in each of which the synchronisation's thread writes
    nothing between the samples the tick takes: if the gateway knows its zone, the last zone
    report on the bus is the one a GET at that moment would answer, and the last source report
    is in any case. (A zone that changes between two samples of one tick and back before the
    next leaves a report behind that no GET would answer: [zone_race_leaves_stale_report].) *)
Theorem subscribers_are_kept_current snapshot max_out st0 bus0 es e :
  time_service_create snapshot max_out = Some st0 -> Forall stable (es ++ [e]) ->
  let s := ticks (es ++ [e]) (st0, bus0) in
  (sn_tz_valid (sample_state (fst s) (tn_snap e)) = true ->
   last_report HES_LX_TIME_LOCALTZ_CV (bus_sent (snd s)) = Some (build_localtz_payload (fst s) (tn_snap e))) /\
  last_report HES_LX_TIME_SOURCE_CV (bus_sent (snd s)) = Some (build_source_payload (fst s) (tn_snap e)).
Proof.
  intros Hnew Hst. cbv zeta. apply Forall_app in Hst as [Hes [He _]%Forall_cons].
  unfold ticks. rewrite fold_left_app. cbn [fold_left]. fold (ticks es (st0, bus0)).
  assert (Hk : kept_current (fst (ticks es (st0, bus0))) (snd (ticks es (st0, bus0)))).
  { apply ticks_keep_current; [done|]. unfold time_service_create in Hnew. destruct (_ <? _)%nat; [done|].
    injection Hnew as <-. by split. }
  destruct (ticks es (st0, bus0)) as [st bus]. cbn [fst snd] in *.
  destruct (tick_keeps_current e st bus He Hk) as [Kz Ks]. destruct He as (_ & _ & Hfit).
  pose proof (ticked_knows e st Hfit) as (Nz & Ns & Nsn & _).
  destruct (tick_spec e st bus) as [E _]. rewrite E in *. revert Kz Ks Nz Ns.
  replace (sample_state st (tn_snap e)) with (sample_state (ticked e st) (tn_snap e))
    by (unfold sample_state; by rewrite Nsn).
  set (snap := sample_state (ticked e st) (tn_snap e)). intros Kz Ks Nz Ns. split.
  - intros Hv. unfold zone_changed in Nz. rewrite Hv in Nz. cbn [andb] in Nz. bool_hyps.
    rewrite Kz, localtz_answer by done. subst snap. congruence.
  - unfold source_changed in Ns. apply orb_false_elim in Ns as [Nh Nn]. bool_hyps. rewrite Ks by done.
    apply eqb_prop in Nn. rewrite Nn. done.
Qed.

(** ** The statements at concrete inputs *)

Definition ex_snap : time_snapshot_t :=
  mk_snapshot true 4994999999 30 2 1700000000 true "Europe/Paris" 60 60 true.

Definition ex_tick (now : Z) (s : time_snapshot_t) : time_env :=
  mk_time_env now (mk_reading (Some (now, 0)) (sn_offset_ns s)) s s s.

Definition ex_idle_bus : hes_bus_t := mk_bus [] (fun _ => mk_reading None 0).

Definition ex_service : time_state_t := mk_time_state 3 true 0 false "" 0 0 false false.

Lemma ex_stable now s : name_fits s -> stable (ex_tick now s).
Proof. intros H. split; [done|]. by split. Qed.

(** The tick finds the zone changed to Paris, reports it from a sample that says London, and the
    next tick, in Paris again, sees no change: the last report says London. *)
Example zone_race_leaves_stale_report :
  let london := mk_snapshot true 4994999999 30 2 1700000000 true "Europe/London" 0 60 true in
  let race := mk_time_env 1700000000 (mk_reading (Some (1700000000, 0)) 4994999999) ex_snap london ex_snap in
  let s := ticks [race; ex_tick 1700000001 ex_snap] (ex_service, ex_idle_bus) in
  last_report HES_LX_TIME_LOCALTZ_CV (bus_sent (snd s)) = Some (build_localtz_payload (fst s) london) /\
  build_localtz_payload (fst s) ex_snap <> build_localtz_payload (fst s) london.
Proof. vm_compute. split; [reflexivity|discriminate]. Qed.

Lemma tick_reports_changes_witness :
  let st' := fst (realtime_tick (ex_tick 1700000000 ex_snap) ex_service ex_idle_bus) in
  length (bus_sent (snd (realtime_tick (ex_tick 1700000000 ex_snap) ex_service ex_idle_bus))) = 3%nat /\
  realtime_tick (ex_tick 1700000004 ex_snap) st' ex_idle_bus = (st', ex_idle_bus).
Proof.
  cbv zeta. destruct (tick_reports_changes (ex_tick 1700000000 ex_snap) ex_service ex_idle_bus) as [_ H].
  split; [vm_compute; reflexivity|]. apply H.
  - unfold name_fits, GEO_TZ_NAME_MAX. simpl. lia.
  - reflexivity.
  - vm_compute. discriminate.
  - vm_compute. reflexivity.
Defined.

Lemma subscribers_are_kept_current_witness :
  let s := ticks [ex_tick 1700000000 snapshot_zero; ex_tick 1700000001 ex_snap] (ex_service, ex_idle_bus) in
  last_report HES_LX_TIME_SOURCE_CV (bus_sent (snd s)) = Some (build_source_payload (fst s) ex_snap) /\
  last_report HES_LX_TIME_LOCALTZ_CV (bus_sent (snd s)) = Some (build_localtz_payload (fst s) ex_snap).
Proof.
  destruct (subscribers_are_kept_current true 3 ex_service ex_idle_bus [ex_tick 1700000000 snapshot_zero]
    (ex_tick 1700000001 ex_snap)) as [Hz Hs].
  - reflexivity.
  - repeat (apply Forall_cons; split; [apply ex_stable; unfold name_fits, GEO_TZ_NAME_MAX; simpl; lia|]). constructor.
  - split; [exact Hs|]. apply Hz. vm_compute. reflexivity.
Defined.
