(* ===== verification/Core.v ===== *)
(** * The core module

    Models src/src/modules/core/core.c: the bridges between the binding map and the
    services, the gateway inventory, the start-up sequence and the turns of the main
    loop. The bus loop is a step relation over the module's state; the protected app, and
    what the clocks and the synchronisation's thread say, are parameters. *)

From S2P Require Import Prelude CLib HesCommon HesQuery Bm Dispatch Json Auth Crypto Id Devreg Mreg Time.

Definition CORE_MAX_SERVICE_OBJECTS : nat := 12.
Definition PROOF_FRAME_MAX : nat := HES_PATH_MAX + HES_PAYLOAD_MAX + 2.

(** ** The bridges *)

Definition core_write_at {A} (bm : binding_map_t A) (at_address value : string)
  : binding_map_t A * Z := bm_set_at bm at_address value.

Definition core_authorize {K O} {psa : Psa K O} (auth : auth_service_state_t) (msg : hes_clme_msg_t)
  (at_address : string) : bool :=
  if negb (auth_service_authorize auth (msg_cred_info msg) (msg_user_name msg) at_address) then false
  else
    match auth_service_required_proof_pi auth at_address with
    | None => true
    | Some expected_pi =>
        let framed := crypto_proof_message (msg_path msg) (msg_payload msg) PROOF_FRAME_MAX in
        crypto_verify_proof (Some (msg_cred_info msg)) expected_pi (string_bytes framed)
    end.

(** ** The inventory *)

(** [seen] of the loop, oldest first. *)
Definition count_step (type : hes_module_type_t) (seen : list Z) (a : bm_addr_t) : list Z :=
  if negb (bool_decide (ad_module_type a = type)) then seen
  else if existsb (fun mi => mi =? ad_module_ref_index a) seen then seen
  else seen ++ [ad_module_ref_index a].

Definition count_distinct_modules {A} (bm : binding_map_t A) (type : hes_module_type_t) : Z :=
  Z.of_nat (length (fold_left (count_step type) (bm_addrs bm) [])).

Record core_inventory_t := mk_core_inventory {
  cn_svc_rep_url : option string;
  cn_mreg_open : bool;
  cn_have_modules : bool;
  cn_modules : hes_modules_t;
}.

Section inventory.
Context {target : Target} {nng : Nng}.
Variable json_loads : string -> option json.
Context {W : Type}.
Variable service : W -> string -> W * option string.

Definition core_inventory_refresh (w : W) (inv : core_inventory_t) : option (W * core_inventory_t) :=
  match cn_svc_rep_url inv with
  | None | Some EmptyString => Some (w, inv)
  | Some url =>
      if (negb (cn_mreg_open inv) && negb (snd (hes_mreg_open_registry (Some url)) =? 0))%bool
      then Some (w, inv)
      else
        let* (w, modules, rv) := hes_mreg_query_modules json_loads service w in
        Some (w, if rv =? 0 then mk_core_inventory (Some url) true true modules
                 else mk_core_inventory (Some url) true (cn_have_modules inv) (cn_modules inv))
  end.
End inventory.

Definition discovery_row (mi : Z) : id_binding_map_t := mk_id_bm (hes_strlcpy 8 "sm") mi 0 "".

Definition count_module (out : id_inventory_t) (m : hes_module_entry_t) : id_inventory_t :=
  if me_module_type m =?s "hi" then
    mk_inventory (iv_hans_number out + 1) (iv_wans_number out) (iv_service_modules_number out)
      (iv_binding_maps out)
  else if me_module_type m =?s "wi" then
    mk_inventory (iv_hans_number out) (iv_wans_number out + 1) (iv_service_modules_number out)
      (iv_binding_maps out)
  else if me_module_type m =?s "sm" then
    mk_inventory (iv_hans_number out) (iv_wans_number out) (iv_service_modules_number out + 1)
      (if (length (iv_binding_maps out) <? ID_MAX_BINDING_MAPS)%nat
       then iv_binding_maps out ++ [discovery_row (me_module_ref_index m)]
       else iv_binding_maps out)
  else out.

Definition core_gateway_inventory {A} (bm : binding_map_t A) (inv : core_inventory_t) : id_inventory_t :=
  if cn_have_modules inv then fold_left count_module (cn_modules inv) inventory_zero
  else
    mk_inventory (count_distinct_modules bm HES_MODTYPE_HI) (count_distinct_modules bm HES_MODTYPE_WI)
      (1 + count_distinct_modules bm HES_MODTYPE_SM) [discovery_row 1].

(** ** The module's state *)

(** The states behind the service objects. *)
Record core_services_t := mk_services {
  sv_id : id_service_state_t;
  sv_time : time_service_t;
  sv_auth : auth_service_state_t;
  sv_crypto : crypto_service_state_t;
  sv_inventory : core_inventory_t;
}.

Record core_t (A : Type) := mk_core {
  co_services : core_services_t;
  co_bm : binding_map_t A;
  co_bus : hes_bus_t;
}.
Arguments mk_core {A}.
Arguments co_services {A}.
Arguments co_bm {A}.
Arguments co_bus {A}.

(** An object over its own state, as one of the module's. *)
Definition lift_object {T G} (get : G -> T) (put : T -> G -> G) (so : service_object_t T)
  : service_object_t G :=
  mk_so (so_path so)
    ((fun f g out => let '(t, out) := f (get g) out in (put t g, out)) <$> so_on_get so)
    ((fun f g inm => put (f (get g) inm) g) <$> so_on_put so)
    ((fun f g bus => let '(t, bus) := f (get g) bus in (put t g, bus)) <$> so_tick so).

Section core.
Context {K O : Type} {psa : Psa K O}.
Context {A : Type}.

Definition with_id (v : id_service_state_t) (s : core_services_t) : core_services_t :=
  mk_services v (sv_time s) (sv_auth s) (sv_crypto s) (sv_inventory s).
Definition with_time (v : time_service_t) (s : core_services_t) : core_services_t :=
  mk_services (sv_id s) v (sv_auth s) (sv_crypto s) (sv_inventory s).
Definition with_auth (v : auth_service_state_t) (s : core_services_t) : core_services_t :=
  mk_services (sv_id s) (sv_time s) v (sv_crypto s) (sv_inventory s).
Definition with_crypto (v : crypto_service_state_t) (s : core_services_t) : core_services_t :=
  mk_services (sv_id s) (sv_time s) (sv_auth s) v (sv_inventory s).
Definition with_inventory (v : core_inventory_t) (s : core_services_t) : core_services_t :=
  mk_services (sv_id s) (sv_time s) (sv_auth s) (sv_crypto s) v.

(** The objects in the order of the array: identification, time, authorization,
    cryptography. *)
Definition core_objects (bm : binding_map_t A) : list (service_object_t (core_services_t)) :=
  id_service_objects sv_id with_id (fun s => Some (core_gateway_inventory bm (sv_inventory s))) ++
  (lift_object sv_time with_time <$> time_service_objects) ++
  [auth_service_object sv_auth with_auth] ++
  crypto_service_create sv_crypto with_crypto.

(** ** The turns of the loop

    [fuel] bounds the recursion of the binding map's evaluation; [None]: it ran out,
    or the code left its buffers. *)

Definition relay (bm : binding_map_t A) (bus : hes_bus_t) (handled : bool) (inm : hes_clme_msg_t)
  : hes_bus_t :=
  if (negb handled && (msg_verb inm =? HES_VERB_PUT)
      && bm_is_declared_destination bm (msg_path inm) (msg_device_index inm))%bool
  then hes_bus_send bus inm else bus.

Definition core_message (fuel : nat) (st : core_t A) (inm : hes_clme_msg_t) : option (core_t A) :=
  let* (services, bus, handled) :=
    dispatch_to_local_objects (co_services st) (co_bus st) (core_objects (co_bm st)) inm in
  let bus := relay (co_bm st) bus handled inm in
  let* (bm, bus) := bm_processor_handle fuel (co_bm st) bus inm in
  Some (mk_core services bm bus).

Definition core_tick (st : core_t A) : core_t A :=
  let '(services, bus) :=
    fold_left (fun (s : core_services_t * hes_bus_t) so =>
                 match so_tick so with Some f => f (fst s) (snd s) | None => s end)
      (core_objects (co_bm st)) (co_services st, co_bus st) in
  mk_core services (co_bm st) bus.

(** Once a second the time service's value goes straight to the binding map. *)
Definition core_internal_feed (fuel : nat) (st : core_t A) : option (core_t A) :=
  let* time_rt := core_objects (co_bm st) !! (3 + TIME_OBJECT_REALTIME)%nat in
  let* on_get := so_on_get time_rt in
  let self_event := hes_msg_set_path (msg_with_verb HES_VERB_EVENT hes_msg_init) (so_path time_rt) in
  let '(services, self_event) := on_get (co_services st) self_event in
  let* (bm, bus) := bm_processor_handle fuel (co_bm st) (co_bus st) self_event in
  Some (mk_core services bm bus).

(** ** Starting up *)
Context {D : Type} {kdf : PsaKdf K D} {XD XN : Type} {lib : LibXml XD XN}.
Context {target : Target} {nng : Nng} {W : Type}.
Variable json_load_file : string -> option json.
Variable json_loads : string -> option json.
Variable service : W -> string -> W * option string.
(** The hub's sockets could be opened; what the time service's readings will be. *)
Variable bus_opened : bool.
Variable time_readings : nat -> time_env.
Variable app_service_op : A -> bm_operation_t -> list bm_operand_t -> A * option double.

(** The PUT of the script's [hes.put]. *)
Definition put_command (path value : string) : hes_clme_msg_t :=
  hes_msg_set_payload_str (hes_msg_set_path (msg_with_verb HES_VERB_PUT hes_msg_init) path) value.

(** What [app_lua_create] leaves: the app's state, how many readings of the clocks the
    script's file drew with [hes.get] while it ran, and what it [hes.put] then. [AppLua]
    has the function itself. *)
Record app_loading := mk_loading {
  ld_app : A;
  ld_reads : nat;
  ld_puts : list (string * string);
}.

Record core_config_t := mk_config {
  cf_bm_xml : string;
  cf_auth_policy : option string;
  cf_no_authz : bool;
  cf_identity_path : option string;
  cf_manifest_rep_url : option string;
}.

(** [None]: the module refuses to start. The peer's state goes along with the
    inventory query. *)
Definition core_start (cfg : core_config_t) (w : W) (null_ctx : A) (app : app_loading) (bus : hes_bus_t)
  : option (W * core_t A) :=
  let* id := id_service_create json_load_file (cf_identity_path cfg) CORE_MAX_SERVICE_OBJECTS in
  if negb bus_opened then None
  else
    let* time_state := time_service_create true (CORE_MAX_SERVICE_OBJECTS - 3) in
    let time := mk_time_service time_state time_readings 0 in
    let auth := auth_service_create json_load_file (cf_auth_policy cfg) in
    let* (identity_key, id) := id_service_export_identity_key id in
    let crypto := crypto_service_set_identity_key identity_key crypto_service_init in
    let '(bm, _) := bm_load_xml (bm_init null_ctx) (cf_bm_xml cfg) in
    let bm := if cf_no_authz cfg then bm_disable_authorization bm else bm in
    let '(bm, _) := auth_service_propagate core_write_at auth bm in
    let* (w, inventory) :=
      core_inventory_refresh json_loads service w
        (mk_core_inventory (cf_manifest_rep_url cfg) false false []) in
    let bus := bm_controller_start bm bus in
    let bus := fold_left (fun bus put => hes_bus_send bus (put_command (fst put) (snd put))) (ld_puts app) bus in
    let time := mk_time_service time_state time_readings (ld_reads app) in
    let bm := bm_with_auth_authorize (bm_with_app bm (Some app_service_op) (ld_app app))
                (Some (core_authorize auth)) in
    Some (w, mk_core (mk_services id time auth crypto inventory) bm bus).

(** ** The main loop as a step relation *)

Inductive core_step (st : core_t A) : core_t A -> Prop :=
| step_message fuel inm st' : core_message fuel st inm = Some st' -> core_step st st'
| step_tick : core_step st (core_tick st)
| step_feed fuel st' : core_internal_feed fuel st = Some st' -> core_step st st'
| step_app c reads bus ms :
    (** [app_lua_tick]: the script changes its own state, may read the service objects,
        and puts messages on the bus *)
    bus_extends (co_bus st) bus ms ->
    let time := sv_time (co_services st) in
    core_step st (mk_core (with_time (mk_time_service (tv_state time) (tv_env time) reads) (co_services st))
                    (bm_with_app_ctx (co_bm st) c) bus)
| step_refresh w w' inv :
    core_inventory_refresh json_loads service w (sv_inventory (co_services st)) = Some (w', inv) ->
    core_step st (mk_core (with_inventory inv (co_services st)) (co_bm st) (co_bus st)).

(** The turns one by one: a message is received; the services' tick; the clock's value for
    the binding map; the app's tick, which sends messages; the inventory's refresh, the
    manifest service being in some state. *)
Inductive turn :=
| TurnMessage (inm : hes_clme_msg_t)
| TurnTick
| TurnFeed
| TurnApp (ctx : A) (reads : nat) (sends : list hes_clme_msg_t)
| TurnRefresh (w : W).

Definition core_turn (fuel : nat) (st : core_t A) (t : turn) : option (core_t A) :=
  match t with
  | TurnMessage inm => core_message fuel st inm
  | TurnTick => Some (core_tick st)
  | TurnFeed => core_internal_feed fuel st
  | TurnApp c reads sends =>
      let time := sv_time (co_services st) in
      Some (mk_core (with_time (mk_time_service (tv_state time) (tv_env time) reads) (co_services st))
              (bm_with_app_ctx (co_bm st) c) (fold_left hes_bus_send sends (co_bus st)))
  | TurnRefresh w =>
      let* (w, inv) := core_inventory_refresh json_loads service w (sv_inventory (co_services st)) in
      Some (mk_core (with_inventory inv (co_services st)) (co_bm st) (co_bus st))
  end.

Fixpoint core_run (fuel : nat) (st : core_t A) (ts : list turn) : option (core_t A) :=
  match ts with [] => Some st | t :: ts => let* st := core_turn fuel st t in core_run fuel st ts end.
End core.
Arguments mk_loading {A}.
Arguments ld_app {A}.
Arguments ld_reads {A}.
Arguments ld_puts {A}.
