(* ===== verification/CoreFacts.v ===== *)
(** * Properties of the core module

    What authorizes a message, what the loop puts on the bus, what no reachable state
    loses of the start-up's guarantees, and the inventory's counts. *)

From stdpp Require Import relations.
From S2P Require Import Prelude CLib HesCommon HesQuery Bm BmFacts BmLoad Dispatch Json JsonText Auth.
From S2P Require Import Crypto CryptoFacts Id IdFacts Devreg Mreg Dm DmFacts DmText ManifestFacts TimeSync Time TimeFacts Core DispatchFacts.

(** ** Authorizing a message *)

Section authorize.
Context {K O : Type} {psa : Psa K O}.

(** C6: a message may make a protected row act exactly when the policy lets its
    credential act on that row and, where the policy demands a proof, the message
    carries a key whose identity is the demanded one and a signature by that key over
    the whole of its own path and payload. *)
Theorem core_authorize_decides (auth : auth_service_state_t) (msg : hes_clme_msg_t) at_address :
  msg_fits msg ->
  core_authorize auth msg at_address = true <->
  auth_service_authorize auth (msg_cred_info msg) (msg_user_name msg) at_address = true /\
  forall expected_pi, auth_service_required_proof_pi auth at_address = Some expected_pi ->
    exists pi pk sig_hex pub sig,
      proof_field (Some (msg_cred_info msg)) "pi" 65 = Some pi /\
      proof_field (Some (msg_cred_info msg)) "pk" 131 = Some pk /\
      proof_field (Some (msg_cred_info msg)) "sig" 129 = Some sig_hex /\
      hex_decode pk CRYPTO_IDENTITY_PUB_BYTES = Some pub /\ length pub = 65%nat /\
      hex_decode sig_hex CRYPTO_IDENTITY_SIG_BYTES = Some sig /\ length sig = 64%nat /\
      byte_at pub 0 = 4 /\
      String.length expected_pi = 64%nat /\ str_map tolower expected_pi = identity_of_key pub /\
      String.length pi = 64%nat /\ str_map tolower pi = identity_of_key pub /\
      crypto_verify_message pub
        (string_bytes (msg_path msg ++ String (chr 10) (msg_payload msg))) sig = true.
Proof.
  intros (Hp & _ & Hl & _). unfold core_authorize, PROOF_FRAME_MAX. rewrite proof_message_frame by done.
  destruct (auth_service_authorize _ _ _ _); cbn [negb]; [|split; [done|by intros [? _]]].
  destruct (auth_service_required_proof_pi auth at_address) as [epi|].
  - rewrite verify_proof_fields. split; [intros H; split; [done|]; by intros ? [= <-]|intros [_ H]; by apply H].
  - split; [|done]. intros _. split; [done|]. done.
Qed.
End authorize.

(** ** What the loop keeps *)

Section keeping.
Context {K O : Type} {psa : Psa K O} {A : Type}.
Implicit Types (s : core_services_t) (bm : binding_map_t A).

(** The same services but for the time service's state. *)
Definition keeps s s' : Prop :=
  sv_id s' = sv_id s /\ sv_auth s' = sv_auth s /\ sv_crypto s' = sv_crypto s /\
  sv_inventory s' = sv_inventory s.

Lemma keeps_refl s : keeps s s.
Proof. done. Qed.

Lemma keeps_trans s1 s2 s3 : keeps s1 s2 -> keeps s2 s3 -> keeps s1 s3.
Proof. intros (? & ? & ? & ?) (? & ? & ? & ?). repeat split; congruence. Qed.

(** A callback of one of the module's objects changes at most the time service. *)
Record object_keeps (so : service_object_t (core_services_t)) : Prop := {
  get_keeps : forall f s out, so_on_get so = Some f -> keeps s (fst (f s out));
  put_keeps : forall f s inm, so_on_put so = Some f -> keeps s (f s inm);
  tick_keeps : forall f s bus, so_tick so = Some f -> keeps s (fst (f s bus));
}.

Lemma lifted_keeps so : object_keeps (lift_object sv_time with_time so).
Proof.
  split; intros f s x; simpl.
  - destruct (so_on_get so) as [g|]; simpl; [|done]. intros [= <-]. by destruct (g (sv_time s) x).
  - destruct (so_on_put so) as [g|]; simpl; [|done]. by intros [= <-].
  - destruct (so_tick so) as [g|]; simpl; [|done]. intros [= <-]. by destruct (g (sv_time s) x).
Qed.

Lemma core_objects_keep bm : Forall object_keeps (core_objects bm).
Proof.
  unfold core_objects, id_service_objects, crypto_service_create. rewrite !Forall_app. split_and!.
  - repeat (apply Forall_cons; split); [..|constructor]; split; intros f s x; simpl; intros [= <-]; by destruct s.
  - apply Forall_fmap, Forall_true. intros so. apply lifted_keeps.
  - apply Forall_singleton. split; intros f s x; simpl; intros [= <-]; by destruct s.
  - repeat (apply Forall_cons; split); [..|constructor]; split; intros f s x; simpl; intros [= <-]; by destruct s.
Qed.

Lemma find_object_in {G} (objs : list (service_object_t G)) path so sel :
  find_object objs path = Some (so, sel) -> so ∈ objs.
Proof.
  intros H. pose proof (find_object_best objs path) as Hb. rewrite H in Hb.
  destruct Hb as (_ & (l1 & l2 & -> & _) & _). apply elem_of_app. right. by left.
Qed.

(** What dispatching a message does: at most one answer, and only to a GET. *)
Lemma dispatch_effect bm s bus inm s' bus' handled :
  dispatch_to_local_objects s bus (core_objects bm) inm = Some (s', bus', handled) ->
  keeps s s' /\
  (handled = true <-> find_object (core_objects bm) (msg_path inm) <> None) /\
  (bus' = bus \/ (msg_verb inm = HES_VERB_GET /\ exists answer, bus' = hes_bus_send bus answer)).
Proof.
  unfold dispatch_to_local_objects.
  destruct (find_object _ (msg_path inm)) as [[so sel]|] eqn:Ef.
  2: { intros [= <- <- <-]. split; [done|]. split; [done|by left]. }
  apply find_object_in in Ef. pose proof (core_objects_keep bm) as Hk. rewrite Forall_forall in Hk.
  pose proof (Hk so Ef) as [Hget Hput _].
  destruct (if msg_verb inm =? HES_VERB_GET then so_on_get so else None) as [f|] eqn:Eg.
  - destruct (msg_verb inm =? HES_VERB_GET) eqn:Ev; [|done]. bool_hyps.
    destruct (get_request so inm) as [out|]; [|done]. cbn [mbind].
    pose proof (Hget f s out Eg) as Hks. destruct (f s out) as [s1 out1]. intros [= <- <- <-].
    split; [done|]. split; [done|]. right. split; [done|]. by eexists.
  - destruct (if msg_verb inm =? HES_VERB_PUT then so_on_put so else None) as [f|] eqn:Ep.
    + destruct (msg_verb inm =? HES_VERB_PUT); [|done]. intros [= <- <- <-].
      split; [by apply Hput|]. split; [done|by left].
    + intros [= <- <- <-]. split; [done|]. split; [done|by left].
Qed.

(** *** What dispatching a message sends *)

(** The object's answer to a GET, trimmed to the data points asked for. *)
Definition local_answer s (so : service_object_t core_services_t) (selector : option string) inm
  : option hes_clme_msg_t :=
  let* f := so_on_get so in
  let* req := get_request so inm in
  let out := snd (f s req) in
  Some (match request_list selector inm with Some l => trim_payload out l | None => out end).

(** What the core sends for a message on its own account: its object's answer to a GET, the
    PUT itself when it is for a declared device and no object of the core owns the path. *)
Definition direct_messages (st : core_t A) (inm : hes_clme_msg_t) : list hes_clme_msg_t :=
  match find_object (core_objects (co_bm st)) (msg_path inm) with
  | Some (so, selector) =>
      if msg_verb inm =? HES_VERB_GET then option_list (local_answer (co_services st) so selector inm) else []
  | None =>
      if ((msg_verb inm =? HES_VERB_PUT)
          && bm_is_declared_destination (co_bm st) (msg_path inm) (msg_device_index inm))%bool
      then [inm] else []
  end.

Lemma dispatch_sends (st : core_t A) inm s' bus' handled :
  dispatch_to_local_objects (co_services st) (co_bus st) (core_objects (co_bm st)) inm = Some (s', bus', handled) ->
  sends (co_bus st) (relay (co_bm st) bus' handled inm) (direct_messages st inm).
Proof.
  assert (Hone : forall m, sends (co_bus st) (hes_bus_send (co_bus st) m) [m]) by (intros m; by eexists [_]).
  unfold dispatch_to_local_objects, direct_messages, relay, local_answer.
  destruct (find_object _ (msg_path inm)) as [[so sel]|].
  - destruct (msg_verb inm =? HES_VERB_GET).
    + destruct (so_on_get so) as [f|]; cbn [mbind option_bind].
      * destruct (get_request so inm) as [req|]; [|done]. cbn [mbind option_bind].
        destruct (f (co_services st) req) as [s1 out]. intros [= <- <- <-]. cbn [negb andb option_list snd].
        fold (request_list sel inm). apply Hone.
      * destruct (if msg_verb inm =? HES_VERB_PUT then so_on_put so else None); intros [= <- <- <-]; apply sends_nil.
    + destruct (if msg_verb inm =? HES_VERB_PUT then so_on_put so else None); intros [= <- <- <-]; apply sends_nil.
  - intros [= <- <- <-]. cbn [negb andb]. destruct (_ && _)%bool; [apply Hone|apply sends_nil].
Qed.

(** The core's objects answer with an EVENT from their own address. *)
Definition answers_events (so : service_object_t core_services_t) : Prop :=
  forall f s out, so_on_get so = Some f ->
    msg_verb (snd (f s out)) = msg_verb out /\ msg_path (snd (f s out)) = msg_path out.

Lemma identity_proof_keeps st out :
  msg_verb (crypto_identity_proof st out) = msg_verb out /\ msg_path (crypto_identity_proof st out) = msg_path out.
Proof. unfold crypto_identity_proof. repeat split_match; done. Qed.

Lemma core_objects_answer bm : Forall answers_events (core_objects bm).
Proof.
  unfold core_objects, id_service_objects, crypto_service_create, time_service_objects. rewrite !Forall_app. split_and!.
  - repeat (apply Forall_cons; split); [..|constructor]; intros f s out; simpl; by intros [= <-].
  - repeat (apply Forall_cons; split); [..|constructor]; intros f s out; simpl; by intros [= <-].
  - apply Forall_singleton. intros f s out. simpl. intros [= <-]. unfold auth_on_get. by destruct (class_list _ _ _ _).
  - repeat (apply Forall_cons; split); [..|constructor]; intros f s out; simpl; intros [= <-]; [done|]. cbn [snd].
    unfold crypto_on_get. pose proof (identity_proof_keeps (sv_crypto s) out). repeat split_match; done.
Qed.

Lemma local_answer_event (st : core_t A) so sel inm m :
  so ∈ core_objects (co_bm st) -> local_answer (co_services st) so sel inm = Some m ->
  msg_verb m = HES_VERB_EVENT /\ msg_path m = hes_strlcpy HES_PATH_MAX (so_path so).
Proof.
  intros Hin. pose proof (core_objects_answer (co_bm st)) as H. rewrite Forall_forall in H. specialize (H so Hin).
  unfold local_answer. destruct (so_on_get so) as [f|] eqn:Ef; [|done]. cbn [mbind option_bind].
  unfold get_request. destruct (_ <? _); [done|]. cbn [mbind option_bind]. intros [= <-].
  match goal with |- context [f ?s ?r] => destruct (H f s r Ef) as [Hv Hp] end.
  destruct (request_list sel inm); cbn [msg_verb msg_path trim_payload hes_msg_set_payload_str]; by rewrite Hv, Hp.
Qed.
End keeping.

(** ** The clock in the binding map *)

Section feed.
Context {K O : Type} {psa : Psa K O} {A : Type}.

(** The message the core makes up for its own binding map. *)
Definition clock_event (c : clock_reading) : hes_clme_msg_t :=
  hes_msg_set_payload_str
    (hes_msg_set_path (msg_with_verb HES_VERB_EVENT hes_msg_init) HES_LX_TIME_REALTIME_CV) (build_realtime_payload c).

Lemma clock_event_payload c : msg_payload (clock_event c) = build_realtime_payload c.
Proof. apply hes_strlcpy_small, payload_text_fits. Qed.

Lemma build_realtime_nonempty c : (build_realtime_payload c =?s "") = false.
Proof. reflexivity. Qed.

(** Once a second the core gives its own binding map the time: every device read by
    an input on the realTime object then holds exactly the gateway's UTC seconds (within
    the declared 32 bits), the other devices keep their values, and the rows are
    evaluated precisely when some input reads the clock; nothing else of the core
    changes, and the message goes over no bus. *)
Theorem internal_feed_gives_clock fuel (st : core_t A) :
  bm_fits (co_bm st) ->
  let time := sv_time (co_services st) in
  let c := tn_clock (tv_env time (tv_reads time)) in
  let seconds := Z.min (hes_clock_now c) REALTIME_MAX_SECONDS in
  let ins := concat (op_inputs <$> bm_ops (co_bm st)) in
  exists bm (updated : bool),
    (forall di, 0 <= di ->
       cached bm di = (if reports_on ins (clock_event c) di then d_of_Z seconds else cached (co_bm st) di) /\
       cache_valid bm di = (if reports_on ins (clock_event c) di then true else cache_valid (co_bm st) di)) /\
    (updated = true <-> exists di, reports_on ins (clock_event c) di = true) /\
    bm_ops bm = bm_ops (co_bm st) /\
    core_internal_feed fuel st =
      (let* (bm', bus) := (if updated then bm_evaluate_all fuel bm (co_bus st) else Some (bm, co_bus st)) in
       Some (mk_core (with_time (mk_time_service (tv_state time) (tv_env time) (S (tv_reads time))) (co_services st))
               bm' bus)).
Proof.
  intros [_ _ Hc Hv]. cbv zeta. set (time := sv_time (co_services st)). set (c := tn_clock _).
  pose proof (store_inputs_spec (clock_event c) (d_of_Z (reported_seconds c)) (concat (op_inputs <$> bm_ops (co_bm st)))
    (bm_with_current_msg (co_bm st) (Some (clock_event c))) false Hc Hv) as H.
  destruct (fold_left _ _ _) as [bm updated] eqn:E. destruct H as (H1 & H2 & H3).
  destruct (reported_seconds_spec c) as [Hs _]. rewrite Hs in *. exists bm, updated.
  split; [exact H1|]. split; [rewrite H2; split; [by intros [|]|by right]|]. split; [exact H3|].
  change (core_internal_feed fuel st) with
    (let* (bm', bus) := bm_processor_handle fuel (co_bm st) (co_bus st) (clock_event c) in
     Some (mk_core (with_time (mk_time_service (tv_state time) (tv_env time) (S (tv_reads time))) (co_services st)) bm' bus)).
  unfold bm_processor_handle. rewrite clock_event_payload, build_realtime_nonempty, clock_datum, Hs.
  change (negb (msg_verb (clock_event c) =? HES_VERB_EVENT) && _)%bool with false. cbv iota.
  unfold store_report. change (bm_ops (bm_with_current_msg (co_bm st) _)) with (bm_ops (co_bm st)). by rewrite E.
Qed.
End feed.

(** ** What a turn of the loop sends *)

Section turns.
Context {K O : Type} {psa : Psa K O} {A : Type}.
Context {target : Target} {nng : Nng} {W : Type}.
Variable json_loads : string -> option json.
Variable service : W -> string -> W * option string.

Lemma sends_all ms bus : sends bus (fold_left hes_bus_send ms bus) ms.
Proof.
  revert bus. induction ms as [|m ms IH]; intros bus; cbn [fold_left]; [apply sends_nil|].
  apply (sends_trans _ (hes_bus_send bus m) _ [m]); [by eexists [_]|apply IH].
Qed.

(** What the services have to report at a tick. *)
Definition tick_messages (st : core_t A) : list hes_clme_msg_t :=
  let time := sv_time (co_services st) in
  let e := tv_env time (tv_reads time) in
  realtime_reports e (tv_state time) ++ zone_reports e (tv_state time) ++ source_reports e (tv_state time).

Lemma core_tick_sends (st : core_t A) :
  sends (co_bus st) (co_bus (core_tick st)) (tick_messages st) /\ co_bm (core_tick st) = co_bm st.
Proof.
  unfold core_tick, tick_messages. destruct st as [[i [ts env reads] a c v] bm bus]. cbn [co_bus co_services co_bm].
  unfold core_objects, id_service_objects, crypto_service_create, time_service_objects.
  cbn [app fmap list_fmap fold_left so_tick lift_object option_fmap option_map fst snd sv_time auth_service_object].
  unfold time_tick, draw. cbn [tv_env tv_reads tv_state].
  destruct (tick_spec (env reads) ts bus) as [_ H].
  destruct (realtime_tick (env reads) ts bus) as [st' bus']. cbn [snd] in H. by split.
Qed.

(** What the core sends on its own account in a turn. *)
Definition own_messages (st : core_t A) (t : turn (A := A) (W := W)) : list hes_clme_msg_t :=
  match t with
  | TurnMessage inm => direct_messages st inm
  | TurnTick => tick_messages st
  | TurnApp _ _ ms => ms
  | TurnFeed | TurnRefresh _ => []
  end.

(** The message the binding map works on in a turn. *)
Definition worked_on (st : core_t A) (t : turn (A := A) (W := W)) : option hes_clme_msg_t :=
  match t with
  | TurnMessage inm => Some inm
  | TurnFeed => let time := sv_time (co_services st) in Some (clock_event (tn_clock (tv_env time (tv_reads time))))
  | _ => None
  end.

(** C7: the core is no blind proxy. Whatever the turn of its loop, what it sends is, up to the
    timestamps, its own messages and behind them commands of the binding map, each allowed for
    the very message the map works on in that turn: the one received, or the clock's event it
    made up; in the other turns there are none. Its own messages are: for a GET that finds an
    object of the core which answers, that object's answer to the request, cut to the data
    points asked for, an EVENT from the object's own address; for a PUT that finds no object
    and goes to a declared HAN or WAN device, that PUT; for any other message nothing; at a
    tick the time service's due reports; at the app's tick what the script sends; nothing for
    the clock's feed and the inventory's refresh. And a PUT moves nothing in the binding map. *)
Theorem core_relays_declared_only fuel (st st' : core_t A) (t : turn (A := A) (W := W)) :
  core_turn json_loads service fuel st t = Some st' ->
  (exists direct commands, bus_extends (co_bus st) (co_bus st') (direct ++ commands) /\
     unstamped <$> direct = unstamped <$> own_messages st t /\
     match worked_on st t with
     | Some m => Forall (allowed_put (bm_with_current_msg (co_bm st) (Some m))) commands
     | None => commands = []
     end) /\
  match t with
  | TurnMessage inm =>
      (msg_verb inm = HES_VERB_PUT -> co_bm st' = co_bm st) /\
      (msg_verb inm <> HES_VERB_PUT -> forall m, m ∈ own_messages st t ->
         exists so sel, find_object (core_objects (co_bm st)) (msg_path inm) = Some (so, sel) /\
           msg_verb inm = HES_VERB_GET /\ msg_verb m = HES_VERB_EVENT /\
           msg_path m = hes_strlcpy HES_PATH_MAX (so_path so))
  | _ => True
  end.
Proof.
  assert (Hnone : forall bus bus' ms, sends bus bus' ms -> exists direct commands,
    bus_extends bus bus' (direct ++ commands) /\ unstamped <$> direct = unstamped <$> ms /\ commands = []).
  { intros bus bus' ms (ns & Hb & He). exists ns, []. by rewrite app_nil_r. }
  destruct t as [inm| | |c reads ms|w]; cbn [core_turn own_messages worked_on].
  - unfold core_message. destruct (dispatch_to_local_objects _ _ _ inm) as [[[s' bus1] handled]|] eqn:Ed; [|done].
    cbn [mbind option_bind]. destruct (bm_processor_handle fuel _ _ inm) as [[bm' bus']|] eqn:Ep; [|done].
    cbn [mbind option_bind]. intros [= <-]. cbn [co_bus co_bm].
    pose proof (processor_handle_safe _ _ _ _ _ _ Ep) as [_ (cs & Hext & Hcs)].
    destruct (dispatch_sends st inm s' bus1 handled Ed) as (ds & Hds & Heq). split; [|split].
    + exists ds, cs. split; [by eapply bus_extends_trans|]. split; [done|].
      eapply Forall_impl; [exact Hcs|apply authorized_put_allowed].
    + intros Hv. rewrite processor_handle_other in Ep by (rewrite Hv; done). by injection Ep as <- _.
    + intros Hv m Hm. unfold direct_messages in Hm.
      destruct (find_object _ _) as [[so sel]|] eqn:Ef.
      * destruct (Z.eqb_spec (msg_verb inm) HES_VERB_GET) as [Hg|]; [|by apply elem_of_nil in Hm].
        destruct (local_answer _ _ _ _) as [a|] eqn:Ea; cbn [option_list] in Hm; [|by apply elem_of_nil in Hm].
        apply list_elem_of_singleton in Hm as ->. exists so, sel. split; [done|]. split; [done|].
        eapply local_answer_event; [by eapply find_object_in|exact Ea].
      * rewrite (proj2 (Z.eqb_neq _ _) Hv) in Hm. by apply elem_of_nil in Hm.
  - intros [= <-]. split; [|done]. apply Hnone, core_tick_sends.
  - split; [|done]. set (time := sv_time (co_services st)) in *. set (c := tn_clock (tv_env time (tv_reads time))) in *.
    change (core_internal_feed fuel st) with
      (let* (bm', bus) := bm_processor_handle fuel (co_bm st) (co_bus st) (clock_event c) in
       Some (mk_core (with_time (mk_time_service (tv_state time) (tv_env time) (S (tv_reads time))) (co_services st)) bm' bus)) in H.
    destruct (bm_processor_handle _ _ _ _) as [[bm' bus']|] eqn:Ep; [|done]. injection H as <-. cbn [co_bus].
    pose proof (processor_handle_safe _ _ _ _ _ _ Ep) as [_ (cs & Hext & Hcs)]. exists [], cs. split; [done|]. split; [done|].
    eapply Forall_impl; [exact Hcs|apply authorized_put_allowed].
  - intros [= <-]. split; [|done]. apply Hnone, sends_all.
  - destruct (core_inventory_refresh _ _ _ _) as [[w' inv]|]; [|done]. intros [= <-]. split; [|done].
    apply Hnone, sends_nil.
Qed.
End turns.

(** ** From start-up to every reachable state *)

Lemma propagate_inv {X} (I : X -> Prop) (write : X -> string -> string -> X * Z) (a : auth_service_state_t) x :
  (forall x at_address v, I x -> I (fst (write x at_address v))) -> I x ->
  I (fst (auth_service_propagate write a x)).
Proof.
  intros Hw Hx. unfold auth_service_propagate.
  apply (fold_left_inv (fun st => I (fst st))); [done|]. intros st c _ Hst. unfold propagate_class.
  apply (fold_left_inv (fun st => I (fst st))); [done|]. intros st' g _ Hst'. unfold propagate_group.
  destruct (group_applies c g); [|done].
  apply (fold_left_inv (fun st => I (fst st))); [done|]. intros [y n] p _ Hy. unfold propagate_permission.
  destruct (permission_applies c g p); [|done].
  pose proof (Hw y (pe_lexicon_object p) (pe_value_new p) Hy) as H. by destruct (write y _ _).
Qed.

Section reachable.
Context {K O : Type} {psa : Psa K O} {A : Type}.
Context {D : Type} {kdf : PsaKdf K D} {XD XN : Type} {lib : LibXml XD XN}.
Context {target : Target} {nng : Nng} {W : Type}.
Variable json_load_file : string -> option json.
Variable json_loads : string -> option json.
Variable service : W -> string -> W * option string.
Variable bus_opened : bool.
Variable time_readings : nat -> time_env.
Variable app_service_op : A -> bm_operation_t -> list bm_operand_t -> A * option double.

Abbreviation start := (core_start json_load_file json_loads service bus_opened time_readings app_service_op).
Abbreviation step := (core_step json_loads service).

(** What start-up establishes and no turn of the loop may lose. *)
Record in_force (auth : auth_service_state_t) (no_authz : bool) (rows : list bm_operation_t)
  (addrs : list bm_addr_t) (pi : string) (key : bytes) (st : core_t A) : Prop := {
  if_authorize : bm_auth_authorize (co_bm st) = Some (core_authorize auth);
  if_disabled : bm_authz_disabled (co_bm st) = no_authz;
  if_rows : op_config <$> bm_ops (co_bm st) = op_config <$> rows;
  if_addrs : bm_addrs (co_bm st) = addrs;
  if_policy : sv_auth (co_services st) = auth;
  if_pi : id_unique_public_id (sv_id (co_services st)) = pi;
  if_id_scrubbed : id_identity_scalar (sv_id (co_services st)) = replicate ID_IDENTITY_KEY_BYTES 0 /\
                   id_have_identity_key (sv_id (co_services st)) = false;
  if_crypto : cs_identity_scalar (sv_crypto (co_services st)) = key /\
              cs_have_identity_key (sv_crypto (co_services st)) = true;
}.

Lemma in_force_keeps auth na rows addrs pi key (st : core_t A) s bm bus :
  in_force auth na rows addrs pi key st ->
  sv_id s = sv_id (co_services st) -> sv_auth s = sv_auth (co_services st) ->
  sv_crypto s = sv_crypto (co_services st) ->
  op_config <$> bm_ops bm = op_config <$> bm_ops (co_bm st) -> bm_addrs bm = bm_addrs (co_bm st) ->
  bm_authz_disabled bm = bm_authz_disabled (co_bm st) ->
  bm_auth_authorize bm = bm_auth_authorize (co_bm st) ->
  in_force auth na rows addrs pi key (mk_core s bm bus).
Proof.
  intros [] Hi Ha Hc Hr Had Hd Hau. constructor; cbn [co_services co_bm]; rewrite ?Hi, ?Ha, ?Hc; congruence.
Qed.

Lemma step_in_force auth na rows addrs pi key (st st' : core_t A) :
  in_force auth na rows addrs pi key st -> step st st' -> in_force auth na rows addrs pi key st'.
Proof.
  intros Hin Hstep. pose proof (core_objects_keep (co_bm st)) as Hobj.
  destruct Hstep as [fuel inm st' H| |fuel st' H|c reads bus ms H time|w w' inv H].
  - unfold core_message in H.
    destruct (dispatch_to_local_objects _ _ _ inm) as [[[s bus1] handled]|] eqn:Ed; [|done]. cbn [mbind] in H.
    destruct (bm_processor_handle _ _ _ _) as [[bm bus]|] eqn:Ep; [|done]. injection H as <-.
    destruct (dispatch_effect _ _ _ _ _ _ _ Ed) as ((Hi & Ha & Hc & _) & _).
    destruct (processor_handle_config _ _ _ _ _ _ Ep) as (? & ? & ? & ?). by eapply in_force_keeps.
  - unfold core_tick. assert (Hk : keeps (co_services st) (fst (fold_left
      (fun (s : core_services_t * hes_bus_t) so =>
         match so_tick so with Some f => f (fst s) (snd s) | None => s end)
      (core_objects (co_bm st)) (co_services st, co_bus st)))).
    { apply (fold_left_inv (fun s => keeps (co_services st) (fst s))); [apply keeps_refl|].
      intros s so Hso Hs. destruct (so_tick so) as [f|] eqn:Ef; [|done].
      rewrite Forall_forall in Hobj. eapply keeps_trans; [exact Hs|]. exact (tick_keeps so (Hobj so Hso) f (fst s) (snd s) Ef). }
    destruct (fold_left _ _ _) as [s bus]. destruct Hk as (Hi & Ha & Hc & _). by eapply in_force_keeps.
  - unfold core_internal_feed in H. destruct (core_objects _ !! _) as [so|] eqn:Eo; [|done]. cbn [mbind] in H.
    destruct (so_on_get so) as [f|] eqn:Eg; [|done]. cbn [mbind] in H.
    apply list_elem_of_lookup_2 in Eo. rewrite Forall_forall in Hobj.
    pose proof (get_keeps so (Hobj so Eo) f (co_services st)
      (hes_msg_set_path (msg_with_verb HES_VERB_EVENT hes_msg_init) (so_path so)) Eg) as Hk.
    destruct (f (co_services st) _) as [s ev].
    destruct (bm_processor_handle _ _ _ _) as [[bm bus]|] eqn:Ep; [|done]. injection H as <-.
    destruct Hk as (Hi & Ha & Hc & _). destruct (processor_handle_config _ _ _ _ _ _ Ep) as (? & ? & ? & ?).
    by eapply in_force_keeps.
  - by eapply in_force_keeps.
  - by eapply in_force_keeps.
Qed.

Lemma start_in_force cfg w null_ctx app bus w' st :
  start cfg w null_ctx app bus = Some (w', st) ->
  exists id0, id_service_create json_load_file (cf_identity_path cfg) CORE_MAX_SERVICE_OBJECTS = Some id0 /\
    in_force (auth_service_create json_load_file (cf_auth_policy cfg)) (cf_no_authz cfg)
      (bm_ops (co_bm st)) (bm_addrs (co_bm st)) (id_unique_public_id id0) (id_identity_scalar id0) st.
Proof.
  unfold core_start. destruct (id_service_create _ _ _) as [id0|]; [|done]. cbn [mbind].
  destruct bus_opened; [|done]. cbn [negb]. 
  destruct (time_service_create _ _) as [t|]; [|done]. cbn [mbind].
  unfold id_service_export_identity_key. destruct (id_have_identity_key id0); [|done]. cbn [negb mbind].
  assert (Hload : bm_authz_disabled (fst (bm_load_xml (bm_init null_ctx) (cf_bm_xml cfg))) = false).
  { unfold bm_load_xml. destruct (hes_query_open _); [|done]. cbn [fst]. unfold bm_load_tables.
    apply fold_left_inv; [apply fold_left_inv; [done|]|]; intros b e _ Hb.
    - unfold parse_operation_table. by destruct (BM_MAX_OPS <=? _)%nat.
    - unfold parse_addressing_table. by destruct (BM_MAX_ADDRS <=? _)%nat. }
  destruct (bm_load_xml _ _) as [bm rv]. cbn [fst] in Hload.
  set (bm1 := if cf_no_authz cfg then bm_disable_authorization bm else bm).
  assert (Hd : bm_authz_disabled (fst (auth_service_propagate core_write_at
    (auth_service_create json_load_file (cf_auth_policy cfg)) bm1)) = cf_no_authz cfg).
  { apply (propagate_inv (fun b => bm_authz_disabled b = cf_no_authz cfg)).
    - intros b a v Hb. unfold core_write_at, bm_set_at. by destruct (ops_set_at _ _ _).
    - subst bm1. by destruct (cf_no_authz cfg). }
  destruct (auth_service_propagate _ _ bm1) as [bm2 writes]. cbn [fst] in Hd.
  destruct (core_inventory_refresh _ _ _ _) as [[w1 inv]|]; [|done]. cbn [mbind].
  intros [= <- <-]. exists id0. split; [done|]. by constructor.
Qed.

(** C2: what start-up puts in force stays in force: in every state the loop can reach,
    whatever messages, ticks, refreshes and scripts come, the binding map asks the
    authorizer of the policy that was loaded, with authorization disabled only by the
    development switch; its rows and addresses are those that were loaded; and the
    identity's private key is with the cryptographic service alone, the identification
    service presenting the same public identity over a scrubbed scalar. *)
Theorem start_up_stays_in_force cfg w null_ctx app bus w' st0 st :
  start cfg w null_ctx app bus = Some (w', st0) -> rtc step st0 st ->
  exists id0, id_service_create json_load_file (cf_identity_path cfg) CORE_MAX_SERVICE_OBJECTS = Some id0 /\
    in_force (auth_service_create json_load_file (cf_auth_policy cfg)) (cf_no_authz cfg)
      (bm_ops (co_bm st0)) (bm_addrs (co_bm st0)) (id_unique_public_id id0) (id_identity_scalar id0) st.
Proof.
  intros Hs Hr. destruct (start_in_force _ _ _ _ _ _ _ Hs) as (id0 & Hid & Hin). exists id0. split; [done|].
  revert Hin. generalize (bm_ops (co_bm st0)) (bm_addrs (co_bm st0)). clear Hs. intros rows addrs.
  induction Hr as [x|x y z Hxy _ IH]; [done|]. intros Hin. apply IH. by eapply step_in_force.
Qed.
End reachable.

(** ** The inventory *)

Definition modules_of_type {M} (type_of : M -> string) (t : string) (ms : list M) : list M :=
  filter (fun m => type_of m = t) ms.

Lemma count_modules_spec (ms : list hes_module_entry_t) :
  let typed t := modules_of_type me_module_type t ms in
  fold_left count_module ms inventory_zero =
  mk_inventory (Z.of_nat (length (typed "hi"))) (Z.of_nat (length (typed "wi"))) (Z.of_nat (length (typed "sm")))
    (take ID_MAX_BINDING_MAPS (discovery_row ∘ me_module_ref_index <$> typed "sm")).
Proof.
  cbn zeta. unfold modules_of_type. induction ms as [|m ms IH] using rev_ind; [done|].
  rewrite fold_left_app, IH. cbn [fold_left]. clear IH. rewrite !filter_app, fmap_app, !length_app.
  unfold count_module. cbn [iv_hans_number iv_wans_number iv_service_modules_number iv_binding_maps].
  destruct (me_module_type m =?s "hi") eqn:E1.
  { apply String.eqb_eq in E1. rewrite filter_cons_True by done. rewrite !filter_cons_False by (rewrite E1; done).
    rewrite !filter_nil. cbn [length fmap list_fmap]. rewrite app_nil_r, !Nat.add_0_r. f_equal. lia. }
  apply String.eqb_neq in E1. destruct (me_module_type m =?s "wi") eqn:E2.
  { apply String.eqb_eq in E2. rewrite (filter_cons_False (fun m0 => me_module_type m0 = "hi")) by done.
    rewrite filter_cons_True by done. rewrite filter_cons_False by (rewrite E2; done).
    rewrite !filter_nil. cbn [length fmap list_fmap]. rewrite app_nil_r, !Nat.add_0_r. f_equal. lia. }
  apply String.eqb_neq in E2. destruct (me_module_type m =?s "sm") eqn:E3.
  - apply String.eqb_eq in E3. rewrite (filter_cons_False (fun m0 => me_module_type m0 = "hi")) by done.
    rewrite (filter_cons_False (fun m0 => me_module_type m0 = "wi")) by done. rewrite filter_cons_True by done.
    rewrite !filter_nil. cbn [length fmap list_fmap]. rewrite !Nat.add_0_r. f_equal; [lia|].
    rewrite length_take, length_fmap. set (rows := discovery_row ∘ me_module_ref_index <$> _).
    assert (Hl : length rows = length (filter (fun m0 => me_module_type m0 = "sm") ms)) by apply length_fmap.
    rewrite <- Hl. destruct (_ <? ID_MAX_BINDING_MAPS)%nat eqn:El; bool_hyps.
    + apply Nat.ltb_lt in El. rewrite !take_ge; [done|rewrite length_app; simpl; lia|lia].
    + apply Nat.ltb_ge in El. by rewrite take_app_le by lia.
  - apply String.eqb_neq in E3. rewrite !filter_cons_False by done. rewrite !filter_nil.
    cbn [length fmap list_fmap]. by rewrite app_nil_r, !Nat.add_0_r.
Qed.

Section inventory.
Context {target : Target} {nng : Nng} {A : Type}.
Variable json_loads : string -> option json.

(** C40: with a manifest service in reach, whose profile is plain and within its bounds, and
    a reader that reads every text of a JSON document nested at most 2048 deep (jansson's
    limit) as that document, a refresh makes the
    identification service count what the product profile declares: as many HAN, WAN and service modules as
    the profile has of each type, and one discovery row for each of the first 8 service
    modules; no binding map has a say in it. *)
Theorem inventory_counts_the_profile pf inv url (bm : binding_map_t A) :
  reads_json json_loads -> Forall plain_module pf ->
  profile_fits pf -> Forall (fun m => 0 <= mm_module_ref_index m < 2 ^ 32) pf ->
  cn_svc_rep_url inv = Some url -> url <> "" ->
  cn_mreg_open inv = true \/ (nng_req0_open = 0 /\ nng_dial url 0 = 0) ->
  let typed t := modules_of_type mm_module_type t pf in
  exists inv', core_inventory_refresh json_loads (service_peer json_loads) pf inv = Some (pf, inv') /\
    core_gateway_inventory bm inv' =
      mk_inventory (Z.of_nat (length (typed "hi"))) (Z.of_nat (length (typed "wi"))) (Z.of_nat (length (typed "sm")))
        (take ID_MAX_BINDING_MAPS (discovery_row ∘ mm_module_ref_index <$> typed "sm")).
Proof.
  intros Hread Hplain Hpf Hi Hu Hne Hopen typed. unfold core_inventory_refresh. rewrite Hu.
  destruct url as [|c url]; [done|].
  assert (Hc : (negb (cn_mreg_open inv) && negb (snd (hes_mreg_open_registry (Some (String c url))) =? 0))%bool = false).
  { destruct Hopen as [->|[H1 H2]]; [done|]. unfold hes_mreg_open_registry, dial_once. rewrite H1, H2.
    cbn. apply andb_false_r. }
  rewrite Hc. rewrite query_modules_of_service by done. cbn [mbind].
  eexists. split; [reflexivity|]. unfold core_gateway_inventory. cbn [cn_have_modules cn_modules Z.eqb].
  rewrite count_modules_spec.
  assert (Hof : forall t, modules_of_type me_module_type t (client_entry <$> pf) = client_entry <$> typed t).
  { intros t. unfold typed, modules_of_type. clear. induction pf as [|m pf IH]; [done|]. cbn [fmap list_fmap].
    destruct (decide (mm_module_type m = t)).
    - rewrite !filter_cons_True by done. cbn [fmap list_fmap]. by f_equal.
    - by rewrite !filter_cons_False by done. }
  rewrite !Hof, !length_fmap, <- list_fmap_compose. done.
Qed.

Lemma count_step_spec type addrs seen :
  NoDup seen ->
  NoDup (fold_left (count_step type) addrs seen) /\
  (length (fold_left (count_step type) addrs seen) <= length seen + length addrs)%nat /\
  forall mi, mi ∈ fold_left (count_step type) addrs seen <->
    mi ∈ seen \/ exists a, a ∈ addrs /\ ad_module_type a = type /\ ad_module_ref_index a = mi.
Proof.
  revert seen. induction addrs as [|a addrs IH]; intros seen Hn; cbn [fold_left].
  { split; [done|]. split; [simpl; lia|]. intros mi. split; [by left|].
    intros [H|(a & Ha & _)]; [done|]. by apply not_elem_of_nil in Ha. }
  assert (Hstep : NoDup (count_step type seen a) /\
    (length (count_step type seen a) <= S (length seen))%nat /\
    forall mi, mi ∈ count_step type seen a <->
      mi ∈ seen \/ (ad_module_type a = type /\ ad_module_ref_index a = mi)).
  { unfold count_step. destruct (bool_decide (ad_module_type a = type)) eqn:E; cbn [negb].
    - apply bool_decide_eq_true in E. destruct (existsb _ seen) eqn:Ex.
      + split; [done|]. split; [lia|]. intros mi. split; [by left|]. intros [H|[_ <-]]; [done|].
        apply existsb_exists in Ex as (x & Hx & Hxe). bool_hyps. subst. by apply list_elem_of_In.
      + split.
        * apply NoDup_app. split; [done|]. split; [|apply NoDup_singleton].
          intros x Hx Hx2%list_elem_of_singleton. subst x.
          assert (existsb (fun mi => mi =? ad_module_ref_index a) seen = true); [|congruence].
          apply existsb_exists. exists (ad_module_ref_index a). rewrite Z.eqb_refl.
          split; [by apply list_elem_of_In|done].
        * split; [rewrite length_app; simpl; lia|]. intros mi. rewrite elem_of_app, list_elem_of_singleton.
          split; intros [H|H]; [by left|right; by subst|by left|right; by destruct H].
    - apply bool_decide_eq_false in E. split; [done|]. split; [lia|]. intros mi.
      split; [by left|]. by intros [H|[? _]]. }
  destruct Hstep as (H1 & H2 & H3). destruct (IH _ H1) as (I1 & I2 & I3).
  split; [done|]. split; [simpl; lia|]. intros mi. rewrite I3, H3. split.
  - intros [[H|H]|(b & Hb & H)]; [by left|right; exists a; split; [by left|done]|].
    right. exists b. split; [by right|done].
  - intros [H|(b & [->|Hb]%elem_of_cons & H)]; [by left; left|left; by right|right; by exists b].
Qed.

(** Without a module list the counts are the distinct modules of the addressing
    table: each (type, index) once, however many devices sit behind it, never more
    than the table has rows, and this module on top of the service modules; a refresh
    that fails leaves the answer as it was. *)
Theorem inventory_falls_back inv (bm : binding_map_t A) :
  (cn_have_modules inv = false -> forall type, exists mis,
    NoDup mis /\ (length mis <= length (bm_addrs bm))%nat /\
    (forall mi, mi ∈ mis <-> exists a, a ∈ bm_addrs bm /\ ad_module_type a = type /\ ad_module_ref_index a = mi) /\
    let n := Z.of_nat (length mis) in
    match type with
    | HES_MODTYPE_HI => iv_hans_number (core_gateway_inventory bm inv) = n
    | HES_MODTYPE_WI => iv_wans_number (core_gateway_inventory bm inv) = n
    | HES_MODTYPE_SM => iv_service_modules_number (core_gateway_inventory bm inv) = 1 + n
    | _ => True
    end) /\
  forall {W} (service : W -> string -> W * option string) w w' inv',
    (forall w req, snd (service w req) = None) ->
    core_inventory_refresh json_loads service w inv = Some (w', inv') ->
    core_gateway_inventory bm inv' = core_gateway_inventory bm inv.
Proof.
  split.
  - intros Hm type. destruct (count_step_spec type (bm_addrs bm) [] ltac:(constructor)) as (H1 & H2 & H3).
    exists (fold_left (count_step type) (bm_addrs bm) []). split; [done|]. split; [done|]. split.
    + intros mi. rewrite H3. split; [|by right]. intros [H|H]; [by apply not_elem_of_nil in H|done].
    + unfold core_gateway_inventory, count_distinct_modules. rewrite Hm. by destruct type.
  - intros W service w w' inv' Hs. unfold core_inventory_refresh.
    destruct (cn_svc_rep_url inv) as [[|c url]|]; [by intros [= <- <-]| |by intros [= <- <-]].
    destruct (_ && _)%bool; [by intros [= <- <-]|].
    unfold hes_mreg_query_modules, req_reply.
    specialize (Hs w (dq "{'cmd':'modules'}")). destruct (service w _) as [w1 answer]. cbn [snd] in Hs.
    subst answer. cbn [mbind]. intros [= <- <-]. done.
Qed.
End inventory.

(** ** The statements at concrete inputs *)

(** The clock runs, and nothing was ever synchronised. *)
Definition ex_readings (n : nat) : time_env :=
  mk_time_env (Z.of_nat n) (mk_reading (Some (Z.of_nat n, 0)) 0) snapshot_zero snapshot_zero snapshot_zero.

Definition ex_json_file (p : string) : option json :=
  if p =?s "id.json" then Some (JObject [("gatewayIdentity", JObject [("fp", JString ex_fp)])]) else None.

Definition ex_hub : hes_bus_t := mk_bus [] (fun n => mk_reading (Some (Z.of_nat n, 0)) 0).

Definition ex_start : option (unit * core_t unit) :=
  core_start (psa := Toy.psa) (kdf := ToyKdf.kdf) (lib := Tree.lib ex_files) (target := indefinite_target)
    (nng := ex_nng) ex_json_file (fun _ => None) (fun w _ => (w, None)) true ex_readings
    (fun a _ _ => (a, None)) (mk_config "bm.xml" None false (Some "id.json") None) tt tt (mk_loading tt 1 [("/boot", "1")]) ex_hub.

Lemma start_up_stays_in_force_witness :
  match ex_start with
  | Some (_, st0) =>
      id_have_identity_key (sv_id (co_services (core_tick (psa := Toy.psa) st0))) = false /\
      length (bm_ops (co_bm st0)) = 1%nat
  | None => False
  end.
Proof.
  destruct ex_start as [[w st0]|] eqn:E; [|exfalso; vm_compute in E; discriminate].
  split; [|vm_compute in E; injection E as <- <-; reflexivity].
  destruct (start_up_stays_in_force (psa := Toy.psa) (kdf := ToyKdf.kdf) (lib := Tree.lib ex_files)
    (target := indefinite_target) (nng := ex_nng) ex_json_file (fun _ => None) (fun w _ => (w, None))
    true ex_readings (fun a _ _ => (a, None)) (mk_config "bm.xml" None false (Some "id.json") None) tt tt (mk_loading tt 1 [("/boot", "1")]) ex_hub
    w st0 (core_tick (psa := Toy.psa) st0) E) as (id0 & _ & Hin).
  - apply rtc_once. apply step_tick.
  - apply Hin.
Defined.

(** A policy that lets the holder of "key" switch a lamp, on proof of an identity. *)
Definition ex_proof_policy : auth_service_state_t :=
  mk_auth [mk_class 1 "alice" "ok" 0 7 3] [] [mk_credential 3 "" "" "key" 0 true] [mk_group 7 "ps" 5]
    [mk_permission 5 "ok" 0 "/lx/ob/bm/ot1/o1/at" "fl"] [mk_proof_requirement "/lx/ob/bm/ot1/o1/at" ex_fp] true.

Lemma core_authorize_decides_witness :
  core_authorize (psa := Toy.psa) ex_proof_policy
    (mk_msg "/lx/a" HES_VERB_EVENT 1 "" 1 "1" "key" "" 0) "/lx/ob/bm/ot1/o1/at" = false /\
  core_authorize (psa := Toy.psa) ex_proof_policy
    (mk_msg "/lx/a" HES_VERB_EVENT 1 "" 1 "1" "key" "" 0) "/lx/ob/bm/ot1/o2/at" = false.
Proof.
  assert (Hf : msg_fits (mk_msg "/lx/a" HES_VERB_EVENT 1 "" 1 "1" "key" "" 0)).
  { unfold msg_fits, HES_PATH_MAX, HES_QUERY_MAX, HES_PAYLOAD_MAX, HES_CRED_MAX, HES_USER_MAX.
    split_and!; simpl; lia. }
  split; apply not_true_iff_false; intros H.
  - apply (core_authorize_decides (psa := Toy.psa)) in H as [_ H]; [|exact Hf].
    destruct (H ex_fp ltac:(reflexivity)) as (pi & _ & _ & _ & _ & Hp & _). vm_compute in Hp. discriminate.
  - apply (core_authorize_decides (psa := Toy.psa)) in H as [H _]; [|exact Hf]. vm_compute in H. discriminate.
Defined.

(** A core with one declared HAN device, and no service of its own. *)
Definition ex_core : core_t unit :=
  mk_core (mk_services (mk_id 3 "" "" "" "" "" "" 0 0 0 0 [] false)
             (mk_time_service (mk_time_state 3 true 0 false "" 0 0 false false) ex_readings 0) auth_empty crypto_service_init
             (mk_core_inventory None false false []))
    (bm_with_addrs (bm_init tt) [mk_addr 4 HES_MODTYPE_HI 1 1 ""]) ex_hub.

Definition ex_put (di : Z) : hes_clme_msg_t :=
  hes_msg_set_payload_str (hes_msg_set_path (msg_with_device di (msg_with_verb HES_VERB_PUT hes_msg_init))
    "/lx/ob/uo/li") "1".

(** The device is declared, so the PUT goes on; another one's does not; a GET of the core's own
    identification object is answered from there. *)
Definition ex_get_id : hes_clme_msg_t :=
  hes_msg_set_path (msg_with_verb HES_VERB_GET hes_msg_init) "/lx/ob/so/id".

Lemma core_relays_declared_only_witness :
  let turn inm := core_turn (psa := Toy.psa) (target := indefinite_target) (nng := ex_nng) (W := unit)
    (fun _ => None) (fun w _ => (w, None)) 1 ex_core (TurnMessage inm) in
  let sent (r : option (core_t unit)) := bus_sent ∘ co_bus <$> r in
  (exists st', turn (ex_put 4) = Some st' /\ co_bm st' = co_bm ex_core /\ bus_sent (co_bus st') = [unstamped (ex_put 4)]) /\
  sent (turn (ex_put 5)) = Some [] /\
  (fmap (fun m => (msg_verb m, msg_path m, msg_payload m)) <$> sent (turn ex_get_id)) =
    Some [(HES_VERB_EVENT, "/lx/ob/so/id", "rq=ma;si=ye")].
Proof.
  cbn zeta. split; [|split; reflexivity].
  destruct (core_turn (psa := Toy.psa) (target := indefinite_target) (nng := ex_nng) (W := unit) (fun _ => None)
    (fun w _ => (w, None)) 1 ex_core (TurnMessage (ex_put 4))) as [st|] eqn:E;
    [|exfalso; vm_compute in E; discriminate].
  destruct (core_relays_declared_only (psa := Toy.psa) (target := indefinite_target) (nng := ex_nng) (W := unit)
    (fun _ => None) (fun w _ => (w, None)) 1 ex_core st (TurnMessage (ex_put 4)) E) as [_ [Hput _]].
  exists st. split; [done|]. split; [by apply Hput|]. vm_compute in E. by injection E as <-.
Defined.

Lemma inventory_counts_the_profile_witness :
  exists inv', @core_inventory_refresh indefinite_target ex_nng read_json _
    (@service_peer indefinite_target read_json) ex_profile (mk_core_inventory (Some "ipc:///rep") true false [])
    = Some (ex_profile, inv') /\
    core_gateway_inventory (bm_init tt) inv' = mk_inventory 1 0 1 [discovery_row 1].
Proof.
  apply (@inventory_counts_the_profile indefinite_target ex_nng unit read_json ex_profile
    (mk_core_inventory (Some "ipc:///rep") true false []) "ipc:///rep" (bm_init tt)).
  - exact read_json_reads.
  - exact ex_plain.
  - exact ex_profile_fits.
  - repeat (apply Forall_cons; split); [simpl; lia|simpl; lia|constructor].
  - reflexivity.
  - discriminate.
  - left. reflexivity.
Defined.

(** A row with an input on the clock, as device 5. *)
Definition ex_clock_map : binding_map_t unit :=
  bm_with_ops (bm_init tt) [op_with_inputs op_empty [mk_input 5 HES_LX_TIME_REALTIME_CV "" "" ""]].

Lemma ex_clock_map_fits : bm_fits ex_clock_map.
Proof.
  destruct op_empty_fits.
  constructor; simpl; (split || done); try (unfold BM_MAX_OPS, BM_MAX_ADDRS; lia); repeat constructor;
    simpl; try done; try (unfold fits, HES_PATH_MAX, u32, BM_MAX_INPUTS; simpl; lia).
Qed.

Definition ex_clock_core : core_t unit :=
  mk_core (with_time (mk_time_service (mk_time_state 3 true 0 false "" 0 0 false false) ex_readings 1700) (co_services ex_core))
    ex_clock_map ex_hub.

Lemma internal_feed_gives_clock_witness :
  exists bm : binding_map_t unit, cached bm 5 = d_of_Z 1700 /\
    core_internal_feed (psa := Toy.psa) 0 ex_clock_core = None /\
    (fun st => cached (co_bm st) 5) <$> core_internal_feed (psa := Toy.psa) 2 ex_clock_core = Some (cached bm 5).
Proof.
  destruct (internal_feed_gives_clock (psa := Toy.psa) 0 ex_clock_core ex_clock_map_fits)
    as (bm & updated & Hd & Hu & _ & Hf).
  exists bm. destruct (Hd 5 ltac:(lia)) as [H5 _]. split; [|split].
  - rewrite H5. vm_compute. reflexivity.
  - assert (updated = true) as ->.
    { apply Hu. exists 5. vm_compute. reflexivity. }
    rewrite Hf. reflexivity.
  - rewrite H5. vm_compute. reflexivity.
Defined.
