(* ===== verification/CoreLive.v ===== *)
(** * The core stays live

    Composes modules/core/core.c with bm/bm.c: from start-up on, every turn of the core's loop
    comes to its end and leaves the table computed and ready for the next, whatever turns
    come, as long as the table's rows stand behind the rows they read and what is reported are
    values the rows keep, numbers for instance. *)

From stdpp Require Import relations.
From S2P Require Import Prelude CLib HesCommon HesQuery Bm BmFacts BmSettle BmValues BmTerm BmProps BmLoad Dispatch Json Auth.
From S2P Require Import Crypto CryptoFacts Id IdFacts Devreg Mreg Dm DmFacts ManifestFacts TimeSync Time TimeFacts Core CoreFacts BmFollow.

(** ** A table nothing was reported to *)

Section unfed.
Context {A : Type}.
Implicit Types bm : binding_map_t A.

Record unfed bm : Prop := {
  uf_rows : Forall (fun op => op_last_operands op = None) (bm_ops bm);
  uf_cache : bm_value_cache bm = replicate (BM_MAX_ADDRS + 1) d_zero;
  uf_valid : bm_value_valid bm = replicate (BM_MAX_ADDRS + 1) false;
}.

Lemma unfed_init c : unfed (bm_init c).
Proof. by split. Qed.

Lemma unfed_same bm bm' : bm_ops bm' = bm_ops bm -> bm_value_cache bm' = bm_value_cache bm ->
  bm_value_valid bm' = bm_value_valid bm -> unfed bm -> unfed bm'.
Proof. intros Ho Hc Hv [H1 H2 H3]. split; congruence. Qed.

(** Setting the address's authorType leaves the operands. *)
Lemma unfed_set_at bm at_address v : unfed bm -> unfed (fst (bm_set_at bm at_address v)).
Proof.
  intros [H1 H2 H3]. unfold bm_set_at. destruct (ops_set_at (bm_ops bm) at_address v) as [ops|] eqn:E; [|by split].
  split; [|exact H2|exact H3]. cbn [fst bm_ops bm_with_ops]. clear H2 H3. revert ops E.
  induction (bm_ops bm) as [|op l IH]; intros ops E; [done|]. apply Forall_cons in H1 as [Hop H1]. cbn [ops_set_at] in E.
  destruct (_ =?s at_address).
  - injection E as <-. by constructor.
  - destruct (ops_set_at l at_address v) as [l'|]; [|done]. injection E as <-. constructor; [done|]. by apply IH.
Qed.

Section load.
Context {D N : Type} {lib : LibXml D N}.

Definition no_operands (op : bm_operation_t) : Prop := op_last_operands op = None.

Lemma parse_operation_table_unfed (e : hes_query_elem_t D N) bm : unfed bm -> unfed (parse_operation_table e bm).
Proof.
  intros [H1 H2 H3]. unfold parse_operation_table. destruct (_ <=? _)%nat; [by split|]. split; [|exact H2|exact H3].
  cbn [bm_ops bm_with_ops]. apply Forall_app. split; [done|]. constructor; [|constructor].
  change (no_operands (load_group e "outputs" parse_outputs (load_group e "outputParameters" parse_output_parameters
    (load_group e "inputParameters" parse_input_parameters (load_group e "inputs" parse_inputs (load_data 64 row_datum e
      (match hes_query_elem_attr e "transCode" with Some c => op_with_table_code op_empty (hes_strlcpy 8 c) | None => op_empty end))))))).
  apply load_group_inv.
  { intros e' o Ho. unfold parse_outputs. apply load_data_inv; [by destruct (hes_query_elem_attr e' _)|].
    intros tc buf o' Ho'. unfold output_datum. by repeat split_match. }
  apply load_group_inv.
  { intros e' o Ho. unfold parse_output_parameters. apply load_data_inv; [done|]. intros tc buf o' Ho'.
    unfold output_parameter_datum. by destruct (_ || _)%bool. }
  apply load_group_inv.
  { intros e' o Ho. unfold parse_input_parameters. apply load_data_inv; [done|]. intros tc buf o' Ho'.
    unfold input_parameter_datum. by destruct (_ || _)%bool. }
  apply load_group_inv; [intros e' o Ho; unfold parse_inputs; by destruct (_ <=? _)%nat|].
  apply load_data_inv; [by destruct (hes_query_elem_attr e _)|]. intros tc buf o' Ho'. unfold row_datum. by repeat split_match.
Qed.

Lemma load_xml_unfed bm path : unfed bm -> unfed (fst (bm_load_xml bm path)).
Proof.
  intros Hu. unfold bm_load_xml. destruct (hes_query_open path) as [ctx|]; [|done]. cbn [fst]. unfold bm_load_tables.
  apply fold_left_inv; [apply fold_left_inv; [done|]|]; intros b e _ Hb.
  - by apply parse_operation_table_unfed.
  - unfold parse_addressing_table. destruct (_ <=? _)%nat; [done|]. by apply (unfed_same b).
Qed.
End load.

Lemma unfed_invalid bm di : unfed bm -> cache_valid bm di = false.
Proof.
  intros [_ _ Hv]. unfold cache_valid. rewrite Hv. destruct (replicate _ _ !! _) as [b|] eqn:E; [|done].
  by apply lookup_replicate in E as [-> _].
Qed.

Lemma unfed_steady (V : nat -> double -> Prop) bm : unfed bm -> ordered bm ->
  (forall op, op ∈ bm_ops bm -> row_keeps V bm op) -> steady V bm.
Proof.
  intros Hu Ho Hk. pose proof Hu as [H1 H2 H3]. apply fresh_steady; [done| | | | |].
  - split; [split; [by rewrite H2, H3|]|done]. intros di Hdi. by rewrite unfed_invalid in Hdi.
  - intros di. by apply unfed_invalid.
  - by rewrite Forall_forall in H1.
  - by rewrite H2.
  - by rewrite H3.
Qed.
End unfed.

(** ** Turns *)

Section live.
Context {K O : Type} {psa : Psa K O} {A : Type}.
Context {D : Type} {kdf : PsaKdf K D} {XD XN : Type} {lib : LibXml XD XN}.
Context {target : Target} {nng : Nng} {W : Type}.
Variable json_load_file : string -> option json.
Variable json_loads : string -> option json.
Variable service : W -> string -> W * option string.
Variable bus_opened : bool.
Variable time_readings : nat -> time_env.
Variable app_service_op : A -> bm_operation_t -> list bm_operand_t -> A * option double.

Abbreviation start := (core_start json_load_file json_loads service bus_opened time_readings app_service_op).
Abbreviation step := (core_step json_loads service).
Abbreviation turn_of := (core_turn json_loads service).
Abbreviation run_of := (core_run json_loads service).
Abbreviation turn := (turn (A := A) (W := W)).

Lemma sends_extend ms bus : exists ns, bus_extends bus (fold_left hes_bus_send ms bus) ns.
Proof.
  revert bus. induction ms as [|m ms IH]; intros bus; cbn [fold_left]; [exists []; apply bus_extends_refl|].
  destruct (bus_extends_send bus m) as (m' & Hb & _). destruct (IH (hes_bus_send bus m)) as [ns Hns].
  exists ([m'] ++ ns). by eapply bus_extends_trans.
Qed.

Lemma core_turn_step fuel (st : core_t A) t st' : turn_of fuel st t = Some st' -> step st st'.
Proof.
  destruct t as [inm| | |c reads sends|w]; cbn [core_turn]; intros H.
  - by eapply step_message.
  - injection H as <-. apply step_tick.
  - by eapply step_feed.
  - injection H as <-. destruct (sends_extend sends (co_bus st)) as [ns Hns]. by eapply step_app.
  - destruct (core_inventory_refresh _ _ _ _) as [[w' inv]|] eqn:E; [|done]. injection H as <-. by eapply step_refresh.
Qed.

Lemma core_run_steps fuel (st : core_t A) ts st' : run_of fuel st ts = Some st' -> rtc step st st'.
Proof.
  revert st. induction ts as [|t ts IH]; intros st; cbn [core_run]; [by intros [= ->]|].
  destruct (turn_of fuel st t) as [st1|] eqn:E; [|done]. intros H. eapply rtc_l; [by eapply core_turn_step|by apply IH].
Qed.

(** ** Every turn ends *)

Section values.
Variable V : nat -> double -> Prop.
Hypothesis V_number : forall k v, V k v -> is_nan v = false.

(** A message is acceptable for a table when its length is within its array and what it
    reports, if anything, belongs to the sets of the devices it is stored for. *)
Definition acceptable (bm : binding_map_t A) (t : turn) : Prop :=
  match t with
  | TurnMessage inm => msg_payload_len inm <= Z.of_nat HES_PAYLOAD_MAX /\ admissible V bm inm
  | TurnRefresh w => forall inv, is_Some (core_inventory_refresh json_loads service w inv)
  | _ => True
  end.

Lemma steady_app_ctx (bm : binding_map_t A) (c : A) : steady V bm -> steady V (bm_with_app_ctx bm c).
Proof.
  intros [Ho [Hv Hk] Hs Hf Hc Hl]. split; [exact Ho|split; [exact Hv|exact Hk]| |exact Hf|exact Hc|exact Hl].
  intros j. rewrite <- (Hs j). by apply row_stale_same_ops.
Qed.

Lemma dispatch_total (s : core_services_t) bus bm inm : msg_payload_len inm <= Z.of_nat HES_PAYLOAD_MAX ->
  exists s' bus' handled, dispatch_to_local_objects s bus (core_objects (A := A) bm) inm = Some (s', bus', handled).
Proof.
  intros Hl. unfold dispatch_to_local_objects. destruct (Dispatch.find_object _ (msg_path inm)) as [[so sel]|]; [|by eexists _, _, _].
  destruct (if msg_verb inm =? HES_VERB_GET then so_on_get so else None) as [f|].
  - unfold get_request. rewrite (proj2 (Z.ltb_ge _ _)) by lia. cbn [mbind option_bind]. destruct (f s _) as [s1 out]. by eexists _, _, _.
  - destruct (if msg_verb inm =? HES_VERB_PUT then so_on_put so else None); by eexists _, _, _.
Qed.

Lemma handle_lives fuel (bm : binding_map_t A) bus m : steady V bm -> admissible V bm m ->
  (length (bm_ops bm) * S (length (bm_ops bm)) ^ length (bm_ops bm) < fuel)%nat ->
  exists bm' bus', bm_processor_handle fuel bm bus m = Some (bm', bus') /\ steady V bm' /\
    op_config <$> bm_ops bm' = op_config <$> bm_ops bm.
Proof.
  intros Hst HP Hf. destruct (handle_total V V_number fuel bm bus m Hst HP Hf) as (bm' & bus' & H).
  exists bm', bus'. split; [done|]. split; [by eapply (handle_steady V V_number)|].
  by apply processor_handle_safe in H as [Hc _].
Qed.

(** Admissibility looks at the rows' inputs alone. *)
Lemma admissible_rows (bm bm' : binding_map_t A) m :
  op_config <$> bm_ops bm' = op_config <$> bm_ops bm -> admissible V bm m -> admissible V bm' m.
Proof.
  intros Hc Ha Ht. assert (Hi : op_inputs <$> bm_ops bm' = op_inputs <$> bm_ops bm); [|rewrite Hi; by apply Ha].
  apply (f_equal (fmap op_inputs)) in Hc. by rewrite <- !list_fmap_compose in Hc.
Qed.

(** The clock's values belong to the sets of the devices that read it. *)
Definition clock_admissible (bm : binding_map_t A) : Prop := forall c, admissible V bm (clock_event c).

Lemma turn_lives fuel (st : core_t A) (t : turn) : steady V (co_bm st) -> clock_admissible (co_bm st) -> acceptable (co_bm st) t ->
  (length (bm_ops (co_bm st)) * S (length (bm_ops (co_bm st))) ^ length (bm_ops (co_bm st)) < fuel)%nat ->
  exists st', turn_of fuel st t = Some st' /\ steady V (co_bm st') /\
    op_config <$> bm_ops (co_bm st') = op_config <$> bm_ops (co_bm st).
Proof.
  intros Hst Hclock Hok Hf. destruct t as [inm| | |c reads sends|w]; cbn [core_turn acceptable] in *.
  - destruct Hok as [Hl HP].
    destruct (dispatch_total (co_services st) (co_bus st) (co_bm st) inm Hl) as (s & bus & handled & Hd).
    unfold core_message. rewrite Hd. cbn [mbind option_bind].
    destruct (handle_lives fuel (co_bm st) (relay (co_bm st) bus handled inm) inm Hst HP Hf) as (bm' & bus' & -> & Hs & Hn).
    by eexists.
  - eexists. split; [done|]. unfold core_tick. by destruct (fold_left _ _ _).
  - set (time := sv_time (co_services st)). set (c := tn_clock (tv_env time (tv_reads time))).
    change (core_internal_feed fuel st) with
      (let* (bm', bus) := bm_processor_handle fuel (co_bm st) (co_bus st) (clock_event c) in
       Some (mk_core (with_time (mk_time_service (tv_state time) (tv_env time) (S (tv_reads time))) (co_services st)) bm' bus)).
    destruct (handle_lives fuel (co_bm st) (co_bus st) (clock_event c) Hst) as (bm' & bus' & -> & Hs & Hn); [done|done|by eexists].
  - eexists. split; [done|]. split; [by apply steady_app_ctx|done].
  - destruct (Hok (sv_inventory (co_services st))) as [[w' inv] ->]. by eexists.
Qed.

Lemma acceptable_rows (bm bm' : binding_map_t A) t :
  op_config <$> bm_ops bm' = op_config <$> bm_ops bm -> acceptable bm t -> acceptable bm' t.
Proof. intros Hc. destruct t; try done. cbn. intros [? ?]. split; [done|]. by eapply admissible_rows. Qed.

Lemma run_lives fuel ts (st : core_t A) : steady V (co_bm st) -> clock_admissible (co_bm st) -> Forall (acceptable (co_bm st)) ts ->
  (length (bm_ops (co_bm st)) * S (length (bm_ops (co_bm st))) ^ length (bm_ops (co_bm st)) < fuel)%nat ->
  exists st', run_of fuel st ts = Some st' /\ steady V (co_bm st').
Proof.
  revert st. induction ts as [|t ts IH]; intros st Hst Hclock Hts Hf; cbn [core_run]; [by exists st|].
  apply Forall_cons in Hts as [Ht Hts].
  destruct (turn_lives fuel st t Hst Hclock Ht Hf) as (st1 & -> & Hst1 & Hn). cbn [mbind option_bind].
  pose proof (f_equal length Hn) as Hlen. rewrite !length_fmap in Hlen.
  apply IH; [done| | |by rewrite Hlen].
  - intros c. by apply (admissible_rows (co_bm st)).
  - eapply Forall_impl; [exact Hts|]. intros u. by apply acceptable_rows.
Qed.

Lemma start_unfed cfg w null_ctx app bus w' st : start cfg w null_ctx app bus = Some (w', st) -> unfed (co_bm st).
Proof.
  unfold core_start. destruct (id_service_create _ _ _) as [id0|]; [|done]. cbn [mbind option_bind].
  destruct bus_opened; [|done]. cbn [negb]. destruct (time_service_create _ _) as [t|]; [|done]. cbn [mbind option_bind].
  destruct (id_service_export_identity_key id0) as [[key id1]|]; [|done]. cbn [mbind option_bind].
  pose proof (load_xml_unfed (bm_init null_ctx) (cf_bm_xml cfg) (unfed_init null_ctx)) as Hload.
  destruct (bm_load_xml _ _) as [bm rv]. cbn [fst] in Hload.
  set (bm1 := if cf_no_authz cfg then bm_disable_authorization bm else bm).
  assert (H1 : unfed bm1) by (subst bm1; destruct (cf_no_authz cfg); [by apply (unfed_same bm)|done]).
  pose proof (propagate_inv unfed core_write_at (auth_service_create json_load_file (cf_auth_policy cfg)) bm1
    (fun x a v => unfed_set_at x a v) H1) as H2.
  destruct (auth_service_propagate _ _ bm1) as [bm2 writes]. cbn [fst] in H2.
  destruct (core_inventory_refresh _ _ _ _) as [[w1 inv]|]; [|done]. cbn [mbind option_bind]. intros [= <- <-].
  by apply (unfed_same bm2).
Qed.

End values.
End live.

(** ** The statement at a concrete core *)

Lemma seconds_finite s : 0 <= s <= REALTIME_MAX_SECONDS -> is_finite (d_of_Z s) = true.
Proof.
  unfold REALTIME_MAX_SECONDS. intros Hs. pose proof (d_trunc_of_Z s ltac:(lia)) as H.
  by destruct (d_of_Z s).
Qed.

(** The clock gives finite numbers. *)
Lemma clock_values {A} fin (bm : binding_map_t A) : clock_admissible (value_set fin) bm.
Proof.
  intros c _ inp _ _. apply value_set_finite. unfold reported. rewrite clock_event_payload, clock_datum.
  apply seconds_finite. by destruct (reported_seconds_spec c) as [_ ?].
Qed.

(** The temperature-controlled light's two rows, and one that reads the clock. *)
Definition live_doc : Tree.node :=
  Tree.Elem "lexPublish" [] [Tree.Elem "bindingMap" []
    [Tree.Elem "operationTable" [("transCode", "ot1")]
       [ex_data "ri" "1"; ex_data "op" "gt";
        Tree.Elem "inputs" [] [ex_data "di" "1"; ex_data "so" "/t"; ex_data "co" "pt"];
        Tree.Elem "inputParameters" [] [ex_data "ip" "va"];
        Tree.Elem "inputParameters" [] [ex_data "ip" "30"];
        Tree.Elem "outputs" [("transCode", "o1")] [ex_data "dl" "3"]];
     Tree.Elem "operationTable" [("transCode", "ot2")]
       [ex_data "ri" "2"; ex_data "op" "mu";
        Tree.Elem "inputs" [] [ex_data "di" "3"; ex_data "co" "pt"];
        Tree.Elem "inputs" [] [ex_data "di" "4"; ex_data "so" "/d"; ex_data "co" "pt"];
        Tree.Elem "outputs" [("transCode", "o1")] [ex_data "dl" "2"; ex_data "do" "/lamp"]];
     Tree.Elem "operationTable" [("transCode", "ot3")]
       [ex_data "ri" "3"; ex_data "op" "gt";
        Tree.Elem "inputs" [] [ex_data "di" "5"; ex_data "so" HES_LX_TIME_REALTIME_CV; ex_data "co" "pt"];
        Tree.Elem "outputs" [("transCode", "o1")] [ex_data "do" "/clock"]]]].

Definition live_files (path : string) : option Tree.node := if path =?s "bm.xml" then Some live_doc else None.

Definition live_config : core_config_t := mk_config "bm.xml" None false (Some "id.json") None.

(** The script puts "/boot" while it is loaded. *)
Definition live_start : option (unit * core_t unit) :=
  core_start (psa := Toy.psa) (kdf := ToyKdf.kdf) (lib := Tree.lib live_files) (target := indefinite_target)
    (nng := ex_nng) ex_json_file (fun _ => None) (fun w _ => (w, None)) true ex_readings
    (fun a _ _ => (a, None)) live_config tt tt (mk_loading tt 2 [("/boot", "1")]) ex_hub.

Definition live_turns : list (turn (A := unit) (W := unit)) :=
  [TurnTick; TurnMessage (ex_event "/t" "31.5"); TurnMessage (ex_event "/d" "0.5"); TurnFeed;
   TurnApp tt 5 [ex_event "/x" "7"]; TurnMessage (ex_event "/t" "20"); TurnRefresh tt].

