(* ===== verification/Slice.v ===== *)
(** * A module's device slice

    What both interface modules do with the registry the manifest service hands them:
    [index_by_di], [resolve_index] and [merge_slice], which src/src/han/wifi/wifi.c and
    src/src/han/ble/ble.c each hold as static functions of the same text. A registry
    index is a position in the list of devices; the return value -1 is [None]. *)

From S2P Require Import Prelude CLib HesCommon Json Devreg.

Definition dev_with_online (b : bool) (d : hes_device_t) : hes_device_t :=
  mk_device (hd_device_index d) (hd_net_ref_index d) (hd_role d) (hd_expected_hardware d)
    (hd_network_type d) (hd_address d) (hd_udp_port d) b (hd_objects d).

(** [snprintf] into the 64 bytes of the struct's member. *)
Definition dev_with_address (a : string) (d : hes_device_t) : hes_device_t :=
  mk_device (hd_device_index d) (hd_net_ref_index d) (hd_role d) (hd_expected_hardware d)
    (hd_network_type d) (hes_strlcpy 64 a) (hd_udp_port d) (hd_online d) (hd_objects d).

Definition dev_with_port (p : Z) (d : hes_device_t) : hes_device_t :=
  mk_device (hd_device_index d) (hd_net_ref_index d) (hd_role d) (hd_expected_hardware d)
    (hd_network_type d) (hd_address d) p (hd_online d) (hd_objects d).

Definition reg_with_devices (ds : list hes_device_t) (r : hes_devreg_t) : hes_devreg_t :=
  mk_devreg (dr_gateway_id r) (dr_module_type r) (dr_module_ref_index r) (dr_network_type r) ds.

Definition set_online (i : nat) (b : bool) (r : hes_devreg_t) : hes_devreg_t :=
  reg_with_devices (alter (dev_with_online b) i (dr_devices r)) r.

Definition index_by_di (reg : hes_devreg_t) (di : Z) : option nat :=
  fst <$> list_find (fun d => hd_device_index d = di) (dr_devices reg).

(** An online device that exposes the path. *)
Definition serves (path : string) (d : hes_device_t) : bool :=
  match hes_dev_object_find d path with Some _ => hd_online d | None => false end.

(** The scan of the second half: a second match ends it. *)
Fixpoint lone_match (p : hes_device_t -> bool) (i : nat) (ds : list hes_device_t)
  (found : option nat) : option nat :=
  match ds with
  | [] => found
  | d :: ds' =>
      if p d then match found with
                  | Some _ => None
                  | None => lone_match p (S i) ds' (Some i)
                  end
      else lone_match p (S i) ds' found
  end.

Definition resolve_index (reg : hes_devreg_t) (path : string) (di : Z) : option nat :=
  let named := let* i := index_by_di reg di in
               let* d := dr_devices reg !! i in
               if serves path d then Some i else None in
  match named with
  | Some i => Some i
  | None => if negb (di =? 0) then None else lone_match (serves path) 0 (dr_devices reg) None
  end.

Definition merge_device (upd : hes_devreg_t) (d : hes_device_t) : hes_device_t :=
  match (let* j := index_by_di upd (hd_device_index d) in dr_devices upd !! j) with
  | None => d
  | Some u =>
      let d := dev_with_online (hd_online u) d in
      if hd_address u =?s "" then d else dev_with_address (hd_address u) d
  end.

Definition merge_slice (reg upd : hes_devreg_t) : hes_devreg_t :=
  reg_with_devices (merge_device upd <$> dr_devices reg) reg.

(** ** Lookups *)

Lemma index_by_di_Some reg di i :
  index_by_di reg di = Some i <->
  exists d, dr_devices reg !! i = Some d /\ hd_device_index d = di /\
    forall j d', (j < i)%nat -> dr_devices reg !! j = Some d' -> hd_device_index d' <> di.
Proof.
  unfold index_by_di. rewrite fmap_Some. split.
  - intros ([k d] & (Hk & Hd & Hlt)%list_find_Some & ->). exists d. eauto.
  - intros (d & Hi & Hd & Hlt). exists (i, d). split; [|done]. apply list_find_Some. eauto.
Qed.

Lemma index_by_di_None reg di :
  index_by_di reg di = None <-> Forall (fun d => hd_device_index d <> di) (dr_devices reg).
Proof. unfold index_by_di. by rewrite fmap_None, list_find_None. Qed.

Lemma index_by_di_ext reg reg' di :
  hd_device_index <$> dr_devices reg = hd_device_index <$> dr_devices reg' ->
  index_by_di reg di = index_by_di reg' di.
Proof.
  unfold index_by_di. generalize (dr_devices reg), (dr_devices reg').
  induction l as [|d l IH]; intros [|d' l'] [=]; [done|]. cbn [list_find].
  replace (hd_device_index d') with (hd_device_index d) by done.
  destruct (decide (hd_device_index d = di)); [done|].
  specialize (IH l' ltac:(done)). destruct (list_find _ l) as [[? ?]|], (list_find _ l') as [[? ?]|];
    simpl in *; congruence.
Qed.

Lemma serves_spec path d :
  serves path d = true <-> hd_online d = true /\ exists o, hes_dev_object_find d path = Some o.
Proof.
  unfold serves. destruct (hes_dev_object_find d path); split; try done.
  - intros ->. eauto.
  - by intros [? _].
  - by intros [_ [? ?]].
Qed.

Lemma lone_match_found p i ds k :
  lone_match p i ds (Some k) = (if existsb p ds then None else Some k).
Proof. revert i. induction ds as [|d ds IH]; intros i; cbn; [done|]. destruct (p d); [done|apply IH]. Qed.

Lemma lone_match_Some p i ds k :
  lone_match p i ds None = Some k <->
  exists d, (i <= k)%nat /\ ds !! (k - i)%nat = Some d /\ p d = true /\
    forall j d', ds !! j = Some d' -> p d' = true -> j = (k - i)%nat.
Proof.
  revert i. induction ds as [|d ds IH]; intros i; cbn [lone_match].
  { split; [done|]. by intros (? & _ & ? & _). }
  destruct (p d) eqn:Ed.
  - rewrite lone_match_found. destruct (existsb p ds) eqn:Ee.
    + split; [done|]. intros (d0 & Hik & Hk & Hp & Hu). exfalso.
      apply existsb_exists in Ee as (x & Hx & Hpx). apply list_elem_of_In, list_elem_of_lookup in Hx as [j Hj].
      pose proof (Hu 0%nat d eq_refl Ed). pose proof (Hu (S j) x Hj Hpx). lia.
    + split.
      * intros [= ->]. exists d. rewrite Nat.sub_diag. repeat split; [lia|done|].
        intros [|j] d' Hj Hp; [done|]. exfalso.
        assert (existsb p ds = true); [|congruence]. apply existsb_exists. exists d'.
        split; [|done]. by apply list_elem_of_In, (list_elem_of_lookup_2 _ j).
      * intros (d0 & Hik & Hk & Hp & Hu). pose proof (Hu 0%nat d eq_refl Ed). f_equal. lia.
  - rewrite IH. split.
    + intros (d0 & Hik & Hk & Hp & Hu). exists d0. replace (k - i)%nat with (S (k - S i)) by lia.
      repeat split; [lia|done|done|]. intros [|j] d' Hj Hpj; [simpl in Hj; congruence|].
      f_equal. by apply (Hu j d').
    + intros (d0 & Hik & Hk & Hp & Hu). destruct (k - i)%nat as [|m] eqn:Em; [simpl in Hk; congruence|].
      exists d0. replace (k - S i)%nat with m by lia. repeat split; [lia|done|done|].
      intros j d' Hj Hpj. specialize (Hu (S j) d' Hj Hpj). lia.
Qed.

Lemma resolve_index_serves reg path di i :
  resolve_index reg path di = Some i ->
  exists d, dr_devices reg !! i = Some d /\ serves path d = true /\
    (di <> 0 -> hd_device_index d = di).
Proof.
  unfold resolve_index. destruct (index_by_di reg di) as [k|] eqn:Ek; simpl.
  - apply index_by_di_Some in Ek as (d & Hd & Hdi & _). rewrite Hd. simpl.
    destruct (serves path d) eqn:Es; [intros [= <-]; exists d; by repeat split|].
    destruct (di =? 0) eqn:E0; simpl; [|done]. apply Z.eqb_eq in E0.
    intros (d' & _ & Hd' & Hs & _)%lone_match_Some. rewrite Nat.sub_0_r in Hd'. by exists d'.
  - destruct (di =? 0) eqn:E0; simpl; [|done]. apply Z.eqb_eq in E0.
    intros (d' & _ & Hd' & Hs & _)%lone_match_Some. rewrite Nat.sub_0_r in Hd'. by exists d'.
Qed.

(** What no step of a module changes of a slice. *)
Definition same_shape (r r' : hes_devreg_t) : Prop :=
  (fun d => (hd_device_index d, hd_objects d)) <$> dr_devices r =
  (fun d => (hd_device_index d, hd_objects d)) <$> dr_devices r'.

#[export] Instance same_shape_equivalence : Equivalence same_shape.
Proof. split; unfold same_shape; [by intros ?|by intros ?|intros ? ? ?; congruence]. Qed.

Lemma same_shape_merge reg upd : same_shape (merge_slice reg upd) reg.
Proof.
  unfold same_shape, merge_slice. simpl. rewrite <- list_fmap_compose. apply list_fmap_ext.
  intros i d _. unfold compose, merge_device. destruct (let* j := _ in _) as [u|]; [|done].
  by destruct (hd_address u =?s "").
Qed.

Lemma same_shape_set_online i b reg : same_shape (set_online i b reg) reg.
Proof.
  unfold same_shape, set_online. simpl. apply list_eq. intros j. rewrite !list_lookup_fmap, list_lookup_alter.
  case_decide; [subst|done]. by destruct (dr_devices reg !! j).
Qed.

Lemma same_shape_lookup r r' i d :
  same_shape r r' -> dr_devices r !! i = Some d ->
  exists d', dr_devices r' !! i = Some d' /\ hd_device_index d' = hd_device_index d /\
    hd_objects d' = hd_objects d.
Proof.
  intros Hs Hd. pose proof (f_equal (fun l => l !! i) Hs) as H. simpl in H.
  rewrite !list_lookup_fmap, Hd in H. simpl in H. destruct (dr_devices r' !! i) as [d'|]; [|done].
  simpl in H. exists d'. split; [done|]. by simplify_eq.
Qed.

#[export] Hint Resolve same_shape_merge same_shape_set_online : hes.
