(* ===== verification/ModuleLive.v ===== *)
(** * What keeps an interface module alive

    Both interface modules keep a registry within its bounds and talk to the manifest
    service; here is what they need of it so that none of their calls leaves a buffer. *)

From S2P Require Import Prelude CLib HesCommon Json Devreg Slice Mreg ManifestFacts.

(** ** Registries within their bounds *)

Lemma recv_text_total n msg : (String.length msg < n)%nat -> exists text, recv_text n msg = Some text.
Proof. intros H. unfold recv_text. cbn [nng_recv]. rewrite (proj2 (Nat.leb_gt _ _)) by lia. by eexists. Qed.

Lemma merge_device_fits upd d : device_fits d -> device_fits (merge_device upd d).
Proof.
  intros H. unfold merge_device. destruct (let* j := _ in dr_devices upd !! j) as [u|]; [|done].
  destruct (hd_address u =?s ""); [exact H|]. destruct H as (? & ? & ? & ? & ? & ? & _ & ? & ?).
  do 6 (split; [done|]). split; [apply hes_strlcpy_fits; lia|done].
Qed.

Lemma fits_with_devices r ds :
  devreg_fits r -> (length ds <= HES_DEVREG_MAX_DEVICES)%nat -> Forall device_fits ds -> devreg_fits (reg_with_devices ds r).
Proof. intros [? ? ? ? _] Hl Hf. by split. Qed.

Lemma merge_slice_fits reg upd : devreg_fits reg -> devreg_fits (merge_slice reg upd).
Proof.
  intros H. pose proof H as [_ _ _ _ [Hl Hf]]. apply fits_with_devices; [done|by rewrite length_fmap|].
  apply Forall_fmap. eapply Forall_impl; [exact Hf|]. intros d. apply merge_device_fits.
Qed.

Lemma set_online_fits i b reg : devreg_fits reg -> devreg_fits (set_online i b reg).
Proof.
  intros H. pose proof H as [_ _ _ _ [Hl Hf]]. apply fits_with_devices; [done|by rewrite length_alter|].
  apply Forall_alter; [done|]. by intros d _ ?.
Qed.

(** ** The manifest service *)

(** Its slices and its acknowledgements fit the client's buffers. *)
Record service_fits {W : Type} (service : W -> string -> W * option string) : Prop := {
  sf_slice : forall w m ans, snd (service w (query_request m)) = Some ans ->
    (String.length ans < HES_MREG_REPLY_MAX)%nat;
  sf_ack : forall w m reg req ans, report_request m reg = Some req -> snd (service w req) = Some ans ->
    (String.length ans < HES_MREG_REPORT_REPLY_MAX)%nat;
}.

(** What a module's sockets bring: a notification that fits the client's buffer, or an error. *)
Definition notification_fits (incoming : string + Z) : Prop :=
  match incoming with inl msg => (String.length msg < HES_MREG_REPLY_MAX)%nat | inr _ => True end.

Section live.
Context {target : Target} {W : Type}.
Variable json_loads : string -> option json.
Variable service : W -> string -> W * option string.
Hypothesis Hservice : service_fits service.

Lemma report_total w m reg : handle_fits m -> devreg_fits reg -> exists w' rv, hes_mreg_report service w m reg = Some (w', rv).
Proof.
  intros Hm Hr. unfold hes_mreg_report. destruct (report_request_complete m reg Hm Hr) as (req & Hreq & _). rewrite Hreq.
  cbn. unfold req_reply. pose proof (fun ans => sf_ack _ Hservice w m reg req ans Hreq) as Hs.
  destruct (service w req) as [w1 [ans|]]; [|by eexists _, _].
  destruct (recv_text_total HES_MREG_REPORT_REPLY_MAX ans) as [t ->]; [by apply Hs|]. by eexists _, _.
Qed.

Lemma query_total w m reg : exists w' reg' rv, hes_mreg_query json_loads service w m reg = Some (w', reg', rv).
Proof.
  unfold hes_mreg_query, req_reply. pose proof (sf_slice _ Hservice w m) as Hs.
  destruct (service w (query_request m)) as [w1 [ans|]]; [|by eexists _, _, _].
  destruct (recv_text_total HES_MREG_REPLY_MAX ans) as [text ->]; [by apply Hs|]. cbn.
  destruct (parse_slice _ _ _) as [reg' rv]. by eexists _, _, _.
Qed.

Lemma recv_update_total m reg incoming : notification_fits incoming ->
  exists upd rv, hes_mreg_recv_update json_loads m reg incoming = Some (upd, rv).
Proof.
  unfold notification_fits, hes_mreg_recv_update. intros Hi. destruct incoming as [msg|rv]; [|by eexists _, _].
  destruct (recv_text_total HES_MREG_REPLY_MAX msg Hi) as [text ->]. cbn.
  destruct (parse_slice _ _ _) as [upd rv]. by eexists _, _.
Qed.

(** The report of start-up, [prepare] being what the module sets in its devices before it. *)
Lemma first_report_total prepare w m reg :
  (forall d, device_fits d -> device_fits (prepare d)) -> handle_fits m -> devreg_fits reg ->
  exists w' rv, hes_mreg_report service w m (reg_with_devices (prepare <$> dr_devices reg) reg) = Some (w', rv).
Proof.
  intros Hprepare Hm Hr. apply report_total; [done|]. pose proof Hr as [_ _ _ _ [Hl Hf]].
  apply fits_with_devices; [done|by rewrite length_fmap|]. apply Forall_fmap.
  eapply Forall_impl; [exact Hf|]. exact Hprepare.
Qed.
End live.
