(* ===== verification/Wiz.v ===== *)
(** * The WiZ client

    Models src/src/han/wifi/wiz_client.c: one UDP request to a bulb and the reply that
    belongs to it, and the calls that set and read its state, colour and brightness.
    The kernel's side of a socket is the class [Udp]: what reached it while nobody was
    looking, and what reaches it after a send, each arrival within the receive timeout of
    the one before; the queue a socket holds is a field of the client. Signed overflow is
    [None]. *)

From S2P Require Import Prelude CLib HesCommon Json Devreg.

Definition MAX_PACKET_BUF_SIZE : nat := 512.
Definition WIZ_MAX_IGNORED_REPLIES : nat := 4.
Definition WIZ_SEND_ATTEMPTS : nat := 2.

(** ** The transport *)

(** What [recvfrom] finds: a datagram, or an error other than the timeout. *)
Inductive arrival := Datagram (data : string) | RecvError.

Class Udp (W : Type) := {
  (** [socket]: the descriptor, negative when it failed *)
  udp_socket : W -> W * Z;
  (** what reached the socket since it was last looked at *)
  udp_late : W -> Z -> W * list arrival;
  (** [sendto] an address and port: [None] when it failed, else what arrives before the
      socket times out *)
  udp_sendto : W -> Z -> bytes -> Z -> string -> W * option (list arrival);
}.

(** [inet_pton(AF_INET, ...)]: [octets] are the finished bytes, [cur] the one being read. *)
Fixpoint inet_pton_from (s : string) (saw_digit : bool) (cur : Z) (octets : bytes) : option bytes :=
  match s with
  | EmptyString => if (saw_digit && (length octets =? 3)%nat)%bool then Some (octets ++ [cur]) else None
  | String c s' =>
      if isdigit c then
        let new := cur * 10 + (code c - code "0") in
        if (saw_digit && (cur =? 0))%bool then None
        else if 255 <? new then None
        else inet_pton_from s' true new octets
      else if (Ascii.eqb c "." && saw_digit)%bool then
        if (length octets =? 3)%nat then None else inet_pton_from s' false 0 (octets ++ [cur])
      else None
  end.

Definition inet_pton (s : string) : option bytes := inet_pton_from s false 0 [].

(** ** The exchange *)

Record wiz_client_t := mk_wiz {
  wc_fd : Z;
  wc_ip : string;
  wc_port : Z;
  wc_queue : list arrival;
}.

Definition wiz_with_queue (q : list arrival) (c : wiz_client_t) : wiz_client_t :=
  mk_wiz (wc_fd c) (wc_ip c) (wc_port c) q.

Inductive await_result := Answered (resp : string) | TimedOut (ignored : nat) | GaveUp.

Section client.
Context {target : Target} {W : Type} {udp : Udp W}.
Variable json_loads : string -> option json.

Definition reply_is_answer (resp method : string) : bool :=
  match json_loads resp with
  | None => true
  | Some root =>
      match json_object_get (Some root) "method" with
      | Some (JString m) => m =?s method
      | _ => true
      end
  end.

(** The drain ends at an error, an empty datagram or an empty queue. *)
Fixpoint drain (q : list arrival) : list arrival :=
  match q with
  | [] => []
  | RecvError :: q' => q'
  | Datagram d :: q' => if d =?s "" then q' else drain q'
  end.

Definition drop_stale (w : W) (c : wiz_client_t) : W * wiz_client_t :=
  let '(w, late) := udp_late w (wc_fd c) in
  (w, wiz_with_queue (drain (wc_queue c ++ late)) c).

(** The text a datagram leaves in the reply buffer. *)
Definition reply_text (d : string) : string := c_string (str_take (MAX_PACKET_BUF_SIZE - 1) d).

(** The receive loop: its outcome and what stays in the queue. *)
Fixpoint await (method : string) (q : list arrival) (ignored : nat) : await_result * list arrival :=
  match q with
  | [] => (TimedOut ignored, [])
  | RecvError :: q' => (GaveUp, q')
  | Datagram d :: q' =>
      if reply_is_answer (reply_text d) method then (Answered (reply_text d), q')
      else if (WIZ_MAX_IGNORED_REPLIES <? S ignored)%nat then (GaveUp, q')
      else await method q' (S ignored)
  end.

Fixpoint attempts (left : nat) (first : bool) (addr : bytes) (method req : string)
  (w : W) (c : wiz_client_t) (ignored : nat) : W * wiz_client_t * option string :=
  match left with
  | O => (w, c, None)
  | S left' =>
      let '(w, c) := if first then drop_stale w c else (w, c) in
      let '(w, arrived) := udp_sendto w (wc_fd c) addr (uint16 (wc_port c)) req in
      match arrived with
      | None => (w, c, None)
      | Some l =>
          let '(r, q) := await method (wc_queue c ++ l) ignored in
          let c := wiz_with_queue q c in
          match r with
          | Answered resp => (w, c, Some resp)
          | GaveUp => (w, c, None)
          | TimedOut ignored => attempts left' false addr method req w c ignored
          end
      end
  end.

Definition wiz_send_recv (w : W) (c : wiz_client_t) (method req : string)
  : W * wiz_client_t * option string :=
  match inet_pton (wc_ip c) with
  | None => (w, c, None)
  | Some addr => attempts WIZ_SEND_ATTEMPTS true addr method req w c 0
  end.

(** ** Replies *)

Definition parse_reply (resp : string) : option json := json_loads resp.

Definition reply_field (root : json) (key : string) : option json :=
  match json_object_get (Some root) "result" with
  | Some (JObject ms) =>
      match json_object_get (Some (JObject ms)) key with
      | Some v => Some v
      | None => json_object_get (Some root) key
      end
  | _ => json_object_get (Some root) key
  end.

(** A numeric field, converted by [(int)json_number_value(...)]. *)
Definition int_field (root : json) (key : string) : option Z :=
  let* v := reply_field root key in
  let* d := json_number_value v in
  Some (d_to_int d).

Definition clamp255 (v : Z) : Z := if v <? 0 then 0 else if 255 <? v then 255 else v.
Definition clamp100 (v : Z) : Z := if v <? 0 then 0 else if 100 <? v then 100 else v.

(** The result of an [int] operation; [None]: it overflows. *)
Definition int_result (x : Z) : option Z :=
  if ((- 2 ^ 31 <=? x) && (x <? 2 ^ 31))%bool then Some x else None.

(** ** The calls *)

Definition wiz_client_open (w : W) (ip : string) (port : Z) : W * wiz_client_t * Z :=
  let '(w, fd) := udp_socket w in
  (w, mk_wiz fd (hes_strlcpy 64 ip) port [], if fd <? 0 then -1 else 0).

(** A set call: any reply at all is its success. *)
Definition set_pilot (w : W) (c : wiz_client_t) (params : string) : W * wiz_client_t * Z :=
  let req := str_take (MAX_PACKET_BUF_SIZE - 1)
               (dq "{'method':'setPilot','params':{" ++ params ++ "}}")%string in
  let '(w, c, r) := wiz_send_recv w c "setPilot" req in
  (w, c, match r with Some _ => 0 | None => -1 end).

Definition get_pilot (w : W) (c : wiz_client_t) : W * wiz_client_t * option json :=
  let '(w, c, r) := wiz_send_recv w c "getPilot" (dq "{'method':'getPilot','params':{}}") in
  (w, c, let* resp := r in parse_reply resp).

Definition wiz_client_set_state (w : W) (c : wiz_client_t) (on : bool) : W * wiz_client_t * Z :=
  set_pilot w c (dq "'state':" ++ (if on then "true" else "false"))%string.

Definition state_of_reply (root : json) : option bool :=
  match reply_field root "state" with
  | Some (JBool b) => Some b
  | _ => None
  end.

Definition wiz_client_get_state (w : W) (c : wiz_client_t) : W * wiz_client_t * option bool :=
  let '(w, c, root) := get_pilot w c in
  (w, c, let* root := root in state_of_reply root).

Definition wiz_client_set_rgb (w : W) (c : wiz_client_t) (r g b : Z) : W * wiz_client_t * Z :=
  set_pilot w c (dq "'r':" ++ fmt_d (clamp255 r) ++ dq ",'g':" ++ fmt_d (clamp255 g) ++
                 dq ",'b':" ++ fmt_d (clamp255 b))%string.

Definition rgb_of_reply (root : json) : option (Z * Z * Z) :=
  match int_field root "r", int_field root "g", int_field root "b" with
  | Some r, Some g, Some b => Some (r, g, b)
  | _, _, _ => None
  end.

Definition wiz_client_get_rgb (w : W) (c : wiz_client_t) : W * wiz_client_t * option (Z * Z * Z) :=
  let '(w, c, root) := get_pilot w c in
  (w, c, let* root := root in rgb_of_reply root).

(** The outer [None] is the signed overflow of [peak * 100 + 127]. *)
Definition brightness_of_reply (root : json) : option (option Z) :=
  match int_field root "dimming" with
  | Some level => Some (Some (clamp100 level))
  | None =>
      match rgb_of_reply root with
      | None => Some None
      | Some (r, g, b) =>
          let peak := r in
          let peak := if peak <? g then g else peak in
          let peak := if peak <? b then b else peak in
          let* hundredfold := int_result (peak * 100) in
          let* scaled := int_result (hundredfold + 127) in
          Some (Some (Z.quot scaled 255))
      end
  end.

Definition wiz_client_get_brightness (w : W) (c : wiz_client_t)
  : option (W * wiz_client_t * option Z) :=
  let '(w, c, root) := get_pilot w c in
  match root with
  | None => Some (w, c, None)
  | Some root => let* level := brightness_of_reply root in Some (w, c, level)
  end.

Definition dimming_level (level : Z) : Z :=
  let level := if level <? 10 then 10 else level in
  if 100 <? level then 100 else level.

Definition wiz_client_set_brightness (w : W) (c : wiz_client_t) (level : Z) : W * wiz_client_t * Z :=
  set_pilot w c (dq "'dimming':" ++ fmt_d (dimming_level level))%string.
End client.
