(* ===== verification/WizFacts.v ===== *)
(** * Properties of the WiZ client

    The address parser, the receive loop and the drain, what an exchange may answer, and
    the levels the brightness calls send and report. *)

From S2P Require Import Prelude CLib HesCommon Json Devreg Wiz.

(** ** Addresses *)

(** The digits of one octet, read on their own. *)
Fixpoint feed (s : string) (saw : bool) (cur : Z) : option (bool * Z) :=
  match s with
  | EmptyString => Some (saw, cur)
  | String c s' =>
      let new := cur * 10 + (code c - code "0") in
      if (negb (isdigit c) || (saw && (cur =? 0)) || (255 <? new))%bool then None else feed s' true new
  end.

Lemma feed_spec s rest saw cur octets saw' cur' :
  feed s saw cur = Some (saw', cur') ->
  inet_pton_from (s ++ rest) saw cur octets = inet_pton_from rest saw' cur' octets.
Proof.
  revert saw cur. induction s as [|c s IH]; intros saw cur; cbn [feed].
  { by intros [= -> ->]. }
  destruct (isdigit c) eqn:Ec; simpl; [|done]. rewrite Ec.
  destruct (saw && (cur =? 0))%bool; simpl; [done|]. destruct (255 <? _); [done|]. apply IH.
Qed.

Definition fed_by (n : Z) : bool :=
  match feed (fmt_d n) false 0 with Some (true, m) => m =? n | _ => false end.

Lemma feed_octet n : byte n -> feed (fmt_d n) false 0 = Some (true, n).
Proof.
  intros Hn. assert (H : forallb fed_by (seqZ 0 256) = true) by (vm_compute; reflexivity).
  rewrite forallb_forall in H. specialize (H n). unfold fed_by in H. unfold byte in Hn.
  destruct (feed _ _ _) as [[[] m]|]; rewrite <- list_elem_of_In, elem_of_seqZ in H;
    [f_equal; f_equal; apply Z.eqb_eq, H; lia|..]; exfalso; discriminate H; lia.
Qed.

Definition dotted (a b c d : Z) : string :=
  (fmt_d a ++ "." ++ fmt_d b ++ "." ++ fmt_d c ++ "." ++ fmt_d d)%string.

(** Printing an IPv4 address in dotted decimal and reading it back with [inet_pton]
    gives its four bytes. *)
Theorem inet_pton_dotted a b c d :
  byte a -> byte b -> byte c -> byte d -> inet_pton (dotted a b c d) = Some [a; b; c; d].
Proof.
  intros Ha Hb Hc Hd. unfold inet_pton, dotted.
  rewrite (feed_spec _ _ _ _ _ _ _ (feed_octet a Ha)). simpl.
  rewrite (feed_spec _ _ _ _ _ _ _ (feed_octet b Hb)). simpl.
  rewrite (feed_spec _ _ _ _ _ _ _ (feed_octet c Hc)). simpl.
  rewrite <- (str_app_nil_r (fmt_d d)), (feed_spec _ _ _ _ _ _ _ (feed_octet d Hd)). done.
Qed.

Lemma inet_pton_from_length s saw cur octets l :
  inet_pton_from s saw cur octets = Some l -> length l = 4%nat.
Proof.
  revert saw cur octets. induction s as [|c s IH]; intros saw cur octets; cbn [inet_pton_from].
  - destruct saw, (length octets =? 3)%nat eqn:E; simpl; try done. intros [= <-].
    apply Nat.eqb_eq in E. rewrite length_app. simpl. lia.
  - destruct (isdigit c); [|destruct (_ && _)%bool; [|done]; destruct (_ =? 3)%nat; [done|apply IH]].
    destruct (_ && _)%bool; [done|]. destruct (255 <? _); [done|]. apply IH.
Qed.

Section facts.
Context {target : Target} {W : Type} {udp : Udp W}.
Variable json_loads : string -> option json.

(** ** The receive loop *)

(** A datagram that is recognisably somebody else's. *)
Definition stray (method : string) (a : arrival) : Prop :=
  exists d, a = Datagram d /\ reply_is_answer json_loads (reply_text d) method = false.

Lemma await_strays method s q n :
  Forall (stray method) s -> (n + length s <= WIZ_MAX_IGNORED_REPLIES)%nat ->
  await json_loads method (s ++ q) n = await json_loads method q (n + length s).
Proof.
  intros Hs. revert n. induction Hs as [|a s Ha Hs IH]; intros n Hn.
  { simpl. by rewrite Nat.add_0_r. }
  destruct Ha as (d & -> & Hd). cbn [app await length] in *. rewrite Hd.
  destruct (WIZ_MAX_IGNORED_REPLIES <? S n)%nat eqn:E; [apply Nat.ltb_lt in E; lia|].
  rewrite IH by lia. f_equal. lia.
Qed.

Lemma await_answer method d q n :
  reply_is_answer json_loads (reply_text d) method = true ->
  await json_loads method (Datagram d :: q) n = (Answered (reply_text d), q).
Proof. intros Hd. cbn [await]. by rewrite Hd. Qed.

(** The five ways the loop ends. *)
Lemma await_cases method q n :
  (n <= WIZ_MAX_IGNORED_REPLIES)%nat ->
  exists s rest, q = s ++ rest /\ Forall (stray method) s /\
    ((rest = [] /\ (n + length s <= WIZ_MAX_IGNORED_REPLIES)%nat /\
      await json_loads method q n = (TimedOut (n + length s), [])) \/
     (exists d q', rest = Datagram d :: q' /\ (n + length s <= WIZ_MAX_IGNORED_REPLIES)%nat /\
        reply_is_answer json_loads (reply_text d) method = true /\
        await json_loads method q n = (Answered (reply_text d), q')) \/
     (exists q', rest = RecvError :: q' /\ await json_loads method q n = (GaveUp, q')) \/
     (n + length s = S WIZ_MAX_IGNORED_REPLIES)%nat /\ await json_loads method q n = (GaveUp, rest)).
Proof.
  revert n. induction q as [|a q IH]; intros n Hn.
  { exists [], []. repeat split; [constructor|]. left. simpl. rewrite Nat.add_0_r. auto. }
  destruct a as [d|].
  2: { exists [], (RecvError :: q). repeat split; [constructor|]. right. right. left. by exists q. }
  destruct (reply_is_answer json_loads (reply_text d) method) eqn:Ed.
  { exists [], (Datagram d :: q). repeat split; [constructor|]. right. left. exists d, q.
    rewrite await_answer by done. simpl. repeat split; (done || lia). }
  assert (Hst : stray method (Datagram d)) by (by exists d). cbn [await]. rewrite Ed.
  destruct (WIZ_MAX_IGNORED_REPLIES <? S n)%nat eqn:E.
  { apply Nat.ltb_lt in E. exists [Datagram d], q. repeat split; [by constructor|]. right. right. right.
    simpl. split; [lia|done]. }
  apply Nat.ltb_ge in E. destruct (IH (S n) E) as (s & rest & -> & Hs & H).
  exists (Datagram d :: s), rest. split; [done|]. split; [by constructor|]. cbn [length].
  replace (n + S (length s))%nat with (S n + length s)%nat by lia. exact H.
Qed.

Lemma await_answered method q n resp q' :
  await json_loads method q n = (Answered resp, q') -> reply_is_answer json_loads resp method = true.
Proof.
  revert n. induction q as [|[d|] q IH]; intros n; cbn [await]; [done| |done].
  destruct (reply_is_answer json_loads (reply_text d) method) eqn:Ed; [intros ?; by simplify_eq|].
  destruct (_ <? _)%nat; [done|apply IH].
Qed.

Lemma attempts_answered left first addr method req w c n w' c' resp :
  attempts json_loads left first addr method req w c n = (w', c', Some resp) ->
  reply_is_answer json_loads resp method = true.
Proof.
  revert first w c n. induction left as [|left IH]; intros first w c n; cbn [attempts]; [done|].
  destruct (if first then _ else _) as [w1 c1]. destruct (udp_sendto _ _ _ _ _) as [w2 [l|]]; [|done].
  destruct (await _ _ _ _) as [r q] eqn:Er. destruct r as [resp'| |]; [|apply IH|done].
  intros [= _ _ <-]. by eapply await_answered.
Qed.

Lemma send_recv_answered w c method req w' c' resp :
  wiz_send_recv json_loads w c method req = (w', c', Some resp) ->
  reply_is_answer json_loads resp method = true.
Proof. unfold wiz_send_recv. destruct (inet_pton _); [apply attempts_answered|done]. Qed.

(** ** Where a reply comes from *)

(** The reply is the text of one of these datagrams. *)
Definition came_in (l : list arrival) (resp : string) : Prop := exists d, Datagram d ∈ l /\ resp = reply_text d.

Lemma await_came method q n res q' : await json_loads method q n = (res, q') ->
  (forall a, a ∈ q' -> a ∈ q) /\
  match res with Answered resp => came_in q resp | TimedOut _ => q' = [] | GaveUp => True end.
Proof.
  revert n. induction q as [|[d|] q IH]; intros n; cbn [await].
  - by intros [= <- <-].
  - destruct (reply_is_answer _ _ _).
    { intros [= <- <-]. split; [intros a; by right|]. exists d. split; [by left|done]. }
    destruct (_ <? _)%nat; [intros [= <- <-]; split; [intros a; by right|done]|].
    intros [Hsub Hres]%IH. split; [intros a Ha; right; by apply Hsub|].
    destruct res as [resp| |]; [|done|done]. destruct Hres as (d' & Hd & ->). exists d'. split; [by right|done].
  - intros [= <- <-]. split; [intros a; by right|done].
Qed.

Lemma drain_sub q a : a ∈ drain q -> a ∈ q.
Proof.
  induction q as [|[d|] q IH]; cbn [drain]; [done| |by right].
  destruct (d =?s ""); [by right|]. intros Ha. right. by apply IH.
Qed.

(** A property of everything that arrives holds of what stays queued and of the reply's datagram. *)
Section arrivals.
Variable P : arrival -> Prop.
Hypothesis Plate : forall w fd w' l, udp_late w fd = (w', l) -> Forall P l.
Hypothesis Psent : forall w fd addr port req w' l, udp_sendto w fd addr port req = (w', Some l) -> Forall P l.

Definition reply_arrived (resp : option string) : Prop :=
  forall t, resp = Some t -> exists d, P (Datagram d) /\ t = reply_text d.

Lemma attempts_arrivals left first addr method req w c n w' c' resp :
  attempts json_loads left first addr method req w c n = (w', c', resp) ->
  Forall P (wc_queue c) -> Forall P (wc_queue c') /\ reply_arrived resp.
Proof.
  revert first w c n. induction left as [|left IH]; intros first w c n; cbn [attempts]; [by intros [= <- <- <-]|].
  intros E Hc. assert (Hd : Forall P (wc_queue (snd (if first then drop_stale w c else (w, c))))).
  { destruct first; [|done]. unfold drop_stale. destruct (udp_late w (wc_fd c)) as [w1 late] eqn:El. cbn.
    apply Forall_forall. intros a Ha%drain_sub. apply elem_of_app in Ha as [Ha|Ha].
    - rewrite Forall_forall in Hc. by apply Hc.
    - apply Plate in El. rewrite Forall_forall in El. by apply El. }
  destruct (if first then _ else _) as [w1 c1]. cbn [snd] in Hd.
  destruct (udp_sendto _ _ _ _ _) as [w2 [l|]] eqn:Es; [|by injection E as <- <- <-].
  assert (Hall : Forall P (wc_queue c1 ++ l)) by (apply Forall_app; split; [done|by eapply Psent]).
  destruct (await _ _ _ _) as [res q] eqn:Er. apply await_came in Er as [Hsub Hres].
  assert (Hq : Forall P q) by (apply Forall_forall; intros a Ha%Hsub; rewrite Forall_forall in Hall; by apply Hall).
  destruct res as [resp'|k|]; [|by eapply IH|by injection E as <- <- <-].
  injection E as <- <- <-. split; [done|]. intros t [= <-]. destruct Hres as (d & Hin & ->). exists d.
  split; [|done]. rewrite Forall_forall in Hall. by apply Hall.
Qed.

Lemma send_recv_arrivals w c method req w' c' resp :
  wiz_send_recv json_loads w c method req = (w', c', resp) ->
  Forall P (wc_queue c) -> Forall P (wc_queue c') /\ reply_arrived resp.
Proof.
  unfold wiz_send_recv. destruct (inet_pton _); [apply attempts_arrivals|]. by intros [= <- <- <-].
Qed.
End arrivals.

(** ** The drain *)

Definition nonempty (a : arrival) : Prop := exists d, a = Datagram d /\ d <> "".

Lemma drain_nonempty q : Forall nonempty q -> drain q = [].
Proof.
  induction 1 as [|a q Ha _ IH]; [done|]. destruct Ha as (d & -> & Hd). cbn [drain].
  apply String.eqb_neq in Hd. by rewrite Hd.
Qed.

Lemma drop_stale_clean w c w1 late :
  udp_late w (wc_fd c) = (w1, late) -> Forall nonempty (wc_queue c ++ late) ->
  drop_stale w c = (w1, wiz_with_queue [] c).
Proof. intros Hl Hq. unfold drop_stale. by rewrite Hl, drain_nonempty. Qed.

Lemma exchange_reply_came w c method req addr w1 late w' c' resp :
  inet_pton (wc_ip c) = Some addr ->
  udp_late w (wc_fd c) = (w1, late) -> Forall nonempty (wc_queue c ++ late) ->
  wiz_send_recv json_loads w c method req = (w', c', Some resp) ->
  let send w := udp_sendto w (wc_fd c) addr (uint16 (wc_port c)) req in
  exists w2 l, send w1 = (w2, Some l) /\
    (came_in l resp \/ exists w3 l', send w2 = (w3, Some l') /\ came_in l' resp).
Proof.
  intros Ha Hl Hq H. cbv zeta. revert H. unfold wiz_send_recv, WIZ_SEND_ATTEMPTS. rewrite Ha. cbn [attempts].
  rewrite (drop_stale_clean _ _ _ _ Hl Hq). cbn [wc_fd wc_port wc_queue wiz_with_queue app].
  destruct (udp_sendto w1 _ _ _ _) as [w2 [l|]] eqn:E1; [|done]. intros H.
  exists w2, l. split; [done|]. destruct (await json_loads method l 0) as [res q] eqn:Er.
  apply await_came in Er as [_ Hres]. destruct res as [r1|k|]; [|subst q|done]; [injection H as _ _ <-; by left|].
  revert H. cbn [wc_fd wc_port wc_queue wiz_with_queue app].
  destruct (udp_sendto w2 _ _ _ _) as [w3 [l'|]] eqn:E2; [|done].
  destruct (await json_loads method l' k) as [res q] eqn:Er.
  apply await_came in Er as [_ Hres]. destruct res as [r1|k'|]; [|done|done]. intros H.
  injection H as _ _ <-. right. by exists w3, l'.
Qed.

(** C27: the answer of an exchange belongs to its request. Let no empty datagram and no error be
    waiting at the socket (either would end the drain early). Then whatever is returned is the
    text of a datagram that arrived after one of the two sends of this very exchange, never of
    one that was waiting before, and does not name another method; and a bulb that answers the
    first request behind at most four stray datagrams, or stays silent and answers the second,
    is heard. *)
Theorem exchange_answers_its_request w c method req addr w1 late :
  inet_pton (wc_ip c) = Some addr ->
  udp_late w (wc_fd c) = (w1, late) -> Forall nonempty (wc_queue c ++ late) ->
  let send w := udp_sendto w (wc_fd c) addr (uint16 (wc_port c)) req in
  (forall w' c' resp, wiz_send_recv json_loads w c method req = (w', c', Some resp) ->
     (exists w2 l, send w1 = (w2, Some l) /\
        (came_in l resp \/ exists w3 l', send w2 = (w3, Some l') /\ came_in l' resp)) /\
     forall root m, json_loads resp = Some root -> json_object_get (Some root) "method" = Some (JString m) -> m = method) /\
  (forall w2 s d rest,
     send w1 = (w2, Some (s ++ Datagram d :: rest)) ->
     Forall (stray method) s -> (length s <= WIZ_MAX_IGNORED_REPLIES)%nat ->
     reply_is_answer json_loads (reply_text d) method = true ->
     wiz_send_recv json_loads w c method req = (w2, wiz_with_queue rest c, Some (reply_text d))) /\
  (forall w2 w3 s1 s2 d rest,
     send w1 = (w2, Some s1) ->
     send w2 = (w3, Some (s2 ++ Datagram d :: rest)) ->
     Forall (stray method) (s1 ++ s2) -> (length (s1 ++ s2) <= WIZ_MAX_IGNORED_REPLIES)%nat ->
     reply_is_answer json_loads (reply_text d) method = true ->
     wiz_send_recv json_loads w c method req = (w3, wiz_with_queue rest c, Some (reply_text d))).
Proof.
  intros Ha Hl Hq send. split; [|split].
  - intros w' c' resp H. split.
    + by eapply exchange_reply_came.
    + intros root m Hj Hm. apply send_recv_answered in H. unfold reply_is_answer in H.
      rewrite Hj, Hm in H. by apply String.eqb_eq.
  - intros w2 s d rest Hs Hst Hn Hd. subst send. unfold wiz_send_recv, WIZ_SEND_ATTEMPTS. rewrite Ha. cbn [attempts].
    rewrite (drop_stale_clean _ _ _ _ Hl Hq). cbn [wc_fd wc_port wc_queue wiz_with_queue]. rewrite Hs.
    cbn [app]. rewrite await_strays, await_answer by (done || lia). done.
  - intros w2 w3 s1 s2 d rest Hs1 Hs2 Hst Hn Hd. subst send. apply Forall_app in Hst as [Hst1 Hst2].
    rewrite length_app in Hn. unfold wiz_send_recv, WIZ_SEND_ATTEMPTS. rewrite Ha. cbn [attempts].
    rewrite (drop_stale_clean _ _ _ _ Hl Hq). cbn [wc_fd wc_port wc_queue wiz_with_queue]. rewrite Hs1.
    cbn [app]. rewrite <- (app_nil_r s1), await_strays by (done || lia). cbn [await wc_queue].
    rewrite Hs2. cbn [app]. rewrite await_strays, await_answer by (done || lia). done.
Qed.
End facts.

(** ** Levels *)

Section levels.
Context {target : Target}.

Lemma int_result_in x : - 2 ^ 31 <= x < 2 ^ 31 -> int_result x = Some x.
Proof.
  intros Hx. unfold int_result.
  rewrite (proj2 (Z.leb_le _ x)), (proj2 (Z.ltb_lt x _)) by lia. done.
Qed.

Lemma int_result_out x : ~ (- 2 ^ 31 <= x < 2 ^ 31) -> int_result x = None.
Proof.
  intros Hx. unfold int_result. destruct ((- 2 ^ 31 <=? x) && (x <? 2 ^ 31))%bool eqn:E; [|done].
  bool_hyps. lia.
Qed.

Lemma clamp100_range v : 0 <= clamp100 v <= 100 /\ (0 <= v <= 100 -> clamp100 v = v).
Proof. unfold clamp100. destruct (Z.ltb_spec v 0), (Z.ltb_spec 100 v); lia. Qed.

Lemma dimming_range v : 10 <= dimming_level v <= 100 /\ (10 <= v <= 100 -> dimming_level v = v).
Proof. unfold dimming_level. destruct (Z.ltb_spec v 10); [simpl; lia|]. destruct (Z.ltb_spec 100 v); lia. Qed.

(** The brightest channel, as the code finds it. *)
Lemma peak_is_max r g b :
  (let peak := if r <? g then g else r in if peak <? b then b else peak) = Z.max (Z.max r g) b.
Proof. cbn zeta. destruct (Z.ltb_spec r g); [destruct (Z.ltb_spec g b)|destruct (Z.ltb_spec r b)]; lia. Qed.

Lemma fallback_level root r g b :
  int_field root "dimming" = None -> rgb_of_reply root = Some (r, g, b) ->
  brightness_of_reply root =
    let peak := Z.max (Z.max r g) b in
    let* hundredfold := int_result (peak * 100) in
    let* scaled := int_result (hundredfold + 127) in
    Some (Some (Z.quot scaled 255)).
Proof. intros Hd Hr. unfold brightness_of_reply. rewrite Hd, Hr. cbn zeta. by rewrite peak_is_max. Qed.

(** Brightness is a percentage both ways. A level asked for is sent as itself or as
    the nearer end of 10..100; a level read from the dimming field lies in 0..100, and so
    does one derived from colour channels that are bytes, where it is the brightest
    channel's share of 255 rounded to nearest. A reply with neither is refused. Outside
    bytes the derived level is not clamped, and a channel beyond 21474835 overflows. *)
Theorem brightness_is_a_percentage root :
  (forall level, 10 <= dimming_level level <= 100 /\ (10 <= level <= 100 -> dimming_level level = level)) /\
  (forall v, int_field root "dimming" = Some v ->
     exists l, brightness_of_reply root = Some (Some l) /\ 0 <= l <= 100 /\ (0 <= v <= 100 -> l = v)) /\
  (int_field root "dimming" = None -> rgb_of_reply root = None -> brightness_of_reply root = Some None) /\
  (forall r g b, int_field root "dimming" = None -> rgb_of_reply root = Some (r, g, b) ->
     let peak := Z.max (Z.max r g) b in
     (0 <= peak <= 255 ->
        exists l, brightness_of_reply root = Some (Some l) /\ 0 <= l <= 100 /\ Z.abs (255 * l - 100 * peak) <= 127) /\
     (257 <= peak <= 21474835 -> exists l, brightness_of_reply root = Some (Some l) /\ 100 < l) /\
     (21474835 < peak -> brightness_of_reply root = None)).
Proof.
  split; [apply dimming_range|]. split; [|split].
  - intros v Hv. exists (clamp100 v). unfold brightness_of_reply. rewrite Hv.
    destruct (clamp100_range v). auto.
  - intros Hd Hr. unfold brightness_of_reply. by rewrite Hd, Hr.
  - intros r g b Hd Hr peak. rewrite (fallback_level _ _ _ _ Hd Hr). fold peak. cbn zeta. split; [|split].
    + intros Hp. rewrite int_result_in by lia. cbn. rewrite int_result_in by lia. cbn.
      eexists. split; [done|]. rewrite Z.quot_div_nonneg by lia.
      pose proof (Z.div_mod (peak * 100 + 127) 255). pose proof (Z.mod_pos_bound (peak * 100 + 127) 255). lia.
    + intros Hp. rewrite int_result_in by lia. cbn. rewrite int_result_in by lia. cbn.
      eexists. split; [done|]. rewrite Z.quot_div_nonneg by lia.
      pose proof (Z.div_mod (peak * 100 + 127) 255). pose proof (Z.mod_pos_bound (peak * 100 + 127) 255). lia.
    + intros Hp. unfold int_result at 1. destruct ((_ <=? peak * 100) && _)%bool eqn:E; [|done]. bool_hyps.
      cbn. by rewrite int_result_out by lia.
Qed.
End levels.

(** ** A bulb on a script *)

(** What each send brings back; one datagram is always late. *)
Definition script_udp : Udp (list (option (list arrival))) := {|
  udp_socket w := (w, 3);
  udp_late w _ := (w, [Datagram "late"]);
  udp_sendto w _ _ _ _ := match w with [] => ([], Some []) | r :: w' => (w', r) end;
|}.

Definition script_json (text : string) : option json :=
  if text =?s "ack" then Some (JObject [("method", JString "setPilot")])
  else if text =?s "answer" then
    Some (JObject [("method", JString "getPilot");
                   ("result", JObject [("state", JBool true); ("r", JInteger 0); ("g", JInteger 128);
                                       ("b", JInteger 64)])])
  else None.

Lemma inet_pton_dotted_witness : byte 192 /\ inet_pton (dotted 192 168 1 142) = Some [192; 168; 1; 142].
Proof. split; [|apply (inet_pton_dotted 192 168 1 142)]; unfold byte; lia. Defined.

Lemma exchange_answers_its_request_witness :
  let w := [Some [Datagram "ack"]; Some [Datagram "ack"; Datagram "answer"; Datagram "x"]] in
  let c := mk_wiz 3 "10.0.0.7" 38899 [Datagram "answer"] in
  @wiz_send_recv _ script_udp script_json w c "getPilot" "q"
    = ([], mk_wiz 3 "10.0.0.7" 38899 [Datagram "x"], Some "answer").
Proof.
  intros w c.
  assert (Hq : Forall nonempty (wc_queue c ++ [Datagram "late"]))
    by (repeat constructor; eexists; (split; [reflexivity|discriminate])).
  destruct (@exchange_answers_its_request _ script_udp script_json w c "getPilot" "q" [10; 0; 0; 7] w
              [Datagram "late"] eq_refl eq_refl Hq) as (_ & _ & H).
  apply (H [Some [Datagram "ack"; Datagram "answer"; Datagram "x"]] [] [Datagram "ack"] [Datagram "ack"]
           "answer" [Datagram "x"]); try reflexivity.
  - repeat constructor; eexists; (split; reflexivity).
  - simpl. unfold WIZ_MAX_IGNORED_REPLIES. lia.
Defined.

Lemma brightness_is_a_percentage_witness :
  exists root l, script_json "answer" = Some root /\
    @brightness_of_reply indefinite_target root = Some (Some l) /\ 0 <= l <= 100.
Proof.
  eexists. destruct (@brightness_is_a_percentage indefinite_target
    (default JNull (script_json "answer"))) as (_ & _ & _ & H).
  destruct (H 0 128 64 eq_refl eq_refl) as (H1 & _). destruct H1 as (l & Hl & Hr & _); [vm_compute; split; discriminate|].
  exists l. split; [reflexivity|]. split; [exact Hl|exact Hr].
Defined.
