(* ===== verification/Bus.v ===== *)
(** * The bus between the core and the modules

    Models src/src/common/hes_bus.c, opening, receiving and closing, over NNG's calls;
    the sending half is in [HesCommon]. What a handle's two sockets are is read off the
    history of its calls, so a theorem can say which sockets a failed open leaves behind.
    The filter on the subscriber's side is NNG's own matcher
    (src/deps/nng/src/sp/protocol/pubsub0/sub.c). *)

From S2P Require Import Prelude CLib HesCommon.

Definition HES_BUS_MAX_TOPICS : nat := 16.

(** ** NNG, as the bus calls it *)

Inductive nng_sock := PubSock | SubSock.

#[export] Instance nng_sock_eq_dec : EqDecision nng_sock.
Proof. solve_decision. Defined.

Inductive nng_call :=
| Open (s : nng_sock)
| Listen (s : nng_sock) (url : string)
| Dial (s : nng_sock) (url : string)
| Subscribe (s : nng_sock) (topic : string)
| Close (s : nng_sock)
| Sleep (ms : Z).

(** The calls made so far and what each returned, oldest first. *)
Definition history : Type := list (nng_call * Z).

Class NngBus := { nng_answer : history -> nng_call -> Z }.

Section bus.
Context {nng : NngBus}.

Definition call (c : nng_call) (h : history) : history * Z :=
  let rv := nng_answer h c in (h ++ [(c, rv)], rv).

(** A call whose result the code ignores. *)
Definition run (c : nng_call) (h : history) : history := fst (call c h).

(** ** Opening *)

Definition BUS_DIAL_ATTEMPTS : nat := 50.

Fixpoint dial_loop (attempts : nat) (s : nng_sock) (url : string) (rv : Z) (h : history)
  : history * Z :=
  match attempts with
  | O => (h, rv)
  | S attempts =>
      let '(h, rv) := call (Dial s url) h in
      if rv =? 0 then (h, 0)
      else dial_loop attempts s url rv (run (Sleep 200) h)
  end.

Definition dial_with_retry (s : nng_sock) (url : string) (h : history) : history * Z :=
  dial_loop BUS_DIAL_ATTEMPTS s url 0 h.

Definition hes_bus_hub_open (pub_url sub_url : string) (h : history) : history * Z :=
  let '(h, rv) := call (Open PubSock) h in
  if negb (rv =? 0) then (h, rv)
  else
    let '(h, rv) := call (Listen PubSock pub_url) h in
    if negb (rv =? 0) then (run (Close PubSock) h, rv)
    else
      let '(h, rv) := call (Open SubSock) h in
      if negb (rv =? 0) then (run (Close PubSock) h, rv)
      else
        (* a failed subscription is only reported *)
        let h := run (Subscribe SubSock "") h in
        let '(h, rv) := call (Listen SubSock sub_url) h in
        if negb (rv =? 0) then (run (Close SubSock) (run (Close PubSock) h), rv)
        else (h, 0).

Definition subscriptions (topics : list string) (h : history) : history :=
  fold_left (fun h t => run (Subscribe SubSock t) h) topics h.

Definition hes_bus_leaf_open (hub_pub_url hub_sub_url : string) (topics : list string) (h : history)
  : history * Z :=
  let '(h, rv) := call (Open SubSock) h in
  if negb (rv =? 0) then (h, rv)
  else
    let h := subscriptions (take HES_BUS_MAX_TOPICS topics) h in
    let '(h, rv) := dial_with_retry SubSock hub_pub_url h in
    if negb (rv =? 0) then (run (Close SubSock) h, rv)
    else
      let '(h, rv) := call (Open PubSock) h in
      if negb (rv =? 0) then (run (Close SubSock) h, rv)
      else
        let '(h, rv) := dial_with_retry PubSock hub_sub_url h in
        if negb (rv =? 0) then (run (Close PubSock) (run (Close SubSock) h), rv)
        else (h, 0).

Definition hes_bus_close (h : history) : history := run (Close SubSock) (run (Close PubSock) h).
End bus.

(** ** What a history leaves *)

(** The state of one socket: closed, or open with its endpoints and subscriptions. *)
Record sock_state := mk_sock {
  ss_listening : list string;
  ss_dialed : list string;
  ss_topics : list string;
}.

Definition sock_step (s : nng_sock) (st : option sock_state) (e : nng_call * Z) : option sock_state :=
  let ok := snd e =? 0 in
  match fst e, st with
  | Open s', _ => if (bool_decide (s = s') && ok)%bool then Some (mk_sock [] [] []) else st
  | Close s', _ => if bool_decide (s = s') then None else st
  | Listen s' u, Some k =>
      if (bool_decide (s = s') && ok)%bool
      then Some (mk_sock (ss_listening k ++ [u]) (ss_dialed k) (ss_topics k)) else st
  | Dial s' u, Some k =>
      if (bool_decide (s = s') && ok)%bool
      then Some (mk_sock (ss_listening k) (ss_dialed k ++ [u]) (ss_topics k)) else st
  | Subscribe s' t, Some k =>
      if (bool_decide (s = s') && ok)%bool
      then Some (mk_sock (ss_listening k) (ss_dialed k) (ss_topics k ++ [t])) else st
  | _, _ => st
  end.

Definition socket_after (s : nng_sock) (h : history) : option sock_state :=
  fold_left (sock_step s) h None.

(** ** Receiving *)

Definition NNG_DURATION_INFINITE : Z := -1.
Definition NNG_ETIMEDOUT : Z := 5.

(** [arrives d]: what the socket yields within the duration, a message of the struct's
    size or NNG's error. *)
Definition hes_bus_recv (arrives : Z -> hes_clme_msg_t + Z) (msg : hes_clme_msg_t) (timeout_ms : Z)
  : hes_clme_msg_t * Z :=
  let d := if timeout_ms <? 0 then NNG_DURATION_INFINITE else timeout_ms in
  match arrives d with inl m => (m, 0) | inr rv => (msg, rv) end.

(** ** Delivery *)

(** The bytes of a message: the path fills the struct's first member, [rest] the others. *)
Definition padded (n : nat) (s : string) : string :=
  (s ++ String.string_of_list_ascii (repeat Ascii.zero (n - String.length s)))%string.

Definition msg_body (m : hes_clme_msg_t) (rest : string) : string :=
  (padded HES_PATH_MAX (msg_path m) ++ rest)%string.

Definition sub0_matches (topics : list string) (body : string) : bool :=
  existsb (fun t => if (String.length body <? String.length t)%nat then false
                    else ((String.length t =? 0)%nat || str_prefix t body)%bool) topics.

(** A subscriber with these topics is handed the message. *)
Definition delivered (topics : list string) (m : hes_clme_msg_t) (rest : string) : bool :=
  sub0_matches topics (msg_body m rest).

(** ** The sockets of a history *)

Lemma socket_after_snoc s h e : socket_after s (h ++ [e]) = sock_step s (socket_after s h) e.
Proof. unfold socket_after. by rewrite fold_left_app. Qed.

Section facts.
Context {nng : NngBus}.

Lemma after_run s c h : socket_after s (run c h) = sock_step s (socket_after s h) (c, nng_answer h c).
Proof. apply socket_after_snoc. Qed.

(** What a stretch of calls adds to a history. *)
Definition slept (h : history) : Z :=
  fold_right (fun e n => match fst e with Sleep ms => ms + n | _ => n end) 0 h.

Definition extends (h h' : history) (ms : Z) : Prop := exists es, h' = h ++ es /\ slept es <= ms.

Lemma slept_app h1 h2 : slept (h1 ++ h2) = slept h1 + slept h2.
Proof.
  induction h1 as [|[c rv] h1 IH]; [done|]. cbn. fold (slept (h1 ++ h2)) (slept h1). rewrite IH.
  destruct c; lia.
Qed.

Lemma extends_refl h : extends h h 0.
Proof. exists []. by rewrite app_nil_r. Qed.

Lemma extends_trans h1 h2 h3 a b : extends h1 h2 a -> extends h2 h3 b -> extends h1 h3 (a + b).
Proof.
  intros (e1 & -> & H1) (e2 & -> & H2). exists (e1 ++ e2). rewrite app_assoc, slept_app. split; [done|lia].
Qed.

Lemma extends_le h h' a b : a <= b -> extends h h' a -> extends h h' b.
Proof. intros Hab (es & -> & H). exists es. split; [done|lia]. Qed.

Lemma extends_run c h : extends h (run c h) (match c with Sleep ms => ms | _ => 0 end).
Proof. exists [(c, nng_answer h c)]. split; [done|]. destruct c; cbn; lia. Qed.

(** Dialing leaves the other socket alone, and connects exactly when it returns 0. *)
Lemma dial_loop_spec n s url rv0 h h' rv :
  dial_loop n s url rv0 h = (h', rv) ->
  extends h h' (200 * Z.of_nat n) /\
  (forall s', s' <> s -> socket_after s' h' = socket_after s' h) /\
  (n <> O -> forall k, socket_after s h = Some k ->
     socket_after s h' = Some (if rv =? 0 then mk_sock (ss_listening k) (ss_dialed k ++ [url]) (ss_topics k)
                               else k)).
Proof.
  revert rv0 h. induction n as [|n IH]; intros rv0 h; cbn [dial_loop].
  { intros [= <- <-]. split; [apply extends_refl|done]. }
  unfold call. destruct (nng_answer h (Dial s url) =? 0) eqn:E.
  - intros [= <- <-]. split; [|split].
    + exists [(Dial s url, nng_answer h (Dial s url))]. split; [done|]. simpl. lia.
    + intros s' Hs. rewrite socket_after_snoc. cbn. destruct (socket_after s' h); [|done].
      by rewrite bool_decide_eq_false_2.
    + intros _ k Hk. rewrite socket_after_snoc, Hk. cbn. by rewrite bool_decide_eq_true_2, E.
  - set (h1 := run (Sleep 200) (run (Dial s url) h)). intros H. destruct (IH _ _ H) as (He & Ho & Hs). split; [|split].
    + eapply extends_trans in He; [|eapply extends_trans; apply extends_run].
      destruct He as (es & -> & ?). exists es. split; [done|]. lia.
    + intros s' Hne. rewrite Ho by done. unfold h1. rewrite after_run, socket_after_snoc. cbn.
      destruct (socket_after s' h); [|done]. by rewrite bool_decide_eq_false_2.
    + intros _ k Hk.
      assert (Hk1 : socket_after s h1 = Some k).
      { unfold h1. rewrite !after_run, Hk. cbn. by rewrite E, andb_false_r. }
      destruct n; [|by apply Hs]. cbn in H. injection H as <- <-.
      etrans; [exact Hk1|by rewrite E].
Qed.

Lemma dial_spec s url h h' rv :
  dial_with_retry s url h = (h', rv) ->
  extends h h' 10000 /\
  (forall s', s' <> s -> socket_after s' h' = socket_after s' h) /\
  (forall k, socket_after s h = Some k ->
     socket_after s h' = Some (if rv =? 0 then mk_sock (ss_listening k) (ss_dialed k ++ [url]) (ss_topics k)
                               else k)).
Proof. intros H. destruct (dial_loop_spec _ _ _ _ _ _ _ H) as (He & Ho & Hs). split_and!; [done|done|by apply Hs]. Qed.

(** The topics whose subscription returned 0. *)
Fixpoint accepted (h : history) (topics : list string) : list string :=
  match topics with
  | [] => []
  | t :: ts =>
      if nng_answer h (Subscribe SubSock t) =? 0 then t :: accepted (run (Subscribe SubSock t) h) ts
      else accepted (run (Subscribe SubSock t) h) ts
  end.

Lemma accepted_sublist h topics : accepted h topics `sublist_of` topics.
Proof.
  revert h. induction topics as [|t ts IH]; intros h; [done|]. cbn.
  destruct (_ =? 0); by constructor.
Qed.

Lemma accepted_all h topics :
  (forall h t, nng_answer h (Subscribe SubSock t) = 0) -> accepted h topics = topics.
Proof. intros Ha. revert h. induction topics as [|t ts IH]; intros h; [done|]. cbn. by rewrite Ha, IH. Qed.

Lemma subscriptions_spec ts h k :
  socket_after SubSock h = Some k ->
  extends h (subscriptions ts h) 0 /\
  socket_after PubSock (subscriptions ts h) = socket_after PubSock h /\
  socket_after SubSock (subscriptions ts h) =
    Some (mk_sock (ss_listening k) (ss_dialed k) (ss_topics k ++ accepted h ts)).
Proof.
  revert h k. induction ts as [|t ts IH]; intros h k Hk.
  { split; [apply extends_refl|]. cbn. rewrite app_nil_r. split; [done|]. etrans; [exact Hk|by destruct k]. }
  change (subscriptions (t :: ts) h) with (subscriptions ts (run (Subscribe SubSock t) h)).
  destruct (IH (run (Subscribe SubSock t) h)
    (if nng_answer h (Subscribe SubSock t) =? 0
     then mk_sock (ss_listening k) (ss_dialed k) (ss_topics k ++ [t]) else k)) as (He & Hp & Hs).
  { rewrite after_run, Hk. cbn. by destruct (_ =? 0). }
  split; [|split].
  - exact (extends_trans _ _ _ 0 0 (extends_run (Subscribe SubSock t) h) He).
  - rewrite Hp, after_run. cbn. by destruct (socket_after PubSock h).
  - rewrite Hs. cbn [accepted]. destruct (_ =? 0); cbn; [by rewrite <- app_assoc|done].
Qed.
End facts.

(** ** Opening is all or nothing *)

Definition closed (h : history) : Prop := forall s, socket_after s h = None.

Section opening.
Context {nng : NngBus}.

Lemma call_run c h : call c h = (run c h, nng_answer h c).
Proof. done. Qed.

(** Calls that fail, and closing a socket. *)
Lemma after_failed s c h : (nng_answer h c =? 0) = false ->
  match c with Close _ => False | _ => True end -> socket_after s (run c h) = socket_after s h.
Proof.
  intros E Hc. rewrite after_run. destruct c; try done; cbn;
    destruct (socket_after s h); try done; by rewrite E, andb_false_r.
Qed.

Lemma after_open s h : (nng_answer h (Open s) =? 0) = true ->
  socket_after s (run (Open s) h) = Some (mk_sock [] [] []).
Proof. intros E. rewrite after_run. cbn. by rewrite bool_decide_eq_true_2, E. Qed.

Lemma after_listen s url h k : (nng_answer h (Listen s url) =? 0) = true -> socket_after s h = Some k ->
  socket_after s (run (Listen s url) h) = Some (mk_sock (ss_listening k ++ [url]) (ss_dialed k) (ss_topics k)).
Proof. intros E Hk. rewrite after_run, Hk. cbn. by rewrite bool_decide_eq_true_2, E. Qed.

Lemma after_close s h : socket_after s (run (Close s) h) = None.
Proof. rewrite after_run. cbn. by rewrite bool_decide_eq_true_2. Qed.

(** A call touches its own socket only. *)
Definition sock_of (c : nng_call) : option nng_sock :=
  match c with
  | Open s | Listen s _ | Dial s _ | Subscribe s _ | Close s => Some s
  | Sleep _ => None
  end.

Lemma after_other s c h : sock_of c <> Some s -> socket_after s (run c h) = socket_after s h.
Proof.
  intros Hs. rewrite after_run. destruct c; cbn in *; try rewrite bool_decide_eq_false_2 by congruence;
    cbn; by destruct (socket_after s h).
Qed.

Lemma closed_pair h : socket_after PubSock h = None -> socket_after SubSock h = None -> closed h.
Proof. by intros ? ? []. Qed.

Lemma close_closed h : closed (hes_bus_close h).
Proof. apply closed_pair; unfold hes_bus_close; [rewrite after_other by done|]; apply after_close. Qed.

(** Both outcomes of opening a leaf. *)
Lemma leaf_open_sockets pub sub topics h h' rv :
  closed h -> hes_bus_leaf_open pub sub topics h = (h', rv) ->
  extends h h' 20000 /\
  if rv =? 0
  then socket_after PubSock h' = Some (mk_sock [] [sub] []) /\
       exists h0, socket_after SubSock h' =
         Some (mk_sock [] [pub] (accepted h0 (take HES_BUS_MAX_TOPICS topics)))
  else closed h'.
Proof.
  intros Hc. unfold hes_bus_leaf_open. rewrite call_run. set (h1 := run (Open SubSock) h).
  destruct (nng_answer h (Open SubSock) =? 0) eqn:E1; cbn [negb].
  2: { intros [= <- <-]. rewrite E1. split; [|intros s; unfold h1; rewrite after_failed by done; apply Hc].
       by apply (extends_le _ _ 0); [lia|apply extends_run]. }
  assert (S1 : socket_after SubSock h1 = Some (mk_sock [] [] [])) by by apply after_open.
  assert (P1 : socket_after PubSock h1 = None) by (unfold h1; rewrite after_other by done; apply Hc).
  destruct (subscriptions_spec (take HES_BUS_MAX_TOPICS topics) h1 _ S1) as (X2 & P2 & S2).
  set (h2 := subscriptions _ h1) in *. rewrite P1 in P2.
  destruct (dial_with_retry SubSock pub h2) as [h3 rv3] eqn:E3.
  destruct (dial_spec _ _ _ _ _ E3) as (X3 & O3 & S3). specialize (S3 _ S2). specialize (O3 PubSock ltac:(done)).
  rewrite P2 in O3.
  pose proof (extends_trans _ _ _ _ _ (extends_run (Open SubSock) h) (extends_trans _ _ _ _ _ X2 X3)) as X.
  destruct (rv3 =? 0) eqn:Erv3; cbn [negb].
  2: { intros [= <- <-]. rewrite Erv3. split; [|apply closed_pair; [rewrite after_other by done; done|apply after_close]].
       eapply extends_le; [|exact (extends_trans _ _ _ _ _ X (extends_run (Close SubSock) h3))]; simpl; lia. }
  rewrite call_run. set (h4 := run (Open PubSock) h3).
  assert (S4 : socket_after SubSock h4 = Some (mk_sock [] [pub] (accepted h1 (take HES_BUS_MAX_TOPICS topics))))
    by (unfold h4; rewrite after_other by done; exact S3).
  destruct (nng_answer h3 (Open PubSock) =? 0) eqn:E4; cbn [negb].
  2: { intros [= <- <-]. rewrite E4. split; [|apply closed_pair; [|apply after_close]].
       - eapply extends_le; [|exact (extends_trans _ _ _ _ _ X (extends_trans _ _ _ _ _ (extends_run (Open PubSock) h3)
           (extends_run (Close SubSock) h4)))]; simpl; lia.
       - rewrite after_other by done. unfold h4. by rewrite after_failed. }
  assert (P4 : socket_after PubSock h4 = Some (mk_sock [] [] [])) by by apply after_open.
  destruct (dial_with_retry PubSock sub h4) as [h5 rv5] eqn:E5.
  destruct (dial_spec _ _ _ _ _ E5) as (X5 & O5 & P5). specialize (P5 _ P4). specialize (O5 SubSock ltac:(done)).
  rewrite S4 in O5.
  pose proof (extends_trans _ _ _ _ _ X (extends_trans _ _ _ _ _ (extends_run (Open PubSock) h3) X5)) as X6.
  destruct (rv5 =? 0) eqn:Erv5; cbn [negb]; intros [= <- <-].
  - rewrite Z.eqb_refl. split; [eapply extends_le; [|exact X6]; simpl; lia|].
    split; [exact P5|]. exists h1. exact O5.
  - rewrite Erv5. split; [|apply closed_pair; [apply after_close|rewrite after_other by done; apply after_close]].
    eapply extends_le; [|exact (extends_trans _ _ _ _ _ X6 (extends_trans _ _ _ _ _ (extends_run (Close SubSock) h5)
      (extends_run (Close PubSock) (run (Close SubSock) h5))))]; simpl; lia.
Qed.

(** From two closed sockets hes_bus_leaf_open returns 0 exactly with both sockets
    connected, the subscriber to the hub's publisher with the subscriptions NNG accepted of
    the first 16 topics, and otherwise an error with both closed again; it waits for at most
    twenty seconds between its attempts. *)
Theorem leaf_open_all_or_nothing pub sub topics h h' rv :
  closed h -> hes_bus_leaf_open pub sub topics h = (h', rv) ->
  extends h h' 20000 /\
  if rv =? 0
  then socket_after PubSock h' = Some (mk_sock [] [sub] []) /\
       exists h0, socket_after SubSock h' =
         Some (mk_sock [] [pub] (accepted h0 (take HES_BUS_MAX_TOPICS topics)))
  else closed h'.
Proof. apply leaf_open_sockets. Qed.

(** hes_bus_hub_open returns 0 exactly with both sockets listening and otherwise
    closes both; it also returns 0 when the subscription to everything failed, and the hub
    then hears nothing. *)
Lemma hub_open_sockets pub sub h h' rv :
  closed h -> hes_bus_hub_open pub sub h = (h', rv) ->
  if rv =? 0
  then socket_after PubSock h' = Some (mk_sock [pub] [] []) /\
       exists h0, socket_after SubSock h' =
         Some (mk_sock [sub] [] (if nng_answer h0 (Subscribe SubSock "") =? 0 then [""] else []))
  else closed h'.
Proof.
  intros Hc. unfold hes_bus_hub_open. rewrite call_run. set (h1 := run (Open PubSock) h).
  destruct (nng_answer h (Open PubSock) =? 0) eqn:E1; cbn [negb].
  2: { intros [= <- <-]. rewrite E1. intros s. unfold h1. rewrite after_failed by done. apply Hc. }
  assert (P1 : socket_after PubSock h1 = Some (mk_sock [] [] [])) by by apply after_open.
  assert (S1 : socket_after SubSock h1 = None) by (unfold h1; rewrite after_other by done; apply Hc).
  rewrite call_run. set (h2 := run (Listen PubSock pub) h1).
  assert (S2 : socket_after SubSock h2 = None) by (unfold h2; by rewrite after_other).
  destruct (nng_answer h1 (Listen PubSock pub) =? 0) eqn:E2; cbn [negb].
  2: { intros [= <- <-]. rewrite E2. apply closed_pair; [apply after_close|by rewrite after_other]. }
  assert (P2 : socket_after PubSock h2 = Some (mk_sock [pub] [] [])) by exact (after_listen _ _ _ _ E2 P1).
  rewrite call_run. set (h3 := run (Open SubSock) h2).
  destruct (nng_answer h2 (Open SubSock) =? 0) eqn:E3; cbn [negb].
  2: { intros [= <- <-]. rewrite E3. apply closed_pair; [apply after_close|].
       rewrite after_other by done. unfold h3. by rewrite after_failed. }
  assert (S3 : socket_after SubSock h3 = Some (mk_sock [] [] [])) by by apply after_open.
  assert (P3 : socket_after PubSock h3 = Some (mk_sock [pub] [] [])) by (unfold h3; by rewrite after_other).
  destruct (subscriptions_spec [""] h3 _ S3) as (_ & P4 & S4).
  change (subscriptions [""] h3) with (run (Subscribe SubSock "") h3) in *.
  set (h4 := run (Subscribe SubSock "") h3) in *. rewrite P3 in P4.
  rewrite call_run. destruct (nng_answer h4 (Listen SubSock sub) =? 0) eqn:E5; cbn [negb]; intros [= <- <-].
  - rewrite Z.eqb_refl. rewrite after_other by done. split; [done|]. exists h3.
    rewrite (after_listen _ _ _ _ E5 S4). cbn. by destruct (_ =? 0).
  - rewrite E5. apply closed_pair; [rewrite after_other by done|]; apply after_close.
Qed.
End opening.

(** ** The filter on paths *)

Lemma str_prefix_nul t p r : has_char Ascii.zero t = false ->
  str_prefix t (p ++ String Ascii.zero r) = str_prefix t p.
Proof.
  revert p. induction t as [|c t IH]; intros p; [by destruct p|].
  unfold has_char in *. cbn [strchr str_prefix]. destruct (Ascii.eqb c Ascii.zero) eqn:Hc; [done|].
  intros Ht. destruct p as [|a p]; cbn [String.append str_prefix].
  - by rewrite Ascii.eqb_sym, Hc.
  - by rewrite IH.
Qed.

Lemma msg_body_path m rest : (String.length (msg_path m) < HES_PATH_MAX)%nat ->
  exists r, msg_body m rest = (msg_path m ++ String Ascii.zero r)%string.
Proof.
  intros Hf. unfold msg_body, padded.
  destruct (HES_PATH_MAX - String.length (msg_path m))%nat eqn:E; [lia|]. cbn.
  rewrite str_app_assoc. by eexists.
Qed.

Lemma str_prefix_length t s : str_prefix t s = true -> (String.length t <= String.length s)%nat.
Proof. intros [r ->]%str_prefix_spec. rewrite length_str_app. lia. Qed.

(** A subscriber is handed a message exactly when one of its topics is a prefix of the
    message's path, whatever the rest of the struct holds: the path is its first member and
    ends with a NUL, which no topic contains. *)
Lemma delivered_prefix topics m rest :
  (String.length (msg_path m) < HES_PATH_MAX)%nat -> Forall (fun t => has_char Ascii.zero t = false) topics ->
  delivered topics m rest = existsb (fun t => str_prefix t (msg_path m)) topics.
Proof.
  intros Hf Ht. destruct (msg_body_path m rest Hf) as [r Hr].
  unfold delivered, sub0_matches. rewrite Hr. clear Hr. induction Ht as [|t ts Hc _ IH]; [done|].
  cbn [existsb]. rewrite IH. f_equal. rewrite <- (str_prefix_nul t (msg_path m) r) by done.
  destruct (Nat.ltb_spec (String.length (msg_path m ++ String Ascii.zero r)) (String.length t)) as [Hl|Hl].
  - destruct (str_prefix t _) eqn:E; [|done]. apply str_prefix_length in E. lia.
  - destruct t as [|c t]; [by destruct (msg_path m)|done].
Qed.

(** ** The statements at concrete inputs *)

(** The upstream endpoint never answers. *)
Definition ex_no_upstream : NngBus :=
  {| nng_answer _ c := match c with Dial PubSock _ => 6 | _ => 0 end |}.

(** Subscribing fails. *)
Definition ex_no_subscribe : NngBus :=
  {| nng_answer _ c := match c with Subscribe _ _ => 2 | _ => 0 end |}.

Lemma leaf_open_all_or_nothing_witness :
  exists h', hes_bus_leaf_open (nng := ex_no_upstream) "pub" "sub" ["/lx/a"] [] = (h', 6) /\
    closed h' /\ slept h' = 10000.
Proof.
  destruct (hes_bus_leaf_open (nng := ex_no_upstream) "pub" "sub" ["/lx/a"] []) as [h' rv] eqn:E.
  destruct (leaf_open_all_or_nothing (nng := ex_no_upstream) "pub" "sub" ["/lx/a"] [] h' rv) as [_ H];
    [by intros []|exact E|]. exists h'.
  vm_compute in E. injection E as <- <-. split; [reflexivity|]. split; [exact H|reflexivity].
Defined.

Lemma ex_deaf_hub :
  exists h', hes_bus_hub_open (nng := ex_no_subscribe) "pub" "sub" [] = (h', 0) /\
    socket_after PubSock h' = Some (mk_sock ["pub"] [] []) /\
    ss_topics <$> socket_after SubSock h' = Some [].
Proof.
  destruct (hes_bus_hub_open (nng := ex_no_subscribe) "pub" "sub" []) as [h' rv] eqn:E.
  pose proof (hub_open_sockets (nng := ex_no_subscribe) "pub" "sub" [] h' rv ltac:(by intros []) E) as H.
  exists h'. vm_compute in E. injection E as <- <-. destruct H as (H1 & h0 & H2).
  split; [reflexivity|]. split; [exact H1|]. rewrite H2. reflexivity.
Defined.
