(* ===== verification/Wifi.v ===== *)
(** * The WiFi interface module

    Models src/src/han/wifi/wifi.c: start-up against the manifest service, the handling
    of PUT, GET and SUBSCRIBE messages, manifest notifications, and the poll that
    republishes every bulb's state and reports presence. [W] is the world behind the
    sockets: the bulbs ([Udp]) and the manifest service. Results are [None] where the
    code leaves its buffers or overflows an [int]. *)

From S2P Require Import Prelude CLib HesCommon Bus Json Devreg Slice Mreg Wiz.

Definition POLL_PERIOD_SEC : Z := 10.
Definition WIZ_DEFAULT_PORT : Z := 38899.
Definition HES_MT_INTERFACE : string := "hi".
Definition HES_LX_LIGHT_CV : string := "/lx/ob/uo/li/ll/da/cv".
Definition HES_LX_LIGHT_BRIGHTNESS_CV : string := "/lx/ob/uo/li/ll/aa/cv".

Record wifi_dev_t := mk_wifi_dev {
  wd_reg_idx : nat;
  wd_sock : wiz_client_t;
}.

(** The locals of [han_wifi_main], with the world they act on. *)
Record wifi_t (W : Type) := mk_wifi {
  wf_world : W;
  wf_mreg : hes_mreg_t;
  wf_reg : hes_devreg_t;
  wf_devs : list wifi_dev_t;
  wf_bus : hes_bus_t;
  wf_last_poll : Z;
}.
Arguments mk_wifi {W}.
Arguments wf_world {W}.
Arguments wf_mreg {W}.
Arguments wf_reg {W}.
Arguments wf_devs {W}.
Arguments wf_bus {W}.
Arguments wf_last_poll {W}.

Definition payload_to_bool (payload : string) : bool :=
  ((payload =?s "1") || (payload =?s "on") || (payload =?s "true"))%bool.

Definition find_open (devs : list wifi_dev_t) (reg_idx : nat) : option nat :=
  fst <$> list_find (fun w => wd_reg_idx w = reg_idx) devs.

Section wifi.
Context {target : Target} {nng : Nng} {W : Type} {udp : Udp W}.
Variable json_loads : string -> option json.
Variable service : W -> string -> W * option string.

(** ** Objects *)

Definition read_object (w : W) (c : wiz_client_t) (obj : hes_dev_object_t)
  : option (W * wiz_client_t * option string) :=
  if do_path obj =?s HES_LX_LIGHT_CV then
    let '(w, c, on) := wiz_client_get_state json_loads w c in
    Some (w, c, (fun b : bool => fmt_d (if b then 1 else 0)) <$> on)
  else if do_path obj =?s HES_LX_LIGHT_BRIGHTNESS_CV then
    let* (w, c, level) := wiz_client_get_brightness json_loads w c in
    Some (w, c, fmt_d <$> level)
  else Some (w, c, None).

Definition write_object (w : W) (c : wiz_client_t) (obj : hes_dev_object_t) (payload : string)
  : W * wiz_client_t * Z :=
  if do_path obj =?s HES_LX_LIGHT_CV then
    wiz_client_set_state json_loads w c (payload_to_bool payload)
  else if do_path obj =?s HES_LX_LIGHT_BRIGHTNESS_CV then
    let level := atoi payload in
    if level <=? 0 then wiz_client_set_state json_loads w c false
    else
      let '(w, c, _) := wiz_client_set_state json_loads w c true in
      wiz_client_set_brightness json_loads w c level
  else (w, c, -1).

(** ** Start-up *)

Definition boot_device (bulb_ip : string) (d : hes_device_t) : hes_device_t :=
  match hes_dev_object_find d HES_LX_LIGHT_CV with
  | None => d
  | Some _ =>
      let d := if hd_address d =?s "" then dev_with_address bulb_ip d else d in
      let d := if hd_udp_port d <=? 0 then dev_with_port WIZ_DEFAULT_PORT d else d in
      dev_with_online true d
  end.

Definition dialable (d : hes_device_t) : bool :=
  (hd_online d && negb (hd_address d =?s "") && negb (hd_udp_port d <=? 0))%bool.

(** One client per online device that has an address; an open that fails is skipped. *)
Fixpoint open_clients (i : nat) (ds : list hes_device_t) (w : W) (devs : list wifi_dev_t)
  : W * list wifi_dev_t :=
  match ds with
  | [] => (w, devs)
  | d :: ds' =>
      if dialable d then
        let '(w, c, rv) := wiz_client_open w (hd_address d) (hd_udp_port d) in
        open_clients (S i) ds' w (if rv =? 0 then devs ++ [mk_wifi_dev i c] else devs)
      else open_clients (S i) ds' w devs
  end.

(** [leaf_open]: what [hes_bus_leaf_open] returns for the topics, [bus] the opened leaf.
    The inner [None] is the exit status 1. *)
Definition wifi_boot (w : W) (svc_rep svc_pub : string) (module_ref : Z) (bulb_ip : string)
  (leaf_open : list string -> Z) (bus : hes_bus_t) : option (option (wifi_t W)) :=
  let '(mreg, rv) := hes_mreg_open svc_rep svc_pub (Some HES_MT_INTERFACE) module_ref in
  if negb (rv =? 0) then Some None
  else
    let* (w, reg, rv) := hes_mreg_query json_loads service w mreg hes_devreg_init in
    if negb (rv =? 0) then Some None
    else if bool_decide (dr_devices reg = []) then Some None
    else
      let reg := reg_with_devices (boot_device bulb_ip <$> dr_devices reg) reg in
      let* (w, _) := hes_mreg_report service w mreg reg in
      let* (w, reg, rv) := hes_mreg_query json_loads service w mreg hes_devreg_init in
      if negb (rv =? 0) then Some None
      else
        let '(w, devs) := open_clients 0 (dr_devices reg) w [] in
        if bool_decide (devs = []) then Some None
        else if negb (leaf_open (hes_devreg_collect_topics reg HES_BUS_MAX_TOPICS) =? 0) then Some None
        else Some (Some (mk_wifi w mreg reg devs bus 0)).

(** ** Messages *)

Definition wifi_with_sock (i : nat) (w : W) (c : wiz_client_t) (s : wifi_t W) : wifi_t W :=
  mk_wifi w (wf_mreg s) (wf_reg s) (alter (fun d => mk_wifi_dev (wd_reg_idx d) c) i (wf_devs s))
    (wf_bus s) (wf_last_poll s).

Definition wifi_with_bus (b : hes_bus_t) (s : wifi_t W) : wifi_t W :=
  mk_wifi (wf_world s) (wf_mreg s) (wf_reg s) (wf_devs s) b (wf_last_poll s).

Definition wifi_with_reg (w : W) (r : hes_devreg_t) (s : wifi_t W) : wifi_t W :=
  mk_wifi w (wf_mreg s) r (wf_devs s) (wf_bus s) (wf_last_poll s).

(** The open device and the object a message addresses, when the object allows the access. *)
Definition addressed (s : wifi_t W) (m : hes_clme_msg_t) (access : ascii)
  : option (nat * wifi_dev_t * hes_device_t * hes_dev_object_t) :=
  let* ridx := resolve_index (wf_reg s) (msg_path m) (msg_device_index m) in
  let* didx := find_open (wf_devs s) ridx in
  let* w := wf_devs s !! didx in
  let* d := dr_devices (wf_reg s) !! ridx in
  let* obj := hes_dev_object_find d (msg_path m) in
  if has_char access (do_access obj) then Some (didx, w, d, obj) else None.

Definition event_of (di : Z) (path val : string) : hes_clme_msg_t :=
  hes_msg_set_payload_str
    (hes_msg_set_path (msg_with_device di (msg_with_verb HES_VERB_EVENT hes_msg_init)) path) val.

Definition wifi_put (s : wifi_t W) (m : hes_clme_msg_t) : wifi_t W :=
  match addressed s m "w" with
  | None => s
  | Some (didx, dev, d, obj) =>
      let '(w, c, _) := write_object (wf_world s) (wd_sock dev) obj (msg_payload m) in
      wifi_with_sock didx w c s
  end.

Definition wifi_get (s : wifi_t W) (m : hes_clme_msg_t) : option (wifi_t W) :=
  match addressed s m "r" with
  | None => Some s
  | Some (didx, dev, d, obj) =>
      let* (w, c, val) := read_object (wf_world s) (wd_sock dev) obj in
      let s := wifi_with_sock didx w c s in
      match val with
      | None => Some s
      | Some v =>
          Some (wifi_with_bus (hes_bus_send (wf_bus s) (event_of (hd_device_index d) (msg_path m) v)) s)
      end
  end.

(** A SUBSCRIBE is only logged. *)
Definition wifi_message (s : wifi_t W) (m : hes_clme_msg_t) : option (wifi_t W) :=
  if msg_verb m =? HES_VERB_SUBSCRIBE then Some s
  else if msg_verb m =? HES_VERB_PUT then Some (wifi_put s m)
  else if msg_verb m =? HES_VERB_GET then wifi_get s m
  else Some s.

(** [incoming]: the notification that is waiting, or the error of the receive. *)
Definition wifi_notification (s : wifi_t W) (incoming : string + Z) : option (wifi_t W) :=
  let* (upd, rv) := hes_mreg_recv_update json_loads (wf_mreg s) hes_devreg_init incoming in
  Some (if rv =? 0 then wifi_with_reg (wf_world s) (merge_slice (wf_reg s) upd) s else s).

(** ** The poll *)

Definition wifi_poll_object (i : nat) (d : hes_device_t) (obj : hes_dev_object_t)
  (sr : wifi_t W * bool) : option (wifi_t W * bool) :=
  let '(s, reachable) := sr in
  if negb (has_char "r" (do_access obj)) then Some (s, reachable)
  else
    let* dev := wf_devs s !! i in
    let* (w, c, val) := read_object (wf_world s) (wd_sock dev) obj in
    let s := wifi_with_sock i w c s in
    match val with
    | None => Some (s, reachable)
    | Some v =>
        let msg := msg_with_query "va" (event_of (hd_device_index d) (do_path obj) v) in
        Some (wifi_with_bus (hes_bus_send (wf_bus s) msg) s, true)
    end.

Definition wifi_poll_device (i : nat) (s : wifi_t W) : option (wifi_t W) :=
  let* dev := wf_devs s !! i in
  let* d := dr_devices (wf_reg s) !! wd_reg_idx dev in
  let* (s, reachable) := for_each (wifi_poll_object i d) (hd_objects d) (s, false) in
  if Bool.eqb reachable (hd_online d) then Some s
  else
    let reg := set_online (wd_reg_idx dev) reachable (wf_reg s) in
    let* (w, _) := hes_mreg_report service (wf_world s) (wf_mreg s) reg in
    Some (wifi_with_reg w reg s).

Definition wifi_poll (s : wifi_t W) (now : Z) : option (wifi_t W) :=
  if POLL_PERIOD_SEC <=? now - wf_last_poll s then
    let s := mk_wifi (wf_world s) (wf_mreg s) (wf_reg s) (wf_devs s) (wf_bus s) now in
    for_each wifi_poll_device (seq 0 (length (wf_devs s))) s
  else Some s.

(** ** One turn of the main loop: the message received, if any, the notification that is
    waiting, and the time. *)
Record wifi_input := mk_wifi_input {
  wi_message : option hes_clme_msg_t;
  wi_notification : string + Z;
  wi_now : Z;
}.

Definition wifi_turn (s : wifi_t W) (e : wifi_input) : option (wifi_t W) :=
  let* s := match wi_message e with Some m => wifi_message s m | None => Some s end in
  let* s := wifi_notification s (wi_notification e) in
  wifi_poll s (wi_now e).

Definition wifi_run (s : wifi_t W) (es : list wifi_input) : option (wifi_t W) :=
  for_each (fun e s => wifi_turn s e) es s.

Definition wifi_close (s : wifi_t W) : list Z * hes_mreg_t :=
  (filter (fun fd => 0 <= fd) ((fun d => wc_fd (wd_sock d)) <$> wf_devs s), hes_mreg_close (wf_mreg s)).
End wifi.
