(* ===== verification/WifiFacts.v ===== *)
(** * Properties of the WiFi interface module

    What every turn keeps (the slice's shape, the sockets), what the module says on the
    bus, which device a PUT reaches, and how the poll tracks presence. *)

From S2P Require Import Prelude CLib HesCommon Bus Json Devreg Slice Mreg Wiz WizFacts Wifi.

(** What no exchange changes of a client. *)
Definition socket_of (c : wiz_client_t) : Z * string * Z := (wc_fd c, wc_ip c, wc_port c).

Definition dev_id (d : wifi_dev_t) : nat * (Z * string * Z) := (wd_reg_idx d, socket_of (wd_sock d)).

(** A report of one readable object of a device. *)
Definition reports (d : hes_device_t) (m : hes_clme_msg_t) : Prop :=
  msg_verb m = HES_VERB_EVENT /\ msg_device_index m = hd_device_index d /\
  exists o, o ∈ hd_objects d /\ has_char "r" (do_access o) = true /\
    msg_path m = hes_strlcpy HES_PATH_MAX (do_path o) /\
    ((do_path o = HES_LX_LIGHT_CV /\ (msg_payload m = "0" \/ msg_payload m = "1")) \/
     (do_path o = HES_LX_LIGHT_BRIGHTNESS_CV /\ exists z, msg_payload m = hes_strlcpy HES_PAYLOAD_MAX (fmt_d z))).

Section facts.
Context {target : Target} {nng : Nng} {W : Type} {udp : Udp W}.
Variable json_loads : string -> option json.
Variable service : W -> string -> W * option string.

(** ** Exchanges keep the socket *)

Lemma attempts_socket left first addr method req w c n :
  let '(_, c', _) := attempts json_loads left first addr method req w c n in socket_of c' = socket_of c.
Proof.
  revert first w c n. induction left as [|left IH]; intros first w c n; cbn [attempts]; [done|].
  assert (H : let '(_, c1) := if first then drop_stale w c else (w, c) in socket_of c1 = socket_of c).
  { destruct first; [|done]. unfold drop_stale. by destruct (udp_late _ _). }
  destruct (if first then _ else _) as [w1 c1]. destruct (udp_sendto _ _ _ _ _) as [w2 [l|]]; [|done].
  destruct (await _ _ _ _) as [r q]. destruct r as [resp|k|]; [done| |done].
  specialize (IH false w2 (wiz_with_queue q c1) k). destruct (attempts _ _ _ _ _ _ _ _) as [[w3 c3] r3].
  by rewrite IH.
Qed.

Lemma send_recv_socket w c method req :
  let '(_, c', _) := wiz_send_recv json_loads w c method req in socket_of c' = socket_of c.
Proof. unfold wiz_send_recv. destruct (inet_pton _); [apply attempts_socket|done]. Qed.

Lemma set_pilot_socket w c params :
  let '(_, c', _) := set_pilot json_loads w c params in socket_of c' = socket_of c.
Proof.
  unfold set_pilot. match goal with |- context [wiz_send_recv _ _ _ ?m ?r] =>
    pose proof (send_recv_socket w c m r) as H; destruct (wiz_send_recv _ _ _ m r) as [[w1 c1] r1] end.
  done.
Qed.

Lemma get_pilot_socket w c :
  let '(_, c', _) := get_pilot json_loads w c in socket_of c' = socket_of c.
Proof.
  unfold get_pilot. match goal with |- context [wiz_send_recv _ _ _ ?m ?r] =>
    pose proof (send_recv_socket w c m r) as H; destruct (wiz_send_recv _ _ _ m r) as [[w1 c1] r1] end.
  done.
Qed.

Lemma write_object_socket w c obj payload w' c' rv :
  write_object json_loads w c obj payload = (w', c', rv) -> socket_of c' = socket_of c.
Proof.
  unfold write_object, wiz_client_set_state, wiz_client_set_brightness.
  destruct (do_path obj =?s HES_LX_LIGHT_CV).
  { intros H. match type of H with set_pilot _ _ _ ?p = _ => pose proof (set_pilot_socket w c p) as Hs end.
    by rewrite H in Hs. }
  destruct (do_path obj =?s HES_LX_LIGHT_BRIGHTNESS_CV); [|by intros [= _ <- _]].
  destruct (atoi payload <=? 0).
  { intros H. match type of H with set_pilot _ _ _ ?p = _ => pose proof (set_pilot_socket w c p) as Hs end.
    by rewrite H in Hs. }
  pose proof (set_pilot_socket w c (dq "'state':" ++ "true")) as H1.
  destruct (set_pilot _ _ _ (dq "'state':" ++ "true")) as [[w1 c1] r1]. intros H.
  match type of H with set_pilot _ _ _ ?p = _ => pose proof (set_pilot_socket w1 c1 p) as Hs end.
  rewrite H in Hs. congruence.
Qed.

(** A value that is read comes from one of the two readable paths. *)
Definition reading (obj : hes_dev_object_t) (v : string) : Prop :=
  (do_path obj = HES_LX_LIGHT_CV /\ (v = "0" \/ v = "1")) \/
  (do_path obj = HES_LX_LIGHT_BRIGHTNESS_CV /\ exists z, v = fmt_d z).

Lemma read_object_spec w c obj w' c' r :
  read_object json_loads w c obj = Some (w', c', r) ->
  socket_of c' = socket_of c /\ forall v, r = Some v -> reading obj v.
Proof.
  unfold read_object, wiz_client_get_state, wiz_client_get_brightness, reading.
  pose proof (get_pilot_socket w c) as Hs. destruct (get_pilot json_loads w c) as [[w1 c1] root].
  destruct (do_path obj =?s HES_LX_LIGHT_CV) eqn:E1; [apply String.eqb_eq in E1|].
  { intros [= <- <- <-]. split; [done|]. intros v Hv. left. split; [done|].
    destruct root as [root|]; [|done]. simpl in Hv. destruct (state_of_reply root) as [[]|]; simplify_eq/=; [by right|by left]. }
  destruct (do_path obj =?s HES_LX_LIGHT_BRIGHTNESS_CV) eqn:E2; [apply String.eqb_eq in E2|by intros [= <- <- <-]].
  destruct root as [root|]; [|by intros [= <- <- <-]].
  destruct (brightness_of_reply root) as [level|]; [|done]. cbn. intros [= <- <- <-]. split; [done|].
  intros v Hv. right. split; [done|]. destruct level; simplify_eq/=. eauto.
Qed.

(** ** Frames *)

(** From [s] to [s'] nothing but the world, the socket queues and the bus moved, and
    the messages [ms] were sent. *)
Record frame (s s' : wifi_t W) (ms : list hes_clme_msg_t) : Prop := {
  fr_mreg : wf_mreg s' = wf_mreg s;
  fr_reg : wf_reg s' = wf_reg s;
  fr_poll : wf_last_poll s' = wf_last_poll s;
  fr_devs : dev_id <$> wf_devs s' = dev_id <$> wf_devs s;
  fr_bus : bus_extends (wf_bus s) (wf_bus s') ms;
}.

Lemma frame_refl s : frame s s [].
Proof. split; auto with hes. Qed.

Lemma frame_trans s1 s2 s3 ms ns : frame s1 s2 ms -> frame s2 s3 ns -> frame s1 s3 (ms ++ ns).
Proof. intros [] []. split; try congruence. by eapply bus_extends_trans. Qed.

Lemma frame_sock i w c s dev :
  wf_devs s !! i = Some dev -> socket_of c = socket_of (wd_sock dev) -> frame s (wifi_with_sock i w c s) [].
Proof.
  intros Hd Hc. split; auto with hes. simpl. apply list_eq. intros j.
  rewrite !list_lookup_fmap, list_lookup_alter. case_decide; [subst|done].
  rewrite Hd. simpl. unfold dev_id. simpl. by rewrite Hc.
Qed.

Lemma frame_send m s :
  exists m', frame s (wifi_with_bus (hes_bus_send (wf_bus s) m) s) [m'] /\
    msg_path m' = msg_path m /\ msg_verb m' = msg_verb m /\
    msg_device_index m' = msg_device_index m /\ msg_payload m' = msg_payload m.
Proof.
  destruct (bus_extends_send (wf_bus s) m) as (m' & Hb & ? & ? & ? & ? & _). by exists m'.
Qed.

Lemma object_find_spec d path obj :
  hes_dev_object_find d path = Some obj -> obj ∈ hd_objects d /\ do_path obj = path.
Proof.
  unfold hes_dev_object_find. intros [? H]%find_first_Some. apply String.eqb_eq in H. done.
Qed.

Lemma reports_event d obj v m :
  obj ∈ hd_objects d -> has_char "r" (do_access obj) = true -> reading obj v ->
  msg_verb m = HES_VERB_EVENT -> msg_device_index m = hd_device_index d ->
  msg_path m = hes_strlcpy HES_PATH_MAX (do_path obj) -> msg_payload m = hes_strlcpy HES_PAYLOAD_MAX v ->
  reports d m.
Proof.
  intros Ho Ha Hr Hv Hi Hp Hl. split; [done|]. split; [done|]. exists obj. repeat split; try done.
  destruct Hr as [[? [->| ->]]|[? [z ->]]]; [left|left|right]; (split; [done|]); rewrite Hl; eauto.
Qed.

(** ** Messages *)

Lemma addressed_spec (s : wifi_t W) m access didx dev d obj :
  addressed s m access = Some (didx, dev, d, obj) ->
  wf_devs s !! didx = Some dev /\ dr_devices (wf_reg s) !! wd_reg_idx dev = Some d /\
  resolve_index (wf_reg s) (msg_path m) (msg_device_index m) = Some (wd_reg_idx dev) /\
  obj ∈ hd_objects d /\ do_path obj = msg_path m /\ has_char access (do_access obj) = true.
Proof.
  unfold addressed. destruct (resolve_index _ _ _) as [ridx|]; [|done]. cbn.
  unfold find_open. destruct (list_find _ _) as [[k w]|] eqn:Ef; [|done]. cbn.
  apply list_find_Some in Ef as (Hk & Hr & _). rewrite Hk. cbn.
  destruct (dr_devices _ !! ridx) as [d'|] eqn:Ed; [|done]. cbn.
  destruct (hes_dev_object_find d' _) as [o|] eqn:Eo; [|done]. cbn.
  destruct (has_char access _) eqn:Ea; [|done]. intros [= <- <- <- <-]. subst ridx.
  apply object_find_spec in Eo as [? ?]. done.
Qed.

Lemma wifi_put_frame (s : wifi_t W) m : frame s (wifi_put json_loads s m) [].
Proof.
  unfold wifi_put. destruct (addressed s m "w") as [[[[didx dev] d] obj]|] eqn:Ea; [|apply frame_refl].
  apply addressed_spec in Ea as (Hd & _). destruct (write_object _ _ _ _ _) as [[w c] rv] eqn:Ew.
  apply write_object_socket in Ew. by eapply frame_sock.
Qed.

Lemma wifi_get_frame (s : wifi_t W) m s' :
  wifi_get json_loads s m = Some s' ->
  exists ms, frame s s' ms /\ Forall (fun r => exists d, d ∈ dr_devices (wf_reg s) /\ reports d r) ms.
Proof.
  unfold wifi_get. destruct (addressed s m "r") as [[[[didx dev] d] obj]|] eqn:Ea.
  2: { intros [= <-]. exists []. split; [apply frame_refl|constructor]. }
  apply addressed_spec in Ea as (Hd & Hr & _ & Ho & Hp & Hacc).
  destruct (read_object _ _ _ _) as [[[w c] val]|] eqn:Er; [|done]. cbn.
  apply read_object_spec in Er as [Hs Hv].
  pose proof (frame_sock didx w c s dev Hd Hs) as Hf.
  destruct val as [v|]; intros [= <-]; [|exists []; split; [done|constructor]].
  destruct (frame_send (event_of (hd_device_index d) (msg_path m) v) (wifi_with_sock didx w c s))
    as (m' & Hf' & Hpath & Hverb & Hidx & Hpay).
  exists [m']. split; [exact (frame_trans _ _ _ _ _ Hf Hf')|]. constructor; [|constructor].
  exists d. split; [by eapply list_elem_of_lookup_2|].
  eapply (reports_event d obj v); try done; [by apply Hv|]. by rewrite Hp.
Qed.

Lemma wifi_message_frame (s : wifi_t W) m s' :
  wifi_message json_loads s m = Some s' ->
  exists ms, frame s s' ms /\ Forall (fun r => exists d, d ∈ dr_devices (wf_reg s) /\ reports d r) ms.
Proof.
  assert (H0 : exists ms, frame s s ms /\ Forall (fun r => exists d, d ∈ dr_devices (wf_reg s) /\ reports d r) ms)
    by (exists []; split; [apply frame_refl|constructor]).
  unfold wifi_message. destruct (msg_verb m =? HES_VERB_SUBSCRIBE); [by intros [= <-]|].
  destruct (msg_verb m =? HES_VERB_PUT).
  { intros [= <-]. exists []. split; [apply wifi_put_frame|constructor]. }
  destruct (msg_verb m =? HES_VERB_GET); [apply wifi_get_frame|by intros [= <-]].
Qed.

(** ** The poll *)

Definition said {A} (ms : list A) : bool := match ms with [] => false | _ => true end.

Lemma said_app {A} (ms ns : list A) : said (ms ++ ns) = (said ms || said ns)%bool.
Proof. by destruct ms. Qed.

Lemma poll_object_spec i d obj (s : wifi_t W) b s' b' :
  obj ∈ hd_objects d -> wifi_poll_object json_loads i d obj (s, b) = Some (s', b') ->
  exists ms, frame s s' ms /\ Forall (reports d) ms /\ b' = (b || said ms)%bool /\
    (has_char "r" (do_access obj) = false -> ms = []).
Proof.
  intros Ho. unfold wifi_poll_object. destruct (has_char "r" (do_access obj)) eqn:Ea; cbn [negb].
  2: { intros [= <- <-]. exists []. split; [apply frame_refl|]. rewrite orb_false_r. auto. }
  destruct (wf_devs s !! i) as [dev|] eqn:Ed; [|done]. cbn.
  destruct (read_object _ _ _ _) as [[[w c] val]|] eqn:Er; [|done]. cbn.
  apply read_object_spec in Er as [Hs Hv]. pose proof (frame_sock i w c s dev Ed Hs) as Hf.
  destruct val as [v|].
  - intros [= <- <-].
    destruct (frame_send (msg_with_query "va" (event_of (hd_device_index d) (do_path obj) v))
                (wifi_with_sock i w c s)) as (m' & Hf' & Hpath & Hverb & Hidx & Hpay).
    exists [m']. split; [exact (frame_trans _ _ _ _ _ Hf Hf')|]. split.
    + constructor; [|constructor]. eapply (reports_event d obj v); try done. by apply Hv.
    + split; [by rewrite orb_true_r|done].
  - intros [= <- <-]. exists []. split; [done|]. rewrite orb_false_r. auto.
Qed.

Lemma poll_objects_spec i d objs (s : wifi_t W) b s' b' :
  objs ⊆ hd_objects d -> for_each (wifi_poll_object json_loads i d) objs (s, b) = Some (s', b') ->
  exists ms, frame s s' ms /\ Forall (reports d) ms /\ b' = (b || said ms)%bool /\
    (Forall (fun o => has_char "r" (do_access o) = false) objs -> ms = []).
Proof.
  revert s b. induction objs as [|o objs IH]; intros s b Hsub; cbn [for_each].
  { intros [= <- <-]. exists []. split; [apply frame_refl|]. rewrite orb_false_r. auto. }
  destruct (wifi_poll_object json_loads i d o (s, b)) as [[s1 b1]|] eqn:E; [|done]. intros Hrest.
  destruct (poll_object_spec i d o s b s1 b1 (Hsub o ltac:(left)) E) as (ms & Hf & Hr & -> & Hw).
  destruct (IH s1 _ ltac:(intros x Hx; apply Hsub; by right) Hrest) as (ns & Hf2 & Hr2 & -> & Hw2).
  exists (ms ++ ns). split; [by eapply frame_trans|]. split; [by apply Forall_app|].
  split; [by rewrite said_app, orb_assoc|].
  intros Hno. inversion Hno; subst. rewrite Hw, Hw2 by done. done.
Qed.

Lemma set_online_same i b reg d :
  dr_devices reg !! i = Some d -> hd_online d = b -> set_online i b reg = reg.
Proof.
  intros Hd Hb. unfold set_online, reg_with_devices. destruct reg as [g mt mi nt ds]. simpl in *. f_equal.
  apply list_eq. intros j. rewrite list_lookup_alter. case_decide; [subst|done].
  rewrite Hd. by destruct d.
Qed.

(** One device: it is online afterwards exactly when one of its objects answered; the
    registry is reported exactly when that is news. *)
Lemma poll_device_spec i (s s' : wifi_t W) :
  wifi_poll_device json_loads service i s = Some s' ->
  exists dev d ms, wf_devs s !! i = Some dev /\ dr_devices (wf_reg s) !! wd_reg_idx dev = Some d /\
    Forall (reports d) ms /\ bus_extends (wf_bus s) (wf_bus s') ms /\
    dev_id <$> wf_devs s' = dev_id <$> wf_devs s /\ wf_mreg s' = wf_mreg s /\
    wf_last_poll s' = wf_last_poll s /\
    wf_reg s' = set_online (wd_reg_idx dev) (said ms) (wf_reg s) /\
    (Forall (fun o => has_char "r" (do_access o) = false) (hd_objects d) -> ms = []) /\
    (said ms <> hd_online d ->
       exists w rv, hes_mreg_report service w (wf_mreg s) (wf_reg s') = Some (wf_world s', rv)).
Proof.
  unfold wifi_poll_device. destruct (wf_devs s !! i) as [dev|] eqn:Ed; [|done]. cbn.
  destruct (dr_devices (wf_reg s) !! wd_reg_idx dev) as [d|] eqn:Er; [|done]. cbn.
  destruct (for_each _ _ _) as [[s1 b]|] eqn:Ef; [|done]. cbn.
  destruct (poll_objects_spec i d (hd_objects d) s false s1 b ltac:(done) Ef) as (ms & Hf & Hrep & Hb & Hw).
  simpl in Hb. subst b. destruct Hf as [F1 F2 F3 F4 F5].
  destruct (Bool.eqb (said ms) (hd_online d)) eqn:Eo.
  - apply eqb_prop in Eo. intros [= <-]. exists dev, d, ms. repeat (split; [done|]).
    split; [|done]. rewrite F2. symmetry. by eapply set_online_same.
  - apply eqb_false_iff in Eo.
    destruct (hes_mreg_report service _ _ _) as [[w rv]|] eqn:Erep; [|done]. cbn. intros [= <-].
    exists dev, d, ms. rewrite F2 in Erep |- *. rewrite F1 in Erep. simpl.
    repeat (split; [done|]). intros _. by exists (wf_world s1), rv.
Qed.

Lemma ids_indices (l l' : list wifi_dev_t) : dev_id <$> l = dev_id <$> l' -> wd_reg_idx <$> l = wd_reg_idx <$> l'.
Proof. intros H. pose proof (f_equal (fmap fst) H) as H2. by rewrite <- !list_fmap_compose in H2. Qed.

Lemma ids_lookup (l l' : list wifi_dev_t) j v :
  dev_id <$> l = dev_id <$> l' -> l' !! j = Some v ->
  exists v1, l !! j = Some v1 /\ wd_reg_idx v1 = wd_reg_idx v.
Proof.
  intros Hids Hv. pose proof (f_equal (fun k => k !! j) (ids_indices l l' Hids)) as H. simpl in H.
  rewrite !list_lookup_fmap, Hv in H. destruct (l !! j) as [v1|]; [|done]. exists v1. by simplify_eq/=.
Qed.

Lemma poll_devices_spec k n (s s' : wifi_t W) :
  for_each (wifi_poll_device json_loads service) (seq k n) s = Some s' ->
  NoDup (wd_reg_idx <$> wf_devs s) ->
  exists mss, length mss = n /\ bus_extends (wf_bus s) (wf_bus s') (concat mss) /\
    dev_id <$> wf_devs s' = dev_id <$> wf_devs s /\ same_shape (wf_reg s') (wf_reg s) /\
    wf_mreg s' = wf_mreg s /\ wf_last_poll s' = wf_last_poll s /\
    (forall j dev, (k <= j < k + n)%nat -> wf_devs s !! j = Some dev ->
       exists d d' ms, dr_devices (wf_reg s) !! wd_reg_idx dev = Some d /\
         dr_devices (wf_reg s') !! wd_reg_idx dev = Some d' /\ mss !! (j - k)%nat = Some ms /\
         Forall (reports d) ms /\ hd_online d' = said ms /\
         (Forall (fun o => has_char "r" (do_access o) = false) (hd_objects d) -> ms = [])) /\
    (forall r, (forall j dev, (k <= j < k + n)%nat -> wf_devs s !! j = Some dev -> wd_reg_idx dev <> r) ->
       dr_devices (wf_reg s') !! r = dr_devices (wf_reg s) !! r).
Proof.
  revert k s. induction n as [|n IH]; intros k s; cbn [seq for_each].
  { intros [= <-] _. exists []. split; [done|]. split; [apply bus_extends_refl|].
    repeat (split; [done|]). split; [intros; lia|done]. }
  destruct (wifi_poll_device json_loads service k s) as [s1|] eqn:E; [|done]. intros Hrest Hnd.
  destruct (poll_device_spec k s s1 E) as (dev & d & ms & Hdev & Hd & Hrep & Hbus & Hids & Hm & Hlp & Hreg & Hw & _).
  destruct (IH (S k) s1 Hrest ltac:(by rewrite (ids_indices _ _ Hids))) as (mss & Hlen & Hbus2 & Hids2 & Hsh & Hm2 & Hlp2 & Hin & Hout).
  pose proof (fun j v => ids_lookup (wf_devs s1) (wf_devs s) j v Hids) as Hnext.
  pose proof (fun j v => ids_lookup (wf_devs s) (wf_devs s1) j v (eq_sym Hids)) as Hprev.
  assert (Hdist : forall j v, (k < j)%nat -> wf_devs s !! j = Some v -> wd_reg_idx v <> wd_reg_idx dev).
  { intros j v Hj Hv Heq. assert (j = k); [|lia].
    eapply NoDup_lookup; [exact Hnd| |]; rewrite list_lookup_fmap; [by rewrite Hv|rewrite Hdev; simpl; by rewrite Heq]. }
  exists (ms :: mss). split; [simpl; lia|]. split; [by eapply bus_extends_trans|].
  split; [congruence|]. split; [etransitivity; [done|]; rewrite Hreg; apply same_shape_set_online|].
  split; [congruence|]. split; [congruence|]. split.
  - intros j v Hj Hv. destruct (decide (j = k)) as [->|Hne].
    + rewrite Hdev in Hv. apply Some_inj in Hv. subst v. exists d, (dev_with_online (said ms) d), ms.
      rewrite Nat.sub_diag. split; [done|]. split; [|by split].
      rewrite Hout.
      * rewrite Hreg. simpl. rewrite list_lookup_alter, decide_True by done. by rewrite Hd.
      * intros j v1 Hj1 Hv1. destruct (Hprev j v1 Hv1) as (v & Hv & <-). apply (Hdist j v); [lia|done].
    + destruct (Hnext j v Hv) as (v1 & Hv1 & Hi1).
      destruct (Hin j v1 ltac:(lia) Hv1) as (d1 & d' & ms1 & G1 & G2 & G3 & G4 & G5 & G6).
      rewrite Hi1 in G1, G2. assert (Hk : wd_reg_idx v <> wd_reg_idx dev) by (apply (Hdist j v); [lia|done]).
      rewrite Hreg in G1. simpl in G1. rewrite list_lookup_alter, decide_False in G1 by done.
      exists d1, d', ms1. replace (j - k)%nat with (S (j - S k)) by lia. done.
  - intros r Hr. rewrite Hout.
    + rewrite Hreg. simpl. rewrite list_lookup_alter, decide_False; [done|]. apply (Hr k dev); [lia|done].
    + intros j v1 Hj Hv1. destruct (Hprev j v1 Hv1) as (v & Hv & <-). apply (Hr j v); [lia|done].
Qed.

(** The poll tracks presence. When it is due, every device with an open socket is
    asked for each of its readable objects, each answer goes out on the bus as one report
    of that device, and the device is online afterwards exactly when at least one object
    answered; a device that has no readable object ends up offline. Devices without a
    socket keep their flag. *)
Theorem poll_tracks_presence (s s' : wifi_t W) now :
  wifi_poll json_loads service s now = Some s' -> POLL_PERIOD_SEC <= now - wf_last_poll s ->
  NoDup (wd_reg_idx <$> wf_devs s) ->
  wf_last_poll s' = now /\
  exists mss, length mss = length (wf_devs s) /\ bus_extends (wf_bus s) (wf_bus s') (concat mss) /\
    (forall j dev, wf_devs s !! j = Some dev ->
       exists d d' ms, dr_devices (wf_reg s) !! wd_reg_idx dev = Some d /\
         dr_devices (wf_reg s') !! wd_reg_idx dev = Some d' /\ mss !! j = Some ms /\
         Forall (reports d) ms /\ hd_online d' = said ms /\
         (Forall (fun o => has_char "r" (do_access o) = false) (hd_objects d) -> hd_online d' = false)) /\
    (forall r, (forall j dev, wf_devs s !! j = Some dev -> wd_reg_idx dev <> r) ->
       dr_devices (wf_reg s') !! r = dr_devices (wf_reg s) !! r).
Proof.
  intros H Hdue Hnd. unfold wifi_poll in H. rewrite (proj2 (Z.leb_le _ _) Hdue) in H.
  destruct (poll_devices_spec _ _ _ _ H Hnd) as (mss & Hlen & Hbus & Hids & _ & _ & Hlp & Hin & Hout).
  split; [done|]. exists mss. split; [done|]. split; [done|]. split.
  - intros j dev Hj. simpl in Hin.
    assert (Hlt : (0 <= j < 0 + length (wf_devs s))%nat) by (apply lookup_lt_Some in Hj; lia).
    destruct (Hin j dev Hlt Hj) as (d & d' & ms & G1 & G2 & G3 & G4 & G5 & G6).
    rewrite Nat.sub_0_r in G3. exists d, d', ms. repeat (split; [done|]).
    intros Hno. by rewrite G5, (G6 Hno).
  - intros r Hr. apply Hout. intros j dev _. apply Hr.
Qed.

(** ** Runs *)

(** What holds at the head of the main loop, [s0] being the state it began in. *)
Record wifi_ok (s0 s : wifi_t W) : Prop := {
  ok_shape : same_shape (wf_reg s) (wf_reg s0);
  ok_devs : dev_id <$> wf_devs s = dev_id <$> wf_devs s0;
  ok_mreg : wf_mreg s = wf_mreg s0;
  ok_said : exists ms, bus_extends (wf_bus s0) (wf_bus s) ms /\
    Forall (fun m => exists d, d ∈ dr_devices (wf_reg s0) /\ reports d m) ms;
}.

Lemma wifi_ok_refl s : wifi_ok s s.
Proof. split; try done. exists []. split; [apply bus_extends_refl|constructor]. Qed.

Lemma reports_shape r r0 d m :
  same_shape r r0 -> d ∈ dr_devices r -> reports d m ->
  exists d0, d0 ∈ dr_devices r0 /\ reports d0 m.
Proof.
  intros Hs [i Hi]%list_elem_of_lookup (Hv & Hx & Ho).
  destruct (same_shape_lookup r r0 i d Hs Hi) as (d0 & Hd0 & Hidx & Hobj).
  exists d0. split; [by eapply list_elem_of_lookup_2|]. unfold reports. by rewrite Hidx, Hobj.
Qed.

Lemma wifi_ok_step (s0 s s' : wifi_t W) ms :
  wifi_ok s0 s -> same_shape (wf_reg s') (wf_reg s) -> dev_id <$> wf_devs s' = dev_id <$> wf_devs s ->
  wf_mreg s' = wf_mreg s -> bus_extends (wf_bus s) (wf_bus s') ms ->
  Forall (fun m => exists d, d ∈ dr_devices (wf_reg s) /\ reports d m) ms -> wifi_ok s0 s'.
Proof.
  intros [H1 H2 H3 (ns & H4 & H5)] Hs Hd Hm Hb Hr. split; [by etransitivity|by rewrite Hd|by rewrite Hm|].
  exists (ns ++ ms). split; [by eapply bus_extends_trans|]. apply Forall_app. split; [done|].
  eapply Forall_impl; [exact Hr|]. intros m (d & Hin & Hrep). by eapply reports_shape.
Qed.

Lemma wifi_ok_poll (s0 s s' : wifi_t W) now :
  wifi_ok s0 s -> wifi_poll json_loads service s now = Some s' -> wifi_ok s0 s'.
Proof.
  intros Hok. unfold wifi_poll. destruct (_ <=? _); [|by intros [= <-]]. intros H.
  eapply (for_each_inv (wifi_ok s0)); [| |exact H].
  - intros i t t' _ Ht Hp. destruct (poll_device_spec i t t' Hp)
      as (dev & d & ms & _ & Hd & Hr & Hb & Hids & Hm & _ & Hreg & _).
    eapply (wifi_ok_step s0 t t' ms); try done; [rewrite Hreg; auto with hes|].
    eapply Forall_impl; [exact Hr|]. intros m Hm'. exists d. split; [by eapply list_elem_of_lookup_2|done].
  - eapply (wifi_ok_step s0 s _ []); try done. apply bus_extends_refl.
Qed.

Lemma wifi_turn_ok (s0 s s' : wifi_t W) e :
  wifi_ok s0 s -> wifi_turn json_loads service s e = Some s' -> wifi_ok s0 s'.
Proof.
  intros Hok. unfold wifi_turn.
  destruct (match wi_message e with Some m => wifi_message json_loads s m | None => Some s end) as [s1|] eqn:E1; [|done].
  assert (Hok1 : wifi_ok s0 s1).
  { destruct (wi_message e) as [m|]; [|by simplify_eq].
    apply wifi_message_frame in E1 as (ms & [] & Hr). eapply wifi_ok_step; eauto. by rewrite fr_reg0. }
  cbn. clear s E1 Hok. unfold wifi_notification.
  destruct (hes_mreg_recv_update _ _ _ _) as [[upd rv]|]; [|done]. cbn. apply wifi_ok_poll.
  destruct (rv =? 0); [|done].
  eapply (wifi_ok_step s0 s1 _ []); try done; [simpl; auto with hes|apply bus_extends_refl].
Qed.

Lemma wifi_run_ok (s0 s : wifi_t W) es :
  wifi_run json_loads service s0 es = Some s -> wifi_ok s0 s.
Proof.
  intros H. eapply (for_each_inv (wifi_ok s0)); [|apply wifi_ok_refl|exact H].
  intros e t t' _ Ht He. exact (wifi_turn_ok s0 t t' e Ht He).
Qed.

(** ** Start-up *)

(** [v] was dialled for [d]. *)
Definition dialed (d : hes_device_t) (v : wifi_dev_t) : Prop :=
  dialable d = true /\ wc_ip (wd_sock v) = hes_strlcpy 64 (hd_address d) /\
  wc_port (wd_sock v) = hd_udp_port d /\ 0 <= wc_fd (wd_sock v).

Definition dialed_from (i : nat) (ds : list hes_device_t) (v : wifi_dev_t) : Prop :=
  exists k d, ds !! k = Some d /\ wd_reg_idx v = (i + k)%nat /\ dialed d v.

Lemma dialed_from_tail i d ds v : dialed_from (S i) ds v -> dialed_from i (d :: ds) v.
Proof. intros (k & x & Hx & Hk & Hv). exists (S k), x. rewrite Hk. repeat split; try done; [lia|apply Hv..]. Qed.

Lemma open_clients_spec i ds (w w' : W) devs devs' :
  open_clients i ds w devs = (w', devs') ->
  NoDup (wd_reg_idx <$> devs) -> Forall (fun v => (wd_reg_idx v < i)%nat) devs ->
  NoDup (wd_reg_idx <$> devs') /\ forall v, v ∈ devs' -> v ∈ devs \/ dialed_from i ds v.
Proof.
  revert i w devs. induction ds as [|d ds IH]; intros i w devs; cbn [open_clients].
  { intros [= _ <-] Hn _. split; [done|]. intros v Hv. by left. }
  assert (Hweak : Forall (fun v => (wd_reg_idx v < i)%nat) devs -> Forall (fun v => (wd_reg_idx v < S i)%nat) devs)
    by (intros Hf; eapply Forall_impl; [exact Hf|]; simpl; lia).
  assert (Hskip : forall w1, open_clients (S i) ds w1 devs = (w', devs') ->
    NoDup (wd_reg_idx <$> devs) -> Forall (fun v => (wd_reg_idx v < i)%nat) devs ->
    NoDup (wd_reg_idx <$> devs') /\ forall v, v ∈ devs' -> v ∈ devs \/ dialed_from i (d :: ds) v).
  { intros w1 H Hn Hf. destruct (IH _ _ _ H Hn (Hweak Hf)) as [? G]. split; [done|]. intros v Hv.
    destruct (G v Hv); [by left|right; by apply dialed_from_tail]. }
  destruct (dialable d) eqn:Ed; [|apply Hskip].
  unfold wiz_client_open. destruct (udp_socket w) as [w1 fd]. destruct (fd <? 0) eqn:Efd; [apply Hskip|].
  cbn. intros H Hn Hf. destruct (IH _ _ _ H) as [? G].
  - rewrite fmap_app. apply NoDup_app. split; [done|]. split; [|apply NoDup_singleton].
    intros x Hx Hx2. apply list_elem_of_fmap in Hx as (v & -> & Hv). simpl in Hx2.
    apply list_elem_of_singleton in Hx2. rewrite Forall_forall in Hf. specialize (Hf v Hv). simpl in Hf. lia.
  - apply Forall_app. split; [by apply Hweak|]. constructor; [simpl; lia|constructor].
  - split; [done|]. intros v Hv. destruct (G v Hv) as [[Hv2|Hv2]%elem_of_app|Hv2];
      [by left| |right; by apply dialed_from_tail].
    apply list_elem_of_singleton in Hv2. subst v. right. exists 0%nat, d. bool_hyps.
    repeat split; try done; simpl; lia.
Qed.

(** What start-up leaves. *)
Lemma wifi_boot_spec (w : W) rep pub mr ip leaf bus (s : wifi_t W) :
  wifi_boot json_loads service w rep pub mr ip leaf bus = Some (Some s) ->
  wf_bus s = bus /\ wf_last_poll s = 0 /\ wf_devs s <> [] /\ NoDup (wd_reg_idx <$> wf_devs s) /\
  (forall v, v ∈ wf_devs s -> exists d, dr_devices (wf_reg s) !! wd_reg_idx v = Some d /\
     hd_online d = true /\ wc_ip (wd_sock v) = hes_strlcpy 64 (hd_address d) /\
     wc_port (wd_sock v) = hd_udp_port d /\ 0 < hd_udp_port d).
Proof.
  unfold wifi_boot. destruct (hes_mreg_open _ _ _ _) as [m rv]. destruct (negb (rv =? 0)); [done|].
  destruct (hes_mreg_query _ _ _ _ _) as [[[w1 reg] rv1]|]; [|done]. cbn. destruct (negb (rv1 =? 0)); [done|].
  destruct (bool_decide _); [done|]. destruct (hes_mreg_report _ _ _ _) as [[w2 rv2]|]; [|done]. cbn.
  destruct (hes_mreg_query _ _ _ _ _) as [[[w3 reg2] rv3]|]; [|done]. cbn. destruct (negb (rv3 =? 0)); [done|].
  destruct (open_clients _ _ _ _) as [w4 devs] eqn:Eo. case_bool_decide; [done|].
  destruct (negb _); [done|]. intros [= <-]. simpl.
  destruct (open_clients_spec _ _ _ _ _ _ Eo) as [Hn Hin]; [constructor|constructor|].
  split; [done|]. split; [done|]. split; [done|]. split; [done|]. intros v Hv.
  destruct (Hin v Hv) as [Hv0|(k & d & Hk & -> & (Hd & Hip & Hport & _))]; [by apply not_elem_of_nil in Hv0|].
  exists d. unfold dialable in Hd. bool_hyps. repeat split; try done.
Qed.

(** A WiFi module only ever speaks for its own devices. Along any run of the main loop
    after start-up, whatever messages, notifications and replies arrive, every message it
    puts on the bus is an event-report of an object one of its devices exposes for reading,
    stamped with that device's index, its payload 0 or 1 for a light and a decimal for a
    brightness; the devices, their objects and the bulbs' sockets stay those of start-up. *)
Theorem wifi_speaks_for_its_devices (w : W) rep pub mr ip leaf bus (s0 s : wifi_t W) es :
  wifi_boot json_loads service w rep pub mr ip leaf bus = Some (Some s0) ->
  wifi_run json_loads service s0 es = Some s ->
  (exists ms, bus_extends bus (wf_bus s) ms /\
     Forall (fun m => exists d, d ∈ dr_devices (wf_reg s0) /\ reports d m) ms) /\
  same_shape (wf_reg s) (wf_reg s0) /\
  dev_id <$> wf_devs s = dev_id <$> wf_devs s0 /\
  (forall v, v ∈ wf_devs s0 -> exists d, dr_devices (wf_reg s0) !! wd_reg_idx v = Some d /\
     hd_online d = true /\ wc_ip (wd_sock v) = hes_strlcpy 64 (hd_address d) /\
     wc_port (wd_sock v) = hd_udp_port d /\ 0 < hd_udp_port d).
Proof.
  intros Hb Hr. destruct (wifi_boot_spec _ _ _ _ _ _ _ _ Hb) as (<- & _ & _ & _ & Hsock).
  by destruct (wifi_run_ok _ _ _ Hr).
Qed.

(** ** Writes *)

(** A PUT acts on at most one device. Either nothing changes, or one device that is
    online, has a socket and exposes the path with write access is written to, through its
    own socket; the registry, the bus and every other socket stay as they were. A message
    that names a device reaches no other, and one that names none is refused when two
    devices could be meant. *)
Theorem put_acts_on_one_device (s : wifi_t W) m :
  let s' := wifi_put json_loads s m in
  wf_reg s' = wf_reg s /\ wf_bus s' = wf_bus s /\
  (s' = s \/
   exists i dev d obj c rv, wf_devs s !! i = Some dev /\ dr_devices (wf_reg s) !! wd_reg_idx dev = Some d /\
     hd_online d = true /\ (msg_device_index m <> 0 -> hd_device_index d = msg_device_index m) /\
     obj ∈ hd_objects d /\ do_path obj = msg_path m /\ has_char "w" (do_access obj) = true /\
     write_object json_loads (wf_world s) (wd_sock dev) obj (msg_payload m) = (wf_world s', c, rv) /\
     socket_of c = socket_of (wd_sock dev) /\
     forall j, j <> i -> wf_devs s' !! j = wf_devs s !! j) /\
  (msg_device_index m = 0 -> Forall (fun d => hd_device_index d <> 0) (dr_devices (wf_reg s)) ->
     forall i j di dj, i <> j -> dr_devices (wf_reg s) !! i = Some di -> dr_devices (wf_reg s) !! j = Some dj ->
     serves (msg_path m) di = true -> serves (msg_path m) dj = true -> s' = s).
Proof.
  intros s'. pose proof (wifi_put_frame s m) as [_ Hreg _ _ _].
  split; [done|]. split; [|split].
  - subst s'. unfold wifi_put. destruct (addressed s m "w") as [[[[k dev] d] obj]|]; [|done].
    by destruct (write_object _ _ _ _ _) as [[w c] rv].
  - subst s'. unfold wifi_put. destruct (addressed s m "w") as [[[[k dev] d] obj]|] eqn:Ea; [|by left].
    apply addressed_spec in Ea as (Hdev & Hd & Hres & Ho & Hp & Hacc). right.
    apply resolve_index_serves in Hres as (d' & Hd' & Hs & Hdi). rewrite Hd in Hd'. simplify_eq.
    apply serves_spec in Hs as [Hon _].
    destruct (write_object _ _ _ _ _) as [[w c] rv] eqn:Ew. exists k, dev, d', obj, c, rv.
    pose proof (write_object_socket _ _ _ _ _ _ _ Ew). repeat (split; [done|]).
    intros j Hj. simpl. by rewrite list_lookup_alter_ne.
  - intros H0 Hnz i j di dj Hij Hi Hj Hsi Hsj. subst s'. unfold wifi_put, addressed, resolve_index.
    rewrite H0. assert (Hn : index_by_di (wf_reg s) 0 = None) by by apply index_by_di_None.
    rewrite Hn. cbn. destruct (lone_match _ _ _ _) as [k|] eqn:E; [|done]. exfalso.
    apply lone_match_Some in E as (d & _ & _ & _ & Hu).
    pose proof (Hu i di Hi Hsi). pose proof (Hu j dj Hj Hsj). congruence.
Qed.
End facts.

(** ** A module with one bulb *)

Definition ex_nng : Nng := {| nng_req0_open := 0; nng_sub0_open := 0; nng_dial _ _ := 0 |}.

Definition ex_slice : json :=
  JObject [("devices", JArray [JObject
    [("deviceIndex", JInteger 7); ("netRefIndex", JInteger 1); ("status", JString "online");
     ("address", JString "10.0.0.7"); ("udpPort", JInteger 38899);
     ("objects", JArray [JObject [("lexiconPath", JString HES_LX_LIGHT_CV); ("access", JString "rw")]])]])].

Definition ex_json (text : string) : option json :=
  if text =?s "slice" then Some ex_slice else script_json text.

Definition ex_service (w : list (option (list arrival))) (req : string)
  : list (option (list arrival)) * option string := (w, Some "slice").

Definition ex_bus : hes_bus_t := mk_bus [] (fun _ => mk_reading None 0).

Definition ex_device (online : bool) : hes_device_t :=
  mk_device 7 1 "" "" "" "10.0.0.7" 38899 online [mk_dev_object HES_LX_LIGHT_CV "rw"].

(** The module after start-up, its bulb answering the requests as [w] scripts. *)
Definition ex_wifi (w : list (option (list arrival))) : wifi_t (list (option (list arrival))) :=
  mk_wifi w (mk_mreg true true "hi" 3 "3") (mk_devreg "" "" 0 "" [ex_device true])
    [mk_wifi_dev 0 (mk_wiz 3 "10.0.0.7" 38899 [])] ex_bus 0.

Definition ex_answer : list (option (list arrival)) := [Some [Datagram "ack"; Datagram "answer"]].

Lemma ex_boot (w : list (option (list arrival))) :
  @wifi_boot indefinite_target ex_nng _ script_udp ex_json ex_service w "r" "p" 3 "192.168.1.142"
    (fun _ => 0) ex_bus = Some (Some (ex_wifi w)).
Proof. vm_compute. reflexivity. Qed.

Lemma ex_indices w : NoDup (wd_reg_idx <$> wf_devs (ex_wifi w)).
Proof. apply NoDup_singleton. Qed.

Definition ex_report : hes_clme_msg_t := msg_with_query "va" (event_of 7 HES_LX_LIGHT_CV "1").

Lemma poll_tracks_presence_witness :
  exists s, @wifi_poll indefinite_target _ script_udp ex_json ex_service (ex_wifi ex_answer) 20 = Some s /\
    bus_sent (wf_bus s) = [ex_report] /\ dr_devices (wf_reg s) = [ex_device true] /\
  exists s2, @wifi_poll indefinite_target _ script_udp ex_json ex_service s 30 = Some s2 /\
    dr_devices (wf_reg s2) = [ex_device false] /\ wf_last_poll s2 = 30.
Proof.
  eexists. split; [vm_compute; reflexivity|]. split; [reflexivity|]. split; [reflexivity|].
  eexists. match goal with |- ?P /\ _ => assert (H : P) by (vm_compute; reflexivity) end.
  split; [exact H|]. split; [reflexivity|].
  apply (@poll_tracks_presence indefinite_target _ script_udp ex_json ex_service _ _ 30 H);
    [vm_compute; discriminate|apply NoDup_singleton].
Defined.

Lemma wifi_speaks_for_its_devices_witness :
  exists s, @wifi_run indefinite_target _ script_udp ex_json ex_service (ex_wifi ex_answer)
      [mk_wifi_input (Some (hes_msg_set_path (msg_with_verb HES_VERB_GET hes_msg_init) HES_LX_LIGHT_CV)) (inr 5) 3]
      = Some s /\ bus_sent (wf_bus s) = [event_of 7 HES_LX_LIGHT_CV "1"] /\
    same_shape (wf_reg s) (wf_reg (ex_wifi ex_answer)).
Proof.
  eexists. match goal with |- ?P /\ _ => assert (H : P) by (vm_compute; reflexivity) end.
  split; [exact H|]. split; [reflexivity|].
  exact (proj1 (proj2 (@wifi_speaks_for_its_devices indefinite_target ex_nng _ script_udp ex_json ex_service
    ex_answer "r" "p" 3 "192.168.1.142" (fun _ => 0) ex_bus _ _ _ (ex_boot ex_answer) H))).
Defined.
