(* ===== verification/WifiLive.v ===== *)
(** * The WiFi module stays live

    Every turn of han/wifi/wifi.c's loop ends within its buffers, whatever messages come, as
    long as the manifest service and the bulbs send what the buffers and [int] hold. *)

From S2P Require Import Prelude CLib HesCommon Bus Json JsonText Devreg Slice Mreg ManifestFacts ModuleLive Wiz WizFacts Wifi WifiFacts.

Section live.
Context {target : Target} {nng : Nng} {W : Type} {udp : Udp W}.
Variable json_loads : string -> option json.
Variable service : W -> string -> W * option string.

(** A datagram that is no JSON, or JSON from whose channels a brightness can be computed within
    [int]. *)
Definition arrival_ok (a : arrival) : Prop :=
  match a with
  | Datagram d => forall root, json_loads (reply_text d) = Some root -> brightness_of_reply root <> None
  | RecvError => True
  end.

(** The manifest service's replies fit, and no datagram that reaches a socket has a channel whose
    hundredfold leaves [int]. *)
Record peers_fit : Prop := {
  pf_service : service_fits service;
  pf_late : forall w fd w' l, udp_late w fd = (w', l) -> Forall arrival_ok l;
  pf_sent : forall w fd addr port req w' l, udp_sendto w fd addr port req = (w', Some l) -> Forall arrival_ok l;
}.
Hypothesis Hpeers : peers_fit.

Definition input_fits (e : wifi_input) : Prop := notification_fits (wi_notification e).

Definition sock_ok (c : wiz_client_t) : Prop := Forall arrival_ok (wc_queue c).

Definition socks_ok (s : wifi_t W) : Prop := Forall (fun v => sock_ok (wd_sock v)) (wf_devs s).

(** The handle and the registry are within their bounds, every socket has its device, and what
    the sockets still hold can be read. *)
Record bounded (s : wifi_t W) : Prop := {
  bd_mreg : handle_fits (wf_mreg s);
  bd_reg : devreg_fits (wf_reg s);
  bd_devs : Forall (fun v => (wd_reg_idx v < length (dr_devices (wf_reg s)))%nat) (wf_devs s);
  bd_socks : socks_ok s;
}.

Lemma bounded_ids s s' : wf_mreg s' = wf_mreg s -> devreg_fits (wf_reg s') ->
  length (dr_devices (wf_reg s')) = length (dr_devices (wf_reg s)) -> dev_id <$> wf_devs s' = dev_id <$> wf_devs s ->
  socks_ok s' -> bounded s -> bounded s'.
Proof.
  intros Hm Hr Hl Hd Hq [H1 _ H3 _]. split; [by rewrite Hm|done| |done]. rewrite Hl. apply Forall_lookup. intros j v Hv.
  destruct (ids_lookup _ _ j v (eq_sym Hd) Hv) as (v1 & Hv1 & <-). rewrite Forall_lookup in H3. by eapply H3.
Qed.

Lemma bounded_frame s s' ms : frame s s' ms -> socks_ok s' -> bounded s -> bounded s'.
Proof. intros [Hm Hr _ Hd _] Hq Hb. apply (bounded_ids s); try done; rewrite Hr; [apply Hb|done]. Qed.

Lemma send_recv_ok w c method req w' c' resp :
  wiz_send_recv json_loads w c method req = (w', c', resp) -> sock_ok c ->
  sock_ok c' /\ reply_arrived arrival_ok resp.
Proof. apply send_recv_arrivals; [apply (pf_late Hpeers)|apply (pf_sent Hpeers)]. Qed.

Lemma get_pilot_ok w c w' c' root : get_pilot json_loads w c = (w', c', root) -> sock_ok c ->
  sock_ok c' /\ forall r, root = Some r -> brightness_of_reply r <> None.
Proof.
  unfold get_pilot. destruct (wiz_send_recv _ _ _ _ _) as [[w1 c1] resp] eqn:E. intros [= <- <- <-] Hc.
  destruct (send_recv_ok _ _ _ _ _ _ _ E Hc) as [Hc1 Hr]. split; [done|]. intros r H.
  destruct resp as [resp|]; [|done]. destruct (Hr resp eq_refl) as (d & Hd & ->). by apply Hd.
Qed.

Lemma set_pilot_ok w c params w' c' rv : set_pilot json_loads w c params = (w', c', rv) -> sock_ok c -> sock_ok c'.
Proof.
  unfold set_pilot. destruct (wiz_send_recv _ _ _ _ _) as [[w1 c1] resp] eqn:E. intros [= <- <- <-] Hc.
  by apply send_recv_ok in E as [? _].
Qed.

Lemma read_object_total w c obj : sock_ok c ->
  exists w' c' r, read_object json_loads w c obj = Some (w', c', r) /\ sock_ok c'.
Proof.
  intros Hc. unfold read_object, wiz_client_get_state, wiz_client_get_brightness.
  destruct (get_pilot json_loads w c) as [[w1 c1] root] eqn:E. destruct (get_pilot_ok _ _ _ _ _ E Hc) as [Hc1 Hroot].
  destruct (_ =?s _); [by eexists _, _, _|]. destruct (_ =?s _); [|by eexists _, _, _].
  destruct root as [root|]; [|by eexists _, _, _]. specialize (Hroot root eq_refl).
  destruct (brightness_of_reply root) as [level|]; [|done]. by eexists _, _, _.
Qed.

Lemma write_object_ok w c obj payload w' c' rv :
  write_object json_loads w c obj payload = (w', c', rv) -> sock_ok c -> sock_ok c'.
Proof.
  unfold write_object, wiz_client_set_state, wiz_client_set_brightness.
  destruct (_ =?s _); [apply set_pilot_ok|]. destruct (_ =?s _); [|by intros [= <- <- <-]].
  destruct (_ <=? _); [apply set_pilot_ok|]. destruct (set_pilot json_loads w c _) as [[w1 c1] rv1] eqn:E.
  intros H Hc. apply (set_pilot_ok _ _ _ _ _ _ E) in Hc. by eapply set_pilot_ok.
Qed.

Lemma with_sock_ok i w c s : socks_ok s -> sock_ok c -> socks_ok (wifi_with_sock i w c s).
Proof.
  intros Hs Hc. unfold socks_ok. cbn. apply Forall_alter; [done|]. by intros v _ _.
Qed.

Lemma socks_lookup s i dev : socks_ok s -> wf_devs s !! i = Some dev -> sock_ok (wd_sock dev).
Proof. unfold socks_ok. rewrite Forall_lookup. intros H Hi. by apply (H i). Qed.

Lemma message_total s m : socks_ok s -> exists s', wifi_message json_loads s m = Some s' /\ socks_ok s'.
Proof.
  intros Hs. unfold wifi_message. destruct (_ =? HES_VERB_SUBSCRIBE); [by eexists|]. destruct (_ =? HES_VERB_PUT).
  - eexists. split; [done|]. unfold wifi_put. destruct (addressed s m "w") as [[[[didx dev] d] obj]|] eqn:Ea; [|done].
    apply addressed_spec in Ea as (Hdev & _). destruct (write_object _ _ _ _ _) as [[w c] rv] eqn:Ew.
    apply with_sock_ok; [done|]. eapply write_object_ok; [exact Ew|]. by eapply socks_lookup.
  - destruct (_ =? HES_VERB_GET); [|by eexists]. unfold wifi_get.
    destruct (addressed s m "r") as [[[[didx dev] d] obj]|] eqn:Ea; [|by eexists].
    apply addressed_spec in Ea as (Hdev & _).
    destruct (read_object_total (wf_world s) (wd_sock dev) obj) as (w & c & r & -> & Hc); [by eapply socks_lookup|]. cbn.
    destruct r; (eexists; split; [done|]); by apply with_sock_ok.
Qed.

Lemma notification_total s e : input_fits e -> bounded s ->
  exists s', wifi_notification json_loads s (wi_notification e) = Some s' /\ bounded s'.
Proof.
  unfold input_fits, wifi_notification. intros He Hb.
  destruct (recv_update_total json_loads (wf_mreg s) hes_devreg_init _ He) as (upd & rv & ->). cbn.
  eexists. split; [done|]. destruct (rv =? 0); [|done].
  apply (bounded_ids s); [done|by apply merge_slice_fits, Hb| |done|apply Hb|done]. cbn. by rewrite length_fmap.
Qed.

Lemma poll_objects_total i d objs s b : (i < length (wf_devs s))%nat -> socks_ok s ->
  exists s' b', for_each (wifi_poll_object json_loads i d) objs (s, b) = Some (s', b') /\ socks_ok s'.
Proof.
  revert s b. induction objs as [|obj objs IH]; intros s b Hi Hs; cbn [for_each]; [by eexists _, _|].
  destruct (lookup_lt_is_Some_2 (wf_devs s) i Hi) as [dev Hdev].
  unfold wifi_poll_object at 1. destruct (negb _); [by apply IH|]. rewrite Hdev. cbn.
  destruct (read_object_total (wf_world s) (wd_sock dev) obj) as (w & c & r & -> & Hc); [by eapply socks_lookup|]. cbn.
  pose proof (with_sock_ok i w c s Hs Hc) as Hs1.
  destruct r as [v|]; apply IH; first [cbn; by rewrite length_alter|done].
Qed.

Lemma poll_device_total i s : (i < length (wf_devs s))%nat -> bounded s ->
  exists s', wifi_poll_device json_loads service i s = Some s' /\ bounded s' /\ length (wf_devs s') = length (wf_devs s).
Proof.
  intros Hi Hb. pose proof Hb as [Hm Hr Hd Hq]. destruct (lookup_lt_is_Some_2 (wf_devs s) i Hi) as [dev Hdev].
  assert (Hix : (wd_reg_idx dev < length (dr_devices (wf_reg s)))%nat) by (rewrite Forall_lookup in Hd; by eapply Hd).
  destruct (lookup_lt_is_Some_2 _ _ Hix) as [d Hdd].
  destruct (poll_objects_total i d (hd_objects d) s false Hi Hq) as (s1 & b & Hpoll & Hq1).
  destruct (poll_objects_spec _ i d (hd_objects d) s false s1 b ltac:(done) Hpoll) as (ms & Hf & _).
  pose proof (bounded_frame _ _ _ Hf Hq1 Hb) as Hb1. pose proof (fr_devs _ _ _ Hf) as Hids.
  apply (f_equal length) in Hids. rewrite !length_fmap in Hids.
  unfold wifi_poll_device. rewrite Hdev. cbn. rewrite Hdd. cbn. rewrite Hpoll. cbn.
  destruct (Bool.eqb b (hd_online d)); [by exists s1|]. pose proof Hb1 as [Hm1 Hr1 _ _].
  destruct (report_total service (pf_service Hpeers) (wf_world s1) (wf_mreg s1) (set_online (wd_reg_idx dev) b (wf_reg s1))) as (w & rv & ->);
    [done|by apply set_online_fits|]. cbn. eexists. split; [done|]. split; [|done].
  apply (bounded_ids s1); [done|by apply set_online_fits| |done|done|done]. cbn. by rewrite length_alter.
Qed.

Lemma poll_devices_total ids s : bounded s -> Forall (fun i => (i < length (wf_devs s))%nat) ids ->
  exists s', for_each (wifi_poll_device json_loads service) ids s = Some s' /\ bounded s'.
Proof.
  revert s. induction ids as [|i ids IH]; intros s Hb Hi; cbn [for_each]; [by exists s|].
  apply Forall_cons in Hi as [Hi His]. destruct (poll_device_total i s Hi Hb) as (s1 & -> & Hb1 & Hl).
  apply IH; [done|]. by rewrite Hl.
Qed.

Lemma turn_total s e : input_fits e -> bounded s -> exists s', wifi_turn json_loads service s e = Some s' /\ bounded s'.
Proof.
  intros He Hb. unfold wifi_turn.
  assert (H1 : exists s1, (match wi_message e with Some m => wifi_message json_loads s m | None => Some s end) = Some s1 /\ bounded s1).
  { destruct (wi_message e) as [m|]; [|by exists s]. destruct (message_total s m) as (s1 & E & Hq1); [apply Hb|].
    exists s1. split; [done|]. apply wifi_message_frame in E as (ms & Hf & _). by eapply bounded_frame. }
  destruct H1 as (s1 & -> & Hb1). cbn [mbind option_bind].
  destruct (notification_total s1 e He Hb1) as (s2 & -> & Hb2). cbn [mbind option_bind].
  unfold wifi_poll. destruct (_ <=? _); [|by exists s2]. apply poll_devices_total.
  - apply (bounded_ids s2); [done|apply Hb2|done|done|apply Hb2|done].
  - apply Forall_forall. intros i Hi%elem_of_seq. cbn in Hi |- *. lia.
Qed.

Lemma run_total es s : Forall input_fits es -> bounded s -> exists s', wifi_run json_loads service s es = Some s' /\ bounded s'.
Proof.
  intros Hes. apply for_each_total. intros e t He. apply turn_total. by rewrite Forall_forall in Hes; apply Hes.
Qed.
(** ** Start-up *)

Lemma boot_device_fits ip d : device_fits d -> device_fits (boot_device ip d).
Proof.
  intros H. unfold boot_device. destruct (hes_dev_object_find d HES_LX_LIGHT_CV); [|done].
  destruct H as (? & ? & ? & ? & ? & ? & ? & ?).
  assert (- 2 ^ 31 <= WIZ_DEFAULT_PORT < 2 ^ 31) by by compute.
  destruct (_ =?s _), (_ <=? 0); unfold device_fits; cbn -[hes_strlcpy]; do 6 (split; [done|]);
    (split; [first [done|apply hes_strlcpy_fits; lia]|done]).
Qed.

Lemma open_clients_socks i ds (w w' : W) devs devs' : open_clients i ds w devs = (w', devs') ->
  Forall (fun v => sock_ok (wd_sock v)) devs -> Forall (fun v => sock_ok (wd_sock v)) devs'.
Proof.
  revert i w devs. induction ds as [|d ds IH]; intros i w devs; cbn [open_clients]; [by intros [= <- <-]|].
  destruct (dialable d); [|apply IH]. unfold wiz_client_open. destruct (udp_socket w) as [w1 fd].
  intros E Hd. eapply IH; [exact E|]. destruct (_ =? 0); [|done].
  apply Forall_app. split; [done|]. by repeat constructor.
Qed.

(** Start-up ends, and leaves the module within its bounds when it succeeds. *)
Lemma boot_total w rep pub mr ip leaf bus : 0 <= mr < 2 ^ 32 ->
  exists o, wifi_boot json_loads service w rep pub mr ip leaf bus = Some o /\ forall s, o = Some s -> bounded s.
Proof.
  intros Hmr. assert (Hend : exists o, wifi_boot json_loads service w rep pub mr ip leaf bus = Some o /\
    forall s, o = Some s -> handle_fits (wf_mreg s) /\ devreg_fits (wf_reg s) /\ socks_ok s).
  { pose proof (mreg_open_connects rep pub (Some HES_MT_INTERFACE) mr Hmr) as Ho. unfold wifi_boot.
    destruct (hes_mreg_open _ _ _ _) as [m rv]. destruct Ho as (_ & _ & _ & _ & Hm).
    destruct (rv =? 0); cbn [negb]; [|by exists None].
    destruct (query_total json_loads service (pf_service Hpeers) w m hes_devreg_init) as (w1 & reg & rv1 & E1). rewrite E1. cbn.
    destruct (rv1 =? 0) eqn:Hz1; cbn [negb]; [|by exists None]. case_bool_decide; [by exists None|].
    pose proof (query_fits _ _ _ _ _ _ _ _ E1 ltac:(by apply Z.eqb_eq)) as Hr1.
    destruct (first_report_total service (pf_service Hpeers) (boot_device ip) w1 m reg (boot_device_fits ip) Hm Hr1)
      as (w2 & rv2 & ->).
    cbn. destruct (query_total json_loads service (pf_service Hpeers) w2 m hes_devreg_init) as (w3 & reg2 & rv3 & E3). rewrite E3. cbn.
    destruct (rv3 =? 0) eqn:Hz3; cbn [negb]; [|by exists None].
    pose proof (query_fits _ _ _ _ _ _ _ _ E3 ltac:(by apply Z.eqb_eq)) as Hr2.
    destruct (open_clients _ _ _ _) as [w4 devs] eqn:Eo. case_bool_decide; [by exists None|].
    destruct (negb _); [by exists None|]. eexists. split; [done|]. intros s [= <-]. split_and!; [done..|].
    by eapply open_clients_socks. }
  destruct Hend as (o & Ho & Hfit). exists o. split; [done|]. intros s ->. destruct (Hfit s eq_refl) as (Hm & Hr & Hq).
  split; [done|done| |done]. destruct (wifi_boot_spec _ _ _ _ _ _ _ _ _ _ Ho) as (_ & _ & _ & _ & Hs).
  apply Forall_forall. intros v (d & Hd & _)%Hs. by eapply lookup_lt_Some.
Qed.

(** A WiFi module comes up, stays up and speaks for its own devices only. Whatever the
    bus, the manifest service's notifications and the bulbs bring, as long as the service's
    replies and notifications fit the client's buffers and no bulb answers with a channel whose
    hundredfold leaves [int], start-up ends, and after a start-up that succeeded every turn of
    the main loop ends. Every message the module puts on the bus is an event-report of an
    object one of its devices exposes for reading, with that device's index; its devices, their
    objects and the bulbs' sockets stay those of start-up. *)
Theorem wifi_stays_live w rep pub mr ip leaf bus es :
  0 <= mr < 2 ^ 32 -> Forall input_fits es ->
  exists o, wifi_boot json_loads service w rep pub mr ip leaf bus = Some o /\
  forall s0, o = Some s0 -> exists s, wifi_run json_loads service s0 es = Some s /\
    (exists ms, bus_extends bus (wf_bus s) ms /\
       Forall (fun m => exists d, d ∈ dr_devices (wf_reg s0) /\ reports d m) ms) /\
    same_shape (wf_reg s) (wf_reg s0) /\ dev_id <$> wf_devs s = dev_id <$> wf_devs s0.
Proof.
  intros Hmr Hes. destruct (boot_total w rep pub mr ip leaf bus Hmr) as (o & Ho & Hb). exists o. split; [done|].
  intros s0 ->. destruct (run_total es s0 Hes (Hb s0 eq_refl)) as (s & Hr & _). exists s. split; [done|].
  destruct (wifi_boot_spec _ _ _ _ _ _ _ _ _ _ Ho) as (<- & _). by destruct (wifi_run_ok _ _ _ _ _ Hr).
Qed.
End live.

(** ** A module that is asked for its bulb's state, is sent its slice again, and polls *)

(** A lamp: it acknowledges, and then tells its brightness, in texts such a lamp sends; [w] says
    of each send whether it is heard. *)
Definition lamp_ack : string := dq "{'method':'setPilot','env':'pro','result':{}}".
Definition lamp_state : string := dq "{'method':'getPilot','env':'pro','result':{'mac':'a8bb50aabbcc','dimming':60}}".

Definition lamp_udp : Udp (list bool) := {|
  udp_socket w := (w, 3);
  udp_late w _ := (w, [Datagram lamp_ack]);
  udp_sendto (w : list bool) _ _ _ _ :=
    match w with [] => ([], Some []) | b :: w' => (w', Some (if b then [Datagram lamp_ack; Datagram lamp_state] else [])) end;
|}.

(** Its slice, as the manifest service words it. *)
Definition lamp_slice : string :=
  (dq "{'devices':[{'deviceIndex':7,'netRefIndex':1,'status':'online','address':'10.0.0.7','udpPort':38899,'objects':[{'lexiconPath':'" ++
  HES_LX_LIGHT_BRIGHTNESS_CV ++ dq "','access':'rw'}]}]}")%string.

Definition lamp_service (w : list bool) (req : string) : list bool * option string := (w, Some lamp_slice).

Definition ex_inputs : list wifi_input :=
  [mk_wifi_input (Some (hes_msg_set_path (msg_with_verb HES_VERB_GET hes_msg_init) HES_LX_LIGHT_BRIGHTNESS_CV)) (inl ("3" ++ lamp_slice)%string) 3;
   mk_wifi_input None (inr 5) 12].

Lemma lamp_fits : @peers_fit indefinite_target _ lamp_udp read_json lamp_service.
Proof.
  assert (Hok : forall t, t = lamp_ack \/ t = lamp_state -> @arrival_ok indefinite_target read_json (Datagram t)).
  { intros t H root E. destruct H as [-> | ->]; vm_compute in E; injection E as <-; vm_compute; discriminate. }
  split.
  - split; intros w m; [intros ans [= <-]|intros reg req ans _ [= <-]]; apply Nat.ltb_lt; by vm_compute.
  - intros w fd w' l [= <- <-]. constructor; [apply Hok; by left|constructor].
  - intros w fd addr port req w' l. destruct w as [|b w]; [intros [= <- <-]; constructor|]. intros [= <- <-].
    destruct b; repeat constructor; apply Hok; auto.
Qed.

Definition lamp_device : hes_device_t :=
  mk_device 7 1 "" "" "" "10.0.0.7" 38899 true [mk_dev_object HES_LX_LIGHT_BRIGHTNESS_CV "rw"].

Definition lamp_module (w : list bool) : wifi_t (list bool) :=
  mk_wifi w (mk_mreg true true "hi" 3 "3") (mk_devreg "" "" 0 "" [lamp_device])
    [mk_wifi_dev 0 (mk_wiz 3 "10.0.0.7" 38899 [])] ex_bus 0.

Lemma lamp_boot (w : list bool) :
  @wifi_boot indefinite_target ex_nng _ lamp_udp read_json lamp_service w "r" "p" 3 "192.168.1.142"
    (fun _ => 0) ex_bus = Some (Some (lamp_module w)).
Proof. vm_compute. reflexivity. Qed.

Lemma wifi_stays_live_witness :
  exists s, @wifi_run indefinite_target _ lamp_udp read_json lamp_service (lamp_module [true; false; false]) ex_inputs = Some s /\
    bus_sent (wf_bus s) = [event_of 7 HES_LX_LIGHT_BRIGHTNESS_CV "60"] /\ same_shape (wf_reg s) (wf_reg (lamp_module [])).
Proof.
  assert (Hin : Forall input_fits ex_inputs)
    by (constructor; [apply Nat.ltb_lt; vm_compute; reflexivity|by constructor]).
  destruct (@wifi_stays_live indefinite_target ex_nng _ lamp_udp read_json lamp_service lamp_fits
    [true; false; false] "r" "p" 3 "192.168.1.142" (fun _ => 0) ex_bus ex_inputs) as (o & Ho & H);
    [lia|exact Hin|].
  rewrite lamp_boot in Ho. injection Ho as <-. destruct (H _ eq_refl) as (s & Hs & _ & Hshape & _).
  exists s. split; [exact Hs|]. split; [|exact Hshape].
  assert (E : option_map (fun s => bus_sent (wf_bus s)) (Some s) = Some [event_of 7 HES_LX_LIGHT_BRIGHTNESS_CV "60"])
    by (rewrite <- Hs; vm_compute; reflexivity).
  injection E as E. exact E.
Defined.
