(* ===== verification/WifiMain.v ===== *)
(** * The WiFi module's process

    Models han_wifi_main of src/src/han/wifi/wifi.c from its first call to its exit code: the
    manifest handle, the bulbs' descriptors and the bus leaf as they are opened, the loop until
    the signal, and the way out. Start-up is that of Wifi.v with the resources it acquires. *)

From S2P Require Import Prelude CLib HesCommon Bus Json JsonText Devreg Slice Mreg ManifestFacts ModuleLive Wiz WizFacts Wifi WifiFacts WifiLive.

(** What is open: the manifest handle, the UDP descriptors, and the calls on the leaf. *)
Record wifi_res := mk_wifi_res {
  wr_mreg : hes_mreg_t;
  wr_fds : list Z;
  wr_leaf : history;
}.

(** [close(fd)]: one descriptor of that number is gone. *)
Fixpoint close_fd (fd : Z) (fds : list Z) : list Z :=
  match fds with
  | [] => []
  | x :: fds' => if x =? fd then fds' else x :: close_fd fd fds'
  end.

Definition wiz_client_close (c : wiz_client_t) (fds : list Z) : list Z :=
  if 0 <=? wc_fd c then close_fd (wc_fd c) fds else fds.

Section main.
Context {target : Target} {nng : Nng} {nngb : NngBus} {W : Type} {udp : Udp W}.
Variable json_loads : string -> option json.
Variable service : W -> string -> W * option string.

(** The loop of Wifi.open_clients, with the descriptors. *)
Fixpoint open_clients_fds (i : nat) (ds : list hes_device_t) (w : W) (devs : list wifi_dev_t) (fds : list Z)
  : W * list wifi_dev_t * list Z :=
  match ds with
  | [] => (w, devs, fds)
  | d :: ds' =>
      if dialable d then
        let '(w, c, rv) := wiz_client_open w (hd_address d) (hd_udp_port d) in
        let fds := if 0 <=? wc_fd c then fds ++ [wc_fd c] else fds in
        open_clients_fds (S i) ds' w (if rv =? 0 then devs ++ [mk_wifi_dev i c] else devs) fds
      else open_clients_fds (S i) ds' w devs fds
  end.

Definition wifi_shutdown (s : wifi_t W) (fds : list Z) (h : history) : wifi_res :=
  mk_wifi_res (hes_mreg_close (wf_mreg s)) (fold_left (fun fds d => wiz_client_close (wd_sock d) fds) (wf_devs s) fds)
    (hes_bus_close h).

(** The exit code, what is still open, and the state at the end of a loop that was entered.
    [bus] is the leaf once it is open; [es] the turns until the signal. [None]: a write outside
    a buffer. *)
Definition han_wifi_main (w : W) (svc_rep svc_pub : string) (module_ref : Z) (hub_pub_url hub_sub_url bulb_ip : string)
  (bus : hes_bus_t) (h : history) (es : list wifi_input) : option (Z * wifi_res * option (wifi_t W)) :=
  let '(mreg, rv) := hes_mreg_open svc_rep svc_pub (Some HES_MT_INTERFACE) module_ref in
  if negb (rv =? 0) then Some (1, mk_wifi_res mreg [] h, None)
  else
    let* (w, reg, rv) := hes_mreg_query json_loads service w mreg hes_devreg_init in
    if negb (rv =? 0) then Some (1, mk_wifi_res mreg [] h, None)
    else if bool_decide (dr_devices reg = []) then Some (1, mk_wifi_res mreg [] h, None)
    else
      let reg := reg_with_devices (boot_device bulb_ip <$> dr_devices reg) reg in
      let* (w, _) := hes_mreg_report service w mreg reg in
      let* (w, reg, rv) := hes_mreg_query json_loads service w mreg hes_devreg_init in
      if negb (rv =? 0) then Some (1, mk_wifi_res mreg [] h, None)
      else
        let '(w, devs, fds) := open_clients_fds 0 (dr_devices reg) w [] [] in
        if bool_decide (devs = []) then Some (1, mk_wifi_res mreg fds h, None)
        else
          let '(h, rv) := hes_bus_leaf_open hub_pub_url hub_sub_url (hes_devreg_collect_topics reg HES_BUS_MAX_TOPICS) h in
          if negb (rv =? 0) then Some (1, mk_wifi_res mreg fds h, None)
          else
            let* s := wifi_run json_loads service (mk_wifi w mreg reg devs bus 0) es in
            Some (0, wifi_shutdown s fds h, Some s).

(** ** Start-up is that of Wifi.v *)

Lemma open_clients_fds_spec i ds w devs fds :
  let '(w', devs', fds') := open_clients_fds i ds w devs fds in
  open_clients i ds w devs = (w', devs') /\
  (fds = wc_fd ∘ wd_sock <$> devs -> fds' = wc_fd ∘ wd_sock <$> devs').
Proof.
  revert i w devs fds. induction ds as [|d ds IH]; intros i w devs fds; cbn [open_clients_fds open_clients]; [done|].
  destruct (dialable d); [|apply IH]. unfold wiz_client_open. destruct (udp_socket w) as [w1 fd]. cbn [wc_fd].
  set (devs1 := if (if fd <? 0 then -1 else 0) =? 0 then _ else devs). set (fds1 := if 0 <=? fd then _ else fds).
  specialize (IH (S i) w1 devs1 fds1). destruct (open_clients_fds _ _ _ _ _) as [[w2 devs2] fds2].
  destruct IH as [E IH]. split; [exact E|]. intros ->. apply IH. subst devs1 fds1.
  destruct (Z.ltb_spec fd 0), (Z.leb_spec 0 fd); try lia; [done|]. cbn. by rewrite fmap_app.
Qed.

(** The descriptors of a list are closed one by one. *)
Lemma close_all (devs : list wifi_dev_t) : Forall (fun fd => 0 <= fd) (wc_fd ∘ wd_sock <$> devs) ->
  fold_left (fun fds d => wiz_client_close (wd_sock d) fds) devs (wc_fd ∘ wd_sock <$> devs) = [].
Proof.
  induction devs as [|d devs IH]; [done|]. intros [Hd Hds]%Forall_cons. cbn. unfold wiz_client_close at 2. cbn.
  rewrite (proj2 (Z.leb_le _ _)) by done. rewrite Z.eqb_refl. by apply IH.
Qed.

Lemma opened_nonneg i ds (w w' : W) devs : open_clients i ds w [] = (w', devs) -> Forall (fun fd => 0 <= fd) (wc_fd ∘ wd_sock <$> devs).
Proof.
  intros H. destruct (open_clients_spec _ _ _ _ _ _ H) as [_ Hin]; [constructor|constructor|].
  apply Forall_fmap, Forall_forall. intros v Hv. destruct (Hin v Hv) as [Hv0|(k & d & _ & _ & (_ & _ & _ & Hfd))]; [|done].
  by apply not_elem_of_nil in Hv0.
Qed.

#[local] Arguments hes_bus_leaf_open : simpl never.
#[local] Arguments hes_bus_close : simpl never.

(** What main does after a start-up that failed, and after one that succeeded. *)
Lemma main_boot w rep pub mr hp hs ip bus h es :
  let leaf topics := hes_bus_leaf_open hp hs topics h in
  let main := han_wifi_main w rep pub mr hp hs ip bus h es in
  match wifi_boot json_loads service w rep pub mr ip (fun topics => snd (leaf topics)) bus with
  | None => main = None
  | Some None => exists fds h', main = Some (1, mk_wifi_res (fst (hes_mreg_open rep pub (Some HES_MT_INTERFACE) mr)) fds h', None) /\
      (h' = h \/ exists topics rv, leaf topics = (h', rv) /\ rv <> 0)
  | Some (Some s0) => exists h', main = (let* s := wifi_run json_loads service s0 es in
        Some (0, wifi_shutdown s (wc_fd ∘ wd_sock <$> wf_devs s0) h', Some s)) /\
      Forall (fun fd => 0 <= fd) (wc_fd ∘ wd_sock <$> wf_devs s0)
  end.
Proof.
  cbv zeta. unfold wifi_boot, han_wifi_main. generalize (hes_bus_leaf_open hp hs). intros leaf.
  destruct (hes_mreg_open _ _ _ _) as [m rv]. cbn [fst].
  assert (Hfail : forall fds, exists fds' h', Some (1, mk_wifi_res m fds h, @None (wifi_t W)) = Some (1, mk_wifi_res m fds' h', None) /\
    (h' = h \/ exists topics rv, leaf topics h = (h', rv) /\ rv <> 0)) by (intros fds; exists fds, h; by auto).
  destruct (negb (rv =? 0)); [apply Hfail|].
  destruct (hes_mreg_query _ _ _ _ _) as [[[w1 reg] rv1]|]; [|cbn; reflexivity]. cbn. destruct (negb (rv1 =? 0)); [apply Hfail|].
  case_bool_decide; [apply Hfail|]. destruct (hes_mreg_report _ _ _ _) as [[w2 rv2]|]; [|cbn; reflexivity]. cbn.
  destruct (hes_mreg_query _ _ _ _ _) as [[[w3 reg2] rv3]|]; [|cbn; reflexivity]. cbn. destruct (negb (rv3 =? 0)); [apply Hfail|].
  pose proof (open_clients_fds_spec 0 (dr_devices reg2) w3 [] []) as Hopen.
  destruct (open_clients_fds _ _ _ _ _) as [[w4 devs] fds]. destruct Hopen as [Ho Hfds]. rewrite Ho.
  case_bool_decide; [apply Hfail|]. destruct (leaf _ h) as [h' rvl] eqn:El. cbn [snd].
  destruct (rvl =? 0) eqn:Ez; cbn [negb].
  - exists h'. rewrite Hfds by reflexivity. split; [reflexivity|]. cbn. by eapply opened_nonneg.
  - exists fds, h'. split; [done|]. right. eexists _, rvl. split; [exact El|]. by apply Z.eqb_neq.
Qed.

Hypothesis Hpeers : peers_fit json_loads service.

(** C25: the WiFi module's process. Whatever the bus, the manifest service's notifications and the
    bulbs bring, as long as the service's replies and notifications fit the client's buffers
    and every datagram that reaches a socket of the module is no JSON or a reply whose colour
    channels, times hundred, stay in [int], han_wifi_main comes to its exit. It exits with 1
    when start-up failed, having entered no loop, and with 0 after a loop whose every turn
    ended; then the manifest handle, every bulb's descriptor and both sockets of the leaf are
    closed, and a failed start-up leaves no socket of the leaf either. In between, every message
    it put on the bus is an event-report of an object one of its devices exposes for reading,
    with that device's index, and its devices, their objects and the bulbs' sockets are those
    of start-up. *)
Theorem wifi_process w rep pub mr hp hs ip bus h es :
  0 <= mr < 2 ^ 32 -> Forall input_fits es -> closed h ->
  exists rv res o, han_wifi_main w rep pub mr hp hs ip bus h es = Some (rv, res, o) /\ closed (wr_leaf res) /\
  let boot := wifi_boot json_loads service w rep pub mr ip (fun topics => snd (hes_bus_leaf_open hp hs topics h)) bus in
  match o with
  | None => rv = 1 /\ boot = Some None
  | Some s => rv = 0 /\ mr_req (wr_mreg res) = false /\ mr_sub (wr_mreg res) = false /\ wr_fds res = [] /\
      exists s0, boot = Some (Some s0) /\ wifi_run json_loads service s0 es = Some s /\
        (exists ms, bus_extends bus (wf_bus s) ms /\
           Forall (fun m => exists d, d ∈ dr_devices (wf_reg s0) /\ reports d m) ms) /\
        same_shape (wf_reg s) (wf_reg s0) /\ dev_id <$> wf_devs s = dev_id <$> wf_devs s0
  end.
Proof.
  intros Hmr Hes Hc. pose proof (main_boot w rep pub mr hp hs ip bus h es) as Hm. cbv beta zeta in Hm |- *.
  destruct (wifi_stays_live json_loads service Hpeers w rep pub mr ip (fun topics => snd (hes_bus_leaf_open hp hs topics h)) bus es Hmr Hes) as (o & Ho & H).
  rewrite Ho in Hm |- *. destruct o as [s0|].
  - destruct Hm as (h' & -> & Hfd). destruct (H s0 eq_refl) as (s & Hr & Hms & Hsh & Hid). rewrite Hr. cbn.
    eexists 0, _, (Some s). split; [done|]. split; [apply close_closed|].
    split; [done|]. split; [done|]. split; [done|]. split; [|by exists s0].
    assert (Hfds : wc_fd ∘ wd_sock <$> wf_devs s0 = wc_fd ∘ wd_sock <$> wf_devs s).
    { apply (f_equal (fmap (fun x => fst (fst (snd x))))) in Hid. by rewrite <- !list_fmap_compose in Hid. }
    cbn. rewrite Hfds in Hfd |- *. by apply close_all.
  - destruct Hm as (fds & h' & -> & Hh). eexists 1, _, None. split; [done|]. split; [|done]. cbn.
    destruct Hh as [->|(topics & rv & Hl & Hz)]; [done|]. destruct (leaf_open_sockets _ _ _ _ _ _ Hc Hl) as [_ Hs].
    by rewrite (proj2 (Z.eqb_neq _ _) Hz) in Hs.
Qed.
End main.

(** ** Examples *)

Definition ex_leaf_nng : NngBus := {| nng_answer _ _ := 0 |}.

Lemma wifi_process_witness :
  exists res s, @han_wifi_main indefinite_target ex_nng ex_leaf_nng _ lamp_udp read_json lamp_service
      [true; false; false] "r" "p" 3 "hp" "hs" "192.168.1.142" ex_bus [] ex_inputs = Some (0, res, Some s) /\
    bus_sent (wf_bus s) = [event_of 7 HES_LX_LIGHT_BRIGHTNESS_CV "60"] /\ wr_fds res = [] /\ closed (wr_leaf res).
Proof.
  do 2 eexists. match goal with |- ?P /\ _ => assert (E : P) by (vm_compute; reflexivity) end.
  split; [exact E|]. split; [reflexivity|].
  assert (Hin : Forall input_fits ex_inputs) by (constructor; [apply Nat.ltb_lt; vm_compute; reflexivity|by constructor]).
  destruct (@wifi_process indefinite_target ex_nng ex_leaf_nng _ lamp_udp read_json lamp_service lamp_fits
    [true; false; false] "r" "p" 3 "hp" "hs" "192.168.1.142" ex_bus [] ex_inputs)
    as (rv & res & o & H & Hc & Hres); [lia|exact Hin|by intros []|].
  rewrite E in H. injection H as <- <- <-. split; [apply Hres|exact Hc].
Defined.

(** A start-up that fails after the manifest handle was opened leaves the handle open, and one
    that fails after the bulbs' sockets were opened those too. *)
Example failed_start_leaves_handle :
  exists res, @han_wifi_main indefinite_target ex_nng ex_leaf_nng _ script_udp (fun _ => Some (JObject [("devices", JArray [])])) ex_service
      [] "r" "p" 3 "hp" "hs" "192.168.1.142" ex_bus [] [] = Some (1, res, None) /\ mr_req (wr_mreg res) = true.
Proof. eexists. split; [vm_compute; reflexivity|reflexivity]. Qed.

Example failed_leaf_leaves_sockets :
  exists res, @han_wifi_main indefinite_target ex_nng {| nng_answer _ c := match c with Dial _ _ => 5 | _ => 0 end |} _ script_udp
      ex_json ex_service ex_answer "r" "p" 3 "hp" "hs" "192.168.1.142" ex_bus [] [] = Some (1, res, None) /\
    mr_req (wr_mreg res) = true /\ wr_fds res = [3].
Proof. eexists. split; [vm_compute; reflexivity|by split]. Qed.
