(* ===== verification/HesBle.v ===== *)
(** * The BLE connection manager's interface

    Models src/src/han/ble/hes_ble.h: the data both backends keep, the events a poll
    emits, and, as a class, what the BLE module relies on. The laws say what the header
    promises: the events of a poll are exactly the changes of the links since the last
    one. The backends discharge them in BleSim.v and Bluez.v. *)

From S2P Require Import Prelude CLib HesCommon.

Definition HES_BLE_MAX_DEVS : nat := 16.
#[global] Arguments HES_BLE_MAX_DEVS : simpl never.

Inductive hes_ble_state_t :=
| HES_BLE_STATE_OFF
| HES_BLE_STATE_CONNECTING
| HES_BLE_STATE_ONLINE.

Definition ble_state_eqb (a b : hes_ble_state_t) : bool :=
  match a, b with
  | HES_BLE_STATE_OFF, HES_BLE_STATE_OFF
  | HES_BLE_STATE_CONNECTING, HES_BLE_STATE_CONNECTING
  | HES_BLE_STATE_ONLINE, HES_BLE_STATE_ONLINE => true
  | _, _ => false
  end.

Record hes_ble_event_t := mk_ble_event {
  ev_device_index : Z;
  ev_is_online : bool;
}.

Record hes_ble_conn_t := mk_ble_conn {
  bc_device_index : Z;
  bc_address : string;
  bc_state : hes_ble_state_t;
  bc_state_entered : Z;
  bc_sim_powered : bool;
  bc_next_power_flip : Z;
  bc_have_button : bool;
  bc_button_state : Z;
}.

Definition conn_with_state (st : hes_ble_state_t) (now : Z) (d : hes_ble_conn_t) : hes_ble_conn_t :=
  mk_ble_conn (bc_device_index d) (bc_address d) st now (bc_sim_powered d) (bc_next_power_flip d)
    (bc_have_button d) (bc_button_state d).

Definition is_online (d : hes_ble_conn_t) : bool := ble_state_eqb (bc_state d) HES_BLE_STATE_ONLINE.

Definition link_of (d : hes_ble_conn_t) : Z * bool := (bc_device_index d, is_online d).

(** The C library and the machine, over the world [W]: [time(NULL)], [rand()], [srand]. *)
Class Libc (W : Type) := {
  c_time : W -> W * Z;
  c_rand : W -> W * Z;
  c_srand : W -> Z -> W;
}.

(** [rand] returns a value of 0 .. RAND_MAX. *)
Class LibcOk {W : Type} (libc : Libc W) := {
  rand_nonneg : forall w, 0 <= snd (c_rand w);
}.

(** The manager [M] of a backend. A poll or a close is [None] where the code is undefined. *)
Class BleBackend (W M : Type) := {
  hes_ble_mgr_init : W -> W * M;
  hes_ble_mgr_add : W -> M -> Z -> string -> W * M * Z;
  hes_ble_mgr_poll : W -> M -> nat -> option (W * M * list hes_ble_event_t);
  hes_ble_mgr_button : M -> Z -> option Z;
  hes_ble_mgr_close : W -> M -> option (W * M);
  (** the devices managed, each with whether its link is up *)
  ble_links : M -> list (Z * bool);
}.

(** The differences between two lists of links, in order. *)
Fixpoint changes (before after : list (Z * bool)) : list hes_ble_event_t :=
  match before, after with
  | (di, b) :: before', (_, a) :: after' =>
      (if Bool.eqb b a then [] else [mk_ble_event di a]) ++ changes before' after'
  | _, _ => []
  end.

(** [ble_ok]: the backend's own invariant. *)
Class BleBackendOk {W M : Type} (backend : BleBackend W M) := {
  ble_ok : M -> Prop;
  links_init : forall w,
    ble_ok (snd (hes_ble_mgr_init w)) /\ ble_links (snd (hes_ble_mgr_init w)) = [];
  links_add : forall w m di addr, ble_ok m ->
    let m' := snd (fst (hes_ble_mgr_add w m di addr)) in
    ble_ok m' /\
    ble_links m' =
      if bool_decide (di ∈ (ble_links m).*1) then ble_links m
      else if (HES_BLE_MAX_DEVS <=? length (ble_links m))%nat then ble_links m
      else ble_links m ++ [(di, false)];
  links_poll : forall w m max w' m' evs, ble_ok m ->
    hes_ble_mgr_poll w m max = Some (w', m', evs) -> (length (ble_links m) <= max)%nat ->
    ble_ok m' /\ (ble_links m').*1 = (ble_links m).*1 /\ evs = changes (ble_links m) (ble_links m');
}.

(** A backend whose polls are all defined, [ble_sound] being what keeps them so, and whose close
    gives back what it holds. *)
Class BleBackendTotal {W M : Type} (backend : BleBackend W M) := {
  ble_sound : M -> Prop;
  ble_released : M -> Prop;
  sound_init : forall w, ble_sound (snd (hes_ble_mgr_init w));
  sound_add : forall w m di addr, ble_sound m -> ble_sound (snd (fst (hes_ble_mgr_add w m di addr)));
  sound_poll : forall w m max, ble_sound m ->
    exists w' m' evs, hes_ble_mgr_poll w m max = Some (w', m', evs) /\ ble_sound m';
  close_releases : forall w m, exists w' m', hes_ble_mgr_close w m = Some (w', m') /\ ble_released m';
}.

(** The clock stands between [t0] and [T] whenever it is read. *)
Definition clock_within {W : Type} (libc : Libc W) (t0 T : Z) : Prop := forall w, t0 <= snd (c_time w) <= T.

(** ** Lemmas on changes *)

Lemma changes_refl l : changes l l = [].
Proof. induction l as [|[di b] l IH]; [done|]. cbn [changes]. by rewrite eqb_reflx. Qed.

Lemma changes_app b1 b2 a1 a2 :
  length b1 = length a1 -> changes (b1 ++ b2) (a1 ++ a2) = changes b1 a1 ++ changes b2 a2.
Proof.
  revert a1. induction b1 as [|[di b] b1 IH]; intros [|[? a] a1] [=]; [done|].
  cbn [app changes]. rewrite <- app_assoc. by rewrite IH.
Qed.

Lemma changes_length l l' : (length (changes l l') <= length l)%nat.
Proof.
  revert l'. induction l as [|[di b] l IH]; intros [|[? a] l']; cbn [changes]; [simpl; lia..|].
  rewrite length_app. specialize (IH l'). destruct (Bool.eqb b a); simpl; lia.
Qed.

(** What the events of a poll say about one device. *)
Lemma changes_elem l l' di b :
  l.*1 = l'.*1 -> NoDup l.*1 ->
  (mk_ble_event di b ∈ changes l l' <-> (di, negb b) ∈ l /\ (di, b) ∈ l').
Proof.
  revert l'. induction l as [|[x bx] l IH]; intros [|[y b'] l'] Heq Hnd; try done.
  { cbn [changes]. rewrite !elem_of_nil. tauto. }
  cbn [fmap list_fmap fst] in Heq. injection Heq as <- Heq. cbn [fmap list_fmap fst] in Hnd.
  apply NoDup_cons in Hnd as [Hx Hnd].
  cbn [changes]. rewrite elem_of_app, IH by done. rewrite !elem_of_cons.
  assert (Hl : forall c, (x, c) ∉ l) by (intros c Hc; apply Hx, list_elem_of_fmap; by exists (x, c)).
  assert (Hl' : forall c, (x, c) ∉ l') by (intros c Hc; apply Hx; rewrite Heq; apply list_elem_of_fmap; by exists (x, c)).
  destruct (Bool.eqb bx b') eqn:E.
  - apply eqb_prop in E. subst b'. rewrite elem_of_nil. split; [tauto|].
    intros [[H1|H1] [H2|H2]]; auto; simplify_eq; [by destruct bx|by apply Hl' in H2|by apply Hl in H1].
  - apply eqb_false_iff in E. rewrite list_elem_of_singleton. split.
    + intros [H|[H1 H2]]; [|tauto]. simplify_eq. split; left; f_equal. by destruct bx, b'.
    + intros [[H1|H1] [H2|H2]]; auto; simplify_eq; [by left|by apply Hl' in H2|by apply Hl in H1].
Qed.
