(* ===== verification/BleSim.v ===== *)
(** * The simulated BLE backend

    Models src/src/han/ble/hes_ble.c: a radio per device that is powered for 20 seconds
    and off for 8, and comes online a second after it starts to advertise. Discharges the
    manager's interface. *)

From S2P Require Import Prelude CLib HesCommon HesBle.

Definition HES_BLE_SIM_CONNECT_S : Z := 1.
Definition HES_BLE_SIM_POWER_ON_S : Z := 20.
Definition HES_BLE_SIM_POWER_OFF_S : Z := 8.

(** The first [n] entries of the array, and the timing knobs. *)
Record hes_ble_mgr_t := mk_ble_mgr {
  bm_dev : list hes_ble_conn_t;
  bm_connect_s : Z;
  bm_power_on_s : Z;
  bm_power_off_s : Z;
}.

Definition mgr_with_dev (ds : list hes_ble_conn_t) (m : hes_ble_mgr_t) : hes_ble_mgr_t :=
  mk_ble_mgr ds (bm_connect_s m) (bm_power_on_s m) (bm_power_off_s m).

Definition sim_init : hes_ble_mgr_t :=
  mk_ble_mgr [] HES_BLE_SIM_CONNECT_S HES_BLE_SIM_POWER_ON_S HES_BLE_SIM_POWER_OFF_S.

Definition managed (ds : list hes_ble_conn_t) (di : Z) : option nat :=
  fst <$> list_find (fun d => bc_device_index d = di) ds.

(** [events[nev++] = ...] while there is room. *)
Definition emit (max : nat) (evs : list hes_ble_event_t) (e : hes_ble_event_t) : list hes_ble_event_t :=
  if (length evs <? max)%nat then evs ++ [e] else evs.

Section sim.
Context {W : Type} {libc : Libc W}.

Definition sim_add (w : W) (m : hes_ble_mgr_t) (device_index : Z) (address : string)
  : W * hes_ble_mgr_t * Z :=
  match managed (bm_dev m) device_index with
  | Some i => (w, m, Z.of_nat i)
  | None =>
      if (HES_BLE_MAX_DEVS <=? length (bm_dev m))%nat then (w, m, -1)
      else
        let '(w, now) := c_time w in
        let d := mk_ble_conn device_index "" HES_BLE_STATE_CONNECTING now true
                   (now + bm_power_on_s m) false 0 in
        (w, mgr_with_dev (bm_dev m ++ [d]) m, Z.of_nat (length (bm_dev m)))
  end.

(** The power of the tag changes when its time has come. *)
Definition sim_power (m : hes_ble_mgr_t) (now : Z) (max : nat) (d : hes_ble_conn_t)
  (evs : list hes_ble_event_t) : hes_ble_conn_t * list hes_ble_event_t :=
  if bc_next_power_flip d <=? now then
    let on := negb (bc_sim_powered d) in
    let flip := now + (if on then bm_power_on_s m else bm_power_off_s m) in
    let st := if on then HES_BLE_STATE_CONNECTING else HES_BLE_STATE_OFF in
    (mk_ble_conn (bc_device_index d) (bc_address d) st now on flip (bc_have_button d) (bc_button_state d),
     if (negb on && is_online d)%bool then emit max evs (mk_ble_event (bc_device_index d) false) else evs)
  else (d, evs).

Definition sim_connect (m : hes_ble_mgr_t) (now : Z) (max : nat) (d : hes_ble_conn_t)
  (evs : list hes_ble_event_t) : hes_ble_conn_t * list hes_ble_event_t :=
  if (bc_sim_powered d && ble_state_eqb (bc_state d) HES_BLE_STATE_CONNECTING &&
      (bm_connect_s m <=? now - bc_state_entered d))%bool
  then (conn_with_state HES_BLE_STATE_ONLINE now d, emit max evs (mk_ble_event (bc_device_index d) true))
  else (d, evs).

Definition sim_step (m : hes_ble_mgr_t) (now : Z) (max : nat) (d : hes_ble_conn_t)
  (evs : list hes_ble_event_t) : hes_ble_conn_t * list hes_ble_event_t :=
  let '(d, evs) := sim_power m now max d evs in sim_connect m now max d evs.

Fixpoint sim_steps (m : hes_ble_mgr_t) (now : Z) (max : nat) (ds : list hes_ble_conn_t)
  (evs : list hes_ble_event_t) : list hes_ble_conn_t * list hes_ble_event_t :=
  match ds with
  | [] => ([], evs)
  | d :: ds' =>
      let '(d, evs) := sim_step m now max d evs in
      let '(ds', evs) := sim_steps m now max ds' evs in
      (d :: ds', evs)
  end.

Definition sim_poll (w : W) (m : hes_ble_mgr_t) (max : nat)
  : option (W * hes_ble_mgr_t * list hes_ble_event_t) :=
  let '(w, now) := c_time w in
  let '(ds, evs) := sim_steps m now max (bm_dev m) [] in
  Some (w, mgr_with_dev ds m, evs).

#[export] Instance sim_backend : BleBackend W hes_ble_mgr_t := {|
  hes_ble_mgr_init w := (w, sim_init);
  hes_ble_mgr_add := sim_add;
  hes_ble_mgr_poll := sim_poll;
  hes_ble_mgr_button _ _ := None;
  hes_ble_mgr_close w m := Some (w, m);
  ble_links m := link_of <$> bm_dev m;
|}.

(** ** The interface's laws *)

Lemma emit_room max evs e : (length evs < max)%nat -> emit max evs e = evs ++ [e].
Proof. intros H. unfold emit. by rewrite (proj2 (Nat.ltb_lt _ _) H). Qed.

(** A tag without power has no link. *)
Definition sim_conn_ok (d : hes_ble_conn_t) : Prop := bc_sim_powered d = false -> is_online d = false.

Record sim_ok (m : hes_ble_mgr_t) : Prop := {
  so_connect : 1 <= bm_connect_s m;
  so_devs : Forall sim_conn_ok (bm_dev m);
}.

(** What one device contributes: at most one event, when its link changed. *)
Lemma sim_step_spec m now max d evs :
  1 <= bm_connect_s m -> sim_conn_ok d -> (length evs < max)%nat ->
  let '(d', evs') := sim_step m now max d evs in
  sim_conn_ok d' /\ bc_device_index d' = bc_device_index d /\
  evs' = evs ++ changes [link_of d] [link_of d'].
Proof.
  intros Hc Hok Hm. unfold sim_step, sim_power, sim_connect, link_of, sim_conn_ok, is_online in *.
  destruct d as [di addr st since on flip hb bs]. cbn in *.
  destruct (flip <=? now); cbn.
  - destruct on; cbn; [by destruct st; cbn; rewrite ?emit_room, ?app_nil_r|].
    rewrite Z.sub_diag, (proj2 (Z.leb_gt _ 0)) by lia.
    cbn. destruct st; cbn in *; rewrite ?app_nil_r; try done. by specialize (Hok eq_refl).
  - destruct on; cbn; [|by destruct st; cbn in *; rewrite ?app_nil_r].
    destruct st; cbn; rewrite ?app_nil_r; try done.
    destruct (bm_connect_s m <=? now - since); cbn; by rewrite ?emit_room, ?app_nil_r.
Qed.

Lemma sim_steps_spec m now max ds evs :
  1 <= bm_connect_s m -> Forall sim_conn_ok ds -> (length evs + length ds <= max)%nat ->
  let '(ds', evs') := sim_steps m now max ds evs in
  Forall sim_conn_ok ds' /\ (link_of <$> ds').*1 = (link_of <$> ds).*1 /\
  evs' = evs ++ changes (link_of <$> ds) (link_of <$> ds').
Proof.
  intros Hc Hok. revert evs. induction Hok as [|d ds Hd Hds IH]; intros evs Hl; cbn [sim_steps].
  { by rewrite app_nil_r. }
  cbn [length] in Hl. pose proof (sim_step_spec m now max d evs Hc Hd ltac:(lia)) as H.
  destruct (sim_step m now max d evs) as [d' evs1]. destruct H as (H1 & H2 & ->).
  pose proof (changes_length [link_of d] [link_of d']) as Hone. cbn [length] in Hone.
  specialize (IH (evs ++ changes [link_of d] [link_of d']) ltac:(rewrite length_app; lia)).
  destruct (sim_steps m now max ds _) as [ds' evs']. destruct IH as (I1 & I2 & ->).
  split; [by constructor|]. split; [by rewrite !fmap_cons, I2; cbn; rewrite H2|].
  rewrite <- app_assoc. f_equal. rewrite !fmap_cons. by rewrite <- (changes_app [link_of d] _ [link_of d']).
Qed.

Lemma managed_in ds di :
  match managed ds di with Some _ => di ∈ (link_of <$> ds).*1 | None => di ∉ (link_of <$> ds).*1 end.
Proof.
  rewrite <- list_fmap_compose. unfold managed. destruct (list_find _ ds) as [[k d]|] eqn:E; cbn.
  - apply list_find_Some in E as (Hk & <- & _). apply (list_elem_of_fmap_2 (fst ∘ link_of)).
    by eapply list_elem_of_lookup_2.
  - apply list_find_None in E. rewrite Forall_forall in E.
    intros (d & -> & Hd)%list_elem_of_fmap. by apply (E d).
Qed.

#[export] Instance sim_backend_ok : BleBackendOk sim_backend.
Proof.
  refine {| ble_ok := sim_ok |}.
  - intros w. split; [|done]. split; [done|constructor].
  - intros w m di addr [H1 H2]. cbn. unfold sim_add. pose proof (managed_in (bm_dev m) di) as Hm.
    destruct (managed (bm_dev m) di) as [k|]; cbn.
    { by rewrite bool_decide_eq_true_2. }
    rewrite bool_decide_eq_false_2 by done. rewrite length_fmap.
    destruct (HES_BLE_MAX_DEVS <=? length (bm_dev m))%nat; [split; [by split|done]|]. destruct (c_time w) as [w1 now]. cbn.
    split; [|by rewrite fmap_app]. split; [done|]. apply Forall_app. split; [done|]. by repeat constructor.
  - intros w m max w' m' evs [H1 H2] H Hl. cbn in *. unfold sim_poll in H. rewrite length_fmap in Hl.
    destruct (c_time w) as [w1 now]. pose proof (sim_steps_spec m now max (bm_dev m) [] H1 H2 Hl) as Hs.
    destruct (sim_steps m now max (bm_dev m) []) as [ds evs1]. destruct Hs as (S1 & S2 & ->).
    simplify_eq. cbn. done.
Qed.

#[export] Instance sim_backend_total : BleBackendTotal sim_backend.
Proof.
  refine {| ble_sound _ := True; ble_released _ := True |}; try done; [|intros w m; by exists w, m]. intros w m max _. cbn. unfold sim_poll.
  destruct (c_time w) as [w1 now]. destruct (sim_steps _ _ _ _ _) as [ds evs]. by eexists _, _, _.
Qed.
End sim.
