(* ===== verification/Sensortag.v ===== *)
(** * The SensorTag's simulated accessors

    Models src/src/devices/ti_cc2650/: the context of sensortag.c (temperature and button)
    and the accessors of sensortag_bar.c, sensortag_battery.c, sensortag_humid.c,
    sensortag_light.c, sensortag_mic.c, sensortag_motion.c and sensortag_button.c, whose
    static variables are a state of their own here. Shows that every random walk stays in
    its band whatever the random source yields. *)

From S2P Require Import Prelude CLib HesCommon HesBle.

Definition quot_d (n d : Z) : double := d_div (d_of_Z n) (d_of_Z d).

(** [if (x < lo) x = lo; if (x > hi) x = hi;] *)
Definition clamp_d (lo hi x : double) : double :=
  let x := if d_ltb x lo then lo else x in
  if d_ltb hi x then hi else x.

Record sensortag_t := mk_sensortag {
  st_seeded : bool;
  st_last_temp_c : double;
  st_button_state : Z;
  st_button_period_s : Z;
  st_next_button_flip : Z;
}.

Definition sensortag_init : sensortag_t := mk_sensortag false (d_of_Z 22) 0 0 0.

(** The static variables of an accessor that walks. *)
Record walk_t := mk_walk { wk_seeded : bool; wk_last : double }.

(** The static variables of sensortag_button.c. *)
Record bits_t := mk_bits { bt_seeded : bool; bt_press_seq : Z }.

Record sensortag_motion_sample := mk_motion {
  ms_accel_g : list double;
  ms_gyro_dps : list double;
  ms_mag_ut : list double;
}.

Section sensortag.
Context {W : Type} {libc : Libc W}.

(** [self]: the address of the context, which goes into its seed. *)
Definition sensortag_read_temp_c (w : W) (self : Z) (st : sensortag_t) : W * sensortag_t * double :=
  let '(w, seeded) :=
    if st_seeded st then (w, true)
    else let '(w, now) := c_time w in (c_srand w (uint32 (Z.lxor now self)), true) in
  let '(w, r) := c_rand w in
  let delta := quot_d (Z.rem r 21 - 10) 20 in
  let t := clamp_d (d_of_Z 15) (d_of_Z 30) (d_add (st_last_temp_c st) delta) in
  (w, mk_sensortag seeded t (st_button_state st) (st_button_period_s st) (st_next_button_flip st), t).

Definition sensortag_set_button_period (w : W) (st : sensortag_t) (period_s : Z) : W * sensortag_t :=
  let with_flip f := mk_sensortag (st_seeded st) (st_last_temp_c st) (st_button_state st) period_s f in
  if period_s <=? 0 then (w, with_flip 0)
  else if st_next_button_flip st =? 0 then
    let '(w, now) := c_time w in (w, with_flip (now + period_s))
  else (w, with_flip (st_next_button_flip st)).

Definition sensortag_read_button (w : W) (st : sensortag_t) : W * sensortag_t * Z :=
  let '(w, now) := c_time w in
  let st :=
    if ((0 <? st_button_period_s st) && negb (st_next_button_flip st =? 0) &&
        (st_next_button_flip st <=? now))%bool
    then mk_sensortag (st_seeded st) (st_last_temp_c st) (if st_button_state st =? 0 then 1 else 0)
           (st_button_period_s st) (now + st_button_period_s st)
    else st in
  (w, st, st_button_state st).

Definition seed_once (w : W) (seeded : bool) : W :=
  if seeded then w else let '(w, now) := c_time w in c_srand w (uint32 now).

(** One step of [(rand() % modulus - half) / scale], clamped. *)
Definition walk_step (modulus half scale : Z) (lo hi : double) (w : W) (st : walk_t) : W * walk_t * double :=
  let w := seed_once w (wk_seeded st) in
  let '(w, r) := c_rand w in
  let x := clamp_d lo hi (d_add (wk_last st) (quot_d (Z.rem r modulus - half) scale)) in
  (w, mk_walk true x, x).

Definition sensortag_read_pressure_hpa : W -> walk_t -> W * walk_t * double :=
  walk_step 201 100 100 (d_of_Z 985) (d_of_Z 1035).

Definition sensortag_read_humidity_pct : W -> walk_t -> W * walk_t * double :=
  walk_step 301 150 100 (d_of_Z 20) (d_of_Z 80).

Definition sensortag_read_light_lux : W -> walk_t -> W * walk_t * double :=
  walk_step 161 80 2 (d_of_Z 0) (d_of_Z 900).

Definition sensortag_read_mic_level : W -> walk_t -> W * walk_t * double :=
  walk_step 161 80 10 (d_of_Z 0) (d_of_Z 128).

(** The [int] conversion of a percentage is in range: [None] is not reached. *)
Definition sensortag_read_battery_pct (w : W) (st : walk_t) : W * walk_t * option Z :=
  let '(w, st, x) := walk_step 41 20 100 (d_of_Z 60) (d_of_Z 100) w st in
  (w, st, d_trunc (d_add x (quot_d 1 2))).

Definition sensortag_read_button_bits (w : W) (st : bits_t) : W * bits_t * Z :=
  let w := seed_once w (bt_seeded st) in
  let '(w, r) := c_rand w in
  if Z.rem r 10 =? 0 then
    (w, mk_bits true (bt_press_seq st + 1), uint8 (Z.shiftl 1 (Z.rem (bt_press_seq st) 3)))
  else (w, mk_bits true (bt_press_seq st), 0).

(** One axis of the three sensors: the nominal value and its noise. *)
Definition noisy (nominal scale : Z) (w : W) : W * double :=
  let '(w, r) := c_rand w in (w, d_add (d_of_Z nominal) (quot_d (Z.rem r 101 - 50) scale)).

Fixpoint motion_axes (axes : list (Z * Z * Z)) (w : W) (out : sensortag_motion_sample)
  : W * sensortag_motion_sample :=
  match axes with
  | [] => (w, out)
  | (acc, gyro, mag) :: axes' =>
      let '(w, a) := noisy acc 2500 w in
      let '(w, g) := noisy gyro 50 w in
      let '(w, m) := noisy mag 100 w in
      motion_axes axes' w (mk_motion (ms_accel_g out ++ [a]) (ms_gyro_dps out ++ [g]) (ms_mag_ut out ++ [m]))
  end.

Definition sensortag_read_motion (w : W) (seeded : bool) : W * bool * sensortag_motion_sample :=
  let w := seed_once w seeded in
  let '(w, out) := motion_axes [(0, 0, 25); (0, 0, 0); (1, 0, 35)] w (mk_motion [] [] []) in
  (w, true, out).

End sensortag.

(** ** Doubles that are not NaN *)

Definition finite (x : double) : bool :=
  match x with S754_zero _ | S754_finite _ _ _ => true | _ => false end.

Lemma shr_1_nonneg r : 0 <= shr_m r -> 0 <= shr_m (shr_1 r).
Proof. destruct r as [[|[p|p|]|p] b c]; cbn; lia. Qed.

Lemma shr_nonneg r e n : 0 <= shr_m r -> 0 <= shr_m (fst (shr r e n)).
Proof.
  intros Hr. unfold shr. destruct n as [|p|p]; cbn [fst]; [done| |done].
  revert r Hr. induction p as [p IH|p IH|]; intros r Hr; cbn [iter_pos]; auto using shr_1_nonneg.
Qed.

Lemma round_aux_number sx m e l : 0 <= m -> is_nan (binary_round_aux 53 1024 sx m e l) = false.
Proof.
  intros Hm. unfold binary_round_aux, shr_fexp.
  assert (H1 : forall r l, 0 <= r -> 0 <= shr_m (shr_record_of_loc r l)) by (intros r [|[]] Hr; done).
  match goal with |- context [shr ?r ?e ?n] => pose proof (shr_nonneg r e n (H1 _ _ Hm)) as H2; destruct (shr r e n) as [r1 e1] end.
  cbn [fst] in H2.
  assert (H3 : 0 <= round_nearest_even (shr_m r1) (loc_of_shr_record r1))
    by (destruct (loc_of_shr_record r1) as [|[]]; cbn; [lia|destruct (Z.even _); lia|lia|lia]).
  match goal with |- context [shr ?r ?e ?n] => pose proof (shr_nonneg r e n (H1 _ _ H3)) as H4; destruct (shr r e n) as [r2 e2] end.
  cbn [fst] in H4. destruct (shr_m r2); [done|by destruct (_ <=? _)|lia].
Qed.

Lemma normalize_number m e s : is_nan (binary_normalize 53 1024 m e s) = false.
Proof.
  unfold binary_normalize, binary_round. destruct m; [done|..];
    destruct (shl_align _ _ _); apply round_aux_number; lia.
Qed.

(** The sum of two finite doubles is a number, if perhaps an infinity. *)
Lemma add_number x y : finite x = true -> finite y = true -> is_nan (d_add x y) = false.
Proof.
  destruct x as [[]| | |], y as [[]| | |]; try done. intros _ _. apply normalize_number.
Qed.

(** ** Bands

    As C compares: neither below [lo] nor above [hi], and a number. *)
Definition in_band (lo hi x : double) : Prop :=
  d_ltb x lo = false /\ d_ltb hi x = false /\ is_nan x = false.

(** Two bounds that make a band. *)
Definition band (lo hi : double) : bool :=
  (finite lo && finite hi && negb (d_ltb lo lo) && negb (d_ltb hi hi) && negb (d_ltb hi lo))%bool.

Lemma clamp_band lo hi x : band lo hi = true -> is_nan x = false -> in_band lo hi (clamp_d lo hi x).
Proof.
  intros Hb Hx. unfold band in Hb. bool_hyps.
  repeat match goal with H : negb _ = true |- _ => apply negb_true_iff in H end.
  assert (Nl : is_nan lo = false) by by destruct lo. assert (Nh : is_nan hi = false) by by destruct hi.
  unfold clamp_d, in_band. destruct (d_ltb x lo) eqn:E1.
  - by replace (d_ltb hi lo) with false.
  - by destruct (d_ltb hi x) eqn:E2.
Qed.

Lemma band_finite lo hi x : band lo hi = true -> in_band lo hi x -> finite x = true.
Proof.
  intros Hb (H1 & H2 & H3). unfold band in Hb. bool_hyps.
  destruct x as [|[]| |]; try done; [by destruct lo as [| | |[]]|by destruct hi as [| | |[]]].
Qed.

Lemma rem_in r m : 0 <= r -> 0 < m -> Z.rem r m ∈ seqZ 0 m.
Proof. intros Hr Hm. apply elem_of_seqZ. rewrite Z.rem_mod_nonneg by lia. pose proof (Z.mod_pos_bound r m). lia. Qed.

(** Every step a walk can take is a finite double. *)
Definition steps_finite (modulus half scale : Z) : bool :=
  forallb (fun k => finite (quot_d (k - half) scale)) (seqZ 0 modulus).

Lemma step_finite modulus half scale r :
  steps_finite modulus half scale = true -> 0 < modulus -> 0 <= r ->
  finite (quot_d (Z.rem r modulus - half) scale) = true.
Proof.
  intros Hs Hm Hr. unfold steps_finite in Hs. rewrite forallb_forall in Hs.
  apply Hs, list_elem_of_In. by apply rem_in.
Qed.

Section bands.
Context {W : Type} {libc : Libc W} {libc_ok : LibcOk libc}.

Lemma walk_band modulus half scale lo hi w st w' st' x :
  band lo hi = true -> steps_finite modulus half scale = true -> 0 < modulus ->
  in_band lo hi (wk_last st) -> walk_step modulus half scale lo hi w st = (w', st', x) ->
  in_band lo hi x /\ wk_last st' = x.
Proof.
  intros Hb Hs Hm Hin. unfold walk_step. pose proof (rand_nonneg (seed_once w (wk_seeded st))) as Hr.
  destruct (c_rand _) as [w1 r]. intros [= _ <- <-]. split; [|done]. apply clamp_band; [done|].
  apply add_number; [by eapply band_finite|by apply step_finite].
Qed.

Lemma temp_band w self st w' st' t :
  in_band (d_of_Z 15) (d_of_Z 30) (st_last_temp_c st) ->
  sensortag_read_temp_c w self st = (w', st', t) ->
  in_band (d_of_Z 15) (d_of_Z 30) t /\ st_last_temp_c st' = t.
Proof.
  intros Hin. unfold sensortag_read_temp_c.
  destruct (if st_seeded st then _ else _) as [w1 seeded].
  pose proof (rand_nonneg w1) as Hr. destruct (c_rand w1) as [w2 r]. intros [= _ <- <-]. split; [|done].
  apply clamp_band; [done|]. apply add_number; [by apply (band_finite (d_of_Z 15) (d_of_Z 30))|].
  by apply (step_finite 21 10 20).
Qed.

(** The simulated sensors stay plausible. From its initial value, and from any value
    in its band, every reading of a walk is a number of that band, whatever the random
    source yields: 15..30 degrees, 985..1035 hPa, 20..80 % humidity, 0..900 lux, 0..128 of
    sound level. *)
Theorem readings_stay_in_band :
  (in_band (d_of_Z 15) (d_of_Z 30) (st_last_temp_c sensortag_init) /\
   forall w self st w' st' t, in_band (d_of_Z 15) (d_of_Z 30) (st_last_temp_c st) ->
     sensortag_read_temp_c w self st = (w', st', t) ->
     in_band (d_of_Z 15) (d_of_Z 30) t /\ st_last_temp_c st' = t) /\
  (forall w st w' st' x, in_band (d_of_Z 985) (d_of_Z 1035) (wk_last st) ->
     sensortag_read_pressure_hpa w st = (w', st', x) -> in_band (d_of_Z 985) (d_of_Z 1035) x /\ wk_last st' = x) /\
  (forall w st w' st' x, in_band (d_of_Z 20) (d_of_Z 80) (wk_last st) ->
     sensortag_read_humidity_pct w st = (w', st', x) -> in_band (d_of_Z 20) (d_of_Z 80) x /\ wk_last st' = x) /\
  (forall w st w' st' x, in_band (d_of_Z 0) (d_of_Z 900) (wk_last st) ->
     sensortag_read_light_lux w st = (w', st', x) -> in_band (d_of_Z 0) (d_of_Z 900) x /\ wk_last st' = x) /\
  (forall w st w' st' x, in_band (d_of_Z 0) (d_of_Z 128) (wk_last st) ->
     sensortag_read_mic_level w st = (w', st', x) -> in_band (d_of_Z 0) (d_of_Z 128) x /\ wk_last st' = x).
Proof.
  split; [split; [by repeat split|apply temp_band]|].
  split; [|split; [|split]]; intros w st w' st' x Hin H; (eapply walk_band; [| | |exact Hin|exact H]); vm_compute; reflexivity.
Qed.

(** The bits of a simulated press name one key, in turn. *)
Lemma button_bits_cases w st w' st' b :
  sensortag_read_button_bits w st = (w', st', b) -> 0 <= bt_press_seq st ->
  (b = 0 /\ bt_press_seq st' = bt_press_seq st) \/
  (b ∈ [1; 2; 4] /\ bt_press_seq st' = bt_press_seq st + 1).
Proof.
  unfold sensortag_read_button_bits. destruct (c_rand _) as [w1 r]. intros H Hn.
  destruct (Z.rem r 10 =? 0); injection H as _ <- <-; [right|by left]. split; [|done].
  rewrite Z.rem_mod_nonneg by lia. pose proof (Z.mod_pos_bound (bt_press_seq st) 3 ltac:(lia)) as Hb.
  assert (Hc : bt_press_seq st mod 3 = 0 \/ bt_press_seq st mod 3 = 1 \/ bt_press_seq st mod 3 = 2) by lia.
  rewrite !elem_of_cons. destruct Hc as [-> | [-> | ->]]; vm_compute; auto.
Qed.

(** The button of a context is 0 or 1, and only ever toggles. *)
Lemma read_button_bit w st w' st' b :
  sensortag_read_button w st = (w', st', b) -> st_button_state st = 0 \/ st_button_state st = 1 ->
  b = st_button_state st' /\ (b = 0 \/ b = 1).
Proof.
  unfold sensortag_read_button. destruct (c_time w) as [w1 now]. intros H Hb. injection H as _ <- <-.
  split; [done|]. destruct (_ && _)%bool; [|done]. cbn. destruct (st_button_state st =? 0); auto.
Qed.
End bands.
