(* ===== verification/Bluez.v ===== *)
(** * The BlueZ backend

    Models src/src/han/ble/hes_ble_bluez.c: the slots of the managed devices, the signals
    that update them, path discovery, connection with capped backoff, link loss, and the
    button's notifications. The D-Bus side (BlueZ through GLib) is the class [Bluez]. A
    poll is [None] where its backoff shifts an [int] out of range. Discharges the manager's
    interface. *)

From S2P Require Import Prelude CLib HesCommon HesBle BleSim.

Definition DEVICE_INTERFACE : string := "org.bluez.Device1".
Definition BTN_CHAR_SUFFIX : string := "/service004a/char004b".
Definition RESOLVE_TIMEOUT_MS : Z := 6000.
Definition SCAN_RETRY_S : Z := 3.
Definition RETRY_BASE_S : Z := 1.
Definition RETRY_MAX_S : Z := 10.

(** ** D-Bus

    A dispatched signal: PropertiesChanged of a device, with its Connected property if it
    carries one, or of a characteristic proxy, with the bytes of its Value. *)
Inductive bluez_signal :=
| DeviceProps (object_path : option string) (connected : option bool)
| CharProps (proxy : Z) (value : option bytes).

(** An object of GetManagedObjects: its path, and per interface the Address property. *)
Abbreviation managed_object := (string * list (string * option string))%type.

Class Bluez (W : Type) := {
  dbus_open : W -> W * bool;
  (** one iteration of the main context, and the signals it dispatches *)
  dbus_iterate : W -> W * list bluez_signal;
  dbus_sleep : W -> W;
  dbus_objects : W -> W * option (list managed_object);
  dbus_discovery : W -> bool -> W;
  dbus_device : W -> string -> W * option Z;
  dbus_char : W -> string -> W * option Z;
  dbus_call : W -> Z -> string -> W * bool;
  (** a proxy's cached boolean property *)
  dbus_property : W -> Z -> string -> W * option bool;
}.

(** ** Slots *)

Record bluez_dev_t := mk_bluez_dev {
  bz_device_index : Z;
  bz_mac : string;
  bz_path : string;
  bz_connected : bool;
  bz_proxy : option Z;
  bz_btn : option Z;
  bz_next_try : Z;
  bz_attempt : Z;
  bz_scanning : bool;
  bz_have_button : bool;
  bz_button_state : Z;
}.

Definition slot_with_path (p : string) (scanning : bool) (next : Z) (d : bluez_dev_t) : bluez_dev_t :=
  mk_bluez_dev (bz_device_index d) (bz_mac d) p (bz_connected d) (bz_proxy d) (bz_btn d) next
    (bz_attempt d) scanning (bz_have_button d) (bz_button_state d).

Definition slot_with_connected (c : bool) (d : bluez_dev_t) : bluez_dev_t :=
  mk_bluez_dev (bz_device_index d) (bz_mac d) (bz_path d) c (bz_proxy d) (bz_btn d) (bz_next_try d)
    (bz_attempt d) (bz_scanning d) (bz_have_button d) (bz_button_state d).

Definition slot_with_proxy (p : option Z) (d : bluez_dev_t) : bluez_dev_t :=
  mk_bluez_dev (bz_device_index d) (bz_mac d) (bz_path d) (bz_connected d) p (bz_btn d) (bz_next_try d)
    (bz_attempt d) (bz_scanning d) (bz_have_button d) (bz_button_state d).

Definition slot_with_btn (b : option Z) (d : bluez_dev_t) : bluez_dev_t :=
  mk_bluez_dev (bz_device_index d) (bz_mac d) (bz_path d) (bz_connected d) (bz_proxy d) b (bz_next_try d)
    (bz_attempt d) (bz_scanning d) (bz_have_button d) (bz_button_state d).

Definition slot_with_retry (attempt next : Z) (d : bluez_dev_t) : bluez_dev_t :=
  mk_bluez_dev (bz_device_index d) (bz_mac d) (bz_path d) (bz_connected d) (bz_proxy d) (bz_btn d) next
    attempt (bz_scanning d) (bz_have_button d) (bz_button_state d).

Definition slot_with_button (have : bool) (b : Z) (d : bluez_dev_t) : bluez_dev_t :=
  mk_bluez_dev (bz_device_index d) (bz_mac d) (bz_path d) (bz_connected d) (bz_proxy d) (bz_btn d)
    (bz_next_try d) (bz_attempt d) (bz_scanning d) have b.

(** The file's static state ([bz_conn]: there is a bus connection) with the manager's
    public array. *)
Record bluez_mgr_t := mk_bluez_mgr {
  bz_conn : bool;
  bz_dev : list bluez_dev_t;
  bz_mgr : list hes_ble_conn_t;
}.

Definition upd_slot (k : nat) (f : bluez_dev_t -> bluez_dev_t) (m : bluez_mgr_t) : bluez_mgr_t :=
  mk_bluez_mgr (bz_conn m) (alter f k (bz_dev m)) (bz_mgr m).

Definition upd_conn (i : nat) (st : hes_ble_state_t) (now : Z) (m : bluez_mgr_t) : bluez_mgr_t :=
  mk_bluez_mgr (bz_conn m) (bz_dev m) (alter (conn_with_state st now) i (bz_mgr m)).

Definition find_slot (m : bluez_mgr_t) (device_index : Z) : option nat :=
  fst <$> list_find (fun d => bz_device_index d = device_index) (bz_dev m).

(** ** Signals *)

Definition on_device_props (object_path : option string) (connected : option bool)
  (m : bluez_mgr_t) : bluez_mgr_t :=
  match object_path with
  | None => m
  | Some p =>
      match list_find (fun d => bz_path d <> "" /\ bz_path d = p) (bz_dev m) with
      | None => m
      | Some (k, _) =>
          match connected with Some c => upd_slot k (slot_with_connected c) m | None => m end
      end
  end.

(** The handler of the proxy that belongs to the slot; a dropped proxy has none. *)
Definition on_btn_value (proxy : Z) (value : option bytes) (m : bluez_mgr_t) : bluez_mgr_t :=
  match list_find (fun d => bz_btn d = Some proxy) (bz_dev m) with
  | None => m
  | Some (k, _) =>
      match value with
      | Some (b :: _) => upd_slot k (slot_with_button true (if b =? 0 then 0 else 1)) m
      | _ => m
      end
  end.

Definition on_signal (m : bluez_mgr_t) (s : bluez_signal) : bluez_mgr_t :=
  match s with
  | DeviceProps p c => on_device_props p c m
  | CharProps proxy v => on_btn_value proxy v m
  end.

Section bluez.
Context {W : Type} {libc : Libc W} {bluez : Bluez W}.

(** [g_main_context_iteration(NULL, FALSE)] *)
Definition pump (w : W) (m : bluez_mgr_t) : W * bluez_mgr_t :=
  let '(w, sigs) := dbus_iterate w in (w, fold_left on_signal sigs m).

Definition strcasecmp_eq (a b : string) : bool := str_map tolower a =?s str_map tolower b.

Definition is_device (mac : string) (i : string * option string) : bool :=
  match i with
  | (iname, Some addr) => ((iname =?s DEVICE_INTERFACE) && strcasecmp_eq addr mac)%bool
  | _ => false
  end.

Definition resolve_path (w : W) (mac : string) : W * option string :=
  let '(w, objects) := dbus_objects w in
  (w, let* l := objects in fst <$> find_first (fun o : managed_object => existsb (is_device mac) (snd o)) l).

(** [spins] polls of the flag, 50 ms apart. *)
Fixpoint wait_resolved (spins : nat) (w : W) (m : bluez_mgr_t) (proxy : Z) : W * bluez_mgr_t * bool :=
  match spins with
  | O => (w, m, false)
  | S spins' =>
      let '(w, m) := pump w m in
      let w := dbus_sleep w in
      let '(w, r) := dbus_property w proxy "ServicesResolved" in
      match r with
      | Some true => (w, m, true)
      | _ => wait_resolved spins' w m proxy
      end
  end.

Definition unsubscribe_button (w : W) (m : bluez_mgr_t) (k : nat) : W * bluez_mgr_t :=
  let w := match (let* d := bz_dev m !! k in bz_btn d) with
           | Some p => fst (dbus_call w p "StopNotify")
           | None => w
           end in
  (w, upd_slot k (fun d => slot_with_button false 0 (slot_with_btn None d)) m).

Definition subscribe_button (w : W) (m : bluez_mgr_t) (k : nat) : W * bluez_mgr_t :=
  match bz_dev m !! k with
  | None => (w, m)
  | Some d =>
      if (bool_decide (bz_btn d <> None) || negb (bz_conn m) || (bz_path d =?s ""))%bool then (w, m)
      else
        let '(w, p) := dbus_char w (hes_strlcpy 320 (bz_path d ++ BTN_CHAR_SUFFIX)%string) in
        match p with
        | None => (w, m)
        | Some p => (fst (dbus_call w p "StartNotify"), upd_slot k (slot_with_btn (Some p)) m)
        end
  end.

(** ** The manager *)

Definition bluez_init (w : W) : W * bluez_mgr_t :=
  let '(w, ok) := dbus_open w in (w, mk_bluez_mgr ok [] []).

Definition bluez_add (w : W) (m : bluez_mgr_t) (device_index : Z) (address : string)
  : W * bluez_mgr_t * Z :=
  match find_slot m device_index with
  | Some _ => (w, m, 0)
  | None =>
      if ((HES_BLE_MAX_DEVS <=? length (bz_dev m))%nat || (HES_BLE_MAX_DEVS <=? length (bz_mgr m))%nat)%bool
      then (w, m, -1)
      else
        let '(w, entered) := c_time w in
        let c := mk_ble_conn device_index (hes_strlcpy 64 address) HES_BLE_STATE_OFF entered false 0 false 0 in
        let '(w, next) := c_time w in
        let d := mk_bluez_dev device_index (hes_strlcpy 64 address) "" false None None next 0 false false 0 in
        (w, mk_bluez_mgr (bz_conn m) (bz_dev m ++ [d]) (bz_mgr m ++ [c]), Z.of_nat (length (bz_dev m)))
  end.

(** The path is unknown: ask for it, and scan while BlueZ does not know the device. *)
Definition discover (w : W) (m : bluez_mgr_t) (k : nat) (d : bluez_dev_t) (now : Z) : W * bluez_mgr_t :=
  if ((bz_path d =?s "") && (bz_next_try d <=? now))%bool then
    let '(w, p) := resolve_path w (bz_mac d) in
    match p with
    | Some p => (dbus_discovery w false, upd_slot k (slot_with_path (hes_strlcpy 256 p) false (now + SCAN_RETRY_S)) m)
    | None =>
        (if bz_scanning d then w else dbus_discovery w true,
         upd_slot k (slot_with_path (bz_path d) true (now + SCAN_RETRY_S)) m)
    end
  else (w, m).

(** [RETRY_BASE_S << attempt], capped; [None]: the shift leaves [int]. *)
Definition backoff (attempt : Z) : option Z :=
  let delay := Z.shiftl RETRY_BASE_S attempt in
  if ((attempt <? 0) || (31 <? attempt) || (2 ^ 31 <=? delay))%bool then None
  else Some (if RETRY_MAX_S <? delay then RETRY_MAX_S else delay).

Definition connect_failed (m : bluez_mgr_t) (i k : nat) (now : Z) : option bluez_mgr_t :=
  let m := upd_conn i HES_BLE_STATE_OFF now m in
  let* d := bz_dev m !! k in
  let* delay := backoff (bz_attempt d + 1) in
  Some (upd_slot k (slot_with_retry (bz_attempt d + 1) (now + delay)) m).

Abbreviation poll_state := (W * bluez_mgr_t * list hes_ble_event_t)%type.

(** An online device: has its link gone? *)
Definition watch_link (now : Z) (max i k : nat) (d : bluez_dev_t) (s : poll_state) : poll_state :=
  let '(w, m, evs) := s in
  match bz_proxy d with
  | None => (w, m, evs)
  | Some p =>
      let '(w, c) := dbus_property w p "Connected" in
      let connected := default (bz_connected d) c in
      let m := upd_slot k (slot_with_connected connected) m in
      if connected then (w, m, evs)
      else
        let '(w, m) := unsubscribe_button w m k in
        (w, upd_slot k (slot_with_retry 0 (now + RETRY_BASE_S)) (upd_conn i HES_BLE_STATE_OFF now m),
         emit max evs (mk_ble_event (bz_device_index d) false))
  end.

(** A (re)connect. *)
Definition connect (now : Z) (max i k : nat) (d : bluez_dev_t) (s : poll_state) : option poll_state :=
  let '(w, m, evs) := s in
  let '(w, proxy) := match bz_proxy d with
                     | Some p => (w, Some p)
                     | None => dbus_device w (bz_path d)
                     end in
  let m := upd_slot k (slot_with_proxy proxy) m in
  let failed w m := let* m := connect_failed m i k now in Some (w, m, evs) in
  match proxy with
  | None => failed w m
  | Some p =>
      let m := upd_conn i HES_BLE_STATE_CONNECTING now m in
      let '(w, ok) := dbus_call w p "Connect" in
      if negb ok then failed w m
      else
        let '(w, m, resolved) := wait_resolved (Z.to_nat (RESOLVE_TIMEOUT_MS / 50)) w m p in
        if negb resolved then failed w m
        else
          let '(w, c) := dbus_property w p "Connected" in
          let m := upd_slot k (slot_with_connected (default true c)) m in
          let m := upd_slot k (slot_with_retry 0 0) (upd_conn i HES_BLE_STATE_ONLINE now m) in
          let '(w, m) := subscribe_button w m k in
          Some (w, m, emit max evs (mk_ble_event (bz_device_index d) true))
  end.

Definition poll_device (now : Z) (max : nat) (i : nat) (s : poll_state) : option poll_state :=
  let '(w, m, evs) := s in
  match (let* c := bz_mgr m !! i in
         let* k := find_slot m (bc_device_index c) in
         let* d := bz_dev m !! k in
         if bz_conn m then Some (c, k, d) else None) with
  | None => Some s
  | Some (c, k, d) =>
      let '(w, m) := discover w m k d now in
      let* d := bz_dev m !! k in
      if is_online c then Some (watch_link now max i k d (w, m, evs))
      else if ((bz_path d =?s "") || (now <? bz_next_try d))%bool then Some (w, m, evs)
      else connect now max i k d (w, m, evs)
  end.

Definition bluez_poll (w : W) (m : bluez_mgr_t) (max : nat) : option poll_state :=
  let '(w, now) := c_time w in
  let '(w, m) := pump w m in
  for_each (poll_device now max) (seq 0 (length (bz_mgr m))) (w, m, []).

Definition bluez_button (m : bluez_mgr_t) (device_index : Z) : option Z :=
  let* k := find_slot m device_index in
  let* d := bz_dev m !! k in
  if bz_have_button d then Some (bz_button_state d) else None.

Definition bluez_close_slot (k : nat) (s : W * bluez_mgr_t) : option (W * bluez_mgr_t) :=
  let '(w, m) := s in
  let '(w, m) := unsubscribe_button w m k in
  match (let* d := bz_dev m !! k in bz_proxy d) with
  | None => Some (w, m)
  | Some p => Some (fst (dbus_call w p "Disconnect"), upd_slot k (slot_with_proxy None) m)
  end.

Definition bluez_close (w : W) (m : bluez_mgr_t) : option (W * bluez_mgr_t) :=
  let* (w, m) := for_each bluez_close_slot (seq 0 (length (bz_dev m))) (w, m) in
  Some (w, mk_bluez_mgr false [] (bz_mgr m)).

#[export] Instance bluez_backend : BleBackend W bluez_mgr_t := {|
  hes_ble_mgr_init := bluez_init;
  hes_ble_mgr_add := bluez_add;
  hes_ble_mgr_poll := bluez_poll;
  hes_ble_mgr_button := bluez_button;
  hes_ble_mgr_close := bluez_close;
  ble_links m := link_of <$> bz_mgr m;
|}.
End bluez.

#[global] Arguments discover : simpl never.
#[global] Arguments watch_link : simpl never.
#[global] Arguments connect : simpl never.
