(* ===== verification/BluezFacts.v ===== *)
(** * Properties of the BlueZ backend

    The backend discharges the manager's interface; what its backoff does, and where it
    leaves the range of [int]. *)

From S2P Require Import Prelude CLib HesCommon HesBle BleSim Bluez.

(** ** What a poll may touch *)

(** The slots keep their indices, the public array its own, and of the public array only
    entry [i] may differ. *)
Record touches (i : nat) (m m' : bluez_mgr_t) : Prop := {
  tc_slots : bz_device_index <$> bz_dev m' = bz_device_index <$> bz_dev m;
  tc_conns : bc_device_index <$> bz_mgr m' = bc_device_index <$> bz_mgr m;
  tc_others : forall j, j <> i -> bz_mgr m' !! j = bz_mgr m !! j;
}.

#[export] Instance touches_preorder i : PreOrder (touches i).
Proof.
  split; [by split|]. intros m1 m2 m3 [] []. split; [congruence|congruence|].
  intros j Hj. by rewrite tc_others1, tc_others0.
Qed.

(** The public array is left alone. *)
Definition quiet (m m' : bluez_mgr_t) : Prop :=
  bz_device_index <$> bz_dev m' = bz_device_index <$> bz_dev m /\ bz_mgr m' = bz_mgr m.

#[export] Instance quiet_preorder : PreOrder quiet.
Proof. split; [by split|]. intros m1 m2 m3 [] []. split; congruence. Qed.

Lemma quiet_touches i m m' : quiet m m' -> touches i m m'.
Proof. intros [H1 H2]. split; [done|by rewrite H2|by intros; rewrite H2]. Qed.

Lemma fmap_alter_same {A B} (g : A -> B) (f : A -> A) k (l : list A) :
  (forall x, g (f x) = g x) -> g <$> alter f k l = g <$> l.
Proof.
  intros Hg. apply list_eq. intros j. rewrite !list_lookup_fmap, list_lookup_alter.
  case_decide; [subst|done]. destruct (l !! j); simpl; [by rewrite Hg|done].
Qed.

Lemma quiet_upd_slot k f m : (forall d, bz_device_index (f d) = bz_device_index d) -> quiet m (upd_slot k f m).
Proof. intros Hf. split; [by apply fmap_alter_same|done]. Qed.

Lemma touches_upd_conn i st now m : touches i m (upd_conn i st now m).
Proof.
  split; [done|by apply fmap_alter_same|]. intros j Hj. simpl. by rewrite list_lookup_alter_ne.
Qed.

Lemma quiet_signal m s : quiet m (on_signal m s).
Proof.
  destruct s as [[p|] c|p v]; simpl; try reflexivity.
  - destruct (list_find _ _) as [[k d]|]; [|reflexivity]. destruct c; [by apply quiet_upd_slot|reflexivity].
  - unfold on_btn_value. destruct (list_find _ _) as [[k d]|]; [|reflexivity].
    destruct v as [[|b v]|]; [reflexivity|by apply quiet_upd_slot|reflexivity].
Qed.

#[export] Hint Resolve quiet_upd_slot quiet_touches touches_upd_conn : hes.

Section facts.
Context {W : Type} {libc : Libc W} {bluez : Bluez W}.

Lemma quiet_pump w m : quiet m (snd (pump w m)).
Proof.
  unfold pump. destruct (dbus_iterate w) as [w1 sigs]. simpl. clear w w1. revert m.
  induction sigs as [|s sigs IH]; intros m; simpl; [reflexivity|]. etransitivity; [apply quiet_signal|apply IH].
Qed.

Lemma quiet_wait n w m p : quiet m (snd (fst (wait_resolved n w m p))).
Proof.
  revert w m. induction n as [|n IH]; intros w m; cbn [wait_resolved]; [reflexivity|].
  pose proof (quiet_pump w m) as Hq. destruct (pump w m) as [w1 m1].
  destruct (dbus_property _ _ _) as [w2 r]. etransitivity; [exact Hq|].
  destruct r as [[]|]; [reflexivity|apply IH..].
Qed.

Lemma quiet_unsubscribe w m k : quiet m (snd (unsubscribe_button w m k)).
Proof. by apply quiet_upd_slot. Qed.

Lemma quiet_subscribe w m k : quiet m (snd (subscribe_button w m k)).
Proof.
  unfold subscribe_button. destruct (bz_dev m !! k) as [d|]; [|reflexivity].
  destruct (_ || _)%bool; [reflexivity|]. destruct (dbus_char _ _) as [w1 [p|]]; [|reflexivity].
  by apply quiet_upd_slot.
Qed.

Lemma quiet_discover w m k d now : quiet m (snd (discover w m k d now)).
Proof.
  unfold discover. destruct (_ && _)%bool; [|reflexivity].
  destruct (resolve_path _ _) as [w1 [p|]]; by apply quiet_upd_slot.
Qed.

Lemma touches_failed m i k now m' :
  connect_failed m i k now = Some m' ->
  touches i m m' /\ forall c, bz_mgr m !! i = Some c -> bz_mgr m' !! i = Some (conn_with_state HES_BLE_STATE_OFF now c).
Proof.
  unfold connect_failed. cbn. destruct (bz_dev m !! k) as [d|]; [|done]. cbn.
  destruct (backoff _) as [delay|]; [|done]. intros [= <-]. split.
  - etransitivity; [apply (touches_upd_conn i HES_BLE_STATE_OFF now)|]. by apply quiet_touches, quiet_upd_slot.
  - intros c Hc. simpl. by rewrite list_lookup_alter_eq, Hc.
Qed.

(** What polling entry [i], which held [c], leaves: the events it adds say how that link
    changed, and no other link did. *)
Definition polled (i : nat) (c : hes_ble_conn_t) (m m' : bluez_mgr_t) (evs evs' : list hes_ble_event_t) : Prop :=
  touches i m m' /\
  exists c', bz_mgr m' !! i = Some c' /\ evs' = evs ++ changes [link_of c] [link_of c'].

Lemma polled_same i c m m' evs :
  touches i m m' -> bz_mgr m' !! i = Some c -> polled i c m m' evs evs.
Proof. intros Ht Hc. split; [done|]. exists c. by rewrite changes_refl, app_nil_r. Qed.

Lemma polled_quiet i c m1 m2 m3 evs evs' : quiet m1 m2 -> polled i c m2 m3 evs evs' -> polled i c m1 m3 evs evs'.
Proof. intros Hq [Ht Hx]. split; [|done]. etransitivity; [by apply quiet_touches|done]. Qed.

Lemma watch_link_spec now max i k d w m evs c w' m' evs' :
  watch_link now max i k d (w, m, evs) = (w', m', evs') -> (length evs < max)%nat ->
  bz_mgr m !! i = Some c -> bz_device_index d = bc_device_index c -> is_online c = true ->
  polled i c m m' evs evs'.
Proof.
  intros H Hm Hc Hd Hon. unfold watch_link in H. destruct (bz_proxy d) as [p|].
  2: { simplify_eq. by apply polled_same. }
  destruct (dbus_property _ _ _) as [w1 cc]. cbn zeta in H.
  set (conn := default (bz_connected d) cc) in *. clearbody conn.
  assert (Hq : quiet m (upd_slot k (slot_with_connected conn) m)) by by apply quiet_upd_slot.
  destruct conn; [simplify_eq; by apply polled_same; [apply quiet_touches|]|].
  pose proof (quiet_unsubscribe w1 (upd_slot k (slot_with_connected false) m) k) as Hq2.
  destruct (unsubscribe_button _ _ _) as [w2 m2]. cbn [snd] in Hq2.
  pose proof (transitivity Hq Hq2) as [Q1 Q2]. simplify_eq. split.
  - transitivity m2; [by apply quiet_touches|]. etransitivity; [apply (touches_upd_conn i HES_BLE_STATE_OFF now)|].
    by apply quiet_touches, quiet_upd_slot.
  - exists (conn_with_state HES_BLE_STATE_OFF now c). split.
    + simpl. by rewrite list_lookup_alter_eq, Q2, Hc.
    + rewrite emit_room by done. unfold link_of at 1. rewrite Hon, Hd. done.
Qed.

Lemma connect_spec now max i k d w m evs c w' m' evs' :
  connect now max i k d (w, m, evs) = Some (w', m', evs') -> (length evs < max)%nat ->
  bz_mgr m !! i = Some c -> bz_device_index d = bc_device_index c -> is_online c = false ->
  polled i c m m' evs evs'.
Proof.
  intros H Hm Hc Hd Hoff. unfold connect in H.
  destruct (match bz_proxy d with Some p => _ | None => _ end) as [w1 proxy]. cbn zeta in H.
  set (m1 := upd_slot k (slot_with_proxy proxy) m) in *.
  assert (Hq : quiet m m1) by by apply quiet_upd_slot. destruct Hq as [Q1 Q2].
  assert (Hfail : forall w2 m2 c2, touches i m1 m2 -> bz_mgr m2 !! i = Some c2 -> bc_device_index c2 = bc_device_index c ->
    (let* m := connect_failed m2 i k now in Some (w2, m, evs)) = Some (w', m', evs') -> polled i c m m' evs evs').
  { clear H. intros w2 m2 c2 Ht Hc2 Hi Hf. destruct (connect_failed m2 i k now) as [m3|] eqn:Ef; [|done]. simplify_eq/=.
    apply touches_failed in Ef as [Ht3 Hc3]. split.
    - transitivity m1; [by apply quiet_touches|]. by transitivity m2.
    - exists (conn_with_state HES_BLE_STATE_OFF now c2). split; [by apply Hc3|].
      unfold link_of. rewrite Hoff. cbn. by rewrite app_nil_r. }
  destruct proxy as [p|].
  2: { eapply (Hfail _ m1 c); [reflexivity|by rewrite Q2|done|exact H]. }
  set (m2 := upd_conn i HES_BLE_STATE_CONNECTING now m1) in *.
  assert (Hc2 : bz_mgr m2 !! i = Some (conn_with_state HES_BLE_STATE_CONNECTING now c))
    by (simpl; by rewrite list_lookup_alter_eq, Hc).
  assert (Ht2 : touches i m1 m2) by apply touches_upd_conn. clearbody m2.
  destruct (dbus_call _ _ _) as [w2 ok]. destruct ok; cbn [negb] in H.
  2: { eapply (Hfail _ m2); [done|exact Hc2|done|exact H]. }
  pose proof (quiet_wait (Z.to_nat (RESOLVE_TIMEOUT_MS / 50)) w2 m2 p) as Hq3.
  destruct (wait_resolved _ w2 m2 p) as [[w3 m3] resolved]. cbn [fst snd] in Hq3.
  assert (Ht3 : touches i m1 m3) by (etransitivity; [exact Ht2|by apply quiet_touches]).
  assert (Hc3 : bz_mgr m3 !! i = Some (conn_with_state HES_BLE_STATE_CONNECTING now c))
    by (destruct Hq3 as [_ ->]; done).
  destruct resolved; cbn [negb] in H.
  2: { eapply (Hfail _ m3); [done|exact Hc3|done|exact H]. }
  clear Hfail Hc2 Ht2 Hq3 m2. destruct (dbus_property _ _ _) as [w4 cc].
  match type of H with context [subscribe_button ?w5 ?m5 ?k5] =>
    pose proof (quiet_subscribe w5 m5 k5) as [Q5 Q6]; set (m4 := m5) in *;
    destruct (subscribe_button w5 m4 k5) as [w6 m6] end. cbn [snd] in *. simplify_eq.
  assert (Ht4 : touches i m3 m4).
  { etransitivity; [by apply quiet_touches, (quiet_upd_slot k (slot_with_connected (default true cc)))|].
    etransitivity; [apply (touches_upd_conn i HES_BLE_STATE_ONLINE now)|]. by apply quiet_touches, quiet_upd_slot. }
  assert (Hc4 : bz_mgr m4 !! i = Some (conn_with_state HES_BLE_STATE_ONLINE now c)).
  { subst m4. simpl. by rewrite list_lookup_alter_eq, Hc3. }
  clearbody m4. split.
  - transitivity m1; [by apply quiet_touches|]. transitivity m3; [exact Ht3|]. transitivity m4; [exact Ht4|].
    by apply quiet_touches.
  - eexists. split; [rewrite Q6; exact Hc4|]. rewrite emit_room by done.
    unfold link_of at 1. rewrite Hoff, Hd. done.
Qed.

Lemma bluez_poll_device_spec now max i w m evs w' m' evs' c :
  poll_device now max i (w, m, evs) = Some (w', m', evs') -> (length evs < max)%nat ->
  bz_mgr m !! i = Some c -> polled i c m m' evs evs'.
Proof.
  intros H Hm Hc. unfold poll_device in H. rewrite Hc in H. cbn in H.
  destruct (find_slot m (bc_device_index c)) as [k|] eqn:Ek; [|simplify_eq/=; by apply polled_same].
  cbn in H. destruct (bz_dev m !! k) as [d0|] eqn:Ed0; [|simplify_eq/=; by apply polled_same].
  cbn in H. destruct (bz_conn m); [|simplify_eq/=; by apply polled_same].
  assert (Hd0 : bz_device_index d0 = bc_device_index c).
  { unfold find_slot in Ek. destruct (list_find _ _) as [[k' d']|] eqn:El; [|done]. simplify_eq/=.
    apply list_find_Some in El as (? & ? & _). congruence. }
  pose proof (quiet_discover w m k d0 now) as Hq. destruct (discover w m k d0 now) as [w1 m1]. cbn [snd] in Hq.
  destruct (bz_dev m1 !! k) as [d|] eqn:Ed; [|done]. cbn in H.
  assert (Hd : bz_device_index d = bc_device_index c).
  { destruct Hq as [Hi _]. pose proof (f_equal (fun l => l !! k) Hi) as Hk. simpl in Hk.
    rewrite !list_lookup_fmap, Ed, Ed0 in Hk. simplify_eq/=. congruence. }
  assert (Hc1 : bz_mgr m1 !! i = Some c) by (destruct Hq as [_ ->]; done).
  eapply polled_quiet; [exact Hq|]. destruct (is_online c) eqn:Eon.
  - injection H as H. by eapply watch_link_spec.
  - destruct (_ || _)%bool; [simplify_eq; by apply polled_same|]. by eapply connect_spec.
Qed.

(** The loop, from entry [n] on: what is before it is done, what is after it untouched. *)
Lemma bluez_poll_devices_spec now max n k w m evs w' m' evs' (l0 : list hes_ble_conn_t) :
  for_each (poll_device now max) (seq k n) (w, m, evs) = Some (w', m', evs') ->
  length l0 = (k + n)%nat -> (length l0 <= max)%nat ->
  drop k (bz_mgr m) = drop k l0 -> (length evs <= k)%nat ->
  evs = changes (link_of <$> take k l0) (link_of <$> take k (bz_mgr m)) ->
  bc_device_index <$> bz_mgr m = bc_device_index <$> l0 ->
  bz_device_index <$> bz_dev m' = bz_device_index <$> bz_dev m /\
  bc_device_index <$> bz_mgr m' = bc_device_index <$> l0 /\
  evs' = changes (link_of <$> l0) (link_of <$> bz_mgr m').
Proof.
  revert k w m evs. induction n as [|n IH]; intros k w m evs H Hl Hmax Hdrop Hlen Hevs Hidx; cbn [seq for_each] in H.
  { simplify_eq. split; [done|]. split; [done|].
    assert (Hl2 : length (bz_mgr m') = length l0) by by rewrite <- (length_fmap bc_device_index), Hidx, length_fmap.
    by rewrite !take_ge by lia. }
  destruct (poll_device now max k (w, m, evs)) as [[[w1 m1] evs1]|] eqn:E; [|done].
  assert (Hlm : length (bz_mgr m) = length l0) by by rewrite <- (length_fmap bc_device_index), Hidx, length_fmap.
  destruct (lookup_lt_is_Some_2 l0 k ltac:(lia)) as [c Hc].
  assert (Hcm : bz_mgr m !! k = Some c).
  { rewrite <- (Nat.add_0_r k), <- lookup_drop, Hdrop, lookup_drop, Nat.add_0_r. done. }
  destruct (bluez_poll_device_spec _ _ _ _ _ _ _ _ _ c E ltac:(lia) Hcm) as ([T1 T2 T3] & c' & Hc' & Hev1).
  assert (Hlm1 : length (bz_mgr m1) = length l0)
    by by rewrite <- (length_fmap bc_device_index), T2, length_fmap.
  rewrite <- T1. apply (IH (S k) w1 m1 evs1 H); [lia|done| | | |congruence].
  - apply list_eq. intros j. rewrite !lookup_drop. rewrite T3 by lia.
    pose proof (f_equal (fun l => l !! S j) Hdrop) as Hj. cbv beta in Hj. rewrite !lookup_drop in Hj.
    by replace (S k + j)%nat with (k + S j)%nat by lia.
  - rewrite Hev1, length_app. pose proof (changes_length [link_of c] [link_of c']). simpl in *. lia.
  - rewrite Hev1, (take_S_r _ _ _ Hc), (take_S_r _ _ _ Hc'), !fmap_app, changes_app.
    + f_equal. rewrite Hevs. f_equal. f_equal. apply list_eq. intros j.
      destruct (decide (j < k)%nat); [|by rewrite !lookup_take_ge by lia].
      rewrite !lookup_take_lt by done. symmetry. apply T3. lia.
    + rewrite !length_fmap, !length_take. lia.
Qed.

(** ** The interface's laws *)

Definition bluez_ok (m : bluez_mgr_t) : Prop :=
  bc_device_index <$> bz_mgr m = bz_device_index <$> bz_dev m.

Lemma links_indices (l : list hes_ble_conn_t) : (link_of <$> l).*1 = bc_device_index <$> l.
Proof. by rewrite <- list_fmap_compose. Qed.

Lemma find_slot_in m di :
  match find_slot m di with
  | Some _ => di ∈ bz_device_index <$> bz_dev m
  | None => di ∉ bz_device_index <$> bz_dev m
  end.
Proof.
  unfold find_slot. destruct (list_find _ _) as [[k d]|] eqn:E; cbn.
  - apply list_find_Some in E as (Hk & <- & _). apply list_elem_of_fmap_2. by eapply list_elem_of_lookup_2.
  - apply list_find_None in E. rewrite Forall_forall in E. intros (d & -> & Hd)%list_elem_of_fmap. by apply (E d).
Qed.

#[export] Instance bluez_backend_ok : BleBackendOk bluez_backend.
Proof.
  refine {| ble_ok := bluez_ok |}.
  - intros w. cbn. unfold bluez_init. by destruct (dbus_open w).
  - intros w m di addr Hok m'. subst m'. cbn. rewrite links_indices, Hok. unfold bluez_add.
    pose proof (find_slot_in m di) as Hf. destruct (find_slot m di) as [k|].
    { by rewrite bool_decide_eq_true_2. }
    rewrite bool_decide_eq_false_2 by done. rewrite length_fmap.
    assert (Hlen : length (bz_dev m) = length (bz_mgr m))
      by by rewrite <- (length_fmap bz_device_index), <- Hok, length_fmap.
    rewrite Hlen. destruct (HES_BLE_MAX_DEVS <=? length (bz_mgr m))%nat; [done|].
    destruct (c_time w) as [w1 t1], (c_time w1) as [w2 t2]. unfold bluez_ok. cbn. rewrite !fmap_app. split; [|done].
    by rewrite Hok.
  - intros w m max w' m' evs Hok H Hl. cbn in H. unfold bluez_poll in H.
    destruct (c_time w) as [w1 now]. pose proof (quiet_pump w1 m) as [Q1 Q2].
    destruct (pump w1 m) as [w2 m2]. cbn [snd] in *. cbn [ble_links bluez_backend] in *.
    rewrite length_fmap in Hl. rewrite Q2 in H.
    destruct (bluez_poll_devices_spec now max (length (bz_mgr m)) 0 w2 m2 [] w' m' evs (bz_mgr m) H)
      as (H1 & H2 & H3); try done; [by rewrite Q2|].
    split; [unfold bluez_ok in *; congruence|]. split; [by rewrite !links_indices|done].
Qed.

(** ** The backoff *)

Lemma backoff_value a :
  (0 <= a <= 30 -> backoff a = Some (Z.min (2 ^ a) RETRY_MAX_S)) /\ (30 < a -> backoff a = None).
Proof.
  unfold backoff, RETRY_BASE_S. rewrite Z.shiftl_1_l. split; intros Ha.
  - assert (2 ^ a <= 2 ^ 30) by (apply Z.pow_le_mono_r; lia). change (2 ^ 30) with 1073741824 in *.
    rewrite (proj2 (Z.ltb_ge a 0)), (proj2 (Z.ltb_ge 31 a)), (proj2 (Z.leb_gt _ (2 ^ a))) by lia. simpl.
    f_equal. unfold RETRY_MAX_S. destruct (Z.ltb_spec 10 (2 ^ a)); lia.
  - destruct (Z.ltb_spec 31 a); [by rewrite orb_true_r|]. assert (a = 31) as -> by lia. done.
Qed.

(** A tag that does not answer is retried with a growing, capped delay -- thirty
    times. While Connect keeps failing, the attempt after [a] failures leaves the device
    off without an event and schedules the next try [2^(a+1)] seconds later, at most 10,
    for up to 29 earlier failures; the thirty-first consecutive failure shifts the base
    delay out of [int], which C does not define, before the cap is applied. *)
Theorem reconnect_backoff now max i k d w (m : bluez_mgr_t) evs p c :
  bz_dev m !! k = Some d -> bz_mgr m !! i = Some c -> bz_proxy d = Some p ->
  snd (dbus_call w p "Connect") = false -> 0 <= bz_attempt d ->
  (bz_attempt d <= 29 -> exists w' m',
     connect now max i k d (w, m, evs) = Some (w', m', evs) /\
     bz_mgr m' !! i = Some (conn_with_state HES_BLE_STATE_OFF now c) /\
     (fun x => (bz_attempt x, bz_next_try x)) <$> bz_dev m' !! k =
       Some (bz_attempt d + 1, now + Z.min (2 ^ (bz_attempt d + 1)) RETRY_MAX_S)) /\
  (30 <= bz_attempt d -> connect now max i k d (w, m, evs) = None).
Proof.
  intros Hd Hc Hp Hcall Ha. unfold connect. rewrite Hp. destruct (dbus_call w p "Connect") as [w1 ok].
  cbn [snd] in Hcall. subst ok. cbn [negb]. unfold connect_failed. cbn [bz_dev upd_conn upd_slot].
  rewrite list_lookup_alter_eq, Hd. cbn [fmap option_fmap option_map slot_with_proxy bz_attempt].
  destruct (backoff_value (bz_attempt d + 1)) as [B1 B2]. split; intros H.
  - rewrite B1 by lia. do 2 eexists. split; [reflexivity|]. cbn. split.
    + by rewrite !list_lookup_alter_eq, Hc.
    + by rewrite !list_lookup_alter_eq, Hd.
  - by rewrite B2 by lia.
Qed.
End facts.

(** ** A tag BlueZ knows, switched off

    The world is the clock: every reading is eleven seconds after the one before. *)
Definition off_libc : Libc Z := {| c_time w := (w + 11, w + 11); c_rand w := (w, 0); c_srand w _ := w |}.

Definition off_bluez : Bluez Z := {|
  dbus_open w := (w, true);
  dbus_iterate w := (w, []);
  dbus_sleep w := w;
  dbus_objects w := (w, Some [("/org/bluez/hci0/dev_1", [("org.bluez.Device1", Some "54:6c:0e:b7:20:04")])]);
  dbus_discovery w _ := w;
  dbus_device w _ := (w, Some 1);
  dbus_char w _ := (w, None);
  dbus_call w _ _ := (w, false);
  dbus_property w _ _ := (w, Some false);
|}.

Definition off_mgr : bluez_mgr_t :=
  snd (fst (@bluez_add _ off_libc 0 (mk_bluez_mgr true [] []) 7 "54:6C:0E:B7:20:04")).

Fixpoint off_polls (n : nat) (w : Z) (m : bluez_mgr_t) : option (Z * bluez_mgr_t) :=
  match n with
  | O => Some (w, m)
  | S n' => let* (w, m, _) := @bluez_poll _ off_libc off_bluez w m 16 in off_polls n' w m
  end.

(** Discovery and thirty failures are fine, the next poll is undefined: six minutes with the
    tag off. *)
Lemma reconnect_backoff_witness :
  (exists w m d, off_polls 31 22 off_mgr = Some (w, m) /\ bz_dev m !! 0%nat = Some d /\ bz_attempt d = 30 /\
     @connect _ off_bluez 374 16 0 0 d (w, m, []) = None) /\ off_polls 32 22 off_mgr = None.
Proof.
  split; [|vm_compute; reflexivity].
  do 3 eexists. split; [vm_compute; reflexivity|]. split; [reflexivity|]. split; [reflexivity|].
  eapply (@reconnect_backoff _ off_bluez 374 16 0 0); try reflexivity; cbn; lia.
Defined.
