(* ===== verification/BluezLive.v ===== *)
(** * How long the BlueZ backend stays defined

    The delay of a reconnection is a shift by the number of failures, which [int] cannot hold
    from the thirty-first on (BluezFacts.reconnect_backoff). Thirty failures take a while:
    as long as a session is shorter than the delays before the thirty-first add up to, every
    poll is defined, however often the module polls. *)

From S2P Require Import Prelude CLib HesCommon HesBle BleSim Bluez BluezFacts.

(** The seconds the delays after the [a]-th failure add up to, up to the thirtieth. *)
Definition patience (a : Z) : Z := 10 * (30 - a) - (if a =? 0 then 16 else if a =? 1 then 8 else if a =? 2 then 2 else 0).

Lemma patience_step a : 0 <= a < 30 -> patience a = Z.min (2 ^ (a + 1)) RETRY_MAX_S + patience (a + 1).
Proof.
  intros Ha. unfold patience, RETRY_MAX_S.
  destruct (Z.eqb_spec a 0) as [->|]; [done|]. destruct (Z.eqb_spec a 1) as [->|]; [done|].
  destruct (Z.eqb_spec a 2) as [->|]; [done|].
  assert (2 ^ 4 <= 2 ^ (a + 1)) by (apply Z.pow_le_mono_r; lia).
  rewrite !(proj2 (Z.eqb_neq _ _)) by lia. lia.
Qed.

(** The session. *)
Definition RECONNECT_SPAN : Z := patience 0.

(** A slot's failures and its next try. *)
Definition retry_of (d : bluez_dev_t) : Z * Z := (bz_attempt d, bz_next_try d).

Definition retries (m : bluez_mgr_t) : list (Z * Z) := retry_of <$> bz_dev m.

(** Most calls leave them alone. *)
Definition keeps (m m' : bluez_mgr_t) : Prop := retries m' = retries m.

#[export] Instance keeps_preorder : PreOrder keeps.
Proof. split; [by intros m|]. intros m1 m2 m3. unfold keeps. congruence. Qed.

Lemma keeps_upd_slot k f m : (forall d, retry_of (f d) = retry_of d) -> keeps m (upd_slot k f m).
Proof. apply fmap_alter_same. Qed.

Lemma keeps_signal m s : keeps m (on_signal m s).
Proof.
  destruct s as [[p|] c|p v]; simpl; try reflexivity.
  - destruct (list_find _ _) as [[k d]|]; [|reflexivity]. destruct c; [by apply keeps_upd_slot|reflexivity].
  - unfold on_btn_value. destruct (list_find _ _) as [[k d]|]; [|reflexivity].
    destruct v as [[|b v]|]; [reflexivity|by apply keeps_upd_slot|reflexivity].
Qed.

Lemma retries_alter k f r m d : bz_dev m !! k = Some d -> retry_of (f d) = r ->
  retries (upd_slot k f m) = <[k := r]> (retries m).
Proof.
  intros Hd Hr. apply list_eq. intros j. unfold retries. cbn.
  rewrite list_lookup_fmap, list_lookup_alter. case_decide as Hj; [subst j|].
  - rewrite Hd. cbn. rewrite Hr. rewrite list_lookup_insert_eq; [done|].
    rewrite length_fmap. by eapply lookup_lt_Some.
  - by rewrite list_lookup_insert_ne, list_lookup_fmap.
Qed.

Lemma retries_lookup m k r : retries m !! k = Some r -> exists d, bz_dev m !! k = Some d /\ retry_of d = r.
Proof. unfold retries. rewrite list_lookup_fmap. destruct (bz_dev m !! k) as [d|]; [|done]. intros [= <-]. by exists d. Qed.

Section live.
Context {W : Type} {libc : Libc W} {bluez : Bluez W}.

Lemma keeps_pump w m : keeps m (snd (pump w m)).
Proof.
  unfold pump. destruct (dbus_iterate w) as [w1 sigs]. cbn. revert m.
  induction sigs as [|s sigs IH]; intros m; cbn; [reflexivity|]. etransitivity; [apply keeps_signal|apply IH].
Qed.

Lemma keeps_wait n w m p : keeps m (snd (fst (wait_resolved n w m p))).
Proof.
  revert w m. induction n as [|n IH]; intros w m; cbn [wait_resolved]; [reflexivity|].
  pose proof (keeps_pump w m) as Hp. destruct (pump w m) as [w1 m1]. destruct (dbus_property _ _ _) as [w2 r].
  etransitivity; [exact Hp|]. destruct r as [[]|]; [reflexivity|apply IH..].
Qed.

Lemma keeps_unsubscribe w m k : keeps m (snd (unsubscribe_button w m k)).
Proof. by apply keeps_upd_slot. Qed.

Lemma keeps_subscribe w m k : keeps m (snd (subscribe_button w m k)).
Proof.
  unfold subscribe_button. destruct (bz_dev m !! k) as [d|]; [|reflexivity]. destruct (_ || _)%bool; [reflexivity|].
  destruct (dbus_char _ _) as [w1 [p|]]; [by apply keeps_upd_slot|reflexivity].
Qed.

(** ** A session from [t0] to [T] *)

Variables (t0 T : Z).
Hypothesis Hspan : T < t0 + RECONNECT_SPAN.

(** A slot that has failed waits long enough for its thirty-first failure to come too late. *)
Definition retry_sound (r : Z * Z) : Prop :=
  fst r = 0 \/ 0 < fst r <= 30 /\ T < snd r + patience (fst r).

Definition bluez_sound (m : bluez_mgr_t) : Prop := Forall retry_sound (retries m).

Lemma sound_keeps m m' : keeps m m' -> bluez_sound m -> bluez_sound m'.
Proof. unfold bluez_sound. by intros ->. Qed.

Lemma sound_retry k f r m d : bz_dev m !! k = Some d -> retry_of (f d) = r -> retry_sound r ->
  bluez_sound m -> bluez_sound (upd_slot k f m).
Proof. intros Hd Hr Hs H. unfold bluez_sound. erewrite retries_alter by done. by apply Forall_insert. Qed.

Lemma sound_lookup m k r : bluez_sound m -> retries m !! k = Some r -> retry_sound r.
Proof. intros H. unfold bluez_sound in H. rewrite Forall_lookup in H. apply H. Qed.

(** A retry that is due only moves forward. *)
Lemma sound_discover w m k d now : bz_dev m !! k = Some d -> bluez_sound m -> bluez_sound (snd (discover w m k d now)).
Proof.
  intros Hd H. unfold discover. destruct (_ && _)%bool eqn:E; [|done]. bool_hyps.
  assert (Hk : forall p sc, bluez_sound (upd_slot k (slot_with_path p sc (now + SCAN_RETRY_S)) m)).
  { intros p sc. eapply sound_retry; [done|done| |done].
    pose proof (sound_lookup m k (retry_of d) H) as Hs. unfold retries in Hs. rewrite list_lookup_fmap, Hd in Hs.
    specialize (Hs eq_refl). unfold retry_sound, retry_of, SCAN_RETRY_S in *. cbn in *. lia. }
  destruct (resolve_path _ _) as [w1 [p|]]; apply Hk.
Qed.

Section at_time.
Variable now : Z.
Hypothesis Hnow : t0 <= now <= T.

(** The slot's next try has come. *)
Definition due (k : nat) (m : bluez_mgr_t) : Prop := exists r, retries m !! k = Some r /\ snd r <= now.

Lemma due_keeps k m m' : keeps m m' -> due k m -> due k m'.
Proof. unfold due. by intros ->. Qed.

(** A failure whose try was due has its delay, and leaves its slot sound. *)
Lemma failed_total m i k : due k m -> bluez_sound m ->
  exists m', connect_failed m i k now = Some m' /\ bluez_sound m'.
Proof.
  intros ([a next] & Hr & Hd) H. pose proof (sound_lookup m k _ H Hr) as Hs.
  destruct (retries_lookup m k _ Hr) as (d & Hdev & [= Ha Hn]). unfold connect_failed. cbn. rewrite Hdev. cbn. rewrite Ha.
  unfold retry_sound, RECONNECT_SPAN in *. cbn in Hs, Hd.
  assert (Hlt : 0 <= a < 30).
  { destruct Hs as [->|[Hb Hw]]; [lia|]. destruct (decide (a = 30)) as [->|]; [|lia]. change (patience 30) with 0 in Hw. lia. }
  pose proof (patience_step a Hlt) as Hp. destruct (backoff_value (a + 1)) as [Hb _]. rewrite Hb by lia. cbn.
  eexists. split; [done|]. eapply sound_retry; [exact Hdev|done| |exact H].
  right. cbn. split; [lia|]. destruct Hs as [->|[_ Hw]]; lia.
Qed.

Lemma watch_link_sound max i k d w m evs : is_Some (bz_dev m !! k) -> bluez_sound m ->
  bluez_sound (snd (fst (watch_link now max i k d (w, m, evs)))).
Proof.
  intros [d0 Hd0] H. unfold watch_link. destruct (bz_proxy d) as [p|]; [|done]. destruct (dbus_property _ _ _) as [w1 c]. cbn zeta.
  assert (H1 : bluez_sound (upd_slot k (slot_with_connected (default (bz_connected d) c)) m))
    by (eapply sound_keeps; [by apply keeps_upd_slot|done]).
  destruct (default _ c); [done|]. unfold unsubscribe_button. cbn.
  eapply (sound_retry k _ (0, now + RETRY_BASE_S)); [|done|by left|].
  - cbn. rewrite !list_lookup_alter_eq, Hd0. done.
  - eapply (sound_keeps (upd_slot k (slot_with_connected false) m)); [by apply keeps_upd_slot|done].
Qed.

Lemma connect_total max i k d w m evs : due k m -> bluez_sound m ->
  exists w' m' evs', connect now max i k d (w, m, evs) = Some (w', m', evs') /\ bluez_sound m'.
Proof.
  intros Hd H. unfold connect. destruct (match bz_proxy d with Some p => _ | None => _ end) as [w1 proxy]. cbn zeta.
  set (m1 := upd_slot k (slot_with_proxy proxy) m). assert (K1 : keeps m m1) by by apply keeps_upd_slot. clearbody m1.
  assert (Hfail : forall w2 m2, keeps m1 m2 -> exists (w' : W) m' (evs' : list hes_ble_event_t),
    (let* m := connect_failed m2 i k now in Some (w2, m, evs)) = Some (w', m', evs') /\ bluez_sound m').
  { intros w2 m2 K2. pose proof (transitivity K1 K2) as K. destruct (failed_total m2 i k) as (m' & -> & Hm').
    - by eapply due_keeps.
    - by eapply sound_keeps.
    - cbn. by eexists _, _, _. }
  destruct proxy as [p|]; [|by apply Hfail]. set (m2 := upd_conn i _ now m1). assert (K2 : keeps m1 m2) by done. clearbody m2.
  destruct (dbus_call _ _ _) as [w2 []]; cbn [negb]; [|by apply Hfail].
  pose proof (keeps_wait (Z.to_nat (RESOLVE_TIMEOUT_MS / 50)) w2 m2 p) as K3.
  destruct (wait_resolved _ w2 m2 p) as [[w3 m3] []]; cbn [negb fst snd] in *; [|by apply Hfail; etransitivity].
  clear Hfail. destruct (dbus_property _ _ _) as [w4 c].
  match goal with |- context [subscribe_button ?w5 ?m5 ?k5] =>
    pose proof (keeps_subscribe w5 m5 k5) as K4; set (m4 := m5) in *;
    destruct (subscribe_button w5 m4 k5) as [w6 m6] end. cbn [snd] in K4.
  eexists _, _, _. split; [done|]. eapply sound_keeps; [exact K4|]. subst m4.
  pose proof (transitivity K1 (transitivity K2 K3)) as K. destruct (due_keeps k _ _ K Hd) as (r & Hr & _).
  apply retries_lookup in Hr as (d3 & Hd3 & _).
  eapply (sound_retry k _ (0, 0)); [cbn; by rewrite list_lookup_alter_eq, Hd3|done|by left|].
  eapply (sound_keeps m3); [by apply keeps_upd_slot|]. by eapply sound_keeps.
Qed.

Lemma bluez_poll_device_total max i (s : W * bluez_mgr_t * list hes_ble_event_t) : bluez_sound (snd (fst s)) ->
  exists s', poll_device now max i s = Some s' /\ bluez_sound (snd (fst s')).
Proof.
  destruct s as [[w m] evs]. cbn [fst snd]. intros H. unfold poll_device.
  destruct (let* c := bz_mgr m !! i in _) as [[[c k] d]|] eqn:E; [|by eexists].
  assert (Hd : bz_dev m !! k = Some d).
  { destruct (bz_mgr m !! i) as [c1|]; [|done]. cbn in E. destruct (find_slot m _) as [k1|]; [|done]. cbn in E.
    destruct (bz_dev m !! k1) as [d1|] eqn:Ed; [|done]. cbn in E. destruct (bz_conn m); [|done]. congruence. }
  pose proof (sound_discover w m k d now Hd H) as H1. pose proof (quiet_discover w m k d now) as [Hq _].
  destruct (discover w m k d now) as [w1 m1]. cbn [snd] in *.
  assert (exists d1, bz_dev m1 !! k = Some d1) as [d1 Hd1].
  { apply lookup_lt_is_Some_2. apply (f_equal length) in Hq. rewrite !length_fmap in Hq. rewrite Hq. by eapply lookup_lt_Some. }
  rewrite Hd1. cbn. destruct (is_online c).
  { eexists. split; [done|]. by apply watch_link_sound. }
  destruct (_ || _)%bool eqn:Eb; [by eexists|]. bool_hyps.
  destruct (connect_total max i k d1 w1 m1 evs) as (w2 & m2 & evs2 & -> & Hm2); [|done|by eexists].
  exists (retry_of d1). unfold retries. rewrite list_lookup_fmap, Hd1. split; [done|]. cbn. lia.
Qed.
End at_time.

(** ** The interface *)

Lemma bluez_poll_total w m max : clock_within libc t0 T -> bluez_sound m ->
  exists w' m' evs, bluez_poll w m max = Some (w', m', evs) /\ bluez_sound m'.
Proof.
  intros Hclock H. unfold bluez_poll. specialize (Hclock w). destruct (c_time w) as [w1 now].
  pose proof (sound_keeps _ _ (keeps_pump w1 m) H) as H1. destruct (pump w1 m) as [w2 m1]. cbn [snd] in *.
  destruct (for_each_total (fun s => bluez_sound (snd (fst s))) (poll_device now max)
    (seq 0 (length (bz_mgr m1))) (w2, m1, [])) as ([[w' m'] evs] & -> & H'); [|done|by eexists _, _, _].
  intros i s _. by apply bluez_poll_device_total.
Qed.

Lemma bluez_close_total w m : exists w' m', bluez_close w m = Some (w', m') /\ bz_conn m' = false /\ bz_dev m' = [].
Proof.
  unfold bluez_close.
  destruct (for_each_total (fun _ => True) bluez_close_slot (seq 0 (length (bz_dev m))) (w, m)) as ([w1 m1] & -> & _); [|done|].
  - intros k [w1 m1] _ _. unfold bluez_close_slot. destruct (unsubscribe_button w1 m1 k) as [w2 m2].
    destruct (let* d := _ in bz_proxy d); by eexists.
  - by eexists _, _.
Qed.

(** Within a session that short the backend's polls are all defined. *)
Definition bluez_backend_total (Hclock : clock_within libc t0 T) : BleBackendTotal bluez_backend.
Proof.
  refine {| ble_sound := bluez_sound; ble_released m := bz_conn m = false /\ bz_dev m = [] |}.
  - intros w. cbn. unfold bluez_init. destruct (dbus_open w). by constructor.
  - intros w m di addr H. cbn. unfold bluez_add. destruct (find_slot m di); [done|]. destruct (_ || _)%bool; [done|].
    destruct (c_time w) as [w1 n1]. destruct (c_time w1) as [w2 n2]. cbn. unfold bluez_sound, retries. cbn.
    rewrite fmap_app. apply Forall_app. split; [done|]. constructor; [by left|constructor].
  - intros w m max. by apply bluez_poll_total.
  - apply bluez_close_total.
Defined.
End live.
