(* ===== verification/Ble.v ===== *)
(** * The BLE interface module

    Models src/src/han/ble/ble.c: start-up against the manifest service, GET messages,
    manifest notifications, the link events of the connection manager (the class
    [BleBackend]), the change-driven button and the periodic reports. [W] is the world
    behind the sockets, the C library and the radio. Results are [None] where the code
    leaves its buffers or the backend is undefined. *)

From S2P Require Import Prelude CLib HesCommon Bus Json Devreg Slice Mreg HesBle Sensortag Wifi.

Definition PUBLISH_PERIOD_SEC : Z := 5.
Definition HES_LX_BTN_CV : string := "/lx/ob/uo/ui/ud/da/cv".
Definition HES_LX_TEMP_CV : string := "/lx/ob/uo/hv/ts/as/cv".

(** [%02u] and [%.2f]. *)
Definition fmt_02u (n : Z) : string := if n <? 10 then ("0" ++ fmt_d n)%string else fmt_d n.

Definition fmt_2f (v : double) : string :=
  let sign (s : bool) := if s then "-" else "" in
  match v with
  | S754_zero s => (sign s ++ "0.00")%string
  | S754_infinity s => (sign s ++ "inf")%string
  | S754_nan => "nan"
  | S754_finite s m e =>
      let n := if 0 <=? e then Zpos m * 2 ^ e * 100 else round_div (Zpos m * 100) (2 ^ (- e)) in
      (sign s ++ fmt_d (n / 100) ++ "." ++ fmt_02u (n mod 100))%string
  end.

Record ble_dev_t := mk_ble_dev {
  bd_tag : sensortag_t;
  bd_btn_set : bool;
  bd_last_btn : Z;
}.

Definition bd_with_tag (t : sensortag_t) (d : ble_dev_t) : ble_dev_t :=
  mk_ble_dev t (bd_btn_set d) (bd_last_btn d).

Definition bd_with_btn (set : bool) (b : Z) (d : ble_dev_t) : ble_dev_t := mk_ble_dev (bd_tag d) set b.

(** The locals of [han_ble_main], with the world they act on. *)
Record ble_t (W M : Type) := mk_ble {
  bl_world : W;
  bl_mreg : hes_mreg_t;
  bl_reg : hes_devreg_t;
  bl_mgr : M;
  bl_devs : list ble_dev_t;
  bl_bus : hes_bus_t;
  bl_last_publish : Z;
}.
Arguments mk_ble {W M}.
Arguments bl_world {W M}.
Arguments bl_mreg {W M}.
Arguments bl_reg {W M}.
Arguments bl_mgr {W M}.
Arguments bl_devs {W M}.
Arguments bl_bus {W M}.
Arguments bl_last_publish {W M}.

(** What the poll of the sockets finds in one turn: the message received, if any, and the
    notification waiting, or the error of its receive. *)
Record ble_input := mk_ble_input {
  bi_message : option hes_clme_msg_t;
  bi_notification : string + Z;
}.

Section ble.
Context {target : Target} {nng : Nng} {W M : Type} {libc : Libc W} {backend : BleBackend W M}.
Variable json_loads : string -> option json.
Variable service : W -> string -> W * option string.
(** The address of the n-th device's tag, which seeds its walk. *)
Variable tag_addr : nat -> Z.

Definition ble_with_dev (i : nat) (w : W) (f : ble_dev_t -> ble_dev_t) (s : ble_t W M) : ble_t W M :=
  mk_ble w (bl_mreg s) (bl_reg s) (bl_mgr s) (alter f i (bl_devs s)) (bl_bus s) (bl_last_publish s).

Definition ble_with_bus (b : hes_bus_t) (s : ble_t W M) : ble_t W M :=
  mk_ble (bl_world s) (bl_mreg s) (bl_reg s) (bl_mgr s) (bl_devs s) b (bl_last_publish s).

Definition ble_with_reg (w : W) (r : hes_devreg_t) (s : ble_t W M) : ble_t W M :=
  mk_ble w (bl_mreg s) r (bl_mgr s) (bl_devs s) (bl_bus s) (bl_last_publish s).

(** ** Readings *)

Definition read_button_any (w : W) (m : M) (tag : sensortag_t) (di : Z) : W * sensortag_t * Z :=
  match hes_ble_mgr_button m di with
  | Some b => (w, tag, b)
  | None => sensortag_read_button w tag
  end.

Definition read_sensor (w : W) (m : M) (self : Z) (tag : sensortag_t) (di : Z) (obj : hes_dev_object_t)
  : W * sensortag_t * option string :=
  if do_path obj =?s HES_LX_BTN_CV then
    let '(w, tag, b) := read_button_any w m tag di in
    (w, tag, Some (fmt_d (if b =? 0 then 0 else 1)))
  else if do_path obj =?s HES_LX_TEMP_CV then
    let '(w, tag, c) := sensortag_read_temp_c w self tag in (w, tag, Some (str_take 31 (fmt_2f c)))
  else (w, tag, None).

Definition publish_value (s : ble_t W M) (d : hes_device_t) (obj : hes_dev_object_t) (val : string)
  : ble_t W M :=
  ble_with_bus (hes_bus_send (bl_bus s)
    (msg_with_query "va" (event_of (hd_device_index d) (do_path obj) val))) s.

(** ** Start-up *)

Definition ble_boot_device (mac_override : option string) (d : hes_device_t) : hes_device_t :=
  let d := if hd_address d =?s "" then
             match mac_override with
             | Some mac => dev_with_address mac d
             | None => dev_with_address ("24:71:89:BC:32:" ++ fmt_02u (Z.land (hd_net_ref_index d) 255))%string d
             end
           else d in
  dev_with_online false d.

Fixpoint add_devices (ds : list hes_device_t) (w : W) (m : M) : W * M :=
  match ds with
  | [] => (w, m)
  | d :: ds' =>
      let '(w, m, _) := hes_ble_mgr_add w m (hd_device_index d) (hd_address d) in add_devices ds' w m
  end.

(** [sim_build]: HES_BLE_BACKEND_SIM is defined, and a device with a button toggles it. *)
Fixpoint init_tags (sim_build : bool) (ds : list hes_device_t) (w : W) (devs : list ble_dev_t)
  : W * list ble_dev_t :=
  match ds with
  | [] => (w, devs)
  | d :: ds' =>
      let '(w, tag) :=
        if (sim_build && existsb (fun o => do_path o =?s HES_LX_BTN_CV) (hd_objects d))%bool
        then sensortag_set_button_period w sensortag_init (6 + hd_device_index d mod 5 * 3)
        else (w, sensortag_init) in
      init_tags sim_build ds' w (devs ++ [mk_ble_dev tag false 0])
  end.

(** The inner [None] is the exit status 1. *)
Definition ble_boot (sim_build : bool) (w : W) (svc_rep svc_pub : string) (module_ref : Z)
  (mac_override : option string) (leaf_open : list string -> Z) (bus : hes_bus_t)
  : option (option (ble_t W M)) :=
  let '(mreg, rv) := hes_mreg_open svc_rep svc_pub (Some HES_MT_INTERFACE) module_ref in
  if negb (rv =? 0) then Some None
  else
    let* (w, reg, rv) := hes_mreg_query json_loads service w mreg hes_devreg_init in
    if negb (rv =? 0) then Some None
    else if bool_decide (dr_devices reg = []) then Some None
    else
      let reg := reg_with_devices (ble_boot_device mac_override <$> dr_devices reg) reg in
      let* (w, _) := hes_mreg_report service w mreg reg in
      let* (w, reg, rv) := hes_mreg_query json_loads service w mreg hes_devreg_init in
      if negb (rv =? 0) then Some None
      else
        let '(w, m) := hes_ble_mgr_init w in
        let '(w, m) := add_devices (dr_devices reg) w m in
        let '(w, devs) := init_tags sim_build (dr_devices reg) w [] in
        if negb (leaf_open (hes_devreg_collect_topics reg HES_BUS_MAX_TOPICS) =? 0) then Some None
        else Some (Some (mk_ble w mreg reg m devs bus 0)).

(** ** Messages and notifications *)

(** The device and the object a GET addresses. *)
Definition ble_addressed (s : ble_t W M) (m : hes_clme_msg_t) : option (nat * hes_device_t * hes_dev_object_t) :=
  let* idx := resolve_index (bl_reg s) (msg_path m) (msg_device_index m) in
  let* d := dr_devices (bl_reg s) !! idx in
  let* obj := hes_dev_object_find d (msg_path m) in
  if has_char "r" (do_access obj) then Some (idx, d, obj) else None.

Definition ble_get (s : ble_t W M) (m : hes_clme_msg_t) : option (ble_t W M) :=
  match ble_addressed s m with
  | None => Some s
  | Some (idx, d, obj) =>
      let* dev := bl_devs s !! idx in
      let '(w, tag, val) := read_sensor (bl_world s) (bl_mgr s) (tag_addr idx) (bd_tag dev)
                              (hd_device_index d) obj in
      let s := ble_with_dev idx w (bd_with_tag tag) s in
      Some match val with
           | None => s
           | Some v => ble_with_bus (hes_bus_send (bl_bus s) (event_of (hd_device_index d) (msg_path m) v)) s
           end
  end.

(** A SUBSCRIBE is only logged, a PUT ignored. *)
Definition ble_message (s : ble_t W M) (m : hes_clme_msg_t) : option (ble_t W M) :=
  if msg_verb m =? HES_VERB_GET then ble_get s m else Some s.

Definition ble_notification (s : ble_t W M) (incoming : string + Z) : option (ble_t W M) :=
  let* (upd, rv) := hes_mreg_recv_update json_loads (bl_mreg s) hes_devreg_init incoming in
  Some (if rv =? 0 then ble_with_reg (bl_world s) (merge_slice (bl_reg s) upd) s else s).

(** ** Links *)

(** A link event whose news the registry does not have yet is taken over and reported. *)
Definition link_event (e : hes_ble_event_t) (s : ble_t W M) : option (ble_t W M) :=
  match index_by_di (bl_reg s) (ev_device_index e) with
  | None => Some s
  | Some idx =>
      let* d := dr_devices (bl_reg s) !! idx in
      if Bool.eqb (ev_is_online e) (hd_online d) then Some s
      else
        let reg := set_online idx (ev_is_online e) (bl_reg s) in
        let s := if ev_is_online e
                 then ble_with_dev idx (bl_world s) (fun b => bd_with_btn false (bd_last_btn b) b) s else s in
        let* (w, _) := hes_mreg_report service (bl_world s) (bl_mreg s) reg in
        Some (ble_with_reg w reg s)
  end.

Definition ble_links_step (s : ble_t W M) : option (ble_t W M) :=
  let* (w, m, evs) := hes_ble_mgr_poll (bl_world s) (bl_mgr s) HES_DEVREG_MAX_DEVICES in
  for_each link_event evs
    (mk_ble w (bl_mreg s) (bl_reg s) m (bl_devs s) (bl_bus s) (bl_last_publish s)).

(** ** Reports *)

(** A device's button goes out when its value is not the one last published. *)
Definition ble_button (i : nat) (s : ble_t W M) : option (ble_t W M) :=
  let* d := dr_devices (bl_reg s) !! i in
  if negb (hd_online d) then Some s
  else
    match hes_dev_object_find d HES_LX_BTN_CV with
    | None => Some s
    | Some bo =>
        let* dev := bl_devs s !! i in
        let '(w, tag, pressed) := read_button_any (bl_world s) (bl_mgr s) (bd_tag dev) (hd_device_index d) in
        let s := ble_with_dev i w (bd_with_tag tag) s in
        if (negb (bd_btn_set dev) || negb (pressed =? bd_last_btn dev))%bool then
          let s := ble_with_dev i w (bd_with_btn true pressed) s in
          Some (publish_value s d bo (fmt_d (if pressed =? 0 then 0 else 1)))
        else Some s
    end.

Definition ble_publish_object (i : nat) (d : hes_device_t) (obj : hes_dev_object_t) (s : ble_t W M)
  : option (ble_t W M) :=
  if (negb (has_char "r" (do_access obj)) || (do_path obj =?s HES_LX_BTN_CV))%bool then Some s
  else
    let* dev := bl_devs s !! i in
    let '(w, tag, val) := read_sensor (bl_world s) (bl_mgr s) (tag_addr i) (bd_tag dev) (hd_device_index d) obj in
    let s := ble_with_dev i w (bd_with_tag tag) s in
    Some match val with None => s | Some v => publish_value s d obj v end.

Definition ble_publish_device (i : nat) (s : ble_t W M) : option (ble_t W M) :=
  let* d := dr_devices (bl_reg s) !! i in
  if negb (hd_online d) then Some s else for_each (ble_publish_object i d) (hd_objects d) s.

Definition ble_publish (s : ble_t W M) : option (ble_t W M) :=
  let '(w, now) := c_time (bl_world s) in
  let due := PUBLISH_PERIOD_SEC <=? now - bl_last_publish s in
  let s := mk_ble w (bl_mreg s) (bl_reg s) (bl_mgr s) (bl_devs s) (bl_bus s)
             (if due then now else bl_last_publish s) in
  if due then for_each ble_publish_device (seq 0 (length (dr_devices (bl_reg s)))) s else Some s.

(** ** One turn of the main loop *)

Definition ble_turn (s : ble_t W M) (e : ble_input) : option (ble_t W M) :=
  let* s := match bi_message e with Some m => ble_message s m | None => Some s end in
  let* s := ble_notification s (bi_notification e) in
  let* s := ble_links_step s in
  let* s := for_each ble_button (seq 0 (length (dr_devices (bl_reg s)))) s in
  ble_publish s.

Definition ble_run (s : ble_t W M) (es : list ble_input) : option (ble_t W M) :=
  for_each (fun e s => ble_turn s e) es s.
End ble.
