(* ===== verification/BleFacts.v ===== *)
(** * Properties of the BLE interface module

    Proved against the connection manager's interface, so they hold for either backend:
    the registry's presence follows the links, what the module says on the bus, and the
    change-driven button. *)

From S2P Require Import Prelude CLib HesCommon Bus Json Devreg Slice Mreg HesBle BleSim Sensortag Wifi Ble.

(** The presence the registry records, device by device. *)
Definition flag_of (d : hes_device_t) : Z * bool := (hd_device_index d, hd_online d).

Definition flags (r : hes_devreg_t) : list (Z * bool) := flag_of <$> dr_devices r.

Lemma flags_set_online i b r :
  flags (set_online i b r) = alter (fun f => (fst f, b)) i (flags r).
Proof.
  unfold flags, set_online. simpl. apply list_eq. intros j.
  rewrite !list_lookup_fmap, !list_lookup_alter, !list_lookup_fmap. case_decide; [subst|done]. by destruct (dr_devices r !! j).
Qed.

Lemma flags_length r : length (flags r) = length (dr_devices r).
Proof. apply length_fmap. Qed.

(** With distinct indices, the lookup finds the position of the flag. *)
Lemma index_of_flag r pre di b post :
  flags r = pre ++ (di, b) :: post -> NoDup (flags r).*1 -> index_by_di r di = Some (length pre).
Proof.
  intros Hf Hn. apply index_by_di_Some.
  assert (Hl : flags r !! length pre = Some (di, b)) by (rewrite Hf; by apply list_lookup_middle).
  unfold flags in Hl. rewrite list_lookup_fmap in Hl.
  destruct (dr_devices r !! length pre) as [d|] eqn:Ed; [|done]. cbn in Hl. injection Hl as Hdi Hb.
  exists d. split; [done|]. split; [done|].
  intros j d' Hj Hd' Heq. enough (j = length pre) by lia.
  eapply NoDup_lookup; [exact Hn| |]; unfold flags; rewrite !list_lookup_fmap; [rewrite Hd'|rewrite Ed]; cbn; [|done].
  by rewrite Heq, Hdi.
Qed.

(** ** What the module says *)

Definition ble_reading (obj : hes_dev_object_t) (v : string) : Prop :=
  (do_path obj = HES_LX_BTN_CV /\ (v = "0" \/ v = "1")) \/
  (do_path obj = HES_LX_TEMP_CV /\ exists c, v = str_take 31 (fmt_2f c)).

(** A report of one readable object of a device; a button also goes out unasked. *)
Definition ble_reports (d : hes_device_t) (m : hes_clme_msg_t) : Prop :=
  msg_verb m = HES_VERB_EVENT /\ msg_device_index m = hd_device_index d /\
  exists o v, o ∈ hd_objects d /\ (has_char "r" (do_access o) = true \/ do_path o = HES_LX_BTN_CV) /\
    msg_path m = hes_strlcpy HES_PATH_MAX (do_path o) /\
    msg_payload m = hes_strlcpy HES_PAYLOAD_MAX v /\ ble_reading o v.

Section facts.
Context {target : Target} {nng : Nng} {W M : Type} {libc : Libc W} {backend : BleBackend W M}.
Variable json_loads : string -> option json.
Variable service : W -> string -> W * option string.
Variable tag_addr : nat -> Z.

(** From [s] to [s'] the registry keeps its shape, the module its handle and its devices,
    and the messages [ms] were sent. *)
Record ble_frame (s s' : ble_t W M) (ms : list hes_clme_msg_t) : Prop := {
  bf_mreg : bl_mreg s' = bl_mreg s;
  bf_shape : same_shape (bl_reg s') (bl_reg s);
  bf_devs : length (bl_devs s') = length (bl_devs s);
  bf_bus : bus_extends (bl_bus s) (bl_bus s') ms;
}.

Lemma ble_frame_refl s : ble_frame s s [].
Proof. split; try done. apply bus_extends_refl. Qed.

Lemma ble_frame_trans s1 s2 s3 ms ns :
  ble_frame s1 s2 ms -> ble_frame s2 s3 ns -> ble_frame s1 s3 (ms ++ ns).
Proof.
  intros [] []. split; [congruence|by etransitivity|congruence|by eapply bus_extends_trans].
Qed.

Lemma ble_frame_dev i w f s : ble_frame s (ble_with_dev i w f s) [].
Proof. split; [done|done|apply length_alter|apply bus_extends_refl]. Qed.

Lemma ble_frame_reg w r s : same_shape r (bl_reg s) -> ble_frame s (ble_with_reg w r s) [].
Proof. intros Hs. split; [done|done|done|apply bus_extends_refl]. Qed.

Lemma ble_frame_send (m : hes_clme_msg_t) s :
  exists m', ble_frame s (ble_with_bus (hes_bus_send (bl_bus s) m) s) [m'] /\
    msg_path m' = msg_path m /\ msg_verb m' = msg_verb m /\
    msg_device_index m' = msg_device_index m /\ msg_payload m' = msg_payload m.
Proof. destruct (bus_extends_send (bl_bus s) m) as (m' & Hb & ? & ? & ? & ? & _). by exists m'. Qed.

Lemma read_sensor_spec w m self tag di obj w' tag' v :
  read_sensor w m self tag di obj = (w', tag', Some v) -> ble_reading obj v.
Proof.
  unfold read_sensor, ble_reading. destruct (do_path obj =?s HES_LX_BTN_CV) eqn:E1; [apply String.eqb_eq in E1|].
  { destruct (read_button_any _ _ _ _) as [[w1 t1] b]. intros [= _ _ <-]. left. split; [done|].
    destruct (b =? 0); [by left|by right]. }
  destruct (do_path obj =?s HES_LX_TEMP_CV) eqn:E2; [apply String.eqb_eq in E2|done].
  destruct (sensortag_read_temp_c _ _ _) as [[w1 t1] c]. intros [= _ _ <-]. right. split; [done|]. by exists c.
Qed.

(** Sending a reading keeps the frame and is a report of the device. *)
Lemma send_reading s d obj v msg :
  obj ∈ hd_objects d -> (has_char "r" (do_access obj) = true \/ do_path obj = HES_LX_BTN_CV) ->
  ble_reading obj v -> msg_verb msg = HES_VERB_EVENT -> msg_device_index msg = hd_device_index d ->
  msg_path msg = hes_strlcpy HES_PATH_MAX (do_path obj) -> msg_payload msg = hes_strlcpy HES_PAYLOAD_MAX v ->
  exists ms, ble_frame s (ble_with_bus (hes_bus_send (bl_bus s) msg) s) ms /\ Forall (ble_reports d) ms.
Proof.
  intros Ho Ha Hr Hv Hi Hp Hl. destruct (ble_frame_send msg s) as (m' & Hf & Hp' & Hv' & Hi' & Hl').
  exists [m']. split; [done|]. constructor; [|constructor]. split; [congruence|]. split; [congruence|].
  exists obj, v. repeat split; try done; congruence.
Qed.

(** ** Presence *)

Definition tracks (s : ble_t W M) : Prop := flags (bl_reg s) = ble_links (bl_mgr s).

(** Taking over the changes from [l] to [l'] turns flags that read [l] into [l']. *)
Lemma link_events_flags l l' pre (s s' : ble_t W M) :
  for_each (link_event service) (changes l l') s = Some s' ->
  l'.*1 = l.*1 -> flags (bl_reg s) = pre ++ l -> NoDup (flags (bl_reg s)).*1 ->
  flags (bl_reg s') = pre ++ l' /\ bl_mgr s' = bl_mgr s /\ ble_frame s s' [].
Proof.
  revert l' pre s. induction l as [|[di b] l IH]; intros [|[di' b'] l'] pre s H Heq Hf Hn; try done.
  { cbn in H. simplify_eq. split; [done|]. split; [done|]. apply ble_frame_refl. }
  cbn [fmap list_fmap fst] in Heq. injection Heq as -> Heq. cbn [changes] in H.
  rewrite for_each_app in H. destruct (Bool.eqb b b') eqn:Eb; cbn [for_each] in H.
  - apply eqb_prop in Eb. subst b'.
    destruct (IH l' (pre ++ [(di, b)]) s H Heq) as (H1 & H2 & H3); [by rewrite <- app_assoc|done|].
    split; [by rewrite H1, <- app_assoc|done].
  - destruct (link_event service (mk_ble_event di b') s) as [s1|] eqn:E; [|done].
    unfold link_event in E. cbn [ev_device_index ev_is_online] in E.
    rewrite (index_of_flag _ _ _ _ _ Hf Hn) in E.
    assert (Hl : flags (bl_reg s) !! length pre = Some (di, b)) by (rewrite Hf; by apply list_lookup_middle).
    unfold flags in Hl. rewrite list_lookup_fmap in Hl.
    destruct (dr_devices (bl_reg s) !! length pre) as [d|]; [|done]. cbn in E, Hl.
    unfold flag_of in Hl. simplify_eq/=.
    replace (Bool.eqb b' (hd_online d)) with false in E by (revert Eb; by destruct b', (hd_online d)).
    set (s0 := if b' then _ else s) in E.
    assert (Hf0 : ble_frame s s0 [] /\ bl_mgr s0 = bl_mgr s /\ bl_reg s0 = bl_reg s)
      by (subst s0; destruct b'; (split; [apply ble_frame_dev || apply ble_frame_refl|done])).
    clearbody s0. destruct Hf0 as (F1 & F2 & F3).
    destruct (hes_mreg_report _ _ _ _) as [[w rv]|]; [|done]. cbn in E. simplify_eq.
    set (reg := set_online (length pre) b' (bl_reg s)) in *.
    assert (Hreg : flags reg = pre ++ (hd_device_index d, b') :: l).
    { subst reg. rewrite flags_set_online, Hf. by rewrite alter_app_r_alt, Nat.sub_diag by lia. }
    destruct (IH l' (pre ++ [(hd_device_index d, b')]) (ble_with_reg w reg s0) H Heq) as (H1 & H2 & H3).
    + simpl. by rewrite Hreg, <- app_assoc.
    + simpl. rewrite Hreg. rewrite Hf in Hn. by rewrite !fmap_app in Hn |- *.
    + split; [by rewrite H1, <- app_assoc|]. split; [simpl in H2; congruence|].
      eapply (ble_frame_trans s s0 s' [] []); [done|].
      eapply (ble_frame_trans s0 _ s' [] []); [|done]. apply ble_frame_reg. rewrite F3.
      apply same_shape_set_online.
Qed.

(** ** Steps that leave the registry and the links alone *)

Record ble_quiet (s s' : ble_t W M) (ms : list hes_clme_msg_t) : Prop := {
  bq_frame : ble_frame s s' ms;
  bq_reg : bl_reg s' = bl_reg s;
  bq_mgr : bl_mgr s' = bl_mgr s;
}.

(** Such a step that only says what its devices may say. *)
Definition speaks (s s' : ble_t W M) : Prop :=
  exists ms, ble_quiet s s' ms /\
    Forall (fun m => exists d, d ∈ dr_devices (bl_reg s) /\ ble_reports d m) ms.

#[local] Instance speaks_preorder : PreOrder speaks.
Proof.
  split.
  - intros s. exists []. split; [split; [apply ble_frame_refl|done|done]|constructor].
  - intros s1 s2 s3 (ms & [F1 R1 M1] & H1) (ns & [F2 R2 M2] & H2). exists (ms ++ ns). split.
    + split; [by eapply ble_frame_trans|congruence|congruence].
    + apply Forall_app. split; [done|]. by rewrite R1 in H2.
Qed.

Lemma speaks_dev i w f s : speaks s (ble_with_dev i w f s).
Proof. exists []. split; [split; [apply ble_frame_dev|done|done]|constructor]. Qed.

Lemma speaks_send s i d obj v msg :
  dr_devices (bl_reg s) !! i = Some d ->
  obj ∈ hd_objects d -> (has_char "r" (do_access obj) = true \/ do_path obj = HES_LX_BTN_CV) ->
  ble_reading obj v -> msg_verb msg = HES_VERB_EVENT -> msg_device_index msg = hd_device_index d ->
  msg_path msg = hes_strlcpy HES_PATH_MAX (do_path obj) -> msg_payload msg = hes_strlcpy HES_PAYLOAD_MAX v ->
  speaks s (ble_with_bus (hes_bus_send (bl_bus s) msg) s).
Proof.
  intros Hd Ho Ha Hr Hv Hi Hp Hl. destruct (send_reading s d obj v msg Ho Ha Hr Hv Hi Hp Hl) as (ms & Hf & Hm).
  exists ms. split; [by split|]. eapply Forall_impl; [exact Hm|]. intros m Hrep. exists d.
  split; [by eapply list_elem_of_lookup_2|done].
Qed.

Lemma find_object d path obj :
  hes_dev_object_find d path = Some obj -> obj ∈ hd_objects d /\ do_path obj = path.
Proof.
  unfold hes_dev_object_find. intros [? H]%find_first_Some. apply String.eqb_eq in H. done.
Qed.

Lemma speaks_message s m s' : ble_message tag_addr s m = Some s' -> speaks s s'.
Proof.
  unfold ble_message. destruct (msg_verb m =? HES_VERB_GET); [|by intros [= <-]].
  unfold ble_get. destruct (ble_addressed s m) as [[[idx d] obj]|] eqn:Ea; [|by intros [= <-]].
  unfold ble_addressed in Ea. destruct (resolve_index _ _ _) as [k|]; [|done]. cbn in Ea.
  destruct (dr_devices (bl_reg s) !! k) as [d'|] eqn:Ed; [|done]. cbn in Ea.
  destruct (hes_dev_object_find d' _) as [o|] eqn:Eo; [|done]. cbn in Ea.
  destruct (has_char "r" _) eqn:Eacc; [|done]. simplify_eq. apply find_object in Eo as [Ho Hp].
  destruct (bl_devs s !! idx) as [dev|]; [|done]. cbn.
  destruct (read_sensor _ _ _ _ _ _) as [[w tag] val] eqn:Er. intros [= <-].
  destruct val as [v|]; [|apply speaks_dev]. apply read_sensor_spec in Er.
  etransitivity; [apply (speaks_dev idx w (bd_with_tag tag))|].
  apply (speaks_send (ble_with_dev idx w (bd_with_tag tag) s) idx d obj v); simpl; auto. by rewrite Hp.
Qed.

Lemma speaks_button i s s' : ble_button i s = Some s' -> speaks s s'.
Proof.
  unfold ble_button. destruct (dr_devices (bl_reg s) !! i) as [d|] eqn:Ed; [|done]. cbn.
  destruct (negb (hd_online d)); [by intros [= <-]|].
  destruct (hes_dev_object_find d HES_LX_BTN_CV) as [bo|] eqn:Eo; [|by intros [= <-]].
  apply find_object in Eo as [Ho Hp]. destruct (bl_devs s !! i) as [dev|]; [|done]. cbn.
  destruct (read_button_any _ _ _ _) as [[w tag] b]. destruct (_ || _)%bool; intros [= <-]; [|apply speaks_dev].
  etransitivity; [apply (speaks_dev i w (bd_with_tag tag))|].
  etransitivity; [apply (speaks_dev i w (bd_with_btn true b))|].
  apply (speaks_send (ble_with_dev i w (bd_with_btn true b) (ble_with_dev i w (bd_with_tag tag) s)) i d bo
           (fmt_d (if b =? 0 then 0 else 1))); simpl; auto.
  left. split; [done|]. destruct (b =? 0); [by left|by right].
Qed.

Lemma speaks_publish_object i d obj s s' :
  dr_devices (bl_reg s) !! i = Some d -> obj ∈ hd_objects d ->
  ble_publish_object tag_addr i d obj s = Some s' -> speaks s s'.
Proof.
  intros Hd Ho. unfold ble_publish_object. destruct (has_char "r" (do_access obj)) eqn:Ea; cbn [negb orb].
  2: by intros [= <-].
  destruct (do_path obj =?s HES_LX_BTN_CV); [by intros [= <-]|].
  destruct (bl_devs s !! i) as [dev|]; [|done]. cbn.
  destruct (read_sensor _ _ _ _ _ _) as [[w tag] val] eqn:Er. intros [= <-].
  destruct val as [v|]; [|apply speaks_dev]. apply read_sensor_spec in Er.
  etransitivity; [apply (speaks_dev i w (bd_with_tag tag))|].
  apply (speaks_send (ble_with_dev i w (bd_with_tag tag) s) i d obj v); simpl; auto.
Qed.

Lemma speaks_reg s s' : speaks s s' -> bl_reg s' = bl_reg s.
Proof. by intros (ms & [_ ? _] & _). Qed.

Lemma speaks_loop {A} (body : A -> ble_t W M -> option (ble_t W M)) xs s s' :
  (forall x t t', x ∈ xs -> bl_reg t = bl_reg s -> body x t = Some t' -> speaks t t') ->
  for_each body xs s = Some s' -> speaks s s'.
Proof.
  intros Hb H. apply (for_each_inv (fun t => speaks s t) body xs s s'); [|reflexivity|exact H].
  intros x t t' Hx Ht E. etransitivity; [exact Ht|]. apply (Hb x); [done|by apply speaks_reg|done].
Qed.

Lemma speaks_publish_device i s s' : ble_publish_device tag_addr i s = Some s' -> speaks s s'.
Proof.
  unfold ble_publish_device. destruct (dr_devices (bl_reg s) !! i) as [d|] eqn:Ed; [|done]. cbn.
  destruct (negb (hd_online d)); [by intros [= <-]|]. apply speaks_loop.
  intros obj u u' Ho Hu. by apply speaks_publish_object; [rewrite Hu|].
Qed.

Lemma speaks_publish s s' : ble_publish tag_addr s = Some s' -> speaks s s'.
Proof.
  unfold ble_publish. destruct (c_time (bl_world s)) as [w now]. cbn zeta.
  set (due := _ <=? _). clearbody due.
  assert (H0 : speaks s (mk_ble w (bl_mreg s) (bl_reg s) (bl_mgr s) (bl_devs s) (bl_bus s)
                 (if due then now else bl_last_publish s))).
  { exists []. split; [|constructor]. split; [|done|done]. split; try done. apply bus_extends_refl. }
  destruct due; [|by intros [= <-]]. intros H. etransitivity; [exact H0|].
  revert H. apply speaks_loop. intros i t t' _ _. apply speaks_publish_device.
Qed.

(** ** The link step *)

Section links.
Context {ok : BleBackendOk backend}.

(** The links are at least those the poll's bound allows for. *)
Definition links_ok (s : ble_t W M) : Prop :=
  ble_ok (bl_mgr s) /\ tracks s /\ NoDup (flags (bl_reg s)).*1 /\
  (length (flags (bl_reg s)) <= HES_DEVREG_MAX_DEVICES)%nat.

Lemma links_step_spec s s' :
  links_ok s -> ble_links_step service s = Some s' -> links_ok s' /\ ble_frame s s' [].
Proof.
  intros (Hok & Ht & Hn & Hl). unfold ble_links_step.
  destruct (hes_ble_mgr_poll _ _ _) as [[[w m] evs]|] eqn:E; [|done]. cbn. unfold tracks in Ht.
  destruct (links_poll _ _ _ _ _ _ Hok E ltac:(by rewrite <- Ht)) as (Hok' & Hidx & ->). intros H.
  destruct (link_events_flags _ _ [] _ _ H Hidx Ht Hn) as (H1 & H2 & H3).
  split.
  - cbn [bl_mgr] in H2. unfold links_ok, tracks. rewrite H1, H2. cbn [app].
    split; [done|]. split; [done|]. rewrite Hidx, <- Ht. split; [done|].
    rewrite <- (length_fmap fst), Hidx, <- Ht, length_fmap. done.
  - destruct H3 as [F1 F2 F3 F4]. by split.
Qed.

Lemma links_ok_speaks s s' : speaks s s' -> links_ok s -> links_ok s'.
Proof.
  intros (ms & [_ Hr Hm] & _). unfold links_ok, tracks. by rewrite Hr, Hm.
Qed.

(** No notification: the receive reports an error. *)
Definition undisturbed (e : ble_input) : Prop := exists rv, bi_notification e = inr rv /\ rv <> 0.

Lemma turn_links_ok s e s' :
  undisturbed e -> links_ok s -> ble_turn json_loads service tag_addr s e = Some s' ->
  links_ok s' /\ same_shape (bl_reg s') (bl_reg s).
Proof.
  intros (rv & Hrv & Hnz) Hok. unfold ble_turn.
  destruct (match bi_message e with Some m => ble_message tag_addr s m | None => Some s end) as [s1|] eqn:E1; [|done].
  assert (Hs1 : speaks s s1).
  { destruct (bi_message e); [by eapply speaks_message|by simplify_eq]. }
  cbn. unfold ble_notification. rewrite Hrv. cbn. rewrite (proj2 (Z.eqb_neq rv 0)) by done. cbn.
  pose proof (links_ok_speaks _ _ Hs1 Hok) as Hok1.
  destruct (ble_links_step service s1) as [s2|] eqn:E2; [|done]. cbn.
  destruct (links_step_spec _ _ Hok1 E2) as [Hok2 [_ Hsh _ _]].
  destruct (for_each ble_button _ s2) as [s3|] eqn:E3; [|done]. cbn. intros E4.
  assert (Hs3 : speaks s2 s3) by (revert E3; apply speaks_loop; intros i t t' _ _; apply speaks_button).
  assert (Hs4 : speaks s3 s') by by apply speaks_publish.
  pose proof (transitivity Hs3 Hs4) as Hs. split; [by eapply links_ok_speaks|].
  rewrite (speaks_reg _ _ Hs), <- (speaks_reg _ _ Hs1). done.
Qed.

Lemma run_links_ok s es s' :
  Forall undisturbed es -> links_ok s -> ble_run json_loads service tag_addr s es = Some s' ->
  links_ok s' /\ same_shape (bl_reg s') (bl_reg s).
Proof.
  intros He Hok H.
  apply (for_each_inv (fun t => links_ok t /\ same_shape (bl_reg t) (bl_reg s))
           (fun e s => ble_turn json_loads service tag_addr s e) es s s'); [|by split|exact H].
  intros e t t' Hin [Ht Hsh] E. rewrite Forall_forall in He.
  destruct (turn_links_ok t e t' (He e Hin) Ht E) as [H1 H2]. split; [done|]. by etransitivity.
Qed.

(** ** Start-up *)

Lemma add_devices_links ds w m :
  ble_ok m -> NoDup ((ble_links m).*1 ++ (hd_device_index <$> ds)) ->
  (length (ble_links m) + length ds <= HES_BLE_MAX_DEVS)%nat ->
  ble_ok (snd (add_devices ds w m)) /\
  ble_links (snd (add_devices ds w m)) = ble_links m ++ ((fun d => (hd_device_index d, false)) <$> ds).
Proof.
  revert w m. induction ds as [|d ds IH]; intros w m Hok Hn Hl; cbn [add_devices fmap list_fmap].
  { by rewrite app_nil_r. }
  cbn [length] in Hl. cbn [fmap list_fmap] in Hn.
  assert (Hd : hd_device_index d ∉ (ble_links m).*1).
  { apply NoDup_app in Hn as (_ & Hx & _). intros Hin. apply (Hx _ Hin). by left. }
  destruct (links_add w m (hd_device_index d) (hd_address d) Hok) as [Hok2 Hlinks].
  destruct (hes_ble_mgr_add w m _ _) as [[w1 m1] rv]. cbn [fst snd] in *.
  rewrite bool_decide_eq_false_2 in Hlinks by done.
  rewrite (proj2 (Nat.leb_gt _ _)) in Hlinks by lia.
  destruct (IH w1 m1 Hok2) as [H1 H2].
  - rewrite Hlinks, fmap_app. cbn. by rewrite <- app_assoc.
  - rewrite Hlinks, length_app. simpl. lia.
  - split; [done|]. by rewrite H2, Hlinks, <- app_assoc.
Qed.

(** What start-up leaves: the manager has every device of the slice, no link up. *)
Lemma ble_boot_spec sim (w : W) rep pub mr mac leaf bus (s : ble_t W M) :
  ble_boot json_loads service sim w rep pub mr mac leaf bus = Some (Some s) ->
  NoDup (hd_device_index <$> dr_devices (bl_reg s)) ->
  bl_bus s = bus /\ ble_ok (bl_mgr s) /\ (length (dr_devices (bl_reg s)) <= HES_DEVREG_MAX_DEVICES)%nat /\
  ble_links (bl_mgr s) = (fun d => (hd_device_index d, false)) <$> dr_devices (bl_reg s).
Proof.
  unfold ble_boot. destruct (hes_mreg_open _ _ _ _) as [m rv]. destruct (negb (rv =? 0)); [done|].
  destruct (hes_mreg_query _ _ _ _ _) as [[[w1 reg] rv1]|]; [|done]. cbn. destruct (negb (rv1 =? 0)); [done|].
  destruct (bool_decide _); [done|]. destruct (hes_mreg_report _ _ _ _) as [[w2 rv2]|]; [|done]. cbn.
  destruct (hes_mreg_query _ _ _ _ _) as [[[w3 reg2] rv3]|] eqn:Eq; [|done]. cbn.
  destruct (rv3 =? 0) eqn:E3; cbn [negb]; [|done]. apply Z.eqb_eq in E3.
  destruct (query_fits _ _ _ _ _ _ _ _ Eq E3) as [_ _ _ _ [Hlen _]].
  destruct (links_init w3) as [Hi0 Hl0]. destruct (hes_ble_mgr_init w3) as [w4 m0]. cbn [snd] in *.
  pose proof (add_devices_links (dr_devices reg2) w4 m0 Hi0) as Hadd.
  destruct (add_devices _ w4 m0) as [w5 m1]. destruct (init_tags _ _ _ _) as [w6 devs].
  destruct (negb _); [done|]. intros [= <-] Hn. cbn in *. rewrite Hl0 in Hadd.
  destruct Hadd as [H1 H2]; [done|exact Hlen|]. done.
Qed.

(** Presence follows the links. Whatever backend keeps the manager's contract, a
    module that starts with all its devices offline and receives no manifest notification
    has, after every turn of its main loop, exactly the connected devices marked online:
    the flags of the registry are the links of the manager, device by device. *)
Theorem presence_follows_links sim (w : W) rep pub mr mac leaf bus (s0 s : ble_t W M) es :
  ble_boot json_loads service sim w rep pub mr mac leaf bus = Some (Some s0) ->
  NoDup (hd_device_index <$> dr_devices (bl_reg s0)) ->
  Forall (fun d => hd_online d = false) (dr_devices (bl_reg s0)) ->
  Forall undisturbed es -> ble_run json_loads service tag_addr s0 es = Some s ->
  (fun d => (hd_device_index d, hd_online d)) <$> dr_devices (bl_reg s) = ble_links (bl_mgr s) /\
  same_shape (bl_reg s) (bl_reg s0).
Proof.
  intros Hb Hn Hoff He Hr. destruct (ble_boot_spec _ _ _ _ _ _ _ _ _ Hb Hn) as (_ & Hok & Hlen & Hl).
  assert (Hlinks : links_ok s0).
  { split; [done|]. split; [|split].
    - unfold tracks, flags. rewrite Hl. apply list_fmap_ext. intros i d Hd. unfold flag_of.
      rewrite Forall_forall in Hoff. rewrite (Hoff d); [done|]. by eapply list_elem_of_lookup_2.
    - unfold flags. by rewrite <- list_fmap_compose.
    - by rewrite flags_length. }
  by destruct (run_links_ok _ _ _ He Hlinks Hr) as ((_ & Ht & _) & Hsh).
Qed.
End links.

(** ** Runs *)

Lemma ble_reports_shape r r0 d m :
  same_shape r r0 -> d ∈ dr_devices r -> ble_reports d m ->
  exists d0, d0 ∈ dr_devices r0 /\ ble_reports d0 m.
Proof.
  intros Hs [i Hi]%list_elem_of_lookup (Hv & Hx & Ho).
  destruct (same_shape_lookup r r0 i d Hs Hi) as (d0 & Hd0 & Hidx & Hobj).
  exists d0. split; [by eapply list_elem_of_lookup_2|]. unfold ble_reports. by rewrite Hidx, Hobj.
Qed.

Definition spoken (s0 s : ble_t W M) : Prop :=
  exists ms, ble_frame s0 s ms /\ Forall (fun m => exists d, d ∈ dr_devices (bl_reg s0) /\ ble_reports d m) ms.

#[local] Instance spoken_preorder : PreOrder spoken.
Proof.
  split.
  - intros s. exists []. split; [apply ble_frame_refl|constructor].
  - intros s1 s2 s3 (ms & F1 & H1) (ns & F2 & H2). exists (ms ++ ns). split; [by eapply ble_frame_trans|].
    apply Forall_app. split; [done|]. eapply Forall_impl; [exact H2|]. intros m (d & Hd & Hm).
    eapply ble_reports_shape; [|exact Hd|exact Hm]. by destruct F1.
Qed.

Lemma spoken_speaks s s' : speaks s s' -> spoken s s'.
Proof. intros (ms & [Hf _ _] & Hm). by exists ms. Qed.

Lemma spoken_frame s s' : ble_frame s s' [] -> spoken s s'.
Proof. intros Hf. exists []. split; [done|constructor]. Qed.

Lemma link_event_frame e s s' : link_event service e s = Some s' -> ble_frame s s' [].
Proof.
  unfold link_event. destruct (index_by_di _ _) as [idx|]; [|intros [= <-]; apply ble_frame_refl].
  destruct (dr_devices (bl_reg s) !! idx) as [d|]; [|done]. cbn.
  destruct (Bool.eqb _ _); [intros [= <-]; apply ble_frame_refl|].
  set (s0 := if ev_is_online e then _ else s).
  assert (Hf0 : ble_frame s s0 []) by (subst s0; destruct (ev_is_online e); [apply ble_frame_dev|apply ble_frame_refl]).
  assert (Hr0 : bl_reg s0 = bl_reg s) by (subst s0; by destruct (ev_is_online e)). clearbody s0.
  destruct (hes_mreg_report _ _ _ _) as [[w rv]|]; [|done]. cbn. intros [= <-].
  eapply (ble_frame_trans s s0 _ [] []); [done|]. apply ble_frame_reg. rewrite Hr0. apply same_shape_set_online.
Qed.

Lemma turn_spoken s e s' : ble_turn json_loads service tag_addr s e = Some s' -> spoken s s'.
Proof.
  unfold ble_turn.
  destruct (match bi_message e with Some m => ble_message tag_addr s m | None => Some s end) as [s1|] eqn:E1; [|done].
  assert (Hs1 : spoken s s1).
  { destruct (bi_message e); [by eapply spoken_speaks, speaks_message|by simplify_eq]. }
  cbn. unfold ble_notification. destruct (hes_mreg_recv_update _ _ _ _) as [[upd rv]|]; [|done]. cbn.
  set (s2 := if rv =? 0 then _ else s1).
  assert (Hs2 : spoken s1 s2).
  { subst s2. destruct (rv =? 0); [|reflexivity]. apply spoken_frame, ble_frame_reg, same_shape_merge. }
  clearbody s2. destruct (ble_links_step service s2) as [s3|] eqn:E3; [|done]. cbn.
  assert (Hs3 : spoken s2 s3).
  { unfold ble_links_step in E3. destruct (hes_ble_mgr_poll _ _ _) as [[[w m] evs]|]; [|done]. cbn in E3.
    apply (for_each_inv (spoken s2) (link_event service) evs _ s3) in E3; [done| |].
    - intros x t t' _ Ht Hx. etransitivity; [exact Ht|]. by eapply spoken_frame, link_event_frame.
    - apply spoken_frame. split; try done. apply bus_extends_refl. }
  destruct (for_each ble_button _ s3) as [s4|] eqn:E4; [|done]. cbn. intros E5.
  assert (Hs4 : spoken s3 s4) by (apply spoken_speaks; revert E4; apply speaks_loop; intros i t t' _ _; apply speaks_button).
  assert (Hs5 : spoken s4 s') by by apply spoken_speaks, speaks_publish.
  etransitivity; [exact Hs1|]. etransitivity; [exact Hs2|]. etransitivity; [exact Hs3|]. by etransitivity.
Qed.

(** A BLE module only ever speaks for its own devices. Along any run, whatever
    messages, notifications and link events arrive, every message it puts on the bus is an
    event-report of one of its devices, for a button or for an object that allows reading;
    a button's payload is 0 or 1, a temperature's the value to two decimals. A PUT
    changes nothing at all. *)
Theorem ble_speaks_for_its_devices (s0 s : ble_t W M) es :
  ble_run json_loads service tag_addr s0 es = Some s ->
  (exists ms, bus_extends (bl_bus s0) (bl_bus s) ms /\
     Forall (fun m => exists d, d ∈ dr_devices (bl_reg s0) /\ ble_reports d m) ms) /\
  same_shape (bl_reg s) (bl_reg s0) /\
  (forall m, msg_verb m = HES_VERB_PUT -> ble_message tag_addr s m = Some s).
Proof.
  intros H. assert (Hs : spoken s0 s).
  { apply (for_each_inv (spoken s0) (fun e s => ble_turn json_loads service tag_addr s e) es s0 s); [|reflexivity|exact H].
    intros e t t' _ Ht E. etransitivity; [exact Ht|]. by eapply turn_spoken. }
  destruct Hs as (ms & [_ Hsh _ Hb] & Hm). split; [by exists ms|]. split; [done|].
  intros m Hv. unfold ble_message. by rewrite Hv.
Qed.

(** ** The button *)

(** A device's button is published exactly when it was never published on this link or its
    value differs from the last one published, and that value is remembered. *)
Lemma button_on_change i s s' d bo dev w tag pressed :
  dr_devices (bl_reg s) !! i = Some d -> hd_online d = true ->
  hes_dev_object_find d HES_LX_BTN_CV = Some bo -> bl_devs s !! i = Some dev ->
  read_button_any (bl_world s) (bl_mgr s) (bd_tag dev) (hd_device_index d) = (w, tag, pressed) ->
  ble_button i s = Some s' ->
  bl_devs s' !! i = Some (mk_ble_dev tag true pressed) /\
  (if bd_btn_set dev && (pressed =? bd_last_btn dev) then bl_bus s' = bl_bus s
   else exists m, bus_extends (bl_bus s) (bl_bus s') [m] /\ msg_device_index m = hd_device_index d /\
     msg_payload m = (if pressed =? 0 then "0" else "1"))%bool.
Proof.
  intros Hd Hon Hbo Hdev Hr. unfold ble_button. rewrite Hd. cbn. rewrite Hon. cbn. rewrite Hbo, Hdev. cbn.
  rewrite Hr. destruct (bd_btn_set dev) eqn:Eset; cbn [negb orb andb].
  - destruct (pressed =? bd_last_btn dev) eqn:Eb; cbn [negb]; intros [= <-].
    + apply Z.eqb_eq in Eb. split; [|done]. simpl. rewrite list_lookup_alter_eq, Hdev. cbn.
      unfold bd_with_tag. by rewrite Eset, <- Eb.
    + split; [simpl; by rewrite !list_lookup_alter_eq, Hdev|].
      eexists. split; [split; reflexivity|]. split; [done|]. by destruct (pressed =? 0).
  - intros [= <-]. split; [simpl; by rewrite !list_lookup_alter_eq, Hdev|].
    eexists. split; [split; reflexivity|]. split; [done|]. by destruct (pressed =? 0).
Qed.
End facts.

(** ** A simulated tag

    The world is the clock, a second per reading; the manifest service answers with one
    offline device that has a button and a thermometer. *)
Definition tick_libc : Libc Z := {| c_time w := (w + 1, w + 1); c_rand w := (w, 7); c_srand w _ := w |}.

Definition tag_slice : json :=
  JObject [("devices", JArray [JObject
    [("deviceIndex", JInteger 7); ("netRefIndex", JInteger 1); ("status", JString "offline");
     ("address", JString "24:71:89:BC:32:01");
     ("objects", JArray [JObject [("lexiconPath", JString HES_LX_BTN_CV); ("access", JString "r")];
                         JObject [("lexiconPath", JString HES_LX_TEMP_CV); ("access", JString "r")]])]])].

Definition tag_json (text : string) : option json := if text =?s "slice" then Some tag_slice else None.

Definition tag_service (w : Z) (req : string) : Z * option string := (w, Some "slice").

Definition tag_nng : Nng := {| nng_req0_open := 0; nng_sub0_open := 0; nng_dial _ _ := 0 |}.

Definition tag_boot : option (option (ble_t Z hes_ble_mgr_t)) :=
  @ble_boot indefinite_target tag_nng _ _ tick_libc (@sim_backend _ tick_libc) tag_json tag_service true 0 "r" "p" 3 None
    (fun _ => 0) (mk_bus [] (fun _ => mk_reading None 0)).

Definition tag_turns (n : nat) (s : ble_t Z hes_ble_mgr_t) : option (ble_t Z hes_ble_mgr_t) :=
  @ble_run indefinite_target _ _ tick_libc (@sim_backend _ tick_libc) tag_json tag_service (fun _ => 0) s
    (repeat (mk_ble_input None (inr 5)) n).

Lemma presence_follows_links_witness :
  exists s0 s, tag_boot = Some (Some s0) /\ tag_turns 1 s0 = Some s /\
    flags (bl_reg s) = [(7, true)] /\
    (fun d => (hd_device_index d, hd_online d)) <$> dr_devices (bl_reg s) = link_of <$> bm_dev (bl_mgr s).
Proof.
  do 2 eexists. match goal with |- ?P /\ _ => assert (H0 : P) by (vm_compute; reflexivity) end.
  split; [exact H0|]. match goal with |- ?P /\ _ => assert (H1 : P) by (vm_compute; reflexivity) end.
  split; [exact H1|]. split; [reflexivity|]. unfold tag_boot in H0. unfold tag_turns in H1.
  eapply (@presence_follows_links indefinite_target tag_nng _ _ tick_libc _ tag_json tag_service (fun _ => 0)
           (@sim_backend_ok _ tick_libc)); [exact H0|apply NoDup_singleton|by repeat constructor| |exact H1].
  repeat constructor; exists 5; split; (reflexivity || discriminate).
Defined.

Lemma ble_speaks_for_its_devices_witness :
  exists s0 s, tag_boot = Some (Some s0) /\ tag_turns 1 s0 = Some s /\
    msg_payload <$> bus_sent (bl_bus s) = ["0"; "21.85"] /\ same_shape (bl_reg s) (bl_reg s0).
Proof.
  do 2 eexists. match goal with |- ?P /\ _ => assert (H0 : P) by (vm_compute; reflexivity) end.
  split; [exact H0|]. clear H0.
  match goal with |- ?P /\ _ => assert (H1 : P) by (vm_compute; reflexivity) end.
  split; [exact H1|]. split; [reflexivity|]. unfold tag_turns in H1.
  exact (proj1 (proj2 (@ble_speaks_for_its_devices indefinite_target _ _ tick_libc _ tag_json tag_service
    (fun _ => 0) _ _ _ H1))).
Defined.
