(* ===== verification/BleLive.v ===== *)
(** * The BLE module stays live

    Every turn of han/ble/ble.c's loop ends within its buffers, whatever messages,
    notifications and link events come, as long as the manifest service sends what the
    buffers hold and the backend's polls are defined: always for the simulated one, within a
    session of RECONNECT_SPAN seconds for BlueZ. *)

From S2P Require Import Prelude CLib HesCommon Bus Json Devreg Slice Mreg ManifestFacts ModuleLive HesBle BleSim Bluez BluezFacts BluezLive Sensortag Wifi Ble BleFacts.

Section live.
Context {target : Target} {nng : Nng} {W M : Type} {libc : Libc W} {backend : BleBackend W M}.
Context {ok : BleBackendOk backend} {total : BleBackendTotal backend}.
Variable json_loads : string -> option json.
Variable service : W -> string -> W * option string.
Variable tag_addr : nat -> Z.
Hypothesis Hservice : service_fits service.

(** The handle, the registry and the manager are sound, and every device has its tag. *)
Record ble_bounded (s : ble_t W M) : Prop := {
  bb_mreg : handle_fits (bl_mreg s);
  bb_reg : devreg_fits (bl_reg s);
  bb_devs : length (bl_devs s) = length (dr_devices (bl_reg s));
  bb_mgr : ble_sound (bl_mgr s);
}.

Lemma bounded_speaks s s' : speaks s s' -> ble_bounded s -> ble_bounded s'.
Proof.
  intros (ms & [[Hm _ Hl _] Hr Hg] & _) [H1 H2 H3 H4]. split; [by rewrite Hm|by rewrite Hr|by rewrite Hl, Hr|by rewrite Hg].
Qed.

Lemma bounded_reg w r s : devreg_fits r -> length (dr_devices r) = length (dr_devices (bl_reg s)) ->
  ble_bounded s -> ble_bounded (ble_with_reg w r s).
Proof. intros Hr Hl [H1 H2 H3 H4]. split; try done. cbn. congruence. Qed.

Lemma tag_of s i : ble_bounded s -> (i < length (dr_devices (bl_reg s)))%nat ->
  exists d v, dr_devices (bl_reg s) !! i = Some d /\ bl_devs s !! i = Some v.
Proof.
  intros H Hi. destruct (lookup_lt_is_Some_2 _ _ Hi) as [d Hd]. rewrite <- (bb_devs _ H) in Hi.
  destruct (lookup_lt_is_Some_2 _ _ Hi) as [v Hv]. by exists d, v.
Qed.

Lemma ble_message_total s m : ble_bounded s -> exists s', ble_message tag_addr s m = Some s' /\ ble_bounded s'.
Proof.
  intros H. enough (exists s', ble_message tag_addr s m = Some s') as [s' E].
  { exists s'. split; [done|]. eapply bounded_speaks; [by eapply speaks_message|done]. }
  unfold ble_message. destruct (_ =? _); [|by eexists]. unfold ble_get.
  destruct (ble_addressed s m) as [[[i d] obj]|] eqn:E; [|by eexists]. unfold ble_addressed in E.
  destruct (resolve_index _ _ _) as [k|]; [|done]. cbn in E.
  destruct (dr_devices (bl_reg s) !! k) as [d1|] eqn:Ed; [|done]. cbn in E.
  destruct (hes_dev_object_find _ _) as [o|]; [|done]. cbn in E. destruct (has_char _ _); [|done]. injection E as -> -> ->.
  destruct (tag_of s i H (lookup_lt_Some _ _ _ Ed)) as (? & v & _ & ->). cbn.
  destruct (read_sensor _ _ _ _ _ _) as [[w tag] val]. by eexists.
Qed.

Lemma ble_notification_total s incoming : notification_fits incoming -> ble_bounded s ->
  exists s', ble_notification json_loads s incoming = Some s' /\ ble_bounded s'.
Proof.
  unfold ble_notification. intros Hi H.
  destruct (recv_update_total json_loads (bl_mreg s) hes_devreg_init _ Hi) as (upd & rv & ->). cbn.
  eexists. split; [done|]. destruct (rv =? 0); [|done].
  apply bounded_reg; [by apply merge_slice_fits, H| |done]. cbn. by rewrite length_fmap.
Qed.

Lemma link_event_total e s : ble_bounded s -> exists s', link_event service e s = Some s' /\ ble_bounded s'.
Proof.
  intros H. unfold link_event. destruct (index_by_di _ _) as [i|] eqn:Ei; [|by eexists].
  apply index_by_di_Some in Ei as (d & Hd & _). rewrite Hd. cbn. destruct (Bool.eqb _ _); [by eexists|].
  set (s1 := if ev_is_online e then _ else s).
  assert (Hs1 : ble_bounded s1 /\ bl_reg s1 = bl_reg s)
    by (subst s1; destruct (ev_is_online e); split; try done; eapply bounded_speaks; [apply speaks_dev|done]).
  clearbody s1. destruct Hs1 as [H1 Hr1]. pose proof (set_online_fits i (ev_is_online e) _ (bb_reg _ H)) as Hf.
  destruct (report_total service Hservice (bl_world s1) (bl_mreg s1) _ (bb_mreg _ H1) Hf) as (w & rv & ->). cbn.
  eexists. split; [done|]. apply bounded_reg; [done| |done]. cbn. by rewrite length_alter, Hr1.
Qed.

Lemma links_step_total s : ble_bounded s -> exists s', ble_links_step service s = Some s' /\ ble_bounded s'.
Proof.
  intros H. unfold ble_links_step.
  destruct (sound_poll (bl_world s) _ HES_DEVREG_MAX_DEVICES (bb_mgr _ H)) as (w & m & evs & -> & Hm). cbn.
  apply for_each_total; [intros e t _; apply link_event_total|]. by destruct H.
Qed.

(** The loops over the devices: the index stays within the registry. *)
Lemma devices_total (body : nat -> ble_t W M -> option (ble_t W M)) s :
  (forall i t t', body i t = Some t' -> speaks t t') ->
  (forall i t, ble_bounded t -> (i < length (dr_devices (bl_reg t)))%nat -> exists t', body i t = Some t') ->
  ble_bounded s -> exists s', for_each body (seq 0 (length (dr_devices (bl_reg s)))) s = Some s' /\ ble_bounded s'.
Proof.
  intros Hsp Hb H.
  destruct (for_each_total (fun t => ble_bounded t /\ bl_reg t = bl_reg s) body (seq 0 (length (dr_devices (bl_reg s)))) s)
    as (s' & E & [H' _]); [|by split|by exists s'].
  intros i t Hi%elem_of_seq [Ht Hr]. destruct (Hb i t Ht) as [t' E]; [rewrite Hr; lia|].
  pose proof (Hsp i t t' E) as Ht'. exists t'. split; [done|]. split; [by eapply bounded_speaks|].
  by rewrite (speaks_reg _ _ Ht').
Qed.

Lemma button_total i s : ble_bounded s -> (i < length (dr_devices (bl_reg s)))%nat -> exists s', ble_button i s = Some s'.
Proof.
  intros H Hi. destruct (tag_of s i H Hi) as (d & v & Hd & Hv). unfold ble_button. rewrite Hd. cbn.
  destruct (negb _); [by eexists|]. destruct (hes_dev_object_find _ _); [|by eexists]. rewrite Hv. cbn.
  destruct (read_button_any _ _ _ _) as [[w tag] p]. destruct (_ || _)%bool; by eexists.
Qed.

Lemma publish_device_total i s : ble_bounded s -> (i < length (dr_devices (bl_reg s)))%nat ->
  exists s', ble_publish_device tag_addr i s = Some s'.
Proof.
  intros H Hi. destruct (tag_of s i H Hi) as (d & _ & Hd & _). unfold ble_publish_device. rewrite Hd. cbn.
  destruct (negb _); [by eexists|].
  destruct (for_each_total (fun t => ble_bounded t /\ bl_reg t = bl_reg s) (ble_publish_object tag_addr i d) (hd_objects d) s)
    as (s' & E & _); [|by split|by exists s'].
  intros obj t Ho [Ht Hr]. enough (exists t', ble_publish_object tag_addr i d obj t = Some t') as [t' E].
  { assert (Hs : speaks t t') by (eapply speaks_publish_object; [by rewrite Hr|done|exact E]).
    exists t'. split; [done|]. split; [by eapply bounded_speaks|]. by rewrite (speaks_reg _ _ Hs). }
  unfold ble_publish_object. destruct (_ || _)%bool; [by eexists|].
  destruct (tag_of t i Ht) as (? & v & _ & ->); [by rewrite Hr|]. cbn.
  destruct (read_sensor _ _ _ _ _ _) as [[w tag] val]. by eexists.
Qed.

Lemma publish_total s : ble_bounded s -> exists s', ble_publish tag_addr s = Some s' /\ ble_bounded s'.
Proof.
  intros H. unfold ble_publish. destruct (c_time (bl_world s)) as [w now]. destruct (_ <=? _).
  2: { eexists. split; [done|]. by destruct H. }
  apply (devices_total _ (mk_ble w _ _ _ _ _ _)); [intros i t t'; apply speaks_publish_device|
    intros i t; apply publish_device_total|by destruct H].
Qed.

Definition ble_input_fits (e : ble_input) : Prop := notification_fits (bi_notification e).

Lemma ble_turn_total s e : ble_input_fits e -> ble_bounded s ->
  exists s', ble_turn json_loads service tag_addr s e = Some s' /\ ble_bounded s'.
Proof.
  intros He H. unfold ble_turn.
  assert (H1 : exists s1, (match bi_message e with Some m => ble_message tag_addr s m | None => Some s end) = Some s1 /\ ble_bounded s1)
    by (destruct (bi_message e) as [m|]; [by apply ble_message_total|by exists s]).
  destruct H1 as (s1 & -> & H1). cbn. destruct (ble_notification_total s1 _ He H1) as (s2 & -> & H2). cbn.
  destruct (links_step_total s2 H2) as (s3 & -> & H3). cbn.
  destruct (devices_total ble_button s3) as (s4 & -> & H4); [intros i t t'; apply speaks_button|intros i t; apply button_total|exact H3|].
  cbn. by apply publish_total.
Qed.
(** ** Start-up *)

Lemma ble_boot_device_fits mac d : device_fits d -> device_fits (ble_boot_device mac d).
Proof.
  intros (? & ? & ? & ? & ? & ? & ? & ?). unfold ble_boot_device.
  destruct (_ =?s _), mac; unfold device_fits; cbn -[hes_strlcpy]; do 6 (split; [done|]);
    (split; [first [done|apply hes_strlcpy_fits; lia]|done]).
Qed.

Lemma add_devices_sound ds w m : ble_sound m -> ble_sound (snd (add_devices ds w m)).
Proof.
  revert w m. induction ds as [|d ds IH]; intros w m H; cbn [add_devices]; [done|].
  pose proof (sound_add w m (hd_device_index d) (hd_address d) H) as Hs.
  destruct (hes_ble_mgr_add _ _ _ _) as [[w1 m1] rv]. by apply IH.
Qed.

Lemma init_tags_length sim ds w devs : length (snd (init_tags sim ds w devs)) = (length devs + length ds)%nat.
Proof.
  revert w devs. induction ds as [|d ds IH]; intros w devs; cbn [init_tags]; [simpl; lia|].
  destruct (if (_ && _)%bool then _ else _) as [w1 tag]. rewrite IH, length_app. simpl. lia.
Qed.

(** Start-up ends, and leaves the module within its bounds when it succeeds. *)
Lemma ble_boot_total sim w rep pub mr mac leaf bus : 0 <= mr < 2 ^ 32 ->
  exists o, ble_boot json_loads service sim w rep pub mr mac leaf bus = Some o /\
    forall s, o = Some s -> ble_bounded s /\ bl_bus s = bus.
Proof.
  intros Hmr. pose proof (mreg_open_connects rep pub (Some HES_MT_INTERFACE) mr Hmr) as Ho. unfold ble_boot.
  destruct (hes_mreg_open _ _ _ _) as [m rv]. destruct Ho as (_ & _ & _ & _ & Hm).
  destruct (rv =? 0); cbn [negb]; [|by exists None].
  destruct (query_total json_loads service Hservice w m hes_devreg_init) as (w1 & reg & rv1 & E1). rewrite E1. cbn.
  destruct (rv1 =? 0) eqn:Hz1; cbn [negb]; [|by exists None]. case_bool_decide; [by exists None|].
  pose proof (query_fits _ _ _ _ _ _ _ _ E1 ltac:(by apply Z.eqb_eq)) as Hr1.
  destruct (first_report_total service Hservice (ble_boot_device mac) w1 m reg (ble_boot_device_fits mac) Hm Hr1)
    as (w2 & rv2 & ->).
  cbn. destruct (query_total json_loads service Hservice w2 m hes_devreg_init) as (w3 & reg2 & rv3 & E3). rewrite E3. cbn.
  destruct (rv3 =? 0) eqn:Hz3; cbn [negb]; [|by exists None].
  pose proof (query_fits _ _ _ _ _ _ _ _ E3 ltac:(by apply Z.eqb_eq)) as Hr2.
  pose proof (sound_init w3) as Hs. destruct (hes_ble_mgr_init w3) as [w4 mg].
  pose proof (add_devices_sound (dr_devices reg2) w4 mg Hs) as Ha. destruct (add_devices _ w4 mg) as [w5 mg1].
  pose proof (init_tags_length sim (dr_devices reg2) w5 []) as Ht. destruct (init_tags _ _ _ _) as [w6 devs].
  destruct (negb _); [by exists None|]. eexists. split; [done|]. by intros s [= <-].
Qed.

(** A BLE module comes up, stays up, speaks for its own devices only, and knows which of
    them are there. Whatever the bus, the manifest service's notifications and the radio
    bring, as long as the service's replies and notifications fit the client's buffers and
    the backend's polls are defined, start-up ends, and after a start-up that succeeded every
    turn of the main loop ends. Every message the module puts on the bus is an event-report of
    one of its devices; a device is marked online exactly while its link is up, when all start
    offline and the manifest sends no notification. *)
Theorem ble_stays_live sim w rep pub mr mac leaf bus es :
  0 <= mr < 2 ^ 32 -> Forall ble_input_fits es ->
  exists o, ble_boot json_loads service sim w rep pub mr mac leaf bus = Some o /\
  forall s0, o = Some s0 -> exists s, ble_run json_loads service tag_addr s0 es = Some s /\
    (exists ms, bus_extends bus (bl_bus s) ms /\
       Forall (fun m => exists d, d ∈ dr_devices (bl_reg s0) /\ ble_reports d m) ms) /\
    same_shape (bl_reg s) (bl_reg s0) /\
    (NoDup (hd_device_index <$> dr_devices (bl_reg s0)) ->
     Forall (fun d => hd_online d = false) (dr_devices (bl_reg s0)) -> Forall undisturbed es ->
     flags (bl_reg s) = ble_links (bl_mgr s)).
Proof.
  intros Hmr Hes. destruct (ble_boot_total sim w rep pub mr mac leaf bus Hmr) as (o & Ho & Hb). exists o.
  split; [done|]. intros s0 ->. destruct (Hb s0 eq_refl) as [H0 <-].
  destruct (for_each_total ble_bounded (fun e s => ble_turn json_loads service tag_addr s e) es s0) as (s & Hr & _);
    [|done|]. { intros e s He. apply ble_turn_total. by rewrite Forall_forall in Hes; apply Hes. }
  exists s. split; [exact Hr|]. destruct (ble_speaks_for_its_devices _ _ _ _ _ _ Hr) as (Hms & Hsh & _).
  split; [done|]. split; [done|]. intros Hn Hoff Hu.
  by destruct (presence_follows_links json_loads service tag_addr _ _ _ _ _ _ _ _ _ _ _ Ho Hn Hoff Hu Hr).
Qed.
End live.

(** The module over BlueZ, in a session shorter than [RECONNECT_SPAN]. *)
Corollary bluez_module_stays_live {target : Target} {nng : Nng} {W : Type} {libc : Libc W} {bluez : Bluez W}
  json_loads service tag_addr t0 T w rep pub mr mac leaf bus es :
  clock_within libc t0 T -> T < t0 + RECONNECT_SPAN -> service_fits service ->
  0 <= mr < 2 ^ 32 -> Forall ble_input_fits es ->
  exists o, ble_boot (backend := bluez_backend) json_loads service false w rep pub mr mac leaf bus = Some o /\
  forall s0, o = Some s0 -> is_Some (ble_run json_loads service tag_addr s0 es).
Proof.
  intros Hc Ht Hs Hmr Hes.
  destruct (ble_stays_live (backend := bluez_backend) (total := bluez_backend_total t0 T Ht Hc) json_loads service tag_addr Hs false w rep pub mr mac leaf bus es Hmr Hes) as (o & Ho & H).
  exists o. split; [exact Ho|]. intros s0 E. destruct (H s0 E) as (s & Hr & _). by exists s.
Qed.

(** ** The simulated tag of BleFacts *)

Lemma ble_stays_live_witness :
  exists s0 s, tag_boot = Some (Some s0) /\ tag_turns 1 s0 = Some s /\
    msg_payload <$> bus_sent (bl_bus s) = ["0"; "21.85"] /\
    flags (bl_reg s) = [(7, true)] /\ flags (bl_reg s) = link_of <$> bm_dev (bl_mgr s).
Proof.
  do 2 eexists. match goal with |- ?P /\ _ => assert (H0 : P) by (vm_compute; reflexivity) end.
  split; [exact H0|]. match goal with |- ?P /\ _ => assert (H1 : P) by (vm_compute; reflexivity) end.
  split; [exact H1|]. split; [reflexivity|]. split; [reflexivity|]. unfold tag_boot in H0. unfold tag_turns in H1.
  assert (Hs : service_fits tag_service)
    by (split; intros w m; [intros ans [= <-]|intros reg req ans _ [= <-]]; apply Nat.ltb_lt; by vm_compute).
  destruct (@ble_stays_live indefinite_target tag_nng _ _ tick_libc _
    (@sim_backend_ok _ tick_libc) (@sim_backend_total _ tick_libc) tag_json tag_service
    (fun _ => 0) Hs true 0 "r" "p" 3 None (fun _ => 0) (mk_bus [] (fun _ => mk_reading None 0))
    (repeat (mk_ble_input None (inr 5)) 1)) as (o & Ho & H); [lia|by repeat constructor|].
  rewrite H0 in Ho. injection Ho as <-. destruct (H _ eq_refl) as (s & Hr & _ & _ & Hf).
  rewrite H1 in Hr. injection Hr as <-. apply Hf; [apply NoDup_singleton|by repeat constructor|].
  repeat constructor. exists 5. split; [reflexivity|discriminate].
Defined.
