(* ===== verification/BleMain.v ===== *)
(** * The BLE module's process

    Models han_ble_main of src/src/han/ble/ble.c from its first call to its exit code: the
    manifest handle, the connection manager and the bus leaf as they are opened, the loop until
    the signal, and the way out. Start-up is that of Ble.v with what it acquires. *)

From S2P Require Import Prelude CLib HesCommon Bus Json Devreg Slice Mreg ManifestFacts ModuleLive HesBle BleSim Bluez BluezFacts BluezLive Sensortag Wifi Ble BleFacts BleLive.

(** What is open: the manifest handle, the manager once it is initialised, and the calls on
    the leaf. *)
Record ble_res (M : Type) := mk_ble_res {
  br_mreg : hes_mreg_t;
  br_mgr : option M;
  br_leaf : history;
}.
Arguments mk_ble_res {M}.
Arguments br_mreg {M}.
Arguments br_mgr {M}.
Arguments br_leaf {M}.

Section main.
Context {target : Target} {nng : Nng} {nngb : NngBus} {W M : Type} {libc : Libc W} {backend : BleBackend W M}.
Variable json_loads : string -> option json.
Variable service : W -> string -> W * option string.
Variable tag_addr : nat -> Z.

Definition ble_shutdown (s : ble_t W M) (h : history) : option (ble_res M) :=
  let* (_, m) := hes_ble_mgr_close (bl_world s) (bl_mgr s) in
  Some (mk_ble_res (hes_mreg_close (bl_mreg s)) (Some m) (hes_bus_close h)).

(** The exit code, what is still open, and the state at the end of a loop that was entered.
    [bus] is the leaf once it is open; [es] the turns until the signal. *)
Definition han_ble_main (sim_build : bool) (w : W) (svc_rep svc_pub : string) (module_ref : Z)
  (hub_pub_url hub_sub_url : string) (mac_override : option string) (bus : hes_bus_t) (h : history) (es : list ble_input)
  : option (Z * ble_res M * option (ble_t W M)) :=
  let '(mreg, rv) := hes_mreg_open svc_rep svc_pub (Some HES_MT_INTERFACE) module_ref in
  if negb (rv =? 0) then Some (1, mk_ble_res mreg None h, None)
  else
    let* (w, reg, rv) := hes_mreg_query json_loads service w mreg hes_devreg_init in
    if negb (rv =? 0) then Some (1, mk_ble_res mreg None h, None)
    else if bool_decide (dr_devices reg = []) then Some (1, mk_ble_res mreg None h, None)
    else
      let reg := reg_with_devices (ble_boot_device mac_override <$> dr_devices reg) reg in
      let* (w, _) := hes_mreg_report service w mreg reg in
      let* (w, reg, rv) := hes_mreg_query json_loads service w mreg hes_devreg_init in
      if negb (rv =? 0) then Some (1, mk_ble_res mreg None h, None)
      else
        let '(w, m) := hes_ble_mgr_init w in
        let '(w, m) := add_devices (dr_devices reg) w m in
        let '(w, devs) := init_tags sim_build (dr_devices reg) w [] in
        let '(h, rv) := hes_bus_leaf_open hub_pub_url hub_sub_url (hes_devreg_collect_topics reg HES_BUS_MAX_TOPICS) h in
        if negb (rv =? 0) then Some (1, mk_ble_res mreg (Some m) h, None)
        else
          let* s := ble_run json_loads service tag_addr (mk_ble w mreg reg m devs bus 0) es in
          let* res := ble_shutdown s h in
          Some (0, res, Some s).

#[local] Arguments hes_bus_leaf_open : simpl never.
#[local] Arguments hes_bus_close : simpl never.

(** What main does after a start-up that failed, and after one that succeeded. *)
Lemma ble_main_boot sim w rep pub mr hp hs mac bus h es :
  let leaf topics := hes_bus_leaf_open hp hs topics h in
  let main := han_ble_main sim w rep pub mr hp hs mac bus h es in
  match ble_boot json_loads service sim w rep pub mr mac (fun topics => snd (leaf topics)) bus with
  | None => main = None
  | Some None => exists res, main = Some (1, res, None) /\
      (br_leaf res = h \/ exists topics rv, leaf topics = (br_leaf res, rv) /\ rv <> 0)
  | Some (Some s0) => exists h', main = (let* s := ble_run json_loads service tag_addr s0 es in
        let* res := ble_shutdown s h' in Some (0, res, Some s))
  end.
Proof.
  cbv zeta. unfold ble_boot, han_ble_main. generalize (hes_bus_leaf_open hp hs). intros leaf.
  destruct (hes_mreg_open _ _ _ _) as [m rv].
  assert (Hfail : forall mg, exists res : ble_res M, Some (1, mk_ble_res m mg h, @None (ble_t W M)) = Some (1, res, None) /\
    (br_leaf res = h \/ exists topics rv, leaf topics h = (br_leaf res, rv) /\ rv <> 0))
    by (intros mg; eexists; split; [reflexivity|by left]).
  destruct (negb (rv =? 0)); [apply Hfail|].
  destruct (hes_mreg_query _ _ _ _ _) as [[[w1 reg] rv1]|]; [|cbn; reflexivity]. cbn. destruct (negb (rv1 =? 0)); [apply Hfail|].
  case_bool_decide; [apply Hfail|]. destruct (hes_mreg_report _ _ _ _) as [[w2 rv2]|]; [|cbn; reflexivity]. cbn.
  destruct (hes_mreg_query _ _ _ _ _) as [[[w3 reg2] rv3]|]; [|cbn; reflexivity]. cbn. destruct (negb (rv3 =? 0)); [apply Hfail|].
  destruct (hes_ble_mgr_init w3) as [w4 mg]. destruct (add_devices _ w4 mg) as [w5 mg1].
  destruct (init_tags _ _ _ _) as [w6 devs]. destruct (leaf _ h) as [h' rvl] eqn:El. cbn [snd].
  destruct (rvl =? 0) eqn:Ez; cbn [negb]; [by exists h'|].
  eexists. split; [reflexivity|]. right. eexists _, rvl. split; [exact El|]. by apply Z.eqb_neq.
Qed.

Context {ok : BleBackendOk backend} {total : BleBackendTotal backend}.
Hypothesis Hservice : service_fits service.

(** C24: the BLE module's process. Whatever the bus, the manifest service's notifications and the
    radio bring, as long as the service's replies and notifications fit the client's buffers
    and the backend's polls are defined, han_ble_main comes to its exit. It exits with 1 when
    start-up failed, having entered no loop, and with 0 after a loop whose every turn ended;
    then the manifest handle and both sockets of the leaf are closed and the manager has given
    back what it held, and a failed start-up leaves no socket of the leaf either. In between,
    every message it put on the bus is an event-report of one of its devices; a device is
    marked online exactly while its link is up, when all start offline and the manifest sends
    no notification. *)
Theorem ble_process sim w rep pub mr hp hs mac bus h es :
  0 <= mr < 2 ^ 32 -> Forall ble_input_fits es -> closed h ->
  exists rv res o, han_ble_main sim w rep pub mr hp hs mac bus h es = Some (rv, res, o) /\ closed (br_leaf res) /\
  let boot := ble_boot json_loads service sim w rep pub mr mac (fun topics => snd (hes_bus_leaf_open hp hs topics h)) bus in
  match o with
  | None => rv = 1 /\ boot = Some None
  | Some s => rv = 0 /\ mr_req (br_mreg res) = false /\ mr_sub (br_mreg res) = false /\
      (exists m, br_mgr res = Some m /\ ble_released m) /\
      exists s0, boot = Some (Some s0) /\ ble_run json_loads service tag_addr s0 es = Some s /\
        (exists ms, bus_extends bus (bl_bus s) ms /\
           Forall (fun m => exists d, d ∈ dr_devices (bl_reg s0) /\ ble_reports d m) ms) /\
        same_shape (bl_reg s) (bl_reg s0) /\
        (NoDup (hd_device_index <$> dr_devices (bl_reg s0)) ->
         Forall (fun d => hd_online d = false) (dr_devices (bl_reg s0)) -> Forall undisturbed es ->
         flags (bl_reg s) = ble_links (bl_mgr s))
  end.
Proof.
  intros Hmr Hes Hc. pose proof (ble_main_boot sim w rep pub mr hp hs mac bus h es) as Hm. cbv beta zeta in Hm |- *.
  destruct (ble_stays_live json_loads service tag_addr Hservice sim w rep pub mr mac
    (fun topics => snd (hes_bus_leaf_open hp hs topics h)) bus es Hmr Hes) as (o & Ho & H).
  rewrite Ho in Hm |- *. destruct o as [s0|].
  - destruct Hm as (h' & ->). destruct (H s0 eq_refl) as (s & Hr & Hx). rewrite Hr. cbn. unfold ble_shutdown.
    destruct (close_releases (bl_world s) (bl_mgr s)) as (w' & m' & -> & Hrel). cbn.
    eexists 0, _, (Some s). split; [done|]. split; [apply close_closed|].
    split; [done|]. split; [done|]. split; [done|]. split; [by exists m'|by exists s0].
  - destruct Hm as (res & -> & Hh). eexists 1, res, None. split; [done|]. split; [|done].
    destruct Hh as [->|(topics & rv & Hl & Hz)]; [done|]. destruct (leaf_open_sockets _ _ _ _ _ _ Hc Hl) as [_ Hs].
    by rewrite (proj2 (Z.eqb_neq _ _) Hz) in Hs.
Qed.
End main.

(** The process over BlueZ, in a session shorter than [RECONNECT_SPAN]. *)
Corollary bluez_process {target : Target} {nng : Nng} {nngb : NngBus} {W : Type} {libc : Libc W} {bluez : Bluez W}
  json_loads service tag_addr t0 T w rep pub mr hp hs mac bus h es :
  clock_within libc t0 T -> T < t0 + RECONNECT_SPAN -> service_fits service ->
  0 <= mr < 2 ^ 32 -> Forall ble_input_fits es -> closed h ->
  exists rv res o, han_ble_main (backend := bluez_backend) json_loads service tag_addr false w rep pub mr hp hs mac bus h es
    = Some (rv, res, o) /\ (rv = 0 -> exists m, br_mgr res = Some m /\ bz_conn m = false /\ bz_dev m = []).
Proof.
  intros Hc Ht Hs Hmr Hes Hh.
  destruct (ble_process (backend := bluez_backend) (total := bluez_backend_total t0 T Ht Hc) json_loads service tag_addr
    Hs false w rep pub mr hp hs mac bus h es Hmr Hes Hh) as (rv & res & o & E & _ & H).
  exists rv, res, o. split; [exact E|]. intros ->. destruct o; [|by destruct H]. by destruct H as (_ & _ & _ & Hm & _).
Qed.

(** ** The simulated tag of BleFacts *)

Definition tag_leaf_nng : NngBus := {| nng_answer _ _ := 0 |}.

Lemma ble_process_witness :
  exists res s, @han_ble_main indefinite_target tag_nng tag_leaf_nng _ _ tick_libc (@sim_backend _ tick_libc) tag_json tag_service
      (fun _ => 0) true 0 "r" "p" 3 "hp" "hs" None (mk_bus [] (fun _ => mk_reading None 0)) [] [mk_ble_input None (inr 5)]
      = Some (0, res, Some s) /\
    msg_payload <$> bus_sent (bl_bus s) = ["0"; "21.85"] /\ flags (bl_reg s) = [(7, true)] /\
    mr_req (br_mreg res) = false /\ closed (br_leaf res).
Proof.
  do 2 eexists. match goal with |- ?P /\ _ => assert (E : P) by (vm_compute; reflexivity) end.
  split; [exact E|]. split; [reflexivity|]. split; [reflexivity|].
  assert (Hs : service_fits tag_service)
    by (split; intros w m; [intros ans [= <-]|intros reg req ans _ [= <-]]; apply Nat.ltb_lt; by vm_compute).
  destruct (@ble_process indefinite_target tag_nng tag_leaf_nng _ _ tick_libc _ tag_json tag_service (fun _ => 0)
    (@sim_backend_ok _ tick_libc) (@sim_backend_total _ tick_libc) Hs true 0 "r" "p" 3 "hp" "hs" None
    (mk_bus [] (fun _ => mk_reading None 0)) [] [mk_ble_input None (inr 5)])
    as (rv & res & o & H & Hc & Hres); [lia|by repeat constructor|by intros []|].
  rewrite E in H. injection H as <- <- <-. split; [apply Hres|exact Hc].
Defined.
