(* ===== verification/System.v ===== *)
(** * The core and its modules together

    Composes modules/core/core.c, common/hes_bus.c and the interface modules: which
    messages of the core reach a module through its subscriptions, and what the module
    does with them. The topics of a module are those han_wifi_main and han_ble_main hand to
    hes_bus_leaf_open, the distinct object paths of its devices. *)

From S2P Require Import Prelude CLib HesCommon Bus HesQuery Bm BmFacts BmProps Dispatch Json Auth Crypto CryptoFacts Id Devreg Slice Mreg Time Core CoreFacts Wiz WizFacts Wifi WifiFacts.

(** ** The topics of a module *)

Definition object_paths (reg : hes_devreg_t) : list string :=
  do_path <$> concat (hd_objects <$> dr_devices reg).

(** The paths that occur, in the order of their first occurrence, without those [seen]. *)
Fixpoint fresh (seen ps : list string) : list string :=
  match ps with
  | [] => []
  | p :: ps => if decide (p ∈ seen) then fresh seen ps else p :: fresh (seen ++ [p]) ps
  end.

Definition distinct_paths (reg : hes_devreg_t) : list string := fresh [] (object_paths reg).

(** Paths as C strings that fit their buffers. *)
Definition path_ok (p : string) : Prop :=
  (String.length p < HES_PATH_MAX)%nat /\ has_char Ascii.zero p = false.

Lemma fresh_elem seen ps p : p ∈ seen ++ fresh seen ps <-> p ∈ seen \/ p ∈ ps.
Proof.
  revert seen. induction ps as [|q ps IH]; intros seen; cbn [fresh].
  { rewrite app_nil_r. split; [by left|]. by intros [?|?%elem_of_nil]. }
  rewrite elem_of_cons. case_decide as Hq.
  - rewrite IH. split; [by intros [?|?]; auto|]. intros [?|[->|?]]; auto.
  - pose proof (IH (seen ++ [q])) as H. rewrite <- app_assoc in H. cbn [app] in H. rewrite H.
    rewrite elem_of_app, list_elem_of_singleton. tauto.
Qed.

Lemma distinct_paths_elem reg p : p ∈ distinct_paths reg <-> p ∈ object_paths reg.
Proof.
  unfold distinct_paths. rewrite <- (app_nil_l (fresh [] _)), fresh_elem.
  split; [by intros [?%elem_of_nil|?]|by right].
Qed.

Lemma add_topics_fresh max objs topics :
  Forall (fun o => path_ok (do_path o)) objs -> (length topics <= max)%nat ->
  fold_left (add_topic max) objs topics = take max (topics ++ fresh topics (do_path <$> objs)).
Proof.
  intros Hf. revert topics. induction Hf as [|o objs [Ho _] _ IH]; intros topics Hl; cbn [fold_left fmap list_fmap fresh].
  { rewrite app_nil_r, take_ge; done. }
  unfold add_topic at 2. destruct (Nat.leb_spec max (length topics)) as [Hm|Hm].
  - rewrite IH by done. replace max with (length topics) by lia. by rewrite !take_app_length.
  - assert (He : existsb (fun t => t =?s do_path o) topics = bool_decide (do_path o ∈ topics)).
    { apply eq_bool_prop_intro. rewrite !Is_true_true, existsb_exists, bool_decide_eq_true, list_elem_of_In.
      split; [intros (t & Ht & ->%String.eqb_eq); done|]. intros H. exists (do_path o). by rewrite String.eqb_refl. }
    rewrite He. case_decide as Hd; [by rewrite bool_decide_eq_true_2, IH|].
    rewrite bool_decide_eq_false_2 by done. rewrite hes_strlcpy_small by done.
    rewrite IH by (rewrite length_app; simpl; lia). by rewrite <- app_assoc.
Qed.

(** What [hes_devreg_collect_topics] computes: the first [max] distinct paths. *)
Lemma collect_topics_spec reg max :
  Forall path_ok (object_paths reg) -> hes_devreg_collect_topics reg max = take max (distinct_paths reg).
Proof.
  intros Hf. unfold hes_devreg_collect_topics, distinct_paths, object_paths in *.
  apply (proj1 (Forall_fmap _ _ _)) in Hf. unfold compose in Hf.
  assert (Hflat : forall devs ts, fold_left (fun topics dev => fold_left (add_topic max) (hd_objects dev) topics) devs ts =
    fold_left (add_topic max) (concat (hd_objects <$> devs)) ts).
  { induction devs as [|d devs IH]; intros ts; [done|]. cbn [fold_left fmap list_fmap concat].
    by rewrite fold_left_app, IH. }
  rewrite Hflat, add_topics_fresh; [done|exact Hf|simpl; lia].
Qed.

Lemma object_path_in reg d o : d ∈ dr_devices reg -> o ∈ hd_objects d -> do_path o ∈ object_paths reg.
Proof.
  intros Hd Ho. apply list_elem_of_fmap_2. apply list_elem_of_In, in_concat. exists (hd_objects d).
  split; apply list_elem_of_In; [by apply list_elem_of_fmap_2|done].
Qed.

Lemma object_path_inv reg p : p ∈ object_paths reg ->
  exists d o, d ∈ dr_devices reg /\ o ∈ hd_objects d /\ do_path o = p.
Proof.
  intros (o & -> & Ho)%list_elem_of_fmap. apply list_elem_of_In, in_concat in Ho as (l & Hl & Ho).
  apply list_elem_of_In, list_elem_of_fmap in Hl as (d & -> & Hd). exists d, o.
  split; [done|]. split; [by apply list_elem_of_In|done].
Qed.

Lemma in_take {A} n (l : list A) x : x ∈ take n l -> x ∈ l.
Proof. intros (i & Hi & _)%elem_of_take. by eapply list_elem_of_lookup_2. Qed.

(** ** What a module hears *)

Section heard.
Context {nng : NngBus}.

(** The subscriptions of a leaf that opened, when NNG takes every one. *)
Lemma leaf_topics pub sub topics h h' :
  (forall h t, nng_answer h (Subscribe SubSock t) = 0) -> closed h ->
  hes_bus_leaf_open pub sub topics h = (h', 0) ->
  ss_topics <$> socket_after SubSock h' = Some (take HES_BUS_MAX_TOPICS topics).
Proof.
  intros Ha Hc H. destruct (leaf_open_sockets _ _ _ _ _ _ Hc H) as [_ [_ (h0 & Hs)]].
  rewrite Hs. cbn. by rewrite accepted_all.
Qed.

(** C20: A module hears of its own objects. Once its leaf is open with every subscription
    taken, a message is handed to it exactly when one of the first 16 distinct object paths
    of its devices is a prefix of the message's path. So everything it hears has a path that
    continues one of its own, every message for an object of its devices arrives when they
    have at most 16 distinct paths, and beyond that a path that continues none of the first
    16 is never heard. *)
Theorem module_hears_its_objects reg pub sub h h' rest :
  (forall h t, nng_answer h (Subscribe SubSock t) = 0) -> closed h -> Forall path_ok (object_paths reg) ->
  hes_bus_leaf_open pub sub (hes_devreg_collect_topics reg HES_BUS_MAX_TOPICS) h = (h', 0) ->
  exists topics, ss_topics <$> socket_after SubSock h' = Some topics /\
  forall m, msg_fits m ->
    (delivered topics m rest = true <->
       exists p, p ∈ take HES_BUS_MAX_TOPICS (distinct_paths reg) /\ str_prefix p (msg_path m) = true) /\
    (delivered topics m rest = true ->
       exists d o, d ∈ dr_devices reg /\ o ∈ hd_objects d /\ str_prefix (do_path o) (msg_path m) = true) /\
    ((length (distinct_paths reg) <= HES_BUS_MAX_TOPICS)%nat ->
       forall d o, d ∈ dr_devices reg -> o ∈ hd_objects d -> msg_path m = do_path o ->
       delivered topics m rest = true).
Proof.
  intros Ha Hc Hf H. exists (take HES_BUS_MAX_TOPICS (distinct_paths reg)).
  rewrite (leaf_topics _ _ _ _ _ Ha Hc H), collect_topics_spec, take_take, Nat.min_id by done. split; [done|].
  intros m Hm. assert (Hiff : delivered (take HES_BUS_MAX_TOPICS (distinct_paths reg)) m rest = true <->
    exists p, p ∈ take HES_BUS_MAX_TOPICS (distinct_paths reg) /\ str_prefix p (msg_path m) = true).
  { rewrite delivered_prefix, existsb_exists; [|apply Hm|].
    - split; intros (p & Hp & Hx); exists p; split; try done; by apply list_elem_of_In.
    - apply Forall_forall. intros p Hp%in_take%distinct_paths_elem.
      rewrite Forall_forall in Hf. by destruct (Hf p Hp). }
  split; [done|]. split.
  - intros (p & Hp%in_take%distinct_paths_elem & Hx)%Hiff.
    apply object_path_inv in Hp as (d & o & Hd & Ho & <-). by exists d, o.
  - intros Hl d o Hd Ho Hp. apply Hiff. exists (do_path o). rewrite take_ge by done. split.
    + by apply distinct_paths_elem, (object_path_in _ d).
    + apply str_prefix_spec. exists "". by rewrite str_app_nil_r.
Qed.
End heard.

(** ** A command from a peer to a bulb *)

Section core.
Context {K O : Type} {psa : Psa K O} {A : Type}.

(** A PUT no local object owns, to a declared device, is put on the bus as it came. *)
Lemma core_put_relayed fuel (st st' : core_t A) inm :
  core_message fuel st inm = Some st' -> msg_verb inm = HES_VERB_PUT ->
  find_object (core_objects (co_bm st)) (msg_path inm) = None ->
  bm_is_declared_destination (co_bm st) (msg_path inm) (msg_device_index inm) = true ->
  exists ts, bus_extends (co_bus st) (co_bus st') [msg_stamped ts inm].
Proof.
  intros H Hv Hf Hd. unfold core_message, dispatch_to_local_objects in H. rewrite Hf in H. cbn [mbind option_bind] in H.
  rewrite processor_handle_other in H by (rewrite Hv; done). injection H as <-. cbn [co_bus].
  unfold relay. rewrite Hv, Hd. cbn. by eexists.
Qed.
End core.

Section wifi.
Context {target : Target} {nng : Nng} {nngb : NngBus} {W : Type} {udp : Udp W}.
Variable json_loads : string -> option json.
Variable service : W -> string -> W * option string.

Lemma wifi_boot_leaf (w : W) rep pub mr ip leaf bus (s : wifi_t W) :
  wifi_boot json_loads service w rep pub mr ip leaf bus = Some (Some s) ->
  leaf (hes_devreg_collect_topics (wf_reg s) HES_BUS_MAX_TOPICS) = 0.
Proof.
  unfold wifi_boot. destruct (hes_mreg_open _ _ _ _) as [m rv]. destruct (negb (rv =? 0)); [done|].
  destruct (hes_mreg_query _ _ _ _ _) as [[[w1 reg] rv1]|]; [|done]. cbn. destruct (negb (rv1 =? 0)); [done|].
  destruct (bool_decide _); [done|]. destruct (hes_mreg_report _ _ _ _) as [[w2 rv2]|]; [|done]. cbn.
  destruct (hes_mreg_query _ _ _ _ _) as [[[w3 reg2] rv3]|]; [|done]. cbn. destruct (negb (rv3 =? 0)); [done|].
  destruct (open_clients _ _ _ _) as [w4 devs]. case_bool_decide; [done|].
  destruct (leaf _ =? 0) eqn:El; [|done]. cbn. intros [= <-]. by apply Z.eqb_eq.
Qed.

Lemma same_shape_paths r r' : same_shape r r' -> object_paths r = object_paths r'.
Proof.
  intros H. unfold object_paths. do 2 f_equal. apply (f_equal (fmap snd)) in H.
  by rewrite <- !list_fmap_compose in H.
Qed.

(** What a PUT to a device of the module does to it depends on its path, its index and its
    payload alone. *)
Lemma wifi_put_stamped (s : wifi_t W) m ts didx dev d obj :
  msg_verb m = HES_VERB_PUT -> addressed s m "w" = Some (didx, dev, d, obj) ->
  exists w c rv, write_object json_loads (wf_world s) (wd_sock dev) obj (msg_payload m) = (w, c, rv) /\
    wifi_message json_loads s (msg_stamped ts m) = Some (wifi_with_sock didx w c s).
Proof.
  intros Hv Ha. destruct (write_object json_loads (wf_world s) (wd_sock dev) obj (msg_payload m)) as [[w c] rv] eqn:Ew.
  exists w, c, rv. split; [done|]. unfold wifi_message.
  change (msg_verb (msg_stamped ts m)) with (msg_verb m). rewrite Hv. cbn.
  unfold wifi_put. change (addressed s (msg_stamped ts m) "w") with (addressed s m "w"). rewrite Ha.
  change (msg_payload (msg_stamped ts m)) with (msg_payload m). by rewrite Ew.
Qed.

(** The module's side of a command. A WiFi module that started with its leaf on the core's bus,
    all subscriptions taken and at most 16 distinct object paths among its devices, has run for
    any number of turns: a PUT that addresses an open device of it for writing is handed to it,
    and its turn writes the PUT's payload to that device's object through that device's
    socket. *)
Section module.
Variables (hub_pub hub_sub : string) (h : history) (w : W) (rep pub : string) (mr : Z) (ip : string)
  (bus : hes_bus_t) (s0 s : wifi_t W) (es : list wifi_input) (rest : string).
Hypothesis Hsub : forall h t, nng_answer h (Subscribe SubSock t) = 0.
Hypothesis Hclosed : closed h.
Let leaf topics := hes_bus_leaf_open hub_pub hub_sub topics h.
Hypothesis Hboot :
  wifi_boot json_loads service w rep pub mr ip (fun topics => snd (leaf topics)) bus = Some (Some s0).
Hypothesis Hrun : wifi_run json_loads service s0 es = Some s.
Hypothesis Hpaths : Forall path_ok (object_paths (wf_reg s0)).
Hypothesis Hfew : (length (distinct_paths (wf_reg s0)) <= HES_BUS_MAX_TOPICS)%nat.

Definition module_topics : list string := take HES_BUS_MAX_TOPICS (distinct_paths (wf_reg s0)).

Lemma module_subscribed : ss_topics <$> socket_after SubSock
  (fst (leaf (hes_devreg_collect_topics (wf_reg s0) HES_BUS_MAX_TOPICS))) = Some module_topics.
Proof.
  pose proof (wifi_boot_leaf _ _ _ _ _ _ _ _ Hboot) as Hl. subst leaf. cbv beta in *.
  destruct (hes_bus_leaf_open hub_pub hub_sub _ h) as [h' rv0] eqn:El. cbn [fst snd] in *. subst rv0.
  by rewrite (leaf_topics _ _ _ _ _ Hsub Hclosed El), collect_topics_spec, take_take, Nat.min_id by done.
Qed.

Lemma module_carries_out m didx dev d obj :
  (String.length (msg_path m) < HES_PATH_MAX)%nat -> msg_verb m = HES_VERB_PUT ->
  addressed s m "w" = Some (didx, dev, d, obj) ->
  delivered module_topics m rest = true /\
  exists w' c rv,
    write_object json_loads (wf_world s) (wd_sock dev) obj (msg_payload m) = (w', c, rv) /\
    wifi_message json_loads s m = Some (wifi_with_sock didx w' c s).
Proof.
  intros Hfit Hv Ha. split.
  - destruct (addressed_spec _ _ _ _ _ _ _ Ha) as (_ & Hd & _ & Ho & Hp & _).
    destruct (wifi_run_ok _ _ _ _ _ Hrun) as [Hshape _ _ _].
    unfold module_topics. rewrite take_ge by done. rewrite delivered_prefix; [|exact Hfit|].
    + apply existsb_exists. exists (msg_path m). split; [|apply str_prefix_spec; exists ""; by rewrite str_app_nil_r].
      apply list_elem_of_In, distinct_paths_elem. rewrite <- Hp, <- (same_shape_paths _ _ Hshape).
      eapply object_path_in; [by eapply list_elem_of_lookup_2|done].
    + apply Forall_forall. intros p Hin%distinct_paths_elem. rewrite Forall_forall in Hpaths. by destruct (Hpaths p Hin).
  - destruct (wifi_put_stamped s m (msg_timestamp_ns m) _ _ _ _ Hv Ha) as (w' & c & rv & Hw & Hmsg).
    exists w', c, rv. split; [done|]. by destruct m.
Qed.
End module.

(** C13: A peer's command reaches its bulb. Let the core take a PUT, its texts within their
    arrays, that no local object owns and that addresses a declared device, and let a WiFi
    module that started with its leaf on the core's bus, every subscription accepted and at most
    16 distinct object paths, each within its array, among its devices (the paths beyond 16 are
    never subscribed to: [module_hears_its_objects]), have run for any number of turns. If the PUT addresses an open device of the
    module for writing, then the core puts exactly one message on the bus, the message is
    handed to the module, and the module's turn writes the PUT's payload to that device's
    object through that device's socket. *)
Theorem command_reaches_its_bulb {K O : Type} {psa : Psa K O} {A : Type}
  hub_pub hub_sub h (w : W) rep pub mr ip bus (s0 s : wifi_t W) es rest
  fuel (st st' : core_t A) inm didx dev d obj :
  (forall h t, nng_answer h (Subscribe SubSock t) = 0) -> closed h ->
  let leaf topics := hes_bus_leaf_open hub_pub hub_sub topics h in
  wifi_boot json_loads service w rep pub mr ip (fun topics => snd (leaf topics)) bus = Some (Some s0) ->
  wifi_run json_loads service s0 es = Some s ->
  Forall path_ok (object_paths (wf_reg s0)) ->
  (length (distinct_paths (wf_reg s0)) <= HES_BUS_MAX_TOPICS)%nat ->
  core_message fuel st inm = Some st' -> msg_fits inm -> msg_verb inm = HES_VERB_PUT ->
  find_object (core_objects (co_bm st)) (msg_path inm) = None ->
  bm_is_declared_destination (co_bm st) (msg_path inm) (msg_device_index inm) = true ->
  addressed s inm "w" = Some (didx, dev, d, obj) ->
  exists topics m w' c rv,
    ss_topics <$> socket_after SubSock
      (fst (leaf (hes_devreg_collect_topics (wf_reg s0) HES_BUS_MAX_TOPICS))) = Some topics /\
    bus_extends (co_bus st) (co_bus st') [m] /\ delivered topics m rest = true /\
    write_object json_loads (wf_world s) (wd_sock dev) obj (msg_payload inm) = (w', c, rv) /\
    wifi_message json_loads s m = Some (wifi_with_sock didx w' c s).
Proof.
  intros Hsub Hc leaf Hb Hr Hok H16 Hm Hfit Hv Hfind Hdecl Ha.
  destruct (core_put_relayed _ _ _ _ Hm Hv Hfind Hdecl) as [ts Hbus].
  destruct (module_carries_out s0 s es rest Hr Hok H16
    (msg_stamped ts inm) didx dev d obj) as (Hdel & w' & c & rv & Hw & Hmsg); [apply Hfit|done|done|].
  exists (module_topics s0), (msg_stamped ts inm), w', c, rv. split; [|by split_and!].
  by eapply module_subscribed.
Qed.

(** A report drives the bulbs. When the core takes a report, every message it sends is the
    command of an enabled row of its binding map, within the authorization the row asks for,
    with the row's result as its payload; and whichever of them addresses an open device of
    the WiFi module for writing is handed to the module, and the module's turn writes that
    number to the device's object through that device's socket. *)
Theorem report_drives_its_bulbs {K O : Type} {psa : Psa K O} {A : Type}
  hub_pub hub_sub h (w : W) rep pub mr ip bus (s0 s : wifi_t W) es rest
  fuel (st st' : core_t A) inm :
  (forall h t, nng_answer h (Subscribe SubSock t) = 0) -> closed h ->
  let leaf topics := hes_bus_leaf_open hub_pub hub_sub topics h in
  wifi_boot json_loads service w rep pub mr ip (fun topics => snd (leaf topics)) bus = Some (Some s0) ->
  wifi_run json_loads service s0 es = Some s ->
  Forall path_ok (object_paths (wf_reg s0)) ->
  (length (distinct_paths (wf_reg s0)) <= HES_BUS_MAX_TOPICS)%nat ->
  core_message fuel st inm = Some st' -> msg_verb inm = HES_VERB_EVENT ->
  exists topics commands,
    ss_topics <$> socket_after SubSock
      (fst (leaf (hes_devreg_collect_topics (wf_reg s0) HES_BUS_MAX_TOPICS))) = Some topics /\
    bus_extends (co_bus st) (co_bus st') commands /\
    Forall (fun m => allowed_put (bm_with_current_msg (co_bm st) (Some inm)) m /\
      forall didx dev d obj, addressed s m "w" = Some (didx, dev, d, obj) ->
        delivered topics m rest = true /\
        exists v w' c rv, msg_payload m = str_take 31 (fmt_g v) /\
          write_object json_loads (wf_world s) (wd_sock dev) obj (str_take 31 (fmt_g v)) = (w', c, rv) /\
          wifi_message json_loads s m = Some (wifi_with_sock didx w' c s)) commands.
Proof.
  intros Hsub Hc leaf Hb Hr Hok H16 Hm Hv. unfold core_message in Hm.
  destruct (dispatch_to_local_objects _ _ _ inm) as [[[s' bus1] handled]|] eqn:Ed; [|done]. cbn [mbind option_bind] in Hm.
  destruct (dispatch_effect _ _ _ _ _ _ _ Ed) as (_ & _ & [->|[Hg _]]); [|by rewrite Hv in Hg].
  destruct (bm_processor_handle fuel _ _ inm) as [[bm' bus']|] eqn:Ep; [|done]. injection Hm as <-. cbn [co_bus].
  apply processor_handle_safe in Ep as [_ (ms & Hext & Hms)].
  exists (module_topics s0), ms. split; [by eapply module_subscribed|]. split.
  { unfold relay in Hext. rewrite Hv in Hext. by rewrite andb_false_r in Hext. }
  eapply Forall_impl; [exact Hms|]. intros m Hput. split; [by apply authorized_put_allowed|].
  destruct Hput as (op & v & _ & _ & Hverb & _ & Hpath & _ & Hpl & _). intros didx dev d obj Ha.
  destruct (module_carries_out s0 s es rest Hr Hok H16 m didx dev d obj) as (Hdel & w' & c & rv & Hw & Hmsg);
    [rewrite Hpath; apply hes_strlcpy_fits; unfold HES_PATH_MAX; lia|done|done|].
  split; [done|]. exists v, w', c, rv. by rewrite <- Hpl.
Qed.
End wifi.

(** ** The statements at concrete inputs *)

(** Every call succeeds. *)
Definition ex_calls : NngBus := {| nng_answer _ _ := 0 |}.

Lemma closed_nil : closed [].
Proof. by intros []. Qed.

(** Three devices with 17 object paths. *)
Definition ex_path (n : Z) : string := ("/lx/" ++ fmt_d n)%string.

Definition ex_wide_device (first count : nat) : hes_device_t :=
  mk_device (Z.of_nat first) 1 "" "" "" "" 0 true
    ((fun n => mk_dev_object (ex_path (Z.of_nat n)) "rw") <$> seq first count).

Definition ex_wide : hes_devreg_t :=
  mk_devreg "" "hi" 3 "" [ex_wide_device 10 8; ex_wide_device 18 8; ex_wide_device 26 1].

Definition ex_message (path : string) : hes_clme_msg_t :=
  hes_msg_set_path (msg_with_verb HES_VERB_PUT hes_msg_init) path.

Lemma ex_message_fits path : msg_fits (ex_message path).
Proof.
  unfold msg_fits, HES_QUERY_MAX, HES_PAYLOAD_MAX, HES_CRED_MAX, HES_USER_MAX.
  split_and!; simpl; try lia. apply hes_strlcpy_fits. unfold HES_PATH_MAX. lia.
Qed.

(** The sixteenth path is heard, the seventeenth is not; neither is a path of another module,
    unless it continues one of this module's. *)
Lemma module_hears_its_objects_witness :
  exists topics, length topics = 16%nat /\
    delivered topics (ex_message (ex_path 25)) "" = true /\
    delivered topics (ex_message (ex_path 26)) "" = false /\
    delivered topics (ex_message (ex_path 100)) "" = true.
Proof.
  destruct (hes_bus_leaf_open (nng := ex_calls) "pub" "sub"
    (hes_devreg_collect_topics ex_wide HES_BUS_MAX_TOPICS) []) as [h' rv] eqn:E.
  assert (Hrv : rv = 0) by (vm_compute in E; congruence). subst rv.
  assert (Hok : Forall path_ok (object_paths ex_wide)).
  { repeat (apply Forall_cons; split; [split; [unfold HES_PATH_MAX; simpl; lia|reflexivity]|]). constructor. }
  destruct (module_hears_its_objects (nng := ex_calls) ex_wide "pub" "sub" [] h' "" ltac:(reflexivity) closed_nil Hok E)
    as (topics & Ht & Hm).
  exists topics. split; [|split; [|split]].
  - vm_compute in E. injection E as <-. vm_compute in Ht. by injection Ht as <-.
  - apply (proj1 (Hm (ex_message (ex_path 25)) (ex_message_fits _))). exists (ex_path 25). split; [|reflexivity].
    vm_compute. repeat constructor.
  - apply not_true_is_false. intros H.
    destruct (proj1 (proj1 (Hm (ex_message (ex_path 26)) (ex_message_fits _))) H) as (p & Hp & Hx).
    assert (Hn : Forall (fun p => str_prefix p (msg_path (ex_message (ex_path 26))) = false)
      (take HES_BUS_MAX_TOPICS (distinct_paths ex_wide))) by (vm_compute; repeat constructor).
    rewrite Forall_forall in Hn. rewrite (Hn p Hp) in Hx. discriminate.
  - apply (proj1 (Hm (ex_message (ex_path 100)) (ex_message_fits _))). exists (ex_path 10). split; [|reflexivity].
    vm_compute. repeat constructor.
Defined.

(** A core that knows the bulb of [ex_wifi] as device 7. *)
Definition ex_gateway : core_t unit :=
  mk_core (co_services CoreFacts.ex_core) (bm_with_addrs (bm_init tt) [mk_addr 7 HES_MODTYPE_HI 3 1 ""]) ex_hub.

Definition ex_command : hes_clme_msg_t :=
  hes_msg_set_payload_str (msg_with_device 7 (ex_message HES_LX_LIGHT_CV)) "1".

Lemma command_reaches_its_bulb_witness :
  exists topics m w' c rv,
    delivered topics m "" = true /\ topics = [HES_LX_LIGHT_CV] /\ msg_payload m = "1" /\
    write_object (udp := script_udp) ex_json ex_answer (mk_wiz 3 "10.0.0.7" 38899 [])
      (mk_dev_object HES_LX_LIGHT_CV "rw") "1" = (w', c, rv).
Proof.
  destruct (core_message (psa := Toy.psa) 1 ex_gateway ex_command) as [st'|] eqn:E;
    [|exfalso; vm_compute in E; discriminate].
  destruct (command_reaches_its_bulb (target := indefinite_target) (nng := ex_nng) (nngb := ex_calls)
    (udp := script_udp) ex_json ex_service (psa := Toy.psa) "pub" "sub" [] ex_answer "r" "p" 3 "192.168.1.142"
    ex_bus (ex_wifi ex_answer) (ex_wifi ex_answer) [] "" 1 ex_gateway st' ex_command 0%nat
    (mk_wifi_dev 0 (mk_wiz 3 "10.0.0.7" 38899 [])) (ex_device true) (mk_dev_object HES_LX_LIGHT_CV "rw"))
    as (topics & m & w' & c & rv & Ht & [Hs _] & Hdel & Hw & _).
  - reflexivity.
  - exact closed_nil.
  - vm_compute. reflexivity.
  - reflexivity.
  - repeat constructor; unfold HES_PATH_MAX; simpl; lia.
  - vm_compute. repeat constructor.
  - exact E.
  - unfold msg_fits, HES_PATH_MAX, HES_QUERY_MAX, HES_PAYLOAD_MAX, HES_CRED_MAX, HES_USER_MAX.
    split_and!; simpl; lia.
  - reflexivity.
  - vm_compute. reflexivity.
  - vm_compute. reflexivity.
  - vm_compute. reflexivity.
  - exists topics, m, w', c, rv. split; [exact Hdel|]. split; [vm_compute in Ht; by injection Ht as <-|].
    split; [|exact Hw]. vm_compute in E. injection E as <-. vm_compute in Hs. by injection Hs as <-.
Defined.

(** A core whose one row switches the bulb of [ex_wifi], device 7, on when the button of device
    6 is pressed. *)
Definition ex_button : string := "/lx/ob/uo/ui/ud/da/cv".

Definition ex_automation : core_t unit :=
  mk_core (co_services CoreFacts.ex_core)
    (BmProps.ex_map [BmProps.ex_row "gt" [BmProps.ex_input 6 ex_button ""] 7 HES_LX_LIGHT_CV "o1"]) ex_hub.

Definition ex_press : hes_clme_msg_t :=
  hes_msg_set_payload_str (hes_msg_set_path (msg_with_device 6 (msg_with_verb HES_VERB_EVENT hes_msg_init)) ex_button) "1".

(** The press of the button ends in a write to the bulb. *)
Lemma report_drives_its_bulbs_witness :
  exists topics m w' c rv,
    topics = [HES_LX_LIGHT_CV] /\ delivered topics m "" = true /\ msg_path m = HES_LX_LIGHT_CV /\ msg_payload m = "1" /\
    write_object (udp := script_udp) ex_json ex_answer (mk_wiz 3 "10.0.0.7" 38899 [])
      (mk_dev_object HES_LX_LIGHT_CV "rw") "1" = (w', c, rv).
Proof.
  destruct (core_message (psa := Toy.psa) 40 ex_automation ex_press) as [st'|] eqn:E;
    [|exfalso; vm_compute in E; discriminate].
  destruct (report_drives_its_bulbs (target := indefinite_target) (nng := ex_nng) (nngb := ex_calls)
    (udp := script_udp) ex_json ex_service (psa := Toy.psa) "pub" "sub" [] ex_answer "r" "p" 3 "192.168.1.142"
    ex_bus (ex_wifi ex_answer) (ex_wifi ex_answer) [] "" 40 ex_automation st' ex_press)
    as (topics & commands & Ht & [Hs _] & Hall).
  - reflexivity.
  - exact closed_nil.
  - vm_compute. reflexivity.
  - reflexivity.
  - repeat constructor; unfold HES_PATH_MAX; simpl; lia.
  - vm_compute. repeat constructor.
  - exact E.
  - reflexivity.
  - vm_compute in E. injection E as <-. vm_compute in Hs. subst commands.
    apply Forall_cons in Hall as [[_ Hm] _].
    destruct (Hm 0%nat (mk_wifi_dev 0 (mk_wiz 3 "10.0.0.7" 38899 [])) (ex_device true)
      (mk_dev_object HES_LX_LIGHT_CV "rw")) as (Hdel & v & w' & c & rv & Hpl & Hw & _); [vm_compute; reflexivity|].
    rewrite <- Hpl in Hw. exists topics. do 4 eexists. split; [vm_compute in Ht; by injection Ht as <-|].
    split; [exact Hdel|]. split; [reflexivity|]. split; [reflexivity|]. exact Hw.
Defined.
