(* ===== verification/Scene.v ===== *)
(** * From a press to a bulb

    Composes han/ble/ble.c, modules/core/core.c with bm/bm.c, common/hes_bus.c and
    han/wifi/wifi.c: the report a BLE tag's button causes, what the core's binding map makes of
    it, and what the WiFi module does with the commands. The modules share nothing but the
    messages on the bus; each is in a state of its own. *)

From S2P Require Import Prelude CLib HesCommon Bus HesQuery Bm BmFacts BmSettle BmValues BmTerm BmProps BmLoad BmFollow Dispatch Json Auth Crypto CryptoFacts Id Devreg Slice Mreg Time Core CoreFacts Wiz WizFacts Wifi WifiFacts HesBle BleSim Sensortag Ble BleFacts System.

(** ** What the core makes of a report *)

Section core.
Context {K O : Type} {psa : Psa K O} {A : Type} (V : nat -> double -> Prop).
Hypothesis V_number : forall k v, V k v -> is_nan v = false.

Lemma dispatch_event {G} (g : G) bus objs inm : msg_verb inm = HES_VERB_EVENT ->
  exists handled, dispatch_to_local_objects g bus objs inm = Some (g, bus, handled).
Proof.
  intros Hv. unfold dispatch_to_local_objects. 
  destruct (Dispatch.find_object objs (msg_path inm)) as [[so sel]|]; [|by eexists].
  rewrite Hv. by eexists.
Qed.

Lemma bus_extends_inj bus bus' ms ns : bus_extends bus bus' ms -> bus_extends bus bus' ns -> ms = ns.
Proof. intros [H1 _] [H2 _]. rewrite H1 in H2. by apply app_inv_head in H2. Qed.

(** A turn of the core on a report of a steady table. *)
Lemma core_report fuel (st : core_t A) m :
  let n := length (bm_ops (co_bm st)) in
  steady V (co_bm st) -> admissible V (co_bm st) m -> (n * S n ^ n < fuel)%nat -> msg_verb m = HES_VERB_EVENT ->
  exists st' rows commands,
    core_message fuel st m = Some st' /\ steady V (co_bm st') /\ holds_report m (co_bm st) (co_bm st') /\
    bus_extends (co_bus st) (co_bus st') commands /\ commanded (co_bm st) (co_bm st') rows commands /\
    Forall (authorized_put (bm_with_current_msg (co_bm st) (Some m))) commands.
Proof.
  intros n Hst HP Hf Hv.
  destruct (report_effect V V_number fuel (co_bm st) (co_bus st) m Hst HP Hf)
    as (bm' & bus' & rows & ms & H & Hst' & Hh & Hb & Hc).
  destruct (dispatch_event (co_services st) (co_bus st) (core_objects (co_bm st)) m Hv) as [handled Hd].
  exists (mk_core (co_services st) bm' bus'), rows, ms. split.
  { unfold core_message. rewrite Hd. cbn [mbind option_bind]. unfold relay. rewrite Hv. rewrite andb_false_r. cbn [andb].
    by rewrite H. }
  split_and!; try done. destruct (processor_handle_safe _ _ _ _ _ _ H) as [_ (ns & Hb' & Hns)].
  by rewrite (bus_extends_inj _ _ _ _ Hb Hb').
Qed.
End core.

(** ** What the tag's module reports *)

Section tag.
Context {target : Target} {nng : Nng} {W M : Type} {libc : Libc W} {backend : BleBackend W M}.

Definition press_payload (pressed : Z) : string := if pressed =? 0 then "0" else "1".
Definition press_value (pressed : Z) : double := if pressed =? 0 then d_zero else d_one.

(** The report of a button of device [di]. *)
Definition is_press (di pressed : Z) (m : hes_clme_msg_t) : Prop :=
  msg_verb m = HES_VERB_EVENT /\ msg_path m = HES_LX_BTN_CV /\ msg_device_index m = di /\
  msg_payload m = press_payload pressed.

Lemma press_reported di pressed m : is_press di pressed m -> reported m = press_value pressed.
Proof.
  intros (_ & _ & _ & Hp). unfold reported. rewrite Hp. unfold press_payload, press_value. by destruct (pressed =? 0).
Qed.

Lemma dev_object_find_path d path o : hes_dev_object_find d path = Some o -> do_path o = path.
Proof. intros H. apply find_first_Some in H as [_ He]. by apply String.eqb_eq. Qed.

Lemma button_pressed i (s s' : ble_t W M) d bo dev w tag pressed :
  dr_devices (bl_reg s) !! i = Some d -> hd_online d = true ->
  hes_dev_object_find d HES_LX_BTN_CV = Some bo -> bl_devs s !! i = Some dev ->
  read_button_any (bl_world s) (bl_mgr s) (bd_tag dev) (hd_device_index d) = (w, tag, pressed) ->
  (bd_btn_set dev && (pressed =? bd_last_btn dev))%bool = false ->
  ble_button i s = Some s' ->
  exists m, bus_extends (bl_bus s) (bl_bus s') [m] /\ is_press (hd_device_index d) pressed m.
Proof.
  intros Hd Hon Hbo Hdev Hr Hch. unfold ble_button. rewrite Hd. cbn. rewrite Hon. cbn. rewrite Hbo, Hdev. cbn. rewrite Hr.
  rewrite <- negb_andb, Hch. cbn [negb]. intros [= <-]. eexists. split; [split; reflexivity|]. split_and!; try done.
  - cbn. by rewrite (dev_object_find_path _ _ _ Hbo).
  - cbn. unfold press_payload. by destruct (pressed =? 0).
Qed.
End tag.

(** ** The scene *)

Section scene.
Context {target : Target} {nng : Nng} {nngb : NngBus} {W : Type} {udp : Udp W}.
Context {WB M : Type} {libc : Libc WB} {backend : BleBackend WB M}.
Context {K O : Type} {psa : Psa K O} {A : Type} (V : nat -> double -> Prop).
Variable json_loads : string -> option json.
Variable service : W -> string -> W * option string.

(** Whatever the module [s0] has become when the command arrives: if it addresses one of the
    open devices for writing, it is handed to the module, whose turn writes its payload to that
    device's object through that device's socket. *)
Definition obeyed (s0 : wifi_t W) (topics : list string) (rest : string) (m : hes_clme_msg_t) : Prop :=
  forall es s didx dev d obj, wifi_run json_loads service s0 es = Some s -> addressed s m "w" = Some (didx, dev, d, obj) ->
    delivered topics m rest = true /\
    exists w c rv,
      write_object json_loads (wf_world s) (wd_sock dev) obj (msg_payload m) = (w, c, rv) /\
      wifi_message json_loads s m = Some (wifi_with_sock didx w c s).

(** C12: A press switches its bulbs. Let the tag of an online device with an index and a button
    read a value that was not the last one published on its link. Let the core's table be steady for some sets of
    numbers without NaN, one for each device: its rows come behind the rows they read, the
    values they hold and compute belong to the sets, the button's value among them, and the
    reports before this one were worked off (a row in front of a row it reads sends stale
    commands last: [stale_command_is_sent_last]). Let a WiFi module have started with its leaf on
    the core's bus, all subscriptions taken and at most 16 distinct object paths, each within
    its array, among its devices. Then the BLE module reports the button exactly once; the core's turn on that report
    ends, with the button's device holding 1 or 0 in its table and every row computed; the core
    sends one command, with the row's final value, of every row whose value changed and at most
    one of any, all of them allowed; and each command that addresses an open device of the WiFi
    module is handed to it and written to the device. *)
Theorem press_switches_its_bulbs
  hub_pub hub_sub h (w : W) rep pub mr ip bus (s0 : wifi_t W) rest fuel (st : core_t A)
  i (sb sb' : ble_t WB M) db bo devb wb tag pressed :
  (forall k v, V k v -> is_nan v = false) ->
  (* the tag *)
  dr_devices (bl_reg sb) !! i = Some db -> hd_online db = true ->
  hes_dev_object_find db HES_LX_BTN_CV = Some bo -> bl_devs sb !! i = Some devb ->
  read_button_any (bl_world sb) (bl_mgr sb) (bd_tag devb) (hd_device_index db) = (wb, tag, pressed) ->
  (bd_btn_set devb && (pressed =? bd_last_btn devb))%bool = false ->
  ble_button i sb = Some sb' -> hd_device_index db <> 0 ->
  (* the core *)
  let n := length (bm_ops (co_bm st)) in
  steady V (co_bm st) -> (n * S n ^ n < fuel)%nat ->
  (forall inp, inp ∈ concat (op_inputs <$> bm_ops (co_bm st)) -> in_device_index inp = hd_device_index db ->
     in_source_object inp = HES_LX_BTN_CV -> V (Z.to_nat (in_device_index inp)) (press_value pressed)) ->
  (* the bulbs *)
  (forall h t, nng_answer h (Subscribe SubSock t) = 0) -> closed h ->
  let leaf topics := hes_bus_leaf_open hub_pub hub_sub topics h in
  wifi_boot json_loads service w rep pub mr ip (fun topics => snd (leaf topics)) bus = Some (Some s0) ->
  Forall path_ok (object_paths (wf_reg s0)) ->
  (length (distinct_paths (wf_reg s0)) <= HES_BUS_MAX_TOPICS)%nat ->
  exists press topics st' rows commands,
    bus_extends (bl_bus sb) (bl_bus sb') [press] /\ is_press (hd_device_index db) pressed press /\
    core_message fuel st press = Some st' /\ steady V (co_bm st') /\
    holds_report press (co_bm st) (co_bm st') /\ reported press = press_value pressed /\ computed (co_bm st') /\
    bus_extends (co_bus st) (co_bus st') commands /\ commanded (co_bm st) (co_bm st') rows commands /\
    Forall (allowed_put (bm_with_current_msg (co_bm st) (Some press))) commands /\
    ss_topics <$> socket_after SubSock
      (fst (leaf (hes_devreg_collect_topics (wf_reg s0) HES_BUS_MAX_TOPICS))) = Some topics /\
    Forall (obeyed s0 topics rest) commands.
Proof.
  intros Vn Hd Hon Hbo Hdev Hr Hch Hb Hidx n Hst Hf Hin Hsub Hclosed leaf Hboot Hpaths Hfew.
  destruct (button_pressed i sb sb' db bo devb wb tag pressed) as (m & Hm & Hpress); try done.
  pose proof (press_reported _ _ _ Hpress) as Hval.
  destruct (core_report V Vn fuel st m) as (st' & rows & commands & H1 & H2 & H3 & H4 & H5 & H6); [done| |done|apply Hpress|].
  { intros _ inp Hinp Hmatch. rewrite Hval. destruct Hpress as (_ & Hpath & Hdi & _).
    unfold input_matches in Hmatch. rewrite Hpath, Hdi in Hmatch.
    apply andb_prop in Hmatch as [[_ Hso%String.eqb_eq]%andb_prop Hde].
    apply Hin; [done| |done]. apply orb_prop in Hde as [Hz%Z.eqb_eq|He%Z.eqb_eq]; [lia|done]. }
  exists m, (module_topics s0), st', rows, commands. split_and!; try done.
  - by eapply steady_computed.
  - eapply Forall_impl; [exact H6|apply authorized_put_allowed].
  - by eapply module_subscribed.
  - eapply Forall_impl; [exact H6|]. intros c (op & v & _ & _ & Hverb & _ & Hpath & _) es s didx dev d obj Hrun Ha.
    apply (module_carries_out json_loads service s0 s es rest Hrun Hpaths Hfew c didx dev d obj); [|done|done].
    rewrite Hpath. apply hes_strlcpy_fits. unfold HES_PATH_MAX. lia.
Qed.
End scene.

(** ** The statement at a concrete scene

    The simulated tag is device 6, after the turn in which its button was first reported as
    released; the core's one row switches the bulb, device 7, on while the button is down. *)
Definition scene_slice : json :=
  JObject [("devices", JArray [JObject
    [("deviceIndex", JInteger 6); ("netRefIndex", JInteger 1); ("status", JString "offline");
     ("address", JString "24:71:89:BC:32:01");
     ("objects", JArray [JObject [("lexiconPath", JString HES_LX_BTN_CV); ("access", JString "r")]])]])].

Definition scene_json (text : string) : option json := if text =?s "slice" then Some scene_slice else None.

Definition scene_tag (turns : nat) : option (ble_t Z hes_ble_mgr_t) :=
  let* booted := @ble_boot indefinite_target tag_nng _ _ tick_libc (@sim_backend _ tick_libc) scene_json tag_service true 0
    "r" "p" 3 None (fun _ => 0) (mk_bus [] (fun _ => mk_reading None 0)) in
  let* s := booted in
  @ble_run indefinite_target _ _ tick_libc (@sim_backend _ tick_libc) scene_json tag_service (fun _ => 0) s
    (repeat (mk_ble_input None (inr 5)) turns).

Lemma ex_automation_steady : steady numbers (co_bm ex_automation).
Proof. apply fresh_table_steady. by vm_compute. Qed.

(** The button goes down: one report, one command, and the bulb is written "1". *)
Lemma press_switches_its_bulbs_witness :
  exists press command topics w c rv,
    is_press 6 1 press /\ topics = [HES_LX_LIGHT_CV] /\ delivered topics command "" = true /\
    msg_path command = HES_LX_LIGHT_CV /\ msg_payload command = "1" /\
    write_object (udp := script_udp) ex_json ex_answer (mk_wiz 3 "10.0.0.7" 38899 [])
      (mk_dev_object HES_LX_LIGHT_CV "rw") (msg_payload command) = (w, c, rv).
Proof.
  destruct (scene_tag 3) as [sb|] eqn:Esb; [|exfalso; vm_compute in Esb; discriminate].
  vm_compute in Esb. injection Esb as Esb.
  destruct (@ble_button _ _ tick_libc (@sim_backend _ tick_libc) 0 sb) as [sb'|] eqn:Eb;
    [|exfalso; subst sb; vm_compute in Eb; discriminate].
  destruct (read_button_any (libc := tick_libc) (backend := @sim_backend _ tick_libc) (bl_world sb) (bl_mgr sb)
    (bd_tag (default (mk_ble_dev sensortag_init false 0) (bl_devs sb !! 0%nat))) 6) as [[wb tag] pressed] eqn:Er.
  assert (pressed = 1) as -> by (subst sb; vm_compute in Er; congruence).
  destruct (press_switches_its_bulbs (target := indefinite_target) (nng := ex_nng) (nngb := ex_calls)
    (udp := script_udp) (libc := tick_libc) (backend := @sim_backend _ tick_libc) (psa := Toy.psa) numbers
    ex_json ex_service "pub" "sub" [] ex_answer "r" "p" 3 "192.168.1.142"
    ex_bus (ex_wifi ex_answer) "" 40 ex_automation 0 sb sb'
    (default (mk_device 0 0 "" "" "" "" 0 false []) (dr_devices (bl_reg sb) !! 0%nat))
    (mk_dev_object HES_LX_BTN_CV "r") (default (mk_ble_dev sensortag_init false 0) (bl_devs sb !! 0%nat)) wb tag 1)
    as (press & topics & st' & rows & commands & [Hpr _] & Hpress & Hm & _ & _ & _ & _ & [Hs _] & _ & _ & Ht & Hall);
    try (subst sb; vm_compute; reflexivity); try done.
  - apply numbers_number.
  - subst sb. intros Hz. vm_compute in Hz. discriminate Hz.
  - exact ex_automation_steady.
  - vm_compute. lia.
  - repeat constructor; unfold HES_PATH_MAX; simpl; lia.
  - vm_compute. repeat constructor.
  - subst sb. vm_compute in Eb. injection Eb as <-. vm_compute in Hpr. injection Hpr as <-.
    vm_compute in Hm. injection Hm as <-. vm_compute in Hs. subst commands. apply Forall_cons in Hall as [Hall _].
    destruct (Hall [] (ex_wifi ex_answer) 0%nat (mk_wifi_dev 0 (mk_wiz 3 "10.0.0.7" 38899 [])) (ex_device true)
      (mk_dev_object HES_LX_LIGHT_CV "rw")) as (Hdel & w & c & rv & Hw & _); [done|vm_compute; reflexivity|].
    eexists. eexists. exists topics, w, c, rv. split; [exact Hpress|]. split; [vm_compute in Ht; by injection Ht as <-|].
    split; [exact Hdel|]. split; [reflexivity|]. split; [reflexivity|]. exact Hw.
Defined.
