(* ===== verification/Lifecycle.v ===== *)
(** * What the core allocates and releases

    Models the memory and the sockets of core_main (src/src/modules/core/core.c): the
    creation and destruction of the service objects of services/id/id.c, services/time/time.c,
    services/auth/auth.c and services/crypto/crypto.c, the handle of the synchronisation's
    thread, the app, and the bus. The objects of one service share a state that counts them;
    a block is a cell of a heap, a use of a block that is not there is undefined ([None]), and
    every secret a block still holds when it is freed is remembered. [alloc n] says whether the
    n-th allocation succeeds. The tree jansson builds of the identity document is one block,
    freed as it is (json_decref erases nothing); what jansson and stdio allocate and free while
    they read the file is theirs and not modelled. *)

From stdpp Require Import gmap.
From S2P Require Import Prelude CLib HesCommon Bus.

(** ** The heap *)

Inductive cell :=
| ServiceObject (state : option nat)
| ServiceState (refs : Z) (secret : bool)
| Document (fingerprint : bool)
| Handle.

Record mem := mk_mem {
  mm_heap : gmap nat cell;
  mm_next : nat;
  mm_spilled : list cell;
}.

Definition with_heap (h : gmap nat cell) (m : mem) : mem := mk_mem h (mm_next m) (mm_spilled m).

Definition holds_secret (c : cell) : bool :=
  match c with ServiceState _ s | Document s => s | _ => false end.

Definition secret_of (c : cell) : list cell := if holds_secret c then [c] else [].

Definition write (p : nat) (c : cell) (m : mem) : option mem :=
  match mm_heap m !! p with Some _ => Some (with_heap (<[p := c]> (mm_heap m)) m) | None => None end.

Definition free (p : nat) (m : mem) : option mem :=
  match mm_heap m !! p with
  | Some c => Some (mk_mem (delete p (mm_heap m)) (mm_next m) (mm_spilled m ++ secret_of c))
  | None => None
  end.

(** A NULL pointer is [None]. *)
Definition free_ptr (p : option nat) (m : mem) : option mem :=
  match p with Some p => free p m | None => Some m end.

Section lifecycle.
Variable alloc : nat -> bool.

Definition calloc (c : cell) (m : mem) : option nat * mem :=
  if alloc (mm_next m)
  then (Some (mm_next m), mk_mem (<[mm_next m := c]> (mm_heap m)) (S (mm_next m)) (mm_spilled m))
  else (None, mk_mem (mm_heap m) (S (mm_next m)) (mm_spilled m)).

(** ** Service objects *)

(** What a service erases before it frees its state: all of it, the key, or nothing. *)
Inductive wiping := WipeState | WipeKey | WipeNothing.

Definition scrub (k : wiping) (st : nat) (m : mem) : option mem :=
  match mm_heap m !! st with
  | Some (ServiceState refs secret) =>
      match k with
      | WipeState => write st (ServiceState 0 false) m
      | WipeKey => write st (ServiceState refs false) m
      | WipeNothing => Some m
      end
  | _ => match k with WipeNothing => Some m | _ => None end
  end.

(** [id_destroy], [time_destroy] and [crypto_destroy]. *)
Definition shared_destroy (k : wiping) (so : nat) (m : mem) : option mem :=
  match mm_heap m !! so with
  | Some (ServiceObject None) => Some m
  | Some (ServiceObject (Some st)) =>
      let* m := write so (ServiceObject None) m in
      match mm_heap m !! st with
      | Some (ServiceState refs secret) =>
          let* m := write st (ServiceState (refs - 1) secret) m in
          if 0 <? refs - 1 then Some m else let* m := scrub k st m in free st m
      | _ => None
      end
  | _ => None
  end.

Definition auth_destroy (so : nat) (m : mem) : option mem :=
  match mm_heap m !! so with Some (ServiceObject st) => free_ptr st m | _ => None end.

(** An entry of the core's array: the object, NULL or not, and its [destroy]. *)
Record object := mk_object { ob_ptr : option nat; ob_destroy : nat -> mem -> option mem }.

(** [objs[i]->destroy(objs[i]); free(objs[i]);] over the array. *)
Fixpoint release (objs : list object) (m : mem) : option mem :=
  match objs with
  | [] => Some m
  | o :: objs =>
      let* so := ob_ptr o in
      let* m := ob_destroy o so m in
      let* m := free so m in
      release objs m
  end.

Definition retain (st : nat) (m : mem) : option mem :=
  match mm_heap m !! st with
  | Some (ServiceState refs secret) => write st (ServiceState (refs + 1) secret) m
  | _ => None
  end.

Definition shared (k : wiping) (so : nat) : object := mk_object (Some so) (shared_destroy k).

(** The loop over a service's addresses; [out] holds the objects created so far. The first
    component is the array filled, [None] for the return value -1. *)
Fixpoint create_objects (k : wiping) (remaining : nat) (st : nat) (out : list nat) (m : mem)
  : option (option (list nat) * mem) :=
  match remaining with
  | O => Some (Some out, m)
  | S remaining =>
      match calloc (ServiceObject None) m with
      | (None, m) =>
          let* m := release (shared k <$> out) m in
          let* m := scrub k st m in
          let* m := free st m in
          Some (None, m)
      | (Some so, m) =>
          let* m := write so (ServiceObject (Some st)) m in
          let* m := retain st m in
          create_objects k remaining st (out ++ [so]) m
      end
  end.

Definition ID_SERVICE_OBJECT_COUNT : nat := 3.
Definition TIME_SERVICE_OBJECT_COUNT : nat := 3.
Definition CRYPTO_SERVICE_OBJECT_COUNT : nat := 2.

(** The file [--identity] names: it cannot be read or parsed; it is JSON without a well-formed
    [fp]; it has one but is refused, since no key is derived from it or its [pi] disagrees; or it
    is a valid identity. *)
Inductive identity_document := Unreadable | NoFingerprint | Refused | Valid.

Definition has_fingerprint (d : identity_document) : bool :=
  match d with Refused | Valid => true | _ => false end.

(** The fingerprint is copied to the state; the tree it is copied from is freed unerased. The
    first component tells the return value 0. *)
Definition load_identity (st : nat) (d : identity_document) (m : mem) : option (bool * mem) :=
  match d with
  | Unreadable => Some (false, m)
  | _ =>
      match calloc (Document (has_fingerprint d)) m with
      | (None, m) => Some (false, m)
      | (Some root, m) =>
          let* m := if has_fingerprint d then write st (ServiceState 0 true) m else Some m in
          let* m := free root m in
          Some (match d with Valid => true | _ => false end, m)
      end
  end.

(** [identity] is [None] when no document was named. *)
Definition id_service_create (identity : option identity_document) (m : mem)
  : option (option (list nat) * mem) :=
  match identity with
  | None => Some (None, m)
  | Some d =>
      match calloc (ServiceState 0 false) m with
      | (None, m) => Some (None, m)
      | (Some st, m) =>
          let* (loads, m) := load_identity st d m in
          if loads then create_objects WipeState ID_SERVICE_OBJECT_COUNT st [] m
          else let* m := scrub WipeState st m in let* m := free st m in Some (None, m)
      end
  end.

Definition time_service_create (m : mem) : option (option (list nat) * mem) :=
  match calloc (ServiceState 0 false) m with
  | (None, m) => Some (None, m)
  | (Some st, m) => create_objects WipeNothing TIME_SERVICE_OBJECT_COUNT st [] m
  end.

Definition crypto_service_create (m : mem) : option (option (list nat) * mem) :=
  match calloc (ServiceState 0 false) m with
  | (None, m) => Some (None, m)
  | (Some st, m) => create_objects WipeKey CRYPTO_SERVICE_OBJECT_COUNT st [] m
  end.

(** The state holds the policy's credentials, which nothing erases; it counts as no secret of
    the gateway's. *)
Definition auth_service_create (m : mem) : option (option nat * mem) :=
  let '(so, m) := calloc (ServiceObject None) m in
  let '(st, m) := calloc (ServiceState 1 false) m in
  match so, st with
  | Some so, Some st =>
      let* m := write so (ServiceObject (Some st)) m in
      Some (Some so, m)
  | _, _ => let* m := free_ptr so m in let* m := free_ptr st m in Some (None, m)
  end.

Definition crypto_service_set_identity_key (so : nat) (m : mem) : option mem :=
  match mm_heap m !! so with
  | Some (ServiceObject (Some st)) =>
      match mm_heap m !! st with
      | Some (ServiceState refs _) => write st (ServiceState refs true) m
      | _ => None
      end
  | _ => None
  end.

(** ** The module *)

Definition time_sync_start (thread : bool) (m : mem) : option (option nat * mem) :=
  match calloc Handle m with
  | (None, m) => Some (None, m)
  | (Some ts, m) => if thread then Some (Some ts, m) else let* m := free ts m in Some (None, m)
  end.

Definition time_sync_stop (ts : option nat) (m : mem) : option mem := free_ptr ts m.

Definition app_lua_create (m : mem) : option (nat * mem) :=
  match calloc Handle m with (Some app, m) => Some (app, m) | (None, _) => None end.

Definition app_lua_destroy (app : nat) (m : mem) : option mem := free app m.

(** The loop reads every object of the array at each turn. *)
Definition touch (objs : list object) (m : mem) : option unit :=
  if forallb (fun o => match ob_ptr o with
                       | Some so => bool_decide (is_Some (mm_heap m !! so))
                       | None => false
                       end) objs
  then Some tt else None.

(** What the start-up depends on. *)
Record start_env := mk_start_env {
  se_identity : option identity_document;
  se_thread : bool;
  se_key : bool;
  se_pub_url : string;
  se_sub_url : string;
}.

Context {nng : NngBus}.

Definition id_array (ids : list nat) : list object := shared WipeState <$> ids.
Definition time_array (ts : list nat) : list object := shared WipeNothing <$> ts.
Definition crypto_array (cs : list nat) : list object := shared WipeKey <$> cs.
Definition auth_entry (auth : option nat) : object := mk_object auth auth_destroy.

Definition core_fail (ts : option nat) (objs : list object) (m : mem) (h : history)
  : option (Z * mem * history) :=
  let* m := time_sync_stop ts m in
  let* m := release objs m in
  Some (1, m, hes_bus_close h).

(** Start-up from the creation of the cryptographic service on, the loop's use of the
    objects, and the shutdown; the exit status, the memory and the bus's calls. *)
Definition core_rest (e : start_env) (ts : option nat) (objs : list object) (m : mem) (h : history)
  : option (Z * mem * history) :=
  let* (cryptos, m) := crypto_service_create m in
  match cryptos with
  | None => core_fail ts objs m h
  | Some cryptos =>
      let objs := objs ++ crypto_array cryptos in
      if negb (se_key e) then core_fail ts objs m h
      else
        let* ci := cryptos !! 1%nat in
        let* m := crypto_service_set_identity_key ci m in
        let* (app, m) := app_lua_create m in
        let* _ := touch objs m in
        let* m := app_lua_destroy app m in
        let* m := release objs m in
        let* m := time_sync_stop ts m in
        Some (0, m, hes_bus_close h)
  end.

Definition core_main (e : start_env) (m : mem) (h : history) : option (Z * mem * history) :=
  let* (ids, m) := id_service_create (se_identity e) m in
  match ids with
  | None => Some (1, m, h)
  | Some ids =>
      let '(h, rv) := hes_bus_hub_open (se_pub_url e) (se_sub_url e) h in
      if negb (rv =? 0) then let* m := release (id_array ids) m in Some (1, m, h)
      else
        let* (ts, m) := time_sync_start (se_thread e) m in
        let* (times, m) := time_service_create m in
        match times with
        | None => core_fail ts (id_array ids) m h
        | Some times =>
            let* (auth, m) := auth_service_create m in
            core_rest e ts (id_array ids ++ time_array times ++ [auth_entry auth]) m h
        end
  end.
End lifecycle.
