(* ===== verification/LifecycleFacts.v ===== *)
(** * That the core releases what it acquires

    The theorems on [Lifecycle]: what creating, destroying and freeing the objects of a
    service does to the heap, layers of objects that own disjoint cells, the run of
    core_main, and the error path that frees a state twice. *)

From stdpp Require Import gmap.
From S2P Require Import Prelude CLib HesCommon Bus Lifecycle.

(** ** The heap, cell by cell *)

(** Every cell is below the next pointer. *)
Definition fresh (m : mem) : Prop := forall p c, mm_heap m !! p = Some c -> (p < mm_next m)%nat.

Definition drop_cells (ps : list nat) (h : gmap nat cell) : gmap nat cell := foldr delete h ps.

Lemma lookup_drop_cells ps h p : drop_cells ps h !! p = if decide (p ∈ ps) then None else h !! p.
Proof.
  induction ps as [|q ps IH]; cbn [drop_cells foldr]; [done|]. fold (drop_cells ps h).
  destruct (decide (p = q)) as [->|Hne].
  - rewrite lookup_delete_eq. by rewrite decide_True by by left.
  - rewrite lookup_delete_ne, IH by done.
    destruct (decide (p ∈ ps)); [rewrite decide_True by by right|rewrite decide_False]; try done.
    by intros [?|?]%elem_of_cons.
Qed.

(** The objects [objs] share the state [st]. *)
Record group (m : mem) (st : nat) (objs : list nat) (secret : bool) : Prop := {
  gr_state : mm_heap m !! st = Some (ServiceState (Z.of_nat (length objs)) secret);
  gr_objects : forall o, o ∈ objs -> mm_heap m !! o = Some (ServiceObject (Some st));
  gr_nodup : NoDup (st :: objs);
}.

Lemma group_frame m m' st objs secret :
  (forall p, p ∈ st :: objs -> mm_heap m' !! p = mm_heap m !! p) -> group m st objs secret -> group m' st objs secret.
Proof.
  intros H [Hs Ho Hn]. split; [|intros o Hin|done].
  - rewrite H by by left. done.
  - rewrite H by by right. by apply Ho.
Qed.

(** Erasing before the state is freed. *)
Definition keeps_quiet (k : wiping) (secret : bool) : Prop := k = WipeNothing -> secret = false.

Lemma scrub_free k st m refs secret :
  mm_heap m !! st = Some (ServiceState refs secret) -> keeps_quiet k secret ->
  (let* m := scrub k st m in free st m) = Some (mk_mem (delete st (mm_heap m)) (mm_next m) (mm_spilled m)).
Proof.
  intros Hs Hk. unfold scrub. rewrite Hs. unfold write. rewrite Hs. destruct k; cbn [mbind option_bind]; unfold free, with_heap; cbn.
  - rewrite lookup_insert_eq. cbn. by rewrite delete_insert_eq, app_nil_r.
  - rewrite lookup_insert_eq. cbn. by rewrite delete_insert_eq, app_nil_r.
  - rewrite Hs. cbn. by rewrite Hk, app_nil_r.
Qed.

(** Destroying and freeing one object: the last one takes the state with it. *)
Lemma destroy_one k o objs st m secret :
  group m st (o :: objs) secret -> keeps_quiet k secret ->
  (let* m := shared_destroy k o m in free o m) =
  Some (mk_mem (match objs with
                | [] => delete st (delete o (mm_heap m))
                | _ => <[st := ServiceState (Z.of_nat (length objs)) secret]> (delete o (mm_heap m))
                end) (mm_next m) (mm_spilled m)).
Proof.
  intros [Hs Ho Hn] Hk. inversion Hn as [|? ? Hst _]; subst.
  assert (Hso : st <> o) by (intros ->; apply Hst; by left).
  unfold shared_destroy. rewrite (Ho o) by by left. unfold write at 1. rewrite (Ho o) by by left.
  cbn [mbind option_bind with_heap mm_heap]. rewrite lookup_insert_ne, Hs by done.
  unfold write. cbn [with_heap mm_heap]. rewrite lookup_insert_ne, Hs by done. cbn [mbind option_bind].
  replace (Z.of_nat (length (o :: objs)) - 1) with (Z.of_nat (length objs)) by (simpl; lia).
  unfold with_heap. cbn [mm_heap mm_next mm_spilled]. destruct objs as [|o' objs].
  - replace (0 <? Z.of_nat (length [])) with false by done.
    rewrite (scrub_free k st _ (Z.of_nat 0) secret) by (cbn [mm_heap]; by rewrite ?lookup_insert_eq).
    cbn [mbind option_bind]. unfold free. cbn [mm_heap mm_next mm_spilled].
    rewrite delete_insert_eq, lookup_delete_ne, lookup_insert_eq by done. cbn [holds_secret].
    by rewrite app_nil_r, delete_delete, delete_insert_eq.
  - replace (0 <? Z.of_nat (length (o' :: objs))) with true by (symmetry; apply Z.ltb_lt; simpl; lia).
    cbn [mbind option_bind]. unfold free. cbn [mm_heap mm_next mm_spilled].
    rewrite lookup_insert_ne, lookup_insert_eq by done. cbn [holds_secret].
    by rewrite app_nil_r, delete_insert_ne, delete_insert_eq by done.
Qed.

(** Destroying and freeing the objects of a service releases them and their state. *)
Lemma release_group k objs st m secret :
  group m st objs secret -> objs <> [] -> keeps_quiet k secret ->
  release (shared k <$> objs) m = Some (mk_mem (drop_cells (st :: objs) (mm_heap m)) (mm_next m) (mm_spilled m)).
Proof.
  revert m. induction objs as [|o objs IH]; intros m Hg Hne Hk; [done|].
  pose proof (destroy_one k o objs st m secret Hg Hk) as H1. destruct Hg as [Hs Ho Hn].
  inversion Hn as [|? ? Hst Hn2]; subst. inversion Hn2 as [|? ? Hoo Hn3]; subst.
  cbn [fmap list_fmap release shared ob_ptr ob_destroy mbind option_bind] in *.
  destruct (shared_destroy k o m) as [m1|]; [|done]. cbn [mbind option_bind] in *. rewrite H1. cbn [mbind option_bind].
  destruct objs as [|o' objs]; [done|]. rewrite IH; [|split|done|done].
  - cbn [mm_heap mm_next mm_spilled]. do 2 f_equal. apply map_eq. intros p. rewrite !lookup_drop_cells.
    destruct (decide (p ∈ st :: o' :: objs)) as [Hin|[Hps Hin]%not_elem_of_cons].
    { rewrite decide_True; [done|]. apply elem_of_cons in Hin as [->|Hin]; [by left|right; by right]. }
    rewrite lookup_insert_ne by done. destruct (decide (p = o)) as [->|Hpo].
    + rewrite lookup_delete_eq, decide_True; [done|]. right. by left.
    + rewrite lookup_delete_ne, decide_False; [done| |done]. by rewrite !not_elem_of_cons in *.
  - cbn [mm_heap]. by rewrite lookup_insert_eq.
  - cbn [mm_heap]. intros x Hx. rewrite lookup_insert_ne, lookup_delete_ne;
      [apply Ho; by right|by intros ->|intros ->; apply Hst; by right].
  - constructor; [|done]. intros Hin. apply Hst. by right.
Qed.

Section creation.
Variable alloc : nat -> bool.

Lemma fresh_insert p c m : fresh m -> mm_next m = p ->
  fresh (mk_mem (<[p := c]> (mm_heap m)) (S p) (mm_spilled m)).
Proof.
  intros Hf <- q d. cbn. intros [[<- _]|[_ Hq]]%lookup_insert_Some; [lia|]. apply Hf in Hq. lia.
Qed.

Lemma fresh_le m m' : (forall p, mm_heap m' !! p = mm_heap m !! p \/ mm_heap m' !! p = None) ->
  (mm_next m <= mm_next m')%nat -> fresh m -> fresh m'.
Proof.
  intros Hh Hn Hf p c Hp. destruct (Hh p) as [E|E]; rewrite E in Hp; [|done]. apply Hf in Hp. lia.
Qed.

(** A new object joins a service. *)
Lemma add_object st objs secret m : fresh m -> group m st objs secret ->
  let so := mm_next m in
  exists m', (let* m := write so (ServiceObject (Some st))
                 (mk_mem (<[so := ServiceObject None]> (mm_heap m)) (S so) (mm_spilled m)) in
              retain st m) = Some m' /\
    group m' st (objs ++ [so]) secret /\ fresh m' /\ mm_next m' = S so /\ mm_spilled m' = mm_spilled m /\
    forall p, p <> st -> p <> so -> mm_heap m' !! p = mm_heap m !! p.
Proof.
  intros Hf [Hs Ho Hn] so.
  assert (Hst : st <> so) by (intros ->; apply Hf in Hs; unfold so in *; lia).
  assert (Hso : forall p, p ∈ objs -> p <> so) by (intros p Hp ->; apply Ho, Hf in Hp; unfold so in *; lia).
  unfold write at 1. cbn [mm_heap]. rewrite lookup_insert_eq. cbn [mbind option_bind with_heap mm_heap mm_next mm_spilled].
  unfold with_heap. cbn [mm_heap mm_next mm_spilled]. rewrite insert_insert_eq.
  unfold retain. cbn [mm_heap]. rewrite lookup_insert_ne, Hs by congruence.
  unfold write. cbn [mm_heap]. rewrite lookup_insert_ne, Hs by congruence. unfold with_heap. cbn [mm_heap mm_next mm_spilled].
  eexists. split; [done|]. cbn [mm_heap mm_next mm_spilled]. split; [split|split; [|split; [done|split; [done|]]]]; cbn [mm_heap].
  - rewrite lookup_insert_eq, length_app. do 2 f_equal. simpl. lia.
  - intros p [Hp|Hp%list_elem_of_singleton]%elem_of_app.
    + rewrite !lookup_insert_ne; [by apply Ho|symmetry; by apply Hso|].
      intros <-. inversion Hn as [|? ? Hni _]; subst. done.
    + subst p. by rewrite lookup_insert_ne, lookup_insert_eq.
  - inversion Hn as [|? ? Hni Hnd]; subst. constructor.
    + intros [?|?%list_elem_of_singleton]%elem_of_app; congruence.
    + apply NoDup_app. split; [done|]. split; [|apply NoDup_singleton].
      intros p Hp ->%list_elem_of_singleton. by apply (Hso so).
  - intros p c. cbn [mm_heap mm_next]. intros [[<- _]|[_ [[<- _]|[_ Hp]]%lookup_insert_Some]]%lookup_insert_Some.
    + apply Hf in Hs. lia.
    + lia.
    + apply Hf in Hp. unfold so. lia.
  - intros p Hp1 Hp2. by rewrite !lookup_insert_ne by congruence.
Qed.

(** The loop over a service's addresses: the group it leaves, the state freed when the first
    object could not be allocated, and undefined behaviour exactly when a later one could not. *)
Lemma create_objects_spec k n st out m secret :
  fresh m -> group m st out secret -> keeps_quiet k secret ->
  match create_objects alloc k n st out m with
  | Some (Some objs, m') =>
      exists new, objs = out ++ new /\ length new = n /\ group m' st objs secret /\
        (forall i, (i < n)%nat -> alloc (mm_next m + i)%nat = true) /\
        Forall (fun p => mm_next m <= p < mm_next m')%nat new /\ (mm_next m <= mm_next m')%nat /\
        fresh m' /\ mm_spilled m' = mm_spilled m /\
        forall p, p <> st -> p ∉ new -> mm_heap m' !! p = mm_heap m !! p
  | Some (None, m') =>
      out = [] /\ alloc (mm_next m) = false /\ (0 < n)%nat /\
      m' = mk_mem (delete st (mm_heap m)) (S (mm_next m)) (mm_spilled m)
  | None => exists i, (i < n)%nat /\ alloc (mm_next m + i)%nat = false /\ (out <> [] \/ i <> O)
  end.
Proof.
  revert out m. induction n as [|n IH]; intros out m Hf Hg Hk; cbn [create_objects].
  { exists []. rewrite app_nil_r. split_and!; first [done|lia|constructor]. }
  unfold calloc. destruct (alloc (mm_next m)) eqn:Ea.
  - destruct (add_object _ _ _ _ Hf Hg) as (m1 & E1 & Hg1 & Hf1 & Hn1 & Hs1 & Hh1).
    destruct (write _ _ _) as [m0|]; [|done]. cbn [mbind option_bind] in *. rewrite E1. cbn [mbind option_bind].
    specialize (IH _ _ Hf1 Hg1 Hk). rewrite Hn1 in IH.
    destruct (create_objects alloc k n st _ m1) as [[[objs|] m']|].
    + destruct IH as (new & -> & Hl & Hg' & Hal & Hr & Hle & Hf' & Hs' & Hh').
      exists (mm_next m :: new). rewrite <- app_assoc in *. cbn [app length] in *.
      do 3 (split; [auto with lia|]). split; [|split; [|split; [lia|split; [done|split; [congruence|]]]]].
      * intros [|i] Hi; [by rewrite Nat.add_0_r|]. rewrite <- (Hal i) by lia. f_equal. lia.
      * constructor; [lia|]. eapply Forall_impl; [exact Hr|]. simpl. lia.
      * intros p Hp [Hp1 Hp2]%not_elem_of_cons. by rewrite Hh', Hh1.
    + destruct IH as [Hnil _]. by destruct out.
    + destruct IH as (i & Hi & Hal & _). exists (S i). split; [lia|]. rewrite <- Hal. split; [f_equal; lia|by right].
  - destruct out as [|o out].
    + cbn [release fmap list_fmap mbind option_bind].
      pose proof (scrub_free k st (mk_mem (mm_heap m) (S (mm_next m)) (mm_spilled m)) _ _ (gr_state _ _ _ _ Hg) Hk) as Hsf.
      destruct (scrub _ _ _) as [m1|]; [|done]. cbn [mbind option_bind] in *. rewrite Hsf. cbn [mbind option_bind].
      split_and!; try done. lia.
    + rewrite (release_group k (o :: out) st _ secret); [|by eapply group_frame; [|exact Hg]|done|done].
      cbn [mbind option_bind mm_heap mm_next mm_spilled].
      assert (Hd : drop_cells (st :: o :: out) (mm_heap m) !! st = None)
        by (rewrite lookup_drop_cells, decide_True; [done|by left]).
      unfold scrub. cbn [mm_heap]. rewrite Hd.
      destruct k; cbn [mbind option_bind]; try (exists O; rewrite Nat.add_0_r; split_and!; [lia|done|by left]).
      unfold free. cbn [mm_heap]. rewrite Hd. cbn [mbind option_bind].
      exists O. rewrite Nat.add_0_r. split_and!; [lia|done|by left].
Qed.

(** From [m] to [m'] a service with these objects was created, and nothing else moved. *)
Record made (m m' : mem) (st : nat) (objs : list nat) (secret : bool) : Prop := {
  md_group : group m' st objs secret;
  md_range : Forall (fun p => mm_next m <= p < mm_next m')%nat (st :: objs);
  md_fresh : fresh m';
  md_spilled : mm_spilled m' = mm_spilled m;
  md_frame : forall p, p ∉ st :: objs -> mm_heap m' !! p = mm_heap m !! p;
}.

Record unchanged (m m' : mem) : Prop := {
  un_heap : mm_heap m' = mm_heap m;
  un_fresh : fresh m';
  un_spilled : mm_spilled m' = mm_spilled m;
  un_next : (mm_next m <= mm_next m')%nat;
}.

Lemma unchanged_at n m : fresh m -> (mm_next m <= n)%nat -> unchanged m (mk_mem (mm_heap m) n (mm_spilled m)).
Proof. intros Hf Hn. split; cbn; try done. intros p c Hp. apply Hf in Hp. cbn. lia. Qed.

Definition created (k : wiping) (n : nat) (secret : bool) (m : mem) (r : option (option (list nat) * mem)) : Prop :=
  match r with
  | Some (Some objs, m') => length objs = n /\ exists st, made m m' st objs secret
  | Some (None, m') => unchanged m m'
  | None => exists i, alloc i = false
  end.

Lemma fresh_none m : fresh m -> mm_heap m !! mm_next m = None.
Proof. intros Hf. destruct (mm_heap m !! mm_next m) eqn:E; [|done]. apply Hf in E. lia. Qed.

Lemma create_objects_from k n secret m next : fresh m -> keeps_quiet k secret -> (mm_next m < next)%nat ->
  created k n secret m (create_objects alloc k n (mm_next m) []
    (mk_mem (<[mm_next m := ServiceState 0 secret]> (mm_heap m)) next (mm_spilled m))).
Proof.
  intros Hf Hk Hnx. set (m1 := mk_mem _ _ _). pose proof (fresh_none m Hf) as Hnone.
  assert (Hf1 : fresh m1).
  { intros q d. cbn. intros [[<- _]|[_ Hq]]%lookup_insert_Some; [lia|]. apply Hf in Hq. lia. }
  assert (Hg1 : group m1 (mm_next m) [] secret).
  { split; [cbn; by rewrite lookup_insert_eq|by intros o ?%elem_of_nil|apply NoDup_singleton]. }
  pose proof (create_objects_spec k n (mm_next m) [] m1 secret Hf1 Hg1 Hk) as H.
  destruct (create_objects alloc k n (mm_next m) [] m1) as [[[objs|] m']|]; cbn [created].
  - destruct H as (new & -> & Hl & Hg & _ & Hr & Hle & Hf' & Hs & Hh). cbn [app mm_next m1] in *.
    split; [done|]. exists (mm_next m). split; [done| |done|done|].
    + constructor; [lia|]. eapply Forall_impl; [exact Hr|]. simpl. lia.
    + intros p [Hp1 Hp2]%not_elem_of_cons. rewrite Hh by done. cbn. by rewrite lookup_insert_ne.
  - destruct H as (_ & _ & _ & ->). cbn [mm_heap mm_next mm_spilled m1]. rewrite delete_insert_id by done.
    by apply unchanged_at; [|lia].
  - destruct H as (i & _ & Ha & _). by eexists.
Qed.

(** The memory with the secrets of some freed blocks more left in it. *)
Definition spill (l : list cell) (m : mem) : mem := mk_mem (mm_heap m) (mm_next m) (mm_spilled m ++ l).

(** What load_identity leaves in freed memory: the tree of a document that holds a fingerprint,
    when there was memory for the state and the tree. *)
Definition tree_left (identity : option identity_document) (m : mem) : list cell :=
  match identity with
  | Some d => if alloc (mm_next m) && alloc (S (mm_next m)) && has_fingerprint d then [Document true] else []
  | None => []
  end.

Lemma spill_nil m : spill [] m = m.
Proof. unfold spill. rewrite app_nil_r. by destruct m. Qed.

Lemma spill_fresh l m : fresh m -> fresh (spill l m).
Proof. done. Qed.

(** The next pointer after load_identity. *)
Definition next_after_load (d : identity_document) (n : nat) : nat :=
  match d with Unreadable => n | _ => S n end.

Lemma load_identity_spec st d m : fresh m -> mm_heap m !! st = Some (ServiceState 0 false) ->
  let read := (alloc (mm_next m) && has_fingerprint d)%bool in
  load_identity alloc st d m =
    Some (match d with Valid => alloc (mm_next m) | _ => false end,
      mk_mem (<[st := ServiceState 0 read]> (mm_heap m)) (next_after_load d (mm_next m))
        (mm_spilled m ++ if read then [Document true] else [])).
Proof.
  intros Hf Hst read. subst read. pose proof (fresh_none m Hf) as Hnone. unfold load_identity, calloc.
  assert (Hne : st <> mm_next m) by congruence.
  assert (Hid : <[st := ServiceState 0 false]> (mm_heap m) = mm_heap m) by by apply insert_id.
  destruct d; [rewrite andb_false_r; cbn; by destruct m; cbn in *; rewrite Hid, app_nil_r|..];
    (destruct (alloc (mm_next m)) eqn:Ea; cbn [andb has_fingerprint];
      [|by cbn; rewrite Hid, app_nil_r]).
  - cbn [mbind option_bind]. unfold free. cbn [mm_heap mm_next mm_spilled].
    rewrite lookup_insert_eq. cbn [mbind option_bind secret_of holds_secret].
    by rewrite delete_insert_id, Hid by done.
  - unfold write, free. cbn [mm_heap mm_next mm_spilled].
    rewrite lookup_insert_ne, Hst by done. cbn [mbind option_bind with_heap mm_heap].
    rewrite lookup_insert_ne, lookup_insert_eq by done. cbn [mbind option_bind mm_heap mm_next mm_spilled with_heap].
    by rewrite delete_insert_ne, delete_insert_id by done.
  - unfold write, free. cbn [mm_heap mm_next mm_spilled].
    rewrite lookup_insert_ne, Hst by done. cbn [mbind option_bind with_heap mm_heap].
    rewrite lookup_insert_ne, lookup_insert_eq by done. cbn [mbind option_bind mm_heap mm_next mm_spilled with_heap].
    by rewrite delete_insert_ne, delete_insert_id by done.
Qed.

Lemma id_create_spec identity m : fresh m ->
  created WipeState 3 true (spill (tree_left identity m) m) (id_service_create alloc identity m).
Proof.
  intros Hf. unfold id_service_create, tree_left.
  destruct identity as [d|]; [|rewrite spill_nil; by split]. unfold calloc at 1.
  destruct (alloc (mm_next m)) eqn:Ea; cbn [andb]; [|rewrite spill_nil; by apply unchanged_at; [|lia]].
  pose proof (fresh_none m Hf) as Hnone.
  pose proof (load_identity_spec (mm_next m) d
    (mk_mem (<[mm_next m := ServiceState 0 false]> (mm_heap m)) (S (mm_next m)) (mm_spilled m)))
    as E. cbv zeta in E. rewrite E; [|by apply fresh_insert|cbn; by rewrite lookup_insert_eq]. clear E.
  cbn [mm_next]. set (n := next_after_load _ _). assert (Hn : (mm_next m < n)%nat) by (subst n; destruct d; cbn; lia).
  cbn [mm_heap mm_next mm_spilled mbind option_bind] in *. rewrite insert_insert_eq.
  set (l := if (alloc (S (mm_next m)) && has_fingerprint d)%bool then _ else _).
  destruct (match d with Valid => alloc (S (mm_next m)) | _ => false end) eqn:El.
  - destruct d; try discriminate El. cbn [has_fingerprint]. rewrite El. cbn [andb].
    by apply (create_objects_from WipeState 3 true (spill l m)); [|done|cbn; lia].
  - pose proof (scrub_free WipeState (mm_next m) (mk_mem (<[mm_next m :=
        ServiceState 0 (alloc (S (mm_next m)) && has_fingerprint d)]> (mm_heap m)) n (mm_spilled m ++ l)) 0 (alloc (S (mm_next m)) && has_fingerprint d)) as Hs.
    cbn [mm_heap mm_next mm_spilled] in Hs. rewrite lookup_insert_eq in Hs. specialize (Hs eq_refl ltac:(done)).
    destruct (scrub _ _ _) as [m1|]; [|done]. cbn [mbind option_bind] in *. rewrite Hs.
    cbn [mbind option_bind created]. rewrite delete_insert_id by done. by apply (unchanged_at n (spill l m)); [|cbn; lia].
Qed.

Lemma time_create_spec m : fresh m -> created WipeNothing 3 false m (time_service_create alloc m).
Proof.
  intros Hf. unfold time_service_create, calloc. destruct (alloc (mm_next m)); [|by apply unchanged_at; [|lia]].
  by apply create_objects_from; [..|lia].
Qed.

Lemma crypto_create_spec m : fresh m -> created WipeKey 2 false m (crypto_service_create alloc m).
Proof.
  intros Hf. unfold crypto_service_create, calloc. destruct (alloc (mm_next m)); [|by apply unchanged_at; [|lia]].
  by apply create_objects_from; [..|lia].
Qed.

(** The authorization object and its state, or nothing. *)
Lemma auth_create_spec m : fresh m ->
  exists r m', auth_service_create alloc m = Some (r, m') /\
  match r with
  | Some so => exists st, mm_heap m' !! so = Some (ServiceObject (Some st)) /\
      mm_heap m' !! st = Some (ServiceState 1 false) /\ so <> st /\
      (mm_next m <= so < mm_next m')%nat /\ (mm_next m <= st < mm_next m')%nat /\
      fresh m' /\ mm_spilled m' = mm_spilled m /\
      forall p, p <> so -> p <> st -> mm_heap m' !! p = mm_heap m !! p
  | None => unchanged m m' /\ exists n, alloc n = false
  end.
Proof.
  intros Hf. unfold auth_service_create, calloc. pose proof (fresh_none m Hf) as Hnone. set (so := mm_next m) in *.
  assert (Hnone2 : mm_heap m !! S so = None).
  { destruct (mm_heap m !! S so) eqn:E; [|done]. apply Hf in E. unfold so in E. lia. }
  destruct (alloc so) eqn:E1; cbn [mm_heap mm_next mm_spilled]; destruct (alloc (S so)) eqn:E2;
    cbn [mm_heap mm_next mm_spilled free_ptr mbind option_bind].
  - unfold write. cbn [mm_heap]. rewrite lookup_insert_ne, lookup_insert_eq by lia. cbn [mbind option_bind with_heap mm_heap].
    eexists _, _. split; [done|]. exists (S so). unfold with_heap. cbn [mm_heap mm_next mm_spilled].
    rewrite lookup_insert_eq, lookup_insert_ne, lookup_insert_eq by lia. split_and!; try done; try lia.
    + intros p c. cbn [mm_heap mm_next].
      intros [[<- _]|[_ [[<- _]|[_ [[<- _]|[_ Hp]]%lookup_insert_Some]]%lookup_insert_Some]]%lookup_insert_Some; try lia.
      apply Hf in Hp. unfold so. lia.
    + intros p ? ?. by rewrite !lookup_insert_ne.
  - unfold free. cbn [mm_heap]. rewrite lookup_insert_eq. cbn [mbind option_bind holds_secret mm_heap mm_next mm_spilled].
    eexists _, _. split; [done|]. rewrite delete_insert_id, app_nil_r by done.
    split; [by apply unchanged_at; [|unfold so; lia]|by eexists].
  - unfold free. cbn [mm_heap]. rewrite lookup_insert_eq. cbn [mbind option_bind holds_secret mm_heap mm_next mm_spilled].
    eexists _, _. split; [done|]. rewrite delete_insert_id, app_nil_r by done.
    split; [by apply unchanged_at; [|unfold so; lia]|by eexists].
  - eexists _, _. split; [done|]. split; [by apply unchanged_at; [|unfold so; lia]|by eexists].
Qed.
End creation.

(** ** Layers

    The array of objects seen as layers, each with the cells it owns. *)

(** These objects are there and own these cells: releasing them frees exactly the cells, as
    long as the cells are as they are in [m]. *)
Record owns (objs : list object) (ps : list nat) (m : mem) : Prop := {
  ow_releases : forall m', (forall p, p ∈ ps -> mm_heap m' !! p = mm_heap m !! p) ->
    release objs m' = Some (mk_mem (drop_cells ps (mm_heap m')) (mm_next m') (mm_spilled m'));
  ow_there : forall o, o ∈ objs -> exists so, ob_ptr o = Some so /\ so ∈ ps /\ is_Some (mm_heap m !! so);
}.

Lemma owns_frame objs ps m m' :
  (forall p, p ∈ ps -> mm_heap m' !! p = mm_heap m !! p) -> owns objs ps m -> owns objs ps m'.
Proof.
  intros H [Hr Ht]. split.
  - intros m2 H2. apply Hr. intros p Hp. by rewrite H2, H.
  - intros o (so & ? & ? & ?)%Ht. exists so. by rewrite H.
Qed.

Lemma owns_group k objs st m secret :
  group m st objs secret -> objs <> [] -> keeps_quiet k secret -> owns (shared k <$> objs) (st :: objs) m.
Proof.
  intros Hg Hne Hk. split.
  - intros m' H. eapply release_group; [by eapply group_frame|done|done].
  - intros o (x & -> & Hx)%list_elem_of_fmap. exists x. split; [done|]. split; [by right|].
    rewrite (gr_objects _ _ _ _ Hg x Hx). by eexists.
Qed.

Lemma release_app o1 o2 m : release (o1 ++ o2) m = (let* m := release o1 m in release o2 m).
Proof.
  revert m. induction o1 as [|o o1 IH]; intros m; [done|]. cbn [app release].
  destruct (ob_ptr o) as [so|]; [|done]. cbn [mbind option_bind]. destruct (ob_destroy o so m) as [m1|]; [|done].
  cbn [mbind option_bind]. destruct (free so m1) as [m2|]; [|done]. apply IH.
Qed.

Lemma release_null objs m : (exists o, o ∈ objs /\ ob_ptr o = None) -> release objs m = None.
Proof.
  intros (o & Ho & Hn). revert m. induction objs as [|o' objs IH]; intros m; [by apply elem_of_nil in Ho|].
  cbn [release]. apply elem_of_cons in Ho as [<-|Ho]; [by rewrite Hn|].
  destruct (ob_ptr o') as [so|]; [|done]. cbn [mbind option_bind]. destruct (ob_destroy o' so m) as [m1|]; [|done].
  cbn [mbind option_bind]. destruct (free so m1) as [m2|]; [|done]. by apply IH.
Qed.

Definition layer : Type := list object * list nat.

Record stage (m0 m : mem) (ls : list layer) : Prop := {
  sg_layers : Forall (fun l => owns (fst l) (snd l) m) ls;
  sg_disjoint : NoDup (concat (snd <$> ls));
  sg_range : Forall (fun p => mm_next m0 <= p < mm_next m)%nat (concat (snd <$> ls));
  sg_fresh : fresh m;
  sg_next : (mm_next m0 <= mm_next m)%nat;
  sg_spilled : mm_spilled m = mm_spilled m0;
  sg_frame : forall p, p ∉ concat (snd <$> ls) -> mm_heap m !! p = mm_heap m0 !! p;
}.

Lemma stage_start m : fresh m -> stage m m [].
Proof. intros Hf. split; try done; constructor. Qed.

Lemma stage_add m0 m m' ls objs ps :
  stage m0 m ls -> owns objs ps m' -> NoDup ps -> Forall (fun p => mm_next m <= p < mm_next m')%nat ps ->
  fresh m' -> (mm_next m <= mm_next m')%nat -> mm_spilled m' = mm_spilled m ->
  (forall p, p ∉ ps -> mm_heap m' !! p = mm_heap m !! p) -> stage m0 m' ((objs, ps) :: ls).
Proof.
  intros [Hl Hd Hr Hf Hn Hs Hh] Hrel Hnd Hrg Hf' Hn' Hs' Hh'. rewrite Forall_forall in Hr, Hrg.
  assert (Hdis : forall p, p ∈ concat (snd <$> ls) -> p ∉ ps).
  { intros p Hp Hp2. specialize (Hr p Hp). specialize (Hrg p Hp2). simpl in *. lia. }
  split; cbn [fmap list_fmap concat fst snd]; try done; try lia; try congruence.
  - constructor; [done|]. apply Forall_forall. intros l Hin. rewrite Forall_forall in Hl.
    eapply owns_frame; [|by apply Hl]. intros p Hp. apply Hh', Hdis.
    apply list_elem_of_In, in_concat. exists (snd l). split; apply list_elem_of_In; [by apply list_elem_of_fmap_2|done].
  - apply NoDup_app. split; [done|]. split; [|done]. intros p Hp Hp2. by apply (Hdis p).
  - apply Forall_app. split; apply Forall_forall; intros p Hp; [specialize (Hrg p Hp)|specialize (Hr p Hp)]; simpl in *; lia.
  - intros p [Hp1 Hp2]%not_elem_of_app. by rewrite Hh', Hh.
Qed.

(** A group that was just made is a layer on top. *)
Lemma stage_made k m0 m m' ls st objs secret :
  stage m0 m ls -> made m m' st objs secret -> objs <> [] -> keeps_quiet k secret ->
  stage m0 m' ((shared k <$> objs, st :: objs) :: ls).
Proof.
  intros Hst [Hg Hr Hf Hs Hh] Hne Hk. apply (stage_add m0 m); try done.
  - by eapply owns_group.
  - apply Hg.
  - apply Forall_cons in Hr as [? _]. lia.
Qed.

Lemma stage_unchanged m0 m m' ls : stage m0 m ls -> unchanged m m' -> stage m0 m' ls.
Proof.
  intros [Hl Hd Hr Hf Hn Hs Hh] [Hh' Hf' Hs' Hn']. split; try done; [| |lia|congruence|by rewrite Hh'].
  - eapply Forall_impl; [exact Hl|]. intros l Hrel. eapply owns_frame; [|exact Hrel]. by rewrite Hh'.
  - eapply Forall_impl; [exact Hr|]. simpl. lia.
Qed.

Lemma stage_perm m0 m ls ls' : ls ≡ₚ ls' -> stage m0 m ls -> stage m0 m ls'.
Proof.
  intros Hp [Hl Hd Hr Hf Hn Hs Hh].
  assert (Hc : concat (snd <$> ls) ≡ₚ concat (snd <$> ls')).
  { rewrite <- !flat_map_concat_map. by apply Permutation_flat_map. }
  split; try done; [by rewrite <- Hp|by rewrite <- Hc|by rewrite <- Hc|].
  intros p Hni. apply Hh. by rewrite Hc.
Qed.

(** Releasing every layer, in whatever order, restores the heap. *)
Lemma stage_release m0 m ls : fresh m0 -> stage m0 m ls ->
  exists m', release (concat (fst <$> ls)) m = Some m' /\ mm_heap m' = mm_heap m0 /\ mm_spilled m' = mm_spilled m0.
Proof.
  intros Hf0. revert m. induction ls as [|[objs ps] ls IH]; intros m [Hl Hd Hr Hf Hn Hs Hh]; cbn [fmap list_fmap concat fst snd] in *.
  { exists m. split; [done|]. split; [|done]. apply map_eq. intros p. apply Hh. by intros ?%elem_of_nil. }
  apply Forall_cons in Hl as [Hrel Hl]. cbn [fst snd] in Hrel. rewrite release_app, (ow_releases _ _ _ Hrel) by done. cbn [mbind option_bind].
  apply NoDup_app in Hd as (_ & Hdis & Hd). apply Forall_app in Hr as [Hrp Hr]. rewrite Forall_forall in Hrp.
  apply IH. split; cbn [mm_heap mm_next mm_spilled]; try done.
  - apply Forall_forall. intros l Hin. rewrite Forall_forall in Hl. eapply owns_frame; [|by apply Hl].
    intros p Hp. cbn. rewrite lookup_drop_cells, decide_False; [done|]. intros Hp2. apply (Hdis p Hp2).
    apply list_elem_of_In, in_concat. exists (snd l). split; apply list_elem_of_In; [by apply list_elem_of_fmap_2|done].
  - intros p c. cbn. rewrite lookup_drop_cells. case_decide; [done|]. apply Hf.
  - intros p Hp. rewrite lookup_drop_cells. case_decide as Hps.
    + symmetry. destruct (mm_heap m0 !! p) eqn:E; [|done]. apply Hf0 in E. specialize (Hrp p Hps). simpl in Hrp. lia.
    + apply Hh. by intros [?|?]%elem_of_app.
Qed.

(** ** The other layers *)

Lemma owns_auth so st m :
  mm_heap m !! so = Some (ServiceObject (Some st)) -> mm_heap m !! st = Some (ServiceState 1 false) ->
  owns [auth_entry (Some so)] [so; st] m.
Proof.
  intros Hso Hst. assert (Hne : so <> st) by congruence. split.
  2: { intros o ->%list_elem_of_singleton. exists so. rewrite Hso. split_and!; [done|by left|by eexists]. }
  intros m' H.
  cbn [release auth_entry ob_ptr ob_destroy mbind option_bind]. unfold auth_destroy.
  rewrite (H so), Hso by by left. cbn [free_ptr]. unfold free at 1. rewrite (H st), Hst by (right; by left).
  cbn [mbind option_bind]. unfold free. cbn [mm_heap]. rewrite lookup_delete_ne, (H so), Hso by (done || by left).
  cbn [mbind option_bind holds_secret mm_heap mm_next mm_spilled]. by rewrite !app_nil_r.
Qed.

(** A handle as an entry of its own: freeing it is releasing the entry. *)
Definition handle_array (p : option nat) : list object :=
  match p with Some p => [mk_object (Some p) (fun _ m => Some m)] | None => [] end.

Lemma release_handle p m : release (handle_array p) m = free_ptr p m.
Proof. destruct p as [p|]; [|done]. cbn. by destruct (free p m). Qed.

Lemma owns_handle p m : mm_heap m !! p = Some Handle -> owns (handle_array (Some p)) [p] m.
Proof.
  intros Hp. split.
  2: { intros o ->%list_elem_of_singleton. exists p. rewrite Hp. split_and!; [done|by left|by eexists]. }
  intros m' H. rewrite release_handle. unfold free_ptr, free. rewrite (H p), Hp by by left.
  by rewrite app_nil_r.
Qed.

Section run.
Variable alloc : nat -> bool.

Definition handle_layer (p : option nat) : layer := (handle_array p, match p with Some p => [p] | None => [] end).

(** One more handle, or none. *)
Lemma stage_handle m0 m ls : stage m0 m ls ->
  match calloc alloc Handle m with
  | (Some p, m') => stage m0 m' (handle_layer (Some p) :: ls)
  | (None, m') => unchanged m m'
  end.
Proof.
  intros Hst. pose proof (sg_fresh _ _ _ Hst) as Hf. unfold calloc. destruct (alloc (mm_next m)).
  - eapply stage_add; [exact Hst| | | | | |done|]; cbn [mm_next].
    + apply owns_handle. cbn. by rewrite lookup_insert_eq.
    + apply NoDup_singleton.
    + constructor; [lia|constructor].
    + by apply fresh_insert.
    + lia.
    + intros p Hp. cbn. rewrite lookup_insert_ne; [done|]. intros <-. apply Hp. by left.
  - by apply unchanged_at; [|lia].
Qed.

Lemma stage_sync m0 m ls thread : fresh m0 -> stage m0 m ls ->
  exists ts m', time_sync_start alloc thread m = Some (ts, m') /\ stage m0 m' (handle_layer ts :: ls).
Proof.
  intros Hf0 Hst. pose proof (stage_handle _ _ _ Hst) as H. pose proof (sg_fresh _ _ _ Hst) as Hf.
  assert (Hnone : forall m', unchanged m m' -> stage m0 m' (handle_layer None :: ls)).
  { intros m' Hu. pose proof (stage_unchanged _ _ _ _ Hst Hu) as [Hl Hd Hr Hf' Hn Hs Hh].
    split; try done. constructor; [|done]. split; [intros m2 _; cbn; by destruct m2|]. by intros o ?%elem_of_nil. }
  unfold time_sync_start. unfold calloc in *. destruct (alloc (mm_next m)).
  - destruct thread; [by eexists _, _|]. unfold free. cbn [mm_heap]. rewrite lookup_insert_eq.
    cbn [mbind option_bind mm_heap mm_next mm_spilled holds_secret].
    rewrite delete_insert_id, app_nil_r by by apply fresh_none. eexists _, _. split; [done|].
    apply Hnone. by apply unchanged_at; [|lia].
  - eexists _, _. split; [done|]. by apply Hnone.
Qed.

(** Handing the key to an object of the service: its state holds a secret from then on. *)
Lemma set_key_made m m' st objs s ci : made m m' st objs s -> ci ∈ objs ->
  exists m2, crypto_service_set_identity_key ci m' = Some m2 /\ made m m2 st objs true.
Proof.
  intros [[Hs Ho Hn] Hr Hf Hsp Hh] Hci. unfold crypto_service_set_identity_key. rewrite (Ho ci Hci), Hs.
  unfold write. rewrite Hs. eexists. split; [done|]. unfold with_heap. inversion Hn as [|? ? Hst _]; subst.
  split; cbn [mm_heap mm_next mm_spilled]; try done; [split; cbn [mm_heap]| |].
  - by rewrite lookup_insert_eq.
  - intros o Hoin. rewrite lookup_insert_ne; [by apply Ho|by intros <-].
  - done.
  - intros p c. cbn. intros [[<- _]|[_ Hp]]%lookup_insert_Some; [by apply Hf in Hs|by apply Hf in Hp].
  - intros p [Hp Hp2]%not_elem_of_cons. rewrite lookup_insert_ne by done. apply Hh. by apply not_elem_of_cons.
Qed.

Lemma made_nonempty m m' st objs s n : length objs = S n -> made m m' st objs s -> objs <> [].
Proof. intros H _ ->. done. Qed.

Context {nng : NngBus}.

(** What a run of the module leaves behind. *)
Definition all_released (m0 : mem) (r : Z * mem * history) : Prop :=
  mm_heap (snd (fst r)) = mm_heap m0 /\ mm_spilled (snd (fst r)) = mm_spilled m0 /\ closed (snd r).

Lemma fail_releases m0 m ts objs ls h : fresh m0 -> stage m0 m ls ->
  concat (fst <$> ls) = handle_array ts ++ objs ->
  exists m', core_fail ts objs m h = Some (1, m', hes_bus_close h) /\ all_released m0 (1, m', hes_bus_close h).
Proof.
  intros Hf Hst He. destruct (stage_release _ _ _ Hf Hst) as (m' & Hr & Hh & Hs).
  rewrite He, release_app, release_handle in Hr. unfold core_fail, time_sync_stop.
  destruct (free_ptr ts m) as [m1|]; [|done]. cbn [mbind option_bind] in *. rewrite Hr. exists m'.
  split; [done|]. split; [done|]. split; [done|apply close_closed].
Qed.

Lemma shutdown_releases m0 m app ts objs ls : fresh m0 -> stage m0 m ls ->
  concat (fst <$> ls) = handle_array (Some app) ++ objs ++ handle_array ts ->
  exists m', (let* m := app_lua_destroy app m in let* m := release objs m in time_sync_stop ts m) = Some m' /\
    mm_heap m' = mm_heap m0 /\ mm_spilled m' = mm_spilled m0.
Proof.
  intros Hf Hst He. destruct (stage_release _ _ _ Hf Hst) as (m' & Hr & Hh & Hs).
  rewrite He, release_app, release_handle in Hr. unfold app_lua_destroy, time_sync_stop.
  change (free_ptr (Some app) m) with (free app m) in Hr.
  destruct (free app m) as [m1|]; [|done]. cbn [mbind option_bind] in *. rewrite release_app in Hr.
  destruct (release objs m1) as [m2|]; [|done]. cbn [mbind option_bind] in *. rewrite release_handle in Hr.
  by exists m'.
Qed.

(** Every object of the layers is there when the loop looks. *)
Lemma stage_touch m0 m ls objs : stage m0 m ls ->
  (forall o, o ∈ objs -> o ∈ concat (fst <$> ls)) -> touch objs m = Some tt.
Proof.
  intros Hst Hin. unfold touch. assert (E : forallb (fun o => match ob_ptr o with
    | Some so => bool_decide (is_Some (mm_heap m !! so)) | None => false end) objs = true); [|by rewrite E].
  apply forallb_forall. intros o Ho%list_elem_of_In%Hin. apply list_elem_of_In, in_concat in Ho as (x & Hx & Ho).
  apply list_elem_of_In, list_elem_of_fmap in Hx as (l & -> & Hl).
  pose proof (sg_layers _ _ _ Hst) as Hf. rewrite Forall_forall in Hf.
  destruct (ow_there _ _ _ (Hf l Hl) o) as (so & -> & _ & Hs); [by apply list_elem_of_In|].
  by apply bool_decide_eq_true_2.
Qed.

Lemma touch_null objs m : (exists o, o ∈ objs /\ ob_ptr o = None) -> touch objs m = None.
Proof.
  intros (o & Ho & Hn). unfold touch. destruct (forallb _ objs) eqn:E; [|done]. rewrite forallb_forall in E.
  specialize (E o). rewrite Hn in E. discriminate E. by apply list_elem_of_In.
Qed.

Lemma stage_auth m0 m ls : stage m0 m ls ->
  exists r m', auth_service_create alloc m = Some (r, m') /\
  match r with
  | Some so => exists ps, stage m0 m' (([auth_entry (Some so)], ps) :: ls)
  | None => fresh m' /\ exists n, alloc n = false
  end.
Proof.
  intros Hst. destruct (auth_create_spec alloc m (sg_fresh _ _ _ Hst)) as ([so|] & m' & -> & H).
  - destruct H as (st & Hso & Hs & Hne & Hr1 & Hr2 & Hf & Hsp & Hh). eexists _, _. split; [done|]. exists [so; st].
    eapply stage_add; [exact Hst|by apply owns_auth| | |done|lia|done|].
    + constructor; [by intros ?%list_elem_of_singleton|apply NoDup_singleton].
    + repeat (constructor; [lia|]). constructor.
    + intros p [? [? _]%not_elem_of_cons]%not_elem_of_cons. by apply Hh.
  - destruct H as ([_ Hf _ _] & Hn). by eexists _, _.
Qed.

Lemma fail_null ts objs m h : (exists o, o ∈ objs /\ ob_ptr o = None) -> core_fail ts objs m h = None.
Proof.
  intros H. unfold core_fail. destruct (time_sync_stop ts m) as [m1|]; [|done]. cbn [mbind option_bind].
  by rewrite (release_null objs m1).
Qed.

Lemma core_rest_null e ts objs m h : fresh m -> (exists o, o ∈ objs /\ ob_ptr o = None) -> core_rest alloc e ts objs m h = None.
Proof.
  intros Hf (o & Ho & Hn). unfold core_rest. destruct (crypto_service_create alloc m) as [[[cs|] m1]|]; cbn [mbind option_bind]; [|by apply fail_null; exists o|done].
  assert (Hnull : exists o, o ∈ objs ++ crypto_array cs /\ ob_ptr o = None) by (exists o; split; [apply elem_of_app; by left|done]).
  destruct (negb _); [by apply fail_null|]. destruct (cs !! 1%nat); [|done]. cbn [mbind option_bind].
  destruct (crypto_service_set_identity_key _ _) as [m2|]; [|done]. cbn [mbind option_bind].
  destruct (app_lua_create _ _) as [[app m3]|]; [|done]. cbn [mbind option_bind]. by rewrite touch_null.
Qed.

(** A run ends with everything released, or an allocation had failed. *)
Definition released_or_starved (m0 : mem) (r : option (Z * mem * history)) : Prop :=
  match r with Some r => all_released m0 r | None => exists n, alloc n = false end.

(** Two lists of the same layers in another order. *)
Ltac split_at x r :=
  lazymatch r with
  | x :: ?t => constr:((@nil layer, t))
  | ?y :: ?t => let p := split_at x t in lazymatch p with (?a, ?b) => constr:((y :: a, b)) end
  end.
Ltac same_layers :=
  repeat lazymatch goal with
  | |- ?x :: ?l ≡ₚ ?r =>
      let p := split_at x r in
      lazymatch p with (?a, ?b) => refine (Permutation_cons_app a b x _); cbn [app] end
  end; reflexivity.

(** The layers in place when the cryptographic service is created. *)
Definition base_layers (ts : option nat) (ids times : list nat) (so : nat) (psi pst psa : list nat) : list layer :=
  [([auth_entry (Some so)], psa); (time_array times, pst); handle_layer ts; (id_array ids, psi)].

Definition base_objects (ids times : list nat) (so : nat) : list object :=
  id_array ids ++ time_array times ++ [auth_entry (Some so)].

Lemma base_fail m0 m ts ids times so psi pst psa h : fresh m0 ->
  stage m0 m (base_layers ts ids times so psi pst psa) ->
  released_or_starved m0 (core_fail ts (base_objects ids times so) m h).
Proof.
  intros Hf Hst. destruct (fail_releases m0 m ts (base_objects ids times so)
    [handle_layer ts; (id_array ids, psi); (time_array times, pst); ([auth_entry (Some so)], psa)] h Hf)
    as (m' & -> & H); [|done|exact H].
  eapply stage_perm; [|exact Hst]. unfold base_layers. same_layers.
Qed.

Lemma core_rest_releases e m0 m ts ids times so psi pst psa h : fresh m0 ->
  stage m0 m (base_layers ts ids times so psi pst psa) ->
  released_or_starved m0 (core_rest alloc e ts (base_objects ids times so) m h).
Proof.
  intros Hf Hst. unfold core_rest.
  pose proof (crypto_create_spec alloc m (sg_fresh _ _ _ Hst)) as Hc.
  destruct (crypto_service_create alloc m) as [[[cs|] m1]|]; cbn [mbind option_bind created] in *.
  2: { apply (base_fail m0 m1 ts ids times so psi pst psa); [done|]. by eapply stage_unchanged. }
  2: { exact Hc. }
  destruct Hc as (Hlen & st & Hmade). assert (Hne : cs <> []) by by intros ->.
  destruct (se_key e); cbn [negb].
  2: { pose proof (stage_made WipeKey _ _ _ _ _ _ _ Hst Hmade Hne ltac:(done)) as Hst1.
       destruct (fail_releases m0 m1 ts (base_objects ids times so ++ crypto_array cs)
         [handle_layer ts; (id_array ids, psi); (time_array times, pst); ([auth_entry (Some so)], psa);
          (crypto_array cs, st :: cs)] h Hf) as (m' & -> & H); [| |exact H].
       - eapply stage_perm; [|exact Hst1]. unfold base_layers, crypto_array. same_layers.
       - cbn. rewrite !app_nil_r. unfold base_objects. by rewrite <- !app_assoc. }
  destruct cs as [|c0 [|ci cs]]; [done|done|]. cbn [lookup list_lookup mbind option_bind].
  destruct (set_key_made m m1 st _ _ ci Hmade) as (m2 & -> & Hmade2); [right; by left|]. cbn [mbind option_bind].
  pose proof (stage_made WipeKey _ _ _ _ _ _ _ Hst Hmade2 Hne ltac:(done)) as Hst2.
  pose proof (stage_handle _ _ _ Hst2) as Hh. unfold app_lua_create.
  destruct (calloc alloc Handle m2) as [[app|] m3] eqn:Ec; cbn [mbind option_bind].
  2: { unfold calloc in Ec. destruct (alloc (mm_next m2)) eqn:Ea; [done|]. by eexists. }
  rewrite (stage_touch _ _ _ _ Hh).
  2: { intros o Ho. unfold base_objects, crypto_array in Ho. cbn [fmap list_fmap fst concat base_layers].
       rewrite !elem_of_app in *. tauto. }
  cbn [mbind option_bind].
  destruct (shutdown_releases m0 m3 app ts (base_objects ids times so ++ crypto_array (c0 :: ci :: cs))
    [handle_layer (Some app); (id_array ids, psi); (time_array times, pst); ([auth_entry (Some so)], psa);
     (crypto_array (c0 :: ci :: cs), st :: c0 :: ci :: cs); handle_layer ts] Hf) as (m' & Hd & Hheap & Hsp).
  - eapply stage_perm; [|exact Hh]. unfold base_layers, crypto_array. same_layers.
  - cbn. rewrite !app_nil_r. unfold base_objects. by rewrite <- !app_assoc.
  - destruct (app_lua_destroy app m3) as [m4|]; [|done]. cbn [mbind option_bind] in *.
    destruct (release _ m4) as [m5|]; [|done]. cbn [mbind option_bind] in *. rewrite Hd. cbn [mbind option_bind].
    split; [done|]. split; [done|apply close_closed].
Qed.

(** C14: The core releases what it acquired on every exit. Whatever fails during start-up, and
    whatever allocation fails, a run of core_main that ends leaves the heap as it was and has both
    sockets of the bus closed; and of the secrets its blocks held, the fingerprint in the services'
    states and the identity key, none is left in freed memory but one copy: the tree of the
    identity document, which load_identity releases unerased, exactly when it was built and
    has a fingerprint. Only a failed allocation keeps core_main from ending so. *)
Theorem core_releases_what_it_acquired e m h : fresh m -> closed h ->
  match core_main alloc e m h with
  | Some (rv, m', h') =>
      mm_heap m' = mm_heap m /\ mm_spilled m' = mm_spilled m ++ tree_left alloc (se_identity e) m /\ closed h'
  | None => exists n, alloc n = false
  end.
Proof.
  intros Hf0 Hc. set (m0 := spill (tree_left alloc (se_identity e) m) m). pose proof (spill_fresh _ _ Hf0 : fresh m0) as Hf.
  enough (H : released_or_starved m0 (core_main alloc e m h))
    by by destruct (core_main alloc e m h) as [[[rv m'] h']|].
  unfold core_main. pose proof (stage_start m0 Hf) as Hs0.
  pose proof (id_create_spec alloc (se_identity e) m Hf0) as Hi.
  destruct (id_service_create alloc _ m) as [[[ids|] m1]|]; cbn [mbind option_bind created] in *.
  2: { destruct Hi. by repeat (split; [done|]). }
  2: { exact Hi. }
  destruct Hi as (Hlen & st & Hmade). assert (Hne : ids <> []) by by intros ->.
  pose proof (stage_made WipeState _ _ _ _ _ _ _ Hs0 Hmade Hne ltac:(done)) as Hs1.
  destruct (hes_bus_hub_open _ _ h) as [h1 rv] eqn:Eb. pose proof (hub_open_sockets _ _ _ _ _ Hc Eb) as Hb.
  destruct (rv =? 0); cbn [negb].
  2: { destruct (stage_release _ _ _ Hf Hs1) as (m' & Hr & Hh & Hs). cbn in Hr. rewrite app_nil_r in Hr.
       unfold id_array. rewrite Hr. by repeat (split; [done|]). }
  destruct (stage_sync _ _ _ (se_thread e) Hf Hs1) as (ts & m2 & -> & Hs2). cbn [mbind option_bind].
  pose proof (time_create_spec alloc m2 (sg_fresh _ _ _ Hs2)) as Ht.
  destruct (time_service_create alloc m2) as [[[times|] m3]|]; cbn [mbind option_bind created] in *.
  2: { destruct (fail_releases m0 m3 ts (id_array ids) [handle_layer ts; (id_array ids, st :: ids)] h1 Hf)
         as (m' & -> & H); [by eapply stage_unchanged|cbn; by rewrite app_nil_r|exact H]. }
  2: { exact Ht. }
  destruct Ht as (Hlent & stt & Hmadet). assert (Hnet : times <> []) by by intros ->.
  pose proof (stage_made WipeNothing _ _ _ _ _ _ _ Hs2 Hmadet Hnet ltac:(done)) as Hs3.
  destruct (stage_auth _ _ _ Hs3) as ([so|] & m4 & -> & Ha); cbn [mbind option_bind].
  - destruct Ha as (psa & Hs4). by eapply core_rest_releases.
  - destruct Ha as [Hf4 Hn]. rewrite core_rest_null; [done|done|].
    exists (auth_entry None). split; [|done]. rewrite !elem_of_app. right. right. by left.
Qed.

Lemma create_objects_starved k n secret m next : fresh m -> keeps_quiet k secret -> (mm_next m < next)%nat ->
  alloc next = true -> alloc (S next) = false ->
  create_objects alloc k (S (S n)) (mm_next m) []
    (mk_mem (<[mm_next m := ServiceState 0 secret]> (mm_heap m)) next (mm_spilled m)) = None.
Proof.
  intros Hf Hk Hnx H1 H2. set (m1 := mk_mem _ _ _).
  assert (Hf1 : fresh m1).
  { intros q d. cbn. intros [[<- _]|[_ Hq]]%lookup_insert_Some; [lia|]. apply Hf in Hq. lia. }
  assert (Hg1 : group m1 (mm_next m) [] secret).
  { split; [cbn; by rewrite lookup_insert_eq|by intros o ?%elem_of_nil|apply NoDup_singleton]. }
  pose proof (create_objects_spec alloc k (S (S n)) (mm_next m) [] m1 secret Hf1 Hg1 Hk) as H.
  destruct (create_objects alloc k (S (S n)) (mm_next m) [] m1) as [[[objs|] m']|]; [| |done].
  - destruct H as (new & _ & _ & _ & Ha & _). specialize (Ha 1%nat ltac:(lia)). cbn [mm_next m1] in Ha.
    replace (next + 1)%nat with (S next) in Ha by lia. congruence.
  - destruct H as (_ & Ha & _). cbn [mm_next m1] in Ha. congruence.
Qed.

(** When the second object of a service cannot be allocated, the creation of the service
    uses its state after it was freed: destroying the first object, the only one that counts
    on the state, frees it, and the error path then erases and frees it again. The
    identification, time and cryptographic services share this path; the first has allocated the
    document's tree before. *)
Theorem late_failure_frees_twice m : fresh m ->
  alloc (mm_next m) = true -> alloc (S (mm_next m)) = true ->
  (alloc (S (S (mm_next m))) = false ->
   time_service_create alloc m = None /\ crypto_service_create alloc m = None) /\
  (alloc (S (S (mm_next m))) = true -> alloc (S (S (S (mm_next m)))) = false ->
   id_service_create alloc (Some Valid) m = None).
Proof.
  intros Hf H0 H1. split; [intros H2; split|intros H2 H3].
  - unfold time_service_create, calloc. rewrite H0. apply (create_objects_starved WipeNothing 1 false m); (done || lia).
  - unfold crypto_service_create, calloc. rewrite H0. apply (create_objects_starved WipeKey 0 false m); (done || lia).
  - unfold id_service_create. unfold calloc at 1. rewrite H0.
    pose proof (load_identity_spec alloc (mm_next m) Valid
      (mk_mem (<[mm_next m := ServiceState 0 false]> (mm_heap m)) (S (mm_next m)) (mm_spilled m))) as E.
    cbv zeta in E. rewrite E; [|by apply fresh_insert|cbn; by rewrite lookup_insert_eq]. clear E.
    cbn [mm_heap mm_next mm_spilled mbind option_bind next_after_load]. rewrite insert_insert_eq, H1.
    cbn [andb has_fingerprint].
    apply (create_objects_starved WipeState 1 true (spill [Document true] m)); (done || cbn; lia).
Qed.
End run.

(** ** The statements at concrete inputs *)

Definition ex_mem : mem := mk_mem ∅ 0 [].

Lemma ex_mem_fresh : fresh ex_mem.
Proof. intros p c. cbn. by rewrite lookup_empty. Qed.

Definition ex_env : start_env := mk_start_env (Some Valid) true true "pub" "sub".

(** The crypto service's state cannot be allocated: everything made before is released, and the
    document's tree is the one secret left. *)
Lemma core_releases_what_it_acquired_witness :
  exists m' h', core_main (fun n => negb (n =? 12)%nat) (nng := ex_no_subscribe) ex_env ex_mem [] = Some (1, m', h') /\
    mm_heap m' = ∅ /\ mm_spilled m' = [Document true] /\ closed h' /\ mm_next m' = 13%nat.
Proof.
  pose proof (core_releases_what_it_acquired (fun n => negb (n =? 12)%nat) (nng := ex_no_subscribe) ex_env ex_mem []
    ex_mem_fresh ltac:(by intros [])) as H.
  destruct (core_main (fun n => negb (n =? 12)%nat) (nng := ex_no_subscribe) ex_env ex_mem []) as [[[rv m'] h']|] eqn:E;
    [|exfalso; vm_compute in E; discriminate].
  exists m', h'. assert (Hrv : rv = 1) by (vm_compute in E; congruence).
  assert (Hn : mm_next m' = 13%nat) by (vm_compute in E; injection E as <- <- <-; reflexivity).
  rewrite Hrv. split; [reflexivity|]. destruct H as (H1 & H2 & H3). by repeat (split; [done|]).
Defined.

Lemma late_failure_frees_twice_witness :
  id_service_create (fun n => negb (n =? 3)%nat) (Some Valid) ex_mem = None.
Proof.
  apply (late_failure_frees_twice (fun n => negb (n =? 3)%nat) ex_mem ex_mem_fresh); reflexivity.
Defined.
