(* ===== verification/AppLua.v ===== *)
(** * The protected app

    Models src/src/modules/core/app_lua.c and the bridge app_service_op of core.c: the two
    functions the script may call, hes.get and hes.put, the operation hes_op, and the tick.
    The Lua interpreter is the class [Lua]: running a function of the script yields a tree of
    the host calls it makes, each continued with the host's answer ([script]). The app the
    repository ships, src/src/modules/core/app.lua, is the instance [shipped_app]. *)

From S2P Require Import Prelude CLib HesCommon HesQuery Bm Dispatch Json Auth Crypto CryptoFacts Id Devreg Mreg Time Core CoreFacts.

(** ** The interpreter *)

(** What a function of the script does: it ends, or calls the host and goes on with what the
    host pushed, a string or nil, true or false. *)
Inductive script (R : Type) : Type :=
| Done (r : R)
| Get (path : string) (k : option string -> script R)
| Put (path value : string) (k : bool -> script R).
Arguments Done {R}.
Arguments Get {R}.
Arguments Put {R}.

(** One entry of the table hes_op receives: di, path, value. *)
Record lua_operand := mk_lua_operand {
  lo_di : Z;
  lo_path : string;
  lo_value : double;
}.

(** [L]: the interpreter's state, [V]: a value of the script. A protected call that failed
    leaves no value. *)
Class Lua (L V : Type) := {
  luaL_newstate : L;
  lua_isfunction : L -> string -> bool;
  lua_pcall_op : L -> Z -> list lua_operand -> script (L * option V);
  lua_pcall_tick : L -> script (L * bool);
  luaL_dofile : L -> string -> script (L * bool);
  lua_tonumber : V -> double;
}.

Section app.
Context {L V : Type} {lua : Lua L V}.
Context {G : Type}.

(** What a send returns to the script: whether NNG took the message. *)
Variable send_ok : hes_bus_t -> bool.

(** The app's view of its host: the module's service objects. *)
Variable objs : list (service_object_t G).

(** The first object of the path that answers GETs. *)
Definition answers (path : string) (so : service_object_t G) : bool :=
  ((so_path so =?s path) && match so_on_get so with Some _ => true | None => false end)%bool.

Definition l_hes_get (path : string) (g : G) : G * option string :=
  match find_first (answers path) objs with
  | Some so =>
      match so_on_get so with
      | Some on_get =>
          let '(g, out) := on_get g (hes_msg_set_path hes_msg_init path) in
          (g, Some (msg_payload out))
      | None => (g, None)
      end
  | None => (g, None)
  end.

Definition l_hes_put (path value : string) (bus : hes_bus_t) : hes_bus_t * bool :=
  let bus := hes_bus_send bus (put_command path value) in (bus, send_ok bus).

(** A function of the script over the services' state and the bus. *)
Fixpoint run_script {R} (sc : script R) (g : G) (bus : hes_bus_t) : R * G * hes_bus_t :=
  match sc with
  | Done r => (r, g, bus)
  | Get path k => let '(g, answer) := l_hes_get path g in run_script (k answer) g bus
  | Put path value k => let '(bus, ok) := l_hes_put path value bus in run_script (k ok) g bus
  end.

Definition operand_table (operands : list bm_operand_t) : list lua_operand :=
  (fun o => mk_lua_operand (od_device_index o) (od_source_object o) (od_value o)) <$> operands.

(** [None] is the return value -1. *)
Definition app_lua_call_op (app : L) (ref_id : Z) (operands : list bm_operand_t) (g : G) (bus : hes_bus_t)
  : L * option double * G * hes_bus_t :=
  if negb (lua_isfunction app "hes_op") then (app, None, g, bus)
  else
    let '((app, r), g, bus) := run_script (lua_pcall_op app ref_id (operand_table operands)) g bus in
    (app, lua_tonumber <$> r, g, bus).

Definition app_lua_create (script_path : string) (g : G) (bus : hes_bus_t) : L * G * hes_bus_t :=
  let '((app, loaded), g, bus) := run_script (luaL_dofile luaL_newstate script_path) g bus in (app, g, bus).

Definition app_lua_tick (app : L) (g : G) (bus : hes_bus_t) : L * G * hes_bus_t :=
  if lua_isfunction app "on_tick" then
    let '((app, ok), g, bus) := run_script (lua_pcall_tick app) g bus in (app, g, bus)
  else (app, g, bus).
End app.

(** The binding map's hook. A script whose hes_op calls the host is outside what the hook can
    express: it has the app's state, and neither the services nor the bus. *)
Definition silent {R} (sc : script R) : option R := match sc with Done r => Some r | _ => None end.

Definition app_service_op {L V} {lua : Lua L V} (app : L) (op : bm_operation_t) (operands : list bm_operand_t)
  : L * option double :=
  if negb (lua_isfunction app "hes_op") then (app, None)
  else
    match silent (lua_pcall_op app (op_ref_id op) (operand_table operands)) with
    | Some (app, r) => (app, lua_tonumber <$> r)
    | None => (app, None)
    end.

(** ** The core with its app *)

Section core.
Context {K O : Type} {psa : Psa K O}.
Context {L V : Type} {lua : Lua L V}.
Variable send_ok : hes_bus_t -> bool.

(** The call of [app_lua_tick] in the loop. *)
Definition core_app_tick (st : core_t L) : core_t L :=
  let '(app, services, bus) :=
    app_lua_tick send_ok (core_objects (co_bm st)) (bm_app_ctx (co_bm st)) (co_services st) (co_bus st) in
  mk_core services (bm_with_app_ctx (co_bm st) app) bus.
End core.

(** ** What a script can do *)

Section effects.
Context {G : Type}.
Variable send_ok : hes_bus_t -> bool.
Variable objs : list (service_object_t G).

(** [P] holds of every state the objects answer from. *)
Lemma run_script_inv {R} (P : G -> Prop) (sc : script R) g bus r g' bus' :
  (forall so f x out, so ∈ objs -> so_on_get so = Some f -> P x -> P (fst (f x out))) ->
  P g -> run_script send_ok objs sc g bus = (r, g', bus') ->
  P g' /\ exists commands, bus_extends bus bus' commands /\
    Forall (fun m => exists path value ts, m = msg_stamped ts (put_command path value)) commands.
Proof.
  intros HP. revert g bus. induction sc as [r0|path k IH|path value k IH]; intros g bus Hg; cbn [run_script].
  - intros [= <- <- <-]. split; [done|]. exists []. split; [apply bus_extends_refl|constructor].
  - assert (Hg1 : P (fst (l_hes_get objs path g))).
    { unfold l_hes_get. destruct (find_first _ objs) as [so|] eqn:E; [|done].
      apply find_first_Some in E as [Hin _]. destruct (so_on_get so) as [f|] eqn:Ef; [|done].
      pose proof (HP so f g (hes_msg_set_path hes_msg_init path) Hin Ef Hg) as H. by destruct (f g _). }
    destruct (l_hes_get objs path g) as [g1 a]. by apply IH.
  - unfold l_hes_put. intros H. destruct (IH _ _ _ Hg H) as (Hg' & ms & Hb & Hms). split; [done|].
    eexists (_ :: ms). split; [|constructor; [by eexists _, _, _|exact Hms]].
    eapply (bus_extends_trans bus _ bus' [_] ms); [|exact Hb]. split; reflexivity.
Qed.
End effects.

Section refinement.
Context {K O : Type} {psa : Psa K O}.
Context {L V : Type} {lua : Lua L V}.
Context {target : Target} {nng : Nng} {W : Type}.
Variable json_loads : string -> option json.
Variable service : W -> string -> W * option string.
Variable send_ok : hes_bus_t -> bool.

(** Only the readings of the time service may have moved on. *)
Definition reads_moved (s s' : core_services_t) : Prop :=
  exists n, s' = with_time (mk_time_service (tv_state (sv_time s)) (tv_env (sv_time s)) n) s.

Lemma reads_moved_refl s : reads_moved s s.
Proof. exists (tv_reads (sv_time s)). destruct s as [i [st e r] a c v]. done. Qed.

Lemma reads_moved_trans s1 s2 s3 : reads_moved s1 s2 -> reads_moved s2 s3 -> reads_moved s1 s3.
Proof. intros [n ->] [k ->]. exists k. done. Qed.

(** Answering a GET moves at most the readings of the clocks. *)
Lemma get_moves_reads (bm : binding_map_t L) so f s out :
  so ∈ core_objects bm -> so_on_get so = Some f -> reads_moved s (fst (f s out)).
Proof.
  unfold core_objects, id_service_objects, crypto_service_create, time_service_objects. rewrite !elem_of_app.
  intros [H|[H|[H|H]]].
  - repeat (apply elem_of_cons in H as [->|H]); try (by apply elem_of_nil in H);
      simpl; intros [= <-]; exists (tv_reads (sv_time s)); destruct s as [i [st e r] a c v]; done.
  - apply list_elem_of_fmap in H as (t & -> & H). cbn [lift_object so_on_get].
    repeat (apply elem_of_cons in H as [->|H]); try (by apply elem_of_nil in H);
      cbn; intros [= <-]; exists (S (tv_reads (sv_time s))); destruct s as [i [st e r] a c v]; done.
  - apply list_elem_of_singleton in H as ->.
    simpl; intros [= <-]; exists (tv_reads (sv_time s)); destruct s as [i [st e r] a c v]; done.
  - repeat (apply elem_of_cons in H as [->|H]); try (by apply elem_of_nil in H);
      simpl; intros [= <-]; exists (tv_reads (sv_time s)); destruct s as [i [st e r] a c v]; done.
Qed.

(** What a function of the script leaves: readings drawn, and its PUTs on the bus. *)
Lemma script_leaves {R} (bm : binding_map_t L) (sc : script R) s bus r s' bus' :
  run_script send_ok (core_objects bm) sc s bus = (r, s', bus') ->
  reads_moved s s' /\ exists puts, bus' = fold_left (fun bus put => hes_bus_send bus (put_command (fst put) (snd put))) puts bus.
Proof.
  revert s bus. induction sc as [r0|path k IH|path value k IH]; intros s bus; cbn [run_script].
  - intros [= <- <- <-]. split; [apply reads_moved_refl|]. by exists [].
  - assert (Hm : reads_moved s (fst (l_hes_get (core_objects bm) path s))).
    { unfold l_hes_get. destruct (find_first _ _) as [so|] eqn:E; [|apply reads_moved_refl].
      apply find_first_Some in E as [Hin _]. destruct (so_on_get so) as [f|] eqn:Ef; [|apply reads_moved_refl].
      pose proof (get_moves_reads bm so f s (hes_msg_set_path hes_msg_init path) Hin Ef) as H. by destruct (f s _). }
    destruct (l_hes_get _ path s) as [s1 a]. intros H. destruct (IH a s1 bus H) as [H1 H2].
    split; [by eapply reads_moved_trans|done].
  - unfold l_hes_put. intros H. destruct (IH _ s _ H) as [H1 (puts & ->)]. split; [done|]. by exists ((path, value) :: puts).
Qed.

(** The loading of [core_start] is what [app_lua_create] does at its place: it leaves the app's
    state, moves nothing of the services but the clocks' readings, and its PUTs are on the bus. *)
Theorem create_is_a_loading script_path (bm : binding_map_t L) (s : core_services_t) bus :
  exists ld : app_loading, app_lua_create send_ok (core_objects bm) script_path s bus =
    (ld_app ld, with_time (mk_time_service (tv_state (sv_time s)) (tv_env (sv_time s)) (ld_reads ld)) s,
     fold_left (fun bus put => hes_bus_send bus (put_command (fst put) (snd put))) (ld_puts ld) bus).
Proof.
  unfold app_lua_create. destruct (run_script _ _ _ _ _) as [[[app ok] s'] bus'] eqn:E.
  destruct (script_leaves _ _ _ _ _ _ _ E) as [[n ->] (puts & ->)]. by exists (mk_loading app n puts).
Qed.

(** C15: A tick of the app is a turn of the core's loop, whatever the script does: the services
    are as they were but for the readings the clocks gave, the binding map but for the app's
    own state, and what went on the bus are the script's PUTs alone. So what is shown of every
    turn of the loop holds with any app. The PUTs go out as the script wrote them, cut to the
    message's buffers and addressed to no device: no row of the binding map and no permission
    has a say in them. *)
Theorem app_tick_is_a_turn (st : core_t L) :
  core_step json_loads service st (core_app_tick send_ok st) /\
  exists commands, bus_extends (co_bus st) (co_bus (core_app_tick send_ok st)) commands /\
    Forall (fun m => msg_verb m = HES_VERB_PUT /\ msg_device_index m = 0 /\
              exists path value, msg_path m = hes_strlcpy HES_PATH_MAX path /\
                msg_payload m = hes_strlcpy HES_PAYLOAD_MAX value) commands.
Proof.
  unfold core_app_tick, app_lua_tick.
  destruct (if lua_isfunction (bm_app_ctx (co_bm st)) "on_tick" then _ else _) as [[app s'] bus'] eqn:E.
  assert (H : reads_moved (co_services st) s' /\ exists commands, bus_extends (co_bus st) bus' commands /\
    Forall (fun m => exists path value ts, m = msg_stamped ts (put_command path value)) commands).
  { destruct (lua_isfunction _ _).
    - destruct (run_script send_ok (core_objects (co_bm st)) (lua_pcall_tick (bm_app_ctx (co_bm st)))
        (co_services st) (co_bus st)) as [[[app1 ok] s1] bus1] eqn:Er. injection E as <- <- <-.
      eapply (run_script_inv send_ok (core_objects (co_bm st)) (reads_moved (co_services st)));
        [|apply reads_moved_refl|exact Er].
      intros so f x out Hin Hf Hx. eapply reads_moved_trans; [exact Hx|]. by eapply get_moves_reads.
    - injection E as <- <- <-. split; [apply reads_moved_refl|]. exists []. split; [apply bus_extends_refl|constructor]. }
  destruct H as ([n ->] & commands & Hb & Hc). split.
  - exact (step_app json_loads service st app n bus' commands Hb).
  - exists commands. split; [exact Hb|]. eapply Forall_impl; [exact Hc|]. intros m (path & value & ts & ->).
    split; [done|]. split; [done|]. by exists path, value.
Qed.

(** The binding map's hook is the app's operation, when that calls no host function. *)
Theorem service_op_is_call_op {G} (objs : list (service_object_t G)) (app : L) op operands g bus :
  is_Some (silent (lua_pcall_op app (op_ref_id op) (operand_table operands))) ->
  app_lua_call_op send_ok objs app (op_ref_id op) operands g bus =
  (app_service_op app op operands, g, bus).
Proof.
  intros [[app' r] Hs]. unfold app_lua_call_op, app_service_op. destruct (lua_isfunction app "hes_op"); [|done].
  cbn [negb]. rewrite Hs. destruct (lua_pcall_op _ _ _) as [x| |]; [|done|done]. by injection Hs as ->.
Qed.
End refinement.

(** ** The app the repository ships

    src/src/modules/core/app.lua: its state is the counter [ticks], [None] before the file has
    run. *)

Definition d_eighty : double := d_of_Z 80.

Definition nonzero (v : double) : bool := negb (d_eqb v d_zero).

Definition lua_truth (b : bool) : double := if b then d_one else d_zero.

(** pressed, motion, dark *)
Definition sense (st : bool * bool * bool) (o : lua_operand) : bool * bool * bool :=
  let '(pressed, motion, dark) := st in
  let pressed := if lo_di o =? 6 then nonzero (lo_value o) else pressed in
  let motion := if lo_di o =? 7 then nonzero (lo_value o) else motion in
  let dark := if lo_di o =? 8 then d_ltb d_eighty (lo_value o) else dark in
  (pressed, motion, dark).

Definition hes_op (ref_id : Z) (inputs : list lua_operand) : double :=
  if ref_id =? 1 then lua_truth (nonzero (match inputs with o :: _ => lo_value o | [] => d_zero end))
  else if ref_id =? 2 then
    let '(pressed, motion, dark) := fold_left sense inputs (false, false, false) in
    lua_truth (pressed && motion && dark)
  else d_zero.

Definition on_tick (ticks : nat) : nat := S ticks.

#[export] Instance shipped_app : Lua (option nat) double := {|
  luaL_newstate := None;
  lua_isfunction L name :=
    match L with Some _ => ((name =?s "hes_op") || (name =?s "on_tick"))%bool | None => false end;
  lua_pcall_op L ref_id inputs := Done (L, Some (hes_op ref_id inputs));
  lua_pcall_tick L := Done (on_tick <$> L, true);
  luaL_dofile _ _ := Done (Some O, true);
  lua_tonumber v := v;
|}.

(** The last reading of a device among the inputs. *)
Definition last_value (di : Z) (inputs : list lua_operand) : option double :=
  lo_value <$> find_first (fun o => lo_di o =? di) (rev inputs).

(** The row the shipped app serves as refId 2 switches the light on exactly when the button
    is pressed, motion is seen and the light sensor reads above 80, each by its last input;
    an input that is missing counts as no. *)
Theorem shipped_app_guards_the_light inputs :
  hes_op 2 inputs =
  lua_truth ((match last_value 6 inputs with Some v => nonzero v | None => false end) &&
             (match last_value 7 inputs with Some v => nonzero v | None => false end) &&
             (match last_value 8 inputs with Some v => d_ltb d_eighty v | None => false end)).
Proof.
  unfold hes_op, last_value. cbn [Z.eqb Pos.eqb].
  enough (H : fold_left sense inputs (false, false, false) =
    (match last_value 6 inputs with Some v => nonzero v | None => false end,
     match last_value 7 inputs with Some v => nonzero v | None => false end,
     match last_value 8 inputs with Some v => d_ltb d_eighty v | None => false end)) by by rewrite H.
  unfold last_value. induction inputs as [|o inputs IH] using rev_ind; [done|].
  rewrite fold_left_app, rev_app_distr, IH. cbn [fold_left rev app find_first sense].
  by destruct (lo_di o =? 6), (lo_di o =? 7), (lo_di o =? 8).
Qed.

(** ** The statements at a concrete input *)

(** A script that reads the clock and switches a light. *)
Definition ex_script : Lua unit unit := {|
  luaL_newstate := tt;
  lua_isfunction _ name := name =?s "on_tick";
  lua_pcall_op _ _ _ := Done (tt, None);
  lua_pcall_tick _ :=
    Get HES_LX_TIME_REALTIME_CV (fun answer =>
      match answer with
      | Some _ => Put "/lx/ob/uo/li/ll/da/cv" "1" (fun _ => Done (tt, true))
      | None => Done (tt, true)
      end);
  luaL_dofile _ _ := Done (tt, true);
  lua_tonumber _ := d_zero;
|}.

Example ex_app_tick :
  (msg_path <$> bus_sent (co_bus (core_app_tick (psa := Toy.psa) (lua := ex_script) (fun _ => true) ex_core))) =
  ["/lx/ob/uo/li/ll/da/cv"].
Proof. vm_compute. reflexivity. Qed.
