(* ===== verification/QueryPath.v ===== *)
(** * The path translation over its buffer

    Models the memory side of src/src/common/hes_query.c: the growable buffer of _append_n and
    _append, and _translate_path as it walks the path and appends piece by piece. [HesQuery]
    has the translation as a function of texts; the theorem here is that the code computes it
    or reports that memory ran out, whatever the path's length. A use of the buffer outside
    its bounds and an index that leaves [long] are [Undefined]. *)

From S2P Require Import Prelude CLib HesQuery.

(** ** The buffer *)

Inductive outcome (A : Type) :=
| Undefined
| Failed
| Ok (a : A).
Arguments Undefined {A}.
Arguments Failed {A}.
Arguments Ok {A}.

Notation "'let!' p := c 'in' k" :=
  (match c with Ok p => k | Failed => Failed | Undefined => Undefined end)
    (at level 10, p pattern, c at level 200, k at level 200) : hes_scope.

(** [bf_mem]: the bytes allocated; [bf_len]: how many of them are text. *)
Record buffer := mk_buffer { bf_mem : list ascii; bf_len : nat }.

Definition bf_cap (b : buffer) : nat := length (bf_mem b).

Definition memcpy (mem : list ascii) (off : nat) (src : list ascii) : option (list ascii) :=
  if (off + length src <=? length mem)%nat
  then Some (take off mem ++ src ++ drop (off + length src) mem) else None.

Section translate.
(** Whether an allocation of a size succeeds, and what fresh memory holds. *)
Variable alloc_ok : nat -> bool.
Variable junk : nat -> ascii.

Definition realloc (mem : list ascii) (size : nat) : option (list ascii) :=
  if alloc_ok size then Some (mem ++ (junk <$> seq (length mem) (size - length mem))) else None.

Definition _append_n (b : buffer) (s : string) : outcome buffer :=
  let n := String.length s in
  match (if (bf_cap b <? bf_len b + n + 1)%nat then realloc (bf_mem b) ((bf_cap b + n + 1) * 2)
         else Some (bf_mem b)) with
  | None => Failed
  | Some mem =>
      match (let* mem := memcpy mem (bf_len b) (String.list_ascii_of_string s) in
             memcpy mem (bf_len b + n) [Ascii.zero]) with
      | None => Undefined
      | Some mem => Ok (mk_buffer mem (bf_len b + n))
      end
  end.

Definition _append (b : buffer) (s : string) : outcome buffer := _append_n b s.

(** ** The walk *)

Fixpoint skip_seps (p : string) : string :=
  match p with String c r => if is_sep c then skip_seps r else p | EmptyString => p end.

Fixpoint seg_length (p : string) : nat :=
  match p with String c r => if is_sep c then O else S (seg_length r) | EmptyString => O end.

(** The length of an element's name and its index. [start] runs to the end of the path, as
    the pointer the code hands to strtol does. *)
Definition split_index (start : string) (seg_len : nat) : nat * option Z :=
  match strchr "[" (str_take seg_len start) with
  | None => (seg_len, None)
  | Some found =>
      let name_len := (seg_len - String.length found)%nat in
      let '(parsed, endp) := strtol (str_drop (S name_len) start) in
      if (starts_with "]" endp && (String.length start - String.length endp =? seg_len - 1)%nat)%bool
      then (name_len, Some parsed) else (seg_len, None)
  end.

Definition append_index (b : buffer) (idx : Z) : outcome buffer :=
  if idx =? LONG_MAX then Undefined
  else
    let text := ("[" ++ fmt_d (idx + 1) ++ "]")%string in
    if (32 <=? String.length text)%nat then Failed else _append_n b text.

Definition append_segment (b : buffer) (start : string) (seg_len : nat) : outcome buffer :=
  if starts_with "@" start then
    let! b := _append_n b "@" in _append_n b (str_take (seg_len - 1) (str_drop 1 start))
  else if ((seg_len =? 6)%nat && (str_take 6 start =?s "text()"))%bool then _append_n b "text()"
  else
    let '(name_len, idx) := split_index start seg_len in
    let! b := _append_n b (str_take name_len start) in
    match idx with Some idx => append_index b idx | None => Ok b end.

(** [fuel] bounds the turns: each consumes a segment. *)
Fixpoint translate_loop (fuel : nat) (first : bool) (p : string) (b : buffer) : outcome buffer :=
  match fuel with
  | O => Undefined
  | S fuel =>
      match skip_seps p with
      | EmptyString => Ok b
      | start =>
          let seg_len := seg_length start in
          let! b := (if first then Ok b else _append_n b "/") in
          let! b := append_segment b start seg_len in
          translate_loop fuel false (str_drop seg_len start) b
      end
  end.

(** The C string a buffer holds. *)
Fixpoint c_text (mem : list ascii) : string :=
  match mem with
  | [] => EmptyString
  | c :: mem => if Ascii.eqb c Ascii.zero then EmptyString else String c (c_text mem)
  end.

Definition translate_path (path : string) (absolute : bool) : outcome string :=
  if negb (alloc_ok 128) then Failed
  else
    match memcpy (junk <$> seq 0 128) 0 [Ascii.zero] with
    | None => Undefined
    | Some mem =>
        let b := mk_buffer mem 0 in
        let! b := (if absolute then _append b "/" else Ok b) in
        let! b := translate_loop (S (String.length path)) true path b in
        Ok (c_text (bf_mem b))
    end.

(** ** Appending *)

(** The buffer holds the text, NUL-terminated within its capacity. *)
Definition holds (b : buffer) (t : string) : Prop :=
  bf_len b = String.length t /\
  exists rest, bf_mem b = String.list_ascii_of_string t ++ Ascii.zero :: rest.

Lemma list_ascii_app s t :
  String.list_ascii_of_string (s ++ t) = String.list_ascii_of_string s ++ String.list_ascii_of_string t.
Proof. induction s as [|c s IH]; [done|]. cbn. by rewrite IH. Qed.

Lemma length_list_ascii s : length (String.list_ascii_of_string s) = String.length s.
Proof. induction s as [|c s IH]; [done|]. cbn. by rewrite IH. Qed.

Lemma memcpy_at pre old src post :
  length old = length src -> memcpy (pre ++ old ++ post) (length pre) src = Some (pre ++ src ++ post).
Proof.
  intros Hl. unfold memcpy. rewrite !length_app, Hl.
  rewrite (proj2 (Nat.leb_le _ _)) by lia. rewrite take_app_length, <- Hl, drop_app_add, drop_app_length. done.
Qed.

(** Appending to a buffer that holds a text: either there is no memory, or the buffer holds
    both texts. *)
Lemma append_spec b t s : holds b t ->
  (_append_n b s = Failed /\ exists size, alloc_ok size = false) \/
  exists b', _append_n b s = Ok b' /\ holds b' (t ++ s).
Proof.
  intros [Hlen (rest & Hmem)]. unfold _append_n. set (n := String.length s).
  assert (Hroom : forall mem, (exists more, mem = bf_mem b ++ more) -> (bf_len b + n + 1 <= length mem)%nat ->
    exists b', match (let* mem := memcpy mem (bf_len b) (String.list_ascii_of_string s) in
                      memcpy mem (bf_len b + n) [Ascii.zero]) with
               | None => Undefined | Some mem => Ok (mk_buffer mem (bf_len b + n)) end = Ok b' /\ holds b' (t ++ s)).
  { intros mem [more ->] Hcap. rewrite Hmem, <- app_assoc in *. cbn [app] in *.
    rewrite length_app, length_list_ascii in Hcap.
    set (post := Ascii.zero :: rest ++ more) in *. rewrite Hlen in *.
    rewrite <- (take_drop n post). rewrite <- (length_list_ascii t).
    rewrite memcpy_at by (rewrite length_take, length_list_ascii; fold n; lia). cbn [mbind option_bind].
    destruct (drop n post) as [|c post'] eqn:Ed.
    { apply (f_equal length) in Ed. rewrite length_drop in Ed. cbn [length] in Ed. lia. }
    rewrite app_assoc, <- list_ascii_app. replace (length (String.list_ascii_of_string t) + n)%nat
      with (length (String.list_ascii_of_string (t ++ s)))
      by (rewrite list_ascii_app, length_app, !length_list_ascii; done).
    rewrite (memcpy_at _ [c] [Ascii.zero] post') by done. eexists. split; [done|]. split; cbn.
    - by rewrite length_list_ascii.
    - by eexists. }
  destruct (Nat.ltb_spec (bf_cap b) (bf_len b + n + 1)) as [Hc|Hc].
  - unfold realloc. destruct (alloc_ok _) eqn:Ea; [|left; split; [done|by eexists]]. right. apply Hroom; [by eexists|].
    assert (bf_len b < bf_cap b)%nat.
    { unfold bf_cap. rewrite Hmem, length_app, length_list_ascii, Hlen. cbn [length]. lia. }
    rewrite length_app, length_fmap, length_seq. unfold bf_cap in *. lia.
  - right. apply Hroom; [exists []; by rewrite app_nil_r|done].
Qed.

(** The two ways a step that keeps to the buffer may go. *)
Definition grows (o : outcome buffer) (t : string) : Prop :=
  (o = Failed /\ exists size, alloc_ok size = false) \/ exists b, o = Ok b /\ holds b t.

Lemma grows_bind o t k t' :
  grows o t -> (forall b, holds b t -> grows (k b) t') -> grows (let! b := o in k b) t'.
Proof. intros [[-> H]|(b & -> & H)] Hk; [by left|by apply Hk]. Qed.

Lemma grows_append b t s : holds b t -> grows (_append_n b s) (t ++ s).
Proof. intros H. exact (append_spec b t s H). Qed.

Lemma grows_ok b t : holds b t -> grows (Ok b) t.
Proof. intros H. right. eauto. Qed.

(** ** A segment, read in the path or by itself *)

(** What follows a segment in its path. *)
Definition at_sep (rest : string) : Prop :=
  match rest with EmptyString => True | String c _ => is_sep c = true end.

Lemma is_sep_cases c : is_sep c = true -> c = "."%char \/ c = "/"%char.
Proof. unfold is_sep. intros [H|H]%orb_prop; apply ascii_eqb_eq in H; auto. Qed.

Section segment.
Variable rest : string.
Hypothesis Hrest : at_sep rest.

(** At a separator the reader of a number stands still. *)
Lemma stop_space : skip_space rest = rest.
Proof. destruct rest as [|c r]; [done|]. by destruct (is_sep_cases c Hrest) as [-> | ->]. Qed.

Lemma stop_sign : read_sign rest = (false, rest).
Proof. destruct rest as [|c r]; [done|]. by destruct (is_sep_cases c Hrest) as [-> | ->]. Qed.

Lemma stop_digits a n : digits_from a n rest = (a, n, rest).
Proof. destruct rest as [|c r]; [done|]. by destruct (is_sep_cases c Hrest) as [-> | ->]. Qed.

Lemma skip_space_sep v : skip_space (v ++ rest) = (skip_space v ++ rest)%string.
Proof. induction v as [|c v IH]; simpl; [apply stop_space|]. by destruct (isspace c). Qed.

Lemma read_sign_sep v : read_sign (v ++ rest) = (fst (read_sign v), (snd (read_sign v) ++ rest)%string).
Proof.
  destruct v as [|c v]; simpl; [apply stop_sign|].
  destruct (Ascii.eqb c "-"); [done|]. by destruct (Ascii.eqb c "+").
Qed.

Lemma digits_sep v acc n :
  digits_from acc n (v ++ rest) = (fst (digits_from acc n v), (snd (digits_from acc n v) ++ rest)%string).
Proof. apply digits_from_app. intros a k. apply stop_digits. Qed.

Lemma strtol_sep v : strtol (v ++ rest) = (fst (strtol v), (snd (strtol v) ++ rest)%string).
Proof.
  unfold strtol. rewrite skip_space_sep, read_sign_sep. destruct (read_sign (skip_space v)) as [neg w].
  cbn [fst snd]. rewrite digits_sep. destruct (digits_from 0 0 w) as [[x n] e]. cbn [fst snd].
  by destruct n.
Qed.

Lemma strtol_length v : (String.length (snd (strtol v)) <= String.length v)%nat.
Proof.
  unfold strtol. destruct (read_sign (skip_space v)) as [neg w] eqn:Ew.
  assert (Hw : (String.length w <= String.length v)%nat).
  { etransitivity; [|exact (skip_space_length v)]. unfold read_sign in Ew.
    destruct (skip_space v) as [|c u]; [by injection Ew as <- <-|].
    destruct (Ascii.eqb c "-"), (Ascii.eqb c "+"); injection Ew as <- <-; simpl; lia. }
  assert (Hd : forall u a n, (String.length (snd (digits_from a n u)) <= String.length u)%nat).
  { induction u as [|c u IH]; intros a n; simpl; [done|]. destruct (isdigit c); [|done].
    specialize (IH (a * 10 + (code c - 48)) (S n)). lia. }
  specialize (Hd w 0 O). destruct (digits_from 0 0 w) as [[x n] e]. cbn [snd] in *. destruct n; cbn [snd]; lia.
Qed.

(** The index a segment asks for. *)
Definition segment_index (seg : string) : option Z :=
  match strchr "[" seg with
  | Some (String _ tail) => let '(idx, endp) := strtol tail in if endp =?s "]" then Some idx else None
  | _ => None
  end.

Lemma split_index_spec seg :
  split_index (seg ++ rest) (String.length seg) =
  match segment_index seg with
  | Some i => (String.length (before "[" seg), Some i)
  | None => (String.length seg, None)
  end.
Proof.
  unfold split_index, segment_index. rewrite str_take_app_exact.
  destruct (strchr "[" seg) as [found|] eqn:Ef; [|done].
  apply strchr_split in Ef as [Hseg [tail ->]].
  assert (Hlen : String.length seg = (String.length (before "[" seg) + S (String.length tail))%nat)
    by (rewrite Hseg at 1; by rewrite length_str_app).
  replace (String.length seg - String.length (String "[" tail))%nat with (String.length (before "[" seg))
    by (cbn [String.length]; lia).
  replace (str_drop (S (String.length (before "[" seg))) (seg ++ rest)) with (tail ++ rest)%string.
  2:{ rewrite Hseg at 2. rewrite str_app_assoc.
      generalize (before "[" seg). intros u. induction u as [|c u IH]; [done|]. exact IH. }
  rewrite strtol_sep. pose proof (strtol_length tail) as He. destruct (strtol tail) as [i e]. cbn [fst snd] in *.
  rewrite !length_str_app. destruct e as [|c [|d e]]; cbn [String.append starts_with String.length] in *.
  - rewrite andb_comm, (proj2 (Nat.eqb_neq _ _)) by lia. done.
  - rewrite (proj2 (Nat.eqb_eq _ _)) by lia. rewrite andb_true_r. cbn [String.eqb]. by destruct (Ascii.eqb c "]").
  - rewrite andb_comm, (proj2 (Nat.eqb_neq _ _)) by lia. cbn [String.eqb]. by destruct (Ascii.eqb c "]").
Qed.

Lemma segment_index_range seg i : segment_index seg = Some i -> LONG_MIN <= i <= LONG_MAX.
Proof.
  unfold segment_index, strtol. destruct (strchr "[" seg) as [[|c tail]|]; [done| |done].
  destruct (read_sign (skip_space tail)) as [neg w]. destruct (digits_from 0 0 w) as [[x n] e].
  destruct n as [|n]; (destruct (_ =?s "]"); [|done]); intros [= <-]; unfold clamp, LONG_MIN, LONG_MAX; lia.
Qed.

Lemma append_index_spec b t i :
  holds b t -> LONG_MIN <= i < LONG_MAX -> grows (append_index b i) (t ++ ("[" ++ fmt_d (i + 1) ++ "]")).
Proof.
  intros Hb Hi. unfold append_index. rewrite (proj2 (Z.eqb_neq _ _)) by lia.
  assert (Hl : (String.length (fmt_d (i + 1)) <= 20)%nat) by (apply length_fmt_long; lia).
  rewrite (proj2 (Nat.leb_gt _ _)); [by apply grows_append|].
  rewrite !length_str_app. cbn [String.length]. lia.
Qed.

(** A segment in its path appends what [translate_segment] makes of it. *)
Lemma append_segment_spec b t c seg' :
  let seg := String c seg' in
  holds b t -> segment_index seg <> Some LONG_MAX ->
  grows (append_segment b (seg ++ rest) (String.length seg)) (t ++ translate_segment seg).
Proof.
  intros seg Hb Hmax. unfold append_segment, translate_segment.
  replace (starts_with "@" (seg ++ rest)) with (starts_with "@" seg) by done.
  destruct (starts_with "@" seg) eqn:Eat.
  { apply ascii_eqb_eq in Eat as ->. eapply grows_bind; [by apply grows_append|]. intros b' Hb'.
    replace (str_take _ _) with seg' by (cbn; by rewrite Nat.sub_0_r, str_take_app_exact).
    unfold seg. replace (t ++ String "@" seg')%string with ((t ++ "@") ++ seg')%string
      by (by rewrite str_app_assoc). by apply grows_append. }
  assert (Etext : ((String.length seg =? 6)%nat && (str_take 6 (seg ++ rest) =?s "text()"))%bool =
                  (seg =?s "text()")).
  { destruct (Nat.eqb_spec (String.length seg) 6) as [E|E].
    - by rewrite <- E, str_take_app_exact.
    - symmetry. apply String.eqb_neq. intros H. rewrite H in E. done. }
  rewrite Etext. destruct (seg =?s "text()") eqn:Et.
  { apply String.eqb_eq in Et as ->. by apply grows_append. }
  rewrite split_index_spec. fold seg in Hmax |- *.
  assert (Hti : match strchr "[" seg with
                | Some (String _ tail) =>
                    let '(idx, endp) := strtol tail in
                    if endp =?s "]" then (before "[" seg ++ "[" ++ fmt_d (idx + 1) ++ "]")%string else seg
                | _ => seg end =
                match segment_index seg with
                | Some i => (before "[" seg ++ ("[" ++ fmt_d (i + 1) ++ "]"))%string | None => seg end).
  { unfold segment_index. destruct (strchr "[" seg) as [[|a tail]|]; [done| |done].
    destruct (strtol tail) as [i e]. by destruct (e =?s "]"). }
  rewrite Hti. destruct (segment_index seg) as [i|] eqn:Ei.
  - apply segment_index_range in Ei. assert (i <> LONG_MAX) by congruence.
    eapply grows_bind; [by apply grows_append|]. intros b' Hb'.
    rewrite str_take_before in Hb'.
    rewrite <- str_app_assoc. apply append_index_spec; [done|lia].
  - eapply grows_bind; [by apply grows_append|]. intros b' Hb'. rewrite str_take_app_exact in Hb'.
    by apply grows_ok.
Qed.
End segment.

(** ** The walk and the list of segments *)

Lemma path_segments_cons cur c r :
  is_sep c = false -> path_segments cur (String c r) = path_segments (cur ++ String c "") r.
Proof. cbn. by intros ->. Qed.

(** The segment a path starts with, and what is behind it. *)
Lemma segment_split p c r : p = String c r -> is_sep c = false ->
  exists seg' rest, p = (String c seg' ++ rest)%string /\ seg_length p = String.length (String c seg') /\
    at_sep rest /\ forall cur, path_segments cur p = (cur ++ String c seg')%string :: path_segments "" rest.
Proof.
  intros -> Hc. revert c Hc. induction r as [|d r IH]; intros c Hc.
  - exists "", "". split_and!; [done|by cbn; rewrite Hc|done|]. intros cur. cbn. rewrite Hc. by destruct cur.
  - destruct (is_sep d) eqn:Ed.
    + exists "", (String d r). split_and!; [done|by cbn; rewrite Hc, Ed|done|]. intros cur. cbn.
      rewrite Hc, Ed. by destruct cur.
    + destruct (IH d Ed) as (seg' & rest & Hp & Hl & Hs & Hseg). exists (String d seg'), rest.
      split_and!; [by rewrite Hp at 1|cbn in *; by rewrite Hc, Hl|done|]. intros cur.
      rewrite path_segments_cons by done. rewrite Hseg, str_app_assoc. done.
Qed.

Lemma skip_seps_segments p : path_segments "" (skip_seps p) = path_segments "" p.
Proof. induction p as [|c p IH]; [done|]. cbn. destruct (is_sep c) eqn:E; [done|]. cbn. by rewrite E. Qed.

Lemma skip_seps_head p c r : skip_seps p = String c r -> is_sep c = false.
Proof. induction p as [|d p IH]; [done|]. cbn. destruct (is_sep d) eqn:E; [done|]. by intros [= <- <-]. Qed.

Lemma skip_seps_length p : (String.length (skip_seps p) <= String.length p)%nat.
Proof. induction p as [|c p IH]; [done|]. cbn. destruct (is_sep c); cbn; lia. Qed.

(** What the segments that are still to come add to the buffer. *)
Definition joined (first : bool) (segs : list string) : string :=
  match segs with
  | [] => ""
  | _ => ((if first then "" else "/") ++ str_join "/" segs)%string
  end.

Lemma translate_loop_spec fuel first p b t :
  holds b t -> (String.length p < fuel)%nat ->
  (forall seg, seg ∈ path_segments "" p -> segment_index seg <> Some LONG_MAX) ->
  grows (translate_loop fuel first p b) (t ++ joined first (translate_segment <$> path_segments "" p)).
Proof.
  revert first p b t. induction fuel as [|fuel IH]; intros first p b t Hb Hfuel Hmax; [lia|].
  cbn [translate_loop]. pose proof (skip_seps_length p) as Hlp.
  rewrite <- (skip_seps_segments p) in *. destruct (skip_seps p) as [|c r] eqn:Ep.
  { cbn. rewrite str_app_nil_r. by apply grows_ok. }
  apply skip_seps_head in Ep.
  destruct (segment_split _ c r eq_refl Ep) as (seg' & rest & Hp & Hl & Hrest & Hseg).
  rewrite Hseg in *. cbn [String.append] in Hmax |- *. rewrite Hl.
  rewrite Hp in *. rewrite str_drop_app. clear Hseg Hl Hp.
  eapply (grows_bind _ (t ++ if first then "" else "/")).
  { destruct first; [rewrite str_app_nil_r; by apply grows_ok|by apply grows_append]. }
  intros b1 Hb1. eapply grows_bind.
  { apply append_segment_spec; [done|exact Hb1|]. apply Hmax. apply elem_of_cons. by left. }
  intros b2 Hb2.
  replace (t ++ _)%string with (((t ++ (if first then "" else "/")) ++ translate_segment (String c seg')) ++
    joined false (translate_segment <$> path_segments "" rest))%string.
  - apply IH; [exact Hb2| |].
    + rewrite length_str_app in Hlp. cbn [String.length] in Hlp. lia.
    + intros s Hs. apply Hmax. apply elem_of_cons. by right.
  - rewrite fmap_cons. rewrite !str_app_assoc. f_equal. unfold joined at 2. f_equal.
    destruct (translate_segment <$> path_segments "" rest) as [|x l]; [cbn; by rewrite str_app_nil_r|].
    by rewrite str_join_cons.
Qed.

(** ** The result *)

Lemma c_text_holds b t : holds b t -> has_char Ascii.zero t = false -> c_text (bf_mem b) = t.
Proof.
  intros [_ [rest ->]]. unfold has_char. induction t as [|c t IH]; cbn; [done|].
  destruct (Ascii.eqb c Ascii.zero) eqn:E; [done|]. intros H. by rewrite IH.
Qed.

Definition nul_free (s : string) : Prop := has_char Ascii.zero s = false.

Lemma nul_free_cons c s : nul_free (String c s) <-> Ascii.eqb c Ascii.zero = false /\ nul_free s.
Proof. unfold nul_free, has_char. cbn. by destruct (Ascii.eqb c Ascii.zero); [split; [|intros []]|split; [|intros []]]. Qed.

Lemma nul_free_app s t : nul_free (s ++ t) <-> nul_free s /\ nul_free t.
Proof.
  unfold nul_free. rewrite has_char_app. by rewrite orb_false_iff.
Qed.

Lemma nul_free_digits s : str_forallb isdigit s = true -> nul_free s.
Proof.
  induction s as [|c s IH]; [done|]. cbn. intros [Hc Hs]%andb_prop. apply nul_free_cons.
  split; [|by apply IH]. apply Ascii.eqb_neq. by intros ->.
Qed.

Lemma nul_free_fmt_d z : nul_free (fmt_d z).
Proof.
  assert (H : forall z, 0 <= z -> nul_free (fmt_d z)) by (intros x Hx; apply nul_free_digits, fmt_d_digits, Hx).
  destruct z as [|p|p]; [by apply H..|]. change (fmt_d (Zneg p)) with (String "-" (fmt_d (Zpos p))).
  apply nul_free_cons. split; [done|by apply H].
Qed.

Lemma nul_free_before c s : nul_free s -> nul_free (before c s).
Proof. apply before_has_no. Qed.

Lemma nul_free_segments cur p : nul_free cur -> nul_free p -> forall seg, seg ∈ path_segments cur p -> nul_free seg.
Proof.
  revert cur. induction p as [|c p IH]; intros cur Hcur Hp seg; cbn [path_segments].
  - destruct cur; [by intros ?%not_elem_of_nil|]. by intros ->%list_elem_of_singleton.
  - apply nul_free_cons in Hp as [Hc Hp]. destruct (is_sep c).
    + destruct cur as [|a cur]; [by apply IH|]. intros [->|H]%elem_of_cons; [done|]. by apply (IH "").
    + apply IH; [|done]. apply nul_free_app. split; [done|]. by apply nul_free_cons.
Qed.

Lemma nul_free_translate seg : nul_free seg -> nul_free (translate_segment seg).
Proof.
  intros H. unfold translate_segment. destruct (starts_with "@" seg); [done|]. destruct (seg =?s _); [done|].
  destruct (strchr "[" seg) as [[|a tail]|]; [done| |done]. destruct (strtol tail) as [i e].
  destruct (e =?s "]"); [|done]. rewrite !nul_free_app.
  split_and!; [by apply nul_free_before|done|apply nul_free_fmt_d|done].
Qed.

Lemma nul_free_join l : (forall s, s ∈ l -> nul_free s) -> nul_free (str_join "/" l).
Proof.
  induction l as [|x l IH]; intros H; [done|]. destruct l as [|y l]; [apply H; by left|].
  rewrite str_join_cons. rewrite !nul_free_app. split_and!; [apply H; by left|done|].
  apply IH. intros s Hs. apply H. by right.
Qed.

Lemma nul_free_path path absolute : nul_free path -> nul_free (_translate_path path absolute).
Proof.
  intros H. unfold _translate_path. apply nul_free_app. split; [by destruct absolute|].
  apply nul_free_join. intros s Hs. apply list_elem_of_fmap in Hs as (seg & -> & Hs).
  apply nul_free_translate. by apply (nul_free_segments "" path).
Qed.

(** C19: No path is silently truncated: whatever its length, and whatever a fresh allocation
    holds, the C code's walk over its growing buffer stays inside it and gives exactly the
    XPath of the whole path, segment by segment; or an allocation failed, and it gives none.
    The one path it may not be handed is one with an index of LONG_MAX. *)
Theorem translate_path_is_whole path absolute :
  nul_free path ->
  (forall seg, seg ∈ path_segments "" path -> segment_index seg <> Some LONG_MAX) ->
  (translate_path path absolute = Failed /\ exists size, alloc_ok size = false) \/
  translate_path path absolute = Ok (_translate_path path absolute).
Proof.
  intros Hnul Hmax. unfold translate_path.
  destruct (alloc_ok 128) eqn:E; cbn [negb]; [|left; split; [done|by eexists]].
  destruct (memcpy _ 0 _) as [mem|] eqn:Em.
  2:{ unfold memcpy in Em. rewrite length_fmap, length_seq in Em. cbn in Em. done. }
  unfold memcpy in Em. destruct (_ <=? _)%nat; [|done]. injection Em as Em. cbn [take app length] in Em.
  assert (H0 : holds (mk_buffer mem 0) "") by (split; [done|by rewrite <- Em; eexists]). clear Em E.
  assert (Hg : grows (let! b := (if absolute then _append (mk_buffer mem 0) "/" else Ok (mk_buffer mem 0)) in
                      translate_loop (S (String.length path)) true path b) (_translate_path path absolute)).
  { eapply (grows_bind _ (if absolute then "/" else "")).
    - destruct absolute; [exact (grows_append _ "" "/" H0)|by apply grows_ok].
    - intros b Hb. unfold _translate_path.
      replace (str_join "/" (translate_segment <$> path_segments "" path)) with
        (joined true (translate_segment <$> path_segments "" path))
        by (by destruct (translate_segment <$> path_segments "" path)).
      apply translate_loop_spec; [exact Hb|lia|exact Hmax]. }
  destruct (if absolute then _ else _) as [| |b0]; cbn beta iota in *.
  - destruct Hg as [[? _]|(? & ? & _)]; done.
  - left. destruct Hg as [[_ ?]|(? & ? & _)]; done.
  - destruct (translate_loop _ _ _ b0) as [| |b].
    + destruct Hg as [[? _]|(? & ? & _)]; done.
    + left. destruct Hg as [[_ ?]|(? & ? & _)]; done.
    + right. destruct Hg as [[? _]|(b' & [= <-] & Hb)]; [done|]. f_equal.
      apply c_text_holds; [done|]. by apply nul_free_path.
Qed.
End translate.

(** A path longer than the first allocation, with an index. *)
Definition long_path : string :=
  "file.overallProcess.lexiconType.objectType.operationTable[0].operationTable.operationTable.operationTable.operationTable.operationTable.@transCode".

Lemma translate_path_is_whole_witness :
  (128 < String.length long_path)%nat /\
  translate_path (fun _ => true) (fun _ => "x"%char) long_path true = Ok (_translate_path long_path true).
Proof.
  split; [apply Nat.ltb_lt; vm_compute; reflexivity|].
  destruct (translate_path_is_whole (fun _ => true) (fun _ => "x"%char) long_path true) as [[_ [size H]]|H].
  - reflexivity.
  - apply Forall_forall. vm_compute path_segments. repeat constructor; vm_compute; discriminate.
  - discriminate H.
  - exact H.
Defined.
