(* ===== verification/Heap.v ===== *)
(** * Blocks of memory

    A heap as the set of the blocks that are allocated, for code whose allocations and
    releases are the point and whose contents are modelled elsewhere. [alloc n] says whether
    the n-th allocation succeeds; releasing what is not allocated is undefined ([None]). *)

From stdpp Require Import gmap sets list.
From S2P Require Import Prelude.

Record heap := mk_heap {
  hp_live : gset nat;
  hp_next : nat;
}.

(** A pointer, [None] when NULL. *)
Definition block : Type := option nat.

Definition malloc (alloc : nat -> bool) (h : heap) : block * heap :=
  if alloc (hp_next h)
  then (Some (hp_next h), mk_heap ({[hp_next h]} ∪ hp_live h) (S (hp_next h)))
  else (None, mk_heap (hp_live h) (S (hp_next h))).

Definition free (p : block) (h : heap) : option heap :=
  match p with
  | None => Some h
  | Some p => if decide (p ∈ hp_live h) then Some (mk_heap (hp_live h ∖ {[p]}) (hp_next h)) else None
  end.

(** ** What an object owns *)

Class Owned (A : Type) := blocks : A -> list nat.

#[export] Instance owned_block : Owned block := fun p => option_list p.
#[export] Instance owned_list {A} {o : Owned A} : Owned (list A) := fun l => concat (blocks <$> l).
#[export] Instance owned_option {A} {o : Owned A} : Owned (option A) :=
  fun a => match a with Some a => blocks a | None => [] end.

(** Releasing a list of blocks, one by one. *)
Definition free_all (ps : list nat) (h : heap) : option heap := for_each (fun p => free (Some p)) ps h.

(** A function that releases an object releases each of its blocks. *)
Definition releases {A} {o : Owned A} (f : A -> heap -> option heap) : Prop :=
  forall a h, f a h = free_all (blocks a) h.

Lemma free_all_app ps qs h : free_all (ps ++ qs) h = let* h := free_all ps h in free_all qs h.
Proof. apply for_each_app. Qed.

Lemma releases_free : releases free.
Proof. intros [p|] h; [|done]. unfold free_all. cbn. by destruct (decide _). Qed.

Lemma releases_list {A} {o : Owned A} (f : A -> heap -> option heap) :
  releases f -> releases (fun l => for_each f l).
Proof.
  intros Hf l. induction l as [|a l IH]; intros h; [done|]. cbn [for_each]. rewrite Hf.
  change (blocks (a :: l)) with (blocks a ++ blocks l). rewrite free_all_app.
  by destruct (free_all (blocks a) h).
Qed.

Lemma free_all_next ps h h' : free_all ps h = Some h' -> hp_next h' = hp_next h.
Proof.
  revert h. induction ps as [|p ps IH]; intros h; [by intros [= ->]|]. unfold free_all in *. cbn [for_each].
  unfold free at 1. destruct (decide _); [|done]. intros H. by apply IH in H.
Qed.

Lemma free_all_live ps h :
  NoDup ps -> (forall p, p ∈ ps -> p ∈ hp_live h) ->
  free_all ps h = Some (mk_heap (hp_live h ∖ list_to_set ps) (hp_next h)).
Proof.
  revert h. induction ps as [|p ps IH]; intros h Hnd Hin.
  { destruct h as [l n]. unfold free_all. cbn. do 2 f_equal. set_solver. }
  apply NoDup_cons in Hnd as [Hp Hnd]. unfold free_all in *. cbn [for_each free].
  rewrite decide_True by (apply Hin; left). rewrite IH; [|done|].
  - cbn. do 2 f_equal. set_solver.
  - intros q Hq. cbn. apply elem_of_difference. split; [apply Hin; by right|]. intros ->%elem_of_singleton. done.
Qed.

(** ** What code has allocated

    [grew h ps h']: the blocks [ps], all new, are what [h'] has beyond [h]. *)

Definition fresh (h : heap) : Prop := forall p, p ∈ hp_live h -> (p < hp_next h)%nat.

Record grew (h : heap) (ps : list nat) (h' : heap) : Prop := {
  grew_live : hp_live h' = list_to_set ps ∪ hp_live h;
  grew_nodup : NoDup ps;
  grew_range : forall p, p ∈ ps -> (hp_next h <= p < hp_next h')%nat;
  grew_next : (hp_next h <= hp_next h')%nat;
}.

Lemma grew_fresh h ps h' : fresh h -> grew h ps h' -> fresh h'.
Proof.
  intros Hf [Hl _ Hr Hn] p. rewrite Hl, elem_of_union, elem_of_list_to_set. intros [Hp|Hp]; [by apply Hr|].
  specialize (Hf p Hp). lia.
Qed.

Lemma grew_refl h : grew h [] h.
Proof. split; [set_solver|constructor|by intros p ?%elem_of_nil|done]. Qed.

Lemma grew_trans h1 h2 h3 ps qs : grew h1 ps h2 -> grew h2 qs h3 -> grew h1 (ps ++ qs) h3.
Proof.
  intros [L1 N1 R1 M1] [L2 N2 R2 M2]. split.
  - rewrite L2, L1, list_to_set_app_L. set_solver.
  - apply NoDup_app. split_and!; [done| |done]. intros p Hp Hq. specialize (R1 p Hp). specialize (R2 p Hq). lia.
  - intros p [Hp|Hp]%elem_of_app; [specialize (R1 p Hp)|specialize (R2 p Hp)]; lia.
  - lia.
Qed.

Lemma grew_perm h ps qs h' : ps ≡ₚ qs -> grew h ps h' -> grew h qs h'.
Proof.
  intros Hp [L N R M]. split; [|by rewrite <- Hp| |done].
  - rewrite L. f_equal. apply set_eq. intros x. by rewrite !elem_of_list_to_set, Hp.
  - intros p Hq. apply R. by rewrite Hp.
Qed.

Lemma malloc_grew alloc h : grew h (option_list (fst (malloc alloc h))) (snd (malloc alloc h)).
Proof.
  unfold malloc. destruct (alloc (hp_next h)); split; cbn.
  - set_solver.
  - apply NoDup_singleton.
  - intros p ->%list_elem_of_singleton. lia.
  - lia.
  - set_solver.
  - constructor.
  - by intros p ?%elem_of_nil.
  - lia.
Qed.

Lemma malloc_grew' alloc h p h' : malloc alloc h = (p, h') -> grew h (blocks p) h'.
Proof. intros E. pose proof (malloc_grew alloc h) as H. by rewrite E in H. Qed.

(** Releasing what code has allocated gives back the heap it started from. *)
Lemma grew_released h ps h' qs :
  fresh h -> grew h ps h' -> ps ≡ₚ qs -> exists h'', free_all qs h' = Some h'' /\ hp_live h'' = hp_live h.
Proof.
  intros Hf [L N R M] Hp. rewrite free_all_live.
  - eexists. split; [done|]. cbn. rewrite L. apply set_eq. intros x.
    rewrite elem_of_difference, elem_of_union, !elem_of_list_to_set, <- Hp.
    split; [tauto|]. intros Hx. split; [by right|]. intros Hq. specialize (Hf x Hx). specialize (R x Hq). lia.
  - by rewrite <- Hp.
  - intros p Hq. rewrite L, elem_of_union, elem_of_list_to_set, Hp. by left.
Qed.

(** Releasing a part of what code has allocated leaves the rest. *)
Lemma grew_free h ps qs h' :
  fresh h -> grew h (qs ++ ps) h' -> exists h'', free_all qs h' = Some h'' /\ grew h ps h''.
Proof.
  intros Hf [L N R M]. apply NoDup_app in N as (N1 & Hd & N2). rewrite free_all_live; [|done|].
  - eexists. split; [done|]. split; cbn; [|done| |done].
    + rewrite L, list_to_set_app_L. apply set_eq. intros x.
      rewrite elem_of_difference, !elem_of_union, !elem_of_list_to_set. split; [tauto|].
      intros [Hx|Hx]; (split; [tauto|]); intros Hq; [by apply (Hd x)|].
      specialize (Hf x Hx). assert (Hr : x ∈ qs ++ ps) by (apply elem_of_app; by left). specialize (R x Hr). lia.
    + intros p Hp. apply R, elem_of_app. by right.
  - intros p Hp. rewrite L, elem_of_union, elem_of_list_to_set, elem_of_app. tauto.
Qed.
