(* ===== verification/Own.v ===== *)
(** * Computations that own blocks

    Code that takes and drops references, as computations over a heap, and what each owns
    before and after: [spec pre e post] says that where the blocks [pre] are owned, among
    others, [e] is defined, leaves the others alone, and ends owning blocks that [post]
    describes. The rules are those of a small separation logic whose assertions are lists of
    blocks up to their order. *)

From stdpp Require Import gmap sets list.
From S2P Require Import Prelude Heap.

Definition refM (A : Type) : Type := heap -> option (A * heap).

#[export] Instance ref_ret : MRet refM := fun A a h => Some (a, h).
#[export] Instance ref_bind : MBind refM := fun A B k e h =>
  match e h with Some (a, h) => k a h | None => None end.

(** A call that gives a new reference, or NULL. *)
Definition obtain (given : bool) : refM block := fun h => Some (malloc (fun _ => given) h).

(** Dropping the reference, which must be held. *)
Definition unref (p : block) : refM unit := fun h => let* h := free p h in Some (tt, h).

Definition spec {A} (pre : list nat) (e : refM A) (post : A -> list nat -> Prop) : Prop :=
  forall h0 others h, fresh h0 -> grew h0 (pre ++ others) h ->
  exists a h' qs, e h = Some (a, h') /\ post a qs /\ grew h0 (qs ++ others) h'.

Section rules.
Context {A B : Type}.
Implicit Types (pre qs rs : list nat) (e : refM A).

Lemma spec_ret a pre (post : A -> list nat -> Prop) : post a pre -> spec pre (mret a) post.
Proof. intros Hp h0 others h _ G. by exists a, h, pre. Qed.

Lemma spec_perm pre pre' e post : pre ≡ₚ pre' -> spec pre e post -> spec pre' e post.
Proof.
  intros Hp He h0 others h Hf G. apply (He h0 others h Hf). eapply grew_perm; [|exact G]. by rewrite Hp.
Qed.

Lemma spec_conseq pre e (post post' : A -> list nat -> Prop) :
  (forall a qs, post a qs -> post' a qs) -> spec pre e post -> spec pre e post'.
Proof.
  intros Hi He h0 others h Hf G. destruct (He h0 others h Hf G) as (a & h' & qs & H1 & H2 & H3). exists a, h', qs.
  by auto.
Qed.

(** [rs] is for the rest of the computation. *)
Lemma spec_bind pre rs e (k : A -> refM B) mid post :
  spec pre e mid -> (forall a qs, mid a qs -> spec (qs ++ rs) (k a) post) -> spec (pre ++ rs) (mbind k e) post.
Proof.
  intros He Hk h0 others h Hf G. rewrite <- app_assoc in G.
  destruct (He h0 (rs ++ others) h Hf G) as (a & h1 & qs & E & Hm & G1).
  rewrite app_assoc in G1. destruct (Hk a qs Hm h0 others h1 Hf G1) as (b & h2 & qs2 & E2 & Hp & G2).
  exists b, h2, qs2. split; [|done]. unfold mbind, ref_bind. by rewrite E.
Qed.

Lemma spec_bind0 rs e (k : A -> refM B) mid post :
  spec [] e mid -> (forall a qs, mid a qs -> spec (qs ++ rs) (k a) post) -> spec rs (mbind k e) post.
Proof. apply (spec_bind []). Qed.

Lemma spec_frame pre rs e post :
  spec pre e post -> spec (pre ++ rs) e (fun a qs => exists q, qs = q ++ rs /\ post a q).
Proof.
  intros He h0 others h Hf G. rewrite <- app_assoc in G.
  destruct (He h0 (rs ++ others) h Hf G) as (a & h1 & qs & E & Hm & G1). rewrite app_assoc in G1.
  exists a, h1, (qs ++ rs). split; [done|]. split; [by exists qs|done].
Qed.
End rules.

Lemma spec_obtain given : spec [] (obtain given) (fun p qs => qs = blocks p /\ bool_decide (p <> None) = given).
Proof.
  intros h0 others h Hf G. unfold obtain. destruct (malloc _ h) as [p h1] eqn:E. exists p, h1, (blocks p).
  split; [done|]. split.
  - split; [done|]. unfold malloc in E. by destruct given; injection E as <- <-.
  - eapply grew_perm; [apply Permutation_app_comm|]. eapply grew_trans; [exact G|]. by eapply malloc_grew'.
Qed.

Lemma spec_unref p : spec (blocks p) (unref p) (fun _ qs => qs = []).
Proof.
  intros h0 others h Hf G. unfold unref. rewrite releases_free.
  destruct (grew_free _ _ _ _ Hf G) as (h1 & -> & G1). by exists tt, h1, [].
Qed.

(** Takes what it is given and gives it back. *)
Definition balanced {A} (e : refM A) : Prop := spec [] e (fun _ qs => qs = []).

Lemma balanced_ret {A} (a : A) : balanced (mret a).
Proof. by apply spec_ret. Qed.

Lemma balanced_bind {A B} (e : refM A) (k : A -> refM B) :
  balanced e -> (forall a, balanced (k a)) -> balanced (mbind k e).
Proof. intros He Hk. eapply spec_bind0; [exact He|]. intros a qs ->. apply Hk. Qed.

(** A reference taken, used and dropped, or not given at all. *)
Definition glance (given : bool) : refM unit := p ← obtain given; unref p.

Lemma balanced_glance given : balanced (glance given).
Proof.
  eapply spec_bind0; [apply spec_obtain|]. intros p qs [-> _]. rewrite app_nil_r. apply spec_unref.
Qed.

Fixpoint each {A} (body : A -> refM unit) (l : list A) : refM unit :=
  match l with [] => mret tt | a :: l => body a;; each body l end.

Lemma balanced_each {A} (body : A -> refM unit) l : (forall a, balanced (body a)) -> balanced (each body l).
Proof. intros Hb. induction l as [|a l IH]; [apply balanced_ret|]. apply balanced_bind; [apply Hb|by intros []]. Qed.

Create HintDb own.
#[export] Hint Resolve balanced_ret balanced_bind balanced_glance balanced_each : own.

(** A computation that owned nothing and ends owning [qs]: from any heap, those are what it
    left there. *)
Lemma spec_run {A} (e : refM A) post h : fresh h -> spec [] e post ->
  exists a h' qs, e h = Some (a, h') /\ post a qs /\ grew h qs h'.
Proof.
  intros Hf He. destruct (He h [] h Hf (grew_refl h)) as (a & h' & qs & H1 & H2 & H3).
  rewrite app_nil_r in H3. by exists a, h', qs.
Qed.

(** ** Steps of a proof *)

(** The next command, on some of what is owned. *)
Lemma spec_step {A B} (own rs pre : list nat) (e : refM A) (k : A -> refM B) mid post :
  pre ≡ₚ own ++ rs -> spec own e mid -> (forall a qs, mid a qs -> spec (qs ++ rs) (k a) post) ->
  spec pre (mbind k e) post.
Proof. intros Hp He Hk. eapply spec_perm; [symmetry; exact Hp|]. by eapply spec_bind. Qed.

Lemma step_balanced {A B} (pre : list nat) (e : refM A) (k : A -> refM B) post :
  balanced e -> (forall a, spec pre (k a) post) -> spec pre (mbind k e) post.
Proof. intros He Hk. eapply spec_bind0; [exact He|]. intros a qs ->. apply Hk. Qed.

Lemma step_obtain {B} given (pre : list nat) (k : block -> refM B) post :
  (forall p, bool_decide (p <> None) = given -> spec (blocks p ++ pre) (k p) post) -> spec pre (mbind k (obtain given)) post.
Proof. intros Hk. eapply spec_bind0; [apply spec_obtain|]. intros p qs [-> Hp]. by apply Hk. Qed.

Lemma step_unref {B} (p : block) (pre rs : list nat) (k : unit -> refM B) post :
  pre ≡ₚ blocks p ++ rs -> spec rs (k tt) post -> spec pre (mbind k (unref p)) post.
Proof.
  intros Hp Hk. eapply spec_step; [exact Hp|apply spec_unref|]. by intros [] qs ->.
Qed.

Ltac step_take p Hp := apply step_obtain; intros p Hp.
(** [step_drop rs]: the next command drops a reference that is owned beside [rs]. *)
Ltac step_drop rs := apply (step_unref _ _ rs); [solve_Permutation|].
(** [step_call own rs lem]: the next command has the specification [lem] on [own]. *)
Ltac step_call own rs lem := eapply (spec_step own rs); [solve_Permutation|apply lem|].
