(* ===== verification/BluezRefs.v ===== *)
(** * The references of the BlueZ backend

    Models which GLib objects src/src/han/ble/hes_ble_bluez.c takes and drops: the bus
    connection, the proxies of the slots, and the variants, iterators, errors and texts of
    each call. What the calls answer and where the control goes is Bluez.v's, the check of the
    connection that a poll makes first included; an object here is the one reference the code
    was given. A reference the code gives up without dropping
    it is returned as lost. *)

From stdpp Require Import gmap sets list.
From S2P Require Import Prelude CLib HesCommon HesBle BleSim Bluez BluezFacts Heap Own.

(** What Bluez.v leaves open: whether a proxy could be made, what a call of the adapter
    answered, and whether a failed call left an error to free. *)
Class BluezRefs (W : Type) `{Bluez W} := {
  om_proxy : W -> bool;
  adapter_proxy : W -> bool -> bool;
  adapter_reply : W -> bool -> bool;
  call_error : W -> bool;
  om_answers : forall w, om_proxy w = false -> snd (dbus_objects w) = None;
}.

(** The two proxies of a slot. *)
Record slot_refs := mk_refs { sr_dev : block; sr_btn : block }.
#[export] Instance owned_slot : Owned slot_refs := fun r => blocks (sr_dev r) ++ blocks (sr_btn r).

(** The file's static references: the connection and the slots'. *)
Record bluez_refs := mk_bluez_refs { br_conn : block; br_slots : list slot_refs }.
#[export] Instance owned_bluez : Owned bluez_refs := fun b => blocks (br_conn b) ++ blocks (br_slots b).

Section refs.
Context {W : Type} {libc : Libc W} {bluez : Bluez W} {brefs : BluezRefs W}.

(** [if (error) g_error_free(error)] *)
Definition drop_error (w : W) : refM unit := glance (call_error w).

(** ** Finding the path *)

(** The interfaces of one object: the text of the path when one of them is the device. On a
    hit the iterator and the object's interfaces go too. *)
Fixpoint walk_interfaces (mac : string) (ii ifaces : block) (l : list (string * option string)) : refM block :=
  match l with
  | [] => unref ii;; unref ifaces;; mret None
  | (iname, addr) :: l =>
      props ← obtain true;
      match (if iname =?s DEVICE_INTERFACE then addr else None) with
      | Some a =>
          addr ← obtain true;
          if strcasecmp_eq a mac then
            result ← obtain true;
            unref ii;; unref addr;; unref props;; unref ifaces;; mret result
          else unref addr;; unref props;; walk_interfaces mac ii ifaces l
      | None => unref props;; walk_interfaces mac ii ifaces l
      end
  end.

Fixpoint walk_objects (mac : string) (l : list managed_object) : refM block :=
  match l with
  | [] => mret None
  | (_, ifaces) :: l =>
      iv ← obtain true;
      ii ← obtain true;
      result ← walk_interfaces mac ii iv ifaces;
      match result with Some _ => mret result | None => walk_objects mac l end
  end.

Definition resolve_path_refs (w : W) (mac : string) : refM block :=
  om ← obtain (om_proxy w);
  match om with
  | None => drop_error w;; mret None
  | Some _ =>
      match snd (dbus_objects w) with
      | None => unref om;; drop_error w;; mret None
      | Some l =>
          objects ← obtain true;
          unref om;;
          oi ← obtain true;
          result ← walk_objects mac l;
          unref oi;; unref objects;; mret result
      end
  end.

(** ** Scanning

    The reply is not looked at. *)
Definition start_discovery (w : W) : refM (list nat) :=
  ad ← obtain (adapter_proxy w true);
  match ad with
  | None => drop_error w;; mret []
  | Some _ => reply ← obtain (adapter_reply w true); unref ad;; mret (blocks reply)
  end.

Definition stop_discovery (w : W) : refM (list nat) :=
  ad ← obtain (adapter_proxy w false);
  match ad with
  | None => mret []
  | Some _ => reply ← obtain (adapter_reply w false); unref ad;; mret (blocks reply)
  end.

Definition discover_refs (w : W) (d : bluez_dev_t) (now : Z) : refM (list nat) :=
  if ((bz_path d =?s "") && (bz_next_try d <=? now))%bool then
    p ← resolve_path_refs w (bz_mac d);
    let w := fst (resolve_path w (bz_mac d)) in
    match p with
    | Some _ => unref p;; stop_discovery w
    | None => if bz_scanning d then mret [] else start_discovery w
    end
  else mret [].

(** ** Signals *)

Definition on_signal_refs (m : bluez_mgr_t) (s : bluez_signal) : refM unit :=
  match s with
  | DeviceProps (Some p) connected =>
      match list_find (fun d => bz_path d <> "" /\ bz_path d = p) (bz_dev m) with
      | None => mret tt
      | Some _ =>
          changed ← obtain true;
          glance (bool_decide (connected <> None));;
          unref changed
      end
  | DeviceProps None _ => mret tt
  | CharProps proxy value =>
      match list_find (fun d => bz_btn d = Some proxy) (bz_dev m), value with
      | Some _, Some _ => vv ← obtain true; glance true;; unref vv
      | _, _ => mret tt
      end
  end.

Fixpoint signals_refs (m : bluez_mgr_t) (sigs : list bluez_signal) : refM unit :=
  match sigs with [] => mret tt | s :: sigs => on_signal_refs m s;; signals_refs (on_signal m s) sigs end.

Definition pump_refs (w : W) (m : bluez_mgr_t) : refM unit := signals_refs m (snd (dbus_iterate w)).

Fixpoint wait_resolved_refs (spins : nat) (w : W) (m : bluez_mgr_t) (proxy : Z) : refM unit :=
  match spins with
  | O => mret tt
  | S spins' =>
      pump_refs w m;;
      let '(w, m) := pump w m in
      let '(w, r) := dbus_property (dbus_sleep w) proxy "ServicesResolved" in
      glance (bool_decide (r <> None));;
      match r with Some true => mret tt | _ => wait_resolved_refs spins' w m proxy end
  end.

(** ** The button *)

(** The reply to StopNotify is not looked at. *)
Definition unsubscribe_refs (w : W) (m : bluez_mgr_t) (k : nat) (r : slot_refs) : refM (slot_refs * list nat) :=
  match (let* d := bz_dev m !! k in bz_btn d) with
  | None => mret (r, [])
  | Some p =>
      reply ← obtain (snd (dbus_call w p "StopNotify"));
      unref (sr_btn r);;
      mret (mk_refs (sr_dev r) None, blocks reply)
  end.

Definition subscribe_refs (w : W) (m : bluez_mgr_t) (k : nat) (r : slot_refs) : refM slot_refs :=
  match bz_dev m !! k with
  | None => mret r
  | Some d =>
      if (bool_decide (bz_btn d <> None) || negb (bz_conn m) || (bz_path d =?s ""))%bool then mret r
      else
        let '(w, p) := dbus_char w (hes_strlcpy 320 (bz_path d ++ BTN_CHAR_SUFFIX)%string) in
        btn ← obtain (bool_decide (p <> None));
        match p with
        | None => drop_error w;; mret r
        | Some p => glance (snd (dbus_call w p "StartNotify"));; mret (mk_refs (sr_dev r) btn)
        end
  end.

(** ** A poll *)

Definition watch_link_refs (w : W) (m : bluez_mgr_t) (k : nat) (d : bluez_dev_t) (r : slot_refs)
  : refM (slot_refs * list nat) :=
  match bz_proxy d with
  | None => mret (r, [])
  | Some p =>
      let '(w, c) := dbus_property w p "Connected" in
      glance (bool_decide (c <> None));;
      if default (bz_connected d) c then mret (r, [])
      else unsubscribe_refs w (upd_slot k (slot_with_connected false) m) k r
  end.

(** The reply to a Connect that succeeded is only compared with NULL. *)
Definition connect_refs (now : Z) (i k : nat) (w : W) (m : bluez_mgr_t) (d : bluez_dev_t) (r : slot_refs)
  : refM (slot_refs * list nat) :=
  let '(w, proxy) := match bz_proxy d with
                     | Some p => (w, Some p)
                     | None => dbus_device w (bz_path d)
                     end in
  dev ← (match bz_proxy d with Some _ => mret (sr_dev r) | None => obtain (bool_decide (proxy <> None)) end);
  let r := mk_refs dev (sr_btn r) in
  match proxy with
  | None => drop_error w;; mret (r, [])
  | Some p =>
      let m := upd_conn i HES_BLE_STATE_CONNECTING now (upd_slot k (slot_with_proxy proxy) m) in
      let '(w, ok) := dbus_call w p "Connect" in
      reply ← obtain ok;
      if negb ok then drop_error w;; mret (r, [])
      else
        wait_resolved_refs (Z.to_nat (RESOLVE_TIMEOUT_MS / 50)) w m p;;
        let '(w, m, resolved) := wait_resolved (Z.to_nat (RESOLVE_TIMEOUT_MS / 50)) w m p in
        if negb resolved then mret (r, blocks reply)
        else
          let '(w, c) := dbus_property w p "Connected" in
          glance (bool_decide (c <> None));;
          let m := upd_slot k (slot_with_connected (default true c)) m in
          let m := upd_slot k (slot_with_retry 0 0) (upd_conn i HES_BLE_STATE_ONLINE now m) in
          r ← subscribe_refs w m k r;
          mret (r, blocks reply)
  end.

Abbreviation poll_state := (W * bluez_mgr_t * list hes_ble_event_t)%type.

(** One entry of the public array, like [poll_device]. *)
Definition poll_device_refs (now : Z) (i : nat) (s : poll_state) (rs : list slot_refs)
  : refM (list slot_refs * list nat) :=
  let '(w, m, evs) := s in
  match (let* c := bz_mgr m !! i in
         let* k := find_slot m (bc_device_index c) in
         let* d := bz_dev m !! k in
         if bz_conn m then Some (c, k, d) else None) with
  | None => mret (rs, [])
  | Some (c, k, d) =>
      scan ← discover_refs w d now;
      let '(w, m) := discover w m k d now in
      match bz_dev m !! k, rs !! k with
      | Some d, Some r =>
          '(r, lost) ←
            (if is_online c then watch_link_refs w m k d r
             else if ((bz_path d =?s "") || (now <? bz_next_try d))%bool then mret (r, [])
             else connect_refs now i k w m d r);
          mret (<[k := r]> rs, scan ++ lost)
      | _, _ => mret (rs, scan)
      end
  end.

Fixpoint poll_devices_refs (now : Z) (max : nat) (ids : list nat) (s : poll_state) (rs : list slot_refs)
  : refM (list slot_refs * list nat) :=
  match ids with
  | [] => mret (rs, [])
  | i :: ids =>
      '(rs, lost) ← poll_device_refs now i s rs;
      match poll_device now max i s with
      | None => mret (rs, lost)
      | Some s => '(rs, lost') ← poll_devices_refs now max ids s rs; mret (rs, lost ++ lost')
      end
  end.

Definition bluez_poll_refs (w : W) (m : bluez_mgr_t) (max : nat) (rs : list slot_refs)
  : refM (list slot_refs * list nat) :=
  let '(w, now) := c_time w in
  pump_refs w m;;
  let '(w, m) := pump w m in
  poll_devices_refs now max (seq 0 (length (bz_mgr m))) (w, m, []) rs.

(** ** The other calls *)

Definition bluez_init_refs (w : W) : refM bluez_refs :=
  let '(w, ok) := dbus_open w in
  conn ← obtain ok;
  (if ok then mret tt else drop_error w);;
  mret (mk_bluez_refs conn []).

Definition bluez_add_refs (m : bluez_mgr_t) (device_index : Z) (rs : list slot_refs) : list slot_refs :=
  match find_slot m device_index with
  | Some _ => rs
  | None =>
      if ((HES_BLE_MAX_DEVS <=? length (bz_dev m))%nat || (HES_BLE_MAX_DEVS <=? length (bz_mgr m))%nat)%bool
      then rs else rs ++ [mk_refs None None]
  end.

(** The reply to Disconnect is not looked at either. *)
Definition close_slot_refs (w : W) (m : bluez_mgr_t) (k : nat) (r : slot_refs) : refM (list nat) :=
  '(r, lost) ← unsubscribe_refs w m k r;
  let '(w, m) := unsubscribe_button w m k in
  match (let* d := bz_dev m !! k in bz_proxy d) with
  | None => mret lost
  | Some p =>
      reply ← obtain (snd (dbus_call w p "Disconnect"));
      unref (sr_dev r);;
      mret (lost ++ blocks reply)
  end.

(** The slots from [k] on. *)
Fixpoint close_slots_refs (k : nat) (w : W) (m : bluez_mgr_t) (rs : list slot_refs) : refM (list nat) :=
  match rs with
  | [] => mret []
  | r :: rs =>
      lost ← close_slot_refs w m k r;
      match bluez_close_slot k (w, m) with
      | None => mret lost
      | Some (w, m) => lost' ← close_slots_refs (S k) w m rs; mret (lost ++ lost')
      end
  end.

Definition bluez_close_refs (w : W) (m : bluez_mgr_t) (b : bluez_refs) : refM (list nat) :=
  lost ← close_slots_refs 0 w m (br_slots b);
  unref (br_conn b);;
  mret lost.

(** ** A session

    What the module does with the manager: devices are added, then it polls, and in the end it
    closes. *)
Inductive mgr_call := CallAdd (device_index : Z) (address : string) | CallPoll (max : nat).

Definition call (c : mgr_call) (w : W) (m : bluez_mgr_t) : option (W * bluez_mgr_t) :=
  match c with
  | CallAdd di addr => Some (fst (bluez_add w m di addr))
  | CallPoll max => fst <$> bluez_poll w m max
  end.

Definition call_refs (c : mgr_call) (w : W) (m : bluez_mgr_t) (rs : list slot_refs) : refM (list slot_refs * list nat) :=
  match c with
  | CallAdd di _ => mret (bluez_add_refs m di rs, [])
  | CallPoll max => bluez_poll_refs w m max rs
  end.

Fixpoint calls (cs : list mgr_call) (w : W) (m : bluez_mgr_t) : option (W * bluez_mgr_t) :=
  match cs with [] => Some (w, m) | c :: cs => let* (w, m) := call c w m in calls cs w m end.

Fixpoint calls_refs (cs : list mgr_call) (w : W) (m : bluez_mgr_t) (b : bluez_refs) : refM (list nat) :=
  match cs with
  | [] => bluez_close_refs w m b
  | c :: cs =>
      '(rs, lost) ← call_refs c w m (br_slots b);
      match call c w m with
      | None => mret lost
      | Some (w, m) => lost' ← calls_refs cs w m (mk_bluez_refs (br_conn b) rs); mret (lost ++ lost')
      end
  end.

Definition session_refs (w : W) (cs : list mgr_call) : refM (list nat) :=
  b ← bluez_init_refs w;
  let '(w, m) := bluez_init w in
  calls_refs cs w m b.
End refs.
