(* ===== verification/BluezRefsFacts.v ===== *)
(** * No reference of the BlueZ backend is dropped twice, and which are kept

    Every computation of BluezRefs.v is defined whatever D-Bus answers, and after a session all
    references are gone but the replies the code does not look at. *)

From stdpp Require Import gmap sets list.
From S2P Require Import Prelude CLib HesCommon HesBle BleSim Bluez BluezFacts Heap Own BluezRefs.

Section facts.
Context {W : Type} {libc : Libc W} {bluez : Bluez W} {brefs : BluezRefs W}.

(** ** Finding the path *)

Lemma walk_interfaces_spec mac ii ifaces l :
  spec (blocks ii ++ blocks ifaces) (walk_interfaces mac ii ifaces l)
    (fun r qs => qs = blocks r /\ bool_decide (r <> None) = existsb (is_device mac) l).
Proof.
  induction l as [|[iname addr] l IH]; cbn [walk_interfaces existsb].
  { step_drop (blocks ifaces). step_drop (@nil nat). by apply spec_ret. }
  step_take props Hprops. unfold is_device at 1. destruct (iname =?s DEVICE_INTERFACE), addr as [a|]; cbn [andb orb];
    try (step_drop (blocks ii ++ blocks ifaces); exact IH).
  step_take v Hv. destruct (strcasecmp_eq a mac); cbn [orb].
  - step_take found Hfound. step_drop (blocks found ++ blocks v ++ blocks props ++ blocks ifaces).
    step_drop (blocks found ++ blocks props ++ blocks ifaces). step_drop (blocks found ++ blocks ifaces).
    step_drop (blocks found). by apply spec_ret.
  - step_drop (blocks props ++ blocks ii ++ blocks ifaces). step_drop (blocks ii ++ blocks ifaces). exact IH.
Qed.

Lemma walk_objects_spec mac l :
  spec [] (walk_objects mac l)
    (fun r qs => qs = blocks r /\
       bool_decide (r <> None) = existsb (fun o : managed_object => existsb (is_device mac) (snd o)) l).
Proof.
  induction l as [|[opath ifaces] l IH]; cbn [walk_objects existsb snd]; [by apply spec_ret|].
  step_take iv Hiv. step_take ii Hii.
  step_call (blocks ii ++ blocks iv) (@nil nat) walk_interfaces_spec.
  intros r qs [-> Hr]. rewrite app_nil_r. destruct r as [x|]; cbn in Hr; rewrite <- Hr.
  - by apply spec_ret.
  - exact IH.
Qed.

Lemma drop_error_balanced w : balanced (drop_error w).
Proof. apply balanced_glance. Qed.

(** The text of the path is all that is left, and there is one exactly when Bluez.v finds a
    path. *)
Lemma resolve_path_spec w mac :
  spec [] (resolve_path_refs w mac)
    (fun r qs => qs = blocks r /\ bool_decide (r <> None) = bool_decide (snd (resolve_path w mac) <> None)).
Proof.
  unfold resolve_path_refs, resolve_path. pose proof (om_answers w) as Hom. step_take om Eom.
  destruct (dbus_objects w) as [w1 objects]. cbn [snd] in *. destruct om as [o|].
  2: { apply step_balanced; [apply drop_error_balanced|]. intros _. cbn in Eom. rewrite Hom by done. by apply spec_ret. }
  destruct objects as [l|].
  2: { step_drop (@nil nat). apply step_balanced; [apply drop_error_balanced|]. intros _. by apply spec_ret. }
  step_take objs Eobjs. step_drop (blocks objs). step_take oi Eoi.
  step_call (@nil nat) (blocks oi ++ blocks objs) walk_objects_spec.
  intros r qs [-> Hr]. step_drop (blocks r ++ blocks objs). step_drop (blocks r). apply spec_ret. split; [done|].
  rewrite Hr. cbn [mbind option_bind]. clear. induction l as [|[p i] l IH]; [done|]. cbn [existsb find_first snd].
  by destruct (existsb (is_device mac) i).
Qed.

(** ** Scanning *)

Lemma start_discovery_spec w : spec [] (start_discovery w) (fun lost qs => qs = lost).
Proof.
  unfold start_discovery. step_take ad Ead. destruct ad as [x|].
  - step_take reply Er. step_drop (blocks reply). by apply spec_ret.
  - apply step_balanced; [apply drop_error_balanced|]. intros _. by apply spec_ret.
Qed.

Lemma stop_discovery_spec w : spec [] (stop_discovery w) (fun lost qs => qs = lost).
Proof.
  unfold stop_discovery. step_take ad Ead. destruct ad as [x|]; [|by apply spec_ret].
  step_take reply Er. step_drop (blocks reply). by apply spec_ret.
Qed.

Lemma discover_spec w d now : spec [] (discover_refs w d now) (fun lost qs => qs = lost).
Proof.
  unfold discover_refs. destruct (_ && _)%bool; [|by apply spec_ret].
  step_call (@nil nat) (@nil nat) resolve_path_spec. intros p qs [-> _]. rewrite app_nil_r. cbv zeta.
  destruct p as [x|].
  - step_drop (@nil nat). apply stop_discovery_spec.
  - destruct (bz_scanning d); [by apply spec_ret|apply start_discovery_spec].
Qed.

(** ** Signals *)

Lemma on_signal_balanced m s : balanced (on_signal_refs m s).
Proof.
  assert (Hpair : forall b, balanced (v ← obtain true; glance b;; unref v)).
  { intros b. unfold balanced. step_take v Hv. apply step_balanced; [apply balanced_glance|]. intros _.
    rewrite app_nil_r. apply spec_unref. }
  destruct s as [[p|] c|proxy v]; cbn [on_signal_refs]; [|apply balanced_ret|].
  - destruct (list_find _ _); [apply Hpair|apply balanced_ret].
  - destruct (list_find _ _); [|apply balanced_ret]. destruct v; [apply Hpair|apply balanced_ret].
Qed.

Lemma pump_balanced w m : balanced (pump_refs w m).
Proof.
  unfold pump_refs. generalize (snd (dbus_iterate w)). intros sigs. revert m.
  induction sigs as [|s sigs IH]; intros m; [apply balanced_ret|]. apply balanced_bind; [apply on_signal_balanced|]. intros _. apply IH.
Qed.

Lemma wait_resolved_balanced spins w m p : balanced (wait_resolved_refs spins w m p).
Proof.
  revert w m. induction spins as [|spins IH]; intros w m; [apply balanced_ret|]. cbn [wait_resolved_refs].
  apply balanced_bind; [apply pump_balanced|]. intros _. destruct (pump w m) as [w1 m1].
  destruct (dbus_property _ _ _) as [w2 r]. apply balanced_bind; [apply balanced_glance|]. intros _.
  destruct r as [[]|]; [apply balanced_ret|apply IH..].
Qed.

(** ** The slots and their proxies *)

Definition proxies (d : bluez_dev_t) : option Z * option Z := (bz_proxy d, bz_btn d).
Definition slots (m : bluez_mgr_t) : list (option Z * option Z) := proxies <$> bz_dev m.

(** A slot holds a reference exactly to the proxies it has. *)
Definition agree (p : option Z * option Z) (r : slot_refs) : Prop :=
  (fst p = None <-> sr_dev r = None) /\ (snd p = None <-> sr_btn r = None).

Lemma slots_lookup m k d : bz_dev m !! k = Some d -> slots m !! k = Some (proxies d).
Proof. intros H. unfold slots. by rewrite list_lookup_fmap, H. Qed.

Lemma slots_upd k f m d : bz_dev m !! k = Some d -> slots (upd_slot k f m) = <[k := proxies (f d)]> (slots m).
Proof.
  intros Hd. unfold slots. cbn. apply list_eq. intros j. rewrite list_lookup_fmap, list_lookup_alter.
  destruct (decide (j = k)) as [->|Hne].
  - rewrite Hd, list_lookup_insert_eq; [by rewrite decide_True|]. rewrite length_fmap. by eapply lookup_lt_Some.
  - rewrite list_lookup_insert_ne, list_lookup_fmap by done. by rewrite decide_False.
Qed.

Lemma slots_same k f m : (forall d, proxies (f d) = proxies d) -> slots (upd_slot k f m) = slots m.
Proof. intros Hf. unfold slots. cbn. by apply fmap_alter_same. Qed.

Lemma slots_signals sigs m : slots (fold_left on_signal sigs m) = slots m.
Proof.
  revert m. induction sigs as [|s sigs IH]; intros m; [done|]. cbn [fold_left]. rewrite IH.
  destruct s as [[p|] c|proxy v]; cbn [on_signal]; [|done|].
  - unfold on_device_props. destruct (list_find _ _) as [[k d]|]; [|done]. destruct c; [by apply slots_same|done].
  - unfold on_btn_value. destruct (list_find _ _) as [[k d]|]; [|done].
    destruct v as [[|b v]|]; [done|by apply slots_same|done].
Qed.

Lemma slots_pump w m : slots (snd (pump w m)) = slots m.
Proof. unfold pump. destruct (dbus_iterate w) as [w1 sigs]. apply slots_signals. Qed.

Lemma slots_wait n w m p : slots (snd (fst (wait_resolved n w m p))) = slots m.
Proof.
  revert w m. induction n as [|n IH]; intros w m; cbn [wait_resolved]; [done|].
  pose proof (slots_pump w m) as Hq. destruct (pump w m) as [w1 m1]. cbn [snd] in Hq.
  destruct (dbus_property _ _ _) as [w2 r]. rewrite <- Hq. destruct r as [[]|]; [done|apply IH..].
Qed.

Lemma slots_discover w m k d now : slots (snd (discover w m k d now)) = slots m.
Proof.
  unfold discover. destruct (_ && _)%bool; [|done].
  destruct (resolve_path _ _) as [w1 [p|]]; by apply slots_same.
Qed.

(** After a computation on slot [k]: only that slot's proxies may differ, and [r] has the
    references to them. *)
Definition slot_after (m m' : bluez_mgr_t) (k : nat) (r : slot_refs) : Prop :=
  exists p, slots m' = <[k := p]> (slots m) /\ agree p r.

Lemma slot_after_same m m' k d r : bz_dev m !! k = Some d -> slots m' = slots m -> agree (proxies d) r -> slot_after m m' k r.
Proof. intros Hd Hs Ha. exists (proxies d). split; [|done]. rewrite Hs, list_insert_id; [done|]. by apply slots_lookup. Qed.

Lemma slot_after_upd m k f d r : bz_dev m !! k = Some d -> agree (proxies (f d)) r -> slot_after m (upd_slot k f m) k r.
Proof. intros Hd Ha. exists (proxies (f d)). split; [by apply slots_upd|done]. Qed.

Lemma slot_after_eq m1 m2 m1' m2' k r : slots m2 = slots m1 -> slots m2' = slots m1' -> slot_after m1 m1' k r -> slot_after m2 m2' k r.
Proof. intros H1 H2 (p & Hp & Ha). exists p. split; [congruence|done]. Qed.

Lemma slot_after_trans m1 m2 m3 k r r' : slot_after m1 m2 k r -> slot_after m2 m3 k r' -> slot_after m1 m3 k r'.
Proof. intros (p & Hp & _) (q & Hq & Ha). exists q. split; [|done]. by rewrite Hq, Hp, list_insert_insert_eq. Qed.

(** What a computation on a slot that owned [blocks r] gives: the slot's new references and
    the lost ones. *)
Definition slot_post (m m' : bluez_mgr_t) (k : nat) (x : slot_refs * list nat) (qs : list nat) : Prop :=
  qs ≡ₚ blocks (fst x) ++ snd x /\ slot_after m m' k (fst x).

Lemma unsubscribe_spec w m k d r : bz_dev m !! k = Some d -> agree (proxies d) r ->
  spec (blocks r) (unsubscribe_refs w m k r) (slot_post m (snd (unsubscribe_button w m k)) k).
Proof.
  intros Hd [Ha Hb]. change (blocks r) with (blocks (sr_dev r) ++ blocks (sr_btn r)).
  unfold unsubscribe_refs, unsubscribe_button. rewrite Hd. cbn [mbind option_bind snd]. destruct (bz_btn d) as [p|] eqn:Ep.
  - step_take reply Hr. step_drop (blocks (sr_dev r) ++ blocks reply). apply spec_ret. split.
    + cbn [fst snd]. change (blocks (mk_refs (sr_dev r) None)) with (blocks (sr_dev r) ++ []). by rewrite app_nil_r.
    + apply (slot_after_upd m k _ d); [done|]. split; [exact Ha|done].
  - apply spec_ret. split; [by rewrite app_nil_r|]. apply (slot_after_upd m k _ d); [done|]. split; [exact Ha|]. cbn.
    unfold proxies in Hb. cbn in Hb. rewrite Ep in Hb. by split; [intros _; apply Hb|].
Qed.

Lemma subscribe_spec w m k d r : bz_dev m !! k = Some d -> agree (proxies d) r ->
  spec (blocks r) (subscribe_refs w m k r)
    (fun r' qs => qs ≡ₚ blocks r' /\ slot_after m (snd (subscribe_button w m k)) k r').
Proof.
  intros Hd Hag. pose proof Hag as [Ha Hb]. unfold subscribe_refs, subscribe_button. rewrite Hd.
  destruct (_ || _)%bool eqn:Eguard; [apply spec_ret; split; [done|by eapply slot_after_same]|].
  assert (Hnone : bz_btn d = None).
  { apply orb_false_iff in Eguard as [H _]. apply orb_false_iff in H as [H _]. apply bool_decide_eq_false in H.
    destruct (bz_btn d); [by destruct H|done]. }
  destruct (dbus_char _ _) as [w1 p]. step_take btn Ebtn. destruct p as [p|].
  - apply step_balanced; [apply balanced_glance|]. intros _. apply spec_ret. cbn [snd]. split.
    + change (blocks r) with (blocks (sr_dev r) ++ blocks (sr_btn r)). apply Hb in Hnone. rewrite Hnone.
      change (blocks (mk_refs (sr_dev r) btn)) with (blocks (sr_dev r) ++ blocks btn).
      change (blocks (None : block)) with (@nil nat). rewrite app_nil_r. apply Permutation_app_comm.
    + apply (slot_after_upd m k _ d); [done|]. split; [exact Ha|]. cbn. by destruct btn.
  - destruct btn; [done|]. apply step_balanced; [apply drop_error_balanced|]. intros _. apply spec_ret.
    split; [done|by eapply slot_after_same].
Qed.

Lemma watch_link_spec' now max i w m k d r evs : bz_dev m !! k = Some d -> agree (proxies d) r ->
  spec (blocks r) (watch_link_refs w m k d r) (slot_post m (snd (fst (watch_link now max i k d (w, m, evs)))) k).
Proof.
  intros Hd Ha. unfold watch_link_refs, watch_link. destruct (bz_proxy d) as [p|].
  2: { apply spec_ret. split; [by rewrite app_nil_r|]. by eapply slot_after_same. }
  destruct (dbus_property w p "Connected") as [w1 c]. cbn zeta. apply step_balanced; [apply balanced_glance|]. intros _.
  set (m1 := upd_slot k (slot_with_connected (default (bz_connected d) c)) m).
  assert (Hs : slots m1 = slots m) by by apply slots_same.
  destruct (default (bz_connected d) c) eqn:Ec.
  - apply spec_ret. split; [by rewrite app_nil_r|]. by eapply slot_after_same.
  - assert (Hd1 : bz_dev m1 !! k = Some (slot_with_connected false d)).
    { subst m1. cbn. by rewrite list_lookup_alter_eq, Hd. }
    pose proof (unsubscribe_spec w1 m1 k _ r Hd1 Ha) as Hu. destruct (unsubscribe_button w1 m1 k) as [w2 m2]. cbn [fst snd] in *.
    eapply spec_conseq; [|exact Hu]. intros x qs [H1 H2]. split; [done|]. eapply slot_after_eq; [..|exact H2]; [by rewrite Hs|].
    etransitivity; [by apply slots_same|done].
Qed.

Lemma slots_failed m i k now m' : connect_failed m i k now = Some m' -> slots m' = slots m.
Proof.
  unfold connect_failed. cbn. destruct (bz_dev m !! k) as [d|]; [|done]. cbn.
  destruct (backoff _); [|done]. intros [= <-]. by apply (slots_same k _ (upd_conn i HES_BLE_STATE_OFF now m)).
Qed.

(** An attempt that failed keeps the proxy it may have made. *)
Lemma failed_post m m1 m2 i k now (w w' : W) (evs evs' : list hes_ble_event_t) m' r lost qs :
  (let* m := connect_failed m2 i k now in Some (w, m, evs)) = Some (w', m', evs') ->
  slots m2 = slots m1 -> slot_after m m1 k r -> qs ≡ₚ blocks r ++ lost ->
  slot_post m m' k (r, lost) qs.
Proof.
  intros H Hs Ha Hq. destruct (connect_failed m2 i k now) as [m3|] eqn:E; [|done]. cbn in H. injection H as _ <- _.
  apply slots_failed in E. split; [exact Hq|]. eapply slot_after_eq; [reflexivity| |exact Ha]. congruence.
Qed.

(** The proxy the attempt goes through. *)
Lemma device_proxy_spec w m k d r : bz_dev m !! k = Some d -> agree (proxies d) r ->
  let '(w1, proxy) := match bz_proxy d with Some p => (w, Some p) | None => dbus_device w (bz_path d) end in
  spec (blocks r)
    (match bz_proxy d with Some _ => mret (sr_dev r) | None => obtain (bool_decide (proxy <> None)) end)
    (fun dev qs => qs ≡ₚ blocks (mk_refs dev (sr_btn r)) /\
       slot_after m (upd_slot k (slot_with_proxy proxy) m) k (mk_refs dev (sr_btn r))).
Proof.
  intros Hd Hag. pose proof Hag as [Ha Hb]. destruct (bz_proxy d) as [p|] eqn:Ep.
  - apply spec_ret. split; [by destruct r|]. apply (slot_after_upd m k _ d); [done|]. split; [|exact Hb].
    cbn in *. rewrite Ep in Ha. by rewrite <- Ha.
  - destruct (dbus_device w (bz_path d)) as [w1 proxy]. change (blocks r) with (blocks (sr_dev r) ++ blocks (sr_btn r)).
    assert (Hnone : sr_dev r = None) by (apply Ha; exact Ep). rewrite Hnone. change (blocks (None : block)) with (@nil nat).
    eapply spec_conseq; [|apply (spec_frame [] (blocks (sr_btn r))), spec_obtain].
    intros dev qs (q & -> & -> & Hdev). split; [done|]. apply (slot_after_upd m k _ d); [done|]. split; [|exact Hb].
    cbn. by destruct dev, proxy.
Qed.

Lemma connect_refs_spec now max i k d w m evs r w' m' evs' :
  connect now max i k d (w, m, evs) = Some (w', m', evs') -> bz_dev m !! k = Some d -> agree (proxies d) r ->
  spec (blocks r) (connect_refs now i k w m d r) (slot_post m m' k).
Proof.
  intros H Hd Ha. unfold connect in H. unfold connect_refs. pose proof (device_proxy_spec w m k d r Hd Ha) as Hdev.
  destruct (match bz_proxy d with Some p => (w, Some p) | None => dbus_device w (bz_path d) end) as [w1 proxy].
  cbn zeta in H. set (m1 := upd_slot k (slot_with_proxy proxy) m) in *.
  eapply (spec_step (blocks r) (@nil nat)); [by rewrite app_nil_r|exact Hdev|]. clear Hdev. intros dev qs [Hqs Haft].
  cbv zeta. set (r1 := mk_refs dev (sr_btn r)) in *. clearbody r1. rewrite app_nil_r. eapply spec_perm; [symmetry; exact Hqs|]. clear qs Hqs.
  destruct proxy as [p|].
  2: { apply step_balanced; [apply drop_error_balanced|]. intros _. apply spec_ret.
       eapply failed_post; [exact H|reflexivity|exact Haft|by rewrite app_nil_r]. }
  set (m2 := upd_conn i HES_BLE_STATE_CONNECTING now m1) in *. destruct (dbus_call w1 p "Connect") as [w2 ok].
  step_take reply Er. destruct ok; cbn [negb] in *.
  2: { destruct reply; [done|]. apply step_balanced; [apply drop_error_balanced|]. intros _. apply spec_ret.
       eapply failed_post; [exact H|reflexivity|exact Haft|]. by rewrite app_nil_r. }
  apply step_balanced; [apply wait_resolved_balanced|]. intros _.
  pose proof (slots_wait (Z.to_nat (RESOLVE_TIMEOUT_MS / 50)) w2 m2 p) as Hw.
  destruct (wait_resolved _ _ _ _) as [[w3 m3] resolved]. cbn [fst snd] in Hw. change (slots m2) with (slots m1) in Hw.
  destruct resolved; cbn [negb] in *.
  2: { apply spec_ret. eapply failed_post; [exact H|exact Hw|exact Haft|]. apply Permutation_app_comm. }
  destruct (dbus_property w3 p "Connected") as [w4 c]. apply step_balanced; [apply balanced_glance|]. intros _. cbv zeta.
  set (m4 := upd_slot k (slot_with_retry 0 0) _) in *.
  assert (H4 : slots m4 = slots m1).
  { rewrite <- Hw. subst m4. rewrite slots_same by done. change (slots (upd_conn i HES_BLE_STATE_ONLINE now ?x)) with (slots x).
    by rewrite slots_same. }
  clearbody m4. destruct Haft as (q & Hq & Hagq).
  assert (Hk4 : slots m4 !! k = Some q).
  { rewrite H4, Hq. apply list_lookup_insert_eq. unfold slots. rewrite length_fmap. by eapply lookup_lt_Some. }
  unfold slots in Hk4. rewrite list_lookup_fmap in Hk4. destruct (bz_dev m4 !! k) as [d4|] eqn:Ed4; [|done].
  cbn in Hk4. injection Hk4 as Hk4. rewrite <- Hk4 in Hagq.
  eapply (spec_step (blocks r1) (blocks reply)); [apply Permutation_app_comm|by apply (subscribe_spec _ _ _ d4)|].
  intros r2 qs [Hqs Haft2]. destruct (subscribe_button w4 m4 k) as [w5 m5]. injection H as _ <- _. cbn [snd] in Haft2.
  apply spec_ret. split; [cbn [fst snd]; by rewrite Hqs|]. cbn [fst]. eapply slot_after_trans; [|exact Haft2].
  exists q. split; [congruence|]. by rewrite <- Hk4.
Qed.

(** ** All the slots *)

Lemma blocks_focus (rs : list slot_refs) k r : rs !! k = Some r -> blocks rs ≡ₚ blocks r ++ blocks (delete k rs).
Proof.
  intros Hk. change (blocks rs) with (concat (blocks <$> rs)). rewrite (delete_Permutation rs k r Hk) at 1. done.
Qed.

Lemma blocks_insert (rs : list slot_refs) k r r' :
  rs !! k = Some r -> blocks (<[k := r']> rs) ≡ₚ blocks r' ++ blocks (delete k rs).
Proof.
  intros Hk. rewrite (blocks_focus _ k r') by (apply list_lookup_insert_eq; by eapply lookup_lt_Some).
  replace (delete k (<[k:=r']> rs)) with (delete k rs); [done|].
  clear. revert k. induction rs as [|x rs IH]; intros [|k]; [done..|]. cbn. f_equal. apply IH.
Qed.

Definition held (m : bluez_mgr_t) (rs : list slot_refs) : Prop := Forall2 agree (slots m) rs.

Definition held_post (m : bluez_mgr_t) (x : list slot_refs * list nat) (qs : list nat) : Prop :=
  qs ≡ₚ blocks (fst x) ++ snd x /\ held m (fst x).

Lemma held_lookup m rs k d : held m rs -> bz_dev m !! k = Some d -> exists r, rs !! k = Some r /\ agree (proxies d) r.
Proof. intros Hh Hd. apply slots_lookup in Hd. by apply (Forall2_lookup_l _ _ _ _ _ Hh Hd). Qed.

Lemma held_insert m m' rs k r : held m rs -> slot_after m m' k r -> held m' (<[k := r]> rs).
Proof. intros Hh (p & Hp & Ha). unfold held. rewrite Hp. by apply Forall2_insert. Qed.

Lemma slot_step_spec m m' rs k d e :
  held m rs -> bz_dev m !! k = Some d ->
  (forall r, agree (proxies d) r -> spec (blocks r) (e r) (slot_post m m' k)) ->
  forall scan r, rs !! k = Some r ->
  spec (scan ++ blocks rs) ('(r, lost) ← e r; mret (<[k := r]> rs, scan ++ lost)) (held_post m').
Proof.
  intros Hh Hd He scan r Hr. destruct (held_lookup m rs k d Hh Hd) as (r0 & Hr0 & Ha). assert (r0 = r) as -> by congruence.
  eapply (spec_step (blocks r) (scan ++ blocks (delete k rs))); [|by apply He|].
  { rewrite (blocks_focus rs k r Hr). solve_Permutation. }
  intros [r' lost] qs [Hqs Haft]. cbn [fst snd] in *. apply spec_ret. split; cbn [fst snd]; [|by eapply held_insert].
  rewrite Hqs, (blocks_insert rs k r r' Hr). solve_Permutation.
Qed.

Lemma poll_device_refs_spec now max i w m evs rs w' m' evs' :
  poll_device now max i (w, m, evs) = Some (w', m', evs') -> held m rs ->
  spec (blocks rs) (poll_device_refs now i (w, m, evs) rs) (held_post m').
Proof.
  intros H Hh. unfold poll_device in H. unfold poll_device_refs.
  destruct (let* c := bz_mgr m !! i in _) as [[[c k] d]|] eqn:E.
  2: { injection H as _ <- _. apply spec_ret. split; [by rewrite app_nil_r|done]. }
  step_call (@nil nat) (blocks rs) discover_spec. intros scan qs ->.
  pose proof (slots_discover w m k d now) as Hs. destruct (discover w m k d now) as [w1 m1]. cbn [snd] in Hs.
  assert (Hh1 : held m1 rs) by (unfold held; by rewrite Hs). destruct (bz_dev m1 !! k) as [d1|] eqn:Ed; [|done].
  cbn [mbind option_bind] in H. destruct (held_lookup m1 rs k d1 Hh1 Ed) as (r & Hr & _). rewrite Hr.
  destruct (is_online c).
  - injection H as H. assert (Hm : snd (fst (watch_link now max i k d1 (w1, m1, evs))) = m') by by rewrite H.
    apply (slot_step_spec m1 m' rs k d1 (watch_link_refs w1 m1 k d1)); [done|done| |done].
    intros r0 Ha. rewrite <- Hm. by apply watch_link_spec'.
  - destruct (_ || _)%bool.
    + injection H as _ <- _. apply (slot_step_spec m1 m1 rs k d1 (fun r => mret (r, []))); [done|done| |done].
      intros r0 Ha. apply spec_ret. split; [by rewrite app_nil_r|]. by eapply slot_after_same.
    + apply (slot_step_spec m1 m' rs k d1 (connect_refs now i k w1 m1 d1)); [done|done| |done].
      intros r0 Ha. by eapply connect_refs_spec.
Qed.

Lemma poll_devices_refs_spec now max ids w m evs rs w' m' evs' :
  for_each (poll_device now max) ids (w, m, evs) = Some (w', m', evs') -> held m rs ->
  spec (blocks rs) (poll_devices_refs now max ids (w, m, evs) rs) (held_post m').
Proof.
  revert w m evs rs. induction ids as [|i ids IH]; intros w m evs rs H Hh; cbn [for_each poll_devices_refs] in *.
  { injection H as _ <- _. apply spec_ret. split; [by rewrite app_nil_r|done]. }
  destruct (poll_device now max i (w, m, evs)) as [[[w1 m1] evs1]|] eqn:E; [|done].
  eapply (spec_step (blocks rs) (@nil nat)); [by rewrite app_nil_r|by eapply poll_device_refs_spec|].
  intros [rs1 lost] qs [Hqs Hh1]. cbn [fst snd] in *. rewrite app_nil_r.
  eapply (spec_step (blocks rs1) lost); [exact Hqs|by apply (IH w1 m1 evs1)|].
  intros [rs2 lost2] qs2 [Hqs2 Hh2]. cbn [fst snd] in *. apply spec_ret. split; [|done]. cbn [fst snd].
  rewrite Hqs2. solve_Permutation.
Qed.

Lemma bluez_poll_spec w m max rs w' m' evs :
  bluez_poll w m max = Some (w', m', evs) -> held m rs -> spec (blocks rs) (bluez_poll_refs w m max rs) (held_post m').
Proof.
  intros H Hh. unfold bluez_poll in H. unfold bluez_poll_refs. destruct (c_time w) as [w1 now].
  apply step_balanced; [apply pump_balanced|]. intros _. pose proof (slots_pump w1 m) as Hs.
  destruct (pump w1 m) as [w2 m2]. cbn [snd] in Hs. eapply poll_devices_refs_spec; [exact H|]. unfold held. by rewrite Hs.
Qed.

(** ** Opening and closing *)

Lemma close_slot_spec w m k d r : bz_dev m !! k = Some d -> agree (proxies d) r ->
  spec (blocks r) (close_slot_refs w m k r) (fun lost qs => qs ≡ₚ lost).
Proof.
  intros Hd Ha. unfold close_slot_refs. pose proof (unsubscribe_spec w m k d r Hd Ha) as Hu.
  eapply (spec_step (blocks r) (@nil nat)); [by rewrite app_nil_r|exact Hu|]. intros [r1 lost] qs [Hqs (p & Hp & Ha1)].
  assert (Hd1 : bz_dev (snd (unsubscribe_button w m k)) !! k = Some (slot_with_button false 0 (slot_with_btn None d))).
  { unfold unsubscribe_button. cbn [snd]. cbn. by rewrite list_lookup_alter_eq, Hd. }
  destruct (unsubscribe_button w m k) as [w1 m1]. cbn [fst snd] in *. rewrite Hd1. cbn [mbind option_bind].
  assert (Hpd : p = (bz_proxy d, None)).
  { apply slots_lookup in Hd1. rewrite Hp in Hd1. rewrite list_lookup_insert_eq in Hd1; [by injection Hd1|].
    unfold slots. rewrite length_fmap. by eapply lookup_lt_Some. }
  subst p. destruct Ha1 as [Hdev Hbtn]. cbn [fst snd] in *. rewrite app_nil_r.
  assert (Hb1 : sr_btn r1 = None) by by apply Hbtn.
  eapply spec_perm; [symmetry; exact Hqs|]. change (blocks r1) with (blocks (sr_dev r1) ++ blocks (sr_btn r1)). rewrite Hb1.
  change (blocks (None : block)) with (@nil nat). rewrite app_nil_r.
  change (bz_proxy (slot_with_button false 0 (slot_with_btn None d))) with (bz_proxy d). destruct (bz_proxy d) as [q|].
  - step_take reply Er. step_drop (blocks reply ++ lost). apply spec_ret. apply Permutation_app_comm.
  - rewrite (proj1 Hdev eq_refl). by apply spec_ret.
Qed.

Lemma slots_close k w m : exists w' m', bluez_close_slot k (w, m) = Some (w', m') /\
  forall j, j <> k -> slots m' !! j = slots m !! j.
Proof.
  assert (Hother : forall f m, forall j, j <> k -> slots (upd_slot k f m) !! j = slots m !! j).
  { intros f m0 j Hj. unfold slots. cbn. by rewrite !list_lookup_fmap, list_lookup_alter_ne. }
  unfold bluez_close_slot, unsubscribe_button. cbv zeta. destruct (let* d := _ in bz_proxy d) as [p|].
  - eexists _, _. split; [done|]. intros j Hj. by rewrite !Hother.
  - eexists _, _. split; [done|]. intros j Hj. by rewrite Hother.
Qed.

Lemma close_slots_spec k w m rs :
  (forall j r, rs !! j = Some r -> exists d, bz_dev m !! (k + j)%nat = Some d /\ agree (proxies d) r) ->
  spec (blocks rs) (close_slots_refs k w m rs) (fun lost qs => qs ≡ₚ lost).
Proof.
  revert k w m. induction rs as [|r rs IH]; intros k w m Hrs; cbn [close_slots_refs]; [by apply spec_ret|].
  destruct (Hrs 0%nat r eq_refl) as (d & Hd & Ha). rewrite Nat.add_0_r in Hd.
  eapply (spec_step (blocks r) (blocks rs)); [done|by apply (close_slot_spec w m k d)|]. intros lost qs Hqs.
  destruct (slots_close k w m) as (w1 & m1 & E & Hoth). rewrite E.
  eapply (spec_step (blocks rs) lost); [rewrite Hqs; apply Permutation_app_comm|apply (IH (S k) w1 m1)|].
  - intros j r' Hr'. destruct (Hrs (S j) r' Hr') as (d' & Hd' & Ha'). rewrite Nat.add_succ_r in Hd'.
    pose proof (slots_lookup _ _ _ Hd') as Hs. rewrite <- (Hoth (S (k + j))) in Hs by lia.
    unfold slots in Hs. rewrite list_lookup_fmap in Hs. destruct (bz_dev m1 !! S (k + j)) as [d1|] eqn:Ed1; [|done].
    cbn in Hs. injection Hs as Hs1 Hs2. exists d1. split; [done|]. unfold proxies. rewrite Hs1, Hs2. exact Ha'.
  - intros lost' qs' Hqs'. apply spec_ret. rewrite Hqs'. apply Permutation_app_comm.
Qed.

Lemma held_at m rs j r : held m rs -> rs !! j = Some r -> exists d, bz_dev m !! j = Some d /\ agree (proxies d) r.
Proof.
  intros Hh Hr. destruct (Forall2_lookup_r _ _ _ _ _ Hh Hr) as (p & Hp & Ha). unfold slots in Hp.
  rewrite list_lookup_fmap in Hp. destruct (bz_dev m !! j) as [d|]; [|done]. cbn in Hp. injection Hp as <-. by exists d.
Qed.

Lemma bluez_close_spec w m b : held m (br_slots b) ->
  spec (blocks b) (bluez_close_refs w m b) (fun lost qs => qs ≡ₚ lost).
Proof.
  intros Hh. unfold bluez_close_refs. change (blocks b) with (blocks (br_conn b) ++ blocks (br_slots b)).
  eapply (spec_step (blocks (br_slots b)) (blocks (br_conn b))); [apply Permutation_app_comm| |].
  { apply (close_slots_spec 0 w m). intros j r Hr. by apply (held_at m (br_slots b)). }
  intros lost qs Hqs. apply (step_unref _ _ lost); [rewrite Hqs; apply Permutation_app_comm|]. by apply spec_ret.
Qed.

Lemma bluez_init_spec w :
  spec [] (bluez_init_refs w) (fun b qs => qs = blocks b /\ held (snd (bluez_init w)) (br_slots b)).
Proof.
  unfold bluez_init_refs, bluez_init. destruct (dbus_open w) as [w1 ok]. step_take conn Ec.
  apply step_balanced; [destruct ok; [apply balanced_ret|apply drop_error_balanced]|]. intros _.
  apply spec_ret. split; [done|]. constructor.
Qed.

Lemma bluez_add_held w m di addr rs : held m rs -> held (snd (fst (bluez_add w m di addr))) (bluez_add_refs m di rs).
Proof.
  intros Hh. unfold bluez_add, bluez_add_refs. destruct (find_slot m di); [done|]. destruct (_ || _)%bool; [done|].
  destruct (c_time w) as [w1 e]. destruct (c_time w1) as [w2 n]. cbn [fst snd]. unfold held, slots. cbn.
  rewrite fmap_app. apply Forall2_app; [exact Hh|]. by repeat constructor.
Qed.

Lemma bluez_add_blocks m di rs : blocks (bluez_add_refs m di rs) = blocks rs.
Proof.
  unfold bluez_add_refs. destruct (find_slot m di); [done|]. destruct (_ || _)%bool; [done|].
  change (blocks (rs ++ [mk_refs None None])) with (concat (blocks <$> (rs ++ [mk_refs None None]))).
  rewrite fmap_app, concat_app. cbn. by rewrite app_nil_r.
Qed.

Lemma call_spec c w m rs w' m' : call c w m = Some (w', m') -> held m rs ->
  spec (blocks rs) (call_refs c w m rs) (held_post m').
Proof.
  intros H Hh. destruct c as [di addr|max]; cbn [call call_refs] in *.
  - injection H as H. pose proof (bluez_add_held w m di addr rs Hh) as Ha. rewrite H in Ha. apply spec_ret.
    split; [|exact Ha]. cbn [fst snd]. by rewrite app_nil_r, bluez_add_blocks.
  - destruct (bluez_poll w m max) as [[[w1 m1] evs]|] eqn:E; [|done]. cbn in H. injection H as <- <-. by eapply bluez_poll_spec.
Qed.

Lemma calls_spec cs w m b : is_Some (calls cs w m) -> held m (br_slots b) ->
  spec (blocks b) (calls_refs cs w m b) (fun lost qs => qs ≡ₚ lost).
Proof.
  revert w m b. induction cs as [|c cs IH]; intros w m b Hs Hh; cbn [calls calls_refs] in *; [by apply bluez_close_spec|].
  destruct (call c w m) as [[w1 m1]|] eqn:E; [|by destruct Hs].
  change (blocks b) with (blocks (br_conn b) ++ blocks (br_slots b)).
  eapply (spec_step (blocks (br_slots b)) (blocks (br_conn b))); [apply Permutation_app_comm|by eapply call_spec|].
  intros [rs lost] qs [Hqs Hh1]. cbn [fst snd] in *.
  eapply (spec_step (blocks (mk_bluez_refs (br_conn b) rs)) lost); [|by apply (IH w1 m1)|].
  - change (blocks (mk_bluez_refs (br_conn b) rs)) with (blocks (br_conn b) ++ blocks rs). rewrite Hqs. solve_Permutation.
  - intros lost' qs' Hqs'. apply spec_ret. rewrite Hqs'. apply Permutation_app_comm.
Qed.

(** C26: Whatever D-Bus answers, a session of the manager drops no reference it does not hold and
    holds nothing at its end: from opening the bus, through any additions of devices and any
    polls whose backoff stays in range, to the close, every call is defined, and the blocks
    that are left beyond those of the start are the replies to StartDiscovery, StopDiscovery,
    Connect, StopNotify and Disconnect that the code threw away, each once. *)
Theorem session_drops_all_but_replies w cs h :
  fresh h -> is_Some (let '(w, m) := bluez_init w in calls cs w m) ->
  exists lost h', session_refs w cs h = Some (lost, h') /\
    hp_live h' = list_to_set lost ∪ hp_live h /\ NoDup lost /\ forall p, p ∈ lost -> p ∉ hp_live h.
Proof.
  intros Hf Hs. assert (He : spec [] (session_refs w cs) (fun lost qs => qs ≡ₚ lost)).
  { unfold session_refs. eapply spec_bind0; [apply bluez_init_spec|]. intros b qs [-> Hh]. rewrite app_nil_r.
    destruct (bluez_init w) as [w1 m1]. by apply calls_spec. }
  destruct (spec_run _ _ h Hf He) as (lost & h' & qs & E & Hqs & [Hl Hn Hr _]). exists lost, h'. split_and!; [done| | |].
  - rewrite Hl. f_equal. apply set_eq. intros x. by rewrite !elem_of_list_to_set, Hqs.
  - by rewrite <- Hqs.
  - intros p Hp Hin. rewrite <- Hqs in Hp. specialize (Hr p Hp). specialize (Hf p Hin). lia.
Qed.
End facts.

(** ** One link, made and lost

    The world is the clock of [off_libc]. The tag is known to BlueZ from second 40 on and its
    link is gone from second 60 on; every call is answered. *)
Definition link_bluez : Bluez Z := {|
  dbus_open w := (w, true);
  dbus_iterate w := (w, []);
  dbus_sleep w := w;
  dbus_objects w := (w, Some (if w <? 40 then [] else [("/org/bluez/hci0/dev_1", [("org.bluez.Device1", Some "54:6c:0e:b7:20:04")])]));
  dbus_discovery w _ := w;
  dbus_device w _ := (w, Some 1);
  dbus_char w _ := (w, Some 2);
  dbus_call w _ _ := (w, true);
  dbus_property w _ name := (w, Some ((name =?s "ServicesResolved") || (w <? 60))%bool);
|}.

#[refine] Definition link_refs : @BluezRefs Z link_bluez := {|
  om_proxy _ := true; adapter_proxy _ _ := true; adapter_reply _ _ := true; call_error _ := false;
|}.
Proof. done. Defined.

Definition link_calls : list mgr_call :=
  [CallAdd 7 "54:6C:0E:B7:20:04"; CallPoll 16; CallPoll 16; CallPoll 16; CallPoll 16].

(** StartDiscovery, StopDiscovery, Connect, StopNotify, Disconnect: five replies are left. *)
Lemma session_drops_all_but_replies_witness :
  exists lost h', session_refs (libc := off_libc) (bluez := link_bluez) (brefs := link_refs) 0 link_calls (mk_heap ∅ 0)
      = Some (lost, h') /\ length lost = 5%nat /\ hp_live h' = list_to_set lost ∪ ∅ /\ NoDup lost.
Proof.
  destruct (session_drops_all_but_replies (libc := off_libc) (bluez := link_bluez) (brefs := link_refs) 0 link_calls (mk_heap ∅ 0))
    as (lost & h' & E & Hl & Hn & _); [by intros p ?%elem_of_empty|vm_compute; by eexists|].
  exists lost, h'. split_and!; [exact E| |exact Hl|exact Hn]. vm_compute in E. by injection E as <- _.
Defined.
