(* ===== verification/QueryMem.v ===== *)
(** * The document layer's memory and its error text

    Models what src/src/common/hes_query.c allocates and releases: the context and its
    document, the handles and their arrays, and the temporaries of one evaluation; and the
    text of the last error. The document and the results of libxml2 are blocks too: the code
    must release them. How many nodes an expression finds is an argument; HesQuery.v says
    which. The translated path is one block here; QueryPath.v follows its growth. *)

From stdpp Require Import gmap sets list.
From S2P Require Import Prelude CLib HesQuery Heap.

Section alloc.
Variable alloc : nat -> bool.
Abbreviation malloc := (Heap.malloc alloc).

(** ** Contexts *)

Record query_ctx := mk_query_ctx { qm_doc : block; qm_ctx : block }.
#[export] Instance owned_ctx : Owned query_ctx := fun c => blocks (qm_doc c) ++ blocks (qm_ctx c).

(** [parses]: the file is a document; [rooted]: it has a root element. *)
Definition hes_query_open (parses rooted : bool) (h : heap) : option (option query_ctx * heap) :=
  if negb parses then Some (None, h)
  else
    let '(doc, h) := malloc h in
    match doc with
    | None => Some (None, h)
    | Some _ =>
        if negb rooted then let* h := free doc h in Some (None, h)
        else
          let '(ctx, h) := malloc h in
          match ctx with
          | None => let* h := free doc h in Some (None, h)
          | Some _ => Some (Some (mk_query_ctx doc ctx), h)
          end
    end.

Definition hes_query_close (ctx : option query_ctx) (h : heap) : option heap :=
  match ctx with
  | None => Some h
  | Some c => let* h := free (qm_doc c) h in free (qm_ctx c) h
  end.

(** ** One evaluation *)

(** The result object, NULL or not: the context of the evaluation is released either way. *)
Definition _eval_expr (h : heap) : option (block * heap) :=
  let '(xpc, h) := malloc h in
  match xpc with
  | None => Some (None, h)
  | Some _ =>
      let '(res, h) := malloc h in
      let* h := free xpc h in Some (res, h)
  end.

Definition _eval (h : heap) : option (block * heap) :=
  let '(xpath, h) := malloc h in
  match xpath with
  | None => Some (None, h)
  | Some _ =>
      let* (res, h) := _eval_expr h in
      let* h := free xpath h in Some (res, h)
  end.

(** [n]: the nodes found. *)
Definition hes_query_count (n : nat) (h : heap) : option (nat * heap) :=
  let* (res, h) := _eval h in
  match res with None => Some (O, h) | Some _ => let* h := free res h in Some (n, h) end.

(** [hes_query_string] and [hes_query_elem_string]; the text found lives in the document. *)
Definition hes_query_string (h : heap) : option heap :=
  let* (res, h) := _eval h in
  match res with None => Some h | Some _ => free res h end.

(** ** Handles *)

(** [n]: the nodes of the result. *)
Definition hes_query_elem (n : nat) (h : heap) : option (block * heap) :=
  let* (res, h) := _eval h in
  match res, n with
  | None, _ => Some (None, h)
  | Some _, O => let* h := free res h in Some (None, h)
  | Some _, S _ => let* h := free res h in Some (malloc h)
  end.

Definition hes_query_elem_free (elem : block) (h : heap) : option heap := free elem h.

Record handle_list := mk_handle_list { hl_array : block; hl_items : list block }.
#[export] Instance owned_handles : Owned handle_list := fun l => blocks (hl_items l) ++ blocks (hl_array l).

(** The handles of a result of [n] nodes; [got] are those already there. The right side is
    what had been allocated when one could not be. *)
Fixpoint fill (n : nat) (got : list block) (h : heap) : (list block + list block) * heap :=
  match n with
  | O => (inl got, h)
  | S n =>
      let '(elem, h) := malloc h in
      match elem with None => (inr got, h) | Some _ => fill n (got ++ [elem]) h end
  end.

Definition _handle_list (n : nat) (res : block) (h : heap) : option (option handle_list * heap) :=
  match res, n with
  | None, _ => Some (None, h)
  | Some _, O => let* h := free res h in Some (None, h)
  | Some _, S _ =>
      let '(arr, h) := malloc h in
      match arr with
      | None => let* h := free res h in Some (None, h)
      | Some _ =>
          match fill n [] h with
          | (inr got, h) =>
              let* h := for_each free got h in
              let* h := free arr h in
              let* h := free res h in Some (None, h)
          | (inl items, h) => let* h := free res h in Some (Some (mk_handle_list arr items), h)
          end
      end
  end.

(** [hes_query_elem_list] and [hes_query_elem_children]. *)
Definition hes_query_elem_list (n : nat) (h : heap) : option (option handle_list * heap) :=
  let* (res, h) := _eval h in _handle_list n res h.

Definition hes_query_find_all (n : nat) (h : heap) : option (option handle_list * heap) :=
  let '(expr, h) := malloc h in
  match expr with
  | None => Some (None, h)
  | Some _ =>
      let* (res, h) := _eval_expr h in
      let* (l, h) := _handle_list n res h in
      let* h := free expr h in Some (l, h)
  end.

Definition hes_query_elem_list_free (list : option handle_list) (h : heap) : option heap :=
  match list with
  | None => Some h
  | Some l =>
      let* h := for_each hes_query_elem_free (hl_items l) h in
      free (hl_array l) h
  end.

(** ** Every call keeps what it returns and nothing else *)

(** From a heap whose blocks are below its next one, the call is defined and what is new in
    the heap is what the result owns. *)
Definition balanced {A} {o : Owned A} (f : heap -> option (A * heap)) : Prop :=
  forall h, fresh h -> exists a h', f h = Some (a, h') /\ grew h (blocks a) h'.

Lemma free_last h p h' : fresh h -> grew h (blocks (p : block)) h' -> exists h'', free p h' = Some h'' /\ grew h [] h''.
Proof.
  intros Hf Hg. rewrite releases_free. apply grew_free; [done|]. by rewrite app_nil_r.
Qed.

Lemma eval_expr_balanced : balanced _eval_expr.
Proof.
  intros h Hf. unfold _eval_expr. destruct (malloc h) as [xpc h1] eqn:E1.
  pose proof (malloc_grew' _ _ _ _ E1) as G1. destruct xpc as [x|]; [|by exists None, h1].
  destruct (malloc h1) as [res h2] eqn:E2. pose proof (malloc_grew' _ _ _ _ E2) as G2.
  destruct (grew_free h (blocks res) (blocks (Some x : block)) h2 Hf) as (h3 & E3 & G3); [by eapply grew_trans|].
  rewrite <- releases_free in E3. rewrite E3. by exists res, h3.
Qed.

Lemma eval_balanced : balanced _eval.
Proof.
  intros h Hf. unfold _eval. destruct (malloc h) as [xpath h1] eqn:E1.
  pose proof (malloc_grew' _ _ _ _ E1) as G1. destruct xpath as [x|]; [|by exists None, h1].
  destruct (eval_expr_balanced h1) as (res & h2 & E2 & G2); [by eapply grew_fresh|]. rewrite E2.
  destruct (grew_free h (blocks res) (blocks (Some x : block)) h2 Hf) as (h3 & E3 & G3); [by eapply grew_trans|].
  rewrite <- releases_free in E3. rewrite E3. by exists res, h3.
Qed.

Lemma query_string_balanced h : fresh h -> exists h', hes_query_string h = Some h' /\ grew h [] h'.
Proof.
  intros Hf. unfold hes_query_string. destruct (eval_balanced h Hf) as (res & h1 & E & G). rewrite E.
  destruct res as [x|]; [by apply free_last|by exists h1].
Qed.

Lemma fill_grew n got h r h' : fill n got h = (r, h') ->
  exists new, grew h (blocks (new : list block)) h' /\
    match r with inl items => items = got ++ new /\ length new = n | inr part => part = got ++ new end.
Proof.
  revert got h. induction n as [|n IH]; intros got h; cbn [fill].
  - intros [= <- <-]. exists []. split; [apply grew_refl|]. by rewrite app_nil_r.
  - destruct (malloc h) as [elem h1] eqn:E. pose proof (malloc_grew' _ _ _ _ E) as G. destruct elem as [x|].
    + intros (new & Hg & Hr)%IH. exists (Some x :: new). split.
      { change (blocks (Some x :: new)) with (blocks (Some x : block) ++ blocks new). by eapply grew_trans. }
      destruct r as [items|part]; [destruct Hr as [-> <-]; split; [|done]|subst part]; by rewrite <- app_assoc.
    + intros [= <- <-]. exists []. split; [done|]. by rewrite app_nil_r.
Qed.

Lemma handle_list_balanced n res h h1 : fresh h -> grew h (blocks res) h1 ->
  exists l h', _handle_list n res h1 = Some (l, h') /\ grew h (blocks l) h' /\
    match l with Some l => length (hl_items l) = n /\ n <> O | None => True end.
Proof.
  intros Hf G. unfold _handle_list. destruct res as [r|]; [|by exists None, h1].
  assert (Hres : forall h', grew h (blocks (Some r : block)) h' -> exists h'', free (Some r) h' = Some h'' /\ grew h [] h'')
    by (intros h'; by apply free_last).
  destruct n as [|n]; [destruct (Hres h1 G) as (h2 & -> & G2); by exists None, h2|].
  destruct (malloc h1) as [arr h2] eqn:E2. pose proof (malloc_grew' _ _ _ _ E2) as G2.
  pose proof (grew_trans _ _ _ _ _ G G2) as G12.
  destruct arr as [a|]; [|rewrite app_nil_r in G12; destruct (Hres h2 G12) as (h3 & -> & G3); by exists None, h3].
  destruct (fill (S n) [] h2) as [r3 h3] eqn:E3. apply fill_grew in E3 as (new & G3 & Hr).
  pose proof (grew_trans _ _ _ _ _ G12 G3) as G123. rewrite <- app_assoc in G123.
  destruct r3 as [items|part].
  - destruct Hr as [-> Hl]. destruct (grew_free _ _ _ _ Hf G123) as (h4 & E4 & G4).
    rewrite <- releases_free in E4. rewrite E4. eexists _, h4. split; [done|]. split; [|done].
    eapply grew_perm; [|exact G4]. apply Permutation_app_comm.
  - subst part. cbn [app].
    assert (Hp : blocks (Some r : block) ++ blocks (Some a : block) ++ blocks new ≡ₚ
      blocks new ++ blocks (Some a : block) ++ blocks (Some r : block)).
    { rewrite (Permutation_app_comm (blocks (Some r : block))), <- app_assoc.
      rewrite (Permutation_app_comm (blocks new)). rewrite app_assoc. apply Permutation_app_comm. }
    destruct (grew_free h (blocks (Some a : block) ++ blocks (Some r : block)) (blocks new) h3 Hf) as (h4 & E4 & G4);
      [by eapply grew_perm|].
    rewrite <- (releases_list _ releases_free) in E4. rewrite E4.
    destruct (grew_free _ _ _ _ Hf G4) as (h5 & E5 & G5). rewrite <- releases_free in E5. rewrite E5.
    destruct (Hres h5 G5) as (h6 & -> & G6). by exists None, h6.
Qed.

Lemma elem_list_balanced n h : fresh h ->
  exists l h', hes_query_elem_list n h = Some (l, h') /\ grew h (blocks l) h' /\
    match l with Some l => length (hl_items l) = n /\ n <> O | None => True end.
Proof.
  intros Hf. unfold hes_query_elem_list. destruct (eval_balanced h Hf) as (res & h1 & E & G). rewrite E.
  by apply handle_list_balanced.
Qed.

Lemma find_all_balanced n : balanced (hes_query_find_all n).
Proof.
  intros h Hf. unfold hes_query_find_all. destruct (malloc h) as [expr h1] eqn:E1.
  pose proof (malloc_grew' _ _ _ _ E1) as G1. destruct expr as [x|]; [|by exists None, h1].
  pose proof (grew_fresh _ _ _ Hf G1) as Hf1.
  destruct (eval_expr_balanced h1 Hf1) as (res & h2 & E2 & G2). rewrite E2.
  destruct (handle_list_balanced n res h1 h2 Hf1 G2) as (l & h3 & E3 & G3 & _). rewrite E3.
  destruct (grew_free h (blocks l) (blocks (Some x : block)) h3 Hf) as (h4 & E4 & G4); [by eapply grew_trans|].
  rewrite <- releases_free in E4. rewrite E4. by exists l, h4.
Qed.

Lemma elem_balanced n : balanced (hes_query_elem n).
Proof.
  intros h Hf. unfold hes_query_elem. destruct (eval_balanced h Hf) as (res & h1 & E & G). rewrite E.
  destruct res as [r|]; [|by exists None, h1]. destruct (free_last h (Some r) h1 Hf G) as (h2 & E2 & G2).
  destruct n as [|n]; rewrite E2; [by exists None, h2|].
  destruct (malloc h2) as [elem h3] eqn:E3. exists elem, h3. split; [done|]. change (blocks elem) with ([] ++ blocks elem).
  eapply grew_trans; [exact G2|]. by eapply malloc_grew'.
Qed.

Lemma open_balanced parses rooted : balanced (hes_query_open parses rooted).
Proof.
  intros h Hf. unfold hes_query_open. destruct parses; cbn [negb]; [|exists None, h; split; [done|apply grew_refl]].
  destruct (malloc h) as [doc h1] eqn:E1. pose proof (malloc_grew' _ _ _ _ E1) as G1.
  destruct doc as [d|]; [|by exists None, h1].
  destruct rooted; cbn [negb]; [|destruct (free_last h (Some d) h1 Hf G1) as (h2 & -> & G2); by exists None, h2].
  destruct (malloc h1) as [ctx h2] eqn:E2. pose proof (malloc_grew' _ _ _ _ E2) as G2.
  pose proof (grew_trans _ _ _ _ _ G1 G2) as G12. destruct ctx as [c|]; [by eexists _, h2|].
  rewrite app_nil_r in G12. destruct (free_last h (Some d) h2 Hf G12) as (h3 & -> & G3). by exists None, h3.
Qed.

Lemma close_releases : releases hes_query_close.
Proof.
  intros [c|] h; [|done]. cbn [hes_query_close]. rewrite releases_free.
  change (blocks (Some c)) with (blocks (qm_doc c) ++ blocks (qm_ctx c)). rewrite free_all_app.
  destruct (free_all _ h); [|done]. apply releases_free.
Qed.

Lemma list_free_releases : releases hes_query_elem_list_free.
Proof.
  intros [l|] h; [|done]. cbn [hes_query_elem_list_free]. unfold hes_query_elem_free.
  rewrite (releases_list _ releases_free).
  change (blocks (Some l)) with (blocks (hl_items l) ++ blocks (hl_array l)). rewrite free_all_app.
  destruct (free_all _ h); [|done]. apply releases_free.
Qed.

Lemma query_count_balanced n h : fresh h ->
  exists k h', hes_query_count n h = Some (k, h') /\ grew h [] h' /\ (k <= n)%nat.
Proof.
  intros Hf. unfold hes_query_count. destruct (eval_balanced h Hf) as (res & h1 & E & G). rewrite E.
  destruct res as [r|]; [|exists O, h1; split_and!; [done|done|lia]].
  destruct (free_last h (Some r) h1 Hf G) as (h2 & -> & G2). by exists n, h2.
Qed.

(** Whatever allocations fail, a list call of the document layer is defined, gives the handles
    of all the nodes or none, and the release of what it gave restores the heap: the
    temporaries of the evaluation are gone by then, and a list that could not be completed
    was taken apart. *)
Theorem lists_are_released n h : fresh h ->
  exists l h1 h2, hes_query_elem_list n h = Some (l, h1) /\ hes_query_elem_list_free l h1 = Some h2 /\
    hp_live h2 = hp_live h /\
    match l with Some l => length (hl_items l) = n | None => hp_live h1 = hp_live h end.
Proof.
  intros Hf. destruct (elem_list_balanced n h Hf) as (l & h1 & E & G & Hl).
  destruct (grew_released h (blocks l) h1 (blocks l) Hf G) as (h2 & E2 & Hlive); [done|].
  exists l, h1, h2. split_and!; [done|by rewrite list_free_releases|done|].
  destruct l as [l|]; [by destruct Hl|]. rewrite (grew_live _ _ _ G). cbn. set_solver.
Qed.
End alloc.

(** ** The last error *)

Definition LAST_ERROR_SIZE : nat := 256.

Section error.
Context {D N : Type} {lib : LibXml D N}.
(** The message libxml2 has for an expression it cannot evaluate, if any. *)
Variable xmlGetLastError : string -> option string.

Definition eval_error (xpath : string) (res : xpath_object N) : string :=
  match res with
  | XPATH_FAILED =>
      str_take (LAST_ERROR_SIZE - 1)
        match xmlGetLastError xpath with
        | Some message => message
        | None => "XPath evaluation failed: " ++ xpath
        end
  | _ => ""
  end.

(** The text after a query of a path below the root: each query sets it anew. *)
Definition root_error (ctx : hes_query_ctx_t D N) (path : string) : string :=
  eval_error (_translate_path path true) (_eval_root ctx path).

(** After the first of a document's queries; [queries] are their paths, in order. *)
Definition hes_query_last_error (ctx : hes_query_ctx_t D N) (queries : list string) : string :=
  match last queries with None => "" | Some path => root_error ctx path end.

Lemma last_error_fits ctx queries : (String.length (hes_query_last_error ctx queries) < LAST_ERROR_SIZE)%nat.
Proof.
  unfold hes_query_last_error, root_error, eval_error, LAST_ERROR_SIZE.
  destruct (last queries) as [path|]; [|simpl; lia].
  destruct (_eval_root ctx path); [rewrite length_str_take; lia|simpl; lia..].
Qed.

(** When libxml2's messages are not empty, the text is empty exactly while the last query
    could be evaluated. *)
Lemma last_error_tells ctx queries path :
  (forall xpath, xmlGetLastError xpath <> Some "") ->
  hes_query_last_error ctx (queries ++ [path]) = "" <-> _eval_root ctx path <> XPATH_FAILED.
Proof.
  intros Hm. unfold hes_query_last_error. rewrite last_snoc. unfold root_error, eval_error.
  destruct (_eval_root ctx path); [|done|done]. split; [|done]. specialize (Hm (_translate_path path true)).
  destruct (xmlGetLastError _) as [[|c m]|]; done.
Qed.
End error.

(** ** The statement at a concrete input *)

(** The list's third handle cannot be allocated: the two before it are released. *)
Lemma lists_are_released_witness :
  exists h1, hes_query_elem_list (fun n => negb (n =? 6)%nat) 3 (mk_heap ∅ 0) = Some (None, h1) /\ hp_live h1 = ∅.
Proof.
  destruct (lists_are_released (fun n => negb (n =? 6)%nat) 3 (mk_heap ∅ 0)) as (l & h1 & h2 & E & _ & _ & Hl).
  { intros p Hp. by apply elem_of_empty in Hp. }
  assert (Hn : fst <$> hes_query_elem_list (fun n => negb (n =? 6)%nat) 3 (mk_heap ∅ 0) = Some None)
    by (vm_compute; reflexivity).
  rewrite E in Hn. cbn in Hn. injection Hn as ->. exists h1. split; [exact E|exact Hl].
Defined.
