(* ===== verification/GatewayDoc.v ===== *)
(** * The document as native structs

    Models src/src/common/hes_gateway.c: the loaders, which fill a tree of structs by one path
    query per field, and the lookups by descriptive name; and the reading test of
    src/src/cli/cmd_bm_show.c, which walks the tree. The printer is in GatewayPrint.v; what the
    structs occupy and their release are in GatewayMem.v. [alloc_ok base] says whether the struct
    for the element at a path can be allocated; the copies of the texts and the arrays can. *)

From S2P Require Import Prelude CLib HesQuery.

(** ** The structs *)

(** The attributes every container has. *)
Record gw_attrs := mk_gw_attrs {
  ga_version_number : string;
  ga_addr_point : string;
  ga_trans_code : string;
  ga_descriptive_name : string;
}.

Record hes_gw_data_t := mk_gw_data {
  gd_attrs : gw_attrs;
  gd_data_purpose : string;
  gd_data_format : string;
  gd_memory_type : string;
  gd_storage_type : string;
  gd_enumerated : string;
  gd_description : string;
  gd_preassigned : string;
  gd_value : string;
}.

Record hes_gw_inputs_t := mk_gw_inputs {
  gi_attrs : gw_attrs;
  gi_data_purpose : string;
  gi_data : list hes_gw_data_t;
}.

Record hes_gw_outputs_t := mk_gw_outputs {
  gx_attrs : gw_attrs;
  gx_data_purpose : string;
  gx_data : list hes_gw_data_t;
}.

Record hes_gw_param_group_t := mk_gw_param_group {
  gp_attrs : gw_attrs;
  gp_data_purpose : string;
  gp_description : string;
  gp_data : list hes_gw_data_t;
}.

Record hes_gw_operation_table_t := mk_gw_operation_table {
  go_attrs : gw_attrs;
  go_data_purpose : string;
  go_data : list hes_gw_data_t;
  go_inputs : list hes_gw_inputs_t;
  go_input_parameters : list hes_gw_param_group_t;
  go_output_parameters : list hes_gw_param_group_t;
  go_outputs : list hes_gw_outputs_t;
}.

Record hes_gw_addressing_table_t := mk_gw_addressing_table {
  gt_attrs : gw_attrs;
  gt_data_purpose : string;
  gt_data : list hes_gw_data_t;
}.

Record hes_gw_object_type_t := mk_gw_object_type {
  gb_attrs : gw_attrs;
  gb_data : list hes_gw_data_t;
  gb_operation_tables : list hes_gw_operation_table_t;
  gb_addressing_tables : list hes_gw_addressing_table_t;
}.

Record hes_gw_lexicon_type_t := mk_gw_lexicon_type {
  gl_attrs : gw_attrs;
  gl_object_types : list hes_gw_object_type_t;
}.

Record hes_gw_overall_process_t := mk_gw_overall_process {
  gv_attrs : gw_attrs;
  gv_lexicon_types : list hes_gw_lexicon_type_t;
}.

(** [gw_file]: the fourteen texts of the header, in the struct's order. *)
Record hes_gateway_t := mk_gateway {
  gw_file : list string;
  gw_overall_process : option hes_gw_overall_process_t;
}.

Definition file_fields : list string :=
  ["fileFormat"; "fileType"; "filePurpose"; "fileManu"; "fileProduct"; "fileProductRefID";
   "fileCoverage"; "fileStatus"; "fileVersion"; "fileSummaryDescription";
   "fileCreatedDescription"; "fileCreatedDate"; "fileRevisionDescription"; "fileRevisionDate"].

(** ** The loaders *)

Definition _str (s : option string) : string := default "" s.

(** [snprintf] into the 600 bytes of a path. *)
Definition path600 (p : string) : string := str_take 599 p.

Definition item_path (base elem_name : string) (i : nat) : string :=
  path600 (base ++ "." ++ elem_name ++ "[" ++ fmt_d (Z.of_nat i) ++ "]").

Section load.
Context {D N : Type} {lib : LibXml D N}.
Variable alloc_ok : string -> bool.
Variable ctx : hes_query_ctx_t D N.

Definition attribute (base name : string) : string :=
  _str (hes_query_string ctx (path600 (base ++ ".@" ++ name))).

(** The elements of a list are loaded in turn, up to the first that cannot be. *)
Fixpoint load_items {A} (loader : string -> option A) (base elem_name : string) (i n : nat) : list A :=
  match n with
  | O => []
  | S n =>
      match loader (item_path base elem_name i) with
      | None => []
      | Some item => item :: load_items loader base elem_name (S i) n
      end
  end.

Definition HES_GW_LOAD_LIST {A} (base elem_name : string) (loader : string -> option A) : list A :=
  load_items loader base elem_name 0
    (length (hes_query_elem_list ctx (path600 (base ++ "." ++ elem_name)))).

Definition _load_common_attrs (base : string) : gw_attrs :=
  mk_gw_attrs (attribute base "versionNumber") (attribute base "addrPoint")
    (attribute base "transCode") (attribute base "descriptiveName").

Definition _load_data (base : string) : option hes_gw_data_t :=
  if negb (alloc_ok base) then None
  else Some (mk_gw_data (_load_common_attrs base) (attribute base "dataPurpose")
    (attribute base "dataFormat") (attribute base "memoryType") (attribute base "storageType")
    (attribute base "enumerated") (attribute base "description") (attribute base "preassigned")
    (_str (hes_query_string ctx (path600 base)))).

Definition _load_inputs (base : string) : option hes_gw_inputs_t :=
  if negb (alloc_ok base) then None
  else Some (mk_gw_inputs (_load_common_attrs base) (attribute base "dataPurpose")
    (HES_GW_LOAD_LIST base "data" _load_data)).

Definition _load_outputs (base : string) : option hes_gw_outputs_t :=
  if negb (alloc_ok base) then None
  else Some (mk_gw_outputs (_load_common_attrs base) (attribute base "dataPurpose")
    (HES_GW_LOAD_LIST base "data" _load_data)).

Definition _load_param_group (base : string) : option hes_gw_param_group_t :=
  if negb (alloc_ok base) then None
  else Some (mk_gw_param_group (_load_common_attrs base) (attribute base "dataPurpose")
    (attribute base "description") (HES_GW_LOAD_LIST base "data" _load_data)).

Definition _load_operation_table (base : string) : option hes_gw_operation_table_t :=
  if negb (alloc_ok base) then None
  else Some (mk_gw_operation_table (_load_common_attrs base) (attribute base "dataPurpose")
    (HES_GW_LOAD_LIST base "data" _load_data)
    (HES_GW_LOAD_LIST base "inputs" _load_inputs)
    (HES_GW_LOAD_LIST base "inputParameters" _load_param_group)
    (HES_GW_LOAD_LIST base "outputParameters" _load_param_group)
    (HES_GW_LOAD_LIST base "outputs" _load_outputs)).

Definition _load_addressing_table (base : string) : option hes_gw_addressing_table_t :=
  if negb (alloc_ok base) then None
  else Some (mk_gw_addressing_table (_load_common_attrs base) (attribute base "dataPurpose")
    (HES_GW_LOAD_LIST base "data" _load_data)).

Definition _load_object_type (base : string) : option hes_gw_object_type_t :=
  if negb (alloc_ok base) then None
  else Some (mk_gw_object_type (_load_common_attrs base)
    (HES_GW_LOAD_LIST base "data" _load_data)
    (HES_GW_LOAD_LIST base "operationTable" _load_operation_table)
    (HES_GW_LOAD_LIST base "addressingTable" _load_addressing_table)).

Definition _load_lexicon_type (base : string) : option hes_gw_lexicon_type_t :=
  if negb (alloc_ok base) then None
  else Some (mk_gw_lexicon_type (_load_common_attrs base)
    (HES_GW_LOAD_LIST base "objectType" _load_object_type)).

Definition _load_overall_process (base : string) : option hes_gw_overall_process_t :=
  if negb (alloc_ok base) then None
  else Some (mk_gw_overall_process (_load_common_attrs base)
    (HES_GW_LOAD_LIST base "lexiconType" _load_lexicon_type)).
End load.

(** The root struct is allocated under the path "". *)
Definition hes_gateway_load {D N} {lib : LibXml D N} (alloc_ok : string -> bool) (filepath : string)
  : option hes_gateway_t :=
  match hes_query_open filepath with
  | None => None
  | Some ctx =>
      if negb (alloc_ok "") then None
      else Some (mk_gateway
        ((fun f => _str (hes_query_string ctx ("file." ++ f))) <$> file_fields)
        (if 0 <? hes_query_count ctx "file.overallProcess"
         then _load_overall_process alloc_ok ctx "file.overallProcess" else None))
  end.

(** ** The lookups *)

Definition hes_gw_data_find (list : list hes_gw_data_t) (descriptive_name : string) : option hes_gw_data_t :=
  find_first (fun d => ga_descriptive_name (gd_attrs d) =?s descriptive_name) list.

Definition hes_gw_data_value (list : list hes_gw_data_t) (descriptive_name : string) : option string :=
  gd_value <$> hes_gw_data_find list descriptive_name.

(** ** The reading test *)

Definition or_empty (v : option string) : string := default "" v.

Definition show_index (i : nat) : string := ("[" ++ fmt_d (Z.of_nat i) ++ "]")%string.

Definition show_inputs (j : nat) (i : hes_gw_inputs_t) : string :=
  ("    inputs" ++ show_index j ++ " " ++ ga_trans_code (gi_attrs i) ++ " deviceIndex (di) = " ++
   or_empty (hes_gw_data_value (gi_data i) "deviceIndex") ++ ", sourceObject (so) = " ++
   or_empty (hes_gw_data_value (gi_data i) "sourceObject"))%string.

Definition show_input_parameters (j : nat) (g : hes_gw_param_group_t) : string :=
  ("    inputParameters" ++ show_index j ++ " " ++ ga_trans_code (gp_attrs g) ++
   " inputParameter (ip) = " ++ or_empty (hes_gw_data_value (gp_data g) "inputParameter"))%string.

Definition show_output_parameters (j : nat) (g : hes_gw_param_group_t) : string :=
  ("    outputParameters" ++ show_index j ++ " " ++ ga_trans_code (gp_attrs g) ++
   " outputParameter (op) = " ++ or_empty (hes_gw_data_value (gp_data g) "outputParameter"))%string.

Definition show_outputs (j : nat) (o : hes_gw_outputs_t) : string :=
  ("    outputs" ++ show_index j ++ " " ++ ga_trans_code (gx_attrs o) ++ " deviceList (dl) = " ++
   or_empty (hes_gw_data_value (gx_data o) "deviceList") ++ ", destObject (do) = " ++
   or_empty (hes_gw_data_value (gx_data o) "destObject"))%string.

Definition show_operation_table (i : nat) (ot : hes_gw_operation_table_t) : list string :=
  ("  " ++ show_index i ++ " " ++ ga_trans_code (go_attrs ot) ++ " refId = " ++
   or_empty (hes_gw_data_value (go_data ot) "refId") ++ ", enable = " ++
   or_empty (hes_gw_data_value (go_data ot) "enable") ++ ", operation = " ++
   or_empty (hes_gw_data_value (go_data ot) "operation") ++ ", inputs count = " ++
   fmt_d (Z.of_nat (length (go_inputs ot))))%string ::
  imap show_inputs (go_inputs ot) ++
  imap show_input_parameters (go_input_parameters ot) ++
  imap show_output_parameters (go_output_parameters ot) ++
  imap show_outputs (go_outputs ot).

Definition show_addressing_table (i : nat) (t : hes_gw_addressing_table_t) : string :=
  ("  " ++ show_index i ++ " " ++ ga_trans_code (gt_attrs t) ++ " deviceIndex (di) = " ++
   or_empty (hes_gw_data_value (gt_data t) "deviceIndex") ++ ", moduleType (mt) = " ++
   or_empty (hes_gw_data_value (gt_data t) "moduleType") ++ ", moduleRefIndex (mi) = " ++
   or_empty (hes_gw_data_value (gt_data t) "moduleRefIndex") ++ ", netRefIndex (ni) = " ++
   or_empty (hes_gw_data_value (gt_data t) "netRefIndex"))%string.

Definition newline : string := String (chr 10) EmptyString.

Definition show_object_type (obj : hes_gw_object_type_t) : list string :=
  ("[0] objectType: transCode = " ++ ga_trans_code (gb_attrs obj) ++ ", descriptiveName = " ++
   ga_descriptive_name (gb_attrs obj))%string ::
  (newline ++ "--- Operation Tables (" ++ fmt_d (Z.of_nat (length (gb_operation_tables obj))) ++ ") ---" ++
   newline)%string ::
  concat (imap show_operation_table (gb_operation_tables obj)) ++
  (newline ++ "--- Addressing Tables (" ++ fmt_d (Z.of_nat (length (gb_addressing_tables obj))) ++ ") ---" ++
   newline)%string ::
  imap show_addressing_table (gb_addressing_tables obj).

(** The first lexicon's first object type, if both are there. *)
Definition first_object_type (op : hes_gw_overall_process_t) : option hes_gw_object_type_t :=
  match gv_lexicon_types op with lx :: _ => head (gl_object_types lx) | [] => None end.

Definition show_gateway (file : list string) (op : hes_gw_overall_process_t) : list string :=
  let field i := default "" (file !! i) in
  ("overallProcess version  = " ++ ga_version_number (gv_attrs op))%string ::
  ("Gateway product: " ++ field 3%nat ++ " / " ++ field 4%nat ++ " (version " ++ field 8%nat ++ ")")%string ::
  ("Created: " ++ field 11%nat ++ "  Revised: " ++ field 13%nat)%string ::
  match first_object_type op with Some obj => show_object_type obj | None => [] end.

(** The lines of output; [None] is the use of a NULL pointer: the version is printed before the
    process is looked at. *)
Definition test_hes_gateway_api {D N} {lib : LibXml D N} (alloc_ok : string -> bool) (filepath : string)
  : option (list string) :=
  match hes_gateway_load alloc_ok filepath with
  | None => Some []
  | Some gw => show_gateway (gw_file gw) <$> gw_overall_process gw
  end.

(** ** The document read directly

    The same tree, by walking the document's nodes: the specification the queries are held
    against. *)
Section direct.
Context {D N : Type} {lib : LibXml D N}.

Definition attr_of (n : N) (name : string) : string :=
  match find_first (fun a => fst a =?s name) (xml_properties n) with
  | Some (_, v) => default "" v
  | None => ""
  end.

Definition attrs_of (n : N) : gw_attrs :=
  mk_gw_attrs (attr_of n "versionNumber") (attr_of n "addrPoint") (attr_of n "transCode")
    (attr_of n "descriptiveName").

Definition data_of (n : N) : hes_gw_data_t :=
  mk_gw_data (attrs_of n) (attr_of n "dataPurpose") (attr_of n "dataFormat") (attr_of n "memoryType")
    (attr_of n "storageType") (attr_of n "enumerated") (attr_of n "description")
    (attr_of n "preassigned") (_str (_node_text n)).

Definition children_of {A} (f : N -> A) (name : string) (n : N) : list A := f <$> named_children name n.

Definition inputs_of (n : N) : hes_gw_inputs_t :=
  mk_gw_inputs (attrs_of n) (attr_of n "dataPurpose") (children_of data_of "data" n).

Definition outputs_of (n : N) : hes_gw_outputs_t :=
  mk_gw_outputs (attrs_of n) (attr_of n "dataPurpose") (children_of data_of "data" n).

Definition param_group_of (n : N) : hes_gw_param_group_t :=
  mk_gw_param_group (attrs_of n) (attr_of n "dataPurpose") (attr_of n "description")
    (children_of data_of "data" n).

Definition operation_table_of (n : N) : hes_gw_operation_table_t :=
  mk_gw_operation_table (attrs_of n) (attr_of n "dataPurpose") (children_of data_of "data" n)
    (children_of inputs_of "inputs" n) (children_of param_group_of "inputParameters" n)
    (children_of param_group_of "outputParameters" n) (children_of outputs_of "outputs" n).

Definition addressing_table_of (n : N) : hes_gw_addressing_table_t :=
  mk_gw_addressing_table (attrs_of n) (attr_of n "dataPurpose") (children_of data_of "data" n).

Definition object_type_of (n : N) : hes_gw_object_type_t :=
  mk_gw_object_type (attrs_of n) (children_of data_of "data" n)
    (children_of operation_table_of "operationTable" n)
    (children_of addressing_table_of "addressingTable" n).

Definition lexicon_type_of (n : N) : hes_gw_lexicon_type_t :=
  mk_gw_lexicon_type (attrs_of n) (children_of object_type_of "objectType" n).

Definition overall_process_of (n : N) : hes_gw_overall_process_t :=
  mk_gw_overall_process (attrs_of n) (children_of lexicon_type_of "lexiconType" n).

(** A header field: the text of the first element of its name. *)
Definition field_of (r : N) (name : string) : string :=
  match named_children name r with n :: _ => _str (_node_text n) | [] => "" end.

(** A node and what is below it. *)
Inductive below (r : N) : N -> Prop :=
| below_self : below r r
| below_child n c : below r n -> c ∈ xml_children n -> below r c.
End direct.

(** ** XPath's location paths

    A step of a path: an element name, with an index from 0 as the dot paths have it. *)
Definition location_step : Type := string * option nat.

Definition dot_step (s : location_step) : string :=
  (fst s ++ match snd s with Some i => "[" ++ fmt_d (Z.of_nat i) ++ "]" | None => "" end)%string.

Definition xpath_step (s : location_step) : string :=
  (fst s ++ match snd s with Some i => "[" ++ fmt_d (Z.of_nat i + 1) ++ "]" | None => "" end)%string.

Definition step_ok (s : location_step) : bool :=
  (plain_name (fst s) && match snd s with Some i => Z.of_nat i <? 2 ^ 31 | None => true end)%bool.

Section select.
Context {D N : Type} {lib : LibXml D N}.

Definition pick (s : location_step) (cs : list N) : list N :=
  let named := filter (fun c => named_element (fst s) c = true) cs in
  match snd s with None => named | Some i => option_list (named !! i) end.

Definition select_from (ns : list N) (steps : list location_step) : list N :=
  fold_left (fun ns s => ns ≫= fun n => pick s (xml_children n)) steps ns.

(** An absolute path starts at the document, whose one element is the root. *)
Definition select (r : N) (steps : list location_step) : list N :=
  match steps with s :: steps => select_from (pick s [r]) steps | [] => [] end.
End select.

Class LibXmlPaths (D N : Type) (lib : LibXml D N) := {
  xml_attribute_nodes : N -> string -> list N;
  xpath_location : forall d r n steps,
    xmlDocGetRootElement d = Some r -> steps <> [] -> Forall (fun s => step_ok s = true) steps ->
    xmlXPathEval d (Some n) ("/" ++ str_join "/" (xpath_step <$> steps)) = XPATH_NODESET (select r steps);
  xpath_attribute : forall d r n steps a,
    xmlDocGetRootElement d = Some r -> steps <> [] -> Forall (fun s => step_ok s = true) steps ->
    plain_name a = true ->
    xmlXPathEval d (Some n) ("/" ++ str_join "/" ((xpath_step <$> steps) ++ [("@" ++ a)%string])) =
    XPATH_NODESET (select r steps ≫= fun n => xml_attribute_nodes n a);
  attribute_text : forall n a,
    (head (xml_attribute_nodes n a) ≫= _node_text) =
    (fun p => default "" (snd p)) <$> find_first (fun p => fst p =?s a) (xml_properties n);
}.

(** ** The paths the loaders write *)

Lemma name_char_not_sep c : name_char c = true -> is_sep c = false.
Proof. intros H. unfold is_sep. by rewrite !(name_char_neq c) by done. Qed.

Lemma plain_segment name : plain_name name = true ->
  str_forallb (fun c => negb (is_sep c)) name = true /\ starts_with "@" name = false /\
  has_char "[" name = false /\ (name =?s "text()") = false /\ name <> "".
Proof.
  intros Hn. destruct (Tree.plain_name_chars name Hn) as [Hs Hne]. split_and!.
  - eapply str_forallb_impl; [|exact Hs]. intros c Hc. by rewrite (name_char_not_sep c Hc).
  - destruct name as [|c name]; [done|]. cbn in Hs |- *. apply andb_prop in Hs as [Hc _].
    by rewrite (name_char_neq c "@").
  - unfold has_char. by rewrite (plain_name_no_char name "[").
  - apply String.eqb_neq. intros ->. discriminate.
  - done.
Qed.

Lemma str_forallb_append p s t : str_forallb p (s ++ t) = (str_forallb p s && str_forallb p t)%bool.
Proof. induction s as [|c s IH]; [done|]. cbn. by rewrite IH, andb_assoc. Qed.

Lemma digits_not_sep s : str_forallb isdigit s = true -> str_forallb (fun c => negb (is_sep c)) s = true.
Proof.
  apply str_forallb_impl. intros c Hc. rewrite name_char_not_sep; [done|]. unfold name_char.
  by rewrite Hc, orb_true_r.
Qed.

Lemma dot_step_ok s : step_ok s = true -> segment_ok (dot_step s) = true /\ translate_segment (dot_step s) = xpath_step s.
Proof.
  destruct s as [name idx]. unfold step_ok, dot_step, xpath_step. cbn [fst snd]. intros [Hn Hi]%andb_prop.
  destruct (plain_segment name Hn) as (Hsep & Hat & Hbr & Htext & Hne).
  destruct idx as [i|].
  - assert (Hat' : starts_with "@" (name ++ "[" ++ fmt_d (Z.of_nat i) ++ "]") = false) by (by destruct name).
    pose proof (fmt_d_digits (Z.of_nat i) ltac:(lia)) as (_ & Hd & _). split.
    + unfold segment_ok. rewrite !str_forallb_append, Hsep, (digits_not_sep (fmt_d _)) by done. destruct name; [done|]. reflexivity.
    + unfold translate_segment. rewrite Hat'. change ("[" ++ ?x)%string with (String "[" x).
      destruct ((name ++ _)%string =?s "text()") eqn:E.
      { apply String.eqb_eq in E. pose proof (strchr_app_char "[" name (fmt_d (Z.of_nat i) ++ "]") Hbr) as H.
        rewrite E in H. discriminate. }
      rewrite strchr_app_char, before_app_char by done.
      rewrite strtol_fmt_d by (try done; unfold LONG_MAX; bool_hyps; lia). done.
  - rewrite !str_app_nil_r. split; [unfold segment_ok; rewrite Hsep; destruct name; [done|reflexivity]|].
    unfold translate_segment. rewrite Hat, Htext. by rewrite (strchr_no_char "[" name Hbr).
Qed.

Lemma translate_dots texts : forallb segment_ok texts = true ->
  _translate_path (str_join "." texts) true = ("/" ++ str_join "/" (translate_segment <$> texts))%string.
Proof. intros H. unfold _translate_path. by rewrite path_segments_join. Qed.

(** The dot path of some steps, and the XPath it is evaluated as. *)
Definition dots (steps : list location_step) : string := str_join "." (dot_step <$> steps).

Lemma steps_segments steps : Forall (fun s => step_ok s = true) steps ->
  forallb segment_ok (dot_step <$> steps) = true /\
  translate_segment <$> (dot_step <$> steps) = xpath_step <$> steps.
Proof.
  induction 1 as [|s steps Hs _ [IH1 IH2]]; [done|]. destruct (dot_step_ok s Hs) as [H1 H2].
  cbn. by rewrite H1, IH1, H2, IH2.
Qed.

Lemma translate_steps steps : Forall (fun s => step_ok s = true) steps ->
  _translate_path (dots steps) true = ("/" ++ str_join "/" (xpath_step <$> steps))%string.
Proof. intros [H1 H2]%steps_segments. unfold dots. by rewrite translate_dots, H2. Qed.

Lemma str_join_snoc sep l x : l <> [] -> str_join sep (l ++ [x]) = (str_join sep l ++ sep ++ x)%string.
Proof.
  induction l as [|y l IH]; [done|]. intros _. destruct l as [|z l]; [done|].
  cbn [app]. rewrite !str_join_cons. rewrite <- app_comm_cons in IH. rewrite IH by done.
  by rewrite !str_app_assoc.
Qed.

Lemma translate_attribute steps a : steps <> [] -> Forall (fun s => step_ok s = true) steps -> plain_name a = true ->
  _translate_path (dots steps ++ ".@" ++ a) true =
  ("/" ++ str_join "/" ((xpath_step <$> steps) ++ [("@" ++ a)%string]))%string.
Proof.
  intros Hne [H1 H2]%steps_segments Ha. unfold dots.
  change (".@" ++ a)%string with ("." ++ ("@" ++ a))%string.
  rewrite <- str_join_snoc by (destruct steps; [done|discriminate]). rewrite translate_dots.
  - by rewrite fmap_app, H2.
  - rewrite forallb_app, H1. cbn. destruct (plain_segment a Ha) as (Hsep & _). by rewrite Hsep.
Qed.

(** ** A path and the node it leads to *)
Section reading.
Context {D N : Type} {lib : LibXml D N} {paths : LibXmlPaths D N lib}.
Variables (d : D) (r : N).
Hypothesis Hroot : xmlDocGetRootElement d = Some r.

Abbreviation ctx := (mk_ctx d r).

(** [base] leads to [n] alone, and has [k] characters at most. *)
Definition locates (base : string) (n : N) (k : nat) : Prop :=
  exists steps, base = dots steps /\ steps <> [] /\ Forall (fun s => step_ok s = true) steps /\
    select r steps = [n] /\ (String.length base <= k)%nat.

Lemma select_snoc steps s : steps <> [] ->
  select r (steps ++ [s]) = select r steps ≫= fun n => pick s (xml_children n).
Proof. destruct steps as [|s0 steps]; [done|]. intros _. cbn. unfold select_from. by rewrite fold_left_app. Qed.

Lemma dots_snoc steps s : steps <> [] -> dots (steps ++ [s]) = (dots steps ++ "." ++ dot_step s)%string.
Proof. intros H. unfold dots. rewrite fmap_app. apply str_join_snoc. by destruct steps. Qed.

Lemma path600_fits p : (String.length p <= 599)%nat -> path600 p = p.
Proof. apply str_take_ge. Qed.

Lemma nodes_at steps : steps <> [] -> Forall (fun s => step_ok s = true) steps ->
  node_set (_eval_root ctx (dots steps)) = select r steps.
Proof. intros Hne Hok. unfold _eval_root, _eval. cbn [qc_doc qc_root]. rewrite translate_steps by done. by rewrite (xpath_location d r). Qed.

Lemma string_at base n k : locates base n k -> (k <= 599)%nat ->
  _str (hes_query_string ctx (path600 base)) = _str (_node_text n).
Proof.
  intros (steps & -> & Hne & Hok & Hsel & Hk) Hroom. rewrite path600_fits by lia.
  unfold hes_query_string. by rewrite nodes_at, Hsel.
Qed.

Lemma attribute_at base n k a : locates base n k -> plain_name a = true ->
  (k + 2 + String.length a <= 599)%nat -> attribute ctx base a = attr_of n a.
Proof.
  intros (steps & -> & Hne & Hok & Hsel & Hk) Ha Hroom. unfold attribute.
  rewrite path600_fits by (rewrite !length_str_app; cbn [String.length]; lia).
  unfold hes_query_string, _eval_root, _eval. cbn [qc_doc qc_root].
  rewrite translate_attribute by done. rewrite (xpath_attribute d r) by done. cbn [node_set].
  rewrite Hsel. cbn [mbind list_bind]. rewrite app_nil_r. pose proof (attribute_text n a) as H.
  unfold attr_of. destruct (xml_attribute_nodes n a) as [|x xs]; cbn in H |- *;
    destruct (find_first _ _) as [[y v]|]; try discriminate; [done|by rewrite H|by rewrite H].
Qed.

Lemma children_at base n k name : locates base n k -> plain_name name = true ->
  (k + 1 + String.length name <= 599)%nat ->
  hes_query_elem_list ctx (path600 (base ++ "." ++ name)) = mk_elem ctx <$> named_children name n.
Proof.
  intros (steps & -> & Hne & Hok & Hsel & Hk) Hn Hroom.
  rewrite path600_fits by (rewrite !length_str_app; cbn [String.length]; lia).
  unfold hes_query_elem_list, _handle_list. f_equal.
  replace (dots steps ++ "." ++ name)%string with (dots (steps ++ [(name, None)])).
  2:{ rewrite dots_snoc by done. unfold dot_step. cbn [fst snd]. by rewrite str_app_nil_r. }
  rewrite nodes_at.
  - rewrite select_snoc, Hsel by done. cbn. apply app_nil_r.
  - by destruct steps.
  - apply Forall_app. split; [done|]. constructor; [|done]. unfold step_ok. cbn [fst snd]. by rewrite Hn.
Qed.

Lemma item_at base n k name i c : locates base n k -> plain_name name = true ->
  named_children name n !! i = Some c -> Z.of_nat i < 2 ^ 31 ->
  (k + 13 + String.length name <= 599)%nat ->
  locates (item_path base name i) c (k + 13 + String.length name).
Proof.
  intros (steps & -> & Hne & Hok & Hsel & Hk) Hn Hc Hi Hroom.
  pose proof (length_fmt_u32 (Z.of_nat i) ltac:(lia)) as Hlen. unfold item_path.
  assert (Hp : (String.length (dots steps ++ "." ++ name ++ "[" ++ fmt_d (Z.of_nat i) ++ "]") <=
                k + 13 + String.length name)%nat) by (rewrite !length_str_app; cbn [String.length]; lia).
  rewrite path600_fits by lia. exists (steps ++ [(name, Some i)]). split_and!.
  - rewrite dots_snoc by done. unfold dot_step. cbn [fst snd]. done.
  - by destruct steps.
  - apply Forall_app. split; [done|]. constructor; [|done]. unfold step_ok. cbn [fst snd].
    rewrite Hn. by apply Z.ltb_lt.
  - rewrite select_snoc, Hsel by done. cbn [mbind list_bind]. rewrite app_nil_r. unfold pick. cbn [fst snd].
    unfold named_children in Hc. by rewrite Hc.
  - lia.
Qed.

(** ** The loaders read the document *)

(** libxml2 counts the nodes of a set in an [int]. *)
Hypothesis Hsmall : forall n, below r n -> Z.of_nat (length (xml_children n)) < 2 ^ 31.

Variable alloc_ok : string -> bool.
Hypothesis Halloc : forall p, alloc_ok p = true.

(** At any path of [k] characters at most, the loader gives the node's struct. *)
Definition loads {A} (loader : string -> option A) (f : N -> A) (k : nat) : Prop :=
  forall base n, locates base n k -> below r n -> loader base = Some (f n).

Lemma named_children_below name n c : below r n -> c ∈ named_children name n -> below r c.
Proof. intros Hn Hc. unfold named_children in Hc. apply list_elem_of_filter in Hc as [_ Hc]. by eapply below_child. Qed.

Lemma load_items_spec {A} (loader : string -> option A) f base name n k i :
  loads loader f (k + 13 + String.length name) -> locates base n k -> below r n -> plain_name name = true ->
  (k + 13 + String.length name <= 599)%nat ->
  load_items loader base name i (length (drop i (named_children name n))) = f <$> drop i (named_children name n).
Proof.
  intros Hl Hb Hn Hname Hroom.
  assert (Hlen : Z.of_nat (length (named_children name n)) < 2 ^ 31).
  { eapply Z.le_lt_trans; [|apply (Hsmall n Hn)]. apply Nat2Z.inj_le. apply length_filter. }
  remember (length (drop i (named_children name n))) as m eqn:Em. revert i Em.
  induction m as [|m IH]; intros i Em.
  - destruct (drop i _); [done|]. discriminate.
  - destruct (named_children name n !! i) as [c|] eqn:Ec.
    2:{ apply lookup_ge_None in Ec. rewrite drop_ge in Em by done. discriminate. }
    rewrite (drop_S _ c i) in * by done. cbn in Em. injection Em as Em. cbn [load_items fmap list_fmap].
    apply lookup_lt_Some in Ec as Hi.
    rewrite (Hl _ c).
    + f_equal. by apply IH.
    + apply (item_at base n); try done. lia.
    + eapply named_children_below; [done|]. by eapply list_elem_of_lookup_2.
Qed.

Lemma load_list_spec {A} (loader : string -> option A) f base name n k :
  loads loader f (k + 13 + String.length name) -> locates base n k -> below r n -> plain_name name = true ->
  (k + 13 + String.length name <= 599)%nat ->
  HES_GW_LOAD_LIST ctx base name loader = children_of f name n.
Proof.
  intros Hl Hb Hn Hname Hroom. unfold HES_GW_LOAD_LIST. rewrite (children_at base n k) by (try done; lia).
  rewrite length_fmap. exact (load_items_spec loader f base name n k 0 Hl Hb Hn Hname Hroom).
Qed.
Lemma common_attrs_at base n k : locates base n k -> (k <= 580)%nat ->
  _load_common_attrs ctx base = attrs_of n.
Proof.
  intros Hb Hk. unfold _load_common_attrs, attrs_of.
  by rewrite !(attribute_at base n k) by (try done; cbn [String.length]; lia).
Qed.

Ltac load_struct Hb :=
  rewrite Halloc; cbn [negb]; f_equal;
  rewrite (common_attrs_at _ _ _ Hb) by lia;
  rewrite ?(attribute_at _ _ _ _ Hb) by (try done; cbn [String.length]; lia).

(** One list of a struct: its loader reads the children at the longer path. *)
Ltac load_list k lem :=
  apply (load_list_spec _ _ _ _ _ k); try done; try (cbn [String.length]; lia);
  apply lem; cbn [String.length]; lia.

Lemma loads_data k : (k <= 580)%nat -> loads (_load_data alloc_ok ctx) data_of k.
Proof.
  intros Hk base n Hb Hn. unfold _load_data, data_of. load_struct Hb.
  by rewrite (string_at base n k) by (try done; lia).
Qed.

Lemma data_list_at base n k : locates base n k -> below r n -> (k <= 560)%nat ->
  HES_GW_LOAD_LIST ctx base "data" (_load_data alloc_ok ctx) = children_of data_of "data" n.
Proof. intros Hb Hn Hk. load_list k loads_data. Qed.

Lemma loads_inputs k : (k <= 560)%nat -> loads (_load_inputs alloc_ok ctx) inputs_of k.
Proof.
  intros Hk base n Hb Hn. unfold _load_inputs, inputs_of. load_struct Hb. by rewrite (data_list_at base n k).
Qed.

Lemma loads_outputs k : (k <= 560)%nat -> loads (_load_outputs alloc_ok ctx) outputs_of k.
Proof.
  intros Hk base n Hb Hn. unfold _load_outputs, outputs_of. load_struct Hb. by rewrite (data_list_at base n k).
Qed.

Lemma loads_param_group k : (k <= 560)%nat -> loads (_load_param_group alloc_ok ctx) param_group_of k.
Proof.
  intros Hk base n Hb Hn. unfold _load_param_group, param_group_of. load_struct Hb.
  by rewrite (data_list_at base n k).
Qed.

Lemma loads_addressing_table k : (k <= 560)%nat -> loads (_load_addressing_table alloc_ok ctx) addressing_table_of k.
Proof.
  intros Hk base n Hb Hn. unfold _load_addressing_table, addressing_table_of. load_struct Hb.
  by rewrite (data_list_at base n k).
Qed.

Lemma loads_operation_table k : (k <= 520)%nat -> loads (_load_operation_table alloc_ok ctx) operation_table_of k.
Proof.
  intros Hk base n Hb Hn. unfold _load_operation_table, operation_table_of. load_struct Hb.
  rewrite (data_list_at base n k) by (try done; lia).
  f_equal; [load_list k loads_inputs|load_list k loads_param_group|load_list k loads_param_group|
            load_list k loads_outputs].
Qed.

Lemma loads_object_type k : (k <= 480)%nat -> loads (_load_object_type alloc_ok ctx) object_type_of k.
Proof.
  intros Hk base n Hb Hn. unfold _load_object_type, object_type_of. load_struct Hb.
  rewrite (data_list_at base n k) by (try done; lia).
  f_equal; [load_list k loads_operation_table|load_list k loads_addressing_table].
Qed.

Lemma loads_lexicon_type k : (k <= 440)%nat -> loads (_load_lexicon_type alloc_ok ctx) lexicon_type_of k.
Proof.
  intros Hk base n Hb Hn. unfold _load_lexicon_type, lexicon_type_of. load_struct Hb.
  f_equal. load_list k loads_object_type.
Qed.

Lemma loads_overall_process k : (k <= 400)%nat -> loads (_load_overall_process alloc_ok ctx) overall_process_of k.
Proof.
  intros Hk base n Hb Hn. unfold _load_overall_process, overall_process_of. load_struct Hb.
  f_equal. load_list k loads_lexicon_type.
Qed.

Lemma field_at name : named_element "file" r = true -> plain_name name = true ->
  _str (hes_query_string ctx ("file." ++ name)) = field_of r name.
Proof.
  intros Hfile Hn. change ("file." ++ name)%string with ("file" ++ "." ++ name)%string.
  replace ("file" ++ "." ++ name)%string with (dots [("file", None); (name, None)]).
  2:{ unfold dots, dot_step. cbn [fmap list_fmap fst snd]. rewrite str_join_cons. cbn [str_join]. by rewrite !str_app_nil_r. }
  unfold hes_query_string. rewrite nodes_at; [|done|].
  - unfold field_of, select, select_from, pick. cbn [fst snd fold_left filter list_filter].
    rewrite decide_True by done. cbn [mbind list_bind]. rewrite app_nil_r. unfold named_children.
    by destruct (filter _ (xml_children r)).
  - constructor; [done|]. constructor; [|done]. unfold step_ok. cbn [fst snd]. by rewrite Hn.
Qed.

Lemma process_count : named_element "file" r = true ->
  node_set (_eval_root ctx "file.overallProcess") = named_children "overallProcess" r.
Proof.
  intros Hfile. change "file.overallProcess" with (dots [("file", None); ("overallProcess", None)]).
  rewrite nodes_at; [|done|by repeat constructor].
  unfold select, select_from, pick. cbn [fst snd fold_left filter list_filter].
  rewrite decide_True by done. cbn [mbind list_bind]. apply app_nil_r.
Qed.
End reading.

(** The equivalence of the two readings of a document. *)
Section equivalence.
Context {D N : Type} {lib : LibXml D N} {paths : LibXmlPaths D N lib}.
Variable alloc_ok : string -> bool.

Lemma load_opened filepath d r : xmlParseFile filepath = Some d -> xmlDocGetRootElement d = Some r ->
  alloc_ok "" = true -> named_element "file" r = true ->
  hes_gateway_load alloc_ok filepath =
  Some (mk_gateway (field_of r <$> file_fields)
    (match named_children "overallProcess" r with
     | [] => None
     | _ => _load_overall_process alloc_ok (mk_ctx d r) "file.overallProcess"
     end)).
Proof.
  intros Hd Hr Ha Hfile. unfold hes_gateway_load, hes_query_open. rewrite Hd, Hr. cbn [fmap option_fmap option_map].
  rewrite Ha. cbn [negb]. do 2 f_equal.
  - unfold file_fields. cbn [fmap list_fmap]. by rewrite !(field_at d r Hr) by done.
  - unfold hes_query_count. rewrite (process_count d r Hr Hfile). by destruct (named_children _ r).
Qed.

Lemma load_read filepath d r p :
  xmlParseFile filepath = Some d -> xmlDocGetRootElement d = Some r ->
  (forall base, alloc_ok base = true) ->
  named_element "file" r = true -> named_children "overallProcess" r = [p] ->
  (forall n, below r n -> Z.of_nat (length (xml_children n)) < 2 ^ 31) ->
  hes_gateway_load alloc_ok filepath =
  Some (mk_gateway (field_of r <$> file_fields) (Some (overall_process_of p))).
Proof.
  intros Hd Hr Ha Hfile Hp Hsmall. rewrite (load_opened _ d r) by done. rewrite Hp. do 2 f_equal.
  apply (loads_overall_process d r Hr Hsmall alloc_ok Ha 20); [lia| |].
  - exists [("file", None); ("overallProcess", None)]. split_and!; [done|done|by repeat constructor| |cbn; lia].
    unfold select, select_from, pick. cbn [fst snd fold_left filter list_filter].
    rewrite decide_True by done. cbn [mbind list_bind]. rewrite app_nil_r. exact Hp.
  - apply (named_children_below r "overallProcess" r); [constructor|]. rewrite Hp. by left.
Qed.

(** C16: Loading a document through path queries gives exactly what walking its nodes gives:
    every container under its parent in document order, with its own attributes, texts and
    groups, whatever the number of elements. No path the loader writes outgrows its 600 bytes,
    so none is cut into a query for another element. The document is a <file> with one
    <overallProcess>. *)
Theorem load_reads_document filepath d r p :
  xmlParseFile filepath = Some d -> xmlDocGetRootElement d = Some r ->
  (forall base, alloc_ok base = true) ->
  named_element "file" r = true -> named_children "overallProcess" r = [p] ->
  (forall n, below r n -> Z.of_nat (length (xml_children n)) < 2 ^ 31) ->
  hes_gateway_load alloc_ok filepath =
  Some (mk_gateway (field_of r <$> file_fields) (Some (overall_process_of p))).
Proof. apply load_read. Qed.

(** The reading test of the command line uses a NULL pointer exactly when the document has no
    <overallProcess>; on any other it prints the first object type of the document with all its
    tables. *)
Theorem show_needs_a_process filepath d r :
  xmlParseFile filepath = Some d -> xmlDocGetRootElement d = Some r ->
  (forall base, alloc_ok base = true) -> named_element "file" r = true ->
  (forall n, below r n -> Z.of_nat (length (xml_children n)) < 2 ^ 31) ->
  match named_children "overallProcess" r with
  | [] => test_hes_gateway_api alloc_ok filepath = None
  | [p] => test_hes_gateway_api alloc_ok filepath =
           Some (show_gateway (field_of r <$> file_fields) (overall_process_of p))
  | _ => is_Some (test_hes_gateway_api alloc_ok filepath)
  end.
Proof.
  intros Hd Hr Ha Hfile Hsmall. unfold test_hes_gateway_api.
  destruct (named_children "overallProcess" r) as [|p [|q ps]] eqn:Ep.
  - by rewrite (load_opened _ d r), Ep by done.
  - by rewrite (load_read filepath d r p).
  - rewrite (load_opened _ d r), Ep by done. unfold _load_overall_process. rewrite Ha. by eexists.
Qed.
End equivalence.

(** ** An instance: documents as trees *)
Module TreePaths.
Import Tree.
#[local] Existing Instance Tree.lib.

Definition attribute_nodes (n : node) (a : string) : list node :=
  match n with
  | Elem _ ps _ => (fun p => Attr (fst p) (snd p)) <$> filter (fun p => fst p = a) ps
  | _ => []
  end.

Lemma named_filter files name (cs : list node) :
  filter (fun c => is_named name c = true) cs =
  filter (fun c => @named_element node node (lib files) name c = true) cs.
Proof. apply list_filter_iff. intros x. by rewrite (named_is_named files). Qed.

Lemma step_pick files s n : step_ok s = true ->
  step (xpath_step s) n = @pick node node (lib files) s (Tree.children_of n).
Proof.
  destruct s as [name idx]. unfold step_ok. cbn [fst snd]. intros [Hn Hi]%andb_prop.
  destruct (plain_segment name Hn) as (Hsep & Hat & Hbr & Htext & Hne). unfold xpath_step, pick. cbn [fst snd].
  destruct idx as [i|]; [|by rewrite str_app_nil_r, step_plain, (named_filter files)].
  change ("[" ++ ?x)%string with (String "[" x). set (t := (fmt_d (Z.of_nat i + 1) ++ "]")%string).
  assert (Hx : forall u, has_char "[" u = false -> ((name ++ String "[" t)%string =?s u) = false).
  { intros u Hu. apply String.eqb_neq. intros <-. unfold has_char in Hu. by rewrite strchr_app_char in Hu. }
  unfold step. replace (starts_with "@" (name ++ String "[" t)) with false by (by destruct name).
  rewrite !Hx by done. rewrite strchr_app_char, before_app_char by done. unfold t.
  rewrite strtol_fmt_d by (try done; unfold LONG_MAX; bool_hyps; lia). cbn [fst].
  rewrite (proj2 (Z.leb_gt _ 0)) by lia. rewrite (named_filter files). do 2 f_equal. lia.
Qed.

Lemma steps_select files ns ss : Forall (fun s => step_ok s = true) ss ->
  steps (xpath_step <$> ss) ns = @select_from node node (lib files) ns ss.
Proof.
  intros H. revert ns. induction H as [|s ss Hs _ IH]; intros ns; [done|]. unfold steps, select_from in *.
  cbn [fmap list_fmap fold_left]. rewrite IH. f_equal.
  induction ns as [|n ns IHn]; [done|]. cbn [mbind list_bind]. rewrite IHn. by rewrite (step_pick files).
Qed.

(** The segments the evaluator reads back from an absolute path. *)
Lemma eval_absolute files root n ss ts :
  ss <> [] -> Forall (fun s => step_ok s = true) ss -> forallb segment_ok ts = true ->
  eval root n ("/" ++ str_join "/" ((xpath_step <$> ss) ++ ts)) =
  XPATH_NODESET (steps ts (@select node node (lib files) root ss)).
Proof.
  intros Hne Hok Hts. unfold eval. set (texts := (xpath_step <$> ss) ++ ts).
  assert (Htexts : forallb segment_ok texts = true).
  { unfold texts. rewrite forallb_app, Hts, andb_true_r. clear -Hok.
    induction Hok as [|s ss Hs _ IH]; [done|]. cbn. rewrite IH, andb_true_r. unfold step_ok in Hs.
    destruct s as [name idx]. cbn [fst snd] in Hs. apply andb_prop in Hs as [Hn _].
    destruct (plain_segment name Hn) as (Hsep & _ & _ & _ & Hne). unfold segment_ok, xpath_step. cbn [fst snd].
    destruct idx as [i|]; [|rewrite str_app_nil_r, Hsep; destruct name; [done|reflexivity]].
    pose proof (fmt_d_digits (Z.of_nat i + 1) ltac:(lia)) as (_ & Hd & _).
    rewrite !str_forallb_append, Hsep, (digits_not_sep (fmt_d _)) by done. destruct name; [done|reflexivity]. }
  assert (Hslash : str_prefix "//" ("/" ++ str_join "/" texts) = false).
  { destruct ss as [|s ss]; [done|]. unfold texts in *. cbn [fmap list_fmap app forallb] in *.
    apply andb_prop in Htexts as [Hs _]. destruct (xpath_step s) as [|c t] eqn:Es; [done|].
    unfold segment_ok in Hs. cbn in Hs. apply andb_prop in Hs as [Hc _].
    assert (Hj : exists u, str_join "/" (String c t :: (xpath_step <$> ss) ++ ts) = String c u).
    { destruct ((xpath_step <$> ss) ++ ts); [by eexists|]. rewrite str_join_cons. by eexists. }
    destruct Hj as [u ->]. cbn. unfold is_sep in Hc. apply negb_true_iff, orb_false_iff in Hc as [_ ->]. done. }
  rewrite Hslash. change (starts_with "/" ("/" ++ str_join "/" texts)) with true. cbn beta iota.
  change (path_segments "" ("/" ++ str_join "/" texts)) with (path_segments "" (str_join "/" texts)).
  rewrite (path_segments_join_sep "/") by done. f_equal. unfold texts, steps. rewrite fold_left_app. f_equal.
  destruct ss as [|s ss]; [done|]. inversion Hok as [|? ? Hs Hss]; subst.
  cbn [fmap list_fmap fold_left mbind list_bind]. rewrite app_nil_r, (step_pick files) by done.
  exact (steps_select files _ ss Hss).
Qed.

#[export] Instance paths files : LibXmlPaths node node (lib files).
Proof.
  refine {| xml_attribute_nodes := attribute_nodes |}.
  - intros d r n ss [= <-] Hne Hok. rewrite <- (app_nil_r (xpath_step <$> ss)).
    exact (eval_absolute files d (Some n) ss [] Hne Hok eq_refl).
  - intros d r n ss a [= <-] Hne Hok Ha. etransitivity.
    + apply (eval_absolute files d (Some n) ss [("@" ++ a)%string] Hne Hok). cbn.
      destruct (plain_segment a Ha) as (Hsep & _). by rewrite Hsep.
    + unfold steps. cbn [fold_left]. f_equal.
  - intros n a. destruct n as [name ps cs|c|k v]; [|done..]. cbn.
    induction ps as [|[k v] ps IH]; [done|]. cbn. destruct (decide (k = a)) as [->|Hk].
    + by rewrite String.eqb_refl.
    + apply String.eqb_neq in Hk as E. rewrite E. exact IH.
Defined.
End TreePaths.

(** ** The statements at a concrete input *)

(** Every element has fewer children than an [int] counts. *)
Fixpoint counted (n : Tree.node) : bool :=
  match n with
  | Tree.Elem _ _ cs => ((Z.of_nat (length cs) <? 2 ^ 31) && forallb counted cs)%bool
  | _ => true
  end.

Lemma counted_below files r n : counted r = true -> @below _ _ (Tree.lib files) r n ->
  Z.of_nat (length (Tree.children_of n)) < 2 ^ 31.
Proof.
  intros Hr Hn. assert (Hc : counted n = true).
  { induction Hn as [|n c _ IH Hc]; [done|]. cbn in Hc. destruct n as [name ps cs|s|k v]; cbn in Hc;
      [|by apply elem_of_nil in Hc..].
    cbn in IH. apply andb_prop in IH as [_ IH]. rewrite forallb_forall in IH. apply IH.
    by apply list_elem_of_In. }
  destruct n as [name ps cs|s|k v]; cbn in *; [|lia..]. apply andb_prop in Hc as [Hc _]. by apply Z.ltb_lt.
Qed.

Definition ex_datum (tc name value : string) : Tree.node :=
  Tree.Elem "data" [("transCode", tc); ("descriptiveName", name)] [Tree.Text value].

Definition ex_table (tc ref : string) : Tree.node :=
  Tree.Elem "operationTable" [("transCode", tc)]
    [ex_datum "ri" "refId" ref; ex_datum "en" "enable" "1";
     Tree.Elem "inputs" [("transCode", "ip1")] [ex_datum "di" "deviceIndex" "6"];
     Tree.Elem "inputs" [("transCode", "ip2")] [ex_datum "di" "deviceIndex" "7"];
     Tree.Elem "outputs" [("transCode", "op1")] [ex_datum "dl" "deviceList" "3"]].

Definition ex_process : Tree.node :=
  Tree.Elem "overallProcess" [("versionNumber", "1.0.0")]
    [Tree.Elem "lexiconType" [("transCode", "ob")]
       [Tree.Elem "objectType" [("transCode", "bm")]
          [ex_table "ot1" "1"; ex_table "ot2" "2";
           Tree.Elem "addressingTable" [("transCode", "at1")] [ex_datum "di" "deviceIndex" "6"]]]].

Definition ex_file : Tree.node := Tree.Elem "file" [] [Tree.Elem "fileManu" [] [Tree.Text "acme"]; ex_process].

Definition ex_documents (path : string) : option Tree.node :=
  if path =?s "bm.xml" then Some ex_file
  else if path =?s "bare.xml" then Some (Tree.Elem "file" [] []) else None.

Lemma load_reads_document_witness :
  hes_gateway_load (lib := Tree.lib ex_documents) (fun _ => true) "bm.xml" =
  Some (mk_gateway (field_of (lib := Tree.lib ex_documents) ex_file <$> file_fields)
         (Some (overall_process_of (lib := Tree.lib ex_documents) ex_process))).
Proof.
  apply (load_reads_document (paths := TreePaths.paths ex_documents) (fun _ => true) "bm.xml" ex_file ex_file);
    [reflexivity|reflexivity|done|reflexivity|reflexivity|].
  intros n. apply counted_below. vm_compute. reflexivity.
Defined.

Lemma show_needs_a_process_witness :
  test_hes_gateway_api (lib := Tree.lib ex_documents) (fun _ => true) "bare.xml" = None.
Proof.
  apply (show_needs_a_process (paths := TreePaths.paths ex_documents) (fun _ => true) "bare.xml"
    (Tree.Elem "file" [] []) (Tree.Elem "file" [] [])); [reflexivity|reflexivity|done|reflexivity|].
  intros n. apply counted_below. vm_compute. reflexivity.
Defined.

(** The second table is read with its own groups. *)
Example ex_second_table :
  (go_inputs <$> (o ← hes_gateway_load (lib := Tree.lib ex_documents) (fun _ => true) "bm.xml" ≫= gw_overall_process;
                  first_object_type o ≫= fun b => gb_operation_tables b !! 1%nat)) =
  Some ((inputs_of (lib := Tree.lib ex_documents)) <$>
        [Tree.Elem "inputs" [("transCode", "ip1")] [ex_datum "di" "deviceIndex" "6"];
         Tree.Elem "inputs" [("transCode", "ip2")] [ex_datum "di" "deviceIndex" "7"]]).
Proof. vm_compute. reflexivity. Qed.
