(* ===== verification/GatewayPrint.v ===== *)
(** * Printing the document's structs

    Models hes_gateway_print of src/src/common/hes_gateway.c, the printer for debugging: the
    text it writes, and what that text is as a sequence of tags. *)

From S2P Require Import Prelude CLib HesQuery GatewayDoc.

Definition dq : string := String (chr 34) EmptyString.

Fixpoint _print_indent (indent : nat) : string :=
  match indent with O => "" | S n => "  " ++ _print_indent n end.

(** The tag of an element, with its two attributes. *)
Definition opening (name : string) (a : gw_attrs) : string :=
  "<" ++ name ++ " transCode=" ++ dq ++ ga_trans_code a ++ dq ++ " descriptiveName=" ++ dq ++
  ga_descriptive_name a ++ dq ++ ">".

Definition closing (name : string) : string := "</" ++ name ++ ">".

Definition _print_data (d : hes_gw_data_t) (indent : nat) : string :=
  _print_indent indent ++ opening "data" (gd_attrs d) ++ gd_value d ++ closing "data" ++ newline.

Fixpoint print_each {A} (print : A -> string) (l : list A) : string :=
  match l with [] => "" | x :: l => print x ++ print_each print l end.

Definition _print_data_list (data : list hes_gw_data_t) (indent : nat) : string :=
  print_each (fun d => _print_data d indent) data.

(** An element on several lines; its tags are behind [indent] pairs of spaces. *)
Definition print_element (indent : nat) (name : string) (a : gw_attrs) (body : string) : string :=
  _print_indent indent ++ opening name a ++ newline ++ body ++ _print_indent indent ++ closing name ++ newline.

Definition print_inputs (i : hes_gw_inputs_t) : string :=
  print_element 5 "inputs" (gi_attrs i) (_print_data_list (gi_data i) 11).

Definition print_param_group (name : string) (g : hes_gw_param_group_t) : string :=
  print_element 5 name (gp_attrs g) (_print_data_list (gp_data g) 11).

Definition print_outputs (o : hes_gw_outputs_t) : string :=
  print_element 5 "outputs" (gx_attrs o) (_print_data_list (gx_data o) 11).

Definition print_operation_table (ot : hes_gw_operation_table_t) : string :=
  print_element 4 "operationTable" (go_attrs ot)
    (_print_data_list (go_data ot) 9 ++ print_each print_inputs (go_inputs ot) ++
     print_each (print_param_group "inputParameters") (go_input_parameters ot) ++
     print_each (print_param_group "outputParameters") (go_output_parameters ot) ++
     print_each print_outputs (go_outputs ot)).

Definition print_addressing_table (t : hes_gw_addressing_table_t) : string :=
  print_element 4 "addressingTable" (gt_attrs t) (_print_data_list (gt_data t) 9).

Definition print_object_type (obj : hes_gw_object_type_t) : string :=
  print_element 3 "objectType" (gb_attrs obj)
    (_print_data_list (gb_data obj) 7 ++ print_each print_operation_table (gb_operation_tables obj) ++
     print_each print_addressing_table (gb_addressing_tables obj)).

Definition print_lexicon_type (lx : hes_gw_lexicon_type_t) : string :=
  print_element 2 "lexiconType" (gl_attrs lx) (print_each print_object_type (gl_object_types lx)).

Definition print_overall_process (op : hes_gw_overall_process_t) : string :=
  print_element 1 "overallProcess" (gv_attrs op) (print_each print_lexicon_type (gv_lexicon_types op)).

(** One of the header's texts. *)
Definition print_field (f : string * string) : string :=
  _print_indent 1 ++ "<" ++ fst f ++ ">" ++ snd f ++ closing (fst f) ++ newline.

Definition hes_gateway_print (gw : option hes_gateway_t) : string :=
  match gw with
  | None => ""
  | Some gw =>
      "<file>" ++ newline ++ print_each print_field (combine file_fields (gw_file gw)) ++
      match gw_overall_process gw with Some op => print_overall_process op | None => "" end ++
      "</file>" ++ newline
  end.

(** ** Reading the tags back

    The elements that are open, innermost first, and the text of the tag being read. *)

Definition tag_state : Type := list string * option string.

Definition read_tag (text : string) (open : list string) : option (list string) :=
  match text with
  | String c name =>
      if Ascii.eqb c "/" then match open with top :: rest => if name =?s top then Some rest else None | [] => None end
      else Some (before " " text :: open)
  | EmptyString => None
  end.

Definition read_char (c : ascii) (st : tag_state) : option tag_state :=
  match snd st with
  | None =>
      if Ascii.eqb c "<" then Some (fst st, Some "")
      else if Ascii.eqb c ">" then None else Some st
  | Some text =>
      if Ascii.eqb c "<" then None
      else if Ascii.eqb c ">" then let* open := read_tag text (fst st) in Some (open, None)
      else Some (fst st, Some (text ++ String c "")%string)
  end.

Fixpoint read_tags (s : string) (st : tag_state) : option tag_state :=
  match s with EmptyString => Some st | String c s => let* st := read_char c st in read_tags s st end.

(** Every tag the text opens is closed in it, in order, and it closes no other. *)
Definition well_nested (s : string) : Prop := forall open, read_tags s (open, None) = Some (open, None).

(** ** Texts without a tag *)

Definition plain_text (s : string) : bool := str_forallb (fun c => negb (Ascii.eqb c "<" || Ascii.eqb c ">")) s.

Definition plain_attrs (a : gw_attrs) : bool := plain_text (ga_trans_code a) && plain_text (ga_descriptive_name a).
Definition plain_data (d : hes_gw_data_t) : bool := plain_attrs (gd_attrs d) && plain_text (gd_value d).
Definition plain_inputs (i : hes_gw_inputs_t) : bool := plain_attrs (gi_attrs i) && forallb plain_data (gi_data i).
Definition plain_param_group (g : hes_gw_param_group_t) : bool := plain_attrs (gp_attrs g) && forallb plain_data (gp_data g).
Definition plain_outputs (o : hes_gw_outputs_t) : bool := plain_attrs (gx_attrs o) && forallb plain_data (gx_data o).
Definition plain_operation_table (t : hes_gw_operation_table_t) : bool :=
  plain_attrs (go_attrs t) && forallb plain_data (go_data t) && forallb plain_inputs (go_inputs t) &&
  forallb plain_param_group (go_input_parameters t) && forallb plain_param_group (go_output_parameters t) &&
  forallb plain_outputs (go_outputs t).
Definition plain_addressing_table (t : hes_gw_addressing_table_t) : bool :=
  plain_attrs (gt_attrs t) && forallb plain_data (gt_data t).
Definition plain_object_type (o : hes_gw_object_type_t) : bool :=
  plain_attrs (gb_attrs o) && forallb plain_data (gb_data o) && forallb plain_operation_table (gb_operation_tables o) &&
  forallb plain_addressing_table (gb_addressing_tables o).
Definition plain_lexicon_type (l : hes_gw_lexicon_type_t) : bool :=
  plain_attrs (gl_attrs l) && forallb plain_object_type (gl_object_types l).
Definition plain_overall_process (p : hes_gw_overall_process_t) : bool :=
  plain_attrs (gv_attrs p) && forallb plain_lexicon_type (gv_lexicon_types p).
Definition plain_gateway (gw : hes_gateway_t) : bool :=
  forallb plain_text (gw_file gw) && match gw_overall_process gw with Some p => plain_overall_process p | None => true end.

(** ** What is printed is well nested *)

Lemma read_tags_app s t st : read_tags (s ++ t) st = let* st := read_tags s st in read_tags t st.
Proof. revert st. induction s as [|c s IH]; intros st; [done|]. cbn. destruct (read_char c st); [apply IH|done]. Qed.

Lemma well_nested_app s t : well_nested s -> well_nested t -> well_nested (s ++ t).
Proof. intros Hs Ht open. rewrite read_tags_app, Hs. apply Ht. Qed.

Lemma plain_read s st : plain_text s = true ->
  read_tags s st = Some (fst st, match snd st with Some text => Some (text ++ s)%string | None => None end).
Proof.
  revert st. induction s as [|c s IH]; intros [open [text|]]; cbn; [by rewrite str_app_nil_r|done|..];
    unfold read_char; cbn [fst snd]; destruct (Ascii.eqb c "<"), (Ascii.eqb c ">"); try done; cbn [negb orb andb]; intros H.
  - rewrite IH by done. cbn. by rewrite str_app_assoc.
  - by rewrite IH.
Qed.

Lemma plain_well_nested s : plain_text s = true -> well_nested s.
Proof. intros Hs open. by rewrite plain_read. Qed.

Lemma indent_well_nested n : well_nested (_print_indent n).
Proof. induction n as [|n IH]; [done|]. apply well_nested_app; [by apply plain_well_nested|exact IH]. Qed.

Lemma each_well_nested {A} (print : A -> string) (plain : A -> bool) l :
  (forall x, plain x = true -> well_nested (print x)) -> forallb plain l = true -> well_nested (print_each print l).
Proof.
  intros Hp. induction l as [|x l IH]; [done|]. cbn. intros [Hx Hl]%andb_prop.
  apply well_nested_app; [by apply Hp|by apply IH].
Qed.

(** A name that can stand in a tag. *)
Definition tag_name (name : string) : bool :=
  match name with
  | String c _ => negb (Ascii.eqb c "/") && plain_text name && str_forallb (fun c => negb (Ascii.eqb c " ")) name
  | EmptyString => false
  end.

Lemma tag_read text open open' : plain_text text = true -> read_tag text open = Some open' ->
  read_tags ("<" ++ text ++ ">") (open, None) = Some (open', None).
Proof.
  intros Ht Hr. cbn [read_tags String.append]. unfold read_char. cbn [snd fst].
  rewrite Ascii.eqb_refl, read_tags_app, plain_read by done. cbn. unfold read_char. cbn. by rewrite Hr.
Qed.

Lemma before_space name rest : str_forallb (fun c => negb (Ascii.eqb c " ")) name = true ->
  before " " (name ++ String " " rest) = name.
Proof.
  induction name as [|c name IH]; [done|]. cbn. destruct (Ascii.eqb c " "); [done|]. cbn. intros H. by rewrite IH.
Qed.

Lemma before_whole name : str_forallb (fun c => negb (Ascii.eqb c " ")) name = true -> before " " name = name.
Proof. induction name as [|c name IH]; [done|]. cbn. destruct (Ascii.eqb c " "); [done|]. cbn. intros H. by rewrite IH. Qed.

Lemma plain_text_app s t : plain_text s = true -> plain_text t = true -> plain_text (s ++ t) = true.
Proof. unfold plain_text. intros Hs Ht. by rewrite str_forallb_append, Hs, Ht. Qed.

Lemma opening_read name a open : tag_name name = true -> plain_attrs a = true ->
  read_tags (opening name a) (open, None) = Some (name :: open, None).
Proof.
  intros Hn [Ht Hd]%andb_prop. destruct name as [|c name]; [done|]. set (nm := String c name) in *.
  cbn [tag_name nm] in Hn. apply andb_prop in Hn as [[Hc Hp]%andb_prop Hs]. fold nm in Hp, Hs.
  replace (opening nm a) with ("<" ++ (nm ++ " transCode=" ++ dq ++ ga_trans_code a ++ dq ++ " descriptiveName=" ++ dq ++
    ga_descriptive_name a ++ dq) ++ ">")%string by (unfold opening; by rewrite !str_app_assoc).
  apply tag_read.
  - repeat (apply plain_text_app; [done|]). done.
  - unfold read_tag. cbn [nm String.append]. destruct (Ascii.eqb c "/"); [done|]. do 2 f_equal.
    change (String c (name ++ ?x)) with (nm ++ x)%string. by apply before_space.
Qed.

Lemma closing_read name open : plain_text name = true ->
  read_tags (closing name) (name :: open, None) = Some (open, None).
Proof.
  intros Hn. change (closing name) with ("<" ++ (String "/" name ++ ">"))%string. apply tag_read; [done|].
  cbn. by rewrite String.eqb_refl.
Qed.

Lemma tag_name_plain name : tag_name name = true -> plain_text name = true.
Proof. destruct name; [done|]. cbn [tag_name]. by intros [[_ H]%andb_prop _]%andb_prop. Qed.

(** An element around a well-nested text, on one line or on several. *)
Lemma element_well_nested name a body : tag_name name = true -> plain_attrs a = true -> well_nested body ->
  well_nested (opening name a ++ body ++ closing name).
Proof.
  intros Hn Ha Hb open. rewrite read_tags_app, opening_read by done. cbn. rewrite read_tags_app, Hb. cbn.
  apply closing_read. by apply tag_name_plain.
Qed.

Lemma print_element_well_nested n name a body : tag_name name = true -> plain_attrs a = true -> well_nested body ->
  well_nested (print_element n name a body).
Proof.
  intros Hn Ha Hb. unfold print_element. apply well_nested_app; [apply indent_well_nested|].
  replace (_ ++ _)%string with ((opening name a ++ (newline ++ body ++ _print_indent n) ++ closing name) ++ newline)%string
    by (by rewrite !str_app_assoc).
  apply well_nested_app; [|done]. apply element_well_nested; [done|done|].
  apply well_nested_app; [done|]. apply well_nested_app; [done|apply indent_well_nested].
Qed.

Lemma data_list_well_nested data n : forallb plain_data data = true -> well_nested (_print_data_list data n).
Proof.
  apply each_well_nested. intros d [Ha Hv]%andb_prop. unfold _print_data.
  apply well_nested_app; [apply indent_well_nested|].
  replace (_ ++ _)%string with ((opening "data" (gd_attrs d) ++ gd_value d ++ closing "data") ++ newline)%string
    by (by rewrite !str_app_assoc).
  apply well_nested_app; [|done]. apply element_well_nested; [done|done|by apply plain_well_nested].
Qed.

Create HintDb nested.
#[export] Hint Resolve print_element_well_nested data_list_well_nested well_nested_app each_well_nested : nested.

(** Splits the conjunctions of a [plain_] test. *)
Ltac plain_split := intros; repeat match goal with H : (_ && _)%bool = true |- _ => apply andb_prop in H as [? ?] end.
Ltac nested plain := unfold plain; plain_split; apply print_element_well_nested; [done|done|]; repeat apply well_nested_app; eauto with nested.

Lemma inputs_well_nested i : plain_inputs i = true -> well_nested (print_inputs i).
Proof. nested plain_inputs. Qed.
Lemma outputs_well_nested o : plain_outputs o = true -> well_nested (print_outputs o).
Proof. nested plain_outputs. Qed.
Lemma param_group_well_nested name g : tag_name name = true -> plain_param_group g = true -> well_nested (print_param_group name g).
Proof. nested plain_param_group. Qed.
Lemma addressing_table_well_nested t : plain_addressing_table t = true -> well_nested (print_addressing_table t).
Proof. nested plain_addressing_table. Qed.
#[export] Hint Resolve inputs_well_nested outputs_well_nested param_group_well_nested addressing_table_well_nested : nested.

Lemma operation_table_well_nested t : plain_operation_table t = true -> well_nested (print_operation_table t).
Proof. nested plain_operation_table. Qed.
#[export] Hint Resolve operation_table_well_nested : nested.

Lemma object_type_well_nested o : plain_object_type o = true -> well_nested (print_object_type o).
Proof. nested plain_object_type. Qed.
#[export] Hint Resolve object_type_well_nested : nested.

Lemma lexicon_type_well_nested l : plain_lexicon_type l = true -> well_nested (print_lexicon_type l).
Proof. nested plain_lexicon_type. Qed.
#[export] Hint Resolve lexicon_type_well_nested : nested.

Lemma overall_process_well_nested p : plain_overall_process p = true -> well_nested (print_overall_process p).
Proof. nested plain_overall_process. Qed.

Lemma field_well_nested f : (tag_name (fst f) && plain_text (snd f))%bool = true -> well_nested (print_field f).
Proof.
  intros [Hn Hv]%andb_prop open. unfold print_field. rewrite read_tags_app, indent_well_nested. cbn [fst snd].
  replace (_ ++ _)%string with (("<" ++ fst f ++ ">") ++ snd f ++ closing (fst f) ++ newline)%string
    by (by rewrite !str_app_assoc).
  rewrite read_tags_app, (tag_read _ _ (fst f :: open)).
  - rewrite read_tags_app, plain_read by done. cbn [fst snd]. by rewrite read_tags_app, closing_read by (by apply tag_name_plain).
  - by apply tag_name_plain.
  - destruct (fst f) as [|c name]; [done|]. cbn [tag_name] in Hn. apply andb_prop in Hn as [[Hc _]%andb_prop Hs].
    cbn [read_tag]. destruct (Ascii.eqb c "/"); [done|]. by rewrite before_whole.
Qed.

Lemma fields_plain names texts : forallb tag_name names = true -> forallb plain_text texts = true ->
  forallb (fun f => tag_name (fst f) && plain_text (snd f))%bool (combine names texts) = true.
Proof.
  revert texts. induction names as [|n names IH]; intros [|t texts]; [done..|].
  cbn [combine forallb fst snd]. intros [-> Hn]%andb_prop [-> Ht]%andb_prop. by apply IH.
Qed.

(** When no text of the structs has an angle bracket, the printed text is the elements of the
    tree: every tag it opens is closed by its own name, innermost first. *)
Theorem print_is_well_nested gw : plain_gateway gw = true -> well_nested (hes_gateway_print (Some gw)).
Proof.
  intros [Hf Hp]%andb_prop open. cbn [hes_gateway_print].
  set (body := (print_each print_field (combine file_fields (gw_file gw)) ++
    match gw_overall_process gw with Some op => print_overall_process op | None => "" end)%string).
  assert (Hb : well_nested body).
  { apply well_nested_app.
    - eapply each_well_nested; [apply field_well_nested|]. by apply fields_plain.
    - destruct (gw_overall_process gw) as [p|]; [by apply overall_process_well_nested|done]. }
  replace (_ ++ _)%string with ("<file>" ++ newline ++ body ++ closing "file" ++ newline)%string
    by (unfold body; by rewrite !str_app_assoc).
  change (read_tags ("<file>" ++ ?x) (open, None)) with (read_tags x ("file" :: open, None)).
  change (read_tags (newline ++ ?x) ("file" :: open, None)) with (read_tags x ("file" :: open, None)).
  rewrite read_tags_app, Hb. cbv beta iota. by rewrite read_tags_app, closing_read.
Qed.

(** ** The statement at a concrete input *)

Definition printed_example : hes_gateway_t :=
  mk_gateway ["HES"; "lexicon"]
    (Some (mk_gw_overall_process (mk_gw_attrs "1" "0" "OP" "process")
      [mk_gw_lexicon_type (mk_gw_attrs "1" "0" "LX" "lexicon")
        [mk_gw_object_type (mk_gw_attrs "1" "0" "OB" "object")
          [mk_gw_data (mk_gw_attrs "1" "0" "DT" "refId") "" "" "" "" "" "" "" "7"] [] []]])).

Lemma print_is_well_nested_witness :
  plain_gateway printed_example = true /\ read_tags (hes_gateway_print (Some printed_example)) ([], None) = Some ([], None).
Proof. split; [vm_compute; reflexivity|]. apply (print_is_well_nested printed_example). vm_compute. reflexivity. Defined.

(** A value is printed as it is: one with a tag in it is read back as one. *)
Lemma values_are_not_escaped :
  read_tags (_print_data (mk_gw_data (mk_gw_attrs "1" "0" "DT" "refId") "" "" "" "" "" "" "" "<b>") 0) ([], None) = None.
Proof. vm_compute. reflexivity. Qed.
