(* ===== verification/GatewayMem.v ===== *)
(** * The document's structs in memory

    Models what the loaders of src/src/common/hes_gateway.c allocate and what
    hes_gateway_free releases: the structs, their texts and their arrays, with the handles the
    loaders go through. What the texts say is in GatewayDoc.v; how many nodes a path finds is
    the argument [found]. [alloc n] says whether the n-th allocation succeeds, [arrays n] says it
    when that allocation is the array of a list. A store through the NULL of an array that could
    not be allocated is undefined ([None]), and so is the release of what is not allocated. *)

From stdpp Require Import gmap sets list.
From S2P Require Import Prelude CLib HesQuery Heap QueryMem GatewayDoc.

(** ** The structs as blocks

    [st_lists]: the lists of the struct, in the order they are released. *)
Record gw_struct (L : Type) := mk_struct {
  st_self : block;
  st_lists : L;
  st_texts : list block;
}.
Arguments mk_struct {L}.
Arguments st_self {L}.
Arguments st_lists {L}.
Arguments st_texts {L}.

Record gw_list (A : Type) := mk_list {
  ls_items : list A;
  ls_array : block;
}.
Arguments mk_list {A}.
Arguments ls_items {A}.
Arguments ls_array {A}.

#[export] Instance owned_unit : Owned unit := fun _ => [].
#[export] Instance owned_pair {A B} {oa : Owned A} {ob : Owned B} : Owned (A * B) := fun p => blocks (fst p) ++ blocks (snd p).
#[export] Instance owned_gw_list {A} {o : Owned A} : Owned (gw_list A) := fun l => blocks (ls_items l) ++ blocks (ls_array l).
#[export] Instance owned_struct {L} {o : Owned L} : Owned (gw_struct L) :=
  fun s => blocks (st_lists s) ++ blocks (st_texts s) ++ blocks (st_self s).

Definition gw_data : Type := gw_struct unit.
Definition gw_group : Type := gw_struct (gw_list gw_data).
Definition gw_operation_table : Type :=
  gw_struct (gw_list gw_data * gw_list gw_group * gw_list gw_group * gw_list gw_group * gw_list gw_group).
Definition gw_object_type : Type := gw_struct (gw_list gw_data * gw_list gw_operation_table * gw_list gw_group).
Definition gw_lexicon_type : Type := gw_struct (gw_list gw_object_type).
Definition gw_overall_process : Type := gw_struct (gw_list gw_lexicon_type).

(** The process, the texts of the header, and the root struct. *)
Record gw_file := mk_file {
  gf_texts : list block;
  gf_process : option gw_overall_process;
  gf_self : block;
}.
#[export] Instance owned_file : Owned gw_file := fun f => blocks (gf_texts f) ++ blocks (gf_process f) ++ blocks (gf_self f).

(** ** The deep free *)

(** The texts and the struct itself: the end of every release. *)
Definition free_texts {L} (s : gw_struct L) (h : heap) : option heap :=
  let* h := for_each free (st_texts s) h in free (st_self s) h.

Definition free_list {A} (free_item : A -> heap -> option heap) (l : gw_list A) (h : heap) : option heap :=
  let* h := for_each free_item (ls_items l) h in free (ls_array l) h.

Definition hes_gw_data_free (d : gw_data) (h : heap) : option heap := free_texts d h.

Definition hes_gw_inputs_free (s : gw_group) (h : heap) : option heap :=
  let* h := free_list hes_gw_data_free (st_lists s) h in free_texts s h.

Definition hes_gw_outputs_free (s : gw_group) (h : heap) : option heap :=
  let* h := free_list hes_gw_data_free (st_lists s) h in free_texts s h.

Definition hes_gw_param_group_free (s : gw_group) (h : heap) : option heap :=
  let* h := free_list hes_gw_data_free (st_lists s) h in free_texts s h.

Definition hes_gw_addressing_table_free (s : gw_group) (h : heap) : option heap :=
  let* h := free_list hes_gw_data_free (st_lists s) h in free_texts s h.

Definition hes_gw_operation_table_free (s : gw_operation_table) (h : heap) : option heap :=
  let '(data, inputs, input_parameters, output_parameters, outputs) := st_lists s in
  let* h := free_list hes_gw_data_free data h in
  let* h := free_list hes_gw_inputs_free inputs h in
  let* h := free_list hes_gw_param_group_free input_parameters h in
  let* h := free_list hes_gw_param_group_free output_parameters h in
  let* h := free_list hes_gw_outputs_free outputs h in
  free_texts s h.

Definition hes_gw_object_type_free (s : gw_object_type) (h : heap) : option heap :=
  let '(data, operation_tables, addressing_tables) := st_lists s in
  let* h := free_list hes_gw_data_free data h in
  let* h := free_list hes_gw_operation_table_free operation_tables h in
  let* h := free_list hes_gw_addressing_table_free addressing_tables h in
  free_texts s h.

Definition hes_gw_lexicon_type_free (s : gw_lexicon_type) (h : heap) : option heap :=
  let* h := free_list hes_gw_object_type_free (st_lists s) h in free_texts s h.

Definition hes_gw_overall_process_free (s : gw_overall_process) (h : heap) : option heap :=
  let* h := free_list hes_gw_lexicon_type_free (st_lists s) h in free_texts s h.

Definition hes_gateway_free (gw : option gw_file) (h : heap) : option heap :=
  match gw with
  | None => Some h
  | Some f =>
      let* h := for_each free (gf_texts f) h in
      let* h := match gf_process f with Some op => hes_gw_overall_process_free op h | None => Some h end in
      free (gf_self f) h
  end.

(** ** The loaders *)

Section load.
Variable alloc : nat -> bool.
Variable arrays : nat -> bool.
Variable found : string -> nat.
Abbreviation malloc := (Heap.malloc alloc).

(** [_str(hes_query_string(...))], [n] times. *)
Fixpoint load_texts (n : nat) (h : heap) : option (list block * heap) :=
  match n with
  | O => Some ([], h)
  | S n =>
      let* h := hes_query_string alloc h in
      let '(text, h) := malloc h in
      let* (texts, h) := load_texts n h in Some (text :: texts, h)
  end.

Definition loader (A : Type) : Type := string -> heap -> option (option A * heap).

(** The elements of a list, in turn, up to the first that cannot be loaded. *)
Fixpoint load_items {A} (load : loader A) (base elem_name : string) (i n : nat) (h : heap) : option (list A * heap) :=
  match n with
  | O => Some ([], h)
  | S n =>
      let* (item, h) := load (item_path base elem_name i) h in
      match item with
      | None => Some ([], h)
      | Some item => let* (items, h) := load_items load base elem_name (S i) n h in Some (item :: items, h)
      end
  end.

(** The stores into the array come last here; one through NULL is undefined wherever it
    comes, and there is one even when no element is stored. *)
Definition HES_GW_LOAD_LIST {A} (base elem_name : string) (load : loader A) (h : heap) : option (gw_list A * heap) :=
  let* (es, h) := hes_query_elem_list alloc (found (path600 (base ++ "." ++ elem_name))) h in
  let n := match es with Some l => length (hl_items l) | None => O end in
  let* (l, h) :=
    (if (0 <? n)%nat then
       let '(arr, h) := Heap.malloc arrays h in
       let* (items, h) := load_items load base elem_name 0 n h in
       match arr with None => None | Some _ => Some (mk_list items arr, h) end
     else Some (mk_list [] None, h)) in
  let* h := hes_query_elem_list_free es h in Some (l, h).

(** [calloc] of the struct, its texts and its lists; [texts] says how many texts. *)
Definition load_struct {L} (texts : nat) (lists : heap -> option (L * heap)) (h : heap) : option (option (gw_struct L) * heap) :=
  let '(self, h) := malloc h in
  match self with
  | None => Some (None, h)
  | Some _ =>
      let* (texts, h) := load_texts texts h in
      let* (ls, h) := lists h in
      Some (Some (mk_struct self ls texts), h)
  end.

Definition _load_data : loader gw_data := fun base => load_struct 12 (fun h => Some (tt, h)).

Definition _load_inputs : loader gw_group := fun base => load_struct 5 (HES_GW_LOAD_LIST base "data" _load_data).
Definition _load_outputs : loader gw_group := fun base => load_struct 5 (HES_GW_LOAD_LIST base "data" _load_data).
Definition _load_param_group : loader gw_group := fun base => load_struct 6 (HES_GW_LOAD_LIST base "data" _load_data).
Definition _load_addressing_table : loader gw_group := fun base => load_struct 5 (HES_GW_LOAD_LIST base "data" _load_data).

Definition _load_operation_table : loader gw_operation_table := fun base =>
  load_struct 5 (fun h =>
    let* (data, h) := HES_GW_LOAD_LIST base "data" _load_data h in
    let* (inputs, h) := HES_GW_LOAD_LIST base "inputs" _load_inputs h in
    let* (input_parameters, h) := HES_GW_LOAD_LIST base "inputParameters" _load_param_group h in
    let* (output_parameters, h) := HES_GW_LOAD_LIST base "outputParameters" _load_param_group h in
    let* (outputs, h) := HES_GW_LOAD_LIST base "outputs" _load_outputs h in
    Some ((data, inputs, input_parameters, output_parameters, outputs), h)).

Definition _load_object_type : loader gw_object_type := fun base =>
  load_struct 4 (fun h =>
    let* (data, h) := HES_GW_LOAD_LIST base "data" _load_data h in
    let* (operation_tables, h) := HES_GW_LOAD_LIST base "operationTable" _load_operation_table h in
    let* (addressing_tables, h) := HES_GW_LOAD_LIST base "addressingTable" _load_addressing_table h in
    Some ((data, operation_tables, addressing_tables), h)).

Definition _load_lexicon_type : loader gw_lexicon_type := fun base =>
  load_struct 4 (HES_GW_LOAD_LIST base "objectType" _load_object_type).

Definition _load_overall_process : loader gw_overall_process := fun base =>
  load_struct 4 (HES_GW_LOAD_LIST base "lexiconType" _load_lexicon_type).

Definition hes_gateway_load (parses rooted : bool) (h : heap) : option (option gw_file * heap) :=
  let* (ctx, h) := hes_query_open alloc parses rooted h in
  match ctx with
  | None => Some (None, h)
  | Some _ =>
      let '(self, h) := malloc h in
      match self with
      | None => let* h := hes_query_close ctx h in Some (None, h)
      | Some _ =>
          let* (texts, h) := load_texts (length file_fields) h in
          let* (n, h) := hes_query_count alloc (found "file.overallProcess") h in
          let* (op, h) := (if (0 <? n)%nat
                           then _load_overall_process "file.overallProcess" h else Some (None, h)) in
          let* h := hes_query_close ctx h in
          Some (Some (mk_file texts op self), h)
      end
  end.
End load.

(** ** The deep free releases every block of a struct *)

Lemma releases_texts {L} {o : Owned L} (s : gw_struct L) h :
  free_texts s h = free_all (blocks (st_texts s) ++ blocks (st_self s)) h.
Proof.
  unfold free_texts. rewrite (releases_list _ releases_free), free_all_app.
  destruct (free_all _ h); [|done]. apply releases_free.
Qed.

Lemma releases_gw_list {A} {o : Owned A} (f : A -> heap -> option heap) : releases f -> releases (free_list f).
Proof.
  intros Hf l h. unfold free_list. rewrite (releases_list _ Hf).
  change (blocks l) with (blocks (ls_items l) ++ blocks (ls_array l)). rewrite free_all_app.
  destruct (free_all _ h); [|done]. apply releases_free.
Qed.

Lemma releases_struct {L} {o : Owned L} (f : L -> heap -> option heap) :
  releases f -> releases (fun (s : gw_struct L) h => let* h := f (st_lists s) h in free_texts s h).
Proof.
  intros Hf s h. rewrite Hf. change (blocks s) with (blocks (st_lists s) ++ blocks (st_texts s) ++ blocks (st_self s)).
  rewrite free_all_app. destruct (free_all (blocks (st_lists s)) h); [|done]. apply releases_texts.
Qed.

Lemma data_releases : releases hes_gw_data_free.
Proof. intros d h. apply releases_texts. Qed.

Lemma group_releases : releases hes_gw_inputs_free.
Proof. apply releases_struct, releases_gw_list, data_releases. Qed.

(** The next of a sequence of lists. *)
Ltac list_next H :=
  rewrite (releases_gw_list _ H), free_all_app;
  match goal with |- context [free_all ?ps ?h] => destruct (free_all ps h); [|done] end.

Lemma operation_table_releases : releases hes_gw_operation_table_free.
Proof.
  intros s h. destruct s as [self [[[[d i] ip] op] o] texts]. unfold hes_gw_operation_table_free. cbn [st_lists].
  change (blocks (mk_struct self (d, i, ip, op, o) texts))
    with (((((blocks d ++ blocks i) ++ blocks ip) ++ blocks op) ++ blocks o) ++ blocks texts ++ blocks self).
  rewrite <- !app_assoc. list_next data_releases. list_next group_releases. list_next group_releases.
  list_next group_releases. list_next group_releases. apply releases_texts.
Qed.

Lemma object_type_releases : releases hes_gw_object_type_free.
Proof.
  intros s h. destruct s as [self [[d ot] at_] texts]. unfold hes_gw_object_type_free. cbn [st_lists].
  change (blocks (mk_struct self (d, ot, at_) texts))
    with (((blocks d ++ blocks ot) ++ blocks at_) ++ blocks texts ++ blocks self).
  rewrite <- !app_assoc. list_next data_releases. list_next operation_table_releases. list_next group_releases.
  apply releases_texts.
Qed.

Lemma overall_process_releases : releases hes_gw_overall_process_free.
Proof. apply releases_struct, releases_gw_list, releases_struct, releases_gw_list, object_type_releases. Qed.

Lemma gateway_releases : releases hes_gateway_free.
Proof.
  intros [f|] h; [|done]. cbn [hes_gateway_free]. rewrite (releases_list _ releases_free).
  change (blocks (Some f)) with (blocks (gf_texts f) ++ blocks (gf_process f) ++ blocks (gf_self f)).
  rewrite !free_all_app. destruct (free_all (blocks (gf_texts f)) h) as [h1|]; [|done].
  rewrite free_all_app. destruct (gf_process f) as [op|]; cbn [blocks owned_option].
  - rewrite overall_process_releases. destruct (free_all (blocks op) h1); [|done]. apply releases_free.
  - apply releases_free.
Qed.

(** ** What a load leaves behind *)

Section facts.
Variable alloc : nat -> bool.
Variable arrays : nat -> bool.
Variable found : string -> nat.

(** Defined unless the allocation of an array fails; what is new in the heap is what the result owns. *)
Definition loads {A} {o : Owned A} (f : heap -> option (A * heap)) : Prop :=
  forall h, fresh h -> match f h with Some (a, h') => grew h (blocks a) h' | None => exists n, arrays n = false end.

Lemma malloc_null h h' : Heap.malloc arrays h = (None, h') -> exists n, arrays n = false.
Proof. unfold Heap.malloc. destruct (arrays (hp_next h)) eqn:E; [done|]. by exists (hp_next h). Qed.

Lemma loads_pair {A B} {oa : Owned A} {ob : Owned B} (f : heap -> option (A * heap)) (g : heap -> option (B * heap)) :
  loads f -> loads g -> loads (fun h => let* (a, h) := f h in let* (b, h) := g h in Some ((a, b), h)).
Proof.
  intros Hf Hg h Hh. specialize (Hf h Hh). destruct (f h) as [[a h1]|]; [|done].
  specialize (Hg h1 (grew_fresh _ _ _ Hh Hf)). destruct (g h1) as [[b h2]|]; [|done].
  change (blocks (a, b)) with (blocks a ++ blocks b). by eapply grew_trans.
Qed.

(** A load is determined by its values. *)
Lemma loads_ext {A} {o : Owned A} (f g : heap -> option (A * heap)) : (forall h, f h = g h) -> loads f -> loads g.
Proof. intros E Hf h Hh. rewrite <- E. by apply Hf. Qed.

Lemma texts_grew n h : fresh h -> exists ts h', load_texts alloc n h = Some (ts, h') /\ grew h (blocks ts) h'.
Proof.
  revert h. induction n as [|n IH]; intros h Hh; [exists [], h; split; [done|apply grew_refl]|]. cbn [load_texts].
  destruct (query_string_balanced alloc h Hh) as (h1 & E1 & G1). rewrite E1.
  destruct (Heap.malloc alloc h1) as [t h2] eqn:E2. pose proof (malloc_grew' _ _ _ _ E2) as G2.
  pose proof (grew_trans _ _ _ _ _ G1 G2) as G12. destruct (IH h2) as (ts & h3 & E3 & G3); [by eapply grew_fresh|].
  rewrite E3. exists (t :: ts), h3. split; [done|]. change (blocks (t :: ts)) with (([] ++ blocks t) ++ blocks ts).
  by eapply grew_trans.
Qed.

Definition good_loader {A} {o : Owned A} (load : loader A) : Prop := forall base, loads (load base).

Lemma items_loads {A} {o : Owned A} (load : loader A) base name i n :
  good_loader load -> loads (load_items load base name i n).
Proof.
  intros Hl. revert i. induction n as [|n IH]; intros i h Hh; cbn [load_items]; [apply grew_refl|].
  pose proof (Hl (item_path base name i) h Hh) as G. destruct (load _ h) as [[[a|] h1]|]; [|done|done].
  specialize (IH (S i) h1 (grew_fresh _ _ _ Hh G)). destruct (load_items load base name (S i) n h1) as [[l h2]|]; [|done].
  change (blocks (a :: l)) with (blocks a ++ blocks l). by eapply grew_trans.
Qed.

Lemma list_loads {A} {o : Owned A} (load : loader A) base name :
  good_loader load -> loads (HES_GW_LOAD_LIST alloc arrays found base name load).
Proof.
  intros Hl h Hh. unfold HES_GW_LOAD_LIST.
  destruct (elem_list_balanced alloc (found (path600 (base ++ "." ++ name))) h Hh) as (es & h1 & E1 & G1 & _). rewrite E1.
  pose proof (grew_fresh _ _ _ Hh G1) as Hh1. set (n := match es with Some l => _ | None => _ end).
  destruct (0 <? n)%nat eqn:Hn.
  - destruct (Heap.malloc arrays h1) as [arr h2] eqn:E2. pose proof (malloc_grew' _ _ _ _ E2) as G2.
    pose proof (items_loads load base name 0 n Hl h2 (grew_fresh _ _ _ Hh1 G2)) as G3.
    destruct (load_items load base name 0 n h2) as [[items h3]|]; [|done].
    destruct arr as [x|]; [|by eapply malloc_null].
    destruct (grew_free h (blocks (Some x : block) ++ blocks items) (blocks es) h3 Hh) as (h4 & E4 & G4).
    { eapply grew_trans; [exact G1|]. by eapply grew_trans. }
    rewrite list_free_releases, E4. eapply grew_perm; [|exact G4]. apply Permutation_app_comm.
  - destruct (grew_free h [] (blocks es) h1 Hh) as (h4 & E4 & G4); [by rewrite app_nil_r|].
    by rewrite list_free_releases, E4.
Qed.

Lemma struct_loads {L} {o : Owned L} n (lists : heap -> option (L * heap)) :
  loads lists -> loads (load_struct alloc n lists).
Proof.
  intros Hl h Hh. unfold load_struct. destruct (Heap.malloc alloc h) as [self h1] eqn:E1.
  pose proof (malloc_grew' _ _ _ _ E1) as G1. destruct self as [x|]; [|done].
  destruct (texts_grew n h1) as (ts & h2 & E2 & G2); [by eapply grew_fresh|]. rewrite E2.
  pose proof (grew_trans _ _ _ _ _ G1 G2) as G12. specialize (Hl h2 (grew_fresh _ _ _ Hh G12)).
  destruct (lists h2) as [[ls h3]|]; [|done].
  eapply grew_perm; [|eapply grew_trans; [exact G12|exact Hl]].
  change (blocks (Some (mk_struct (Some x) ls ts))) with (blocks ls ++ blocks ts ++ blocks (Some x : block)).
  rewrite Permutation_app_comm. apply Permutation_app_head, Permutation_app_comm.
Qed.

Lemma data_loads : good_loader (_load_data alloc).
Proof. intros base. apply struct_loads. intros h Hh. apply grew_refl. Qed.

Lemma group_loads n : good_loader (fun base => load_struct alloc n (HES_GW_LOAD_LIST alloc arrays found base "data" (_load_data alloc))).
Proof. intros base. apply struct_loads, list_loads, data_loads. Qed.

Lemma operation_table_loads : good_loader (_load_operation_table alloc arrays found).
Proof.
  intros base. apply struct_loads.
  eapply loads_ext; [|exact (loads_pair _ _ (loads_pair _ _ (loads_pair _ _ (loads_pair _ _
    (list_loads _ base "data" data_loads) (list_loads _ base "inputs" (group_loads 5)))
    (list_loads _ base "inputParameters" (group_loads 6))) (list_loads _ base "outputParameters" (group_loads 6)))
    (list_loads _ base "outputs" (group_loads 5)))].
  intros h. cbn. repeat (destruct (HES_GW_LOAD_LIST _ _ _ _ _ _ _) as [[? ?]|]; [|done]). done.
Qed.

Lemma object_type_loads : good_loader (_load_object_type alloc arrays found).
Proof.
  intros base. apply struct_loads.
  eapply loads_ext; [|exact (loads_pair _ _ (loads_pair _ _ (list_loads _ base "data" data_loads)
    (list_loads _ base "operationTable" operation_table_loads)) (list_loads _ base "addressingTable" (group_loads 5)))].
  intros h. cbn. repeat (destruct (HES_GW_LOAD_LIST _ _ _ _ _ _ _) as [[? ?]|]; [|done]). done.
Qed.

Lemma overall_process_loads : good_loader (_load_overall_process alloc arrays found).
Proof.
  intros base. apply struct_loads, list_loads. intros b. apply struct_loads, list_loads, object_type_loads.
Qed.

Lemma gateway_loads parses rooted : loads (hes_gateway_load alloc arrays found parses rooted).
Proof.
  intros h Hh. unfold hes_gateway_load. destruct (open_balanced alloc parses rooted h Hh) as (ctx & h1 & E1 & G1). rewrite E1.
  destruct ctx as [c|]; [|done]. destruct (Heap.malloc alloc h1) as [self h2] eqn:E2.
  pose proof (malloc_grew' _ _ _ _ E2) as G2. pose proof (grew_trans _ _ _ _ _ G1 G2) as G12.
  assert (Hclose : forall ps h', grew h (blocks (Some c) ++ ps) h' ->
    exists h'', hes_query_close (Some c) h' = Some h'' /\ grew h ps h'').
  { intros ps h' G. rewrite close_releases. by apply grew_free. }
  destruct self as [x|]; [|destruct (Hclose [] h2 G12) as (h3 & -> & G3); done].
  destruct (texts_grew (length file_fields) h2) as (ts & h3 & E3 & G3); [by eapply grew_fresh|]. rewrite E3.
  pose proof (grew_trans _ _ _ _ _ G12 G3) as G13.
  destruct (query_count_balanced alloc (found "file.overallProcess") h3) as (n & h4 & E4 & G4 & _); [by eapply grew_fresh|].
  rewrite E4. pose proof (grew_trans _ _ _ _ _ G13 G4) as G14. rewrite app_nil_r in G14.
  assert (Hop : loads (fun h => if (0 <? n)%nat then _load_overall_process alloc arrays found "file.overallProcess" h else Some (None, h))).
  { destruct (0 <? n)%nat; [apply overall_process_loads|]. intros h' _. apply grew_refl. }
  specialize (Hop h4 (grew_fresh _ _ _ Hh G14)). cbv beta in Hop.
  destruct (if (0 <? n)%nat then _ else _) as [[op h5]|]; [|done].
  pose proof (grew_trans _ _ _ _ _ G14 Hop) as G15.
  destruct (Hclose (blocks (Some x : block) ++ blocks ts ++ blocks op) h5) as (h6 & E6 & G6).
  { by rewrite !app_assoc. }
  rewrite E6. eapply grew_perm; [|exact G6].
  change (blocks (Some (mk_file ts op (Some x)))) with (blocks ts ++ blocks op ++ blocks (Some x : block)).
  rewrite Permutation_app_comm, <- app_assoc. done.
Qed.

(** C17: whatever document is loaded, and whichever allocations of contexts, handles, temporaries,
    structs and texts fail, as long as no array of a list is refused hes_gateway_load is
    defined: no failure path stores through NULL or releases a block twice. The release of what
    it returned then is defined as well, each block released once, and leaves exactly the blocks
    there were before the load; and a load that returned NULL had left them already. The one
    allocation the code cannot do without is a list's array, which it stores through unlooked-at. *)
Theorem loaded_structs_are_released parses rooted h : fresh h ->
  match hes_gateway_load alloc arrays found parses rooted h with
  | Some (gw, h1) =>
      exists h2, hes_gateway_free gw h1 = Some h2 /\ hp_live h2 = hp_live h /\ (gw = None -> hp_live h1 = hp_live h)
  | None => exists n, arrays n = false
  end.
Proof.
  intros Hh. pose proof (gateway_loads parses rooted h Hh) as G.
  destruct (hes_gateway_load alloc arrays found parses rooted h) as [[gw h1]|]; [|done].
  destruct (grew_released h (blocks gw) h1 (blocks gw) Hh G) as (h2 & E2 & Hl); [done|].
  exists h2. split_and!; [by rewrite gateway_releases|done|]. intros ->. rewrite (grew_live _ _ _ G). cbn. set_solver.
Qed.
End facts.

(** ** The statement at a concrete input *)

(** A process of one lexicon with one object of two data. *)
Definition small_document (path : string) : nat :=
  if String.eqb path "file.overallProcess" then 1
  else if String.eqb path "file.overallProcess.lexiconType" then 1
  else if String.eqb path "file.overallProcess.lexiconType[0].objectType" then 1
  else if String.eqb path "file.overallProcess.lexiconType[0].objectType[0].data" then 2
  else O.

Definition load_failing (k : nat) : option (option gw_file * heap) :=
  hes_gateway_load (fun n => negb (n =? k)%nat) (fun n => negb (n =? k)%nat) small_document true true (mk_heap ∅ 0).

Definition data_loaded (gw : option gw_file) : list nat :=
  match gw with
  | Some f =>
      match gf_process f with
      | Some op =>
          o ← l ← ls_items (st_lists op); ls_items (st_lists l);
          [length (ls_items (fst (fst (st_lists o))))]
      | None => []
      end
  | None => []
  end.

(** The array of the lexicons cannot be allocated: the code stores through NULL. *)
Lemma null_array_is_stored_through : load_failing 84 = None.
Proof. vm_compute. reflexivity. Qed.

(** The struct of the second datum cannot be allocated: the list stops before it, and what
    was loaded is released whole. *)
Lemma loaded_structs_are_released_witness :
  exists gw h1 h2, load_failing 181 = Some (gw, h1) /\ data_loaded gw = [1%nat] /\
    hes_gateway_free gw h1 = Some h2 /\ hp_live h2 = ∅.
Proof.
  pose proof (loaded_structs_are_released (fun n => negb (n =? 181)%nat) (fun n => negb (n =? 181)%nat) small_document true true (mk_heap ∅ 0)) as H.
  assert (Hd : data_loaded ∘ fst <$> load_failing 181 = Some [1%nat]) by (vm_compute; reflexivity).
  change (hes_gateway_load (fun n => negb (n =? 181)%nat) (fun n => negb (n =? 181)%nat) small_document true true (mk_heap ∅ 0)) with (load_failing 181) in H.
  destruct (load_failing 181) as [[gw h1]|]; [|discriminate Hd]. destruct H as (h2 & E & Hl & _).
  { intros p Hp. by apply elem_of_empty in Hp. }
  exists gw, h1, h2. cbn in Hd. injection Hd as Hd. by split_and!.
Defined.
