(* ===== verification/Cli.v ===== *)
(** * The command line

    Models src/src/app.c (main), the commands of src/src/cli/ and the paths of src/src/utils.c.
    argtable3's parser is the class [ArgTable]: what a command's table makes of an argument
    vector. Its command table is a map that the group commands add their own commands to while
    they run; looking up a name that is not in it is an assertion that fails ([Crash]). What a
    launched module does is in the files of that module: here it is the arguments of its main
    function. *)

From stdpp Require Import gmap sorting.
From S2P Require Import Prelude CLib HesCommon HesQuery Bm Json Crypto Id Devreg Mreg Time TimeSync Core.

(** ** Parsed options *)

(** [pa_errors]: the return value of arg_parse; [pa_help]: the count of --help; the value of
    an option that was given, by its long name ("" is the free argument); how often a switch
    was. *)
Record parsed := mk_parsed {
  pa_errors : Z;
  pa_help : Z;
  pa_str : string -> option string;
  pa_int : string -> option Z;
  pa_lit : string -> Z;
}.

Inductive command := Help | Bm | Sm | Han | Info | Dm | BmShow | SmCore | HanBle | HanWifi.

#[export] Instance command_eq_dec : EqDecision command.
Proof. solve_decision. Defined.

(** [None] is the table of main's global options. *)
Class ArgTable := { arg_parse : option command -> list string -> parsed }.

(** ** The host *)

(** What libuv answers into a buffer of MAX_PATH_SIZE bytes; [None] is an error. *)
Record host := mk_host {
  uv_exepath : option string;
  uv_os_homedir : option string;
  uv_cwd : option string;
  uv_os_tmpdir : option string;
  uv_os_getenv : string -> option string;
  cwk_path_join : string -> string -> string;
}.

Definition MAX_PATH_SIZE : nat := 4096.

Record app_info_t := mk_app_info {
  ai_exe_path : string;
  ai_home : string;
  ai_cwd : string;
  ai_tmp_dir : string;
  ai_data_home : string;
  ai_state_home : string;
  ai_cache_home : string;
  ai_config_dir : string;
  ai_config_path : string;
  ai_profile_path : string;
  ai_default_rep_url : string;
  ai_default_pub_url : string;
}.

(** [snprintf] of a path into a buffer, and its check. *)
Definition fitting (buf_size : nat) (s : string) : option string :=
  if (buf_size <=? String.length s)%nat then None else Some s.

Definition get_cache_dir (h : host) (buf_size : nat) : option string :=
  match uv_os_getenv h "XDG_CACHE_HOME" with
  | Some xdg_cache => fitting buf_size (xdg_cache ++ "/ohmg")
  | None =>
      match uv_os_homedir h with
      | Some homedir => fitting buf_size (homedir ++ "/.cache/ohmg")
      | None => fitting buf_size "./ohmg"
      end
  end.

Definition get_config_dir (h : host) (buf_size : nat) : option string :=
  match uv_os_getenv h "XDG_CONFIG_HOME" with
  | Some xdg_config => fitting buf_size (xdg_config ++ "/ohmg")
  | None =>
      match uv_os_homedir h with
      | Some homedir => fitting buf_size (homedir ++ "/.config/ohmg")
      | None => fitting buf_size "./ohmg"
      end
  end.

Definition get_config_path (h : host) (buf_size : nat) : option string :=
  match get_config_dir h MAX_PATH_SIZE with
  | None => None
  | Some dir => fitting buf_size (cwk_path_join h dir "config.toml")
  end.

(** A join whose result nobody looks at: it is cut to the buffer. *)
Definition join_cut (h : host) (a b : string) : string := str_take (MAX_PATH_SIZE - 1) (cwk_path_join h a b).

Definition HES_MANIFEST_REP_URL : string := "ipc:///tmp/ohmg-device-manifest-rep.sock".
Definition HES_MANIFEST_PUB_URL : string := "ipc:///tmp/ohmg-device-manifest-pub.sock".
Definition HES_HUB_PUB_URL : string := "ipc:///tmp/ohmg-hub-pub.sock".
Definition HES_HUB_SUB_URL : string := "ipc:///tmp/ohmg-hub-sub.sock".

Definition get_app_info (h : host) : option app_info_t :=
  let* exe_path := uv_exepath h in
  let* home := uv_os_homedir h in
  let* cwd := uv_cwd h in
  let* tmp_dir := uv_os_tmpdir h in
  let data_home := join_cut h home ".ohmg" in
  let state_home := join_cut h data_home "state" in
  let* config_dir := get_config_dir h MAX_PATH_SIZE in
  let* config_path := get_config_path h MAX_PATH_SIZE in
  let* cache_home := get_cache_dir h MAX_PATH_SIZE in
  Some (mk_app_info exe_path home cwd tmp_dir data_home state_home cache_home config_dir config_path
          (join_cut h config_dir "profile.json") HES_MANIFEST_REP_URL HES_MANIFEST_PUB_URL).

(** ** The commands *)

Definition EXIT_FAILURE : Z := 1.

(** The arguments of core_main, those of the configuration's fields that [core_config_t] and
    [time_sync_config_t] have not among them. *)
Record core_launch := mk_core_launch {
  cl_pub_url : string;
  cl_sub_url : string;
  cl_lua_app : string;
  cl_core : core_config_t;
  cl_time : time_sync_config_t;
}.

Inductive action :=
| run_core_main (cfg : core_launch)
| run_han_ble_main (svc_rep svc_pub : string) (module_ref : Z) (hub_pub hub_sub : string) (mac_override : option string)
| run_han_wifi_main (svc_rep svc_pub : string) (module_ref : Z) (hub_pub hub_sub bulb_ip : string)
| run_manifest_service_main (profile rep_url pub_url : string)
| show_binding_map (filepath : string)
| show_info (info : app_info_t)
| list_commands (names : list string).

(** [Diverge]: the commands call one another beyond the fuel. *)
Inductive outcome :=
| Crash
| Diverge
| Exit (code : Z)
| Run (a : action).

(** An option with the default it is given before the parse; a table's own is "". *)
Definition sval (p : parsed) (name def : string) : string := default def (pa_str p name).

(** [(uint32_t)strtoul(s, NULL, 10)]. *)
Definition strtoul32 (s : string) : Z :=
  let '(neg, r) := read_sign (skip_space s) in
  match digits_from 0 0 r with
  | (_, O, _) => 0
  | (v, _, _) => if v <? 2 ^ 64 then uint32 (if neg then - v else v) else uint32 (2 ^ 64 - 1)
  end.

Definition core_config (p : parsed) : core_launch :=
  mk_core_launch (sval p "pub-url" HES_HUB_PUB_URL) (sval p "sub-url" HES_HUB_SUB_URL) (sval p "app" "")
    (mk_config (sval p "bm-xml" "")
       (match sval p "auth-policy" "" with EmptyString => None | s => Some s end)
       (0 <? pa_lit p "no-authz") (Some (sval p "identity" ""))
       (Some (sval p "svc-rep" HES_MANIFEST_REP_URL)))
    (mk_sync_config (Some (sval p "ntp-servers" "")) 0 (pa_lit p "no-ntp" =? 0) (Some (sval p "time-zone" ""))
       (Some (sval p "tz-urls" "")) (pa_lit p "no-tz" =? 0) 0 0).

Definition DEFAULT_BULB_IP : string := "192.168.1.142".

(** The registered names; those of a group's own commands are added when it runs. *)
Abbreviation table := (gmap string command).

Section commands.
Context {args : ArgTable}.
Variable info : app_info_t.

(** arg_parse, and arg_make_syntax_err_help_msg's two ways out. *)
Definition with_args (tbl : option command) (argv : list string) (k : parsed -> outcome) : outcome :=
  let p := arg_parse tbl argv in
  if 0 <? pa_help p then Exit 0 else if 0 <? pa_errors p then Exit EXIT_FAILURE else k p.

Definition main_commands : table :=
  list_to_map [("help", Help); ("bm", Bm); ("sm", Sm); ("han", Han); ("info", Info); ("dm", Dm)].

Definition register_group (c : command) (t : table) : table :=
  match c with
  | Bm => <["show" := BmShow]> t
  | Sm => <["core" := SmCore]> t
  | Han => <["wifi" := HanWifi]> (<["ble" := HanBle]> t)
  | _ => t
  end.

(** *** The commands that launch or print *)

Definition cmd_info_proc (argv : list string) : outcome :=
  with_args (Some Info) argv (fun _ => Run (show_info info)).

Definition cmd_dm_proc (argv : list string) : outcome :=
  with_args (Some Dm) argv (fun p =>
    Run (run_manifest_service_main (sval p "profile" (ai_profile_path info))
           (sval p "rep" (ai_default_rep_url info)) (sval p "pub" (ai_default_pub_url info)))).

Definition cmd_bm_show_proc (argv : list string) : outcome :=
  with_args (Some BmShow) argv (fun p =>
    match pa_str p "" with None => Exit 1 | Some file => Run (show_binding_map file) end).

Definition cmd_sm_core_proc (argv : list string) : outcome :=
  with_args (Some SmCore) argv (fun p => Run (run_core_main (core_config p))).

Definition cmd_han_ble_proc (argv : list string) : outcome :=
  with_args (Some HanBle) argv (fun p =>
    Run (run_han_ble_main (sval p "svc-rep" HES_MANIFEST_REP_URL) (sval p "svc-pub" HES_MANIFEST_PUB_URL)
           (default 1 (pa_int p "module-ref")) (sval p "hub-pub" HES_HUB_PUB_URL)
           (sval p "hub-sub" HES_HUB_SUB_URL) (pa_str p "mac-override"))).

Definition cmd_han_wifi_proc (argv : list string) : outcome :=
  with_args (Some HanWifi) argv (fun p =>
    Run (run_han_wifi_main (sval p "svc-rep" HES_MANIFEST_REP_URL) (sval p "svc-pub" HES_MANIFEST_PUB_URL)
           (strtoul32 (sval p "module-ref" "2")) (sval p "hub-pub" HES_HUB_PUB_URL)
           (sval p "hub-sub" HES_HUB_SUB_URL) (sval p "bulb-ip" DEFAULT_BULB_IP))).

(** *** The commands that run others

    [run]: the proc of another command, with its argument vector and the table. *)

Definition arg_cmd_dispatch (run : command -> list string -> table -> outcome)
  (name : string) (argv : list string) (t : table) : outcome :=
  match t !! name with None => Crash | Some c => run c argv t end.

(** [cmd_bm_proc], [cmd_sm_proc] and [cmd_han_proc]. *)
Definition cmd_group_proc (run : command -> list string -> table -> outcome)
  (c : command) (argv : list string) (t : table) : outcome :=
  match argv with
  | [] | [_] => Exit 1
  | _ :: ((name :: _) as argv) => arg_cmd_dispatch run name argv (register_group c t)
  end.

(** The exit code of a command's help page is not the command's. *)
Definition cmd_help_proc (run : command -> list string -> table -> outcome)
  (argv : list string) (t : table) : outcome :=
  with_args (Some Help) argv (fun p =>
    match pa_str p "" with
    | None => Run (list_commands (merge_sort String.le (fst <$> map_to_list t)))
    | Some name =>
        match t !! name with
        | None => Exit 1
        | Some c => match run c [""; name; "--help"] t with Exit _ => Exit 0 | o => o end
        end
    end).

(** The proc registered for a command; [argv] is never empty. [fuel] bounds the calls the
    commands make of one another. *)
Fixpoint proc (fuel : nat) (c : command) (argv : list string) (t : table) : outcome :=
  match fuel with
  | O => Diverge
  | S fuel =>
      match c with
      | Bm | Sm | Han => cmd_group_proc (proc fuel) c argv t
      | Help => cmd_help_proc (proc fuel) argv t
      | Info => cmd_info_proc argv
      | Dm => cmd_dm_proc argv
      | BmShow => cmd_bm_show_proc argv
      | SmCore => cmd_sm_core_proc argv
      | HanBle => cmd_han_ble_proc argv
      | HanWifi => cmd_han_wifi_proc argv
      end
  end.

(** ** main *)

(** The search of one name in [argv], from the index found so far. *)
Definition search_name (argv : list string) (idx : nat) (key : string) : nat :=
  fold_left (fun idx i => if (bool_decide (argv !! i = Some key) && (i <? idx)%nat)%bool then i else idx)
    (seq 1 (length argv - 1)) idx.

Definition arg_cmd_find_subcmd_index (keys argv : list string) : option nat :=
  let idx := fold_left (search_name argv) keys (length argv) in
  if (idx =? length argv)%nat then None else Some idx.

(** [keys]: the names in the order the table is walked in. *)
Definition dispatch_main (keys argv : list string) : outcome :=
  match arg_cmd_find_subcmd_index keys argv with
  | None => Exit 1
  | Some i =>
      let p := arg_parse None (take i argv) in
      if 0 <? pa_errors p then Exit EXIT_FAILURE
      else
        match drop i argv with
        | [] => Exit 1
        | (subcmd :: _) as subcmd_argv =>
            match main_commands !! subcmd with
            | None => Exit 1
            | Some c => proc (length argv + 4) c subcmd_argv main_commands
            end
        end
  end.
End commands.

Definition main {args : ArgTable} (h : host) (argv : list string) : outcome :=
  match get_app_info h with
  | None => Exit EXIT_FAILURE
  | Some info =>
      if (length argv =? 1)%nat then Exit EXIT_FAILURE
      else dispatch_main info (fst <$> map_to_list main_commands) argv
  end.

(** ** Where the subcommand is *)

Section index.
Variable argv : list string.

Lemma search_name_spec key (l : list nat) idx :
  let r := fold_left (fun idx i => if (bool_decide (argv !! i = Some key) && (i <? idx)%nat)%bool then i else idx) l idx in
  (r <= idx)%nat /\ (r = idx \/ (r ∈ l /\ argv !! r = Some key)) /\
  forall j, j ∈ l -> argv !! j = Some key -> (r <= j)%nat.
Proof.
  revert idx. induction l as [|i l IH]; intros idx; cbn [fold_left].
  - split_and!; [done|by left|]. by intros j ?%elem_of_nil.
  - destruct (bool_decide (argv !! i = Some key) && (i <? idx)%nat)%bool eqn:E.
    + apply andb_prop in E as [Hi%bool_decide_eq_true Hlt%Nat.ltb_lt]. destruct (IH i) as (H1 & H2 & H3).
      split_and!; [lia| |].
      * right. destruct H2 as [-> |[H2 H2']]; (split; [|done]); [by left|by right].
      * intros j [->|Hj]%elem_of_cons Hk; [lia|by apply H3].
    + destruct (IH idx) as (H1 & H2 & H3). split_and!; [done| |].
      * destruct H2 as [H2|[H2 H2']]; [by left|right; split; [by right|done]].
      * intros j [->|Hj]%elem_of_cons Hk; [|by apply H3].
        rewrite bool_decide_eq_true_2 in E by done. apply Nat.ltb_ge in E. lia.
Qed.

Lemma search_names_spec keys idx :
  let r := fold_left (search_name argv) keys idx in
  (r <= idx)%nat /\
  (r = idx \/ ((1 <= r < length argv)%nat /\ exists key, key ∈ keys /\ argv !! r = Some key)) /\
  forall j key, (1 <= j < length argv)%nat -> key ∈ keys -> argv !! j = Some key -> (r <= j)%nat.
Proof.
  revert idx. induction keys as [|key keys IH]; intros idx; cbn [fold_left].
  - split_and!; [done|by left|]. by intros j key _ ?%elem_of_nil.
  - destruct (search_name_spec key (seq 1 (length argv - 1)) idx) as (A1 & A2 & A3).
    fold (search_name argv idx key) in A1, A2, A3. destruct (IH (search_name argv idx key)) as (B1 & B2 & B3).
    split_and!; [lia| |].
    + destruct B2 as [-> |[B2 (k & Hk & B2')]]; [|right; split; [done|exists k; by split; [right|]]].
      destruct A2 as [-> |[A2 A2']]; [by left|]. right. apply elem_of_seq in A2.
      split; [lia|]. exists key. by split; [left|].
    + intros j k Hj [->|Hk]%elem_of_cons Hjk; [|by apply (B3 j k)]. etransitivity; [exact B1|].
      apply A3; [|done]. apply elem_of_seq. lia.
Qed.

(** The global options end at the first word after the program's name that names a command,
    whatever the order the command table is walked in: an option's value is taken for a
    command when it has a command's name. *)
Theorem subcommand_index_spec keys i :
  arg_cmd_find_subcmd_index keys argv = Some i <->
  (1 <= i < length argv)%nat /\ (exists w, argv !! i = Some w /\ w ∈ keys) /\
  forall j w, (1 <= j < i)%nat -> argv !! j = Some w -> w ∉ keys.
Proof.
  unfold arg_cmd_find_subcmd_index. destruct (search_names_spec keys (length argv)) as (H1 & H2 & H3).
  set (r := fold_left _ _ _) in *. destruct (Nat.eqb_spec r (length argv)) as [E|E].
  - split; [done|]. intros (Hi & (w & Hw & Hk) & _). specialize (H3 i w Hi Hk Hw). lia.
  - destruct H2 as [H2|[Hr (key & Hkey & Hrk)]]; [done|]. split.
    + intros [= <-]. split_and!; [lia|lia|by exists key|]. intros j w Hj Hw Hin.
      specialize (H3 j w ltac:(lia) Hin Hw). lia.
    + intros (Hi & (w & Hw & Hin) & Hfirst). specialize (H3 i w Hi Hin Hw).
      destruct (decide (r = i)) as [->|Hne]; [done|]. destruct (Hfirst r key ltac:(lia) Hrk Hkey).
Qed.
End index.

(** ** What a command line means *)

(** Every name a command is ever registered under. *)
Definition all_commands : table := list_to_map
  [("help", Help); ("bm", Bm); ("sm", Sm); ("han", Han); ("info", Info); ("dm", Dm);
   ("show", BmShow); ("core", SmCore); ("ble", HanBle); ("wifi", HanWifi)].

Definition is_group (c : command) : bool := match c with Bm | Sm | Han => true | _ => false end.

(** What the code relies on of the parser: --help is counted where help puts it. *)
Class ArgTableOk (args : ArgTable) := {
  help_is_counted : forall c argv0, 0 < pa_help (arg_parse (Some c) [argv0; "--help"]);
  help_is_counted_behind : forall c argv0 name, is_Some (all_commands !! name) ->
    0 < pa_help (arg_parse (Some c) [argv0; name; "--help"]);
}.

Section meaning.
Context {args : ArgTable} {ok : ArgTableOk args}.
Variable info : app_info_t.

(** The meaning of a command's words, without fuel: a group passes to the command its next word
    names, which any of the commands registered so far may be; a word that names none fails an
    assertion, and so does asking help for a group. *)
Fixpoint expected (c : command) (argv : list string) (t : table) {struct argv} : outcome :=
  if is_group c then
    match argv with
    | _ :: ((name :: _) as rest) =>
        match register_group c t !! name with
        | None => Crash
        | Some c' => expected c' rest (register_group c t)
        end
    | _ => Exit 1
    end
  else
    match c with
    | Help =>
        with_args (Some Help) argv (fun p =>
          match pa_str p "" with
          | None => Run (list_commands (merge_sort String.le (fst <$> map_to_list t)))
          | Some name =>
              match t !! name with
              | None => Exit 1
              | Some c' => if is_group c' then Crash else Exit 0
              end
          end)
    | c => proc info 1 c argv t
    end.

Lemma leaf_fuel k c argv t : is_group c = false -> c <> Help -> proc info (S k) c argv t = proc info 1 c argv t.
Proof. intros Hg Hh. by destruct c. Qed.

Lemma register_all c t : t ⊆ all_commands -> register_group c t ⊆ all_commands.
Proof.
  intros Ht. destruct c; cbn [register_group]; try done; repeat apply insert_subseteq_l; done.
Qed.

(** What help makes of a name: the page of a command, or the failure of a group to find the
    command "--help". *)
Lemma help_of k c name t : t ⊆ all_commands -> t !! name = Some c ->
  proc info (S (S (S k))) c [""; name; "--help"] t = if is_group c then Crash else Exit 0.
Proof.
  intros Ht Hc. assert (Hall : all_commands !! name = Some c) by (eapply lookup_weaken; [exact Hc|exact Ht]).
  assert (Hpage : forall k c', is_group c' = false -> proc info (S k) c' [""; name; "--help"] t = Exit 0).
  { intros k' c' Hg. destruct c'; try done; cbv beta iota zeta delta [proc cmd_help_proc cmd_info_proc cmd_dm_proc
      cmd_bm_show_proc cmd_sm_core_proc cmd_han_ble_proc cmd_han_wifi_proc with_args];
      by rewrite (proj2 (Z.ltb_lt 0 _)) by (apply help_is_counted_behind; by eexists). }
  destruct (is_group c) eqn:Eg; [|by apply Hpage].
  assert (Hname : forall t', t' ⊆ all_commands -> t' !! "--help" = None).
  { intros t' Ht'. destruct (t' !! "--help") eqn:E; [|done].
    pose proof (lookup_weaken _ _ _ _ E Ht') as H. vm_compute in H. discriminate. }
  assert (Hsome : is_Some (register_group c t !! name)).
  { assert (Hn : is_Some (t !! name)) by (by eexists). destruct c; cbn [register_group]; try done;
      repeat (apply lookup_insert_is_Some'; right); done. }
  assert (Hlook : register_group c t !! name = Some c).
  { destruct Hsome as [c' E]. pose proof (lookup_weaken _ _ _ _ E (register_all c t Ht)) as H.
    rewrite Hall in H. rewrite E. symmetry. exact H. }
  destruct c; try done; cbn [proc]; unfold cmd_group_proc, arg_cmd_dispatch; rewrite Hlook; cbn [proc];
    unfold cmd_group_proc, arg_cmd_dispatch; rewrite Hname; try done; by repeat apply register_all.
Qed.

(** C21: What the commands do with a command line is a function of its words: their calls of one
    another end, a group passes the words behind it on, and the program fails an assertion
    exactly where a group is followed by a word that names no command, or help is asked for a
    group. *)
Theorem proc_means c argv t n : t ⊆ all_commands -> (length argv <= n)%nat ->
  proc info (n + 4) c argv t = expected c argv t.
Proof.
  revert c t n. induction argv as [|x argv IH]; intros c t n Ht Hn.
  - replace (n + 4)%nat with (S (n + 3)) by lia. destruct c; try done. cbn [proc expected is_group].
    unfold cmd_help_proc, with_args. destruct (0 <? _); [done|]. destruct (0 <? _); [done|].
    destruct (pa_str _ _) as [name|]; [|done]. destruct (t !! name) as [c'|] eqn:E; [|done].
    replace (n + 3)%nat with (S (S (S n))) by lia. rewrite (help_of n c' name t Ht E). by destruct (is_group c').
  - replace (n + 4)%nat with (S (n + 3)) by lia.
    destruct c; try done; cbn [proc expected is_group];
      try (destruct argv as [|name argv]; [done|]; unfold cmd_group_proc, arg_cmd_dispatch;
           destruct (register_group _ t !! name) as [c'|]; [|done];
           replace (n + 3)%nat with (pred n + 4)%nat by (cbn [length] in Hn; lia);
           apply IH; [by apply register_all|cbn [length] in *; lia]).
    unfold cmd_help_proc, with_args. destruct (0 <? _); [done|]. destruct (0 <? _); [done|].
    destruct (pa_str _ _) as [name|]; [|done]. destruct (t !! name) as [c'|] eqn:E; [|done].
    replace (n + 3)%nat with (S (S (S n))) by lia. rewrite (help_of n c' name t Ht E). by destruct (is_group c').
Qed.
End meaning.

(** ** Consequences *)

Lemma main_commands_known : main_commands ⊆ all_commands.
Proof.
  unfold main_commands, all_commands. rewrite !list_to_map_cons. repeat apply insert_mono. apply map_empty_subseteq.
Qed.

(** Ohmg help bm, ohmg help sm and ohmg help han do not print a page: the group is run with
    the words of the help call, finds itself, then looks for a command called --help and fails
    an assertion. *)
Theorem help_for_a_group_crashes {args : ArgTable} {ok : ArgTableOk args} h info prog g :
  get_app_info h = Some info -> g ∈ ["bm"; "sm"; "han"] ->
  pa_errors (arg_parse None [prog]) = 0 ->
  (let p := arg_parse (Some Help) ["help"; g] in
   pa_help p = 0 /\ pa_errors p = 0 /\ pa_str p "" = Some g) ->
  main h [prog; "help"; g] = Crash.
Proof.
  intros Hinfo Hg Hnone (Hh & He & Hs). unfold main. rewrite Hinfo. cbn [length Nat.eqb]. unfold dispatch_main.
  replace (arg_cmd_find_subcmd_index _ _) with (Some 1%nat)
    by (repeat (apply elem_of_cons in Hg as [->|Hg]); [vm_compute; reflexivity..|by apply elem_of_nil in Hg]).
  cbn [take drop]. rewrite Hnone. cbn [Z.ltb Z.compare].
  replace (main_commands !! "help") with (Some Help) by (vm_compute; reflexivity).
  cbv beta iota. change (length [prog; "help"; g] + 4)%nat with (3 + 4)%nat.
  rewrite (proc_means info Help ["help"; g] main_commands 3) by (apply main_commands_known || (cbn; lia)).
  cbn [expected is_group]. unfold with_args. rewrite Hh, He, Hs. cbn [Z.ltb Z.compare].
  repeat (apply elem_of_cons in Hg as [->|Hg]); [vm_compute; reflexivity..|by apply elem_of_nil in Hg].
Qed.

(** What the core is launched with when its options are not given: the gateway's own
    endpoints, no policy, every gate in force, and a time synchronisation that is the one of a
    configuration with nothing set. The identity is the empty name, with which the module
    refuses to start. *)
Theorem core_defaults (p : parsed) :
  (forall name, pa_str p name = None) -> (forall name, pa_lit p name = 0) ->
  let l := core_config p in
  cl_pub_url l = HES_HUB_PUB_URL /\ cl_sub_url l = HES_HUB_SUB_URL /\
  cf_auth_policy (cl_core l) = None /\ cf_no_authz (cl_core l) = false /\
  cf_manifest_rep_url (cl_core l) = Some HES_MANIFEST_REP_URL /\
  time_sync_start (cl_time l) = time_sync_start (mk_sync_config None 0 true None None true 0 0) /\
  forall K O (psa : Psa K O) A D (kdf : PsaKdf K D) XD XN (lib : LibXml XD XN) (target : Target) (nng : Nng) W
    json_load_file json_loads (service : W -> string -> W * option string) opened readings op w (null_ctx : A) app bus,
    core_start json_load_file json_loads service opened readings op (cl_core l) w null_ctx app bus = None.
Proof.
  intros Hs Hl. cbn zeta. unfold core_config, sval. cbn [cl_pub_url cl_sub_url cl_core cl_time].
  rewrite !Hs, !Hl. split_and!; done.
Qed.

(** Where the process keeps its files: the configuration directory and file and the cache are
    whole or the start is refused, and so is a path that leaves no room for its terminator. The
    other joins are not looked at and are cut to the buffer. *)
Theorem app_info_paths h info : get_app_info h = Some info ->
  (String.length (ai_config_dir info) < MAX_PATH_SIZE)%nat /\
  (String.length (ai_config_path info) < MAX_PATH_SIZE)%nat /\
  (String.length (ai_cache_home info) < MAX_PATH_SIZE)%nat /\
  ai_config_path info = cwk_path_join h (ai_config_dir info) "config.toml" /\
  ai_config_dir info = (match uv_os_getenv h "XDG_CONFIG_HOME" with
                        | Some d => d | None => ai_home info ++ "/.config" end ++ "/ohmg")%string /\
  ai_cache_home info = (match uv_os_getenv h "XDG_CACHE_HOME" with
                        | Some d => d | None => ai_home info ++ "/.cache" end ++ "/ohmg")%string.
Proof.
  assert (Hfit : forall n s t, fitting n s = Some t -> t = s /\ (String.length t < n)%nat).
  { intros n s t. unfold fitting. destruct (Nat.leb_spec n (String.length s)); [done|]. by intros [= <-]. }
  unfold get_app_info, get_config_path. destruct (uv_exepath h); [|done]. cbn [mbind option_bind].
  destruct (uv_os_homedir h) as [home|] eqn:Eh; [|done]. destruct (uv_cwd h); [|done].
  destruct (uv_os_tmpdir h); [|done]. cbn [mbind option_bind].
  destruct (get_config_dir h MAX_PATH_SIZE) as [dir|] eqn:Ed; [|done]. cbn [mbind option_bind].
  destruct (fitting _ (cwk_path_join _ _ _)) as [path|] eqn:Ep; [|done]. cbn [mbind option_bind].
  destruct (get_cache_dir h MAX_PATH_SIZE) as [cache|] eqn:Ec; [|done]. cbn [mbind option_bind].
  intros [= <-]. cbn [ai_config_dir ai_config_path ai_cache_home ai_home].
  unfold get_config_dir in Ed. unfold get_cache_dir in Ec. rewrite Eh in Ed, Ec. apply Hfit in Ep as [-> Hp].
  assert (Hd : dir = (match uv_os_getenv h "XDG_CONFIG_HOME" with
    | Some d => d | None => home ++ "/.config" end ++ "/ohmg")%string /\ (String.length dir < MAX_PATH_SIZE)%nat).
  { destruct (uv_os_getenv h "XDG_CONFIG_HOME"); apply Hfit in Ed as [-> Hd]; (split; [|exact Hd]); [done|].
    by rewrite str_app_assoc. }
  assert (Hc : cache = (match uv_os_getenv h "XDG_CACHE_HOME" with
    | Some d => d | None => home ++ "/.cache" end ++ "/ohmg")%string /\ (String.length cache < MAX_PATH_SIZE)%nat).
  { destruct (uv_os_getenv h "XDG_CACHE_HOME"); apply Hfit in Ec as [-> Hc]; (split; [|exact Hc]); [done|].
    by rewrite str_app_assoc. }
  destruct Hd, Hc. by split_and!.
Qed.

(** ** The statements at a concrete input *)

(** A parser that counts switches, takes the word behind an option for its value, and the first
    word without dashes for the free argument. *)
Definition switch_count (s : string) (argv : list string) : Z := Z.of_nat (length (filter (fun w => w = s) argv)).

Fixpoint value_behind (s : string) (argv : list string) : option string :=
  match argv with
  | w :: argv' => if w =?s s then head argv' else value_behind s argv'
  | [] => None
  end.

#[local] Instance ex_args : ArgTable := {|
  arg_parse _ argv := mk_parsed 0 (switch_count "--help" (tail argv))
    (fun name => if name =?s "" then find_first (fun w => negb (str_prefix "--" w)) (tail argv)
                 else value_behind ("--" ++ name) (tail argv))
    (fun _ => None) (fun name => switch_count ("--" ++ name) (tail argv))
|}.

#[local] Instance ex_args_ok : ArgTableOk ex_args.
Proof.
  split; intros c argv0; [done|]. intros name _. cbn [arg_parse ex_args pa_help tail]. unfold switch_count.
  rewrite filter_cons. destruct (decide (name = "--help")); done.
Qed.

Definition ex_host : host :=
  mk_host (Some "/usr/bin/ohmg") (Some "/home/u") (Some "/") (Some "/tmp") (fun _ => None) (fun a b => (a ++ "/" ++ b)%string).

Definition ex_info : app_info_t :=
  mk_app_info "/usr/bin/ohmg" "/home/u" "/" "/tmp" "/home/u/.ohmg" "/home/u/.ohmg/state" "/home/u/.cache/ohmg"
    "/home/u/.config/ohmg" "/home/u/.config/ohmg/config.toml" "/home/u/.config/ohmg/profile.json"
    HES_MANIFEST_REP_URL HES_MANIFEST_PUB_URL.

Lemma help_for_a_group_crashes_witness : main ex_host ["ohmg"; "help"; "sm"] = Crash.
Proof.
  apply (help_for_a_group_crashes ex_host ex_info "ohmg" "sm"); [vm_compute; reflexivity| |reflexivity|].
  - right. left.
  - split_and!; reflexivity.
Defined.

Lemma proc_means_witness :
  proc ex_info (2 + 4) Sm ["sm"; "core"] main_commands =
  Run (run_core_main (core_config (arg_parse (Some SmCore) ["core"]))).
Proof.
  rewrite (proc_means ex_info Sm ["sm"; "core"] main_commands 2); [vm_compute; reflexivity|apply main_commands_known|].
  apply Nat.leb_le. reflexivity.
Defined.

Lemma core_defaults_witness :
  cf_auth_policy (cl_core (core_config (mk_parsed 0 0 (fun _ => None) (fun _ => None) (fun _ => 0)))) = None.
Proof. apply (core_defaults (mk_parsed 0 0 (fun _ => None) (fun _ => None) (fun _ => 0))); done. Defined.

Lemma app_info_paths_witness : (String.length (ai_config_path ex_info) < MAX_PATH_SIZE)%nat.
Proof. apply (app_info_paths ex_host ex_info). vm_compute. reflexivity. Defined.

(** The value of --config is taken for the command when it has the name of one. *)
Example ex_config_named_info :
  arg_cmd_find_subcmd_index ["help"; "bm"; "sm"; "han"; "info"; "dm"] ["ohmg"; "--config"; "info"; "sm"; "core"] =
  Some 2%nat.
Proof. reflexivity. Qed.

(** A group passes any command on, not only its own. *)
Example ex_group_runs_other_command : main ex_host ["ohmg"; "han"; "info"] = Run (show_info ex_info).
Proof. vm_compute. reflexivity. Qed.

Example ex_unknown_word_crashes : main ex_host ["ohmg"; "sm"; "cor"] = Crash.
Proof. vm_compute. reflexivity. Qed.
