(* ===== verification/SyncClock.v ===== *)
(** * From a time server to the stamp of a message

    Joins services/time/sntp.c, services/time/time_sync.c with its threads,
    common/hes_clock.c and the sending half of common/hes_bus.c: the correction the worker
    thread publishes is what the bus stamps messages with. *)

From S2P Require Import Prelude CLib HesCommon Json Https GeoTz GeoTzFacts Sntp SntpFacts TimeSync TimeSyncFacts SyncThread SyncThreadFacts.

(** ** Honest servers

    A server that leads the host's clock by [theta] and stamps truthfully, over a network
    whose two ways take [d1] and [d2] nanoseconds, at most [D] together. *)

(** The exchange with it. *)
Record course := mk_course { cs_T1 : Z; cs_T2 : Z; cs_T3 : Z; cs_T4 : Z; cs_d1 : Z; cs_d2 : Z }.

Record honest_exchange (theta D : Z) (ai : udp_peer) (request : bytes) (n : Z) (reply : bytes) (c : course) : Prop := {
  hx_len : n = Z.of_nat SNTP_PACKET_LEN;
  hx_clocks : clock_time (pr_t1 ai) /\ clock_time (pr_t4 ai) /\
    timespec_to_ns (pr_t1 ai) = Some (cs_T1 c) /\ timespec_to_ns (pr_t4 ai) = Some (cs_T4 c);
  hx_head : Z.land (byte_at reply 0) 7 = 4 /\ Z.shiftr (byte_at reply 0) 6 <> 3 /\ 1 <= byte_at reply 1 <= 15;
  hx_echo : take 8 (drop NTP_ORIGINATE_TS reply) = take 8 (drop NTP_TRANSMIT_TS request);
  hx_stamps : take 8 (drop NTP_RECEIVE_TS reply) = unix_ns_to_ntp_ts (cs_T2 c) /\
    take 8 (drop NTP_TRANSMIT_TS reply) = unix_ns_to_ntp_ts (cs_T3 c);
  hx_era : in_ntp_era (cs_T1 c) /\ in_ntp_era (cs_T2 c) /\ in_ntp_era (cs_T3 c);
  hx_course : cs_T2 c = cs_T1 c + theta + cs_d1 c /\ cs_T4 c = cs_T3 c - theta + cs_d2 c /\ cs_T2 c < cs_T3 c;
  hx_delay : 0 <= cs_d1 c /\ 0 <= cs_d2 c /\ 1 <= cs_d1 c + cs_d2 c <= D;
}.

(** Whatever arrives is refused, or is such a server's answer. *)
Definition peer_honest (theta D : Z) (ai : udp_peer) : Prop :=
  forall tv request n reply,
    sntp_build_request (pr_t1 ai) = Some request -> pr_recv ai tv request = (n, reply) ->
    sntp_compute_offset request reply n (pr_t4 ai) = Some None \/
    exists c, honest_exchange theta D ai request n reply c.

Definition network_honest (theta D : Z) (getaddrinfo : string -> option (list udp_peer)) : Prop :=
  forall server res, getaddrinfo server = Some res -> Forall (peer_honest theta D) res.

(** Within half the round trip, and 1.5 ns of rounding. *)
Definition close (theta D offset_ns : Z) : Prop := 2 * Z.abs (offset_ns - theta) <= D + 3.

Section honest.
Variables theta D : Z.
Hypothesis HD : D <= SNTP_MAX_DELAY_NS - 2.
Hypothesis Htheta : Z.abs theta <= SNTP_MAX_OFFSET_NS - SNTP_MAX_DELAY_NS.

Lemma honest_exchange_close ai request n reply c r :
  sntp_build_request (pr_t1 ai) = Some request -> honest_exchange theta D ai request n reply c ->
  sntp_compute_offset request reply n (pr_t4 ai) = Some (Some r) -> close theta D (sr_offset_ns r).
Proof.
  intros Hq [Hn (Hc1 & Hc4 & HT1 & HT4) (Hm & Hl & Hs) He (HR & HX) (He1 & He2 & He3) (H2 & H4 & H23) (Hd1 & Hd2 & Hd)] Hr.
  destruct (honest_reply_gives_offset (pr_t1 ai) (pr_t4 ai) request reply (cs_T1 c) (cs_T2 c) (cs_T3 c) (cs_T4 c)
    theta (cs_d1 c) (cs_d2 c)) as (r' & Hr' & Ho & _); try done; [lia|].
  subst n. rewrite Hr in Hr'. injection Hr' as <-. unfold close. lia.
Qed.

Lemma attempts_close tv res r :
  Forall (peer_honest theta D) res -> sntp_attempts tv res = Some (Some r) -> close theta D (sr_offset_ns r).
Proof.
  induction 1 as [|ai res Hai _ IH]; cbn [sntp_attempts]; [done|].
  destruct (sntp_attempt tv ai) as [[r'|]|] eqn:E; [|apply IH|done]. intros [= ->]. unfold sntp_attempt in E.
  destruct (negb (pr_socket ai)); [done|]. destruct (negb (pr_connect ai)); [done|].
  destruct (sntp_build_request (pr_t1 ai)) as [request|] eqn:Eq; [|done]. destruct (negb _); [done|].
  destruct (pr_recv ai tv request) as [n reply] eqn:Er. destruct (n <? _); [done|].
  destruct (Hai tv request n reply Eq Er) as [H|[c H]]; [congruence|]. by eapply honest_exchange_close.
Qed.

Lemma first_answer_close getaddrinfo timeout_ms servers r :
  network_honest theta D getaddrinfo -> first_answer getaddrinfo timeout_ms servers = Some (Some r) ->
  close theta D (sr_offset_ns r).
Proof.
  intros Hn (b & s & a & _ & _ & H)%first_answer_spec. unfold sntp_query in H.
  destruct (getaddrinfo s) as [res|] eqn:E; [|done]. eapply attempts_close; [|done]. by eapply Hn.
Qed.

(** ** The clock under the worker *)

(** Every correction the code sets is close, and when it marks the snapshot as synchronised
    one has been set; [good]: one was set already. *)
Fixpoint corrects {A} (good : Prop) (c : code A) : Prop :=
  match c with
  | lock k | unlock k => corrects good k
  | load_snap k => forall s, corrects good (k s)
  | update f k => (good \/ forall s, sn_ntp_valid (f s) = sn_ntp_valid s) /\ corrects good k
  | get_clock k => forall o, corrects good (k o)
  | set_clock o k => close theta D o /\ corrects True k
  | ret _ | undefined => True
  | _ => False
  end.

Lemma corrects_mono {A} (c : code A) (P Q : Prop) : (P -> Q) -> corrects P c -> corrects Q c.
Proof.
  revert P Q. induction c; intros P Q HPQ; cbn [corrects]; try done; try (by eauto).
  - intros [Hf Hc]. split; [destruct Hf; auto|by eapply IHc].
Qed.

Lemma corrects_bind {A B} P (c : code A) (f : A -> code B) :
  corrects P c -> (forall a, corrects False (f a)) -> corrects P (bind c f).
Proof.
  intros Hc Hf. revert P Hc. induction c; intros P Hc; cbn [bind corrects] in *; try done; try (by eauto).
  - eapply corrects_mono; [|apply Hf]. done.
  - destruct Hc. split; [done|by apply IHc].
  - destruct Hc. split; [done|by apply IHc].
Qed.

Lemma refresh_time_corrects cfg e : network_honest theta D (te_getaddrinfo e) -> corrects False (refresh_time cfg e).
Proof.
  intros Hn. unfold refresh_time, defined. destruct (first_answer _ _ _) as [[r|]|] eqn:E; [|done|done].
  apply first_answer_close in E; [|done]. cbn. split_and!; auto.
Qed.

Lemma refresh_zone_corrects json_loads cfg e env : corrects False (refresh_zone json_loads cfg e env).
Proof.
  apply corrects_bind.
  - unfold zone_name_code. destruct (ts_forced_tz cfg); [|done]. destruct (if ts_tz_enabled cfg then _ else _); cbn; auto.
  - intros [name|]; [|done]. cbn. intros o. destruct (geo_tz_offsets _ _ _ _) as [[[std dst]|] env']; [|done].
    cbn. split_and!; auto.
Qed.

Lemma worker_turn_corrects json_loads cfg e l :
  network_honest theta D (te_getaddrinfo e) -> corrects False (worker_turn json_loads cfg e l).
Proof.
  intros Hn. apply corrects_bind; [unfold zone_turn|intros l'; unfold time_turn];
    destruct (te_mono e) as [[[m1 m2] m3] m4]; destruct (due _ _); try done; apply corrects_bind.
  - apply refresh_zone_corrects.
  - intros env. by destruct (if ts_tz_enabled cfg then _ else _).
  - by apply refresh_time_corrects.
  - intros []. by destruct (let* _ := _ in _).
Qed.

(** Once the clock is close it stays so, and a snapshot says so only then. *)
Definition clock_told (s : system) : Prop :=
  let m := sy_mem s in
  let told x := sn_ntp_valid x = true -> close theta D (me_clock m) in
  told (me_snap m) /\ Forall told (reads s) /\
  match sy_worker s with
  | Turning c => exists P : Prop, corrects P c /\ (P -> close theta D (me_clock m))
  | _ => True
  end.

Lemma op_corrects P (c : code locals) m c' m' :
  corrects P c -> (P -> close theta D (me_clock m)) -> (sn_ntp_valid (me_snap m) = true -> close theta D (me_clock m)) ->
  op Worker c m = Some (c', m') ->
  (close theta D (me_clock m) -> close theta D (me_clock m')) /\
  (sn_ntp_valid (me_snap m') = true -> close theta D (me_clock m')) /\
  exists Q : Prop, corrects Q c' /\ (Q -> close theta D (me_clock m')).
Proof.
  intros Hc HP Hs H. destruct c; cbn [op corrects] in *; try done.
  - destruct (me_owner m); [done|]. injection H as <- <-. eauto.
  - destruct (me_owner m) as [[]|]; try done. injection H as <- <-. eauto.
  - injection H as <- <-. eauto.
  - injection H as <- <-. destruct Hc as [Hf Hc]. split; [done|]. cbn [me_snap me_clock]. split; [|eauto].
    destruct Hf as [HPP|Hf]; [auto|]. by rewrite Hf.
  - injection H as <- <-. eauto.
  - injection H as <- <-. destruct Hc as [Ho Hc]. cbn. split_and!; [done..|]. by exists True.
Qed.

Lemma told_forall (l : list time_snapshot_t) a b :
  (close theta D a -> close theta D b) ->
  Forall (fun x => sn_ntp_valid x = true -> close theta D a) l -> Forall (fun x => sn_ntp_valid x = true -> close theta D b) l.
Proof. intros Hab H. eapply Forall_impl; [exact H|]. auto. Qed.

Variable json_loads : string -> option json.
Variable config : time_sync_config_t.
Variable clock0 : Z.
Variable tz_env : option string.
Abbreviation cfg := (TimeSync.time_sync_start config).

Lemma step_told c s s' :
  threads_ok s -> clock_told s -> step json_loads cfg c s = Some s' ->
  (forall e, c = BeginTurn e -> network_honest theta D (te_getaddrinfo e)) -> clock_told s'.
Proof.
  intros (sg & jn & hw & hc & Hw & Hc & Hx & Ho) (Hs & Hf & Hp) H He.
  destruct s as [m w cl ts got]. cbn in *. destruct c; cbn [step] in H.
  - apply step_worker_rule in H as (m' & w' & Hr & ->). cbn in *.
    destruct Hr as [k k' m' E|l|l k k' m' E|l d k Hm|l]; try done.
    + destruct Hp as (P & Hk & HP). destruct (op_corrects P k m k' m' Hk HP Hs E) as (Hcl & Hs' & Q & HQ).
      split_and!; [done| |by exists Q]. by eapply told_forall.
    + inversion Hw as [|? ? ? Hj Hk| |]; subst. destruct (op_waits _ _ _ _ _ _ _ Hk Hx Ho E) as (_ & _ & Es & Ec & _).
      split_and!; cbn; [by rewrite Es, Ec| |done]. eapply told_forall; [|exact Hf]. by rewrite Ec.
  - destruct w as [|l [[]| | | | | | | | | | | | |]| |]; try done. injection H as <-. split_and!; [done..|].
    exists False. split; [|done]. by apply worker_turn_corrects, He.
  - destruct w as [| |l k|]; try done. by injection H as <-.
  - destruct cl; try done. by injection H as <-.
  - destruct cl; try done. by injection H as <-.
  - apply step_caller_rule in H as (m' & w' & c' & got' & Hr & ->). cbn in *.
    destruct (caller_rule_ok _ _ _ _ _ _ _ _ _ _ _ _ Hr Hw Hc Hx Ho) as (Es & Ec & _).
    unfold clock_told. cbn [sy_mem sy_worker]. rewrite Es, Ec. split_and!; [done| |].
    + destruct (caller_reads _ _ _ ts _ _ _ _ _ Hr _ _ _ Hc) as [-> |[_ ->]]; [done|]. apply Forall_app. by split; [|constructor].
    + destruct Hr; try done; by destruct w.
Qed.

(** C28: under any schedule, with every server honest: once a caller has been told that the time
    comes from the network, every message the bus sends from then on is stamped with the
    servers' time to within half a round trip (and two nanoseconds), whenever the host's
    clock is read and whatever the worker is doing. *)
Theorem stamps_follow_the_servers s x sec nsec b msg :
  reaches json_loads cfg clock0 tz_env s ->
  Forall (fun e => network_honest theta D (te_getaddrinfo e)) (sy_turns s) ->
  x ∈ sy_got s -> time_sync_source_code x = "nt" ->
  bus_clock b (length (bus_sent b)) = clock_gettime (Some (sec, nsec)) (me_clock (sy_mem s)) ->
  let local := sec * NS_PER_SEC + nsec in
  SNTP_MAX_OFFSET_NS <= local < 2 ^ 63 ->
  exists m, bus_sent (hes_bus_send b msg) = bus_sent b ++ [m] /\
    2 * Z.abs (msg_timestamp_ns m - (local + theta)) <= D + 3.
Proof.
  intros Hs Hn Hx Hnt Hb local Hl.
  assert (Hclose : close theta D (me_clock (sy_mem s))).
  { assert (Hp : Forall (fun e => network_honest theta D (te_getaddrinfo e)) (sy_turns s) -> clock_told s).
    { clear - HD Htheta Hs. revert s Hs.
      apply (reaches_ind json_loads cfg clock0 tz_env
        (fun s => Forall (fun e => network_honest theta D (te_getaddrinfo e)) (sy_turns s) -> clock_told s)).
      - intros _. split_and!; [done|constructor|done].
      - intros c s s' Hs IH H Hn. assert (Ht : sy_turns s' = sy_turns s ++ match c with BeginTurn e => [e] | _ => [] end)
          by by eapply step_turns.
        rewrite Ht in Hn. apply Forall_app in Hn as [Hn He]. eapply step_told; [by eapply reached_ok|by apply IH|done|].
        intros e ->. by inversion He. }
    destruct (Hp Hn) as (_ & Hf & _). unfold reads in Hf. apply Forall_app in Hf as [Hf _].
    rewrite Forall_forall in Hf. apply (Hf x Hx). unfold time_sync_source_code in Hnt. by destruct (sn_ntp_valid x). }
  eexists. split; [reflexivity|]. cbn [msg_stamped msg_timestamp_ns]. rewrite Hb. unfold hes_clock_now_ns, clock_gettime.
  cbn [rd_time rd_offset_ns]. unfold hes_clock_offset_ns. fold local. unfold close in Hclose.
  unfold SNTP_MAX_OFFSET_NS, SNTP_MAX_DELAY_NS, NS_PER_SEC in *.
  rewrite (proj2 (Z.ltb_ge _ 0)) by lia. rewrite wrap_u_small by lia. lia.
Qed.
End honest.

(** ** The statement at a concrete input *)

Lemma ex_network_honest : network_honest 5000000000 30000000 ex_network.
Proof.
  intros server res. unfold ex_network. destruct (server =?s "time.google.com"); [|done]. intros [= <-].
  constructor; [|constructor]. intros tv request n reply Hq Hr. right.
  assert (Hq' : request = ex_request) by (vm_compute in Hq; injection Hq as <-; reflexivity). subst request.
  vm_compute in Hr. injection Hr as <- <-. clear Hq.
  exists (mk_course ex_T1 ex_T2 ex_T3 1700000000281000000 10000000 20000000).
  split; cbn [pr_t1 pr_t4 ex_peer cs_T1 cs_T2 cs_T3 cs_T4 cs_d1 cs_d2].
  all: try (repeat split; vm_compute; (reflexivity || discriminate)).
Qed.

Definition ex_bus_of (clock : Z) : hes_bus_t := mk_bus [] (fun _ => clock_gettime (Some (1700003600, 0)) clock).

Lemma stamps_follow_the_servers_witness :
  exists s m, ex_run ex_asleep = Some s /\
    bus_sent (hes_bus_send (ex_bus_of (me_clock (sy_mem s))) hes_msg_init) = [m] /\
    2 * Z.abs (msg_timestamp_ns m - 1700003605000000000) <= 30000003.
Proof.
  destruct (ex_run ex_asleep) as [s|] eqn:E; [|exfalso; vm_compute in E; discriminate].
  pose proof (ex_reaches _ _ E) as Hs.
  assert (Hf : sy_turns s = [ex_turn 0] /\ exists x, sy_got s = [x] /\ time_sync_source_code x = "nt")
    by (vm_compute in E; injection E as <-; split; [reflexivity|eexists; split; reflexivity]).
  clear E. destruct Hf as (Ht & x & Hx & Hnt).
  destruct (stamps_follow_the_servers 5000000000 30000000 ltac:(vm_compute; discriminate) ltac:(vm_compute; discriminate)
    (fun _ => None) ex_config 0 None s x 1700003600 0 (ex_bus_of (me_clock (sy_mem s))) hes_msg_init Hs) as (m & Hm & Hc).
  - rewrite Ht. constructor; [exact ex_network_honest|constructor].
  - rewrite Hx. left.
  - exact Hnt.
  - reflexivity.
  - vm_compute. split; [discriminate|reflexivity].
  - exists s, m. split; [reflexivity|]. split; [exact Hm|exact Hc].
Defined.
